(* ===== verification/_CoqProject ===== *)
-Q . S2P
Prelude.v
ByteIO.v
Text.v
Packets.v
InitPackets.v
Ip.v
CryptoLib.v
AudioData.v
Commands.v
PacketId.v
Algorithms.v
Codec.v
Delivery.v
Encode.v
BTree.v
Resend.v
Stats.v
Connection.v
Safety.v
SendSafety.v
Trust.v
Poll.v
Frames.v
ResendLoop.v
PollSafety.v
License.v
Crypto.v
KeyFormats.v
Identity.v
IdentityLevel.v
LicenseParse.v
LicenseBuild.v
AudioQueue.v
AudioWindow.v
AudioSafety.v
AudioDecode.v
AudioMixer.v
Client.v
ClientHandshake.v
ClientSpec.v
ClientSafety.v
ClientRun.v
Resolver.v
ResolverSpec.v
IpParse.v
Book.v
BookSpec.v
BookSend.v
BookMessages.v
Options.v
Library.v
LibrarySpec.v
LibraryCommands.v
Sync.v
SyncSpec.v
Strings.v
Types.v
TypesSpec.v
Declarations.v
Values.v
ValuesSpec.v
Messages.v
MessagesSpec.v
MessagesToBook.v
BookToMessages.v
Versions.v
BookToMessagesSpec.v
MessagesToBookSpec.v
SyncHandle.v
ClientAsync.v
Hex.v
BookHandler.v
BookTypes.v
BookHandlerSpec.v
BookEvents.v
BookStores.v
BookStoreSpec.v
BookHandlerRun.v
BookRequests.v
BookRequestsSpec.v
