(* ===== verification/Prelude.v ===== *)
(** Verification of tsclientlib, a library for TeamSpeak 3 clients.

    ** The program

    The library speaks a protocol over UDP.  From the bottom up:
    - packets and their headers, the packets of the handshake, audio packets and commands
      ([utils/tsproto-packets/src/packets.rs], [commands.rs]);
    - encryption, compression and splitting of packets ([tsproto/src/algorithms.rs]), the codec that
      numbers, joins and reorders packets ([tsproto/src/packet_codec.rs]);
    - the resender with its queues, window and round trip times, and the statistics of the
      connection ([tsproto/src/resend.rs]);
    - the connection that joins codec, resender and socket ([tsproto/src/connection.rs]);
    - licenses, keys and identities ([tsproto/src/license.rs], [utils/tsproto-types/src/crypto.rs],
      [tsproto/src/lib.rs]);
    - the client with the handshake ([tsproto/src/client.rs]);
    - the book, which is what a client knows of the server ([utils/ts-bookkeeping/src/data.rs]);
    - the resolution of addresses ([tsclientlib/src/resolver.rs]);
    - the connection of the library, which joins client, book and resolver, reconnects and keeps the
      user informed ([tsclientlib/src/lib.rs]), and its use from several tasks through handles
      ([tsclientlib/src/sync.rs]);
    - the reception of audio ([tsclientlib/src/audio.rs]);
    - the declarations of messages and of the book and what is generated from them at build time
      ([utils/tsproto-structs/src], [utils/ts-bookkeeping/build]).

    ** The files

    Every file that models code names its source file at its top; the definitions have the names of
    the source.
    - [Prelude]: results (a computation returns, fails or panics), slices and indices that panic out
      of range, fixed-width arithmetic, list lemmas, tactics and hints.  [ByteIO]: big-endian
      integers.  [Text]: UTF-8, decimal numbers.
    - [Packets], [InitPackets], [AudioData], [Commands]: the formats.  Each has round trips between
      its builder and its parser, and what the parser does on every other input.
    - [PacketId] (ids with generations, the receive window), [Algorithms] (keys and nonces with their
      cache, encryption, compression, splitting), [Codec] (reordering and joining of commands),
      [Delivery] (a split command is delivered whole), [Encode] (outgoing packets).
    - [BTree], [Resend], [ResendLoop] (queues, acknowledgement, timeouts, retransmission), [Stats].
    - [Connection], [Poll]: handling a datagram and polling.  [Safety], [SendSafety],
      [PollSafety]: on no input do they panic without overflow checks, and they keep the
      well-formedness of the connection, so that it can be polled again.  [Trust]: what a third party
      can do who can send datagrams.  [Frames]: which operations keep the secrets.
    - [License], [LicenseParse], [LicenseBuild]: licenses as a chain of blocks; what is accepted; the
      builder.
    - [CryptoLib] (the libraries as classes), [Crypto], [KeyFormats]: keys and their formats.
      [Identity], [IdentityLevel]: identities and hash cash, the agreement on iv and mac.
    - [AudioQueue], [AudioWindow], [AudioSafety], [AudioDecode], [AudioMixer]: the jitter buffer, the
      sliding window minimum, loss concealment, the mixer.
    - [Ip], [Client]: the client.  [ClientHandshake]: what a reachable state of the handshake
      guarantees.  [ClientSpec]: the commands of the server.  [ClientSafety]: panics of the handshake.
      [ClientRun]: a handshake with a simulated server, and the witnesses.  [ClientAsync]: the
      handshake as it is written, with await, and its equivalence with the state machine.
    - [Resolver], [ResolverSpec]: the sources of addresses, their order, the choice of SRV records.
      [IpParse]: the text of addresses.
    - [Book]: the state of the server and the written functions behind its messages.  [BookSend]: the
      messages to the server.  [BookSpec]: the order of channels refines lists.  [BookMessages]: the
      special messages, subscriptions, limits, addresses.
    - [Options], [Library]: the options of a connection and the connection itself, over the interface
      [ClientApi].  [LibrarySpec]: what the user is told about audio, reconnecting.
      [LibraryCommands]: handles, answers, the order of addresses, the own client, termination.
    - [Sync], [SyncSpec]: requests and promises.  [SyncHandle]: the handles that send the requests.
    - [Strings]: the methods of [str].  [Types], [TypesSpec]: the Rust types that declarations name.
      [Declarations]: messages, fields, structures and properties, and what their rules share.
    - [Values], [ValuesSpec]: reading and writing a field.  [Messages], [MessagesSpec]: the parser and
      the writer of messages, for any declarations.
    - [MessagesToBook], [BookToMessages] with [MessagesToBookSpec] and
      [BookToMessagesSpec]: the rules between messages and the book.  [Versions]: the declared
      versions, the width of flags.
    - [BookHandler]: the generated handler of the book, for any declarations.  [BookTypes]: the check
      of declarations for their types, and typed values, objects and books.  [BookHandlerSpec]: the
      handler keeps the types and does not panic, over a store of structures as an interface
      ([BookStore] with [BookStoreLaws]).  [BookStores]: the structures of the book as objects of the
      handler, and the written functions as its store.  [BookStoreSpec]: the check that declarations
      call them with their types; they keep the types of the book, so the laws hold for them, and the
      handler with them never panics.  [BookEvents]: the events tell the change.  [BookHandlerRun]:
      nine declared messages of clients and channels with a book, and the witnesses.
    - [BookRequests], [BookRequestsSpec]: the generated functions that make the messages of a user
      from the book, up to what the server reads.

    ** How the code is modelled

    - Stateful code passes its state; an error that the caller sees ends the step.  A [Panic] is a
      value, so its absence is a theorem.
    - Integers are [Z] with the wrap-around of their width; overflow panics or wraps as [Profile]
      says, which also has whether [debug_assert] is checked.  A [usize] is a
      [nat], and its subtraction panics or leads to an index out of range.
    - The clock is an argument; random values are inputs; the socket is the list of its answers: a
      send is done, refused or fails, a receive is pending, fails or has a datagram.
    - [connect] is asynchronous code.  It is the state machine of the places where it waits for the
      next item of the stream, and [connect_run] runs it over a sequence of polls.  [ClientAsync]
      has the code as it is written; [connect_is_sequential] shows that both are the same.
    - The connection of the library polls a client behind the interface [ClientApi], whose laws
      ([ClientApiLaws]) are what its termination relies on.  Its asynchronous [connect] is a function
      of what it waits for ([ConnectNet], [Network], [Rng]); the future in the state keeps what a poll
      can observe: that it sleeps first when it reconnects and that it must not be polled again.
    - A stream of the resolver is the list of what waiting for its next item gives: an item, a panic,
      or, when a request to the network never gets its answer, nothing ([Hung]); a connection that
      waits for such a stream waits forever.
    - The declaration files are a submodule that is not part of the repository.  What the build
      generates from them is a class where the written code uses it: the structures of the book
      ([Book.Declarations]) and its handler ([Generated]), the messages ([Library.Messages]), the
      versions ([Versions]).  The generators themselves are modelled for any declarations: a message
      type is the declared message, and what the template writes for it is a function of the type.
      A declaration that stops the generator is a panic, and generated code that the compiler would
      refuse for its types as well; two checks of the declarations ([declarations_ok], [written_ok])
      exclude both.
    - The objects that the generated handler changes map the names of their attributes to values that
      carry their types at run time.  The functions that rules name and those that look objects up
      are written by hand.  Of the first direction they are those of [Book], called with the fields of
      the message that they read ([BookStores.written_store]); an attribute that no written function
      uses stays in the map.  The optional structures in a structure are kept beside its object, which
      has no value for them.  In the other direction they are the class [BookFunctions].
    - The order in which a [HashMap] is iterated is a class ([HashOrder]), where results depend on it.
    - The oneshot channels of [sync.rs] are promises; their answers are logged.
    - The key of the server is a field of the connected parameters in the source, here it is kept
      beside them, in the client.  A [HashMap] is a list in its order of iteration; of equal elements
      of a [BinaryHeap] the first one is popped.
    - Libraries are classes with laws: byte order ([BeIo]), QuickLZ, EAX, SHA-256, SHA-1, base64
      ([Base64Enc], [Base64Dec]), DER ([Asn1]), big integers ([BigIntIo], [ModPow]), P-256, Ed25519
      with SHA-512, the calendar, the generated license types, floating point and Opus.  Each has an
      instance that satisfies its laws, with which the witnesses compute.

    ** Fuel

    - [command_loop] has one step more than packets in the queue; [CommandParser_collect] one more
      than bytes; the splitting loop consumes a part in each round; key import shrinks its data in
      each round ([import_terminates]); [parse_blocks] has room for the eight blocks that are allowed.
    - [resend_fuel] is quadratic in the packets that wait; [poll_resend_complete] shows that it is
      enough.  The loops for statistics and pings end after two rounds.
    - [next_loop] of the audio queue handles a packet or ends; [get_next_data_returns].
    - [connected_loop] ends when the client has nothing ready ([lib_poll_returns]); the loop of the
      connection with handles ends although a command can queue any number of items
      ([sync_poll_returns]).
    - [parse_type] reads a shorter text in each round ([parse_enough]).
    - [hash_cash_loop] is given as much fuel as the distance to its result; [upgrade_level_first].

    ** The theorems

    - Delivery: commands arrive whole and in order, whatever the order of their packets; what is
      encrypted is decrypted (the library takes up to 2^36 bytes); what is sent is numbered, split and
      encrypted as specified, and the peer decrypts it.
    - Reliability: what is sent is kept until it is acknowledged, and resent until then.
    - Safety: without overflow checks (the default of a release build) no datagram makes the
      connection panic, and polling always returns and can be repeated.  The panics that do
      exist are characterised exactly: a puzzle with modulus zero, an empty signed license, short
      audio packets.
    - Trust: a handshake ends only with a verified license and signature; what unauthenticated
      packets can do to a connection.
    - Formats: round trips of packets, commands, licenses and keys.
    - Audio: order, bounds and termination of the jitter buffer, equivalence of the sliding window.
    - Book: its operations refine an abstract specification or are described exactly.
    - Messages: a written message is read as far as its text keeps the values; whatever is read has
      the declared types.  The rules of an event set every field at most once.
    - Generated code: with declarations that pass the checks of their types, no message makes the
      handler or a written function panic, or leaves an untyped book; the events of an update allow
      to tell the object before the message; what a user sets is what the server reads.
    - Library: the events that the user gets mirror the state; addresses are tried in order; handles
      and answers belong together; a promise is kept or answered once.  Where this fails (a timeout,
      an error of a file transfer, a new connection) theorems say how.

    ** Not modelled

    - The templates that print the structures of the book, the enumerations and the lookup of a
      property by its id ([BookDeclarations.tt], [Events.tt], [Properties.tt], [Enums.tt]), and of the
      messages the views of borrowed values.  Of the generated handler the borrow checker is not
      modelled, nor rules for properties that are maps.
    - The parsers of TOML and CSV, the case of identifiers, floating point and the calendar.
    - Logging (hex dumps are in [Hex]), the example programs and benchmarks.
    - Of the modelled files: serde and Debug implementations, the receivers of sent packets (log
      hooks), buffers that are handed back, and the faster puzzle of the optional feature rug. *)
From Stdlib Require Export ZArith Lia.
From stdpp Require Export base numbers option list.
#[global] Open Scope Z_scope.
#[global] Set Default Goal Selector "!".

(** * Results, errors and panics *)

(** A Rust computation either returns [Ok], returns an [Err] or panics. *)
Inductive res (E A : Type) : Type :=
  | Ok (a : A)
  | Err (e : E)
  | Panic.
Arguments Ok {E A} a.
Arguments Err {E A} e.
Arguments Panic {E A}.

Definition res_bind {E A B} (m : res E A) (k : A -> res E B) : res E B :=
  match m with
  | Ok a => k a
  | Err e => Err e
  | Panic => Panic
  end.

Definition map_err {E F A} (f : E -> F) (m : res E A) : res F A :=
  match m with
  | Ok a => Ok a
  | Err e => Err (f e)
  | Panic => Panic
  end.

(** [Option::ok_or] and [Option::unwrap]. *)
Definition ok_or {E A} (o : option A) (e : E) : res E A :=
  match o with
  | Some a => Ok a
  | None => Err e
  end.

Definition unwrap {E A} (o : option A) : res E A :=
  match o with
  | Some a => Ok a
  | None => Panic
  end.

(** The computation does not panic. *)
Definition no_panic {E A} (m : res E A) : bool :=
  match m with
  | Panic => false
  | _ => true
  end.

Definition is_ok {E A} (m : res E A) : bool :=
  match m with
  | Ok _ => true
  | _ => false
  end.

(** [iter.map(f).collect::<Result<Vec<_>, _>>()] *)
Fixpoint res_mapM {E A B} (f : A -> res E B) (l : list A) : res E (list B) :=
  match l with
  | [] => Ok []
  | x :: l => res_bind (f x) (fun y => res_bind (res_mapM f l) (fun ys => Ok (y :: ys)))
  end.

Declare Scope res_scope.
Delimit Scope res_scope with res.
#[global] Open Scope res_scope.
Notation "'let?' x := m 'in' k" :=
  (res_bind m (fun x => k))
    (at level 10, x name, m at level 100, k at level 200) : res_scope.
Notation "'let?' ' p := m 'in' k" :=
  (res_bind m (fun x => match x with p => k end))
    (at level 10, p pattern, m at level 100, k at level 200) : res_scope.

(** * Build profile *)

(** Rust compiles [+] and [-] on machine integers to a panic on overflow when overflow checks are on
    and to wrap-around otherwise; [debug_assert] and [cfg!(debug_assertions)] follow a setting of
    their own.  Debug builds have both, release builds neither. *)
Class Profile := { overflow_checks : bool; debug_assertions : bool }.
Definition debug_profile : Profile := {| overflow_checks := true; debug_assertions := true |}.
Definition release_profile : Profile := {| overflow_checks := false; debug_assertions := false |}.

(** An unsigned [w]-bit integer holds the values [0 .. 2^w - 1]. *)
Definition is_uint (w z : Z) : Prop := 0 <= z < 2 ^ w.
Definition wrap (w z : Z) : Z := z mod 2 ^ w.

#[global] Instance is_uint_dec w z : Decision (is_uint w z).
Proof. unfold is_uint. apply _. Defined.

Abbreviation is_u8 := (is_uint 8).
Abbreviation is_u16 := (is_uint 16).
Abbreviation is_u32 := (is_uint 32).
Abbreviation is_u64 := (is_uint 64).
Abbreviation bytes l := (Forall (is_uint 8) l).

(** [a op b] of the language on a [w]-bit unsigned integer, [z] being the
    mathematical result. *)
Definition arith `{Profile} {E} (w z : Z) : res E Z :=
  if bool_decide (is_uint w z) then Ok z
  else if overflow_checks then Panic else Ok (wrap w z).

Definition overflowing (w z : Z) : Z * bool := (wrap w z, negb (bool_decide (is_uint w z))).

(** * Slices *)

Section slices.
Context {E A : Type}.
Implicit Types l : list A.

(** [l[i]] *)
Definition index l (i : nat) : res E A := unwrap (l !! i).

(** [&l[i..]], [&l[..j]] and [&l[i..j]] *)
Definition slice_from l (i : nat) : res E (list A) :=
  if bool_decide (i <= length l)%nat then Ok (drop i l) else Panic.
Definition slice_to l (j : nat) : res E (list A) :=
  if bool_decide (j <= length l)%nat then Ok (take j l) else Panic.
Definition slice l (i j : nat) : res E (list A) :=
  if bool_decide (i <= j /\ j <= length l)%nat then Ok (take (j - i) (drop i l)) else Panic.

(** [l[i..i + v.len()].copy_from_slice(v)] on the mutable vector [l]. *)
Definition overwrite l (i : nat) (v : list A) : res E (list A) :=
  if bool_decide (i + length v <= length l)%nat
  then Ok (take i l ++ v ++ drop (i + length v) l) else Panic.

(** [l[i] = x] *)
Definition set_index l (i : nat) (x : A) : res E (list A) :=
  if bool_decide (i < length l)%nat then Ok (<[i := x]> l) else Panic.

Lemma index_ok l i x : l !! i = Some x -> index l i = Ok x.
Proof. unfold index. by intros ->. Qed.

Lemma index_lt l i : (i < length l)%nat -> exists x, l !! i = Some x /\ index l i = Ok x.
Proof. intros [x Hx]%lookup_lt_is_Some. exists x. by rewrite (index_ok l i x). Qed.

Lemma slice_from_ok l i : (i <= length l)%nat -> slice_from l i = Ok (drop i l).
Proof. intros. unfold slice_from. by rewrite bool_decide_true. Qed.

Lemma slice_to_ok l j : (j <= length l)%nat -> slice_to l j = Ok (take j l).
Proof. intros. unfold slice_to. by rewrite bool_decide_true. Qed.

Lemma slice_ok l i j :
  (i <= j)%nat -> (j <= length l)%nat -> slice l i j = Ok (take (j - i) (drop i l)).
Proof. intros. unfold slice. by rewrite bool_decide_true. Qed.

Lemma overwrite_ok l i v :
  (i + length v <= length l)%nat -> overwrite l i v = Ok (take i l ++ v ++ drop (i + length v) l).
Proof. intros. unfold overwrite. by rewrite bool_decide_true. Qed.

Lemma set_index_ok l i x : (i < length l)%nat -> set_index l i x = Ok (<[i := x]> l).
Proof. intros. unfold set_index. by rewrite bool_decide_true. Qed.

(** Slices of a concatenation whose first part has a known length. *)
Lemma slice_app_mid (a b c : list A) i j :
  i = length a -> j = (length a + length b)%nat -> slice (a ++ b ++ c) i j = Ok b.
Proof.
  intros -> ->. rewrite slice_ok by (rewrite ?length_app; lia).
  rewrite drop_app_length. f_equal.
  replace (length a + length b - length a)%nat with (length b) by lia.
  apply take_app_length.
Qed.

Lemma slice_from_app (a b : list A) i : i = length a -> slice_from (a ++ b) i = Ok b.
Proof.
  intros ->. rewrite slice_from_ok by (rewrite length_app; lia). by rewrite drop_app_length.
Qed.

(** Writing a part of known position. *)
Lemma overwrite_mid (a b c v : list A) i :
  i = length a -> length v = length b -> overwrite (a ++ b ++ c) i v = Ok (a ++ v ++ c).
Proof.
  intros -> Hv. rewrite overwrite_ok by (rewrite !length_app; lia).
  rewrite take_app_length, Hv, (app_assoc a b c), drop_app_length'; [done|]. by rewrite length_app.
Qed.

(** Writing at a position behind a prefix, and at the start. *)
Lemma overwrite_skip (a l v : list A) i :
  (length a <= i)%nat ->
  overwrite (a ++ l) i v = res_bind (overwrite l (i - length a) v) (fun k => Ok (a ++ k)).
Proof.
  intros Ha. unfold overwrite. rewrite length_app.
  destruct (decide (i + length v <= length a + length l)%nat).
  - rewrite !bool_decide_true by lia. simpl. rewrite take_app_ge, drop_app_ge by lia.
    rewrite <- app_assoc. by replace (i + length v - length a)%nat
      with (i - length a + length v)%nat by lia.
  - by rewrite !bool_decide_false by lia.
Qed.

Lemma overwrite_here (b c v : list A) i :
  i = 0%nat -> length v = length b -> overwrite (b ++ c) i v = Ok (v ++ c).
Proof. intros -> Hv. by apply (overwrite_mid []). Qed.

Lemma overwrite_whole (b v : list A) i :
  i = 0%nat -> length v = length b -> overwrite b i v = Ok v.
Proof. intros -> Hv. rewrite <- (app_nil_r b), overwrite_here by done. by rewrite app_nil_r. Qed.

Lemma set_index_skip (a l : list A) i x :
  (length a <= i)%nat ->
  set_index (a ++ l) i x = res_bind (set_index l (i - length a) x) (fun k => Ok (a ++ k)).
Proof.
  intros Ha. unfold set_index. rewrite length_app.
  destruct (decide (i < length a + length l)%nat).
  - rewrite !bool_decide_true by lia. simpl. by rewrite insert_app_r_alt by lia.
  - by rewrite !bool_decide_false by lia.
Qed.

Lemma set_index_here (c : list A) i x y : i = 0%nat -> set_index ([x] ++ c) i y = Ok ([y] ++ c).
Proof. by intros ->. Qed.

(** Skipping a prefix, and stopping at one: with these, a slice of a concatenation whose parts
    have known lengths evaluates. *)
Lemma slice_skip (a l : list A) i j :
  (length a <= i <= j)%nat -> slice (a ++ l) i j = slice l (i - length a) (j - length a).
Proof.
  intros [Ha Hij]. unfold slice. rewrite length_app.
  destruct (decide (j <= length a + length l)%nat).
  - rewrite !bool_decide_true by lia. rewrite drop_app_ge by lia.
    by replace (j - length a - (i - length a))%nat with (j - i)%nat by lia.
  - rewrite !bool_decide_false; [done|lia..].
Qed.

Lemma slice_head (b l : list A) i n : i = 0%nat -> length b = n -> slice (b ++ l) i n = Ok b.
Proof. intros -> <-. by apply (slice_app_mid []). Qed.

Lemma slice_whole (b : list A) i n : i = 0%nat -> length b = n -> slice b i n = Ok b.
Proof. intros -> <-. rewrite slice_ok by lia. by rewrite drop_0, Nat.sub_0_r, firstn_all. Qed.

Lemma slice_from_skip (a l : list A) i :
  (length a <= i)%nat -> slice_from (a ++ l) i = slice_from l (i - length a).
Proof.
  intros Ha. unfold slice_from. rewrite length_app.
  destruct (decide (i <= length a + length l)%nat).
  - rewrite !bool_decide_true by lia. by rewrite drop_app_ge by lia.
  - rewrite !bool_decide_false; [done|lia..].
Qed.

Lemma slice_from_0 (l : list A) i : i = 0%nat -> slice_from l i = Ok l.
Proof. intros ->. by rewrite slice_from_ok by lia. Qed.

Lemma index_skip (a l : list A) i :
  (length a <= i)%nat -> index (a ++ l) i = index l (i - length a).
Proof. intros Ha. unfold index. by rewrite lookup_app_r. Qed.

Lemma index_head (x : A) l i : i = 0%nat -> index ([x] ++ l) i = Ok x.
Proof. by intros ->. Qed.
End slices.

(** * Arithmetic and bytes *)

Lemma wrap_small w z : is_uint w z -> wrap w z = z.
Proof. unfold wrap. apply Z.mod_small. Qed.

Lemma wrap_uint w z : 0 <= w -> is_uint w (wrap w z).
Proof. intros. apply Z.mod_pos_bound, Z.pow_pos_nonneg; lia. Qed.

Lemma arith_ok `{Profile} {E} w z : is_uint w z -> arith (E := E) w z = Ok z.
Proof. intros. unfold arith. by rewrite bool_decide_true. Qed.

Lemma bytes_app (l k : list Z) : bytes (l ++ k) <-> bytes l /\ bytes k.
Proof. apply Forall_app. Qed.

Lemma bytes_lookup (l : list Z) i b : bytes l -> l !! i = Some b -> 0 <= b < 256.
Proof. intros Hl Hi. exact (Forall_lookup_1 _ _ _ _ Hl Hi). Qed.

Lemma res_bind_ok {E A B} (m : res E A) (k : A -> res E B) b :
  res_bind m k = Ok b <-> exists a, m = Ok a /\ k a = Ok b.
Proof.
  destruct m as [a|e|]; simpl; split; try (intros [? [[=] ?]]; congruence); try done.
  eauto.
Qed.

Lemma no_panic_bind {E A B} (m : res E A) (k : A -> res E B) :
  no_panic m = true -> (forall a, m = Ok a -> no_panic (k a) = true) ->
  no_panic (res_bind m k) = true.
Proof. destruct m; simpl; eauto. Qed.

Lemma no_panic_bind_eq {E A B} (m : res E A) (k : A -> res E B) :
  (forall a, m = Ok a -> no_panic (k a) = true) -> no_panic (res_bind m k) = no_panic m.
Proof. destruct m; simpl; eauto. Qed.

Lemma res_mapM_no_panic {E A B} (f : A -> res E B) l :
  (forall x, x ∈ l -> no_panic (f x) = true) -> no_panic (res_mapM f l) = true.
Proof.
  induction l as [|x l IH]; intros Hf; [done|]. simpl.
  apply no_panic_bind; [apply Hf; left|]. intros y _.
  apply no_panic_bind; [|done]. apply IH. intros z Hz. apply Hf. by right.
Qed.

Lemma res_mapM_ext {E A B} (f g : A -> res E B) l :
  (forall x, x ∈ l -> f x = g x) -> res_mapM f l = res_mapM g l.
Proof.
  induction l as [|x l IH]; intros Hf; [done|]. simpl. rewrite (Hf x) by left.
  rewrite IH; [done|]. intros y Hy. apply Hf. by right.
Qed.

(** * Partial results

    [safe P m]: [m] does not panic, and a value that it returns satisfies [P].  An [Err] is a
    result that the caller handles. *)

Definition safe {E A} (P : A -> Prop) (m : res E A) : Prop :=
  match m with
  | Ok a => P a
  | Err _ => True
  | Panic => False
  end.

Lemma safe_bind {E A B} (P : A -> Prop) (Q : B -> Prop) (m : res E A) (k : A -> res E B) :
  safe P m -> (forall a, P a -> safe Q (k a)) -> safe Q (res_bind m k).
Proof. destruct m; simpl; eauto. Qed.

Lemma safe_weaken {E A} (P Q : A -> Prop) (m : res E A) :
  safe P m -> (forall a, P a -> Q a) -> safe Q m.
Proof. destruct m; simpl; eauto. Qed.

Lemma safe_map_err {E F A} (f : E -> F) (P : A -> Prop) (m : res E A) :
  safe P m -> safe P (map_err f m).
Proof. by destruct m. Qed.

Lemma safe_no_panic {E A} (m : res E A) : no_panic m = true <-> safe (fun _ => True) m.
Proof. destruct m; simpl; [done..|]. by split. Qed.

(** Without overflow checks the arithmetic never panics. *)
Lemma safe_arith `{Profile} {E} w z :
  overflow_checks = false -> 0 <= w -> safe (is_uint w) (arith (E := E) w z).
Proof.
  intros Hoff Hw. unfold arith. rewrite Hoff. case_bool_decide; simpl; [done|]. by apply wrap_uint.
Qed.

Lemma safe_index {E A} (P : A -> Prop) (l : list A) i :
  (i < length l)%nat -> Forall P l -> safe P (index (E := E) l i).
Proof.
  intros [x Hx]%lookup_lt_is_Some Hall. rewrite (index_ok _ _ _ Hx). simpl.
  by eapply Forall_lookup_1.
Qed.

(** [returns P m]: [m] returns a value, and it satisfies [P]. *)
Definition returns {E A} (P : A -> Prop) (m : res E A) : Prop :=
  match m with
  | Ok a => P a
  | _ => False
  end.

Lemma returns_bind {E A B} (P : A -> Prop) (Q : B -> Prop) (m : res E A) (k : A -> res E B) :
  returns P m -> (forall a, P a -> returns Q (k a)) -> returns Q (res_bind m k).
Proof. destruct m; simpl; [eauto|done..]. Qed.

Lemma returns_weaken {E A} (P Q : A -> Prop) (m : res E A) :
  returns P m -> (forall a, P a -> Q a) -> returns Q m.
Proof. destruct m; simpl; eauto. Qed.

Lemma returns_map_err {E F A} (f : E -> F) (P : A -> Prop) (m : res E A) :
  returns P m -> returns P (map_err f m).
Proof. by destruct m. Qed.

Lemma returns_safe {E A} (P : A -> Prop) (m : res E A) : returns P m -> safe P m.
Proof. by destruct m. Qed.

Lemma returns_arith `{Profile} {E} w z :
  overflow_checks = false -> 0 <= w -> returns (is_uint w) (arith (E := E) w z).
Proof.
  intros Hoff Hw. unfold arith. rewrite Hoff. case_bool_decide; simpl; [done|]. by apply wrap_uint.
Qed.

(** * Automation *)

Create HintDb ts discriminated.
#[export] Hint Resolve index_ok wrap_uint : ts.

(** Decide the boolean tests of a definition by linear arithmetic. *)
Ltac decide_tests :=
  repeat first
    [ rewrite bool_decide_true by (try done; unfold is_uint in *; simpl in *; lia)
    | rewrite bool_decide_false by (try done; unfold is_uint in *; simpl in *; lia) ].

(** Evaluate slices of a concatenation of parts whose lengths [len] can rewrite. *)
Ltac slices len :=
  repeat first
    [ rewrite slice_skip by (len; lia)
    | rewrite slice_from_skip by (len; lia)
    | rewrite index_skip by (len; lia)
    | rewrite index_head by (len; lia)
    | rewrite slice_head by (len; lia)
    | rewrite slice_whole by (len; lia)
    | rewrite slice_from_0 by (len; lia)
    | progress (cbn [res_bind ok_or]) ].

(** The same for writes. *)
Ltac writes len :=
  repeat first
    [ rewrite overwrite_skip by (len; lia)
    | rewrite set_index_skip by (len; lia)
    | rewrite overwrite_here by (len; lia)
    | rewrite overwrite_whole by (len; lia)
    | rewrite set_index_here by (len; lia)
    | progress (cbn [res_bind]) ].

(** Invert a chain of binds that returned [Ok]. *)
Ltac inv_binds :=
  repeat match goal with
    | H : res_bind _ _ = Ok _ |- _ =>
        let a := fresh "a" in let Ha := fresh "Ha" in
        apply res_bind_ok in H; destruct H as (a & Ha & H)
    | H : Ok _ = Ok _ |- _ => injection H as H
    | H : Err _ = Ok _ |- _ => discriminate H
    | H : Panic = Ok _ |- _ => discriminate H
    end.
