(* ===== verification/ByteIO.v ===== *)
(** Big-endian reads and writes of the [omnom] crate ([ReadExt::read_be] and
    [WriteExt::write_be]), which the packet and license code uses for every integer field.
    The crate is not part of the repository: the model takes the two operations as a class and
    the documented behaviour as its laws.  [big_endian] is a concrete instance, used by the
    witnesses. *)
From S2P Require Import Prelude.

(** [read_be n l] reads an [n]-byte integer from the front of the slice [l]; [None] is the
    [UnexpectedEof] error.  [write_be n z] are the [n] bytes that are written for [z]. *)
Class BeIo := {
  read_be : nat -> list Z -> option Z;
  write_be : nat -> Z -> list Z;
}.

Definition width (n : nat) : Z := 8 * Z.of_nat n.

Class BeIoLaws `{BeIo} : Prop := {
  read_be_short n l : (length l < n)%nat -> read_be n l = None;
  read_be_write n z rest : is_uint (width n) z -> read_be n (write_be n z ++ rest) = Some z;
  write_be_length n z : length (write_be n z) = n;
  write_be_bytes n z : bytes (write_be n z);
  write_be_u8 z : is_u8 z -> write_be 1 z = [z];
  write_be_0 n : write_be n 0 = replicate n 0;
  read_be_total n l :
    bytes l -> (n <= length l)%nat ->
    exists z, read_be n l = Some z /\ is_uint (width n) z /\ write_be n z = take n l;
}.

(** * The instance *)

Fixpoint be_decode (l : list Z) (acc : Z) : Z :=
  match l with
  | [] => acc
  | b :: l => be_decode l (acc * 256 + b)
  end.

Fixpoint be_encode (n : nat) (z : Z) : list Z :=
  match n with
  | O => []
  | S n => be_encode n (z / 256) ++ [z mod 256]
  end.

#[global] Instance big_endian : BeIo := {|
  read_be n l := if bool_decide (n <= length l)%nat then Some (be_decode (take n l) 0) else None;
  write_be := be_encode;
|}.

Lemma be_encode_length n z : length (be_encode n z) = n.
Proof. revert z. induction n; intros; simpl; [done|]. rewrite length_app, IHn. simpl. lia. Qed.

Lemma be_encode_bytes n z : bytes (be_encode n z).
Proof.
  revert z. induction n; intros; simpl; [constructor|].
  apply Forall_app. split; [apply IHn|].
  constructor; [|constructor]. apply (wrap_uint 8). lia.
Qed.

Lemma be_decode_app l k acc : be_decode (l ++ k) acc = be_decode k (be_decode l acc).
Proof. revert acc. induction l; simpl; auto. Qed.

Lemma width_S n : 2 ^ width (S n) = 256 * 2 ^ width n.
Proof.
  unfold width. rewrite Nat2Z.inj_succ. replace (8 * Z.succ (Z.of_nat n)) with (8 + width n)
    by (unfold width; lia). rewrite Z.pow_add_r by (unfold width; lia). reflexivity.
Qed.

Lemma be_decode_encode n z : is_uint (width n) z -> be_decode (be_encode n z) 0 = z.
Proof.
  revert z. induction n; intros z [H1 H2]; simpl.
  - unfold width in H2. simpl in H2. lia.
  - rewrite be_decode_app. simpl. rewrite IHn.
    + pose proof (Z.div_mod z 256). lia.
    + rewrite width_S in H2. split; [apply Z.div_pos; lia|].
      apply Z.div_lt_upper_bound; lia.
Qed.

Lemma be_encode_decode l :
  bytes l -> is_uint (width (length l)) (be_decode l 0) /\ be_encode (length l) (be_decode l 0) = l.
Proof.
  induction l as [|b l IH] using rev_ind; intros Hl.
  - split; [by unfold is_uint, width|done].
  - apply bytes_app in Hl as [Hl Hb]. apply Forall_inv in Hb. unfold is_uint in Hb.
    destruct (IH Hl) as [[H1 H2] H3]. rewrite length_app, Nat.add_1_r, be_decode_app. simpl.
    replace ((be_decode l 0 * 256 + b) / 256) with (be_decode l 0)
      by (rewrite Z.div_add_l by lia; rewrite Z.div_small; lia).
    replace ((be_decode l 0 * 256 + b) mod 256) with b
      by (rewrite Z.add_comm, Z_mod_plus_full; symmetry; apply Z.mod_small; lia).
    rewrite H3. split; [|done]. unfold is_uint. rewrite width_S. lia.
Qed.

#[global] Instance big_endian_laws : BeIoLaws.
Proof.
  split; unfold read_be, write_be, big_endian.
  - intros. by rewrite bool_decide_false by lia.
  - intros n z rest Hz. rewrite bool_decide_true by (rewrite length_app, be_encode_length; lia).
    rewrite take_app_length' by (by rewrite be_encode_length). by rewrite be_decode_encode.
  - apply be_encode_length.
  - apply be_encode_bytes.
  - intros z Hz. simpl. rewrite Z.mod_small; [done|]. apply Hz.
  - intros n. induction n as [|n IH]; [done|]. cbn [be_encode]. change (0 / 256) with 0.
    by rewrite IH, replicate_S_end.
  - intros n l Hl Hn. rewrite bool_decide_true by done.
    destruct (be_encode_decode (take n l)) as [H1 H2]; [by apply Forall_take|].
    rewrite length_take_le in H1, H2 by lia. eauto.
Qed.

(** * Derived facts, from the laws alone *)

Section derived.
Context `{BeIoLaws}.

Lemma read_be_app n l z rest :
  l = write_be n z ++ rest -> is_uint (width n) z -> read_be n l = Some z.
Proof. intros -> ?. by apply read_be_write. Qed.

(** A read of [n] bytes succeeds exactly when there are [n] bytes, on a byte sequence. *)
Lemma read_be_is_some n l : bytes l -> is_Some (read_be n l) <-> (n <= length l)%nat.
Proof.
  intros Hl. split.
  - intros Hs. destruct (decide (n <= length l)%nat); [done|].
    rewrite read_be_short in Hs by lia. by destruct Hs.
  - intros Hn. destruct (read_be_total n l Hl Hn) as (z & -> & _). eauto.
Qed.
End derived.

