(* ===== verification/Text.v ===== *)
(** Text: strings as their bytes, the validity check of UTF-8, and the decimal and hexadecimal
    numbers of [FromStr] and [Display], all of the standard library. *)
From S2P Require Import Prelude.

(** * Strings *)

(** [str::from_utf8] accepts the well-formed byte sequences of UTF-8. *)
Definition continuation (b : Z) : bool := (0x80 <=? b) && (b <=? 0xbf).

Fixpoint utf8_valid (l : list Z) : bool :=
  match l with
  | [] => true
  | b0 :: l1 =>
      if b0 <? 0x80 then utf8_valid l1 else
      match l1 with
      | [] => false
      | b1 :: l2 =>
          if (0xc2 <=? b0) && (b0 <=? 0xdf) then continuation b1 && utf8_valid l2 else
          match l2 with
          | [] => false
          | b2 :: l3 =>
              if (0xe0 <=? b0) && (b0 <=? 0xef) then
                ((if b0 =? 0xe0 then 0xa0 else 0x80) <=? b1) &&
                (b1 <=? (if b0 =? 0xed then 0x9f else 0xbf)) &&
                continuation b2 && utf8_valid l3
              else
              match l3 with
              | [] => false
              | b3 :: l4 =>
                  (0xf0 <=? b0) && (b0 <=? 0xf4) &&
                  ((if b0 =? 0xf0 then 0x90 else 0x80) <=? b1) &&
                  (b1 <=? (if b0 =? 0xf4 then 0x8f else 0xbf)) &&
                  continuation b2 && continuation b3 && utf8_valid l4
              end
          end
      end
  end.

(** [iter().position(|&b| b == 0)] *)
Definition position_zero (l : list Z) : option nat := fst <$> list_find (fun b => b = 0) l.

(** An ASCII string is valid. *)
Definition ascii (l : list Z) : Prop := Forall (is_uint 7) l.

Lemma utf8_valid_ascii l : ascii l -> utf8_valid l = true.
Proof.
  induction 1 as [|b l [Hb1 Hb2] _ IH]; [done|]. simpl.
  destruct (Z.ltb_spec b 0x80); [done|]. unfold is_uint in *. simpl in Hb2. lia.
Qed.

Lemma ascii_bytes l : ascii l -> bytes l.
Proof. intros H. eapply Forall_impl; [exact H|]. unfold is_uint. simpl. lia. Qed.

(** * Numbers *)

(** [char::to_digit] *)
Definition to_digit (radix c : Z) : option Z :=
  let d :=
    if (0x30 <=? c) && (c <=? 0x39) then c - 0x30
    else if (0x61 <=? c) && (c <=? 0x7a) then c - 0x61 + 10
    else if (0x41 <=? c) && (c <=? 0x5a) then c - 0x41 + 10
    else radix in
  if d <? radix then Some d else None.

Fixpoint digits_value (radix : Z) (s : list Z) (acc : Z) : option Z :=
  match s with
  | [] => Some acc
  | c :: s =>
      match to_digit radix c with
      | Some d => digits_value radix s (acc * radix + d)
      | None => None
      end
  end.

(** [from_str_radix] of an unsigned [w]-bit integer: an optional plus sign and at least one
    digit. *)
Definition from_str_radix (radix w : Z) (s : list Z) : option Z :=
  let s := match s with 0x2b :: r => r | _ => s end in
  match s with
  | [] => None
  | _ =>
      match digits_value radix s 0 with
      | Some v => if bool_decide (is_uint w v) then Some v else None
      | None => None
      end
  end.

Definition parse_uint : Z -> list Z -> option Z := from_str_radix 10.

(** [Display] of an unsigned integer.  A number has at most one digit more than its binary
    logarithm. *)
Fixpoint dec_digits (fuel : nat) (z : Z) (acc : list Z) : list Z :=
  match fuel with
  | O => acc
  | S fuel =>
      let acc := (0x30 + z mod 10) :: acc in
      if z <? 10 then acc else dec_digits fuel (z / 10) acc
  end.

Definition to_dec (z : Z) : list Z := dec_digits (S (Z.to_nat (Z.log2 z))) z [].

Lemma to_digit_dec d : 0 <= d < 10 -> to_digit 10 (0x30 + d) = Some d.
Proof.
  intros Hd. unfold to_digit.
  destruct (Z.leb_spec 0x30 (0x30 + d)), (Z.leb_spec (0x30 + d) 0x39); try lia. simpl.
  replace (48 + d - 48) with d by lia. by destruct (Z.ltb_spec d 10); [|lia].
Qed.

Lemma dec_digits_spec fuel z acc :
  0 <= z < 2 ^ Z.of_nat fuel -> (0 < fuel)%nat ->
  exists ds, dec_digits fuel z acc = ds ++ acc /\ (ds <> []) /\ Forall (fun c => 0x30 <= c <= 0x39) ds /\
    forall rest a, digits_value 10 (ds ++ rest) a =
      digits_value 10 rest (a * 10 ^ Z.of_nat (length ds) + z).
Proof.
  revert z acc. induction fuel as [|fuel IH]; intros z acc Hz Hf; [lia|].
  assert (Hm : 0 <= z mod 10 < 10) by (apply Z.mod_pos_bound; lia).
  cbn [dec_digits]. destruct (Z.ltb_spec z 10) as [Hlt|Hge].
  - exists [0x30 + z mod 10]. split_and!; [done|done|constructor; [lia|constructor]|].
    intros rest a. cbn [digits_value app]. rewrite to_digit_dec by done.
    rewrite Z.mod_small by lia. simpl. done.
  - rewrite Nat2Z.inj_succ, Z.pow_succ_r in Hz by lia.
    assert (Hd : 0 <= z / 10 < 2 ^ Z.of_nat fuel).
    { split; [apply Z.div_pos; lia|]. apply Z.div_lt_upper_bound; lia. }
    destruct fuel as [|fuel]; [simpl in Hz; lia|].
    destruct (IH (z / 10) ((0x30 + z mod 10) :: acc) Hd ltac:(lia)) as (ds & -> & Hne & Hds & Hv).
    exists (ds ++ [0x30 + z mod 10]). split_and!.
    + by rewrite <- app_assoc.
    + by destruct ds.
    + apply Forall_app. split; [done|]. constructor; [lia|constructor].
    + intros rest a. rewrite <- app_assoc, Hv. cbn [digits_value app]. rewrite to_digit_dec by done.
      f_equal. rewrite length_app. simpl.
      replace (Z.of_nat (length ds + 1)) with (Z.succ (Z.of_nat (length ds))) by lia.
      rewrite Z.pow_succ_r by lia. pose proof (Z.div_mod z 10). nia.
Qed.

Lemma to_dec_spec z :
  0 <= z -> (to_dec z <> []) /\ Forall (fun c => 0x30 <= c <= 0x39)  (to_dec z) /\
    digits_value 10 (to_dec z) 0 = Some z.
Proof.
  intros Hz. unfold to_dec.
  destruct (dec_digits_spec (S (Z.to_nat (Z.log2 z))) z []) as (ds & -> & Hne & Hds & Hv); [|lia|].
  - split; [done|]. rewrite Nat2Z.inj_succ, Z2Nat.id by apply Z.log2_nonneg.
    destruct (Z.eq_dec z 0) as [->|]; [done|]. apply Z.log2_spec. lia.
  - rewrite app_nil_r. split_and!; [done|done|]. rewrite <- (app_nil_r ds), Hv. done.
Qed.

(** Printing and parsing are inverse. *)
Lemma parse_to_dec w z : is_uint w z -> parse_uint w (to_dec z) = Some z.
Proof.
  intros Hz. destruct (to_dec_spec z) as (Hne & Hds & Hv); [apply Hz|].
  unfold parse_uint, from_str_radix. destruct (to_dec z) as [|c s] eqn:Ed; [done|].
  inversion Hds as [|? ? Hc]; subst.
  replace (match c :: s with 43 :: r => r | _ => c :: s end) with (c :: s).
  - rewrite Hv. by rewrite bool_decide_true.
  - destruct c as [|c|c]; try done. do 6 (destruct c as [c|c|]; try done).
Qed.

Lemma parse_uint_range w s v : parse_uint w s = Some v -> is_uint w v.
Proof.
  unfold parse_uint, from_str_radix. generalize (match s with 0x2b :: r => r | _ => s end). intros [|c l]; [done|].
  destruct (digits_value 10 (c :: l) 0); [|done]. case_bool_decide; [|done]. by intros [= <-].
Qed.

Lemma to_dec_ascii z : 0 <= z -> ascii (to_dec z).
Proof.
  intros Hz. destruct (to_dec_spec z Hz) as (_ & Hds & _). eapply Forall_impl; [exact Hds|].
  unfold is_uint. simpl. lia.
Qed.
