(* ===== verification/Packets.v ===== *)
(** Packets ([utils/tsproto-packets/src/packets.rs] and [lib.rs]): packet types, flags, the
    header layout, incoming packets ([InHeader], [InPacket]) and outgoing packets ([OutPacket],
    [OutUdpPacket], [OutAck]).  A byte is a [Z] in [0..255]; a slice index out of range and an
    [unwrap] of [None] are [Panic]. *)
From S2P Require Import Prelude ByteIO.

(** * Data *)

Inductive PacketType :=
  | Voice | VoiceWhisper | Command | CommandLow | Ping | Pong | Ack | AckLow | Init.

Inductive Direction := S2C | C2S.

#[global] Instance PacketType_eq_dec : EqDecision PacketType.
Proof. solve_decision. Defined.
#[global] Instance Direction_eq_dec : EqDecision Direction.
Proof. solve_decision. Defined.

(** The errors of the crate; the payloads of the library errors are dropped. *)
Inductive PacketError :=
  | Base64 | Io | ParseInt | Utf8 | StringUtf8
  | InvalidInitStep (step : Z)
  | InvalidCodec (codec : Z)
  | PacketContentTooShort (len : nat)
  | PacketTooShort (len : nat)
  | ParseCommand
  | UnknownPacketType (t : Z)
  | WrongDirection
  | WrongInitMac (mac : list Z)
  | WrongPacketType (t : PacketType).

Definition S2C_HEADER_LEN : nat := 11.
Definition C2S_HEADER_LEN : nat := 13.

Definition header_len (dir : Direction) : nat :=
  match dir with
  | S2C => S2C_HEADER_LEN
  | C2S => C2S_HEADER_LEN
  end.

Definition Direction_reverse (d : Direction) : Direction :=
  match d with
  | S2C => C2S
  | C2S => S2C
  end.

(** The [ToPrimitive] and [FromPrimitive] derived for the enum. *)
Definition PacketType_to_u8 (t : PacketType) : Z :=
  match t with
  | Voice => 0 | VoiceWhisper => 1 | Command => 2 | CommandLow => 3 | Ping => 4
  | Pong => 5 | Ack => 6 | AckLow => 7 | Init => 8
  end.

Definition PacketType_from_u8 (n : Z) : option PacketType :=
  match n with
  | 0 => Some Voice | 1 => Some VoiceWhisper | 2 => Some Command | 3 => Some CommandLow
  | 4 => Some Ping | 5 => Some Pong | 6 => Some Ack | 7 => Some AckLow | 8 => Some Init
  | _ => None
  end.

Definition PacketType_is_command (t : PacketType) : bool :=
  bool_decide (t = Command) || bool_decide (t = CommandLow).
Definition PacketType_is_ack (t : PacketType) : bool :=
  bool_decide (t = Ack) || bool_decide (t = AckLow) || bool_decide (t = Pong).
Definition PacketType_is_voice (t : PacketType) : bool :=
  bool_decide (t = Voice) || bool_decide (t = VoiceWhisper).

(** The bit set [Flags] of the [bitflags!] declaration, as its bits. *)
Definition UNENCRYPTED : Z := 0x80.
Definition COMPRESSED : Z := 0x40.
Definition NEWPROTOCOL : Z := 0x20.
Definition FRAGMENTED : Z := 0x10.
Definition Flags_all : Z :=
  Z.lor UNENCRYPTED (Z.lor COMPRESSED (Z.lor NEWPROTOCOL FRAGMENTED)).
Definition Flags_empty : Z := 0.
Definition Flags_from_bits (b : Z) : option Z :=
  if Z.ldiff b Flags_all =? 0 then Some b else None.
Definition Flags_contains (f g : Z) : bool := Z.land f g =? g.
Definition Flags_or (f g : Z) : Z := Z.lor f g.

(** A set of flags: no bit outside [Flags_all]. *)
Definition is_flags (f : Z) : Prop := 0 <= f /\ Z.ldiff f Flags_all = 0.

Record InHeader := { ih_direction : Direction; ih_data : list Z }.
Record InPacket := { ip_header : InHeader; ip_content : list Z }.
Record OutPacket := { op_dir : Direction; op_data : list Z }.
Record OutUdpPacket := { ou_generation_id : Z; ou_data : OutPacket }.

(** * Headers *)

Section packets.
Context `{BeIo}.

Definition InHeader_new (dir : Direction) (data : list Z) : res PacketError InHeader :=
  let? d := slice_to data (header_len dir) in
  Ok {| ih_direction := dir; ih_data := d |}.

Definition InHeader_get_off (h : InHeader) : nat :=
  match ih_direction h with
  | S2C => 10
  | C2S => 12
  end.

Definition InHeader_mac (h : InHeader) : res PacketError (list Z) := slice (ih_data h) 0 8.

Definition InHeader_packet_id (h : InHeader) : res PacketError Z :=
  let? s := slice (ih_data h) 8 10 in
  unwrap (read_be 2 s).

Definition InHeader_client_id (h : InHeader) : res PacketError (option Z) :=
  match ih_direction h with
  | S2C => Ok None
  | C2S =>
      let? s := slice (ih_data h) 10 12 in
      let? c := unwrap (read_be 2 s) in
      Ok (Some c)
  end.

Definition InHeader_flags (h : InHeader) : res PacketError Z :=
  let? b := index (ih_data h) (InHeader_get_off h) in
  unwrap (Flags_from_bits (Z.land b 0xf0)).

Definition InHeader_packet_type (h : InHeader) : res PacketError PacketType :=
  let? b := index (ih_data h) (InHeader_get_off h) in
  unwrap (PacketType_from_u8 (Z.land b 0xf)).

Definition InHeader_get_meta (h : InHeader) : res PacketError (list Z) :=
  slice_from (ih_data h) 8.

(** * Incoming packets *)

Definition InPacket_new (dir : Direction) (data : list Z) : res PacketError InPacket :=
  let? h := InHeader_new dir data in
  let? c := slice_from data (length (ih_data h)) in
  Ok {| ip_header := h; ip_content := c |}.

Definition InPacket_try_new (dir : Direction) (data : list Z) : res PacketError InPacket :=
  let header_len := header_len dir in
  if bool_decide (length data < header_len)%nat then Err (PacketTooShort (length data)) else
  let? b := index data (header_len - 1) in
  let p_type := Z.land b 0xf in
  if 8 <? p_type then Err (UnknownPacketType p_type) else
  InPacket_new dir data.

(** The id that an ack, pong or init packet acknowledges. *)
Definition InPacket_ack_packet (p : InPacket) : res PacketError (option Z) :=
  let? p_type := InHeader_packet_type (ip_header p) in
  let too_short := PacketContentTooShort (length (ip_content p)) in
  if PacketType_is_ack p_type then
    let? id := ok_or (read_be 2 (ip_content p)) too_short in
    Ok (Some id)
  else if bool_decide (p_type = Init) then
    match ih_direction (ip_header p) with
    | S2C =>
        let? i := ok_or (head (ip_content p)) too_short in
        match i with
        | 1 => Ok (Some 0)
        | 3 => Ok (Some 2)
        | 127 => Ok (Some 2)
        | _ => Err (InvalidInitStep i)
        end
    | C2S =>
        let? i := ok_or (ip_content p !! 4%nat) too_short in
        match i with
        | 0 => Ok None
        | 2 => Ok (Some 1)
        | 4 => Ok (Some 3)
        | _ => Err (InvalidInitStep i)
        end
    end
  else Ok None.

(** * Outgoing packets *)

Definition OutPacket_content_offset (p : OutPacket) : nat := header_len (op_dir p).

Definition OutPacket_header_bytes (p : OutPacket) : res PacketError (list Z) :=
  slice_to (op_data p) (OutPacket_content_offset p).

Definition OutPacket_header (p : OutPacket) : res PacketError InHeader :=
  let? d := OutPacket_header_bytes p in
  Ok {| ih_direction := op_dir p; ih_data := d |}.

Definition OutPacket_content (p : OutPacket) : res PacketError (list Z) :=
  slice_from (op_data p) (OutPacket_content_offset p).

(** [data_mut().extend_from_slice(l)]: every write of the content appends to the vector. *)
Definition OutPacket_extend (p : OutPacket) (l : list Z) : OutPacket :=
  {| op_dir := op_dir p; op_data := op_data p ++ l |}.

Definition OutPacket_with_data (p : OutPacket) (d : list Z) : OutPacket :=
  {| op_dir := op_dir p; op_data := d |}.

(** [p.mac().copy_from_slice(mac)] *)
Definition OutPacket_set_mac (p : OutPacket) (mac : list Z) : res PacketError OutPacket :=
  let? _ := slice (op_data p) 0 8 in
  if bool_decide (length mac = 8%nat) then
    let? d := overwrite (op_data p) 0 mac in
    Ok (OutPacket_with_data p d)
  else Panic.

Definition OutPacket_packet_id (p : OutPacket) (id : Z) : res PacketError OutPacket :=
  let? _ := slice (op_data p) 8 10 in
  let? d := overwrite (op_data p) 8 (write_be 2 id) in
  Ok (OutPacket_with_data p d).

Definition OutPacket_client_id (p : OutPacket) (id : Z) : res PacketError OutPacket :=
  if bool_decide (op_dir p = C2S) then
    let? _ := slice (op_data p) 10 12 in
    let? d := overwrite (op_data p) 10 (write_be 2 id) in
    Ok (OutPacket_with_data p d)
  else Panic.

Definition OutPacket_flags (p : OutPacket) (flags : Z) : res PacketError OutPacket :=
  let? h := OutPacket_header p in
  let off := InHeader_get_off h in
  let? b := index (op_data p) off in
  let? d := set_index (op_data p) off (Z.lor (Z.land b 0xf) flags) in
  Ok (OutPacket_with_data p d).

Definition OutPacket_packet_type (p : OutPacket) (t : PacketType) : res PacketError OutPacket :=
  let? h := OutPacket_header p in
  let off := InHeader_get_off h in
  let? b := index (op_data p) off in
  let? d := set_index (op_data p) off (Z.lor (Z.land b 0xf0) (PacketType_to_u8 t)) in
  Ok (OutPacket_with_data p d).

Definition OutPacket_new_with_dir (dir : Direction) (flags : Z) (t : PacketType)
    : res PacketError OutPacket :=
  let res := {| op_dir := dir; op_data := replicate (header_len dir) 0 |} in
  let? res := OutPacket_flags res flags in
  OutPacket_packet_type res t.

Definition OutPacket_new_from_data (dir : Direction) (data : list Z) : OutPacket :=
  {| op_dir := dir; op_data := data |}.

Definition OutPacket_new (mac : list Z) (packet_id : Z) (client_id : option Z) (flags : Z)
    (t : PacketType) : res PacketError OutPacket :=
  let dir := match client_id with Some _ => C2S | None => S2C end in
  let? res := OutPacket_new_with_dir dir flags t in
  let? res := OutPacket_set_mac res mac in
  let? res := OutPacket_packet_id res packet_id in
  match client_id with
  | Some cid => OutPacket_client_id res cid
  | None => Ok res
  end.

Definition OutUdpPacket_packet_type (p : OutUdpPacket) : res PacketError PacketType :=
  let? h := OutPacket_header (ou_data p) in
  InHeader_packet_type h.

(** The id under which a packet is acknowledged: the step of an init packet, the id of the
    header otherwise. *)
Definition OutUdpPacket_packet_id (p : OutUdpPacket) : res PacketError Z :=
  let? t := OutUdpPacket_packet_type p in
  if bool_decide (t = Init) then
    let? c := OutPacket_content (ou_data p) in
    index c (match op_dir (ou_data p) with S2C => 0 | C2S => 4 end)
  else
    let? h := OutPacket_header (ou_data p) in
    InHeader_packet_id h.

(** [OutAck::new]: [for_type] is the type that gets acknowledged. *)
Definition OutAck_new (dir : Direction) (for_type : PacketType) (packet_id : Z)
    : res PacketError OutPacket :=
  let? p_type :=
    match for_type with
    | Command => Ok Ack
    | CommandLow => Ok AckLow
    | Ping => Ok Pong
    | _ => Panic
    end in
  let? res := OutPacket_new_with_dir dir Flags_empty p_type in
  Ok (OutPacket_extend res (write_be 2 packet_id)).

(** * The layout of a header

    A header consists of the mac (8 bytes), the packet id (2 bytes), for client packets the
    client id (2 bytes), and one byte with the flags and the type.  Every accessor and every
    setter is characterised on a header given by its parts. *)

Record Layout := { l_mac : list Z; l_id : list Z; l_cid : list Z; l_byte : Z }.

Definition layout_bytes (L : Layout) : list Z := l_mac L ++ l_id L ++ l_cid L ++ [l_byte L].

Definition layout_ok (dir : Direction) (L : Layout) : Prop :=
  length (l_mac L) = 8%nat /\ length (l_id L) = 2%nat /\
  length (l_cid L) = (header_len dir - 11)%nat /\ bytes (layout_bytes L).

Definition layout_packet (dir : Direction) (L : Layout) (content : list Z) : OutPacket :=
  {| op_dir := dir; op_data := layout_bytes L ++ content |}.

Definition layout_header (dir : Direction) (L : Layout) : InHeader :=
  {| ih_direction := dir; ih_data := layout_bytes L |}.

Definition layout_flags (L : Layout) : Z := Z.land (l_byte L) 0xf0.
Definition layout_type (L : Layout) : option PacketType :=
  PacketType_from_u8 (Z.land (l_byte L) 0xf).

Definition with_mac (L : Layout) (mac : list Z) : Layout :=
  {| l_mac := mac; l_id := l_id L; l_cid := l_cid L; l_byte := l_byte L |}.
Definition with_id (L : Layout) (id : Z) : Layout :=
  {| l_mac := l_mac L; l_id := write_be 2 id; l_cid := l_cid L; l_byte := l_byte L |}.
Definition with_cid (L : Layout) (id : Z) : Layout :=
  {| l_mac := l_mac L; l_id := l_id L; l_cid := write_be 2 id; l_byte := l_byte L |}.
Definition with_flags (L : Layout) (f : Z) : Layout :=
  {| l_mac := l_mac L; l_id := l_id L; l_cid := l_cid L;
     l_byte := Z.lor (Z.land (l_byte L) 0xf) f |}.
Definition with_type (L : Layout) (t : PacketType) : Layout :=
  {| l_mac := l_mac L; l_id := l_id L; l_cid := l_cid L;
     l_byte := Z.lor (Z.land (l_byte L) 0xf0) (PacketType_to_u8 t) |}.

(** The header of a fresh packet: everything zero except the last byte. *)
Definition zero_layout (dir : Direction) : Layout :=
  {| l_mac := replicate 8 0; l_id := replicate 2 0;
     l_cid := replicate (header_len dir - 11) 0; l_byte := 0 |}.

End packets.

#[global] Arguments layout_bytes : simpl never.
#[global] Arguments zero_layout : simpl never.

(** * Bits of the flag byte *)

Lemma PacketType_from_to t : PacketType_from_u8 (PacketType_to_u8 t) = Some t.
Proof. by destruct t. Qed.

Lemma PacketType_from_u8_some n : 0 <= n <= 8 -> is_Some (PacketType_from_u8 n).
Proof.
  intros. assert (n = 0 \/ n = 1 \/ n = 2 \/ n = 3 \/ n = 4 \/ n = 5 \/ n = 6 \/ n = 7 \/ n = 8)
    as Hn by lia.
  repeat destruct Hn as [->|Hn]; subst; eauto.
Qed.

Lemma PacketType_to_u8_range t : 0 <= PacketType_to_u8 t <= 8.
Proof. destruct t; simpl; lia. Qed.

Lemma land_f_range b : 0 <= b -> 0 <= Z.land b 0xf < 16.
Proof.
  intros. change 0xf with (Z.ones 4). rewrite Z.land_ones by lia. by apply Z.mod_pos_bound.
Qed.

Lemma flags_land f : is_flags f -> Z.land f 0xf0 = f.
Proof.
  intros [_ H]. change 0xf0 with Flags_all.
  rewrite <- (Z.lor_ldiff_and f Flags_all) at 2. rewrite H. by rewrite Z.lor_0_l.
Qed.

Lemma flags_land_low f : is_flags f -> Z.land f 0xf = 0.
Proof. intros H. rewrite <- (flags_land f H), <- Z.land_assoc. apply Z.land_0_r. Qed.

Lemma flags_range f : is_flags f -> 0 <= f <= 240.
Proof. intros H. pose proof H as [H1 H2]. by apply Z.ldiff_le in H2. Qed.

Lemma land_f0_flags b : 0 <= b -> is_flags (Z.land b 0xf0).
Proof.
  intros. split.
  - apply Z.land_nonneg. by left.
  - rewrite Z.ldiff_land. change (Z.lnot Flags_all) with (-241). rewrite <- Z.land_assoc.
    apply Z.land_0_r.
Qed.

Lemma Flags_from_land b : 0 <= b -> Flags_from_bits (Z.land b 0xf0) = Some (Z.land b 0xf0).
Proof. intros H. unfold Flags_from_bits. by destruct (land_f0_flags b H) as [_ ->]. Qed.

(** Setting the flags does not change the type, and setting the type not the flags. *)
Lemma set_flags_bits b f :
  is_flags f ->
  Z.land (Z.lor (Z.land b 0xf) f) 0xf0 = f /\ Z.land (Z.lor (Z.land b 0xf) f) 0xf = Z.land b 0xf.
Proof.
  intros Hf. rewrite !Z.land_lor_distr_l, <- !Z.land_assoc, (flags_land f), (flags_land_low f) by done.
  change (Z.land 0xf 0xf0) with 0. change (Z.land 0xf 0xf) with 0xf.
  by rewrite Z.land_0_r, Z.lor_0_r, Z.lor_0_l.
Qed.

Lemma set_type_bits b t :
  Z.land (Z.lor (Z.land b 0xf0) (PacketType_to_u8 t)) 0xf = PacketType_to_u8 t /\
  Z.land (Z.lor (Z.land b 0xf0) (PacketType_to_u8 t)) 0xf0 = Z.land b 0xf0.
Proof.
  rewrite !Z.land_lor_distr_l, <- !Z.land_assoc.
  change (Z.land 0xf0 0xf) with 0. change (Z.land 0xf0 0xf0) with 0xf0.
  rewrite Z.land_0_r. by destruct t; rewrite ?Z.lor_0_r, ?Z.lor_0_l.
Qed.

Lemma lor_u8 a b : is_u8 a -> is_u8 b -> is_u8 (Z.lor a b).
Proof.
  unfold is_uint. intros [Ha1 Ha2] [Hb1 Hb2]. split; [by apply Z.lor_nonneg|].
  destruct (decide (Z.lor a b = 0)) as [->|]; [done|].
  apply Z.log2_lt_pow2; [pose proof (proj2 (Z.lor_nonneg a b) (conj Ha1 Hb1)); lia|].
  rewrite Z.log2_lor by done.
  apply Z.max_lub_lt.
  - destruct (decide (a = 0)) as [->|]; [done|]. apply Z.log2_lt_pow2; lia.
  - destruct (decide (b = 0)) as [->|]; [done|]. apply Z.log2_lt_pow2; lia.
Qed.

(** * Accessors and setters on a layout *)

Section layout.
Context `{BeIoLaws}.
Implicit Types (L : Layout) (dir : Direction).

Lemma layout_length dir L : layout_ok dir L -> length (layout_bytes L) = header_len dir.
Proof.
  intros (H1 & H2 & H3 & _). unfold layout_bytes. rewrite !length_app, H1, H2, H3.
  destruct dir; reflexivity.
Qed.

Lemma layout_byte dir L : layout_ok dir L -> is_u8 (l_byte L).
Proof.
  intros (_ & _ & _ & Hb). unfold layout_bytes in Hb.
  rewrite !bytes_app in Hb. destruct Hb as (_ & _ & _ & Hb). by apply Forall_inv in Hb.
Qed.

Lemma layout_off dir L content :
  layout_ok dir L ->
  (layout_bytes L ++ content) !! InHeader_get_off (layout_header dir L) = Some (l_byte L).
Proof.
  intros (H1 & H2 & H3 & _). unfold layout_bytes.
  replace ((l_mac L ++ l_id L ++ l_cid L ++ [l_byte L]) ++ content)
    with ((l_mac L ++ l_id L ++ l_cid L) ++ l_byte L :: content)
    by (by rewrite <- !app_assoc).
  apply list_lookup_middle. rewrite !length_app, H1, H2, H3. by destruct dir.
Qed.

Lemma header_off dir L : layout_ok dir L ->
  ih_data (layout_header dir L) !! InHeader_get_off (layout_header dir L) = Some (l_byte L).
Proof. intros. simpl. rewrite <- (app_nil_r (layout_bytes L)). by apply layout_off. Qed.

Lemma mac_layout dir L : layout_ok dir L -> InHeader_mac (layout_header dir L) = Ok (l_mac L).
Proof.
  intros (H1 & _). unfold InHeader_mac. simpl. unfold layout_bytes.
  apply (slice_app_mid [] (l_mac L)); simpl; lia.
Qed.

Lemma packet_id_layout dir L : layout_ok dir L ->
  InHeader_packet_id (layout_header dir L) = unwrap (read_be 2 (l_id L)).
Proof.
  intros (H1 & H2 & _). unfold InHeader_packet_id. simpl. unfold layout_bytes.
  rewrite slice_app_mid by lia. done.
Qed.

Lemma client_id_layout L : layout_ok C2S L ->
  InHeader_client_id (layout_header C2S L) =
    let? c := unwrap (read_be 2 (l_cid L)) in Ok (Some c).
Proof.
  intros (H1 & H2 & H3 & _). unfold InHeader_client_id. simpl in *. unfold layout_bytes.
  rewrite app_assoc, slice_app_mid by (rewrite ?length_app; lia). done.
Qed.

Lemma flags_layout dir L : layout_ok dir L ->
  InHeader_flags (layout_header dir L) = Ok (layout_flags L).
Proof.
  intros HL. unfold InHeader_flags. rewrite (index_ok _ _ _ (header_off dir L HL)). simpl.
  rewrite Flags_from_land; [done|]. apply (layout_byte dir L HL).
Qed.

Lemma packet_type_layout dir L : layout_ok dir L ->
  InHeader_packet_type (layout_header dir L) = unwrap (layout_type L).
Proof.
  intros HL. unfold InHeader_packet_type. by rewrite (index_ok _ _ _ (header_off dir L HL)).
Qed.

Lemma header_layout dir L content : layout_ok dir L ->
  OutPacket_header (layout_packet dir L content) = Ok (layout_header dir L).
Proof.
  intros HL. unfold OutPacket_header, OutPacket_header_bytes, OutPacket_content_offset. simpl.
  rewrite <- (layout_length dir L HL), slice_to_ok by (rewrite length_app; lia).
  by rewrite take_app_length.
Qed.

Lemma content_layout dir L content : layout_ok dir L ->
  OutPacket_content (layout_packet dir L content) = Ok content.
Proof.
  intros HL. unfold OutPacket_content, OutPacket_content_offset. simpl.
  by rewrite slice_from_app by (by rewrite (layout_length dir L HL)).
Qed.

Lemma new_layout dir L content : layout_ok dir L ->
  InPacket_new dir (layout_bytes L ++ content)
    = Ok {| ip_header := layout_header dir L; ip_content := content |}.
Proof.
  intros HL. unfold InPacket_new, InHeader_new.
  rewrite <- (layout_length dir L HL), slice_to_ok by (rewrite length_app; lia).
  rewrite take_app_length. simpl. by rewrite slice_from_app.
Qed.

Lemma try_new_layout dir L content : layout_ok dir L ->
  InPacket_try_new dir (layout_bytes L ++ content) =
    if 8 <? Z.land (l_byte L) 0xf then Err (UnknownPacketType (Z.land (l_byte L) 0xf))
    else Ok {| ip_header := layout_header dir L; ip_content := content |}.
Proof.
  intros HL. unfold InPacket_try_new. rewrite bool_decide_false
    by (rewrite length_app, (layout_length dir L HL); lia).
  replace (header_len dir - 1)%nat with (InHeader_get_off (layout_header dir L)) by by destruct dir.
  rewrite (index_ok _ _ _ (layout_off dir L content HL)). simpl.
  by rewrite new_layout.
Qed.

(** Any byte sequence that is long enough for a header has a layout. *)
Lemma layout_exists dir data : bytes data -> (header_len dir <= length data)%nat ->
  exists L content, layout_ok dir L /\ data = layout_bytes L ++ content.
Proof.
  intros Hb Hlen. set (n := (header_len dir - 11)%nat).
  assert (header_len dir = n + 11)%nat as Hh by by destruct dir.
  destruct (lookup_lt_is_Some_2 data (10 + n)) as [b Hb']; [lia|].
  exists {| l_mac := take 8 data; l_id := take 2 (drop 8 data);
            l_cid := take n (drop 10 data); l_byte := b |}, (drop (11 + n) data).
  assert (data = (take 8 data ++ take 2 (drop 8 data) ++ take n (drop 10 data) ++ [b])
            ++ drop (11 + n) data) as Hd.
  { rewrite <- !app_assoc. rewrite <- (take_drop 8 data) at 1. f_equal.
    rewrite <- (take_drop 2 (drop 8 data)) at 1. f_equal. rewrite drop_drop.
    rewrite <- (take_drop n (drop (8 + 2) data)) at 1. f_equal. rewrite drop_drop.
    by rewrite (drop_S data b (8 + 2 + n)). }
  split; [|done]. repeat split; simpl.
  - rewrite length_take. lia.
  - rewrite length_take, length_drop. lia.
  - rewrite length_take, length_drop. fold n. lia.
  - rewrite Hd in Hb. apply bytes_app in Hb as [Hb _]. exact Hb.
Qed.

(** ** Setters *)

Lemma set_byte dir L content x :
  layout_ok dir L ->
  <[InHeader_get_off (layout_header dir L) := x]> (layout_bytes L ++ content) =
  layout_bytes {| l_mac := l_mac L; l_id := l_id L; l_cid := l_cid L; l_byte := x |} ++ content.
Proof.
  intros HL. pose proof HL as (H1 & H2 & H3 & _). unfold layout_bytes. simpl.
  assert (InHeader_get_off (layout_header dir L) = length (l_mac L ++ l_id L ++ l_cid L))
    as -> by (rewrite !length_app, H1, H2, H3; by destruct dir).
  replace ((l_mac L ++ l_id L ++ l_cid L ++ [l_byte L]) ++ content)
    with ((l_mac L ++ l_id L ++ l_cid L) ++ l_byte L :: content)
    by (by rewrite <- !app_assoc).
  rewrite <- (Nat.add_0_r (length _)), insert_app_r. by rewrite <- !app_assoc.
Qed.

Lemma with_byte_ok dir L x :
  layout_ok dir L -> is_u8 x ->
  layout_ok dir {| l_mac := l_mac L; l_id := l_id L; l_cid := l_cid L; l_byte := x |}.
Proof.
  intros (H1 & H2 & H3 & Hb) Hx. repeat split; try done. unfold layout_bytes in *. simpl.
  rewrite !bytes_app in *. destruct Hb as (? & ? & ? & _). eauto.
Qed.

Lemma flags_packet dir L content f : layout_ok dir L ->
  OutPacket_flags (layout_packet dir L content) f = Ok (layout_packet dir (with_flags L f) content).
Proof.
  intros HL. unfold OutPacket_flags. rewrite header_layout by done. simpl.
  rewrite (index_ok _ _ _ (layout_off dir L content HL)). simpl.
  rewrite set_index_ok by (eapply lookup_lt_Some, (layout_off dir L content HL)).
  by rewrite set_byte.
Qed.

Lemma packet_type_packet dir L content t : layout_ok dir L ->
  OutPacket_packet_type (layout_packet dir L content) t
    = Ok (layout_packet dir (with_type L t) content).
Proof.
  intros HL. unfold OutPacket_packet_type. rewrite header_layout by done. simpl.
  rewrite (index_ok _ _ _ (layout_off dir L content HL)). simpl.
  rewrite set_index_ok by (eapply lookup_lt_Some, (layout_off dir L content HL)).
  by rewrite set_byte.
Qed.

Lemma set_mac_packet dir L content mac : layout_ok dir L -> length mac = 8%nat ->
  OutPacket_set_mac (layout_packet dir L content) mac
    = Ok (layout_packet dir (with_mac L mac) content).
Proof.
  intros HL Hm. pose proof HL as (H1 & H2 & H3 & _).
  unfold OutPacket_set_mac. simpl.
  rewrite slice_ok by (rewrite ?length_app, ?(layout_length dir L HL); destruct dir; simpl; lia).
  simpl. rewrite bool_decide_true by done. unfold layout_bytes. rewrite <- !app_assoc.
  pose proof (overwrite_mid (E := PacketError) [] (l_mac L) (l_id L ++ l_cid L ++ [l_byte L] ++ content) mac 0
    eq_refl ltac:(lia)) as E. simpl in E. simpl. rewrite E.
  simpl. unfold layout_packet, OutPacket_with_data, layout_bytes. simpl. by rewrite <- !app_assoc.
Qed.

Lemma packet_id_packet dir L content id : layout_ok dir L ->
  OutPacket_packet_id (layout_packet dir L content) id
    = Ok (layout_packet dir (with_id L id) content).
Proof.
  intros HL. pose proof HL as (H1 & H2 & H3 & _).
  unfold OutPacket_packet_id. simpl.
  rewrite slice_ok by (rewrite ?length_app, ?(layout_length dir L HL); destruct dir; simpl; lia).
  simpl. unfold layout_bytes. rewrite <- !app_assoc.
  rewrite (overwrite_mid (l_mac L) (l_id L)) by (rewrite ?write_be_length; lia).
  simpl. unfold layout_packet, OutPacket_with_data, layout_bytes. simpl. by rewrite <- !app_assoc.
Qed.

Lemma client_id_packet L content id : layout_ok C2S L ->
  OutPacket_client_id (layout_packet C2S L content) id
    = Ok (layout_packet C2S (with_cid L id) content).
Proof.
  intros HL. pose proof HL as (H1 & H2 & H3 & _). simpl in H3.
  unfold OutPacket_client_id. simpl.
  rewrite slice_ok by (rewrite ?length_app, ?(layout_length C2S L HL); simpl; lia).
  simpl. unfold layout_bytes. rewrite <- !app_assoc, (app_assoc (l_mac L)).
  rewrite overwrite_mid by (rewrite ?write_be_length, ?length_app; lia).
  simpl. unfold layout_packet, OutPacket_with_data, layout_bytes. simpl. by rewrite <- !app_assoc.
Qed.

(** ** The setters keep a layout well formed *)

Lemma with_mac_ok dir L mac : layout_ok dir L -> length mac = 8%nat -> bytes mac ->
  layout_ok dir (with_mac L mac).
Proof.
  intros (H1 & H2 & H3 & Hb) ??. repeat split; try done. unfold layout_bytes in *. simpl.
  rewrite !bytes_app in *. tauto.
Qed.

Lemma with_id_ok dir L id : layout_ok dir L -> layout_ok dir (with_id L id).
Proof.
  intros (H1 & H2 & H3 & Hb). repeat split; try done; simpl; [by apply write_be_length|].
  unfold layout_bytes in *. simpl. rewrite !bytes_app in *. pose proof (write_be_bytes 2 id).
  tauto.
Qed.

Lemma with_cid_ok L id : layout_ok C2S L -> layout_ok C2S (with_cid L id).
Proof.
  intros (H1 & H2 & H3 & Hb). repeat split; try done; simpl; [by apply write_be_length|].
  unfold layout_bytes in *. simpl. rewrite !bytes_app in *. pose proof (write_be_bytes 2 id).
  tauto.
Qed.

Lemma with_flags_ok dir L f : layout_ok dir L -> is_flags f -> layout_ok dir (with_flags L f).
Proof.
  intros HL Hf. apply with_byte_ok; [done|]. pose proof (layout_byte dir L HL) as [? _].
  pose proof (land_f_range (l_byte L) ltac:(done)). pose proof (flags_range f Hf).
  apply lor_u8; unfold is_uint; lia.
Qed.

Lemma with_type_ok dir L t : layout_ok dir L -> layout_ok dir (with_type L t).
Proof.
  intros HL. apply with_byte_ok; [done|]. pose proof (layout_byte dir L HL) as [? _].
  pose proof (PacketType_to_u8_range t).
  pose proof (flags_range _ (land_f0_flags (l_byte L) ltac:(done))).
  apply lor_u8; unfold is_uint; lia.
Qed.

Lemma with_flags_read L f : is_flags f ->
  layout_flags (with_flags L f) = f /\ layout_type (with_flags L f) = layout_type L.
Proof.
  intros Hf. unfold layout_flags, layout_type. simpl.
  by destruct (set_flags_bits (l_byte L) f Hf) as [-> ->].
Qed.

Lemma with_type_read L t :
  layout_flags (with_type L t) = layout_flags L /\ layout_type (with_type L t) = Some t.
Proof.
  unfold layout_flags, layout_type. simpl.
  destruct (set_type_bits (l_byte L) t) as [-> ->]. by rewrite PacketType_from_to.
Qed.

(** ** Fresh packets *)

Lemma zero_layout_ok dir : layout_ok dir (zero_layout dir).
Proof. by destruct dir; repeat split; repeat constructor. Qed.

Definition fresh_layout (dir : Direction) (f : Z) (t : PacketType) : Layout :=
  with_type (with_flags (zero_layout dir) f) t.

#[global] Arguments fresh_layout : simpl never.

Lemma fresh_layout_ok dir f t : is_flags f -> layout_ok dir (fresh_layout dir f t).
Proof. intros. apply with_type_ok, with_flags_ok; [apply zero_layout_ok|done]. Qed.

Lemma fresh_layout_read dir f t : is_flags f ->
  layout_flags (fresh_layout dir f t) = f /\ layout_type (fresh_layout dir f t) = Some t.
Proof.
  intros Hf. unfold fresh_layout. destruct (with_type_read (with_flags (zero_layout dir) f) t) as [-> ->].
  split; [|done]. by apply with_flags_read.
Qed.

Lemma new_with_dir_layout dir f t : is_flags f ->
  OutPacket_new_with_dir dir f t = Ok (layout_packet dir (fresh_layout dir f t) []).
Proof.
  intros Hf. unfold OutPacket_new_with_dir.
  replace {| op_dir := dir; op_data := replicate (header_len dir) 0 |}
    with (layout_packet dir (zero_layout dir) []) by by destruct dir.
  rewrite flags_packet by apply zero_layout_ok. simpl.
  by rewrite packet_type_packet by (by apply with_flags_ok, Hf; apply zero_layout_ok).
Qed.

End layout.

Lemma is_flags_empty : is_flags Flags_empty.
Proof. done. Qed.

#[export] Hint Resolve zero_layout_ok fresh_layout_ok with_mac_ok with_id_ok with_cid_ok
  with_flags_ok with_type_ok is_flags_empty : ts.

(** * Properties *)

Section properties.
Context `{BeIoLaws}.

Lemma type_of_low b t : PacketType_from_u8 (Z.land b 0xf) = Some t -> Z.land b 0xf <= 8.
Proof.
  intros Ht. destruct (decide (Z.land b 0xf <= 8)); [done|]. exfalso.
  assert (Z.land b 0xf < 16) by (change 0xf with (Z.ones 4); rewrite Z.land_ones by lia;
    by apply Z.mod_pos_bound).
  destruct (Z.land b 0xf) as [|q|q] eqn:E; try lia.
  do 4 (destruct q; simpl in *; try lia; try discriminate).
Qed.

Lemma layout_type_some dir L : layout_ok dir L -> Z.land (l_byte L) 0xf <= 8 ->
  exists t, layout_type L = Some t.
Proof.
  intros HL Hle. apply PacketType_from_u8_some.
  pose proof (land_f_range (l_byte L) (proj1 (layout_byte dir L HL))). lia.
Qed.

Lemma read_u16 l : bytes l -> length l = 2%nat ->
  exists z, read_be 2 l = Some z /\ is_u16 z.
Proof.
  intros Hb Hl. destruct (read_be_total 2 l) as (z & Hz & Hu & _); [done|lia|].
  by exists z.
Qed.

Lemma layout_parts_bytes dir L : layout_ok dir L -> bytes (l_id L) /\ bytes (l_cid L).
Proof.
  intros (_ & _ & _ & Hb). unfold layout_bytes in Hb. rewrite !bytes_app in Hb. tauto.
Qed.

(** Every accessor succeeds on a header with a known type. *)
Lemma layout_accessors dir L : layout_ok dir L -> Z.land (l_byte L) 0xf <= 8 ->
  let h := layout_header dir L in
  is_ok (InHeader_mac h) = true /\
  (exists id, InHeader_packet_id h = Ok id /\ is_u16 id) /\
  is_ok (InHeader_client_id h) = true /\ is_ok (InHeader_flags h) = true /\
  exists t, InHeader_packet_type h = Ok t.
Proof.
  intros HL Hle h. subst h. pose proof HL as (H1 & H2 & H3 & _).
  destruct (layout_parts_bytes dir L HL) as [Hid Hcid].
  rewrite mac_layout, packet_id_layout, flags_layout, packet_type_layout by done.
  destruct (layout_type_some dir L HL Hle) as [t ->].
  destruct (read_u16 (l_id L) Hid H2) as (id & -> & Hidr).
  repeat split; [by exists id| |by exists t].
  destruct dir; [done|]. rewrite client_id_layout by done.
  by destruct (read_u16 (l_cid L) Hcid H3) as (c & -> & _).
Qed.

Lemma ack_packet_no_panic p t :
  InHeader_packet_type (ip_header p) = Ok t -> no_panic (InPacket_ack_packet p) = true.
Proof.
  intros Ht. unfold InPacket_ack_packet. rewrite Ht. simpl.
  destruct (PacketType_is_ack t); [by destruct (read_be 2 (ip_content p))|].
  case_bool_decide; [|done].
  destruct (ih_direction (ip_header p)).
  - destruct (head (ip_content p)) as [i|]; [|done]. simpl.
    repeat case_match; done.
  - destruct (ip_content p !! 4%nat) as [i|]; [|done]. simpl.
    repeat case_match; done.
Qed.

(** [InPacket::try_new] rejects exactly the packets that are too short for a header or have
    an unknown type, and on every packet it accepts, no header accessor and no
    [InPacket::ack_packet] panics; header and content together are the received bytes. *)
Theorem try_new_safe (dir : Direction) (data : list Z) (Hdata : bytes data) :
  match InPacket_try_new dir data with
  | Ok p =>
      data = ih_data (ip_header p) ++ ip_content p /\
      length (ih_data (ip_header p)) = header_len dir /\
      is_ok (InHeader_mac (ip_header p)) = true /\
      (exists id, InHeader_packet_id (ip_header p) = Ok id /\ is_u16 id) /\
      is_ok (InHeader_client_id (ip_header p)) = true /\
      is_ok (InHeader_flags (ip_header p)) = true /\
      is_ok (InHeader_packet_type (ip_header p)) = true /\
      no_panic (InPacket_ack_packet p) = true
  | Err (PacketTooShort n) => n = length data /\ (n < header_len dir)%nat
  | Err (UnknownPacketType t) =>
      8 < t < 16 /\ exists b, data !! (header_len dir - 1)%nat = Some b /\ Z.land b 0xf = t
  | _ => False
  end.
Proof.
  destruct (decide (length data < header_len dir)%nat) as [Hs|Hs].
  { unfold InPacket_try_new. by rewrite bool_decide_true. }
  destruct (layout_exists dir data Hdata) as (L & content & HL & ->); [lia|].
  rewrite try_new_layout by done. destruct (Z.ltb_spec 8 (Z.land (l_byte L) 0xf)) as [Hlt|Hle].
  - split; [pose proof (land_f_range (l_byte L) (proj1 (layout_byte dir L HL))); lia|].
    exists (l_byte L). split; [|done].
    replace (header_len dir - 1)%nat with (InHeader_get_off (layout_header dir L)) by by destruct dir.
    by apply layout_off.
  - destruct (layout_accessors dir L HL Hle) as (Hm & Hi & Hc & Hf & t & Ht). simpl.
    rewrite Ht, (layout_length dir L HL). repeat split; try done.
    by apply (ack_packet_no_panic _ t).
Qed.

Lemma OutPacket_new_layout mac id cid f t :
  length mac = 8%nat -> bytes mac -> is_flags f ->
  let dir := match cid with Some _ => C2S | None => S2C end in
  exists L, layout_ok dir L /\ OutPacket_new mac id cid f t = Ok (layout_packet dir L []) /\
    l_mac L = mac /\ l_id L = write_be 2 id /\
    (forall c, cid = Some c -> l_cid L = write_be 2 c) /\
    layout_flags L = f /\ layout_type L = Some t.
Proof.
  intros Hm Hmb Hf dir. unfold OutPacket_new. fold dir.
  rewrite new_with_dir_layout by done. simpl.
  rewrite set_mac_packet by auto with ts. simpl.
  rewrite packet_id_packet by auto with ts. simpl.
  destruct (fresh_layout_read dir f t Hf) as [Hfl Hty].
  destruct cid as [c|]; subst dir; simpl in *.
  - rewrite client_id_packet by auto with ts.
    eexists. split; [|split; [reflexivity|]]; [auto with ts|].
    repeat split; try done. by intros ? [= ->].
  - eexists. split; [|split; [reflexivity|]]; [auto with ts|]. done.
Qed.

(** A packet built by [OutPacket::new], with any content appended, is accepted by
    [InPacket::try_new] in its direction, and the accessors of the received packet return the
    mac, packet id, client id, flags, type and content it was built from. *)
Theorem OutPacket_new_roundtrip (mac : list Z) (id : Z) (cid : option Z) (f : Z) (t : PacketType)
    (content : list Z)
    (Hmac : length mac = 8%nat) (Hmacb : bytes mac) (Hid : is_u16 id)
    (Hcid : forall c, cid = Some c -> is_u16 c) (Hf : is_flags f) :
  exists p ip,
    OutPacket_new mac id cid f t = Ok p /\
    InPacket_try_new (op_dir p) (op_data (OutPacket_extend p content)) = Ok ip /\
    ih_direction (ip_header ip) = match cid with Some _ => C2S | None => S2C end /\
    InHeader_mac (ip_header ip) = Ok mac /\
    InHeader_packet_id (ip_header ip) = Ok id /\
    InHeader_client_id (ip_header ip) = Ok cid /\
    InHeader_flags (ip_header ip) = Ok f /\
    InHeader_packet_type (ip_header ip) = Ok t /\
    ip_content ip = content.
Proof.
  destruct (OutPacket_new_layout mac id cid f t Hmac Hmacb Hf)
    as (L & HL & Hp & Hm & Hi & Hc & Hfl & Hty).
  eexists _, _. split; [exact Hp|]. unfold OutPacket_extend, layout_packet. simpl.
  rewrite app_nil_r, try_new_layout by done.
  rewrite (proj2 (Z.ltb_ge _ _)) by (by apply (type_of_low _ t)).
  split; [reflexivity|]. simpl.
  rewrite mac_layout, packet_id_layout, flags_layout, packet_type_layout by done.
  rewrite Hm, Hi, Hfl, Hty.
  rewrite (read_be_app 2 (write_be 2 id) id []) by (by rewrite ?app_nil_r).
  repeat split. destruct cid as [c|]; [|done].
  rewrite client_id_layout, (Hc c) by done.
  by rewrite (read_be_app 2 (write_be 2 c) c []) by (rewrite ?app_nil_r; auto).
Qed.

(** [OutAck::new] panics exactly for the packet types that are never acknowledged; for a
    command, a low-priority command and a ping the ack is of the fitting type and its receiver
    reads back the acknowledged packet id. *)
Theorem OutAck_roundtrip (dir : Direction) (for_type : PacketType) (id : Z) (Hid : is_u16 id) :
  match for_type with
  | Command | CommandLow | Ping =>
      exists p ip t,
        OutAck_new dir for_type id = Ok p /\ InPacket_try_new dir (op_data p) = Ok ip /\
        InHeader_packet_type (ip_header ip) = Ok t /\ PacketType_is_ack t = true /\
        InHeader_flags (ip_header ip) = Ok Flags_empty /\
        InPacket_ack_packet ip = Ok (Some id) /\
        t = match for_type with Command => Ack | CommandLow => AckLow | _ => Pong end
  | _ => OutAck_new dir for_type id = Panic
  end.
Proof.
  assert (forall t, PacketType_is_ack t = true ->
    exists p ip, (let? res := OutPacket_new_with_dir dir Flags_empty t in
                  Ok (OutPacket_extend res (write_be 2 id))) = Ok p /\
      InPacket_try_new dir (op_data p) = Ok ip /\ InHeader_packet_type (ip_header ip) = Ok t /\
      InHeader_flags (ip_header ip) = Ok Flags_empty /\
      InPacket_ack_packet ip = Ok (Some id)) as Hgen.
  { intros t Ht. rewrite new_with_dir_layout by done. simpl.
    destruct (fresh_layout_read dir Flags_empty t is_flags_empty) as [Hfl Hty].
    assert (layout_ok dir (fresh_layout dir Flags_empty t)) as HL by auto with ts.
    exists (layout_packet dir (fresh_layout dir Flags_empty t) (write_be 2 id)). eexists.
    split; [unfold OutPacket_extend; cbn [op_dir op_data layout_packet]; by rewrite app_nil_r|].
    cbn [op_data layout_packet]. rewrite try_new_layout by done.
    rewrite (proj2 (Z.ltb_ge _ _)) by (by apply (type_of_low _ t)).
    split; [reflexivity|]. unfold InPacket_ack_packet. simpl.
    rewrite packet_type_layout, flags_layout, Hty, Hfl by done. simpl. rewrite Ht.
    by rewrite (read_be_app 2 (write_be 2 id) id []) by (by rewrite ?app_nil_r). }
  destruct for_type; try reflexivity; unfold OutAck_new; simpl.
  1: destruct (Hgen Ack eq_refl) as (p & ip & ? & ? & ? & ? & ?).
  2: destruct (Hgen AckLow eq_refl) as (p & ip & ? & ? & ? & ? & ?).
  3: destruct (Hgen Pong eq_refl) as (p & ip & ? & ? & ? & ? & ?).
  all: by exists p, ip; eexists; repeat split.
Qed.
End properties.

Lemma try_new_safe_witness : exists p,
  InPacket_try_new S2C [1; 2; 3; 4; 5; 6; 7; 8; 0; 5; 2; 65] = Ok p /\
  no_panic (InPacket_ack_packet p) = true.
Proof.
  pose proof (try_new_safe S2C [1; 2; 3; 4; 5; 6; 7; 8; 0; 5; 2; 65]) as T.
  eexists. split; [reflexivity|]. apply T. repeat constructor; by vm_compute.
Defined.

Lemma OutPacket_new_roundtrip_witness : exists p ip,
  OutPacket_new [1; 2; 3; 4; 5; 6; 7; 8] 0x1234 (Some 7) (Flags_or COMPRESSED FRAGMENTED) Command
    = Ok p /\
  InPacket_try_new C2S (op_data (OutPacket_extend p [9; 9])) = Ok ip /\
  InHeader_packet_id (ip_header ip) = Ok 0x1234.
Proof.
  destruct (OutPacket_new_roundtrip [1; 2; 3; 4; 5; 6; 7; 8] 0x1234 (Some 7)
    (Flags_or COMPRESSED FRAGMENTED) Command [9; 9]) as (p & ip & Hp & Hip & _ & _ & Hid & _).
  - reflexivity.
  - repeat constructor; by vm_compute.
  - by vm_compute.
  - intros c [= <-]. by vm_compute.
  - by vm_compute.
  - exists p, ip. split; [exact Hp|]. split; [|exact Hid].
    assert (op_dir p = C2S) as Hd.
    { vm_compute in Hp. by injection Hp as <-. }
    by rewrite <- Hd.
Defined.

Lemma OutAck_roundtrip_witness : exists p,
  OutAck_new C2S Command 513 = Ok p /\ op_data p = [0;0;0;0;0;0;0;0;0;0;0;0;6;2;1].
Proof.
  destruct (OutAck_roundtrip C2S Command 513) as (p & ip & t & Hp & _); [by vm_compute|].
  exists p. split; [exact Hp|]. vm_compute in Hp. by injection Hp as <-.
Defined.
