(* ===== verification/InitPackets.v ===== *)
(** The init packets of the handshake ([packets.rs]): the five builders ([OutC2SInit0/2/4],
    [OutS2CInit1/3]) and the two parsers ([into_c2sinit], [into_s2cinit]).  A fixed-size array is
    a list with its length in [c2s_data_ok] / [s2c_data_ok]. *)
From S2P Require Import Prelude ByteIO Packets.
From stdpp Require Import strings.
#[local] Open Scope Z_scope.

(** The bytes of a string literal. *)
Definition byte_str (s : string) : list Z :=
  (fun a => Z.of_nat (Ascii.nat_of_ascii a)) <$> String.list_ascii_of_string s.

Definition TS3INIT1 : list Z := byte_str "TS3INIT1".

Inductive C2SInitData :=
  | Init0 (version timestamp : Z) (random0 : list Z)
  | Init2 (version : Z) (random1 random0_r : list Z)
  | Init4 (version : Z) (x n : list Z) (level : Z) (random2 y command : list Z).

Inductive S2CInitData :=
  | Init1 (random1 random0_r : list Z)
  | Init3 (x n : list Z) (level : Z) (random2 : list Z)
  | Init127.

Definition C2SInitData_get_step (d : C2SInitData) : Z :=
  match d with
  | Init0 _ _ _ => 0
  | Init2 _ _ _ => 2
  | Init4 _ _ _ _ _ _ _ => 4
  end.

Definition S2CInitData_get_step (d : S2CInitData) : Z :=
  match d with
  | Init1 _ _ => 1
  | Init3 _ _ _ _ => 3
  | Init127 => 127
  end.

(** The standard base64 encoding is a library: a parameter. *)
Class Base64Enc := { base64_encode : list Z -> list Z }.

Section init.
Context `{BeIo}.

(** * Parsers *)

Definition InPacket_into_s2cinit (p : InPacket) : res PacketError S2CInitData :=
  let content := ip_content p in
  let too_short := Err (PacketContentTooShort (length content)) in
  if negb (bool_decide (ih_direction (ip_header p) = S2C)) then Err WrongDirection else
  let? p_type := InHeader_packet_type (ip_header p) in
  if negb (bool_decide (p_type = Init)) then Err (WrongPacketType p_type) else
  let? mac := InHeader_mac (ip_header p) in
  if negb (bool_decide (mac = TS3INIT1)) then Err (WrongInitMac mac) else
  if bool_decide (content = []) then too_short else
  let? step := index content 0 in
  if step =? 1 then
    if bool_decide (length content < 21)%nat then too_short else
    let? random1 := slice content 1 17 in
    let? random0_r := slice content 17 21 in
    Ok (Init1 random1 random0_r)
  else if step =? 3 then
    if bool_decide (length content < 233)%nat then too_short else
    let? x := slice content 1 65 in
    let? n := slice content 65 129 in
    let? tail := slice_from content 129 in
    let? level := ok_or (read_be 4 tail) Io in
    let? random2 := slice content 133 233 in
    Ok (Init3 x n level random2)
  else if step =? 127 then Ok Init127
  else Err (InvalidInitStep step).

Definition InPacket_into_c2sinit (p : InPacket) : res PacketError C2SInitData :=
  let content := ip_content p in
  let too_short := Err (PacketContentTooShort (length content)) in
  if negb (bool_decide (ih_direction (ip_header p) = C2S)) then Err WrongDirection else
  let? p_type := InHeader_packet_type (ip_header p) in
  if negb (bool_decide (p_type = Init)) then Err (WrongPacketType p_type) else
  let? mac := InHeader_mac (ip_header p) in
  if negb (bool_decide (mac = TS3INIT1)) then Err (WrongInitMac mac) else
  if bool_decide (length content < 5)%nat then too_short else
  let? all := slice_from content 0 in
  let? version := ok_or (read_be 4 all) Io in
  let? step := index content 4 in
  if step =? 0 then
    if bool_decide (length content < 13)%nat then too_short else
    let? tail := slice_from content 5 in
    let? timestamp := ok_or (read_be 4 tail) Io in
    let? random0 := slice content 9 13 in
    Ok (Init0 version timestamp random0)
  else if step =? 2 then
    if bool_decide (length content < 25)%nat then too_short else
    let? random1 := slice content 5 21 in
    let? random0_r := slice content 21 25 in
    Ok (Init2 version random1 random0_r)
  else if step =? 4 then
    let len := (5 + 128 + 4 + 100 + 64)%nat in
    if bool_decide (length content < len + 20)%nat then too_short else
    let? x := slice content 5 69 in
    let? n := slice content 69 133 in
    let? tail := slice_from content 133 in
    let? level := ok_or (read_be 4 tail) Io in
    let? random2 := slice content 137 237 in
    let? y := slice content 237 301 in
    let? command := slice_from content len in
    Ok (Init4 version x n level random2 y command)
  else
    let? b := index content 0 in
    Err (InvalidInitStep b).

(** * Builders *)

(** The common start of the builders: an init packet with the fixed mac and packet id. *)
Definition init_packet (dir : Direction) : res PacketError OutPacket :=
  let? res := OutPacket_new_with_dir dir Flags_empty Init in
  let? res := OutPacket_set_mac res TS3INIT1 in
  OutPacket_packet_id res 0x65.

Definition OutC2SInit0_new (version timestamp : Z) (random0 : list Z) : res PacketError OutPacket :=
  let? res := init_packet C2S in
  Ok (OutPacket_extend res (write_be 4 version ++ write_be 1 0 ++ write_be 4 timestamp ++ random0
      ++ replicate 8 0)).

Definition OutC2SInit2_new (version : Z) (random1 random0_r : list Z) : res PacketError OutPacket :=
  let? res := init_packet C2S in
  Ok (OutPacket_extend res (write_be 4 version ++ write_be 1 2 ++ random1 ++ random0_r)).

Definition clientinitiv `{Base64Enc} (alpha omega ip : list Z) : list Z :=
  let ip := match ip with [] => [] | _ => byte_str "=" ++ ip end in
  byte_str "clientinitiv alpha=" ++ base64_encode alpha ++ byte_str " omega="
    ++ base64_encode omega ++ byte_str " ot=1 ip" ++ ip.

Definition OutC2SInit4_new `{Base64Enc} (version : Z) (x n : list Z) (level : Z)
    (random2 y alpha omega ip : list Z) : res PacketError OutPacket :=
  let? res := init_packet C2S in
  Ok (OutPacket_extend res (write_be 4 version ++ write_be 1 4 ++ x ++ n ++ write_be 4 level
      ++ random2 ++ y ++ clientinitiv alpha omega ip)).

Definition OutS2CInit1_new (random1 random0_r : list Z) : res PacketError OutPacket :=
  let? res := init_packet S2C in
  Ok (OutPacket_extend res (write_be 1 1 ++ random1 ++ random0_r)).

Definition OutS2CInit3_new (x n : list Z) (level : Z) (random2 : list Z) : res PacketError OutPacket :=
  let? res := init_packet S2C in
  Ok (OutPacket_extend res (write_be 1 3 ++ x ++ n ++ write_be 4 level ++ random2)).

End init.

(** * Specification of the messages *)

(** The array lengths and integer widths of the types. *)
Definition c2s_data_ok (d : C2SInitData) : Prop :=
  match d with
  | Init0 v t r => is_u32 v /\ is_u32 t /\ length r = 4%nat
  | Init2 v r1 r0 => is_u32 v /\ length r1 = 16%nat /\ length r0 = 4%nat
  | Init4 v x n l r2 y c =>
      is_u32 v /\ length x = 64%nat /\ length n = 64%nat /\ is_u32 l /\
      length r2 = 100%nat /\ length y = 64%nat
  end.

Definition s2c_data_ok (d : S2CInitData) : Prop :=
  match d with
  | Init1 r1 r0 => length r1 = 16%nat /\ length r0 = 4%nat
  | Init3 x n l r2 => length x = 64%nat /\ length n = 64%nat /\ is_u32 l /\ length r2 = 100%nat
  | Init127 => True
  end.

(** The packet a client builds for a message; the command of [Init4] is always a [clientinitiv]
    command, so it is given by its arguments. *)
Definition build_c2s `{BeIo, Base64Enc} (d : C2SInitData) (alpha omega ip : list Z)
    : res PacketError OutPacket :=
  match d with
  | Init0 v t r => OutC2SInit0_new v t r
  | Init2 v r1 r0 => OutC2SInit2_new v r1 r0
  | Init4 v x n l r2 y _ => OutC2SInit4_new v x n l r2 y alpha omega ip
  end.

(** What the server should read: [Init4] carries the [clientinitiv] command. *)
Definition sent_c2s `{Base64Enc} (d : C2SInitData) (alpha omega ip : list Z) : C2SInitData :=
  match d with
  | Init4 v x n l r2 y _ => Init4 v x n l r2 y (clientinitiv alpha omega ip)
  | d => d
  end.

Definition build_s2c `{BeIo} (d : S2CInitData) : res PacketError OutPacket :=
  match d with
  | Init1 r1 r0 => OutS2CInit1_new r1 r0
  | Init3 x n l r2 => OutS2CInit3_new x n l r2
  | Init127 => Panic
  end.

(** * Lemmas *)

Section lemmas.
Context `{BeIoLaws}.

Definition init_layout (dir : Direction) : Layout :=
  with_id (with_mac (fresh_layout dir Flags_empty Init) TS3INIT1) 0x65.

Lemma init_layout_ok dir : layout_ok dir (init_layout dir).
Proof.
  apply with_id_ok, with_mac_ok; auto with ts. by repeat constructor.
Qed.

Lemma init_packet_layout dir : init_packet dir = Ok (layout_packet dir (init_layout dir) []).
Proof.
  unfold init_packet. rewrite new_with_dir_layout by done. cbn [res_bind].
  rewrite set_mac_packet by auto with ts. cbn [res_bind].
  rewrite packet_id_packet; [done|]. by apply with_mac_ok; auto with ts; repeat constructor.
Qed.

Definition init_in_packet (dir : Direction) (content : list Z) : InPacket :=
  {| ip_header := layout_header dir (init_layout dir); ip_content := content |}.

Lemma init_extend dir content :
  OutPacket_extend (layout_packet dir (init_layout dir) []) content
    = layout_packet dir (init_layout dir) content.
Proof. unfold OutPacket_extend. cbn [op_data op_dir layout_packet]. by rewrite app_nil_r. Qed.

Lemma init_layout_type dir : layout_type (init_layout dir) = Some Init.
Proof. unfold init_layout. apply (fresh_layout_read dir Flags_empty Init is_flags_empty). Qed.

Lemma init_try_new dir content :
  InPacket_try_new dir (op_data (layout_packet dir (init_layout dir) content))
    = Ok (init_in_packet dir content).
Proof.
  cbn [op_data layout_packet]. rewrite try_new_layout by apply init_layout_ok.
  rewrite (proj2 (Z.ltb_ge _ _)); [done|]. apply (type_of_low _ Init), (init_layout_type dir).
Qed.

(** What remains of the parsers on an init packet. *)
Lemma init_header dir content :
  InHeader_packet_type (ip_header (init_in_packet dir content)) = Ok Init /\
  InHeader_mac (ip_header (init_in_packet dir content)) = Ok TS3INIT1.
Proof.
  unfold init_in_packet. cbn [ip_header].
  rewrite packet_type_layout, mac_layout, init_layout_type by apply init_layout_ok. done.
Qed.

(** The tests of a parser on an init packet of the right direction all pass. *)
Ltac open_init dir content :=
  destruct (init_header dir content) as [Ht Hm];
  cbn [ip_header ip_content init_in_packet ih_direction layout_header] in Ht, Hm |- *;
  rewrite (bool_decide_true (dir = dir)) by done; cbn [negb];
  rewrite Ht; cbn [res_bind]; rewrite (bool_decide_true (Init = Init)) by done; cbn [negb];
  rewrite Hm; cbn [res_bind]; rewrite (bool_decide_true (TS3INIT1 = TS3INIT1)) by done;
  cbn [negb].

Ltac lens := repeat rewrite ?length_app, ?write_be_length, ?length_replicate; cbn [length].

(** The parsed values are the slices of the content, whatever they hold. *)
Lemma parse_s2c d p :
  s2c_data_ok d -> build_s2c d = Ok p ->
  exists content, p = layout_packet S2C (init_layout S2C) content /\
    InPacket_into_s2cinit (init_in_packet S2C content) = Ok d /\
    content !! 0%nat = Some (S2CInitData_get_step d).
Proof.
  intros Hd Hp. destruct d as [r1 r0|x n l r2|]; simpl in Hd, Hp; [| |done].
  - unfold OutS2CInit1_new in Hp. rewrite init_packet_layout in Hp. cbn [res_bind] in Hp.
    rewrite init_extend in Hp. injection Hp as <-. destruct Hd as (H1 & H2).
    eexists. split; [done|]. rewrite write_be_u8 by done. split; [|done].
    unfold InPacket_into_s2cinit. open_init S2C ([1] ++ r1 ++ r0).
    rewrite bool_decide_false by done. slices lens. rewrite Z.eqb_refl.
    rewrite bool_decide_false by (lens; lia). slices lens. done.
  - unfold OutS2CInit3_new in Hp. rewrite init_packet_layout in Hp. cbn [res_bind] in Hp.
    rewrite init_extend in Hp. injection Hp as <-. destruct Hd as (H1 & H2 & H3 & H4).
    eexists. split; [done|]. rewrite write_be_u8 by done. split; [|done].
    unfold InPacket_into_s2cinit. open_init S2C ([3] ++ x ++ n ++ write_be 4 l ++ r2).
    rewrite bool_decide_false by done. slices lens. simpl (3 =? 1). rewrite Z.eqb_refl.
    rewrite bool_decide_false by (lens; lia). slices lens.
    rewrite read_be_write by done. slices lens. done.
Qed.

Lemma clientinitiv_length `{Base64Enc} alpha omega ip :
  (20 <= length (clientinitiv alpha omega ip))%nat.
Proof.
  unfold clientinitiv. rewrite !length_app.
  change (length (byte_str "clientinitiv alpha=")) with 19%nat.
  change (length (byte_str " omega=")) with 7%nat. lia.
Qed.

Lemma lookup_after_u32 v s l : (write_be 4 v ++ [s] ++ l) !! 4%nat = Some s.
Proof. apply list_lookup_middle. by rewrite write_be_length. Qed.

Lemma parse_c2s `{Base64Enc} d alpha omega ip p :
  c2s_data_ok d -> build_c2s d alpha omega ip = Ok p ->
  exists content, p = layout_packet C2S (init_layout C2S) content /\
    InPacket_into_c2sinit (init_in_packet C2S content) = Ok (sent_c2s d alpha omega ip) /\
    content !! 4%nat = Some (C2SInitData_get_step d).
Proof.
  intros Hd Hp.
  destruct d as [v t r|v r1 r0|v x n l r2 y c]; simpl in Hd, Hp;
    [unfold OutC2SInit0_new in Hp|unfold OutC2SInit2_new in Hp|unfold OutC2SInit4_new in Hp];
    rewrite init_packet_layout in Hp; cbn [res_bind] in Hp; rewrite init_extend in Hp;
    injection Hp as <-; rewrite write_be_u8 by done;
    (eexists; split; [done|]; split; [|apply lookup_after_u32]);
    unfold InPacket_into_c2sinit.
  - destruct Hd as (H1' & H2 & H3).
    open_init C2S (write_be 4 v ++ [0] ++ write_be 4 t ++ r ++ replicate 8 0).
    rewrite bool_decide_false by (lens; lia). slices lens. rewrite read_be_write by done.
    slices lens. rewrite Z.eqb_refl. rewrite bool_decide_false by (lens; lia). slices lens.
    rewrite read_be_write by done. slices lens. done.
  - destruct Hd as (H1' & H2 & H3).
    open_init C2S (write_be 4 v ++ [2] ++ r1 ++ r0).
    rewrite bool_decide_false by (lens; lia). slices lens. rewrite read_be_write by done.
    slices lens. simpl (2 =? 0). rewrite Z.eqb_refl. rewrite bool_decide_false by (lens; lia).
    slices lens. done.
  - destruct Hd as (H1' & H2 & H3 & H4 & H5 & H6).
    pose proof (clientinitiv_length alpha omega ip). set (cmd := clientinitiv alpha omega ip) in *.
    open_init C2S (write_be 4 v ++ [4] ++ x ++ n ++ write_be 4 l ++ r2 ++ y ++ cmd).
    rewrite bool_decide_false by (lens; lia). slices lens. rewrite read_be_write by done.
    slices lens. simpl (4 =? 0). simpl (4 =? 2). rewrite Z.eqb_refl.
    rewrite bool_decide_false by (lens; lia). slices lens.
    rewrite read_be_write by done. slices lens. done.
Qed.

Lemma build_c2s_ok `{Base64Enc} d alpha omega ip : exists p, build_c2s d alpha omega ip = Ok p.
Proof.
  destruct d; simpl; unfold OutC2SInit0_new, OutC2SInit2_new, OutC2SInit4_new;
    rewrite init_packet_layout; simpl; eauto.
Qed.

(** * Properties *)

(** Every init message the client builds is accepted by the server's [InPacket::try_new] and
    [into_c2sinit], which return exactly the fields it was built from; the step byte names the
    message, and the packet acknowledges the server's previous step. *)
Theorem c2s_init_roundtrip `{Base64Enc} (d : C2SInitData) (alpha omega ip : list Z)
    (Hd : c2s_data_ok d) :
  exists p q,
    build_c2s d alpha omega ip = Ok p /\ InPacket_try_new C2S (op_data p) = Ok q /\
    InPacket_into_c2sinit q = Ok (sent_c2s d alpha omega ip) /\
    OutUdpPacket_packet_id {| ou_generation_id := 0; ou_data := p |}
      = Ok (C2SInitData_get_step d) /\
    InPacket_ack_packet q = Ok (match d with Init0 _ _ _ => None | _ =>
      Some (C2SInitData_get_step d - 1) end).
Proof.
  destruct (build_c2s_ok d alpha omega ip) as [p Hp].
  destruct (parse_c2s d alpha omega ip p Hd Hp) as (content & -> & Hparse & Hstep).
  eexists _, _. split; [exact Hp|]. split; [apply init_try_new|]. split; [exact Hparse|].
  unfold OutUdpPacket_packet_id, OutUdpPacket_packet_type, InPacket_ack_packet.
  cbn [ou_data]. rewrite header_layout by apply init_layout_ok. cbn [res_bind].
  rewrite content_layout by apply init_layout_ok. cbn [ip_header ip_content init_in_packet].
  rewrite packet_type_layout, init_layout_type by apply init_layout_ok. cbn [unwrap res_bind].
  rewrite bool_decide_true by done. cbn [res_bind op_dir layout_packet].
  rewrite (index_ok _ _ _ Hstep), Hstep. split; [done|]. by destruct d.
Qed.

(** The server's init messages are read back by the client in the same way, the packet id
    under which the message is acknowledged is its step, and receiving it acknowledges the
    client's previous step. *)
Theorem s2c_init_roundtrip (d : S2CInitData) (Hd : s2c_data_ok d) (Hn : d <> Init127) :
  exists p q,
    build_s2c d = Ok p /\ InPacket_try_new S2C (op_data p) = Ok q /\
    InPacket_into_s2cinit q = Ok d /\
    OutUdpPacket_packet_id {| ou_generation_id := 0; ou_data := p |}
      = Ok (S2CInitData_get_step d) /\
    InPacket_ack_packet q = Ok (Some (S2CInitData_get_step d - 1)).
Proof.
  assert (exists p, build_s2c d = Ok p) as [p Hp].
  { destruct d; [| |done]; simpl; unfold OutS2CInit1_new, OutS2CInit3_new;
      rewrite init_packet_layout; simpl; eauto. }
  destruct (parse_s2c d p Hd Hp) as (content & -> & Hparse & Hstep).
  eexists _, _. split; [exact Hp|]. split; [apply init_try_new|]. split; [exact Hparse|].
  unfold OutUdpPacket_packet_id, OutUdpPacket_packet_type, InPacket_ack_packet.
  cbn [ou_data]. rewrite header_layout by apply init_layout_ok. cbn [res_bind].
  rewrite content_layout by apply init_layout_ok. cbn [ip_header ip_content init_in_packet].
  rewrite packet_type_layout, init_layout_type by apply init_layout_ok. cbn [unwrap res_bind].
  rewrite bool_decide_true by done. cbn [res_bind op_dir layout_packet].
  rewrite (index_ok _ _ _ Hstep). split; [done|].
  destruct content as [|b c]; [done|]. injection Hstep as ->. by destruct d.
Qed.

(** Headers of accepted packets have a type and a mac. *)
Lemma accepted_header dir data p : bytes data -> InPacket_try_new dir data = Ok p ->
  (exists t, InHeader_packet_type (ip_header p) = Ok t) /\
  (exists m, InHeader_mac (ip_header p) = Ok m).
Proof.
  intros Hb Hp.
  assert (header_len dir <= length data)%nat as Hlen.
  { unfold InPacket_try_new in Hp. case_bool_decide; [done|lia]. }
  destruct (layout_exists dir data Hb Hlen) as (L & content & HL & ->).
  rewrite try_new_layout in Hp by done.
  destruct (Z.ltb_spec 8 (Z.land (l_byte L) 0xf)); [done|]. injection Hp as <-. simpl.
  destruct (layout_accessors dir L HL ltac:(done)) as (Hm & _ & _ & _ & Ht).
  split; [done|]. destruct (InHeader_mac (layout_header dir L)) as [m| |]; try done. by exists m.
Qed.

(** Slices whose bounds the preceding length test guarantees. *)
Ltac safe_slices :=
  repeat (apply no_panic_bind;
    [ first
        [ rewrite slice_ok by lia; done
        | rewrite slice_from_ok by lia; done
        | match goal with |- context [index ?l ?i] =>
            destruct (index_lt (E := PacketError) l i ltac:(lia)) as (? & _ & ->); done end
        | match goal with |- context [read_be ?n ?l] => destruct (read_be n l); done end ]
    | let x := fresh "x" in intros x _ ]);
  try done.

(** Every slice of the two parsers is covered by a length test. *)
Lemma init_parsers_safe (dir : Direction) (data : list Z) (p : InPacket)
    (Hdata : bytes data) (Hp : InPacket_try_new dir data = Ok p) :
  no_panic (InPacket_into_s2cinit p) = true /\ no_panic (InPacket_into_c2sinit p) = true.
Proof.
  destruct (accepted_header dir data p Hdata Hp) as [[t Ht] [m Hm]].
  unfold InPacket_into_s2cinit, InPacket_into_c2sinit. rewrite Ht, Hm. cbn [res_bind].
  split.
  - destruct (bool_decide (ih_direction _ = _)); [|done].
    destruct (bool_decide (t = Init)); [|done].
    destruct (bool_decide (m = TS3INIT1)); [|done]. cbn [negb].
    case_bool_decide as Hc; [done|].
    assert (0 < length (ip_content p))%nat by (destruct (ip_content p); simpl; [done|lia]).
    safe_slices. destruct (x =? 1); [case_bool_decide; safe_slices|].
    destruct (x =? 3); [case_bool_decide; safe_slices|]. by destruct (x =? 127).
  - destruct (bool_decide (ih_direction _ = _)); [|done].
    destruct (bool_decide (t = Init)); [|done].
    destruct (bool_decide (m = TS3INIT1)); [|done]. cbn [negb].
    case_bool_decide as Hc; [done|].
    safe_slices. destruct (x1 =? 0); [case_bool_decide; safe_slices|].
    destruct (x1 =? 2); [case_bool_decide; safe_slices|].
    destruct (x1 =? 4); [case_bool_decide; safe_slices|]. safe_slices.
Qed.

(** Neither init parser panics on a packet that [InPacket::try_new] accepted, whatever it
    contains: every slice is covered by a length test. *)
Theorem init_parsers_no_panic (dir : Direction) (data : list Z) (p : InPacket)
    (Hdata : bytes data) (Hp : InPacket_try_new dir data = Ok p) :
  no_panic (InPacket_into_s2cinit p) = true /\ no_panic (InPacket_into_c2sinit p) = true.
Proof. by apply (init_parsers_safe dir data). Qed.

(** For an init packet with an unknown step, [into_c2sinit] reports the first byte of the
    content (the high byte of the version) as the step, while the step it rejected is the fifth
    byte. *)
Theorem c2sinit_wrong_step_report (p : InPacket) (b0 b1 b2 b3 step : Z) (rest : list Z)
    (Hdir : ih_direction (ip_header p) = C2S)
    (Ht : InHeader_packet_type (ip_header p) = Ok Init)
    (Hm : InHeader_mac (ip_header p) = Ok TS3INIT1)
    (Hc : ip_content p = b0 :: b1 :: b2 :: b3 :: step :: rest)
    (Hb : bytes (ip_content p))
    (Hstep : step <> 0 /\ step <> 2 /\ step <> 4) :
  InPacket_into_c2sinit p = Err (InvalidInitStep b0).
Proof.
  destruct Hstep as (H1 & H2 & H3). unfold InPacket_into_c2sinit.
  rewrite Hdir, Ht, Hm. cbn [res_bind]. rewrite !bool_decide_true by done. cbn [negb].
  rewrite bool_decide_false by (rewrite Hc; simpl; lia).
  rewrite slice_from_0 by done. cbn [res_bind].
  destruct (read_be_total 4 (ip_content p)) as (z & Hz & _); [done|rewrite Hc; simpl; lia|].
  rewrite Hz, Hc. cbn. apply Z.eqb_neq in H1, H2, H3. by rewrite H1, H2, H3.
Qed.
End lemmas.

(** * Witnesses *)

#[local] Instance no_base64 : Base64Enc := {| base64_encode l := l |}.

Lemma c2s_init_roundtrip_witness : exists p q,
  build_c2s (Init0 1500000000 5 [1; 2; 3; 4]) [] [] [] = Ok p /\
  InPacket_try_new C2S (op_data p) = Ok q /\
  InPacket_into_c2sinit q = Ok (Init0 1500000000 5 [1; 2; 3; 4]).
Proof.
  destruct (c2s_init_roundtrip (Init0 1500000000 5 [1; 2; 3; 4]) [] [] [])
    as (p & q & Hp & Hq & Hr & _).
  - repeat split; by vm_compute.
  - exists p, q. split; [exact Hp|]. split; [exact Hq|exact Hr].
Defined.

Lemma s2c_init_roundtrip_witness : exists p q,
  build_s2c (Init1 (replicate 16 7) [1; 2; 3; 4]) = Ok p /\
  InPacket_try_new S2C (op_data p) = Ok q /\
  InPacket_ack_packet q = Ok (Some 0).
Proof.
  destruct (s2c_init_roundtrip (Init1 (replicate 16 7) [1; 2; 3; 4]))
    as (p & q & Hp & Hq & _ & _ & Hr).
  - repeat split.
  - discriminate.
  - exists p, q. split; [exact Hp|]. split; [exact Hq|exact Hr].
Defined.

Lemma init_parsers_no_panic_witness : exists p,
  InPacket_try_new S2C (TS3INIT1 ++ [0; 0x65; 8; 3; 1]) = Ok p /\
  no_panic (InPacket_into_s2cinit p) = true.
Proof.
  eexists. split; [reflexivity|].
  apply (init_parsers_no_panic S2C (TS3INIT1 ++ [0; 0x65; 8; 3; 1])).
  - repeat constructor; by vm_compute.
  - reflexivity.
Defined.

Lemma c2sinit_wrong_step_report_witness :
  InPacket_into_c2sinit {| ip_header := {| ih_direction := C2S;
      ih_data := TS3INIT1 ++ [0; 0x65; 0; 0; 8] |}; ip_content := [0x59; 1; 2; 3; 7] |}
    = Err (InvalidInitStep 0x59).
Proof.
  eapply (c2sinit_wrong_step_report _ 0x59 1 2 3 7 []); try reflexivity.
  - repeat constructor; by vm_compute.
  - repeat split; discriminate.
Defined.
