(* ===== verification/Ip.v ===== *)
(** IP addresses: the approximation of [is_global] in [tsproto/src/utils.rs] and the text of an
    address ([Display] of the standard library), which the client sends to the server.  An address
    is the list of its 4 or 16 bytes. *)
From stdpp Require Import strings.
From S2P Require Import Prelude Text Packets InitPackets.
#[local] Open Scope Z_scope.

(** * Properties of addresses *)

Inductive IpAddr :=
  | V4 (a b c d : Z)
  | V6 (segments : list Z).

#[global] Instance IpAddr_eq_dec : EqDecision IpAddr.
Proof. solve_decision. Defined.

(** The eight 16-bit segments of 16 bytes. *)
Fixpoint segments_of (l : list Z) : list Z :=
  match l with
  | h :: k :: l => h * 256 + k :: segments_of l
  | _ => []
  end.

Definition ip_of_bytes (l : list Z) : IpAddr :=
  match l with
  | [a; b; c; d] => V4 a b c d
  | _ => V6 (segments_of l)
  end.

Definition is_unspecified (ip : IpAddr) : bool :=
  match ip with
  | V4 a b c d => (a =? 0) && (b =? 0) && (c =? 0) && (d =? 0)
  | V6 s => bool_decide (s = [0; 0; 0; 0; 0; 0; 0; 0])
  end.

Definition is_loopback (ip : IpAddr) : bool :=
  match ip with
  | V4 a _ _ _ => a =? 127
  | V6 s => bool_decide (s = [0; 0; 0; 0; 0; 0; 0; 1])
  end.

Definition is_multicast (ip : IpAddr) : bool :=
  match ip with
  | V4 a _ _ _ => (224 <=? a) && (a <=? 239)
  | V6 s => match s with h :: _ => Z.land h 0xff00 =? 0xff00 | [] => false end
  end.

Definition is_broadcast (a b c d : Z) : bool :=
  (a =? 255) && (b =? 255) && (c =? 255) && (d =? 255).

Definition is_link_local (a b c d : Z) : bool := (a =? 169) && (b =? 254).

Definition is_private (a b c d : Z) : bool :=
  (a =? 10) || ((a =? 172) && (16 <=? b) && (b <=? 31)) || ((a =? 192) && (b =? 168)).

Definition is_global_ip (ip : IpAddr) : bool :=
  if negb (is_unspecified ip) && negb (is_loopback ip) && negb (is_multicast ip) then
    match ip with
    | V4 a b c d => negb (is_broadcast a b c d) && negb (is_link_local a b c d) && negb (is_private a b c d)
    | V6 _ => true
    end
  else false.

(** * Text *)

Definition hex_digit (d : Z) : Z := if d <? 10 then 0x30 + d else 0x61 + (d - 10).

(** Without leading zeros, but with one digit. *)
Fixpoint strip_zeros (l : list Z) : list Z :=
  match l with
  | 0 :: (_ :: _) as r => strip_zeros r
  | _ => l
  end.

(** [{:x}] of a 16-bit integer. *)
Definition to_hex16 (z : Z) : list Z :=
  let ds := [z / 4096 mod 16; z / 256 mod 16; z / 16 mod 16; z mod 16] in
  map hex_digit (strip_zeros ds).

Definition colon : list Z := byte_str ":".

Fixpoint join (sep : list Z) (l : list (list Z)) : list Z :=
  match l with
  | [] => []
  | [x] => x
  | x :: l => x ++ sep ++ join sep l
  end.

(** The first of the longest runs of zero segments: start and length. *)
Fixpoint zero_runs (s : list Z) (i : nat) (cur longest : nat * nat) : nat * nat :=
  match s with
  | [] => longest
  | x :: s =>
      if x =? 0 then
        let cur := ((if bool_decide (cur.2 = 0%nat) then i else cur.1), S cur.2) in
        zero_runs s (S i) cur (if bool_decide (longest.2 < cur.2)%nat then cur else longest)
      else zero_runs s (S i) (0%nat, 0%nat) longest
  end.

Definition v4_text (a b c d : Z) : list Z := join (byte_str ".") (map to_dec [a; b; c; d]).

Definition ip_to_string (ip : IpAddr) : list Z :=
  match ip with
  | V4 a b c d => v4_text a b c d
  | V6 s =>
      match s with
      | [0; 0; 0; 0; 0; 0xffff; g; h] =>
          byte_str "::ffff:" ++ v4_text (g / 256) (g mod 256) (h / 256) (h mod 256)
      | _ =>
          let '(start, len) := zero_runs s 0 (0%nat, 0%nat) (0%nat, 0%nat) in
          if bool_decide (1 < len)%nat
          then join colon (map to_hex16 (take start s)) ++ byte_str "::"
               ++ join colon (map to_hex16 (drop (start + len) s))
          else join colon (map to_hex16 s)
      end
  end.

(** The text that [connect] sends: empty for an address that is not global. *)
Definition sent_ip (ip : IpAddr) : list Z := if is_global_ip ip then ip_to_string ip else [].

Example text_v4 : ip_to_string (ip_of_bytes [192; 168; 0; 21]) = byte_str "192.168.0.21".
Proof. vm_compute. reflexivity. Qed.

Example text_v6 : ip_to_string (V6 [0x2001; 0xdb8; 0; 0; 1; 0; 0; 0x10]) = byte_str "2001:db8::1:0:0:10".
Proof. vm_compute. reflexivity. Qed.

Example text_mapped : ip_to_string (V6 [0; 0; 0; 0; 0; 0xffff; 0x0102; 0x0304]) = byte_str "::ffff:1.2.3.4".
Proof. vm_compute. reflexivity. Qed.

Example text_loopback : ip_to_string (V6 [0; 0; 0; 0; 0; 0; 0; 1]) = byte_str "::1".
Proof. vm_compute. reflexivity. Qed.

(** * The characters of the text *)

Definition addr_char (c : Z) : Prop :=
  0x30 <= c <= 0x39 \/ 0x61 <= c <= 0x66 \/ c = 0x3a \/ c = 0x2e.

#[global] Instance addr_char_dec c : Decision (addr_char c).
Proof. unfold addr_char. apply _. Defined.

Lemma to_hex16_chars z : Forall addr_char (to_hex16 z).
Proof.
  unfold to_hex16.
  assert (Forall (fun d => 0 <= d < 16) [z / 4096 mod 16; z / 256 mod 16; z / 16 mod 16; z mod 16]) as Hd.
  { repeat constructor; apply Z.mod_pos_bound; lia. }
  assert (forall l, Forall (fun d => 0 <= d < 16) l -> Forall (fun d => 0 <= d < 16) (strip_zeros l)) as Hs.
  { induction l as [|d l IH]; intros Hl; [done|]. destruct d as [|p|p]; [|done..]. destruct l; [done|].
    apply IH. by inversion Hl. }
  apply Forall_map. eapply Forall_impl; [apply Hs, Hd|]. intros d Hr. simpl in Hr. unfold hex_digit, addr_char.
  destruct (Z.ltb_spec d 10); lia.
Qed.

Lemma join_chars sep l : Forall addr_char sep -> Forall (Forall addr_char) l -> Forall addr_char (join sep l).
Proof.
  intros Hs. induction 1 as [|x l Hx Hl IH]; [constructor|]. destruct l as [|y l]; [done|].
  cbn [join]. by repeat (apply Forall_app; split).
Qed.

Definition ip_ok (ip : IpAddr) : Prop :=
  match ip with
  | V4 a b c d => 0 <= a /\ 0 <= b /\ 0 <= c /\ 0 <= d
  | V6 s => Forall (Z.le 0) s
  end.

Lemma dec_chars z : 0 <= z -> Forall (fun c => 0x30 <= c <= 0x39) (to_dec z).
Proof. intros Hz. by destruct (to_dec_spec z Hz) as (_ & Hds & _). Qed.

Lemma v4_chars a b c d : ip_ok (V4 a b c d) -> Forall (fun x => 0x30 <= x <= 0x39 \/ x = 0x2e) (v4_text a b c d).
Proof.
  intros (Ha & Hb & Hc & Hd). unfold v4_text. cbn [map join].
  repeat (apply Forall_app; split); try (by repeat constructor; right);
    (eapply Forall_impl; [by apply dec_chars|]; simpl; lia).
Qed.

Lemma hex_texts_chars l : Forall addr_char (join colon (map to_hex16 l)).
Proof.
  apply join_chars; [by apply (bool_decide_unpack _)|]. apply Forall_map, Forall_true. apply to_hex16_chars.
Qed.

Lemma v4_text_chars a b c d : ip_ok (V4 a b c d) -> Forall addr_char (v4_text a b c d).
Proof. intros Hip. eapply Forall_impl; [by apply v4_chars|]. unfold addr_char. simpl. lia. Qed.

Lemma ip_text_chars ip : ip_ok ip -> Forall addr_char (ip_to_string ip).
Proof.
  intros Hip. destruct ip as [a b c d|s]; [by apply v4_text_chars|].
  assert (forall g h, s = [0; 0; 0; 0; 0; 0xffff; g; h] ->
    Forall addr_char (byte_str "::ffff:" ++ v4_text (g / 256) (g mod 256) (h / 256) (h mod 256))) as Hmapped.
  { intros g h ->. apply Forall_app. split; [by apply (bool_decide_unpack _)|]. apply v4_text_chars.
    do 6 apply Forall_cons_1 in Hip as [_ Hip]. apply Forall_cons_1 in Hip as [Hg Hip].
    apply Forall_cons_1 in Hip as [Hh _].
    pose proof (Z.mod_pos_bound g 256). pose proof (Z.mod_pos_bound h 256).
    repeat split; try (apply Z.div_pos; lia); lia. }
  assert (Forall addr_char (let '(start, len) := zero_runs s 0 (0%nat, 0%nat) (0%nat, 0%nat) in
    if bool_decide (1 < len)%nat
    then join colon (map to_hex16 (take start s)) ++ byte_str "::"
         ++ join colon (map to_hex16 (drop (start + len) s))
    else join colon (map to_hex16 s))) as Hplain.
  { destruct (zero_runs _ _ _ _) as [start len]. case_bool_decide; [|apply hex_texts_chars].
    repeat (apply Forall_app; split); try apply hex_texts_chars. by apply (bool_decide_unpack _). }
  cbn [ip_to_string]. repeat (case_match; subst; try exact Hplain; try (by eapply Hmapped)).
Qed.

Lemma ip_text_ascii ip : ip_ok ip -> ascii (ip_to_string ip).
Proof.
  intros Hip. eapply Forall_impl; [by apply ip_text_chars|]. unfold addr_char, is_uint.
  change (2 ^ 7) with 128. intros c Hc. lia.
Qed.
