(* ===== verification/CryptoLib.v ===== *)
(** The cryptographic libraries that [crypto.rs] builds on, as parameters with laws: base64,
    SHA-1, the ASN.1 blocks of [simple_asn1], the integers of [num_bigint] and the curve P-256.
    Concrete instances at the end show that the laws can hold; the witnesses use them. *)
From stdpp Require Import countable.
From S2P Require Import Prelude ByteIO Text Packets InitPackets.
#[local] Open Scope Z_scope.

(** * Base64 and SHA-1 *)

Class Base64Dec := { base64_decode : list Z -> option (list Z) }.

(** Four characters hold three bytes. *)
Class Base64Laws `{Base64Enc, Base64Dec} : Prop := {
  base64_roundtrip l : bytes l -> base64_decode (base64_encode l) = Some l;
  base64_ascii l : ascii (base64_encode l);
  base64_expands l : (4 * length l <= 3 * length (base64_encode l))%nat;
  base64_compact l : (length (base64_encode l) <= 2 * length l + 4)%nat;
  base64_shrinks s l : base64_decode s = Some l -> (4 * length l <= 3 * length s)%nat /\ bytes l;
}.

Class Sha1 := { sha1 : list Z -> list Z }.
Class Sha1Laws `{Sha1} : Prop := {
  sha1_length l : length (sha1 l) = 20%nat;
  sha1_bytes l : bytes (sha1 l);
}.

(** * ASN.1 *)

(** The blocks the code distinguishes, with their offset in the input; [OtherBlock] stands for
    the others. *)
Inductive ASN1Block :=
  | Sequence (offset : Z) (blocks : list ASN1Block)
  | BitString (offset : Z) (len : Z) (content : list Z)
  | Integer (offset : Z) (i : Z)
  | OtherBlock (tag : Z).

(** Encoding loses the offset. *)
Definition strip (b : ASN1Block) : ASN1Block :=
  match b with
  | BitString _ len c => BitString 0 len c
  | Integer _ i => Integer 0 i
  | b => b
  end.

Definition encodable (b : ASN1Block) : Prop :=
  match b with
  | BitString _ len c => Z.of_nat (length c) = (len + 7) / 8 /\ bytes c
  | Integer _ _ => True
  | _ => False
  end.

#[global] Instance encodable_dec b : Decision (encodable b).
Proof. destruct b; simpl; apply _. Defined.

Class Asn1 := {
  from_der : list Z -> option (list ASN1Block);
  to_der : ASN1Block -> option (list Z);
}.

(** A block has a tag, a length and, if it is no sequence, at least one byte. *)
Class Asn1Laws `{Asn1} : Prop := {
  der_roundtrip bs : Forall encodable bs -> exists d bs',
    to_der (Sequence 0 bs) = Some d /\ bytes d /\ (2 + 3 * length bs <= length d)%nat /\
    from_der d = Some [Sequence 0 bs'] /\ strip <$> bs' = strip <$> bs;
  der_bit_length d bs o seq o' len c :
    from_der d = Some bs -> Sequence o seq ∈ bs -> BitString o' len c ∈ seq ->
    len <= 8 * Z.of_nat (length c);
}.

(** * Big integers *)

Inductive Sign := Minus | NoSign | Plus.

Definition sign_of (z : Z) : Sign :=
  match z with
  | Z0 => NoSign
  | Zpos _ => Plus
  | Zneg _ => Minus
  end.

Class BigIntIo := {
  bi_to_bytes_be : Z -> Sign * list Z;
  bi_to_bytes_le : Z -> Sign * list Z;
  bi_from_bytes_be : Sign -> list Z -> Z;
}.

(** The magnitude is written without leading zeros. *)
Class BigIntLaws `{BigIntIo} : Prop := {
  bi_from_be l : bytes l -> bi_from_bytes_be Plus l = be_decode l 0;
  bi_to_be z : exists m, bi_to_bytes_be z = (sign_of z, m) /\ bytes m /\ be_decode m 0 = Z.abs z;
  bi_to_le z : bi_to_bytes_le z = (fst (bi_to_bytes_be z), reverse (snd (bi_to_bytes_be z)));
  bi_minimal z n : (0 < n)%nat -> Z.abs z < 2 ^ width n ->
    (length (snd (bi_to_bytes_be z)) <= n)%nat;
}.

(** * The curve *)

Class P256 := {
  PublicKey : Type;
  SecretKey : Type;
  Signature : Type;
  from_encoded_point : list Z -> list Z -> option PublicKey;
  affine_coordinates : PublicKey -> list Z * list Z;
  from_sec1_bytes : list Z -> option PublicKey;
  to_sec1_bytes : PublicKey -> list Z;
  secret_from_bytes : list Z -> option SecretKey;
  secret_to_bytes : SecretKey -> list Z;
  secret_public : SecretKey -> PublicKey;
  diffie_hellman : SecretKey -> PublicKey -> list Z;
  signature_from_der : list Z -> option Signature;
  signature_to_der : Signature -> list Z;
  ecdsa_sign : SecretKey -> list Z -> Signature;
  ecdsa_verify : PublicKey -> list Z -> Signature -> bool;
}.

(** The field has 32 bytes. *)
Definition field_size : nat := 32.

Definition field_bytes (l : list Z) : Prop := length l = field_size /\ bytes l.

Class P256Laws `{P256} : Prop := {
  point_roundtrip k :
    from_encoded_point (fst (affine_coordinates k)) (snd (affine_coordinates k)) = Some k;
  coordinates_bytes k : field_bytes (fst (affine_coordinates k)) /\
    field_bytes (snd (affine_coordinates k));
  sec1_roundtrip k : from_sec1_bytes (to_sec1_bytes k) = Some k;
  secret_roundtrip k : secret_from_bytes (secret_to_bytes k) = Some k;
  secret_bytes k : field_bytes (secret_to_bytes k);
  diffie_hellman_comm a b : diffie_hellman a (secret_public b) = diffie_hellman b (secret_public a);
  signature_roundtrip s : signature_from_der (signature_to_der s) = Some s;
  signature_bytes s : bytes (signature_to_der s) /\ (length (signature_to_der s) <= 72)%nat;
  signed_verifies k m : ecdsa_verify (secret_public k) m (ecdsa_sign k m) = true;
}.

(** * Integers and their bytes *)

Section integers.
Context `{BigIntLaws}.

Lemma be_decode_zeros n l : be_decode (replicate n 0 ++ l) 0 = be_decode l 0.
Proof. induction n as [|n IH]; [done|]. apply IH. Qed.

Lemma be_decode_inj a b :
  bytes a -> bytes b -> length a = length b -> be_decode a 0 = be_decode b 0 -> a = b.
Proof.
  intros Ha Hb Hl Heq. destruct (be_encode_decode a Ha) as [_ Hx].
  destruct (be_encode_decode b Hb) as [_ Hy]. congruence.
Qed.

(** The bytes of an integer that was read from [l] are the end of [l], behind zeros. *)
Lemma integer_bytes l : bytes l -> (0 < length l)%nat -> exists m,
  bi_to_bytes_be (bi_from_bytes_be Plus l) = (sign_of (be_decode l 0), m) /\
  (length m <= length l)%nat /\ replicate (length l - length m) 0 ++ m = l.
Proof.
  intros Hl Hpos. rewrite bi_from_be by done.
  destruct (be_encode_decode l Hl) as [Hu _].
  destruct (bi_to_be (be_decode l 0)) as (m & Hm & Hb & Hv). exists m.
  pose proof (bi_minimal (be_decode l 0) (length l) Hpos) as Hmin. rewrite Hm in Hmin. simpl in Hmin.
  assert (Hle : (length m <= length l)%nat) by (apply Hmin; unfold is_uint in Hu; lia).
  split_and!; [done|done|]. apply be_decode_inj; [|done| |].
  - apply Forall_app. split; [|done]. apply Forall_replicate. unfold is_uint. lia.
  - rewrite length_app, length_replicate. lia.
  - rewrite be_decode_zeros, Hv, Z.abs_eq; [done|]. apply Hu.
Qed.

Lemma sign_not_minus l : bytes l -> sign_of (be_decode l 0) <> Minus.
Proof. intros Hl. destruct (be_encode_decode l Hl) as [[Hu _] _]. by destruct (be_decode l 0). Qed.

(** A leading zero is lost, nothing else. *)
Lemma integer_bytes_length b l m :
  bytes (b :: l) -> (0 < length l)%nat ->
  snd (bi_to_bytes_be (bi_from_bytes_be Plus (b :: l))) = m ->
  (length m = length (b :: l) <-> b <> 0).
Proof.
  intros Hl Hpos Hm. destruct (integer_bytes (b :: l) Hl) as (m' & Hm' & Hle & Heq); [simpl; lia|].
  rewrite Hm' in Hm. simpl in Hm. subst m'. split.
  - intros Hlen ->. rewrite bi_from_be in Hm' by done.
    pose proof (bi_minimal (be_decode (0 :: l) 0) (length l) Hpos) as Hmin.
    rewrite Hm' in Hmin. simpl in Hmin, Hlen.
    apply Forall_cons_1 in Hl as [_ Hl]. destruct (be_encode_decode l Hl) as [Hu _].
    change (be_decode l (0 * 256 + 0)) with (be_decode l 0) in Hmin. unfold is_uint in Hu. lia.
  - intros Hb. destruct (decide (length m = length (b :: l))) as [|Hne]; [done|].
    replace (length (b :: l) - length m)%nat with (S (length (b :: l) - length m - 1)) in Heq by lia.
    simpl in Heq. congruence.
Qed.
End integers.

(** * Instances *)

(** Base64 as two characters from [A..P] for each byte. *)
Definition nibbles (b : Z) : list Z := [0x41 + b / 16 mod 16; 0x41 + b mod 16].

Fixpoint of_nibbles (s : list Z) : option (list Z) :=
  match s with
  | [] => Some []
  | h :: l :: s =>
      if bool_decide (0x41 <= h < 0x51 /\ 0x41 <= l < 0x51) then
        cons ((h - 0x41) * 16 + (l - 0x41)) <$> of_nibbles s
      else None
  | _ => None
  end.

#[global] Instance hex_encode : Base64Enc := {| base64_encode l := flat_map nibbles l |}.
#[global] Instance hex_decode : Base64Dec := {| base64_decode := of_nibbles |}.

Lemma nibble_range z : 0x41 <= 0x41 + z mod 16 < 0x51.
Proof. pose proof (Z.mod_pos_bound z 16). lia. Qed.

Lemma of_nibbles_cons b l : is_u8 b -> of_nibbles (nibbles b ++ l) = cons b <$> of_nibbles l.
Proof.
  intros [Hb1 Hb2]. unfold nibbles. cbn [app of_nibbles].
  rewrite bool_decide_true by (split; apply nibble_range). do 2 f_equal.
  rewrite (Z.mod_small (b / 16)).
  - pose proof (Z.div_mod b 16). lia.
  - split; [apply Z.div_pos; lia|]. apply Z.div_lt_upper_bound; lia.
Qed.

Lemma of_nibbles_shape n s l : (length s <= n)%nat -> of_nibbles s = Some l ->
  length s = (2 * length l)%nat /\ bytes l.
Proof.
  revert s l. induction n as [|n IH]; intros s l Hn Hs; destruct s as [|h [|k s]]; try done;
    cbn [of_nibbles] in Hs; simpl in Hn; try lia; try (injection Hs as <-; by split).
  case_bool_decide as Hb; [|done]. destruct (of_nibbles s) as [t|] eqn:Ht; [|done].
  injection Hs as <-. destruct (IH s t) as [Hl Hbs]; [lia|done|]. split; [simpl; lia|].
  constructor; [|done]. unfold is_uint. lia.
Qed.

#[global] Instance hex_laws : Base64Laws.
Proof.
  split; unfold base64_encode, base64_decode, hex_encode, hex_decode.
  - induction 1 as [|b l Hb _ IH]; [done|]. cbn [flat_map]. by rewrite of_nibbles_cons, IH.
  - intros l. apply Forall_flat_map, Forall_true. intros b. unfold nibbles, is_uint.
    pose proof (nibble_range (b / 16)). pose proof (nibble_range b). repeat constructor; lia.
  - intros l. induction l as [|b l IH]; [done|]. cbn [flat_map].
    rewrite length_app. cbn [nibbles length]. lia.
  - intros l. induction l as [|b l IH]; [simpl; lia|]. cbn [flat_map].
    rewrite length_app. cbn [nibbles length]. lia.
  - intros s l Hs. apply (of_nibbles_shape (length s)) in Hs as [Hl Hb]; [|done]. split; [lia|done].
Qed.

#[global] Instance sum_sha1 : Sha1 := {| sha1 l := foldr Z.add 0 l mod 256 :: replicate 19 7 |}.
#[global] Instance sum_sha1_laws : Sha1Laws.
Proof.
  split; intros l; [done|]. constructor; [apply (wrap_uint 8); lia|].
  apply Forall_replicate. by unfold is_uint.
Qed.

(** The integers. *)
Definition magnitude (z : Z) : list Z := be_encode (S (Z.to_nat (Z.log2 (Z.abs z) / 8))) (Z.abs z).

#[global] Instance minimal_bytes : BigIntIo := {|
  bi_to_bytes_be z := (sign_of z, magnitude z);
  bi_to_bytes_le z := (sign_of z, reverse (magnitude z));
  bi_from_bytes_be s l :=
    match s with Minus => - be_decode l 0 | NoSign => 0 | Plus => be_decode l 0 end;
|}.

Lemma magnitude_width z : is_uint (width (S (Z.to_nat (Z.log2 (Z.abs z) / 8)))) (Z.abs z).
Proof.
  split; [lia|]. unfold width. rewrite Nat2Z.inj_succ, Z2Nat.id by (apply Z.div_pos; [apply Z.log2_nonneg|lia]).
  destruct (Z.eq_dec z 0) as [->|]; [done|].
  eapply Z.lt_le_trans; [apply Z.log2_spec; lia|]. apply Z.pow_le_mono_r; [lia|].
  pose proof (Z.div_mod (Z.log2 (Z.abs z)) 8). pose proof (Z.mod_pos_bound (Z.log2 (Z.abs z)) 8). lia.
Qed.

#[global] Instance minimal_bytes_laws : BigIntLaws.
Proof.
  split; unfold bi_to_bytes_be, bi_to_bytes_le, bi_from_bytes_be, minimal_bytes.
  - done.
  - intros z. exists (magnitude z). split_and!; [done|apply be_encode_bytes|].
    apply be_decode_encode, magnitude_width.
  - done.
  - intros z n Hn Hz. cbn [snd]. unfold magnitude. rewrite be_encode_length.
    assert (Z.log2 (Z.abs z) / 8 < Z.of_nat n); [|lia].
    destruct (Z.eq_dec z 0) as [->|]; [change (Z.log2 (Z.abs 0) / 8) with 0; lia|].
    apply Z.div_lt_upper_bound; [lia|]. apply Z.log2_lt_pow2; [lia|]. by unfold width in Hz.
Qed.

(** Flat sequences as the bits of their number in an enumeration, behind a header of zeros. *)
Definition flat_block : Type := Z * list Z + Z.

Definition to_flat (b : ASN1Block) : option flat_block :=
  match b with
  | BitString _ len c => Some (inl (len, c))
  | Integer _ i => Some (inr i)
  | _ => None
  end.

Definition of_flat (f : flat_block) : ASN1Block :=
  match f with
  | inl (len, c) => BitString 0 len c
  | inr i => Integer 0 i
  end.

Fixpoint pos_bits (p : positive) : list Z :=
  match p with
  | xH => [1]
  | xO p => 2 :: pos_bits p
  | xI p => 3 :: pos_bits p
  end.

Fixpoint bits_pos (l : list Z) : option positive :=
  match l with
  | [1] => Some xH
  | 2 :: l => xO <$> bits_pos l
  | 3 :: l => xI <$> bits_pos l
  | _ => None
  end.

Fixpoint skip_header (l : list Z) : list Z :=
  match l with
  | 0 :: l => skip_header l
  | _ => l
  end.

#[global] Instance flat_asn1 : Asn1 := {|
  to_der b :=
    match b with
    | Sequence _ bs =>
        fs ← mapM to_flat bs;
        Some (replicate (2 + 3 * length bs) 0 ++ pos_bits (encode (fs : list flat_block)))
    | _ => None
    end;
  from_der d :=
    p ← bits_pos (skip_header d);
    fs ← decode (A := list flat_block) p;
    if bool_decide (Forall (fun f => encodable (of_flat f)) fs)
    then Some [Sequence 0 (of_flat <$> fs)] else None;
|}.

Lemma bits_pos_bits p : bits_pos (pos_bits p) = Some p.
Proof.
  induction p as [p IH|p IH|]; [..|done]; cbn [pos_bits bits_pos];
    rewrite IH; by destruct (pos_bits p).
Qed.

Lemma pos_bits_bytes p : bytes (pos_bits p).
Proof. induction p; simpl; constructor; try done; by unfold is_uint. Qed.

Lemma skip_header_bits n p : skip_header (replicate n 0 ++ pos_bits p) = pos_bits p.
Proof. induction n as [|n IH]; [by destruct p|done]. Qed.

Lemma to_flat_encodable bs : Forall encodable bs ->
  exists fs, mapM to_flat bs = Some fs /\ of_flat <$> fs = strip <$> bs /\
    Forall (fun f => encodable (of_flat f)) fs.
Proof.
  induction 1 as [|b bs Hb _ (fs & Hf & Hof & Hall)]; [by exists []|].
  destruct b as [o l|o len c|o i|t]; try done; simpl; rewrite Hf; simpl.
  - exists (inl (len, c) :: fs). split_and!; [done| |by constructor].
    rewrite fmap_cons. by f_equal.
  - exists (inr i :: fs). split_and!; [done| |by constructor]. rewrite fmap_cons. by f_equal.
Qed.

Lemma encodable_bits o len c : encodable (BitString o len c) -> len <= 8 * Z.of_nat (length c).
Proof.
  intros [-> _]. pose proof (Z.div_mod (len + 7) 8). pose proof (Z.mod_pos_bound (len + 7) 8). lia.
Qed.

#[global] Instance flat_asn1_laws : Asn1Laws.
Proof.
  split; unfold to_der, from_der, flat_asn1.
  - intros bs Hbs. destruct (to_flat_encodable bs Hbs) as (fs & -> & Hof & Hall).
    eexists _, (of_flat <$> fs). split_and!; [reflexivity|..].
    + apply Forall_app. split; [|apply pos_bits_bytes].
      apply Forall_replicate. by unfold is_uint.
    + rewrite length_app, length_replicate. lia.
    + rewrite skip_header_bits, bits_pos_bits. cbn [mbind option_bind].
      rewrite decode_encode. cbn [mbind option_bind]. by rewrite bool_decide_true.
    + rewrite Hof. rewrite <- list_fmap_compose. apply list_fmap_ext. by intros ? [] ?.
  - intros d bs o seq o' len c Hd Hseq Hbit.
    destruct (bits_pos (skip_header d)) as [p|]; [|done]. cbn [mbind option_bind] in Hd.
    destruct (decode p) as [fs|]; [|done]. cbn [mbind option_bind] in Hd.
    case_bool_decide as Hall; [|done]. injection Hd as <-.
    apply list_elem_of_singleton in Hseq. injection Hseq as -> ->.
    apply list_elem_of_fmap in Hbit as (f & Hf & Hin). apply (encodable_bits o').
    rewrite Hf. by eapply Forall_forall in Hall.
Qed.

(** A group with two elements. *)
Definition bit_bytes (b : bool) : list Z := if b then 1 :: replicate 31 0 else 0 :: replicate 31 1.
Definition byte_bit (l : list Z) : option bool :=
  match l with 1 :: _ => Some true | 0 :: _ => Some false | _ => None end.

#[global] Instance two_keys : P256 := {|
  PublicKey := bool;
  SecretKey := bool;
  Signature := bool;
  from_encoded_point x y := byte_bit x;
  affine_coordinates k := (bit_bytes k, bit_bytes k);
  from_sec1_bytes l := byte_bit l;
  to_sec1_bytes k := bit_bytes k;
  secret_from_bytes l := byte_bit l;
  secret_to_bytes k := bit_bytes k;
  secret_public k := k;
  diffie_hellman a b := bit_bytes (andb a b);
  signature_from_der l := byte_bit l;
  signature_to_der s := bit_bytes s;
  ecdsa_sign k m := k;
  ecdsa_verify k m s := bool_decide (s = k);
|}.

#[global] Instance two_keys_laws : P256Laws.
Proof.
  assert (Hb : forall b, field_bytes (bit_bytes b)).
  { intros []; split; try done; simpl; repeat constructor; done. }
  split.
  - by intros [].
  - intros k. split; apply Hb.
  - by intros [].
  - by intros [].
  - intros k. apply Hb.
  - by intros [] [].
  - by intros [].
  - intros s. destruct (Hb s) as [Hl Hs]. split; [done|]. unfold signature_to_der, two_keys, field_size in *. lia.
  - intros k m. by apply bool_decide_true.
Qed.
