(* ===== verification/AudioData.v ===== *)
(** Audio packets ([packets.rs]): [AudioData::parse], the accessors of [AudioData] and
    [OutAudio::new]. *)
From S2P Require Import Prelude ByteIO Packets.

(** * Data *)

Inductive CodecType :=
  | SpeexNarrowband | SpeexWideband | SpeexUltrawideband | CeltMono | OpusVoice | OpusMusic.

#[global] Instance CodecType_eq_dec : EqDecision CodecType.
Proof. solve_decision. Defined.

Definition CodecType_to_u8 (c : CodecType) : Z :=
  match c with
  | SpeexNarrowband => 0 | SpeexWideband => 1 | SpeexUltrawideband => 2
  | CeltMono => 3 | OpusVoice => 4 | OpusMusic => 5
  end.

Definition CodecType_from_u8 (n : Z) : option CodecType :=
  match n with
  | 0 => Some SpeexNarrowband | 1 => Some SpeexWideband | 2 => Some SpeexUltrawideband
  | 3 => Some CeltMono | 4 => Some OpusVoice | 5 => Some OpusMusic
  | _ => None
  end.

Inductive AudioData :=
  | AC2S (id : Z) (codec : CodecType) (data : list Z)
  | AC2SWhisper (id : Z) (codec : CodecType) (channels clients : list Z) (data : list Z)
  | AC2SWhisperNew (id : Z) (codec : CodecType) (whisper_type target target_id : Z)
      (data : list Z)
  | AS2C (id from : Z) (codec : CodecType) (data : list Z)
  | AS2CWhisper (id from : Z) (codec : CodecType) (data : list Z).

Definition AudioData_direction (a : AudioData) : Direction :=
  match a with
  | AC2S _ _ _ | AC2SWhisper _ _ _ _ _ | AC2SWhisperNew _ _ _ _ _ _ => C2S
  | AS2C _ _ _ _ | AS2CWhisper _ _ _ _ => S2C
  end.

Definition AudioData_packet_type (a : AudioData) : PacketType :=
  match a with
  | AC2S _ _ _ | AS2C _ _ _ _ => Voice
  | AC2SWhisper _ _ _ _ _ | AC2SWhisperNew _ _ _ _ _ _ | AS2CWhisper _ _ _ _ => VoiceWhisper
  end.

Definition AudioData_codec (a : AudioData) : CodecType :=
  match a with
  | AC2S _ c _ | AC2SWhisper _ c _ _ _ | AC2SWhisperNew _ c _ _ _ _
  | AS2C _ _ c _ | AS2CWhisper _ _ c _ => c
  end.

Definition AudioData_id (a : AudioData) : Z :=
  match a with
  | AC2S i _ _ | AC2SWhisper i _ _ _ _ | AC2SWhisperNew i _ _ _ _ _
  | AS2C i _ _ _ | AS2CWhisper i _ _ _ => i
  end.

Definition AudioData_flags (a : AudioData) : Z :=
  match a with
  | AC2SWhisperNew _ _ _ _ _ _ => NEWPROTOCOL
  | _ => Flags_empty
  end.

Definition AudioData_data (a : AudioData) : list Z :=
  match a with
  | AC2S _ _ d | AC2SWhisper _ _ _ _ d | AC2SWhisperNew _ _ _ _ _ d
  | AS2C _ _ _ d | AS2CWhisper _ _ _ d => d
  end.

Section audio.
Context `{BeIo}.

(** * Parser *)

(** [CodecType::from_u8(content[i]).ok_or_else(|| Error::InvalidCodec(content[4]))?] *)
Definition parse_codec (content : list Z) (i : nat) : res PacketError CodecType :=
  let? b := index content i in
  match CodecType_from_u8 b with
  | Some c => Ok c
  | None => let? b4 := index content 4 in Err (InvalidCodec b4)
  end.

(** [(&content[off..]).read_be()?] of an [n]-byte integer. *)
Definition read_at (n : nat) (content : list Z) (off : nat) : res PacketError Z :=
  let? s := slice_from content off in
  ok_or (read_be n s) Io.

Definition AudioData_parse (p_type : PacketType) (newprotocol : bool) (dir : Direction)
    (content : list Z) : res PacketError AudioData :=
  let too_short := Err (PacketContentTooShort (length content)) in
  let? id := read_at 2 content 0 in
  if bool_decide (p_type = Voice) then
    if bool_decide (dir = S2C) then
      if bool_decide (length content < 5)%nat then too_short else
      let? from := read_at 2 content 2 in
      let? codec := parse_codec content 4 in
      let? data := slice_from content 5 in
      Ok (AS2C id from codec data)
    else
      if bool_decide (length content < 3)%nat then too_short else
      let? codec := parse_codec content 2 in
      let? data := slice_from content 3 in
      Ok (AC2S id codec data)
  else if bool_decide (dir = S2C) then
    if bool_decide (length content < 5)%nat then too_short else
    let? from := read_at 2 content 2 in
    let? codec := parse_codec content 4 in
    let? data := slice_from content 5 in
    Ok (AS2CWhisper id from codec data)
  else
    if bool_decide (length content < 3)%nat then too_short else
    let? codec := parse_codec content 2 in
    if newprotocol then
      if bool_decide (length content < 14)%nat then too_short else
      let? whisper_type := index content 3 in
      let? target := index content 4 in
      let? target_id := read_at 8 content 5 in
      let? data := slice_from content 13 in
      Ok (AC2SWhisperNew id codec whisper_type target target_id data)
    else
      if bool_decide (length content < 5)%nat then too_short else
      let? b3 := index content 3 in
      let? b4 := index content 4 in
      let channel_count := Z.to_nat b3 in
      let client_count := Z.to_nat b4 in
      let channel_off := 5%nat in
      let client_off := (channel_off + channel_count * 8)%nat in
      let off := (client_off + client_count * 2)%nat in
      if bool_decide (length content < off)%nat then too_short else
      let? channels := res_mapM (fun i => read_at 8 content (channel_off + i * 8))
        (seq 0 channel_count) in
      let? clients := res_mapM (fun i => read_at 2 content (client_off + i * 2))
        (seq 0 client_count) in
      let? data := slice_from content off in
      Ok (AC2SWhisper id codec channels clients data).

Definition InPacket_into_audio (p : InPacket) : res PacketError AudioData :=
  let? p_type := InHeader_packet_type (ip_header p) in
  let? f := InHeader_flags (ip_header p) in
  let newprotocol := Flags_contains f NEWPROTOCOL in
  AudioData_parse p_type newprotocol (ih_direction (ip_header p)) (ip_content p).

(** * Builder *)

(** What [OutAudio::new] appends to the header. *)
Definition audio_content (a : AudioData) : list Z :=
  write_be 2 (AudioData_id a) ++
  match a with
  | AC2S _ codec data => write_be 1 (CodecType_to_u8 codec) ++ data
  | AC2SWhisper _ codec channels clients data =>
      write_be 1 (CodecType_to_u8 codec) ++
      write_be 1 (wrap 8 (Z.of_nat (length channels))) ++
      write_be 1 (wrap 8 (Z.of_nat (length clients))) ++
      mjoin (write_be 8 <$> channels) ++ mjoin (write_be 2 <$> clients) ++ data
  | AC2SWhisperNew _ codec whisper_type target target_id data =>
      write_be 1 (CodecType_to_u8 codec) ++ write_be 1 whisper_type ++ write_be 1 target ++
      write_be 8 target_id ++ data
  | AS2C _ from codec data | AS2CWhisper _ from codec data =>
      write_be 2 from ++ write_be 1 (CodecType_to_u8 codec) ++ data
  end.

Definition OutAudio_new (a : AudioData) : res PacketError OutPacket :=
  let? res := OutPacket_new_with_dir (AudioData_direction a) (AudioData_flags a)
    (AudioData_packet_type a) in
  Ok (OutPacket_extend res (audio_content a)).
End audio.

(** The integer widths of the fields, and the counts that fit into their byte. *)
Definition audio_ok (a : AudioData) : Prop :=
  is_u16 (AudioData_id a) /\
  match a with
  | AC2S _ _ _ => True
  | AC2SWhisper _ _ channels clients _ =>
      Forall is_u64 channels /\ Forall is_u16 clients /\
      (length channels < 256)%nat /\ (length clients < 256)%nat
  | AC2SWhisperNew _ _ wt t ti _ => is_u8 wt /\ is_u8 t /\ is_u64 ti
  | AS2C _ from _ _ | AS2CWhisper _ from _ _ => is_u16 from
  end.

(** The one message the parser does not accept: a new-protocol whisper without data. *)
Definition audio_rejected (a : AudioData) : bool :=
  match a with
  | AC2SWhisperNew _ _ _ _ _ [] => true
  | _ => false
  end.

(** * Lemmas *)

Section lemmas.
Context `{BeIoLaws}.

Lemma codec_from_to c : CodecType_from_u8 (CodecType_to_u8 c) = Some c.
Proof. by destruct c. Qed.

Lemma codec_u8 c : is_u8 (CodecType_to_u8 c).
Proof. by destruct c. Qed.

Lemma codec_from_some n : is_Some (CodecType_from_u8 n) <-> 0 <= n <= 5.
Proof.
  split.
  - intros [c Hc]. unfold CodecType_from_u8 in Hc. repeat case_match; done.
  - intros. assert (n = 0 \/ n = 1 \/ n = 2 \/ n = 3 \/ n = 4 \/ n = 5) as Hn by lia.
    repeat destruct Hn as [->|Hn]; subst; eauto.
Qed.

(** Reading back the list of integers that was written at an offset. *)
Lemma read_at_eq n content off :
  read_at n content off = (let? s := slice_from content off in ok_or (read_be n s) Io).
Proof. done. Qed.

Lemma read_at_app n pre z rest off :
  off = length pre -> is_uint (width n) z -> read_at n (pre ++ write_be n z ++ rest) off = Ok z.
Proof.
  intros -> Hz. unfold read_at. rewrite slice_from_skip by lia. rewrite slice_from_0 by lia.
  cbn [res_bind]. by rewrite read_be_write.
Qed.

Lemma read_list_from n (pre rest : list Z) (l : list Z) k :
  Forall (is_uint (width n)) l ->
  res_mapM (fun i => read_at n (pre ++ mjoin (write_be n <$> l) ++ rest)
    (length pre + (i - k) * n)) (seq k (length l)) = Ok l.
Proof.
  revert pre k. induction l as [|x l IH]; intros pre k Hl; [done|].
  apply Forall_cons_1 in Hl as [Hx Hl]. cbn [length seq res_mapM fmap list_fmap mjoin list_join].
  rewrite <- app_assoc, read_at_app by (done || lia). cbn [res_bind].
  rewrite (res_mapM_ext _ (fun i => read_at n ((pre ++ write_be n x) ++
    mjoin (write_be n <$> l) ++ rest) (length (pre ++ write_be n x) + (i - S k) * n))).
  - by rewrite IH.
  - intros i Hi%elem_of_seq. rewrite length_app, write_be_length, <- app_assoc.
    f_equal. replace (i - k)%nat with (S (i - S k)) by lia. lia.
Qed.

Lemma read_list n content pre l rest off :
  content = pre ++ mjoin (write_be n <$> l) ++ rest -> off = length pre ->
  Forall (is_uint (width n)) l ->
  res_mapM (fun i => read_at n content (off + i * n)) (seq 0 (length l)) = Ok l.
Proof.
  intros -> -> Hl. rewrite <- (read_list_from n pre rest l 0 Hl).
  apply res_mapM_ext. intros i _. by rewrite Nat.sub_0_r.
Qed.

Lemma length_write_list n l : length (mjoin (write_be n <$> l)) = (length l * n)%nat.
Proof.
  induction l as [|x l IH]; [done|].
  change (mjoin (write_be n <$> x :: l)) with (write_be n x ++ mjoin (write_be n <$> l)).
  rewrite length_app, IH, write_be_length. cbn [length]. lia.
Qed.

Ltac lens := repeat rewrite ?length_app, ?write_be_length, ?length_write_list; cbn [length].

(** One read of the parser after the other, on the content of a well-formed message. *)
Ltac reads :=
  repeat first
    [ rewrite bool_decide_false by (first [ done | lens; lia ])
    | rewrite bool_decide_true by (first [ done | lens; lia ])
    | progress slices lens
    | rewrite read_be_write by done
    | rewrite codec_from_to
    | rewrite read_at_eq
    | progress unfold parse_codec ].

Lemma parse_content a :
  audio_ok a ->
  AudioData_parse (AudioData_packet_type a) (Flags_contains (AudioData_flags a) NEWPROTOCOL)
    (AudioData_direction a) (audio_content a)
  = if audio_rejected a then Err (PacketContentTooShort 13) else Ok a.
Proof.
  intros [Hid Ha]. unfold AudioData_parse, audio_content.
  destruct a as [id c d|id c ch cl d|id c wt t ti d|id from c d|id from c d];
    cbn [AudioData_packet_type AudioData_flags AudioData_direction AudioData_id] in *;
    rewrite ?(write_be_u8 (CodecType_to_u8 c)) by apply codec_u8.
  - reads. done.
  - destruct Ha as (Hch & Hcl & Hnch & Hncl). unfold wrap.
    rewrite !Z.mod_small by lia. rewrite !write_be_u8 by (unfold is_uint; lia).
    change (Flags_contains Flags_empty NEWPROTOCOL) with false. cbv iota.
    reads.
    rewrite !Nat2Z.id.
    set (hd := write_be 2 id ++ [CodecType_to_u8 c] ++ [Z.of_nat (length ch)]
      ++ [Z.of_nat (length cl)]).
    assert (length hd = 5)%nat as Hhd by (unfold hd; by lens).
    rewrite (read_list 8 _ hd ch (mjoin (write_be 2 <$> cl) ++ d))
      by (done || unfold hd; by rewrite <- !app_assoc).
    cbn [res_bind].
    rewrite (read_list 2 _ (hd ++ mjoin (write_be 8 <$> ch)) cl d); [done| |lens; lia|done].
    unfold hd. by rewrite <- !app_assoc.
  - destruct Ha as (Hwt & Ht & Hti). rewrite !write_be_u8 by done.
    change (Flags_contains NEWPROTOCOL NEWPROTOCOL) with true. cbv iota.
    reads. destruct d as [|x d]; cbn [audio_rejected].
    + rewrite bool_decide_true by (lens; lia). do 2 f_equal. lens. done.
    + reads. done.
  - reads. done.
  - reads. done.
Qed.

(** * Properties *)

(** Every well-formed audio message is read back exactly by the receiver of the packet that
    [OutAudio::new] builds for it, for all five kinds and any number of whisper targets that fits
    into a byte; the only exception is a new-protocol whisper without data, which the parser
    rejects as one byte too short. *)
Theorem audio_roundtrip (a : AudioData) (Ha : audio_ok a) :
  exists p q,
    OutAudio_new a = Ok p /\ op_dir p = AudioData_direction a /\
    InPacket_try_new (op_dir p) (op_data p) = Ok q /\
    InPacket_into_audio q
      = (if audio_rejected a then Err (PacketContentTooShort 13) else Ok a).
Proof.
  assert (is_flags (AudioData_flags a)) as Hf by by destruct a.
  unfold OutAudio_new. rewrite new_with_dir_layout by done. cbn [res_bind].
  set (L := fresh_layout (AudioData_direction a) (AudioData_flags a) (AudioData_packet_type a)).
  assert (layout_ok (AudioData_direction a) L) as HL by by apply fresh_layout_ok.
  destruct (fresh_layout_read (AudioData_direction a) (AudioData_flags a)
    (AudioData_packet_type a) Hf) as [Hfl Hty]. fold L in Hfl, Hty.
  exists (layout_packet (AudioData_direction a) L (audio_content a)). eexists.
  split; [unfold OutPacket_extend; cbn [op_dir op_data layout_packet]; by rewrite app_nil_r|].
  split; [done|]. cbn [op_dir op_data layout_packet]. rewrite try_new_layout by done.
  rewrite (proj2 (Z.ltb_ge _ _)) by (by apply (type_of_low _ (AudioData_packet_type a))).
  split; [reflexivity|]. unfold InPacket_into_audio. cbn [ip_header ip_content].
  rewrite packet_type_layout, flags_layout, Hty, Hfl by done. cbn [unwrap res_bind].
  by apply parse_content.
Qed.

(** The codec byte and the byte that is reported in its place, in the parser's error path. *)
Definition unknown_codec (content : list Z) (i : nat) : bool :=
  match content !! i with
  | Some c => bool_decide (CodecType_from_u8 c = None)
  | None => false
  end.

Lemma parse_codec_no_panic content i :
  (i < length content)%nat ->
  no_panic (parse_codec content i)
  = negb (unknown_codec content i && bool_decide (length content <= 4)%nat).
Proof.
  intros Hi. unfold parse_codec, unknown_codec.
  destruct (index_lt (E := PacketError) content i Hi) as (c & -> & ->). cbn [res_bind].
  destruct (CodecType_from_u8 c) as [k|] eqn:Hk; [by rewrite bool_decide_false|].
  rewrite (bool_decide_true (None = None)) by done. case_bool_decide as H4.
  - unfold index. by rewrite lookup_ge_None_2 by lia.
  - by destruct (index_lt (E := PacketError) content 4) as (b & _ & ->); [lia|].
Qed.

Lemma read_at_no_panic n content off :
  (off <= length content)%nat -> no_panic (read_at n content off) = true.
Proof.
  intros. unfold read_at. rewrite slice_from_ok by done. cbn [res_bind].
  by destruct (read_be n (drop off content)).
Qed.

Lemma index_no_panic (content : list Z) i :
  (i < length content)%nat -> no_panic (index (E := PacketError) content i) = true.
Proof. intros Hi. by destruct (index_lt (E := PacketError) content i Hi) as (b & _ & ->). Qed.

Lemma slice_from_no_panic (content : list Z) i :
  (i <= length content)%nat -> no_panic (slice_from (E := PacketError) content i) = true.
Proof. intros Hi. by rewrite slice_from_ok. Qed.

(** The inputs for which the error path itself indexes out of range. *)
Definition bad_codec_report (dir : Direction) (content : list Z) : bool :=
  bool_decide (dir = C2S) && bool_decide (3 <= length content)%nat &&
  (unknown_codec content 2 && bool_decide (length content <= 4)%nat).

Ltac no_panics :=
  repeat first
    [ apply read_at_no_panic; lia | apply index_no_panic; lia
    | apply no_panic_bind; [|intros ? _]
    | apply slice_from_no_panic; lia
    | apply res_mapM_no_panic; intros ? ?%elem_of_seq; apply read_at_no_panic; lia
    | done ].

(** The two parsers of server packets. *)
Lemma server_parse_no_panic content (k : Z -> CodecType -> list Z -> res PacketError AudioData) :
  ~ (length content < 5)%nat -> (forall f c d, no_panic (k f c d) = true) ->
  no_panic (let? from := read_at 2 content 2 in
            let? codec := parse_codec content 4 in
            let? data := slice_from content 5 in k from codec data) = true.
Proof.
  intros Hl Hk. apply no_panic_bind; [apply read_at_no_panic; lia|]. intros f _.
  apply no_panic_bind.
  - rewrite parse_codec_no_panic by lia. rewrite bool_decide_false by lia. by rewrite andb_false_r.
  - intros c _. no_panics.
Qed.

(** When the parser panics. *)
Lemma parse_no_panic (t : PacketType) (np : bool) (dir : Direction) (content : list Z)
    (Hb : bytes content) :
  no_panic (AudioData_parse t np dir content) = negb (bad_codec_report dir content).
Proof.
  unfold AudioData_parse, bad_codec_report.
  destruct (decide (length content < 2)%nat) as [Hs|Hs].
  { unfold read_at at 1. rewrite slice_from_ok by lia. cbn [res_bind]. rewrite drop_0.
    rewrite read_be_short by done. rewrite (bool_decide_false (3 <= _)%nat) by lia.
    by rewrite andb_false_r. }
  assert (exists id, read_at 2 content 0 = Ok id) as [id ->].
  { unfold read_at. rewrite slice_from_ok by lia. cbn [res_bind]. rewrite drop_0.
    destruct (read_be_total 2 content) as (z & -> & _); [done|lia|]. by exists z. }
  cbn [res_bind]. destruct dir.
  { rewrite (bool_decide_false (S2C = C2S)) by done. rewrite !(bool_decide_true (S2C = S2C)) by done.
    destruct (bool_decide (t = Voice)); case_bool_decide; try done;
      by apply (server_parse_no_panic content). }
  rewrite (bool_decide_true (C2S = C2S)) by done. rewrite !(bool_decide_false (C2S = S2C)) by done.
  rewrite andb_true_l.
  destruct (decide (length content < 3)%nat) as [Hl|Hl].
  { rewrite (bool_decide_false (3 <= _)%nat) by lia.
    rewrite !(bool_decide_true (length content < 3)%nat) by lia. by destruct (bool_decide (t = Voice)). }
  rewrite (bool_decide_true (3 <= _)%nat) by lia.
  rewrite !(bool_decide_false (length content < 3)%nat) by lia.
  rewrite andb_true_l, <- parse_codec_no_panic by lia.
  destruct (bool_decide (t = Voice)).
  { apply no_panic_bind_eq. intros c _. no_panics. }
  apply no_panic_bind_eq. intros c _.
  destruct np; (case_bool_decide; [done|]); no_panics.
  case_bool_decide; no_panics.
Qed.

(** [AudioData::parse] of arbitrary bytes panics exactly for a client packet of three or four
    bytes whose codec byte is unknown: the error then reports byte 4, which does not exist.  In
    every other case, whatever the packet announces, all reads and slices stay in bounds. *)
Theorem audio_parse_panics (t : PacketType) (np : bool) (dir : Direction) (content : list Z)
    (Hb : bytes content) :
  no_panic (AudioData_parse t np dir content) = negb (bad_codec_report dir content).
Proof. by apply parse_no_panic. Qed.

End lemmas.

Lemma audio_roundtrip_witness : exists p q,
  OutAudio_new (AC2SWhisper 0x1234 OpusVoice [4; 5; 6] [7; 8] [1; 2; 3]) = Ok p /\
  InPacket_try_new (op_dir p) (op_data p) = Ok q /\
  InPacket_into_audio q = Ok (AC2SWhisper 0x1234 OpusVoice [4; 5; 6] [7; 8] [1; 2; 3]).
Proof.
  destruct (audio_roundtrip (AC2SWhisper 0x1234 OpusVoice [4; 5; 6] [7; 8] [1; 2; 3]))
    as (p & q & Hp & _ & Hq & Hr).
  - split; [by vm_compute|]. split; [repeat constructor; by vm_compute|].
    split; [repeat constructor; by vm_compute|]. split; apply Nat.ltb_lt; reflexivity.
  - exists p, q. split; [exact Hp|]. split; [exact Hq|exact Hr].
Defined.

Lemma audio_parse_panics_witness :
  AudioData_parse Voice false C2S [0; 1; 9] = Panic /\
  no_panic (AudioData_parse Voice false C2S [0; 1; 9; 4; 4]) = true.
Proof.
  split; [reflexivity|]. rewrite (audio_parse_panics Voice false C2S [0; 1; 9; 4; 4]).
  - reflexivity.
  - repeat constructor; by vm_compute.
Defined.
