(* ===== verification/Commands.v ===== *)
(** Commands ([commands.rs] and [OutCommand] of [packets.rs]): the command parser, its escape
    sequences and the command writer. *)
From S2P Require Import Prelude ByteIO Text Packets.

(** * Characters *)

Definition c_vt : Z := 0x0b.
Definition c_ff : Z := 0x0c.
Definition c_tab : Z := 0x09.
Definition c_cr : Z := 0x0d.
Definition c_nl : Z := 0x0a.
Definition c_space : Z := 0x20.
Definition c_slash : Z := 0x2f.
Definition c_eq : Z := 0x3d.
Definition c_backslash : Z := 0x5c.
Definition c_pipe : Z := 0x7c.

(** [cs.contains(&c)] *)
Definition char_in (c : Z) (cs : list Z) : bool := bool_decide (c ∈ cs).

(** [u8::is_ascii_alphanumeric] *)
Definition is_ascii_alphanumeric (c : Z) : bool :=
  bool_decide (0x30 <= c <= 0x39) || bool_decide (0x41 <= c <= 0x5a)
  || bool_decide (0x61 <= c <= 0x7a).

(** The three character sets the parser tests for. *)
Definition spaces : list Z := [c_vt; c_ff; c_tab; c_cr; c_nl; c_space].
Definition name_delims : list Z := [c_space; c_eq; c_pipe].
Definition value_delims : list Z := [c_vt; c_ff; c_tab; c_cr; c_nl; c_pipe; c_space].

(** * The parser *)

Record CommandParser := { cp_data : list Z; cp_index : nat }.

Record CommandArgumentValue := { cv_raw : list Z; cv_escapes : nat }.

Record CommandArgument := { ca_name : list Z; ca_value : CommandArgumentValue }.

Inductive CommandItem :=
  | Argument (a : CommandArgument)
  | NextCommand.

(** The loops run over the rest of the data; [i] is the index of its first byte. *)
Fixpoint command_name_end (rest : list Z) (i : nat) : nat :=
  match rest with
  | [] => i
  | c :: rest =>
      if negb (is_ascii_alphanumeric c) then
        if c =? c_space then i else 0%nat
      else command_name_end rest (S i)
  end.

Definition CommandParser_new (data : list Z) : res PacketError (list Z * CommandParser) :=
  let name_end := command_name_end data 0 in
  let? name := slice_to data name_end in
  Ok (name, {| cp_data := data; cp_index := name_end |}).

Fixpoint skip_space_loop (rest : list Z) (i : nat) : nat :=
  match rest with
  | [] => i
  | c :: rest => if char_in c spaces then skip_space_loop rest (S i) else i
  end.

Definition CommandParser_skip_space (p : CommandParser) : CommandParser :=
  {| cp_data := cp_data p;
     cp_index := skip_space_loop (drop (cp_index p) (cp_data p)) (cp_index p) |}.

Fixpoint name_loop (rest : list Z) (i : nat) : nat :=
  match rest with
  | [] => i
  | c :: rest => if negb (char_in c name_delims) then name_loop rest (S i) else i
  end.

(** The index after the value and its number of escape sequences. *)
Fixpoint value_loop (rest : list Z) (i escapes : nat) : nat * nat :=
  match rest with
  | [] => (i, escapes)
  | c :: rest =>
      if char_in c value_delims then (i, escapes)
      else if c =? c_backslash then
        let escapes := S escapes in
        match rest with
        | [] => (S i, escapes)
        | d :: rest =>
            if char_in d value_delims then (S i, escapes)
            else value_loop rest (S (S i)) escapes
        end
      else value_loop rest (S i) escapes
  end.

Definition CommandParser_at (p : CommandParser) (i : nat) : CommandParser :=
  {| cp_data := cp_data p; cp_index := i |}.

(** [Iterator::next]: the item and the parser after it. *)
Definition CommandParser_next (p : CommandParser)
    : res PacketError (option CommandItem * CommandParser) :=
  let p := CommandParser_skip_space p in
  let data := cp_data p in
  if bool_decide (length data <= cp_index p)%nat then Ok (None, p) else
  let? cur := index data (cp_index p) in
  if cur =? c_pipe then Ok (Some NextCommand, CommandParser_at p (S (cp_index p))) else
  let name_start := cp_index p in
  let name_end := name_loop (drop name_start data) name_start in
  let? has_value :=
    if bool_decide (length data <= name_end)%nat then Ok false else
    let? cur := index data name_end in
    Ok (cur =? c_eq) in
  let? name := slice data name_start name_end in
  if negb has_value then
    Ok (Some (Argument {| ca_name := name; ca_value := {| cv_raw := []; cv_escapes := 0 |} |}),
        CommandParser_at p name_end)
  else
    let value_start := S name_end in
    let '(value_end, escapes) := value_loop (drop value_start data) value_start 0 in
    let? raw := slice data value_start value_end in
    Ok (Some (Argument {| ca_name := name;
                          ca_value := {| cv_raw := raw; cv_escapes := escapes |} |}),
        CommandParser_at p value_end).

(** Running the iterator to its end; [None] when [fuel] items were not enough. *)
Fixpoint CommandParser_collect (fuel : nat) (p : CommandParser)
    : option (res PacketError (list CommandItem)) :=
  match fuel with
  | O => None
  | S fuel =>
      match CommandParser_next p with
      | Ok (None, _) => Some (Ok [])
      | Ok (Some item, p) =>
          match CommandParser_collect fuel p with
          | Some (Ok items) => Some (Ok (item :: items))
          | r => r
          end
      | Err e => Some (Err e)
      | Panic => Some Panic
      end
  end.

(** * Values *)

Definition unescape_char (c : Z) : Z :=
  if c =? 0x76 (* v *) then c_vt
  else if c =? 0x66 (* f *) then c_ff
  else if c =? 0x74 (* t *) then c_tab
  else if c =? 0x72 (* r *) then c_cr
  else if c =? 0x6e (* n *) then c_nl
  else if c =? 0x70 (* p *) then c_pipe
  else if c =? 0x73 (* s *) then c_space
  else c.

Fixpoint unescape_loop (raw : list Z) : list Z :=
  match raw with
  | [] => []
  | c :: raw =>
      if c =? c_backslash then
        match raw with
        | [] => []
        | d :: raw => unescape_char d :: unescape_loop raw
        end
      else c :: unescape_loop raw
  end.

(** A capacity below zero panics: the subtraction with overflow checks, [with_capacity] of the
    wrapped number without. *)
Definition CommandArgumentValue_unescape (v : CommandArgumentValue) : res PacketError (list Z) :=
  if bool_decide (cv_escapes v <= length (cv_raw v))%nat
  then Ok (unescape_loop (cv_raw v)) else Panic.

Definition CommandArgumentValue_get (v : CommandArgumentValue) : res PacketError (list Z) :=
  if bool_decide (cv_escapes v = 0%nat) then Ok (cv_raw v)
  else CommandArgumentValue_unescape v.

Definition CommandArgumentValue_get_str (v : CommandArgumentValue) : res PacketError (list Z) :=
  if bool_decide (cv_escapes v = 0%nat) then
    if utf8_valid (cv_raw v) then Ok (cv_raw v) else Err Utf8
  else
    let? s := CommandArgumentValue_unescape v in
    if utf8_valid s then Ok s else Err StringUtf8.

(** [get_parse] for an unsigned [w]-bit integer. *)
Definition CommandArgumentValue_get_parse (w : Z) (v : CommandArgumentValue)
    : res PacketError Z :=
  let? s := CommandArgumentValue_get_str v in
  ok_or (parse_uint w s) ParseInt.

(** * The writer *)

(** [EscapedWriter::write] for one byte. *)
Definition escape_char (c : Z) : list Z :=
  if c =? c_vt then [c_backslash; 0x76]
  else if c =? c_ff then [c_backslash; 0x66]
  else if c =? c_backslash then [c_backslash; c_backslash]
  else if c =? c_tab then [c_backslash; 0x74]
  else if c =? c_cr then [c_backslash; 0x72]
  else if c =? c_nl then [c_backslash; 0x6e]
  else if c =? c_pipe then [c_backslash; 0x70]
  else if c =? c_space then [c_backslash; 0x73]
  else if c =? c_slash then [c_backslash; c_slash]
  else [c].

Fixpoint escape (buf : list Z) : list Z :=
  match buf with
  | [] => []
  | c :: buf => escape_char c ++ escape buf
  end.

Definition OutCommand_new `{BeIo} (dir : Direction) (flags : Z) (p_type : PacketType)
    (name : list Z) : res PacketError OutPacket :=
  let? res := OutPacket_new_with_dir dir Flags_empty p_type in
  let? res := OutPacket_flags res flags in
  Ok (OutPacket_extend res name).

(** The space between two arguments. *)
Definition separate (p : OutPacket) : res PacketError OutPacket :=
  let? content := OutPacket_content p in
  if bool_decide (list.last content <> Some c_pipe) && bool_decide (content <> [])
  then Ok (OutPacket_extend p [c_space]) else Ok p.

Definition OutCommand_write_bin_arg (p : OutPacket) (name value : list Z)
    : res PacketError OutPacket :=
  let? p := separate p in
  let p := OutPacket_extend p name in
  if bool_decide (value <> [])
  then Ok (OutPacket_extend (OutPacket_extend p [c_eq]) (escape value)) else Ok p.

(** Formatting a value writes a sequence of chunks through the escaping writer. *)
Definition write_chunks (p : OutPacket) (chunks : list (list Z)) : OutPacket :=
  foldl (fun p chunk => OutPacket_extend p (escape chunk)) p chunks.

Definition OutCommand_write_arg (p : OutPacket) (name : list Z) (value : list (list Z))
    : res PacketError OutPacket :=
  let? p := separate p in
  let p := OutPacket_extend (OutPacket_extend p name) [c_eq] in
  let len := length (op_data p) in
  let p := write_chunks p value in
  if bool_decide (length (op_data p) = len)
  then Ok (OutPacket_with_data p (removelast (op_data p))) else Ok p.

Definition OutCommand_start_new_part (p : OutPacket) : OutPacket := OutPacket_extend p [c_pipe].

(** * The contents of a command *)

(** A command is a name and a sequence of named values and part separators. *)
Inductive item :=
  | Arg (name value : list Z)
  | NextPart.

Definition write_item (p : OutPacket) (i : item) : res PacketError OutPacket :=
  match i with
  | Arg name value => OutCommand_write_bin_arg p name value
  | NextPart => Ok (OutCommand_start_new_part p)
  end.

Fixpoint write_items (p : OutPacket) (l : list item) : res PacketError OutPacket :=
  match l with
  | [] => Ok p
  | i :: l => let? p := write_item p i in write_items p l
  end.

(** What a reader of the command gets for a parsed item. *)
Definition read_item (i : CommandItem) : res PacketError item :=
  match i with
  | Argument a =>
      let? v := CommandArgumentValue_get (ca_value a) in
      Ok (Arg (ca_name a) v)
  | NextCommand => Ok NextPart
  end.

(** Names have no white space and no character of the command syntax; an argument is not
    entirely empty. *)
Definition name_char (c : Z) : bool := negb (char_in c (c_eq :: value_delims)).

Definition item_ok (i : item) : Prop :=
  match i with
  | Arg name value => forallb name_char name = true /\ (name <> [] \/ value <> [])
  | NextPart => True
  end.

Definition command_ok (name : list Z) (l : list item) : Prop :=
  name <> [] /\ forallb is_ascii_alphanumeric name = true /\ Forall item_ok l /\
  head l <> Some NextPart.

(** * The loops *)

(** A sequence that ends where a loop with stop condition [f] stops. *)
Definition stops (f : Z -> bool) (l : list Z) : Prop :=
  match l with
  | [] => True
  | c :: _ => f c = true
  end.

Lemma command_name_end_app n r i :
  forallb is_ascii_alphanumeric n = true -> stops (fun c => c =? c_space) r ->
  command_name_end (n ++ r) i = (i + length n)%nat.
Proof.
  revert i. induction n as [|c n IH]; intros i Hn Hr.
  - destruct r as [|c r]; simpl; [lia|]. simpl in Hr. rewrite Hr. apply Z.eqb_eq in Hr as ->.
    change (is_ascii_alphanumeric c_space) with false. simpl. lia.
  - apply andb_prop in Hn as [Hc Hn]. simpl. rewrite Hc. simpl. rewrite IH by done. lia.
Qed.

Lemma skip_space_loop_spec rest i :
  exists w r, rest = w ++ r /\ skip_space_loop rest i = (i + length w)%nat /\
    stops (fun c => negb (char_in c spaces)) r.
Proof.
  revert i. induction rest as [|c rest IH]; intros i.
  - exists [], []. simpl. repeat split; lia.
  - simpl. destruct (char_in c spaces) eqn:Hc.
    + destruct (IH (S i)) as (w & r & -> & Hi & Hr). exists (c :: w), r. simpl. repeat split; [lia|done].
    + exists [], (c :: rest). simpl. rewrite Hc. repeat split; lia.
Qed.

Lemma skip_space_loop_stop r i :
  stops (fun c => negb (char_in c spaces)) r -> skip_space_loop r i = i.
Proof. destruct r as [|c r]; simpl; [done|]. by destruct (char_in c spaces). Qed.

Lemma name_loop_spec rest i :
  exists n r, rest = n ++ r /\ name_loop rest i = (i + length n)%nat /\
    stops (fun c => char_in c name_delims) r.
Proof.
  revert i. induction rest as [|c rest IH]; intros i.
  - exists [], []. simpl. repeat split; lia.
  - simpl. destruct (char_in c name_delims) eqn:Hc; simpl.
    + exists [], (c :: rest). simpl. rewrite Hc. repeat split; lia.
    + destruct (IH (S i)) as (n & r & -> & Hi & Hr). exists (c :: n), r. simpl. repeat split; [lia|done].
Qed.

Lemma name_loop_app n r i :
  forallb (fun c => negb (char_in c name_delims)) n = true ->
  stops (fun c => char_in c name_delims) r ->
  name_loop (n ++ r) i = (i + length n)%nat.
Proof.
  revert i. induction n as [|c n IH]; intros i Hn Hr.
  - destruct r as [|c r]; simpl; [lia|]. simpl in Hr. rewrite Hr. simpl. lia.
  - apply andb_prop in Hn as [Hc Hn]. simpl. rewrite Hc. rewrite IH by done. lia.
Qed.

(** The number of escape sequences is at most the number of bytes the loop passes. *)
Lemma value_loop_bound n rest i e :
  (length rest <= n)%nat ->
  let '(j, e') := value_loop rest i e in
  (i <= j)%nat /\ (j <= i + length rest)%nat /\ (e <= e')%nat /\ (e' - e <= j - i)%nat.
Proof.
  revert rest i e. induction n as [|n IH]; intros rest i e Hn.
  { destruct rest; simpl in *; lia. }
  destruct rest as [|c rest]; simpl in *; [lia|].
  destruct (char_in c value_delims); [lia|]. destruct (c =? c_backslash).
  - destruct rest as [|d rest]; simpl; [lia|]. destruct (char_in d value_delims); [lia|].
    pose proof (IH rest (S (S i)) (S e) ltac:(simpl in Hn; lia)) as IH'.
    destruct (value_loop rest (S (S i)) (S e)). lia.
  - pose proof (IH rest (S i) e ltac:(lia)) as IH'. destruct (value_loop rest (S i) e). lia.
Qed.

(** * Escaping *)

(** The characters the writer escapes. *)
Definition special (c : Z) : bool := char_in c (c_slash :: c_backslash :: value_delims).

Fixpoint specials (v : list Z) : nat :=
  match v with
  | [] => 0
  | c :: v => if special c then S (specials v) else specials v
  end.

(** Either the character is written as it is, or as a backslash and a plain character. *)
Lemma escape_char_cases c :
  (special c = false /\ escape_char c = [c] /\ char_in c value_delims = false /\
    (c =? c_backslash) = false) \/
  (special c = true /\ exists d, escape_char c = [c_backslash; d] /\
    char_in d value_delims = false /\ unescape_char d = c).
Proof.
  destruct (special c) eqn:Hc.
  - right. split; [done|]. unfold special, char_in in Hc. apply bool_decide_eq_true in Hc.
    unfold value_delims in Hc.
    repeat match type of Hc with _ ∈ _ :: _ =>
      rewrite elem_of_cons in Hc; destruct Hc as [->|Hc]; [eexists; repeat split; reflexivity|] end.
    by apply not_elem_of_nil in Hc.
  - left. unfold special, char_in in *. apply bool_decide_eq_false in Hc.
    unfold value_delims in Hc. rewrite !not_elem_of_cons in Hc.
    destruct Hc as (H1 & H2 & H3 & H4 & H5 & H6 & H7 & H8 & H9 & _).
    unfold escape_char.
    repeat match goal with |- context [c =? ?x] => rewrite (proj2 (Z.eqb_neq c x)) by done end.
    repeat split; try done. apply bool_decide_eq_false. unfold value_delims.
    rewrite !not_elem_of_cons. repeat split; try done. apply not_elem_of_nil.
Qed.

Lemma unescape_escape v : unescape_loop (escape v) = v.
Proof.
  induction v as [|c v IH]; [done|]. simpl.
  destruct (escape_char_cases c) as [(_ & -> & _ & Hb)|(_ & d & -> & _ & Hd)]; simpl.
  - by rewrite Hb, IH.
  - by rewrite Hd, IH.
Qed.

Lemma escape_no_specials v : specials v = 0%nat -> escape v = v.
Proof.
  induction v as [|c v IH]; [done|]. simpl.
  destruct (escape_char_cases c) as [(-> & -> & _)|(-> & _)]; [|done].
  intros Hv. by rewrite IH.
Qed.

Lemma escape_length v : length (escape v) = (length v + specials v)%nat.
Proof.
  induction v as [|c v IH]; [done|]. simpl. rewrite length_app, IH.
  destruct (escape_char_cases c) as [(-> & -> & _)|(-> & d & -> & _)]; simpl; lia.
Qed.

Lemma escape_app v w : escape (v ++ w) = escape v ++ escape w.
Proof. induction v as [|c v IH]; simpl; [done|]. by rewrite IH, app_assoc. Qed.

Lemma escape_nil v : escape v = [] -> v = [].
Proof. intros He. apply (f_equal length) in He. rewrite escape_length in He. destruct v; done. Qed.

(** The value loop passes an escaped value and counts its escape sequences. *)
Lemma value_loop_escape v r i e :
  stops (fun c => char_in c value_delims) r ->
  value_loop (escape v ++ r) i e = ((i + length (escape v))%nat, (e + specials v)%nat).
Proof.
  intros Hr. revert i e. induction v as [|c v IH]; intros i e.
  - destruct r as [|c r]; simpl; [f_equal; lia|]. simpl in Hr. rewrite Hr. f_equal; lia.
  - cbn [escape]. rewrite <- app_assoc.
    destruct (escape_char_cases c) as [(Hs & -> & Hv & Hb)|(Hs & d & -> & Hd & _)];
      cbn [specials]; rewrite Hs; cbn [app value_loop].
    + rewrite Hv, Hb, IH. cbn [length]. f_equal; lia.
    + change (char_in c_backslash value_delims) with false. rewrite Z.eqb_refl, Hd, IH.
      cbn [length]. f_equal; lia.
Qed.

Lemma escape_no_delims v : forallb (fun c => negb (char_in c value_delims)) (escape v) = true.
Proof.
  induction v as [|c v IH]; [done|]. simpl. rewrite forallb_app, IH.
  destruct (escape_char_cases c) as [(_ & -> & Hv & _)|(_ & d & -> & Hv & _)]; simpl; by rewrite Hv.
Qed.

(** Reading a value that was written. *)
Lemma get_escaped v :
  CommandArgumentValue_get {| cv_raw := escape v; cv_escapes := specials v |} = Ok v.
Proof.
  unfold CommandArgumentValue_get, CommandArgumentValue_unescape. simpl.
  case_bool_decide as Hs; [by rewrite escape_no_specials|].
  rewrite bool_decide_true by (rewrite escape_length; lia). by rewrite unescape_escape.
Qed.

(** * One step of the parser *)

Definition parser_at (pre rest : list Z) : CommandParser :=
  {| cp_data := pre ++ rest; cp_index := length pre |}.

Lemma parser_at_eq pre a rest i :
  i = length (pre ++ a) ->
  {| cp_data := pre ++ a ++ rest; cp_index := i |} = parser_at (pre ++ a) rest.
Proof. intros ->. unfold parser_at. by rewrite <- app_assoc. Qed.

Lemma skip_space_at pre w r :
  skip_space_loop (w ++ r) (length pre) = (length pre + length w)%nat ->
  CommandParser_skip_space (parser_at pre (w ++ r)) = parser_at (pre ++ w) r.
Proof.
  intros Hw. unfold CommandParser_skip_space. cbn [cp_data cp_index parser_at].
  rewrite drop_app_length, Hw. apply parser_at_eq. by rewrite length_app.
Qed.

(** The end of the data, and a part separator. *)
Lemma next_end pre w :
  skip_space_loop (w ++ []) (length pre) = (length pre + length w)%nat ->
  CommandParser_next (parser_at pre (w ++ [])) = Ok (None, parser_at (pre ++ w) []).
Proof.
  intros Hw. unfold CommandParser_next. rewrite skip_space_at by done.
  cbn [cp_data cp_index parser_at]. rewrite app_nil_r. by rewrite bool_decide_true by lia.
Qed.

Lemma index_at {E} (pre r : list Z) c : index (E := E) (pre ++ c :: r) (length pre) = Ok c.
Proof. apply index_ok. by apply list_lookup_middle. Qed.

Lemma next_pipe pre w r :
  skip_space_loop (w ++ c_pipe :: r) (length pre) = (length pre + length w)%nat ->
  CommandParser_next (parser_at pre (w ++ c_pipe :: r))
    = Ok (Some NextCommand, parser_at (pre ++ w ++ [c_pipe]) r).
Proof.
  intros Hw. unfold CommandParser_next. rewrite skip_space_at by done.
  cbn [cp_data cp_index parser_at].
  rewrite bool_decide_false by (rewrite (length_app (pre ++ w)); simpl; lia).
  rewrite index_at. cbn [res_bind]. rewrite Z.eqb_refl. do 2 f_equal.
  unfold CommandParser_at. cbn [cp_data parser_at]. change (c_pipe :: r) with ([c_pipe] ++ r).
  rewrite parser_at_eq; [by rewrite <- app_assoc|]. rewrite (length_app (pre ++ w)). simpl. lia.
Qed.

(** An argument without a value. *)
Lemma next_name pre w n r :
  skip_space_loop (w ++ n ++ r) (length pre) = (length pre + length w)%nat ->
  forallb (fun c => negb (char_in c name_delims)) n = true ->
  stops (fun c => char_in c name_delims) r ->
  n ++ r <> [] -> head (n ++ r) <> Some c_pipe -> head r <> Some c_eq ->
  CommandParser_next (parser_at pre (w ++ n ++ r))
    = Ok (Some (Argument {| ca_name := n; ca_value := {| cv_raw := []; cv_escapes := 0 |} |}),
          parser_at (pre ++ w ++ n) r).
Proof.
  intros Hw Hn Hr Hne Hp Hq. unfold CommandParser_next. rewrite skip_space_at by done.
  cbn [cp_data cp_index parser_at].
  assert (exists c l, n ++ r = c :: l /\ c <> c_pipe) as (c & l & Hcl & Hc).
  { destruct (n ++ r) as [|c l]; [done|]. exists c, l. split; [done|]. intros ->. by apply Hp. }
  rewrite bool_decide_false by (rewrite Hcl, (length_app (pre ++ w)); simpl; lia).
  rewrite Hcl, index_at. cbn [res_bind]. rewrite (proj2 (Z.eqb_neq _ _)) by done.
  rewrite <- Hcl, drop_app_length, name_loop_app by done.
  assert ((if bool_decide (length ((pre ++ w) ++ n ++ r) <= length (pre ++ w) + length n)%nat
    then Ok false else let? cur := index ((pre ++ w) ++ n ++ r) (length (pre ++ w) + length n) in
      Ok (cur =? c_eq)) = Ok (E := PacketError) false) as ->.
  { destruct r as [|d r].
    - rewrite bool_decide_true; [done|]. rewrite app_nil_r, (length_app (pre ++ w)). lia.
    - rewrite bool_decide_false by (rewrite !length_app; simpl; lia).
      rewrite app_assoc, <- (length_app (pre ++ w)), index_at. cbn [res_bind].
      rewrite (proj2 (Z.eqb_neq _ _)); [done|]. intros ->. by apply Hq. }
  cbn [res_bind]. rewrite slice_app_mid by done. cbn [res_bind negb]. do 2 f_equal.
  unfold CommandParser_at. cbn [cp_data parser_at].
  rewrite parser_at_eq by (by rewrite (length_app (pre ++ w))). by rewrite <- app_assoc.
Qed.

(** An argument with a value. *)
Lemma next_value pre w n v :
  skip_space_loop (w ++ n ++ c_eq :: v) (length pre) = (length pre + length w)%nat ->
  forallb (fun c => negb (char_in c name_delims)) n = true -> head (n ++ [c_eq]) <> Some c_pipe ->
  CommandParser_next (parser_at pre (w ++ n ++ c_eq :: v)) =
    let start := length (pre ++ w ++ n ++ [c_eq]) in
    let '(j, e) := value_loop v start 0 in
    let? raw := slice (pre ++ w ++ n ++ c_eq :: v) start j in
    Ok (Some (Argument {| ca_name := n; ca_value := {| cv_raw := raw; cv_escapes := e |} |}),
        {| cp_data := pre ++ w ++ n ++ c_eq :: v; cp_index := j |}).
Proof.
  intros Hw Hn Hp. unfold CommandParser_next. rewrite skip_space_at by done.
  cbn [cp_data cp_index parser_at].
  assert (exists c l, n ++ c_eq :: v = c :: l /\ c <> c_pipe) as (c & l & Hcl & Hc).
  { destruct n as [|c n]; simpl in *; [by exists c_eq, v|]. exists c, (n ++ c_eq :: v).
    split; [done|]. intros ->. by apply Hp. }
  rewrite bool_decide_false by (rewrite Hcl, (length_app (pre ++ w)); simpl; lia).
  rewrite Hcl, index_at. cbn [res_bind]. rewrite (proj2 (Z.eqb_neq _ _)) by done.
  rewrite <- Hcl, drop_app_length, name_loop_app by done.
  rewrite bool_decide_false by (rewrite !length_app; simpl; lia).
  assert (index ((pre ++ w) ++ n ++ c_eq :: v) (length (pre ++ w) + length n)
    = Ok (E := PacketError) c_eq) as ->.
  { by rewrite app_assoc, <- (length_app (pre ++ w)), index_at. }
  cbn [res_bind]. rewrite Z.eqb_refl, slice_app_mid by done. cbn [res_bind negb].
  replace (S (length (pre ++ w) + length n)) with (length (pre ++ w ++ n ++ [c_eq]))
    by (rewrite !length_app; simpl; lia).
  replace (drop (length (pre ++ w ++ n ++ [c_eq])) ((pre ++ w) ++ n ++ c_eq :: v)) with v.
  2: { replace ((pre ++ w) ++ n ++ c_eq :: v) with ((pre ++ w ++ n ++ [c_eq]) ++ v)
         by (by rewrite <- !app_assoc). by rewrite drop_app_length. }
  unfold CommandParser_at. cbn [cp_data parser_at]. by rewrite <- !app_assoc.
Qed.

(** * Any input *)

Definition parser_ok (p : CommandParser) : Prop := (cp_index p <= length (cp_data p))%nat.

(** Reading the item does not panic. *)
Definition item_readable (i : CommandItem) : Prop := no_panic (read_item i) = true.

Lemma parser_at_split p : parser_ok p ->
  p = parser_at (take (cp_index p) (cp_data p)) (drop (cp_index p) (cp_data p)).
Proof.
  destruct p as [d i]. unfold parser_ok. simpl. intros Hi. unfold parser_at.
  rewrite take_drop, length_take_le by done. done.
Qed.

(** Each step succeeds, stays in bounds and advances when it returns an item. *)
Lemma next_total p : parser_ok p ->
  exists o p', CommandParser_next p = Ok (o, p') /\ parser_ok p' /\ cp_data p' = cp_data p /\
    match o with
    | None => True
    | Some i => (cp_index p < cp_index p')%nat /\ item_readable i
    end.
Proof.
  intros Hp. rewrite (parser_at_split p Hp).
  set (pre := take _ _). set (rest := drop _ _). clearbody pre rest. clear p Hp.
  destruct (skip_space_loop_spec rest (length pre)) as (w & r & -> & Hw & Hr).
  destruct r as [|c r].
  { rewrite next_end by done. eexists _, _. split; [done|]. unfold parser_ok, parser_at. simpl.
    by rewrite !app_nil_r. }
  destruct (decide (c = c_pipe)) as [->|Hc].
  { rewrite next_pipe by done. eexists _, _. split; [done|].
    unfold parser_ok, parser_at, item_readable. simpl. rewrite !length_app. simpl.
    repeat split; [lia|by rewrite <- !app_assoc|lia]. }
  destruct (name_loop_spec (c :: r) 0) as (n & q & Hnq & Hn & Hq). rewrite Hnq in *.
  assert (forallb (fun c => negb (char_in c name_delims)) n = true) as Hnd.
  { clear -Hnq Hn Hq. revert n q Hnq Hn Hq. generalize (c :: r) as l, 0%nat as i.
    induction l as [|x l IH]; intros i [|y n] q Hnq Hn Hq; simplify_eq/=; try done.
    destruct (char_in y name_delims) eqn:Hy; simpl in *; [lia|].
    apply (IH (S i) n q); [done|lia|done]. }
  destruct (decide (head q = Some c_eq)) as [Hqe|Hqe].
  - destruct q as [|d v]; [done|]. injection Hqe as ->. rewrite next_value; [|done|done|].
    2: { destruct n as [|y n]; simpl in *; simplify_eq; [done|]. by intros [= ->]. }
    cbv zeta. pose proof (value_loop_bound (length v) v
      (length (pre ++ w ++ n ++ [c_eq])) 0 ltac:(lia)) as Hb.
    destruct (value_loop v _ 0) as [j e]. destruct Hb as (H1 & H2 & H3 & H4).
    rewrite !length_app in H1, H2, H4. simpl in *.
    rewrite slice_ok by (rewrite !length_app; simpl; lia). cbn [res_bind].
    eexists _, _. split; [done|]. unfold parser_ok, item_readable. simpl.
    rewrite !length_app. simpl. repeat split; [lia|lia|].
    unfold CommandArgumentValue_get, CommandArgumentValue_unescape. simpl.
    case_bool_decide; [done|]. rewrite bool_decide_true; [done|].
    rewrite length_take, length_drop, !length_app. simpl. lia.
  - rewrite next_name; [|done|done|done|by rewrite <- Hnq|rewrite <- Hnq; by intros [= ->]|done].
    eexists _, _. split; [done|]. unfold parser_ok, parser_at, item_readable. simpl.
    rewrite !length_app. split; [lia|]. split; [by rewrite <- !app_assoc|]. split; [|done].
    destruct n as [|y n]; simpl; [|lia]. exfalso. simpl in Hnq, Hr. subst q. simpl in Hq, Hqe.
    unfold char_in, name_delims, spaces in *. apply bool_decide_eq_true in Hq.
    apply negb_true_iff, bool_decide_eq_false in Hr.
    rewrite !elem_of_cons in Hq. rewrite !not_elem_of_cons in Hr.
    destruct Hq as [->|[->|[->|Hq]]]; [tauto|done|done|by apply not_elem_of_nil in Hq].
Qed.

Lemma collect_total fuel p :
  parser_ok p -> (length (cp_data p) - cp_index p < fuel)%nat ->
  exists items, CommandParser_collect fuel p = Some (Ok items) /\
    Forall item_readable items /\ (length items <= length (cp_data p) - cp_index p)%nat.
Proof.
  revert p. induction fuel as [|fuel IH]; intros p Hp Hf; [lia|].
  destruct (next_total p Hp) as (o & p' & Hn & Hp' & Hd & Ho). simpl. rewrite Hn.
  destruct o as [i|]; [|by exists []; repeat split; simpl; try lia; constructor].
  destruct Ho as [Hadv Hi].
  destruct (IH p' Hp') as (items & -> & Hr & Hl).
  { rewrite Hd. unfold parser_ok in *. rewrite Hd in Hp'. lia. }
  exists (i :: items). repeat split; [by constructor|]. simpl. rewrite Hd in Hl.
  unfold parser_ok in Hp'. rewrite Hd in Hp'. lia.
Qed.

Lemma command_name_end_le rest i : (command_name_end rest i <= i + length rest)%nat.
Proof.
  revert i. induction rest as [|c rest IH]; intros i; simpl; [lia|].
  destruct (is_ascii_alphanumeric c); simpl; [specialize (IH (S i)); lia|].
  destruct (c =? c_space); lia.
Qed.

(** The command parser is total: on any bytes, creating the parser succeeds, the iterator
    ends after at most as many items as there are bytes, no index is out of range, and every
    argument value can be read (the capacity computed from the number of escape sequences never
    underflows). *)
Theorem command_parser_total (data : list Z) :
  exists name p items,
    CommandParser_new data = Ok (name, p) /\
    CommandParser_collect (S (length data)) p = Some (Ok items) /\
    (length items <= length data)%nat /\
    Forall (fun i => no_panic (read_item i) = true) items.
Proof.
  unfold CommandParser_new. pose proof (command_name_end_le data 0) as Hle. simpl in Hle.
  rewrite slice_to_ok by done. cbn [res_bind].
  destruct (collect_total (S (length data)) {| cp_data := data; cp_index := command_name_end data 0 |})
    as (items & Hc & Hr & Hl); [done|simpl; lia|].
  simpl in Hl. eexists _, _, items. split; [done|]. split; [exact Hc|]. split; [lia|exact Hr].
Qed.

(** * Writing and parsing *)

(** The text of an argument, and of the items after a command name; [ap] tells whether the text
    before ends with a part separator. *)
Definition arg_text (name value : list Z) : list Z :=
  name ++ match value with [] => [] | _ => c_eq :: escape value end.

Fixpoint items_text (ap : bool) (l : list item) : list Z :=
  match l with
  | [] => []
  | Arg name value :: l =>
      (if ap then [] else [c_space]) ++ arg_text name value ++ items_text false l
  | NextPart :: l => c_pipe :: items_text true l
  end.

Lemma forallb_name n : forallb name_char n = true ->
  forallb (fun c => negb (char_in c name_delims)) n = true /\
  forallb (fun c => negb (char_in c spaces)) n = true /\ c_pipe ∉ n.
Proof.
  induction n as [|c n IH]; simpl; [intros; repeat split; apply not_elem_of_nil|].
  intros [Hc Hn]%andb_prop. destruct (IH Hn) as (-> & -> & Hp).
  unfold name_char, char_in in *. apply negb_true_iff, bool_decide_eq_false in Hc.
  unfold value_delims in Hc. rewrite !not_elem_of_cons in Hc. destruct_and! Hc.
  repeat split; rewrite ?andb_true_r; try apply negb_true_iff, bool_decide_eq_false;
    unfold name_delims, spaces; rewrite !not_elem_of_cons;
    repeat split; try done; try apply not_elem_of_nil.
Qed.

Lemma arg_text_no_pipe n v : forallb name_char n = true -> c_pipe ∉ arg_text n v.
Proof.
  intros Hn. unfold arg_text. rewrite not_elem_of_app. split; [by apply forallb_name|].
  destruct v as [|x v]; [apply not_elem_of_nil|]. rewrite not_elem_of_cons. split; [done|].
  intros Hin. pose proof (escape_no_delims (x :: v)) as Hd.
  rewrite forallb_forall in Hd. apply list_elem_of_In in Hin. by specialize (Hd _ Hin).
Qed.

Lemma arg_text_nonempty n v : n <> [] \/ v <> [] -> arg_text n v <> [].
Proof. unfold arg_text. intros [Hn|Hv]; [by destruct n|]. destruct n, v; done. Qed.

Lemma last_app_not (l k : list Z) c : k <> [] -> c ∉ k -> list.last (l ++ k) <> Some c.
Proof.
  intros Hk Hc Hl. rewrite last_app in Hl.
  destruct (list.last k) as [x|] eqn:Hx; [|by apply last_None in Hx].
  injection Hl as ->. apply Hc. by apply last_Some_elem_of.
Qed.

Section roundtrip.
Context `{BeIoLaws}.

Lemma separate_layout dir L content : layout_ok dir L ->
  separate (layout_packet dir L content)
  = Ok (layout_packet dir L (content ++
      if bool_decide (list.last content <> Some c_pipe) && bool_decide (content <> [])
      then [c_space] else [])).
Proof.
  intros HL. unfold separate. rewrite content_layout by done. cbn [res_bind].
  destruct (_ && _); [|by rewrite app_nil_r].
  unfold OutPacket_extend, layout_packet. simpl. by rewrite <- app_assoc.
Qed.

Lemma extend_layout dir L content l :
  OutPacket_extend (layout_packet dir L content) l = layout_packet dir L (content ++ l).
Proof. unfold OutPacket_extend, layout_packet. simpl. by rewrite <- app_assoc. Qed.

Lemma write_bin_arg_layout dir L content n v : layout_ok dir L -> content <> [] ->
  OutCommand_write_bin_arg (layout_packet dir L content) n v
  = Ok (layout_packet dir L (content ++
      (if bool_decide (list.last content = Some c_pipe) then [] else [c_space]) ++ arg_text n v)).
Proof.
  intros HL Hc. unfold OutCommand_write_bin_arg. rewrite separate_layout by done. cbn [res_bind].
  rewrite (bool_decide_true (content <> [])), andb_true_r by done.
  rewrite !bool_decide_not, !extend_layout. unfold arg_text.
  set (b := bool_decide (list.last content = Some c_pipe)).
  replace (if negb b then [c_space] else []) with (if b then [] else [c_space]) by by destruct b.
  destruct v as [|x v].
  - rewrite bool_decide_true by done. cbn [negb].
    by rewrite app_nil_r, <- app_assoc.
  - rewrite bool_decide_false by done. cbn [negb]. by rewrite <- !app_assoc.
Qed.

Lemma write_items_layout dir L content l : layout_ok dir L -> content <> [] -> Forall item_ok l ->
  write_items (layout_packet dir L content) l
  = Ok (layout_packet dir L
      (content ++ items_text (bool_decide (list.last content = Some c_pipe)) l)).
Proof.
  intros HL. revert content. induction l as [|i l IH]; intros content Hc Hl.
  { simpl. by rewrite app_nil_r. }
  apply Forall_cons_1 in Hl as [Hi Hl]. destruct i as [n v|]; simpl.
  - destruct Hi as [Hn Hnv]. rewrite write_bin_arg_layout by done. cbn [res_bind].
    rewrite IH; [|by destruct content|done].
    rewrite (bool_decide_false (list.last (content ++ _) = _)).
    + by rewrite <- !app_assoc.
    + rewrite app_assoc. apply last_app_not; [by apply arg_text_nonempty|by apply arg_text_no_pipe].
  - unfold OutCommand_start_new_part. rewrite extend_layout, IH; [|by destruct content|done].
    rewrite last_snoc, bool_decide_true by done. by rewrite <- app_assoc.
Qed.

End roundtrip.

(** The item the parser returns for an item that was written. *)
Definition parsed (i : item) : CommandItem :=
  match i with
  | Arg n v => Argument {| ca_name := n;
      ca_value := {| cv_raw := escape v; cv_escapes := specials v |} |}
  | NextPart => NextCommand
  end.

Lemma items_text_stops l :
  stops (fun c => char_in c value_delims) (items_text false l) /\
  stops (fun c => char_in c name_delims) (items_text false l) /\
  list.head (items_text false l) <> Some c_eq.
Proof. by destruct l as [|[n v|] l]. Qed.

Lemma skip_one (pre w r : list Z) :
  w = [] \/ w = [c_space] -> stops (fun c => negb (char_in c spaces)) r ->
  skip_space_loop (w ++ r) (length pre) = (length pre + length w)%nat.
Proof.
  intros [->| ->] Hr; simpl; [rewrite skip_space_loop_stop by done; lia|].
  change (char_in c_space spaces) with true. cbv iota.
  rewrite skip_space_loop_stop by done. lia.
Qed.

Lemma name_head n r : forallb name_char n = true -> n <> [] ->
  stops (fun c => negb (char_in c spaces)) (n ++ r) /\ list.head (n ++ r) <> Some c_pipe.
Proof.
  destruct n as [|c n]; [done|]. intros Hn _.
  destruct (forallb_name _ Hn) as (_ & Hs & Hp). simpl in *. apply andb_prop in Hs as [Hs _].
  split; [done|]. intros [= ->]. apply Hp. left.
Qed.

(** Parsing one argument. *)
Lemma next_written pre w n v l :
  w = [] \/ w = [c_space] -> item_ok (Arg n v) ->
  CommandParser_next (parser_at pre (w ++ arg_text n v ++ items_text false l))
  = Ok (Some (parsed (Arg n v)), parser_at (pre ++ w ++ arg_text n v) (items_text false l)).
Proof.
  intros Hw [Hn Hnv]. destruct (forallb_name n Hn) as (Hd & _ & _).
  destruct (items_text_stops l) as (Hs1 & Hs2 & Hs3).
  unfold arg_text. destruct v as [|x v].
  - destruct Hnv as [Hne|?]; [|done]. rewrite app_nil_r.
    destruct (name_head n (items_text false l) Hn Hne) as [Hst Hnp].
    rewrite next_name; [done|by apply skip_one|done|done| |done|done]. by destruct n.
  - set (v' := x :: v). rewrite <- app_assoc. cbn [app].
    assert (stops (fun c => negb (char_in c spaces)) (n ++ c_eq :: escape v' ++ items_text false l) /\
      list.head (n ++ [c_eq]) <> Some c_pipe) as [Hst Hnp].
    { destruct n as [|c n]; [done|]. split; apply name_head; done. }
    rewrite next_value by (done || by apply skip_one). cbv zeta.
    rewrite value_loop_escape by done.
    replace (pre ++ w ++ n ++ c_eq :: escape v' ++ items_text false l)
      with ((pre ++ w ++ n ++ [c_eq]) ++ escape v' ++ items_text false l)
      by (by rewrite <- !app_assoc).
    rewrite slice_app_mid by done. cbn [res_bind parsed]. do 3 f_equal.
    rewrite <- length_app.
    rewrite (parser_at_eq (pre ++ w ++ n ++ [c_eq])) by done. f_equal. by rewrite <- !app_assoc.
Qed.

Lemma collect_written fuel (pre : list Z) ap l :
  Forall item_ok l -> (length l < fuel)%nat ->
  CommandParser_collect fuel (parser_at pre (items_text ap l)) = Some (Ok (parsed <$> l)).
Proof.
  revert fuel pre ap. induction l as [|i l IH]; intros [|fuel] pre ap Hl Hf;
    try (simpl in Hf; lia).
  { cbn [items_text CommandParser_collect]. change (parser_at pre []) with (parser_at pre ([] ++ [])).
    rewrite next_end by (simpl; lia). done. }
  apply Forall_cons_1 in Hl as [Hi Hl]. simpl in Hf. destruct i as [n v|].
  - cbn [items_text CommandParser_collect].
    rewrite next_written by (done || destruct ap; tauto). rewrite IH by (done || lia). done.
  - cbn [items_text CommandParser_collect].
    change (parser_at pre (c_pipe :: items_text true l)) with (parser_at pre ([] ++ c_pipe :: items_text true l)).
    rewrite next_pipe by (simpl; lia). rewrite IH by (done || lia). done.
Qed.

Lemma read_parsed l : res_mapM read_item (parsed <$> l) = Ok l.
Proof.
  induction l as [|[n v|] l IH]; [done| |]; cbn [fmap list_fmap res_mapM parsed read_item ca_value].
  - rewrite get_escaped. cbn [res_bind ca_name]. change (list_fmap _ _ parsed l) with (parsed <$> l).
    by rewrite IH.
  - cbn [res_bind]. change (list_fmap _ _ parsed l) with (parsed <$> l). by rewrite IH.
Qed.

(** Every item has at least one character. *)
Lemma items_text_length ap l : Forall item_ok l -> (length l <= length (items_text ap l))%nat.
Proof.
  intros Hl. revert ap. induction Hl as [|i l Hi _ IH]; intros ap; [simpl; lia|].
  destruct i as [n v|]; cbn [items_text length].
  - specialize (IH false). rewrite !length_app. pose proof (arg_text_nonempty n v (proj2 Hi)).
    destruct (arg_text n v); [done|]. simpl. lia.
  - specialize (IH true). lia.
Qed.

(** * Properties *)

Section properties.
Context `{BeIoLaws}.

Lemma new_command_layout dir f t name : is_flags f ->
  OutCommand_new dir f t name
  = Ok (layout_packet dir (with_flags (fresh_layout dir Flags_empty t) f) name).
Proof.
  intros Hf. unfold OutCommand_new. rewrite new_with_dir_layout by done. cbn [res_bind].
  rewrite flags_packet by (by apply fresh_layout_ok). cbn [res_bind]. by rewrite extend_layout.
Qed.

Lemma parse_text name l :
  command_ok name l ->
  CommandParser_new (name ++ items_text false l)
  = Ok (name, parser_at name (items_text false l)).
Proof.
  intros (_ & Hn & _ & Hh). unfold CommandParser_new. rewrite command_name_end_app; [|done|].
  - rewrite Nat.add_0_l, slice_to_ok by (rewrite length_app; lia). cbn [res_bind].
    by rewrite take_app_length.
  - destruct l as [|[n v|] l]; done.
Qed.

(** What is on the wire, and what the parser makes of it. *)
Lemma command_wire (dir : Direction) (f : Z) (t : PacketType) (name : list Z) (l : list item) :
  is_flags f -> command_ok name l ->
  let content := name ++ items_text false l in
  exists p q,
    OutCommand_new dir f t name = Ok p /\ write_items p l = Ok q /\
    OutPacket_content q = Ok content /\
    CommandParser_new content = Ok (name, parser_at name (items_text false l)) /\
    CommandParser_collect (S (length content)) (parser_at name (items_text false l)) = Some (Ok (parsed <$> l)).
Proof.
  intros Hf Hc content. rewrite new_command_layout by done.
  set (L := with_flags (fresh_layout dir Flags_empty t) f).
  assert (layout_ok dir L) as HL by by apply with_flags_ok, Hf; apply fresh_layout_ok.
  pose proof Hc as (Hne & Hn & Hl & _).
  assert (list.last name <> Some c_pipe) as Hlast.
  { intros Hp. apply last_Some_elem_of, list_elem_of_In in Hp.
    rewrite forallb_forall in Hn. by specialize (Hn _ Hp). }
  pose proof (items_text_length false l Hl) as Hlen.
  eexists _, _. split; [done|]. split; [by apply write_items_layout|]. rewrite bool_decide_false by done.
  split; [by apply content_layout|]. split; [by apply parse_text|].
  apply collect_written; [done|]. unfold content. rewrite length_app. lia.
Qed.

(** Any command that is written with [OutCommand] - a name, arguments with arbitrary (binary)
    values, parts separated by pipes - is parsed back to exactly the same name and items: the
    parser's escaping, its separators and its optional values invert the writer's. *)
Theorem command_roundtrip (dir : Direction) (f : Z) (t : PacketType) (name : list Z)
    (l : list item) (Hf : is_flags f) (Hc : command_ok name l) :
  exists p q content ps items,
    OutCommand_new dir f t name = Ok p /\ write_items p l = Ok q /\
    OutPacket_content q = Ok content /\
    CommandParser_new content = Ok (name, ps) /\
    CommandParser_collect (S (length content)) ps = Some (Ok items) /\
    res_mapM read_item items = Ok l.
Proof.
  destruct (command_wire dir f t name l Hf Hc) as (p & q & Hp & Hq & Hcont & Hparse & Hcollect).
  eexists p, q, _, _, _. do 5 (split; [done|]). apply read_parsed.
Qed.

(** [write_chunks] only appends. *)
Lemma write_chunks_concat p chunks :
  write_chunks p chunks = OutPacket_extend p (escape (mjoin chunks)).
Proof.
  unfold write_chunks. revert p. induction chunks as [|c chunks IH]; intros p; simpl.
  - unfold OutPacket_extend. rewrite app_nil_r. by destruct p.
  - rewrite IH. unfold OutPacket_extend. simpl. rewrite escape_app. by rewrite <- app_assoc.
Qed.

(** Writing a formatted value with [write_arg], in whatever chunks the formatting produces,
    is the same as writing the formatted bytes with [write_bin_arg]; in particular an empty value
    leaves no equals sign behind. *)
Theorem write_arg_bin_arg (p : OutPacket) (name : list Z) (value : list (list Z)) :
  OutCommand_write_arg p name value = OutCommand_write_bin_arg p name (mjoin value).
Proof.
  unfold OutCommand_write_arg, OutCommand_write_bin_arg.
  destruct (separate p) as [q| |]; [|done..]. cbn [res_bind].
  rewrite write_chunks_concat. set (v := mjoin value). clearbody v. clear value.
  unfold OutPacket_extend, OutPacket_with_data. cbn [op_dir op_data].
  destruct v as [|x v].
  - cbn [escape]. rewrite app_nil_r. rewrite !bool_decide_true, (bool_decide_false (_ <> _)) by tauto.
    by rewrite removelast_last.
  - rewrite (bool_decide_true (x :: v <> [])) by done.
    rewrite bool_decide_false; [done|]. rewrite !length_app, escape_length. simpl. lia.
Qed.
End properties.

Lemma command_roundtrip_witness : exists p q content,
  OutCommand_new S2C Flags_empty Command [0x63] = Ok p /\
  write_items p [Arg [0x61] [c_space; c_pipe]; NextPart; Arg [0x62] []] = Ok q /\
  OutPacket_content q = Ok content /\
  content = [0x63; c_space; 0x61; c_eq; c_backslash; 0x73; c_backslash; 0x70; c_pipe; 0x62].
Proof.
  destruct (command_roundtrip S2C Flags_empty Command [0x63]
    [Arg [0x61] [c_space; c_pipe]; NextPart; Arg [0x62] []])
    as (p & q & content & ps & items & Hp & Hq & Hcont & _).
  - by vm_compute.
  - repeat split; try done. repeat constructor; try done; by right.
  - exists p, q, content. split; [exact Hp|]. split; [exact Hq|]. split; [exact Hcont|].
    vm_compute in Hp. injection Hp as <-. vm_compute in Hq. injection Hq as <-.
    vm_compute in Hcont. by injection Hcont as <-.
Defined.
