(* ===== verification/PacketId.v ===== *)
(** Packet ids ([tsproto/src/resend.rs]: [PartialPacketId] and its operators) and the receive
    window ([tsproto/src/connection.rs]: [Connection::in_receive_window]).  A packet id has 16
    bits on the wire; both sides extend it by a 32-bit generation. *)
From S2P Require Import Prelude Packets.

Record PartialPacketId := { generation_id : Z; packet_id : Z }.

#[global] Instance PartialPacketId_eq_dec : EqDecision PartialPacketId.
Proof. solve_decision. Defined.

Definition u16_MAX : Z := 65535.
Definition u32_MAX : Z := 4294967295.

Definition PartialPacketId_default : PartialPacketId := {| generation_id := 0; packet_id := 0 |}.

(** [Ord::cmp] *)
Definition PartialPacketId_cmp (a b : PartialPacketId) : comparison :=
  match generation_id a ?= generation_id b with
  | Eq => packet_id a ?= packet_id b
  | c => c
  end.

Definition PartialPacketId_lt (a b : PartialPacketId) : bool :=
  match PartialPacketId_cmp a b with Lt => true | _ => false end.

(** [Add<u16>] *)
Definition PartialPacketId_add (p : PartialPacketId) (rhs : Z) : PartialPacketId :=
  let '(id, next_gen) := overflowing 16 (packet_id p + rhs) in
  {| generation_id := if (next_gen : bool) then wrap 32 (generation_id p + 1) else generation_id p;
     packet_id := id |}.

(** [Sub<u16>] *)
Definition PartialPacketId_sub (p : PartialPacketId) (rhs : Z) : PartialPacketId :=
  let '(id, last_gen) := overflowing 16 (packet_id p - rhs) in
  {| generation_id := if (last_gen : bool) then wrap 32 (generation_id p - 1) else generation_id p;
     packet_id := id |}.

(** [Sub<PartialPacketId>]; the numbers fit into an [i64]. *)
Definition PartialPacketId_diff (p rhs : PartialPacketId) : Z :=
  let gen_diff := generation_id p - generation_id rhs in
  let id_diff := packet_id p - packet_id rhs in
  gen_diff * u16_MAX + id_diff.

(** [in_receive_window] for a packet type other than [Init], [cur] being the next expected id:
    whether the id is in the window, its generation, and the bounds of the window. *)
Definition receive_window `{Profile} {E} (cur : PartialPacketId) (p_id : Z)
    : res E (bool * Z * Z * Z) :=
  let cur_next := packet_id cur in
  let '(limit, next_gen) := overflowing 16 (cur_next + u16_MAX / 2) in
  let gen := generation_id cur in
  let in_recv_win :=
    (negb next_gen && (cur_next <=? p_id) && (p_id <? limit))
    || (next_gen && ((cur_next <=? p_id) || (p_id <? limit))) in
  let? gen_id :=
    if in_recv_win then
      if next_gen && (p_id <? limit) then arith 32 (gen + 1) else Ok gen
    else if p_id <? cur_next then Ok gen
    else arith 32 (gen - 1) in
  Ok (in_recv_win, gen_id, cur_next, limit).

(** * Specification: a packet id is a 48-bit number *)

Definition id_ok (p : PartialPacketId) : Prop := is_u32 (generation_id p) /\ is_u16 (packet_id p).

Definition id_val (p : PartialPacketId) : Z := generation_id p * 65536 + packet_id p.

Definition id_of (v : Z) : PartialPacketId :=
  {| generation_id := v / 65536; packet_id := v mod 65536 |}.

Lemma id_of_ok v : is_uint 48 v -> id_ok (id_of v).
Proof.
  unfold id_ok, is_uint. simpl. intros Hv. split; [|apply Z.mod_pos_bound; lia].
  split; [apply Z.div_pos; lia|]. apply Z.div_lt_upper_bound; lia.
Qed.

Lemma id_val_of v : id_val (id_of v) = v.
Proof. unfold id_val, id_of. simpl. pose proof (Z.div_mod v 65536). lia. Qed.

Lemma id_of_val p : is_u16 (packet_id p) -> id_of (id_val p) = p.
Proof.
  destruct p as [g i]. unfold id_of, id_val, is_uint. simpl. intros Hi. f_equal.
  - rewrite Z.div_add_l, Z.div_small; lia.
  - rewrite Z.add_comm, Z_mod_plus_full. by apply Z.mod_small.
Qed.

Lemma id_val_range p : id_ok p -> is_uint 48 (id_val p).
Proof. unfold id_ok, is_uint, id_val. simpl. lia. Qed.

Lemma id_val_inj p q : id_ok p -> id_ok q -> id_val p = id_val q -> p = q.
Proof. intros [_ Hp] [_ Hq] Hv. by rewrite <- (id_of_val p Hp), <- (id_of_val q Hq), Hv. Qed.

Lemma wrap16 z : -65536 <= z < 131072 ->
  overflowing 16 z = (if z <? 0 then z + 65536 else if z <? 65536 then z else z - 65536,
                      (z <? 0) || negb (z <? 65536)).
Proof.
  intros Hz. unfold overflowing, wrap. simpl (2 ^ 16).
  destruct (Z.ltb_spec z 0), (Z.ltb_spec z 65536); try lia; cbn [negb orb].
  - rewrite bool_decide_false by (unfold is_uint; lia). f_equal.
    symmetry. apply Z.mod_unique with (-1); lia.
  - rewrite bool_decide_true by (unfold is_uint; lia). by rewrite Z.mod_small by lia.
  - rewrite bool_decide_false by (unfold is_uint; lia). f_equal.
    symmetry. apply Z.mod_unique with 1; lia.
Qed.

Lemma wrap32_succ g : is_u32 g ->
  wrap 32 (g + 1) = if g + 1 =? 4294967296 then 0 else g + 1.
Proof.
  intros Hg. unfold wrap, is_uint in *. simpl in *. destruct (Z.eqb_spec (g + 1) 4294967296) as [->|?]; [done|].
  apply Z.mod_small. lia.
Qed.

Lemma wrap32_pred g : is_u32 g -> wrap 32 (g - 1) = if g =? 0 then 4294967295 else g - 1.
Proof.
  intros Hg. unfold wrap, is_uint in *. simpl in *. destruct (Z.eqb_spec g 0) as [->|?]; [done|].
  apply Z.mod_small. lia.
Qed.

Lemma add_ok p n : id_ok p -> is_u16 n ->
  id_ok (PartialPacketId_add p n) /\ id_val (PartialPacketId_add p n) = wrap 48 (id_val p + n).
Proof.
  destruct p as [g i]. unfold id_ok. cbn [generation_id packet_id]. intros [Hg Hi] Hn.
  unfold PartialPacketId_add, id_val. cbn [generation_id packet_id].
  rewrite wrap16 by (unfold is_uint in *; lia). rewrite wrap32_succ by done.
  unfold is_uint, wrap in *. simpl (2 ^ _) in *.
  destruct (Z.ltb_spec (i + n) 0); [lia|]. destruct (Z.ltb_spec (i + n) 65536);
    cbn [negb orb generation_id packet_id].
  - rewrite Z.mod_small by lia. lia.
  - destruct (Z.eqb_spec (g + 1) 4294967296).
    + split; [lia|]. apply Z.mod_unique with 1; lia.
    + rewrite Z.mod_small by lia. lia.
Qed.

Lemma sub_ok p n : id_ok p -> is_u16 n ->
  id_ok (PartialPacketId_sub p n) /\ id_val (PartialPacketId_sub p n) = wrap 48 (id_val p - n).
Proof.
  destruct p as [g i]. unfold id_ok. cbn [generation_id packet_id]. intros [Hg Hi] Hn.
  unfold PartialPacketId_sub, id_val. cbn [generation_id packet_id].
  rewrite wrap16 by (unfold is_uint in *; lia). rewrite wrap32_pred by done.
  unfold is_uint, wrap in *. simpl (2 ^ _) in *.
  destruct (Z.ltb_spec (i - n) 0); cbn [negb orb generation_id packet_id].
  - destruct (Z.eqb_spec g 0).
    + split; [lia|]. apply Z.mod_unique with (-1); lia.
    + rewrite Z.mod_small by lia. lia.
  - destruct (Z.ltb_spec (i - n) 65536); [|lia]. cbn [negb orb generation_id packet_id].
    rewrite Z.mod_small by lia. lia.
Qed.

Lemma cmp_val p q : id_ok p -> id_ok q ->
  PartialPacketId_cmp p q = (id_val p ?= id_val q).
Proof.
  unfold id_ok, is_uint, PartialPacketId_cmp, id_val. simpl. intros Hp Hq.
  destruct (Z.compare_spec (generation_id p) (generation_id q)) as [->|Hlt|Hgt].
  - destruct (Z.compare_spec (packet_id p) (packet_id q)); symmetry;
      [apply Z.compare_eq_iff|apply Z.compare_lt_iff|apply Z.compare_gt_iff]; lia.
  - symmetry. apply Z.compare_lt_iff. lia.
  - symmetry. apply Z.compare_gt_iff. lia.
Qed.

(** * Properties *)

(** Packet ids behave like 48-bit numbers: adding and subtracting a 16-bit number is
    addition and subtraction modulo 2^48 (with carry into the generation), subtracting undoes
    adding, and the order is the order of the numbers. *)
Theorem packet_id_arithmetic (p q : PartialPacketId) (n : Z)
    (Hp : id_ok p) (Hq : id_ok q) (Hn : is_u16 n) :
  id_val (PartialPacketId_add p n) = wrap 48 (id_val p + n) /\
  id_val (PartialPacketId_sub p n) = wrap 48 (id_val p - n) /\
  PartialPacketId_sub (PartialPacketId_add p n) n = p /\
  PartialPacketId_add (PartialPacketId_sub p n) n = p /\
  (PartialPacketId_lt p q = true <-> id_val p < id_val q).
Proof.
  destruct (add_ok p n Hp Hn) as [Ha Hav]. destruct (sub_ok p n Hp Hn) as [Hs Hsv].
  pose proof (id_val_range p Hp) as Hr.
  split; [done|]. split; [done|]. split.
  { apply id_val_inj; [by apply sub_ok|done|]. destruct (sub_ok _ n Ha Hn) as [_ ->].
    rewrite Hav. unfold wrap. rewrite Zminus_mod_idemp_l. rewrite Z.add_simpl_r. by apply wrap_small. }
  split.
  { apply id_val_inj; [by apply add_ok|done|]. destruct (add_ok _ n Hs Hn) as [_ ->].
    rewrite Hsv. unfold wrap. rewrite Zplus_mod_idemp_l. rewrite Z.sub_add. by apply wrap_small. }
  unfold PartialPacketId_lt. rewrite cmp_val by done.
  destruct (Z.compare_spec (id_val p) (id_val q)); split; try done; lia.
Qed.

(** The difference of two packet ids is their distance less the number of generations in
    between: it is the distance exactly when the generations are equal. *)
Theorem packet_id_diff (p q : PartialPacketId) :
  PartialPacketId_diff p q = id_val p - id_val q - (generation_id p - generation_id q) /\
  (PartialPacketId_diff p q = id_val p - id_val q <-> generation_id p = generation_id q).
Proof. unfold PartialPacketId_diff, id_val, u16_MAX. split; [ring|]. lia. Qed.

(** The part of the window computation that does not depend on the build profile: for the number
    [v] of the received packet relative to the expected number. *)
Lemma receive_window_cases `{Profile} {E} cur v :
  id_ok cur -> id_val cur - 32769 <= v < id_val cur + 32767 ->
  receive_window (E := E) cur (v mod 65536) =
    (let? g := (if v / 65536 =? generation_id cur then Ok (v / 65536)
                else arith 32 (v / 65536)) in
     Ok (bool_decide (id_val cur <= v), g, packet_id cur,
         wrap 16 (packet_id cur + 32767))).
Proof.
  destruct cur as [g i]. unfold id_ok, id_val, is_uint. simpl. intros [Hg Hi] Hv.
  change (2 ^ 16) with 65536 in *. change (2 ^ 32) with 4294967296 in *.
  unfold receive_window. cbn [packet_id generation_id]. change (u16_MAX / 2) with 32767.
  replace (wrap 16 (i + 32767)) with (fst (overflowing 16 (i + 32767))) by done.
  rewrite wrap16 by lia. cbn [fst].
  pose proof (Z.div_mod v 65536 ltac:(lia)). pose proof (Z.mod_pos_bound v 65536 ltac:(lia)).
  set (r := v mod 65536) in *. set (q := v / 65536) in *. clearbody r q.
  assert (q = g \/ q = g + 1 \/ q = g - 1) as Hq by lia.
  destruct (Z.ltb_spec (i + 32767) 0); [lia|].
  destruct (Z.ltb_spec (i + 32767) 65536); cbn [negb orb andb];
    destruct (Z.leb_spec i r); cbn [andb orb];
    match goal with |- context [r <? ?x] => destruct (Z.ltb_spec r x) end; cbn [andb orb];
    try destruct (Z.ltb_spec r i); try lia;
    destruct (Z.eqb_spec q g); try lia; cbn [res_bind];
    rewrite ?bool_decide_true, ?bool_decide_false by lia;
    try replace (g + 1) with q by lia; try replace (g - 1) with q by lia;
    try done; by subst.
Qed.

(** The receive window recovers the full number of a received packet from its 16-bit id:
    among the numbers from 32769 below to 32766 above the expected one (all ids fall on exactly
    one), it returns the generation of the right one, and says that it is in the window exactly
    when it is not below the expected number. *)
Theorem receive_window_recovers `{Profile} (cur : PartialPacketId) (v : Z)
    (Hcur : id_ok cur) (Hv : id_val cur - 32769 <= v < id_val cur + 32767)
    (Hrange : is_uint 48 v) :
  receive_window (E := PacketError) cur (packet_id (id_of v)) =
    Ok (bool_decide (id_val cur <= v), generation_id (id_of v), packet_id cur,
        wrap 16 (packet_id cur + 32767)).
Proof.
  cbn [packet_id generation_id id_of]. rewrite receive_window_cases by done.
  rewrite arith_ok by (apply (id_of_ok v Hrange)). by destruct (_ =? _).
Qed.

(** Before the first wrap of an id counter there is no generation to look back to: a packet
    whose id lies in the lower half-window of generation 0 but above the expected id panics with
    overflow checks, and gets the generation 2^32 - 1 without. *)
Theorem receive_window_underflow `{Profile} (cur : PartialPacketId) (p_id : Z)
    (Hcur : id_ok cur) (Hgen : generation_id cur = 0)
    (Hid : packet_id cur + 32767 <= p_id < 65536) :
  receive_window (E := PacketError) cur p_id =
    if overflow_checks then Panic
    else Ok (false, u32_MAX, packet_id cur, packet_id cur + 32767).
Proof.
  destruct Hcur as [_ [Hi _]]. rewrite <- (Z.mod_small p_id 65536) by lia.
  rewrite <- (Z_mod_plus_full p_id (-1) 65536).
  rewrite receive_window_cases; [| |unfold id_val; lia].
  2: { split; [by rewrite Hgen|]. unfold is_uint. simpl. lia. }
  replace ((p_id + -1 * 65536) / 65536) with (-1)
    by (apply Z.div_unique with p_id; lia).
  rewrite Hgen. cbn [Z.eqb]. unfold arith. rewrite bool_decide_false by (unfold is_uint; lia).
  rewrite bool_decide_false by (unfold id_val; lia).
  rewrite (wrap_small 16) by (unfold is_uint; change (2 ^ 16) with 65536; lia).
  by destruct overflow_checks.
Qed.

Lemma packet_id_arithmetic_witness :
  PartialPacketId_add {| generation_id := 4; packet_id := 65535 |} 2
    = {| generation_id := 5; packet_id := 1 |} /\
  PartialPacketId_sub (PartialPacketId_add {| generation_id := 4; packet_id := 65535 |} 2) 2
    = {| generation_id := 4; packet_id := 65535 |}.
Proof.
  split; [reflexivity|].
  apply (packet_id_arithmetic {| generation_id := 4; packet_id := 65535 |}
    PartialPacketId_default 2); repeat split; by vm_compute.
Defined.

Lemma receive_window_recovers_witness :
  receive_window (H := debug_profile) (E := PacketError)
    {| generation_id := 3; packet_id := 65530 |} 5 = Ok (true, 4, 65530, 32761).
Proof.
  apply (receive_window_recovers (H := debug_profile)
    {| generation_id := 3; packet_id := 65530 |} (4 * 65536 + 5)).
  - repeat split; by vm_compute.
  - by vm_compute.
  - by vm_compute.
Defined.

Lemma receive_window_underflow_witness :
  receive_window (H := debug_profile) (E := PacketError)
    {| generation_id := 0; packet_id := 2 |} 40000 = Panic /\
  receive_window (H := release_profile) (E := PacketError)
    {| generation_id := 0; packet_id := 2 |} 40000 = Ok (false, 4294967295, 2, 32769).
Proof.
  split.
  - apply (receive_window_underflow (H := debug_profile) {| generation_id := 0; packet_id := 2 |});
      [repeat split; by vm_compute|reflexivity|split; by vm_compute].
  - apply (receive_window_underflow (H := release_profile) {| generation_id := 0; packet_id := 2 |});
      [repeat split; by vm_compute|reflexivity|split; by vm_compute].
Defined.
