(* ===== verification/Algorithms.v ===== *)
(** Compression, splitting and encryption of packets ([tsproto/src/algorithms.rs]).  QuickLZ, EAX
    and SHA-256 are libraries: they are classes with their documented behaviour as laws. *)
From S2P Require Import Prelude ByteIO Packets InitPackets.
From stdpp Require Import strings.
#[local] Open Scope Z_scope.

(** * Errors of the crate ([tsproto/src/lib.rs]); payloads of library errors are dropped. *)
Inductive TsError :=
  | CreateAck (e : PacketError)
  | DecompressPacket
  | IdentityCrypto
  | InvalidHex
  | MaxLengthExceeded (what : string)
  | Network
  | NotInReceiveWindow (id next limit : Z) (p_type : PacketType)
  | PacketParse (what : string) (e : PacketError)
  | Timeout (what : string)
  | UnallowedUnencryptedPacket
  | UnexpectedInitPacket
  | WrongClientId (c : Z)
  | WrongAddress
  | WrongMac (p_type : PacketType) (generation_id packet_id : Z).

Definition MAX_FRAGMENTS_LENGTH : nat := Z.to_nat 40960.
Definition MAX_QUEUE_LEN : Z := 200.
Definition MAX_DECOMPRESSED_SIZE : Z := 2 * 1024 * 1024.
Definition FAKE_KEY : list Z := byte_str "c:\windows\syste".
Definition FAKE_NONCE : list Z := byte_str "m\firewall32.cpl".

(** The operations of packets only fail by panicking. *)
Definition packet_op {A} (m : res PacketError A) : res TsError A := map_err (PacketParse "") m.

(** * The libraries *)

Class Quicklz := {
  qlz_compress : list Z -> list Z;
  qlz_decompress : list Z -> Z -> option (list Z);
}.

Class QuicklzLaws `{Quicklz} : Prop := {
  qlz_compress_bytes d : bytes d -> bytes (qlz_compress d);
  qlz_roundtrip d max : bytes d -> Z.of_nat (length d) <= max ->
    qlz_decompress (qlz_compress d) max = Some d;
  qlz_decompress_bytes d max d' : bytes d -> qlz_decompress d max = Some d' -> bytes d';
}.

(** [Eax::<Aes128, U8>::encrypt_in_place_detached] and [decrypt_in_place_detached]: key, nonce,
    associated data, content (and mac). *)
Class EaxCipher := {
  eax_encrypt : list Z -> list Z -> list Z -> list Z -> option (list Z * list Z);
  eax_decrypt : list Z -> list Z -> list Z -> list Z -> list Z -> option (list Z);
}.

(** The library refuses contents and associated data of more than 2^36 bytes. *)
Definition encryptable (c : list Z) : Prop := Z.of_nat (length c) <= 2 ^ 36.

Class EaxLaws `{EaxCipher} : Prop := {
  eax_encrypt_some k n meta c : encryptable meta -> encryptable c -> is_Some (eax_encrypt k n meta c);
  eax_encrypt_shape k n meta c c' mac : bytes c -> eax_encrypt k n meta c = Some (c', mac) ->
    length c' = length c /\ bytes c' /\ length mac = 8%nat /\ bytes mac;
  eax_roundtrip k n meta c c' mac : eax_encrypt k n meta c = Some (c', mac) ->
    eax_decrypt k n meta c' mac = Some c;
  (* decryption is in place *)
  eax_decrypt_shape k n meta c mac c' : bytes c -> eax_decrypt k n meta c mac = Some c' ->
    length c' = length c /\ bytes c';
}.

Class Sha256 := { sha256 : list Z -> list Z }.
Class Sha256Laws `{Sha256} : Prop := { sha256_length l : length (sha256 l) = 32%nat }.

(** * Which packets are encrypted *)

Definition must_encrypt (t : PacketType) : bool :=
  match t with
  | Command | CommandLow => true
  | Voice | Ack | AckLow | VoiceWhisper | Ping | Pong | Init => false
  end.

Definition should_encrypt (t : PacketType) (voice_encryption : bool) : bool :=
  must_encrypt t || bool_decide (t = Ack) || bool_decide (t = AckLow)
  || (voice_encryption && PacketType_is_voice t).

(** * Keys *)

Record CachedKey := { ck_generation_id : Z; ck_key : list Z; ck_nonce : list Z }.

(** Per packet type: the cached keys of both directions. *)
Abbreviation KeyCache := (list (list CachedKey)).

Definition CachedKey_default : CachedKey :=
  {| ck_generation_id := 4294967295; ck_key := replicate 16 0; ck_nonce := replicate 16 0 |}.

Definition KeyCache_default : KeyCache := replicate 8 (replicate 2 CachedKey_default).

Definition dir_index (c_id : option Z) : nat := match c_id with Some _ => 1 | None => 0 end.

(** * Compression and splitting *)

Section algorithms.
Context `{BeIo, Quicklz, EaxCipher, Sha256}.

(** The [while data.len() > max_size] loop and the rest after it; [None] when out of fuel. *)
Fixpoint split_loop (fuel max_size : nat) (data : list Z) : option (list (list Z)) :=
  if bool_decide (length data <= max_size)%nat then Some [data]
  else
    match fuel with
    | O => None
    | S fuel =>
        match split_loop fuel max_size (drop max_size data) with
        | Some rest => Some (take max_size data :: rest)
        | None => None
        end
    end.

(** The last loop: the header and the flags of the [i]th of [len] parts. *)
Definition finish_part (dir : Direction) (orig_header : list Z) (header_size : nat)
    (compressed : bool) (len i : nat) (part : list Z) : res TsError OutPacket :=
  let d := replicate header_size 0 ++ part in
  let? d := if bool_decide (length orig_header = header_size)
            then packet_op (overwrite d 0 orig_header) else Panic in
  let packet := OutPacket_new_from_data dir d in
  let? packet :=
    if bool_decide (i = 0%nat) && compressed then
      let? h := packet_op (OutPacket_header packet) in
      let? f := packet_op (InHeader_flags h) in
      packet_op (OutPacket_flags packet (Flags_or f COMPRESSED))
    else Ok packet in
  let fragmented := bool_decide (1 < len)%nat in
  if fragmented && (bool_decide (i = 0%nat) || bool_decide (i = (len - 1)%nat)) then
    let? h := packet_op (OutPacket_header packet) in
    let? f := packet_op (InHeader_flags h) in
    packet_op (OutPacket_flags packet (Flags_or f FRAGMENTED))
  else Ok packet.

Fixpoint finish_parts (dir : Direction) (orig_header : list Z) (header_size : nat)
    (compressed : bool) (len i : nat) (parts : list (list Z)) : res TsError (list OutPacket) :=
  match parts with
  | [] => Ok []
  | part :: parts =>
      let? p := finish_part dir orig_header header_size compressed len i part in
      let? ps := finish_parts dir orig_header header_size compressed len (S i) parts in
      Ok (p :: ps)
  end.

Definition compress_and_split (is_client : bool) (packet : OutPacket)
    : res TsError (list OutPacket) :=
  let header_size := if is_client then C2S_HEADER_LEN else S2C_HEADER_LEN in
  let? data := packet_op (OutPacket_content packet) in
  let max_size := (500 - header_size)%nat in
  if bool_decide (length data <= max_size)%nat then Ok [packet] else
  let cdata := qlz_compress data in
  let '(compressed, data) :=
    if bool_decide (length data < length cdata)%nat then (false, data) else (true, cdata) in
  let? whisper :=
    if bool_decide (length data <= max_size)%nat then Ok true else
    let? h := packet_op (OutPacket_header packet) in
    let? t := packet_op (InHeader_packet_type h) in
    Ok (bool_decide (t = VoiceWhisper)) in
  let? parts :=
    if (whisper : bool) then Ok [data] else unwrap (split_loop (length data) max_size data) in
  let? orig_header := packet_op (OutPacket_header_bytes packet) in
  finish_parts (op_dir packet) orig_header header_size compressed (length parts) 0 parts.

(** The 70 bytes that are hashed. *)
Definition key_seed (p_type : PacketType) (c_id : option Z) (generation_id : Z) (iv : list Z)
    : res TsError (list Z) :=
  let temp := replicate 70 0 in
  let? temp := set_index temp 0 (match c_id with Some _ => 0x31 | None => 0x30 end) in
  let? temp := set_index temp 1 (PacketType_to_u8 p_type) in
  let? _ := slice temp 2 6 in
  let? temp := overwrite temp 2 (write_be 4 generation_id) in
  let? dest := slice_from temp 6 in
  if bool_decide (length dest = length iv) then overwrite temp 6 iv else Panic.

Definition create_key_nonce (p_type : PacketType) (c_id : option Z) (p_id generation_id : Z)
    (iv : list Z) (cache : KeyCache) : res TsError (list Z * list Z * KeyCache) :=
  let? row := index cache (Z.to_nat (PacketType_to_u8 p_type)) in
  let? entry := index row (dir_index c_id) in
  let? entry :=
    if negb (ck_generation_id entry =? generation_id) then
      let? temp := key_seed p_type c_id generation_id iv in
      let keynonce := sha256 temp in
      let? key := slice_to keynonce 16 in
      let? nonce := slice_from keynonce 16 in
      if bool_decide (length nonce = 16%nat) then
        Ok {| ck_generation_id := generation_id; ck_key := key; ck_nonce := nonce |}
      else Panic
    else Ok entry in
  let cache := <[Z.to_nat (PacketType_to_u8 p_type) := <[dir_index c_id := entry]> row]> cache in
  let? k0 := index (ck_key entry) 0 in
  let? k1 := index (ck_key entry) 1 in
  let key := <[0%nat := Z.lxor k0 (Z.shiftr p_id 8)]>
    (<[1%nat := Z.lxor k1 (Z.land p_id 0xff)]> (ck_key entry)) in
  Ok (key, ck_nonce entry, cache).

(** * Encryption *)

Definition encrypt_key_nonce (packet : OutPacket) (key nonce : list Z) : res TsError OutPacket :=
  let? h := packet_op (OutPacket_header packet) in
  let? meta := packet_op (InHeader_get_meta h) in
  let? content := packet_op (OutPacket_content packet) in
  match eax_encrypt key nonce meta content with
  | None => Err (MaxLengthExceeded "encryption data")
  | Some (content, mac) =>
      let? hd := packet_op (OutPacket_header_bytes packet) in
      packet_op (OutPacket_set_mac (OutPacket_with_data packet (hd ++ content)) mac)
  end.

Definition encrypt_fake (packet : OutPacket) : res TsError OutPacket :=
  encrypt_key_nonce packet FAKE_KEY FAKE_NONCE.

Definition encrypt (packet : OutPacket) (generation_id : Z) (iv : list Z) (cache : KeyCache)
    : res TsError (OutPacket * KeyCache) :=
  let? header := packet_op (OutPacket_header packet) in
  let? p_type := packet_op (InHeader_packet_type header) in
  let? c_id := packet_op (InHeader_client_id header) in
  let? p_id := packet_op (InHeader_packet_id header) in
  let? '(key, nonce, cache) := create_key_nonce p_type c_id p_id generation_id iv cache in
  let? packet := encrypt_key_nonce packet key nonce in
  Ok (packet, cache).

Definition decrypt_key_nonce (packet : InPacket) (key nonce : list Z) : res TsError (list Z) :=
  let header := ip_header packet in
  let? meta := packet_op (InHeader_get_meta header) in
  let? mac := packet_op (InHeader_mac header) in
  match eax_decrypt key nonce meta (ip_content packet) mac with
  | Some content => Ok content
  | None =>
      let? p_type := packet_op (InHeader_packet_type header) in
      let? p_id := packet_op (InHeader_packet_id header) in
      Err (WrongMac p_type 0 p_id)
  end.

Definition decrypt_fake (packet : InPacket) : res TsError (list Z) :=
  decrypt_key_nonce packet FAKE_KEY FAKE_NONCE.

(** The cache is updated even when the mac is wrong. *)
Definition decrypt (packet : InPacket) (generation_id : Z) (iv : list Z) (cache : KeyCache)
    : res TsError (res TsError (list Z) * KeyCache) :=
  let header := ip_header packet in
  let? p_type := packet_op (InHeader_packet_type header) in
  let? c_id := packet_op (InHeader_client_id header) in
  let? p_id := packet_op (InHeader_packet_id header) in
  let? '(key, nonce, cache) := create_key_nonce p_type c_id p_id generation_id iv cache in
  let r := decrypt_key_nonce packet key nonce in
  match r with
  | Err (WrongMac p_type _ p_id) => Ok (Err (WrongMac p_type generation_id p_id), cache)
  | Panic => Panic
  | r => Ok (r, cache)
  end.

End algorithms.

(** * Splitting *)

Lemma split_loop_spec fuel max data :
  (0 < max)%nat -> (length data <= fuel)%nat ->
  exists chunks, split_loop fuel max data = Some chunks /\ mjoin chunks = data /\
    chunks <> [] /\ Forall (fun c => length c <= max)%nat chunks /\
    ((length chunks - 1) * max <= length data)%nat.
Proof.
  intros Hmax. revert data. induction fuel as [|fuel IH]; intros data Hf; simpl.
  - rewrite bool_decide_true by lia. exists [data]. simpl. rewrite app_nil_r.
    repeat split; [done| |lia]. constructor; [lia|constructor].
  - case_bool_decide as Hd.
    { exists [data]. simpl. rewrite app_nil_r. repeat split; [done| |lia]. by repeat constructor. }
    destruct (IH (drop max data)) as (chunks & -> & Hj & Hne & Hc & Hn); [rewrite length_drop; lia|].
    exists (take max data :: chunks). split; [done|].
    change (mjoin (take max data :: chunks)) with (take max data ++ mjoin chunks).
    rewrite Hj, take_drop. split; [done|]. split; [done|]. split.
    + constructor; [|done]. rewrite length_take. lia.
    + rewrite length_drop in Hn. destruct chunks; [done|]. simpl in *. rewrite Nat.sub_0_r in *. lia.
Qed.

(** The flags that part [i] of [len] gets in addition to those of the packet. *)
Definition fragment_flags (compressed : bool) (len i : nat) : Z :=
  Flags_or (if bool_decide (i = 0%nat) && compressed then COMPRESSED else Flags_empty)
    (if bool_decide (1 < len)%nat && (bool_decide (i = 0%nat) || bool_decide (i = (len - 1)%nat))
     then FRAGMENTED else Flags_empty).

Lemma is_flags_or f g : is_flags f -> is_flags g -> is_flags (Flags_or f g).
Proof.
  intros [Hf1 Hf2] [Hg1 Hg2]. split; [by apply Z.lor_nonneg|].
  unfold Flags_or. rewrite Z.ldiff_land in *. by rewrite Z.land_lor_distr_l, Hf2, Hg2.
Qed.

Lemma fragment_flags_ok c len i : is_flags (fragment_flags c len i).
Proof. unfold fragment_flags. by apply is_flags_or; destruct (_ && _). Qed.

Lemma with_flags_same dir L : layout_ok dir L -> with_flags L (layout_flags L) = L.
Proof.
  intros HL. destruct (layout_byte dir L HL) as [H0 H1]. destruct L as [m i c b].
  unfold with_flags, layout_flags. cbn [l_mac l_id l_cid l_byte] in *. f_equal.
  rewrite <- Z.land_lor_distr_r. change (Z.lor 15 240) with (Z.ones 8).
  rewrite Z.land_ones by lia. by apply Z.mod_small.
Qed.

Lemma with_flags_twice L f g : is_flags f -> with_flags (with_flags L f) g = with_flags L g.
Proof.
  intros Hf. unfold with_flags. cbn [l_mac l_id l_cid l_byte]. f_equal.
  by destruct (set_flags_bits (l_byte L) f Hf) as [_ ->].
Qed.

Section lemmas.
Context `{BeIoLaws, QuicklzLaws, EaxLaws, Sha256Laws}.

(** Adding flags to a packet, the way the code does it. *)
Lemma add_flags dir L part g : layout_ok dir L -> is_flags g ->
  (let? h := packet_op (OutPacket_header (layout_packet dir L part)) in
   let? f := packet_op (InHeader_flags h) in
   packet_op (OutPacket_flags (layout_packet dir L part) (Flags_or f g)))
  = Ok (layout_packet dir (with_flags L (Flags_or (layout_flags L) g)) part).
Proof.
  intros HL Hg. rewrite header_layout by done. cbn [packet_op map_err res_bind].
  rewrite flags_layout by done. cbn [packet_op map_err res_bind].
  by rewrite flags_packet.
Qed.

Lemma layout_flags_ok dir L : layout_ok dir L -> is_flags (layout_flags L).
Proof. intros HL. apply land_f0_flags. apply (layout_byte dir L HL). Qed.

Lemma finish_part_layout dir L compressed len i part : layout_ok dir L ->
  finish_part dir (layout_bytes L) (header_len dir) compressed len i part
  = Ok (layout_packet dir
      (with_flags L (Flags_or (layout_flags L) (fragment_flags compressed len i))) part).
Proof.
  intros HL. unfold finish_part. pose proof (layout_length dir L HL) as Hlen.
  rewrite bool_decide_true by done.
  rewrite overwrite_ok by (rewrite length_app, length_replicate; lia).
  cbn [packet_op map_err res_bind take app].
  rewrite take_0, Nat.add_0_l, Hlen, drop_app_length' by (by rewrite length_replicate).
  change (OutPacket_new_from_data dir ([] ++ layout_bytes L ++ part))
    with (layout_packet dir L part).
  pose proof (layout_flags_ok dir L HL) as Hf. unfold fragment_flags.
  assert (is_flags (Flags_or (layout_flags L) COMPRESSED)) as Hfc by by apply is_flags_or.
  destruct (bool_decide (i = 0%nat) && compressed);
    destruct (bool_decide (1 < len)%nat && _); rewrite ?add_flags by done; cbn [res_bind];
    rewrite ?add_flags by (done || by apply with_flags_ok);
    unfold Flags_or, Flags_empty; rewrite ?Z.lor_0_r, ?Z.lor_0_l; try done.
  - unfold Flags_or in Hfc. destruct (with_flags_read L _ Hfc) as [-> _].
    by rewrite with_flags_twice, Z.lor_assoc by done.
  - by rewrite (with_flags_same dir).
Qed.

Lemma finish_parts_layout dir L compressed len i parts : layout_ok dir L ->
  finish_parts dir (layout_bytes L) (header_len dir) compressed len i parts
  = Ok (imap (fun j part => layout_packet dir
      (with_flags L (Flags_or (layout_flags L) (fragment_flags compressed len (i + j)))) part) parts).
Proof.
  intros HL. revert i. induction parts as [|part parts IH]; intros i; [done|].
  cbn [finish_parts]. rewrite finish_part_layout by done. cbn [res_bind]. rewrite IH. cbn [res_bind imap].
  rewrite Nat.add_0_r. do 2 f_equal. apply imap_ext. intros j p _. simpl.
  by rewrite Nat.add_succ_r.
Qed.

(** What is sent for the content of a packet: as it is, or compressed when that does not make it
    longer. *)
Definition payload (dir : Direction) (content : list Z) : bool * list Z :=
  if bool_decide (length content <= 500 - header_len dir)%nat then (false, content)
  else if bool_decide (length content < length (qlz_compress content))%nat then (false, content)
  else (true, qlz_compress content).

Definition is_client_dir (dir : Direction) : bool :=
  match dir with C2S => true | S2C => false end.

Lemma compress_and_split_parts (dir : Direction) (L : Layout) (content : list Z) (t : PacketType)
    (HL : layout_ok dir L) (Ht : layout_type L = Some t) (Hw : t <> VoiceWhisper) :
  exists chunks,
    compress_and_split (is_client_dir dir) (layout_packet dir L content)
    = Ok (imap (fun i chunk => layout_packet dir
            (with_flags L (Flags_or (layout_flags L)
              (fragment_flags (fst (payload dir content)) (length chunks) i))) chunk) chunks) /\
    chunks <> [] /\ mjoin chunks = snd (payload dir content) /\
    Forall (fun c => header_len dir + length c <= 500)%nat chunks /\
    ((length chunks - 1) * (500 - header_len dir) <= length (snd (payload dir content)))%nat.
Proof.
  unfold compress_and_split, payload.
  assert ((if is_client_dir dir then C2S_HEADER_LEN else S2C_HEADER_LEN) = header_len dir) as ->
    by by destruct dir.
  rewrite content_layout by done. cbn [packet_op map_err res_bind].
  assert (header_len dir <= 13)%nat as Hh by (destruct dir; unfold header_len, C2S_HEADER_LEN,
    S2C_HEADER_LEN; lia).
  case_bool_decide as Hs.
  { exists [content]. simpl. change (fragment_flags false 1 0) with Flags_empty.
    unfold Flags_or at 1, Flags_empty. rewrite Z.lor_0_r, (with_flags_same dir), app_nil_r by done.
    repeat split; [done| |lia]. apply Forall_singleton. lia. }
  set (cd := qlz_compress content).
  assert (exists compressed data, (if bool_decide (length content < length cd)%nat
    then (false, content) else (true, cd)) = (compressed, data)) as (compressed & data & ->)
    by (destruct (bool_decide _); eauto).
  cbn [fst snd].
  assert (exists chunks, (let? whisper :=
      if bool_decide (length data <= 500 - header_len dir)%nat then Ok true else
      let? h := packet_op (OutPacket_header (layout_packet dir L content)) in
      let? t := packet_op (InHeader_packet_type h) in
      Ok (bool_decide (t = VoiceWhisper)) in
    if (whisper : bool) then Ok [data] else
      unwrap (split_loop (length data) (500 - header_len dir) data)) = Ok (E := TsError) chunks /\
    chunks <> [] /\ mjoin chunks = data /\
    Forall (fun c => header_len dir + length c <= 500)%nat chunks /\
    ((length chunks - 1) * (500 - header_len dir) <= length data)%nat)
    as (chunks & Hch & Hne & Hj & Hl).
  { case_bool_decide as Hd; cbn [res_bind].
    - exists [data]. simpl. rewrite app_nil_r. repeat split; [done| |lia].
      apply Forall_singleton. lia.
    - rewrite header_layout by done. cbn [packet_op map_err res_bind].
      rewrite packet_type_layout, Ht by done. cbn [unwrap packet_op map_err res_bind].
      rewrite bool_decide_false by done.
      destruct (split_loop_spec (length data) (500 - header_len dir) data)
        as (chunks & -> & Hj & Hne & Hc & Hn); [lia|lia|].
      exists chunks. split; [done|]. split; [done|]. split; [done|]. split; [|done].
      eapply Forall_impl; [exact Hc|]. simpl. lia. }
  exists chunks. split; [|done].
  apply res_bind_ok in Hch as (w & -> & Hw'). cbn [res_bind]. rewrite Hw'. cbn [res_bind].
  unfold OutPacket_header_bytes, OutPacket_content_offset. cbn [op_dir op_data layout_packet].
  rewrite slice_to_ok by (rewrite length_app, (layout_length dir L HL); lia).
  rewrite take_app_length' by (by rewrite (layout_length dir L HL)).
  cbn [packet_op map_err res_bind]. by rewrite finish_parts_layout.
Qed.

(** C22: [compress_and_split] of a command: the contents of the parts, put together, are the
    payload; every part, header included, has at most 500 bytes, and there are no more parts than
    needed; every part has the header of the
    packet with exactly the right flags added: compressed on the first part of a compressed
    packet, fragmented on the first and the last part of a split packet. *)
Theorem compress_and_split_spec (dir : Direction) (L : Layout) (content : list Z) (t : PacketType)
    (HL : layout_ok dir L) (Ht : layout_type L = Some t) (Hw : t <> VoiceWhisper) :
  exists chunks,
    compress_and_split (is_client_dir dir) (layout_packet dir L content)
    = Ok (imap (fun i chunk => layout_packet dir
            (with_flags L (Flags_or (layout_flags L)
              (fragment_flags (fst (payload dir content)) (length chunks) i))) chunk) chunks) /\
    chunks <> [] /\ mjoin chunks = snd (payload dir content) /\
    Forall (fun c => header_len dir + length c <= 500)%nat chunks /\
    ((length chunks - 1) * (500 - header_len dir) <= length (snd (payload dir content)))%nat.
Proof. by apply (compress_and_split_parts dir L content t). Qed.

End lemmas.

(** * Keys *)

Section keys.
Context `{BeIoLaws, QuicklzLaws, EaxLaws, Sha256Laws}.

(** The bytes that determine a key, and the key and nonce derived from them. *)
Definition seed_bytes (t : PacketType) (c_id : option Z) (g : Z) (iv : list Z) : list Z :=
  [match c_id with Some _ => 0x31 | None => 0x30 end; PacketType_to_u8 t] ++ write_be 4 g ++ iv.

Definition derive (t : PacketType) (c_id : option Z) (g : Z) (iv : list Z) : list Z * list Z :=
  (take 16 (sha256 (seed_bytes t c_id g iv)), drop 16 (sha256 (seed_bytes t c_id g iv))).

(** The packet id is mixed into the first two bytes of the key. *)
Definition mix_id (key : list Z) (p_id : Z) : list Z :=
  match key with
  | k0 :: k1 :: key => Z.lxor k0 (Z.shiftr p_id 8) :: Z.lxor k1 (Z.land p_id 0xff) :: key
  | _ => key
  end.

Lemma key_seed_eq t c g iv : length iv = 64%nat -> key_seed t c g iv = Ok (seed_bytes t c g iv).
Proof.
  intros Hiv. unfold key_seed, seed_bytes.
  rewrite set_index_ok by (rewrite length_replicate; lia). cbn [res_bind].
  rewrite set_index_ok by (rewrite length_insert, length_replicate; lia). cbn [res_bind].
  set (z := <[1%nat := _]> _).
  assert (z = [match c with Some _ => 49 | None => 48 end; PacketType_to_u8 t] ++ replicate 68 0)
    as -> by done.
  rewrite slice_ok by (rewrite ?length_app, ?length_replicate; simpl; lia). cbn [res_bind].
  rewrite overwrite_ok by (rewrite write_be_length, length_app, length_replicate; simpl; lia).
  cbn [res_bind]. rewrite write_be_length.
  change (take 2 (?a ++ replicate 68 0)) with a.
  set (hd := [_; _]).
  change (take 2 (hd ++ replicate 68 0)) with hd.
  change (drop (2 + 4) (hd ++ replicate 68 0)) with (replicate 64 0).
  rewrite slice_from_ok by (rewrite !length_app, write_be_length, length_replicate; simpl; lia).
  cbn [res_bind].
  rewrite length_drop, !length_app, write_be_length, length_replicate.
  rewrite bool_decide_true by (simpl; lia).
  rewrite overwrite_ok by (rewrite !length_app, write_be_length, length_replicate; simpl; lia).
  rewrite !app_assoc, take_app_length' by (by rewrite length_app, write_be_length).
  rewrite drop_ge by (rewrite !length_app, write_be_length, length_replicate; simpl; lia).
  by rewrite app_nil_r.
Qed.

Definition entry_ok (iv : list Z) (t : PacketType) (c_id : option Z) (e : CachedKey) : Prop :=
  ck_generation_id e = 4294967295 \/
  (ck_key e, ck_nonce e) = derive t c_id (ck_generation_id e) iv.

(** The cached keys are the ones of the connection, for every packet type with ids. *)
Definition cache_ok (iv : list Z) (cache : KeyCache) : Prop :=
  forall t c, t <> Init -> exists row e,
    cache !! Z.to_nat (PacketType_to_u8 t) = Some row /\ row !! dir_index c = Some e /\
    entry_ok iv t c e.

Lemma derive_dir t c c' g iv : dir_index c = dir_index c' -> derive t c g iv = derive t c' g iv.
Proof. by destruct c, c'. Qed.

Lemma cache_default_ok iv : cache_ok iv KeyCache_default.
Proof.
  intros t c Ht. exists (replicate 2 CachedKey_default), CachedKey_default.
  repeat split; [by destruct t|by destruct c|by left].
Qed.

Lemma cache_insert_ok iv cache t c row e :
  cache_ok iv cache -> cache !! Z.to_nat (PacketType_to_u8 t) = Some row ->
  (dir_index c < length row)%nat -> entry_ok iv t c e ->
  cache_ok iv (<[Z.to_nat (PacketType_to_u8 t) := <[dir_index c := e]> row]> cache).
Proof.
  intros Hc Hrow Hlen He t' c' Ht'.
  pose proof (lookup_lt_Some _ _ _ Hrow) as Hlt.
  destruct (decide (t' = t)) as [->|Hne].
  - destruct (decide (dir_index c' = dir_index c)) as [Hd|Hd].
    + eexists _, e. split; [by rewrite list_lookup_insert_eq|]. rewrite Hd.
      split; [by rewrite list_lookup_insert_eq|]. unfold entry_ok in *.
      by rewrite (derive_dir _ c' c).
    + destruct (Hc t c' Ht') as (row' & e' & Hr & Hl & Hok). rewrite Hrow in Hr.
      injection Hr as <-. eexists _, e'. split; [by rewrite list_lookup_insert_eq|].
      by rewrite list_lookup_insert_ne by done.
  - destruct (Hc t' c' Ht') as (row' & e' & Hr & Hl & Hok). exists row', e'.
    split; [|done]. rewrite list_lookup_insert_ne; [done|]. intros Heq. apply Hne.
    apply (f_equal Z.of_nat) in Heq. pose proof (PacketType_to_u8_range t).
    pose proof (PacketType_to_u8_range t'). rewrite !Z2Nat.id in Heq by lia.
    apply (f_equal PacketType_from_u8) in Heq. rewrite !PacketType_from_to in Heq. congruence.
Qed.

Lemma mix_id_eq key p_id k0 k1 : (2 <= length key)%nat ->
  key !! 0%nat = Some k0 -> key !! 1%nat = Some k1 ->
  <[0%nat := Z.lxor k0 (Z.shiftr p_id 8)]> (<[1%nat := Z.lxor k1 (Z.land p_id 0xff)]> key)
  = mix_id key p_id.
Proof.
  destruct key as [|a [|b key]]; simpl; [lia|lia|]. intros _ [= ->] [= ->]. done.
Qed.

Lemma derive_key_length t c g iv : length (fst (derive t c g iv)) = 16%nat.
Proof. unfold derive. cbn [fst]. rewrite length_take, sha256_length. done. Qed.

(** Looking up a key computes the derived one, cached or not, and keeps the cache right. *)
Lemma create_key_nonce_spec t c p_id g iv cache :
  cache_ok iv cache -> t <> Init -> length iv = 64%nat -> g <> 4294967295 ->
  exists cache', cache_ok iv cache' /\
    create_key_nonce t c p_id g iv cache
    = Ok (mix_id (fst (derive t c g iv)) p_id, snd (derive t c g iv), cache').
Proof.
  intros Hc Ht Hiv Hg. unfold create_key_nonce.
  destruct (Hc t c Ht) as (row & e & Hrow & He & Hok).
  rewrite (index_ok _ _ _ Hrow). cbn [res_bind]. rewrite (index_ok _ _ _ He). cbn [res_bind].
  pose proof (lookup_lt_Some _ _ _ He) as Hlt.
  set (m := if negb _ then _ else _).
  assert (exists e', m = Ok e' /\ entry_ok iv t c e' /\
    (ck_key e', ck_nonce e') = derive t c g iv) as (e' & -> & Hok' & Hd).
  { unfold m. destruct (Z.eqb_spec (ck_generation_id e) g) as [Heq|Hne]; cbn [negb].
    - exists e. split; [done|]. split; [done|]. destruct Hok as [?|Hk]; [congruence|].
      by rewrite Hk, Heq.
    - rewrite key_seed_eq by done. cbn [res_bind].
      rewrite slice_to_ok, slice_from_ok by (rewrite sha256_length; lia). cbn [res_bind].
      rewrite bool_decide_true by (rewrite length_drop, sha256_length; done).
      eexists. split; [done|]. split; [|done]. by right. }
  cbn [res_bind]. pose proof (derive_key_length t c g iv) as Hkl.
  rewrite <- Hd in Hkl |- *. cbn [fst snd] in Hkl |- *.
  destruct (index_lt (E := TsError) (ck_key e') 0 ltac:(lia)) as (k0 & Hk0 & ->).
  destruct (index_lt (E := TsError) (ck_key e') 1 ltac:(lia)) as (k1 & Hk1 & ->).
  cbn [res_bind]. rewrite mix_id_eq by (done || lia). eexists. split; [|done].
  by apply cache_insert_ok.
Qed.

(** ** Packets *)

Lemma get_meta_layout dir L : layout_ok dir L ->
  InHeader_get_meta (layout_header dir L) = Ok (l_id L ++ l_cid L ++ [l_byte L]).
Proof.
  intros (H1' & _). unfold InHeader_get_meta. cbn [ih_data layout_header].
  unfold layout_bytes. by rewrite slice_from_app.
Qed.

(** The associated data that is authenticated: the header without its mac. *)
Definition layout_meta (L : Layout) : list Z := l_id L ++ l_cid L ++ [l_byte L].

Lemma encrypt_key_nonce_layout dir L content key nonce : layout_ok dir L -> bytes content ->
  encryptable content ->
  exists c' mac, eax_encrypt key nonce (layout_meta L) content = Some (c', mac) /\
    length c' = length content /\ bytes c' /\ length mac = 8%nat /\ bytes mac /\
    encrypt_key_nonce (layout_packet dir L content) key nonce
    = Ok (layout_packet dir (with_mac L mac) c').
Proof.
  intros HL Hb Hsmall. unfold encrypt_key_nonce. rewrite header_layout by done.
  cbn [packet_op map_err res_bind]. rewrite get_meta_layout by done.
  cbn [packet_op map_err res_bind]. rewrite content_layout by done.
  cbn [packet_op map_err res_bind]. fold (layout_meta L).
  assert (encryptable (layout_meta L)) as Hmeta.
  { pose proof HL as (_ & Hid & Hcid & _). unfold encryptable, layout_meta. rewrite !length_app, Hid.
    destruct dir; simpl in *; lia. }
  destruct (eax_encrypt_some key nonce (layout_meta L) content Hmeta Hsmall) as [[c' mac] Hc]. rewrite Hc.
  destruct (eax_encrypt_shape _ _ _ _ _ _ Hb Hc) as (Hl & Hcb & Hm & Hmb).
  exists c', mac. split; [done|]. repeat (split; [done|]).
  unfold OutPacket_header_bytes, OutPacket_content_offset. cbn [op_dir op_data layout_packet].
  rewrite slice_to_ok by (rewrite length_app, (layout_length dir L HL); lia).
  rewrite take_app_length' by (by rewrite (layout_length dir L HL)).
  cbn [packet_op map_err res_bind].
  change (OutPacket_with_data (layout_packet dir L content) (layout_bytes L ++ c'))
    with (layout_packet dir L c').
  by rewrite set_mac_packet.
Qed.

Lemma decrypt_key_nonce_layout dir L content c' mac key nonce : layout_ok dir L ->
  length mac = 8%nat -> bytes mac ->
  eax_encrypt key nonce (layout_meta L) content = Some (c', mac) ->
  decrypt_key_nonce {| ip_header := layout_header dir (with_mac L mac); ip_content := c' |} key nonce
  = Ok content.
Proof.
  intros HL Hm Hmb Hc. unfold decrypt_key_nonce. cbn [ip_header ip_content].
  assert (layout_ok dir (with_mac L mac)) as HL' by by apply with_mac_ok.
  rewrite get_meta_layout, mac_layout by done. cbn [packet_op map_err res_bind].
  cbn [l_id l_cid l_byte l_mac with_mac]. fold (layout_meta L).
  by rewrite (eax_roundtrip _ _ _ _ _ _ Hc).
Qed.

(** The accessors that select the key. *)
Lemma key_accessors dir L t : layout_ok dir L -> layout_type L = Some t ->
  exists c id, InHeader_packet_type (layout_header dir L) = Ok t /\
    InHeader_client_id (layout_header dir L) = Ok c /\ InHeader_packet_id (layout_header dir L) = Ok id /\
    forall mac, length mac = 8%nat -> bytes mac ->
      InHeader_packet_type (layout_header dir (with_mac L mac)) = Ok t /\
      InHeader_client_id (layout_header dir (with_mac L mac)) = Ok c /\
      InHeader_packet_id (layout_header dir (with_mac L mac)) = Ok id.
Proof.
  intros HL Ht. destruct (layout_parts_bytes dir L HL) as [Hid Hcid].
  pose proof HL as (_ & Hid2 & Hcid2 & _).
  destruct (read_u16 (l_id L) Hid Hid2) as (id & Hread & _).
  assert (exists c, forall mac, length mac = 8%nat -> bytes mac ->
    InHeader_client_id (layout_header dir (with_mac L mac)) = Ok c /\
    InHeader_client_id (layout_header dir L) = Ok c) as [c Hc].
  { destruct dir; [by exists None|]. destruct (read_u16 (l_cid L) Hcid Hcid2) as (c & Hrc & _).
    exists (Some c). intros mac Hm Hmb. rewrite !client_id_layout by (done || by apply with_mac_ok).
    cbn [l_cid with_mac]. by rewrite Hrc. }
  exists c, id. rewrite packet_type_layout, packet_id_layout, Ht, Hread by done.
  split; [done|]. split; [apply (Hc (replicate 8 0)); by repeat constructor|]. split; [done|].
  intros mac Hm Hmb. destruct (Hc mac Hm Hmb) as [-> _].
  rewrite packet_type_layout, packet_id_layout by by apply with_mac_ok.
  cbn [l_id with_mac]. rewrite Hread. change (layout_type (with_mac L mac)) with (layout_type L).
  by rewrite Ht.
Qed.

(** C21: what one side encrypts, up to the 2^36 bytes that the library accepts, the other side
    decrypts to the same content, from any states of
    the two key caches that are coherent with the shared iv; the caches stay coherent, and the
    header up to its mac is unchanged and authenticated. *)
Theorem encrypt_decrypt_roundtrip (dir : Direction) (L : Layout) (content : list Z)
    (t : PacketType) (g : Z) (iv : list Z) (sender receiver : KeyCache)
    (HL : layout_ok dir L) (Hb : bytes content) (Hsmall : encryptable content)
    (Ht : layout_type L = Some t) (Hi : t <> Init) (Hiv : length iv = 64%nat) (Hg : g <> 4294967295)
    (Hs : cache_ok iv sender) (Hr : cache_ok iv receiver) :
  exists mac c' ip sender' receiver',
    encrypt (layout_packet dir L content) g iv sender
      = Ok (layout_packet dir (with_mac L mac) c', sender') /\
    length c' = length content /\ cache_ok iv sender' /\
    InPacket_try_new dir (op_data (layout_packet dir (with_mac L mac) c')) = Ok ip /\
    decrypt ip g iv receiver = Ok (Ok content, receiver') /\ cache_ok iv receiver'.
Proof.
  destruct (key_accessors dir L t HL Ht) as (c & id & Ha1 & Ha2 & Ha3 & Hmac).
  destruct (create_key_nonce_spec t c id g iv sender Hs Hi Hiv Hg) as (sender' & Hs' & Hks).
  destruct (create_key_nonce_spec t c id g iv receiver Hr Hi Hiv Hg) as (receiver' & Hr' & Hkr).
  destruct (encrypt_key_nonce_layout dir L content (mix_id (fst (derive t c g iv)) id)
    (snd (derive t c g iv)) HL Hb Hsmall) as (c' & mac & He & Hl & Hcb & Hm & Hmb & Henc).
  destruct (Hmac mac Hm Hmb) as (Hb1 & Hb2 & Hb3).
  exists mac, c', {| ip_header := layout_header dir (with_mac L mac); ip_content := c' |},
    sender', receiver'.
  split.
  { unfold encrypt. rewrite header_layout by done. cbn [packet_op map_err res_bind].
    rewrite Ha1, Ha2, Ha3. cbn [packet_op map_err res_bind]. rewrite Hks. cbn [res_bind].
    rewrite Henc. done. }
  split; [done|]. split; [done|]. split.
  { cbn [op_data layout_packet]. rewrite try_new_layout by by apply with_mac_ok.
    rewrite (proj2 (Z.ltb_ge _ _)); [done|]. by apply (type_of_low _ t). }
  split; [|done]. unfold decrypt. cbn [ip_header]. rewrite Hb1, Hb2, Hb3.
  cbn [packet_op map_err res_bind]. rewrite Hkr. cbn [res_bind].
  by rewrite (decrypt_key_nonce_layout dir L content).
Qed.

(** A fresh key cache is filled with zero keys for generation 2^32 - 1: for this generation
    the key and the nonce that [create_key_nonce] returns do not depend on the secret iv - the key
    is the packet id, the nonce is zero - and no hash is computed. *)
Theorem fresh_cache_known_key (t : PacketType) (c_id : option Z) (p_id : Z) (iv : list Z)
    (Ht : t <> Init) (Hid : is_u16 p_id) :
  create_key_nonce t c_id p_id 4294967295 iv KeyCache_default
  = Ok ([Z.shiftr p_id 8; Z.land p_id 0xff] ++ replicate 14 0, replicate 16 0, KeyCache_default).
Proof.
  unfold create_key_nonce, KeyCache_default.
  destruct t, c_id; try done; reflexivity.
Qed.
End keys.

(** * Concrete libraries for the witnesses *)

#[global] Instance plain_quicklz : Quicklz := {|
  qlz_compress d := d;
  qlz_decompress d max := if bool_decide (Z.of_nat (length d) <= max) then Some d else None;
|}.

#[global] Instance plain_quicklz_laws : QuicklzLaws.
Proof.
  split; [done| |].
  - intros d max _ Hl. simpl. by rewrite bool_decide_true.
  - intros d max d' Hb. simpl. case_bool_decide; [|done]. by intros [= <-].
Qed.

#[global] Instance plain_eax : EaxCipher := {|
  eax_encrypt k n meta c := Some (c, replicate 8 (Z.of_nat (length meta) mod 256));
  eax_decrypt k n meta c mac :=
    if bool_decide (mac = replicate 8 (Z.of_nat (length meta) mod 256)) then Some c else None;
|}.

#[global] Instance plain_eax_laws : EaxLaws.
Proof.
  split; simpl.
  - eauto.
  - intros k n meta c c' mac Hb [= <- <-]. split; [done|]. split; [done|]. split; [done|].
    assert (is_u8 (Z.of_nat (length meta) mod 256)) by (apply Z.mod_pos_bound; lia).
    repeat (constructor; [done|]); constructor.
  - intros k n meta c c' mac [= <- <-]. by rewrite bool_decide_true.
  - intros k n meta c mac c' Hb. case_bool_decide; [|done]. by intros [= <-].
Qed.

#[global] Instance plain_sha256 : Sha256 := {| sha256 l := take 32 (l ++ replicate 32 7) |}.

#[global] Instance plain_sha256_laws : Sha256Laws.
Proof. split. intros l. unfold sha256, plain_sha256. rewrite length_take, length_app, length_replicate. lia. Qed.

Lemma compress_and_split_spec_witness : exists ps,
  compress_and_split true (layout_packet C2S (fresh_layout C2S Flags_empty Command)
    (replicate 1000 5)) = Ok ps /\ length ps = 3%nat.
Proof.
  destruct (compress_and_split_spec C2S (fresh_layout C2S Flags_empty Command) (replicate 1000 5)
    Command) as (chunks & Hc & _).
  - auto with ts.
  - reflexivity.
  - discriminate.
  - eexists. split; [exact Hc|]. vm_compute in Hc. rewrite length_imap.
    destruct chunks as [|c1 [|c2 [|c3 [|c4 chunks]]]]; try discriminate Hc. reflexivity.
Defined.

Lemma encrypt_decrypt_roundtrip_witness : exists mac c' sender' ip receiver',
  encrypt (layout_packet C2S (fresh_layout C2S Flags_empty Command) [1; 2; 3]) 0 (replicate 64 9)
    KeyCache_default
  = Ok (layout_packet C2S (with_mac (fresh_layout C2S Flags_empty Command) mac) c', sender') /\
  decrypt ip 0 (replicate 64 9) KeyCache_default = Ok (Ok [1; 2; 3], receiver').
Proof.
  destruct (encrypt_decrypt_roundtrip C2S (fresh_layout C2S Flags_empty Command) [1; 2; 3] Command
    0 (replicate 64 9) KeyCache_default KeyCache_default)
    as (mac & c' & ip & s' & r' & He & _ & _ & _ & Hd & _).
  - auto with ts.
  - repeat constructor; by vm_compute.
  - by vm_compute.
  - reflexivity.
  - discriminate.
  - reflexivity.
  - discriminate.
  - apply cache_default_ok.
  - apply cache_default_ok.
  - exists mac, c', s', ip, r'. split; [exact He|exact Hd].
Defined.

Lemma fresh_cache_known_key_witness :
  create_key_nonce Ack None 5 4294967295 (replicate 64 9) KeyCache_default
  = Ok ([0; 5] ++ replicate 14 0, replicate 16 0, KeyCache_default).
Proof.
  apply (fresh_cache_known_key Ack None 5 (replicate 64 9)); [discriminate|by vm_compute].
Defined.
