(* ===== verification/Codec.v ===== *)
(** The packet codec ([tsproto/src/packet_codec.rs]): ordering and defragmentation of incoming
    command packets ([handle_command_packet]), and encoding of outgoing packets
    ([encode_packet]). *)
From S2P Require Import Prelude ByteIO Packets InitPackets PacketId Algorithms.
From stdpp Require Import strings.
#[local] Open Scope Z_scope.

(** * State *)

(** The arrays are lists: 8 ids per direction, 2 queues. *)
Record PacketCodec := {
  outgoing_p_ids : list PartialPacketId;
  receive_queue : list (list (list Z));
  fragmented_queue : list (option (list Z));
  incoming_p_ids : list PartialPacketId;
}.

Definition PacketCodec_default : PacketCodec := {|
  outgoing_p_ids := replicate 8 PartialPacketId_default;
  receive_queue := replicate 2 [];
  fragmented_queue := replicate 2 None;
  incoming_p_ids := replicate 8 PartialPacketId_default;
|}.

Definition type_index (t : PacketType) : nat := Z.to_nat (PacketType_to_u8 t).

(** The parts of the codec that [handle_command_packet] borrows: the next expected id, the queue
    of packets that arrived too early and the fragments so far. *)
Record CommandState := {
  cs_next : PartialPacketId;
  cs_queue : list (list Z);
  cs_frag : option (list Z);
}.

Definition cmd_index (t : PacketType) : nat := if bool_decide (t = Command) then 0 else 1.

Definition PacketCodec_command (c : PacketCodec) (t : PacketType) : res TsError CommandState :=
  let? q := index (receive_queue c) (cmd_index t) in
  let? f := index (fragmented_queue c) (cmd_index t) in
  let? n := index (incoming_p_ids c) (type_index t) in
  Ok {| cs_next := n; cs_queue := q; cs_frag := f |}.

Definition PacketCodec_set_command (c : PacketCodec) (t : PacketType) (s : CommandState)
    : PacketCodec := {|
  outgoing_p_ids := outgoing_p_ids c;
  receive_queue := <[cmd_index t := cs_queue s]> (receive_queue c);
  fragmented_queue := <[cmd_index t := cs_frag s]> (fragmented_queue c);
  incoming_p_ids := <[type_index t := cs_next s]> (incoming_p_ids c);
|}.

Section codec.
Context `{BeIo, Quicklz, EaxCipher, Sha256}.

(** * Incoming commands *)

(** [header.len() bytes of the packet, then its decompressed content]. *)
Definition decompress (dir : Direction) (data : list Z) (flags : Z) : res TsError (list Z) :=
  if Flags_contains flags COMPRESSED then
    let? packet := packet_op (InPacket_new dir data) in
    let? decompressed :=
      ok_or (qlz_decompress (ip_content packet) MAX_DECOMPRESSED_SIZE) DecompressPacket in
    let start := length (ih_data (ip_header packet)) in
    Ok (take start data ++ decompressed)
  else Ok data.

(** One packet of the in-order loop: the finished command, if there is one, and the fragments
    that remain. *)
Definition handle_in_order (dir : Direction) (frag_queue : option (list Z)) (packet_data : list Z)
    : res TsError (option (list Z) * option (list Z)) :=
  let? packet := packet_op (InPacket_new dir packet_data) in
  let? flags := packet_op (InHeader_flags (ip_header packet)) in
  if Flags_contains flags FRAGMENTED then
    match frag_queue with
    | Some frag_queue =>
        (* Last fragmented packet *)
        let frag_queue := frag_queue ++ ip_content packet in
        let? header := packet_op (InPacket_new dir frag_queue) in
        let? first_flags := packet_op (InHeader_flags (ip_header header)) in
        let? p := decompress dir frag_queue first_flags in
        Ok (Some p, None)
    | None => Ok (None, Some packet_data)
    end
  else
    match frag_queue with
    | Some frag_queue =>
        if bool_decide (length frag_queue < MAX_FRAGMENTS_LENGTH)%nat
        then Ok (None, Some (frag_queue ++ ip_content packet))
        else Err (MaxLengthExceeded "fragment queue")
    | None =>
        let? p := decompress dir packet_data flags in
        Ok (Some p, None)
    end.

Definition header_id (dir : Direction) (data : list Z) : res TsError Z :=
  let? h := packet_op (InHeader_new dir data) in
  packet_op (InHeader_packet_id h).

(** [r_queue.iter().position(|p| InHeader::new(dir, p).packet_id() == id)] *)
Fixpoint find_packet (dir : Direction) (id : Z) (queue : list (list Z)) : res TsError (option nat) :=
  match queue with
  | [] => Ok None
  | p :: queue =>
      let? p_id := header_id dir p in
      if p_id =? id then Ok (Some 0%nat)
      else
        let? r := find_packet dir id queue in
        Ok (S <$> r)
  end.

(** The loop of the in-order case; [None] when out of fuel. *)
Fixpoint command_loop (fuel : nat) (dir : Direction) (s : CommandState) (packet_data : list Z)
    (id : Z) : option (res TsError (CommandState * list (list Z))) :=
  match fuel with
  | O => None
  | S fuel =>
      let next := PartialPacketId_add (cs_next s) 1 in
      match handle_in_order dir (cs_frag s) packet_data with
      | Err e => Some (Err e)
      | Panic => Some Panic
      | Ok (res_packet, frag) =>
          let packets := match res_packet with Some p => [p] | None => [] end in
          let id := wrap 16 (id + 1) in
          match find_packet dir id (cs_queue s) with
          | Err e => Some (Err e)
          | Panic => Some Panic
          | Ok None => Some (Ok ({| cs_next := next; cs_queue := cs_queue s; cs_frag := frag |},
                                 packets))
          | Ok (Some pos) =>
              match cs_queue s !! pos with
              | None => Some Panic
              | Some packet_data =>
                  let queue := take pos (cs_queue s) ++ drop (S pos) (cs_queue s) in
                  match command_loop fuel dir
                    {| cs_next := next; cs_queue := queue; cs_frag := frag |} packet_data id with
                  | Some (Ok (s, ps)) => Some (Ok (s, packets ++ ps))
                  | r => r
                  end
              end
          end
      end
  end.

(** [handle_command_packet] on the borrowed state: every round of the loop after the first takes
    a packet from the queue, so the fuel is the length of the queue plus one. *)
Definition command_step (dir : Direction) (s : CommandState) (packet_data : list Z)
    : res TsError (CommandState * list (list Z)) :=
  let? packet := packet_op (InPacket_new dir packet_data) in
  let? id := packet_op (InHeader_packet_id (ip_header packet)) in
  let cur_next := packet_id (cs_next s) in
  if cur_next =? id then
    match command_loop (S (length (cs_queue s))) dir s packet_data id with
    | Some r => r
    | None => Panic
    end
  else
    let '(limit, next_gen) := overflowing 16 (cur_next + MAX_QUEUE_LEN) in
    if (negb next_gen && (cur_next <=? id) && (id <? limit))
       || (next_gen && ((cur_next <=? id) || (id <? limit)))
    then Ok ({| cs_next := cs_next s; cs_queue := cs_queue s ++ [packet_data]; cs_frag := cs_frag s |}, [])
    else Err (MaxLengthExceeded "command queue").

Definition in_dir (is_client : bool) : Direction := if is_client then S2C else C2S.

Definition handle_command_packet (is_client : bool) (c : PacketCodec) (packet_data : list Z)
    : res TsError (PacketCodec * list (list Z)) :=
  let dir := in_dir is_client in
  let? packet := packet_op (InPacket_new dir packet_data) in
  let? p_type := packet_op (InHeader_packet_type (ip_header packet)) in
  let? s := PacketCodec_command c p_type in
  let? '(s, packets) := command_step dir s packet_data in
  Ok (PacketCodec_set_command c p_type s, packets).

(** Receiving a sequence of command packets: the state after it and all finished commands. *)
Fixpoint receive_commands (is_client : bool) (c : PacketCodec) (l : list (list Z))
    : res TsError (PacketCodec * list (list Z)) :=
  match l with
  | [] => Ok (c, [])
  | data :: l =>
      let? '(c, ps) := handle_command_packet is_client c data in
      let? '(c, qs) := receive_commands is_client c l in
      Ok (c, ps ++ qs)
  end.

(** * Specification: the packets one after the other *)

(** Handling packets that arrive in order. *)
Fixpoint in_order (dir : Direction) (frag : option (list Z)) (l : list (list Z))
    : res TsError (option (list Z) * list (list Z)) :=
  match l with
  | [] => Ok (frag, [])
  | data :: l =>
      let? '(r, frag) := handle_in_order dir frag data in
      let? '(frag, out) := in_order dir frag l in
      Ok (frag, match r with Some p => [p] | None => [] end ++ out)
  end.

(** The packets carry consecutive ids, starting with [n]. *)
Definition numbered (dir : Direction) (n : Z) (l : list (list Z)) : Prop :=
  forall i p, l !! i = Some p -> header_id dir p = Ok (wrap 16 (n + Z.of_nat i)).

Definition of_type (dir : Direction) (t : PacketType) (l : list (list Z)) : Prop :=
  Forall (fun p => exists h, InHeader_new dir p = Ok h /\ InHeader_packet_type h = Ok t) l.

End codec.

(** * Reordering *)

Lemma wrap16_inj n (i j : nat) :
  Z.of_nat i < 65536 -> Z.of_nat j < 65536 ->
  wrap 16 (n + Z.of_nat i) = wrap 16 (n + Z.of_nat j) -> i = j.
Proof.
  intros Hi Hj Heq. unfold wrap in Heq. change (2 ^ 16) with 65536 in Heq.
  pose proof (Z.div_mod (n + Z.of_nat i) 65536). pose proof (Z.div_mod (n + Z.of_nat j) 65536). lia.
Qed.

Lemma wrap16_add n i d : wrap 16 (wrap 16 (n + i) + d) = wrap 16 (n + (i + d)).
Proof. unfold wrap. rewrite Zplus_mod_idemp_l. f_equal. ring. Qed.

(** Adding one several times. *)
Definition id_add_n (p : PartialPacketId) (k : nat) : PartialPacketId :=
  Nat.iter k (fun p => PartialPacketId_add p 1) p.

Lemma id_add_n_packet_id p k :
  is_u16 (packet_id p) -> packet_id (id_add_n p k) = wrap 16 (packet_id p + Z.of_nat k).
Proof.
  intros Hp. induction k as [|k IH].
  - simpl. by rewrite Z.add_0_r, wrap_small.
  - simpl. unfold PartialPacketId_add, overflowing. cbn [packet_id].
    fold (id_add_n p k). rewrite IH, wrap16_add. f_equal. lia.
Qed.

Lemma id_add_n_add p j k : id_add_n (id_add_n p j) k = id_add_n p (j + k).
Proof. induction k as [|k IH]; [by rewrite Nat.add_0_r|]. rewrite Nat.add_succ_r. simpl. by rewrite <- IH. Qed.

Lemma id_add_n_ok p k : id_ok p -> id_ok (id_add_n p k).
Proof. intros Hp. induction k as [|k IH]; [done|]. simpl. by apply add_ok. Qed.

Lemma id_add_n_val p k : id_ok p -> id_val (id_add_n p k) = wrap 48 (id_val p + Z.of_nat k).
Proof.
  intros Hp. induction k as [|k IH].
  - simpl. rewrite Z.add_0_r, wrap_small; [done|]. by apply id_val_range.
  - simpl. destruct (add_ok _ 1 (id_add_n_ok p k Hp)) as [_ ->]; [done|]. rewrite IH.
    unfold wrap. rewrite Zplus_mod_idemp_l. f_equal. lia.
Qed.

(** Ids up to 200 ahead pass the test of the out-of-order branch. *)
Lemma queue_window cur d : is_u16 cur -> 0 < d < 200 ->
  let '(limit, next_gen) := overflowing 16 (cur + MAX_QUEUE_LEN) in
  let id := wrap 16 (cur + d) in
  (negb next_gen && (cur <=? id) && (id <? limit))
  || (next_gen && ((cur <=? id) || (id <? limit))) = true.
Proof.
  unfold MAX_QUEUE_LEN. intros Hcur Hd. unfold is_uint in Hcur. change (2 ^ 16) with 65536 in Hcur.
  change (wrap 16 (cur + d)) with (fst (overflowing 16 (cur + d))). rewrite !wrap16 by lia.
  cbn [fst].
  destruct (Z.ltb_spec (cur + 200) 0), (Z.ltb_spec (cur + 200) 65536); try lia;
    destruct (Z.ltb_spec (cur + d) 0), (Z.ltb_spec (cur + d) 65536); try lia; cbn [negb orb andb].
Qed.

Section reorder.
Context `{BeIoLaws, Quicklz, EaxCipher, Sha256}.

Lemma in_order_app dir frag l k r :
  in_order dir frag (l ++ k) = Ok r ->
  exists frag1 out1 frag2 out2, in_order dir frag l = Ok (frag1, out1) /\
    in_order dir frag1 k = Ok (frag2, out2) /\ r = (frag2, out1 ++ out2).
Proof.
  revert frag r. induction l as [|p l IH]; intros frag r Hr.
  - destruct r as [fr o]. by exists frag, [], fr, o.
  - simpl in Hr. inv_binds. destruct a as [r1 fr1]. inv_binds. destruct a as [fr2 o2].
    injection Hr as <-.
    destruct (IH _ _ Ha0) as (f1 & o1 & f2 & o3 & Hl & Hk & [= -> ->]).
    exists f1, (match r1 with Some p => [p] | None => [] end ++ o1), f2, o3.
    simpl. rewrite Ha. cbn [res_bind]. rewrite Hl. cbn [res_bind].
    split; [done|]. split; [done|]. by rewrite app_assoc.
Qed.

Lemma in_order_cat dir frag l k frag1 out1 frag2 out2 :
  in_order dir frag l = Ok (frag1, out1) -> in_order dir frag1 k = Ok (frag2, out2) ->
  in_order dir frag (l ++ k) = Ok (frag2, out1 ++ out2).
Proof.
  revert frag frag1 out1. induction l as [|p l IH]; intros frag frag1 out1 Hl Hk.
  - simpl in Hl. by injection Hl as -> <-.
  - simpl in Hl. inv_binds. destruct a as [r fr]. inv_binds. destruct a as [fr1 o1].
    injection Hl as <- <-. simpl. rewrite Ha. cbn [res_bind]. rewrite (IH _ _ _ Ha0 Hk).
    cbn [res_bind]. by rewrite app_assoc.
Qed.

Lemma in_order_cons dir frag p l r frag1 out2 frag2 :
  handle_in_order dir frag p = Ok (r, frag1) -> in_order dir frag1 l = Ok (frag2, out2) ->
  in_order dir frag (p :: l) = Ok (frag2, match r with Some p => [p] | None => [] end ++ out2).
Proof. intros H1' H2'. simpl. rewrite H1'. cbn [res_bind]. by rewrite H2'. Qed.

(** A run of packets [ps] with consecutive ids from [n]; packet [i] is [pk i]. *)
Context (dir : Direction) (n : Z) (ps : list (list Z)).
Context (Hnum : numbered dir n ps) (Hlen : (length ps <= 200)%nat).

Definition pk (i : nat) : list Z := default [] (ps !! i).

Lemma pk_lookup i : (i < length ps)%nat -> ps !! i = Some (pk i).
Proof. intros Hi. unfold pk. destruct (ps !! i) as [p|] eqn:Hp; [done|]. apply lookup_ge_None in Hp. lia. Qed.

Lemma pk_id i : (i < length ps)%nat -> header_id dir (pk i) = Ok (wrap 16 (n + Z.of_nat i)).
Proof. intros Hi. by apply Hnum, pk_lookup. Qed.

Lemma find_spec qi j :
  Forall (fun i => i < length ps)%nat qi -> (j <= length ps)%nat ->
  ((j ∉ qi) /\ find_packet dir (wrap 16 (n + Z.of_nat j)) (pk <$> qi) = Ok None) \/
  exists pos, qi !! pos = Some j /\
    find_packet dir (wrap 16 (n + Z.of_nat j)) (pk <$> qi) = Ok (Some pos).
Proof.
  intros Hq Hj. induction qi as [|i qi IH]; [left; split; [apply not_elem_of_nil|done]|].
  apply Forall_cons_1 in Hq as [Hi Hq]. cbn [fmap list_fmap find_packet].
  rewrite pk_id by done. cbn [res_bind].
  destruct (Z.eqb_spec (wrap 16 (n + Z.of_nat i)) (wrap 16 (n + Z.of_nat j))) as [He|Hne].
  - apply wrap16_inj in He as ->; [|lia|lia]. right. by exists 0%nat.
  - change (list_fmap nat (list Z) pk qi) with (pk <$> qi).
    destruct (IH Hq) as [[Hn ->]|(pos & Hpos & ->)].
    + left. split; [|done]. apply not_elem_of_cons. split; [|done]. intros ->. done.
    + right. by exists (S pos).
Qed.

(** The in-order loop, started with packet [m]: it delivers the run of packets that are
    available and keeps the others. *)
Lemma loop_spec fuel m qi nx frag r :
  (length qi < fuel)%nat -> (m < length ps)%nat -> NoDup qi ->
  Forall (fun j => m < j < length ps)%nat qi ->
  in_order dir frag (drop m ps) = Ok r ->
  exists m' qi' frag' out,
    command_loop fuel dir {| cs_next := nx; cs_queue := pk <$> qi; cs_frag := frag |} (pk m)
      (wrap 16 (n + Z.of_nat m))
    = Some (Ok ({| cs_next := id_add_n nx (m' - m); cs_queue := pk <$> qi'; cs_frag := frag' |}, out)) /\
    (m < m' <= length ps)%nat /\ in_order dir frag (take (m' - m) (drop m ps)) = Ok (frag', out) /\
    NoDup qi' /\ (m' ∉ qi') /\ (forall j, j ∈ qi' <-> j ∈ qi /\ m' <= j)%nat /\
    (forall j, m < j < m' -> j ∈ qi)%nat.
Proof.
  revert m qi nx frag r. induction fuel as [|fuel IH]; intros m qi nx frag r Hf Hm Hnd Hq Hr; [lia|].
  assert (drop m ps = pk m :: drop (S m) ps) as Hd by by apply drop_S, pk_lookup.
  rewrite Hd in Hr. cbn [in_order] in Hr. inv_binds. destruct a as [res frag1]. inv_binds.
  destruct a as [frag2 out2]. cbn [command_loop cs_frag cs_queue cs_next]. rewrite Ha, wrap16_add.
  replace (Z.of_nat m + 1) with (Z.of_nat (S m)) by lia.
  assert (Forall (fun i => i < length ps)%nat qi) as Hq' by (eapply Forall_impl; [exact Hq|]; simpl; lia).
  destruct (find_spec qi (S m) Hq' ltac:(lia)) as [[Hn ->]|(pos & Hpos & ->)].
  - exists (S m), qi, frag1, (match res with Some p => [p] | None => [] end).
    replace (S m - m)%nat with 1%nat by lia. split; [done|]. split; [lia|]. split.
    { rewrite Hd. simpl. rewrite Ha. simpl. by rewrite app_nil_r. }
    split; [done|]. split; [done|]. split.
    + intros j. split; [|tauto]. intros Hj. split; [done|].
      rewrite Forall_forall in Hq. specialize (Hq j Hj). lia.
    + intros j Hj. lia.
  - rewrite list_lookup_fmap, Hpos. cbn [fmap option_fmap option_map].
    assert (qi = take pos qi ++ S m :: drop (S pos) qi) as Hsplit
      by by rewrite <- (drop_S _ _ _ Hpos), take_drop.
    set (qi1 := take pos qi ++ drop (S pos) qi).
    assert (take pos (pk <$> qi) ++ drop (S pos) (pk <$> qi) = pk <$> qi1) as ->
      by (unfold qi1; by rewrite fmap_app, fmap_take, fmap_drop).
    assert (qi ≡ₚ S m :: qi1) as Hperm.
    { rewrite Hsplit at 1. unfold qi1. by rewrite Permutation_middle. }
    pose proof Hnd as Hnd'. rewrite Hperm in Hnd'. apply NoDup_cons in Hnd' as [Hni Hnd1].
    assert (Forall (fun j => S m < j < length ps)%nat qi1) as Hq1.
    { apply Forall_forall. intros j Hj. rewrite Forall_forall in Hq.
      assert (j ∈ qi) as Hjq by (rewrite Hperm; by right). specialize (Hq j Hjq).
      assert (j <> S m) by (intros ->; done). lia. }
    assert (S m < length ps)%nat as Hm'.
    { rewrite Forall_forall in Hq. apply (Hq (S m)). rewrite Hperm. left. }
    destruct (IH (S m) qi1 (PartialPacketId_add nx 1) frag1 (frag2, out2))
      as (m' & qi' & frag' & out & -> & Hm1 & Hio & Hnd2 & Hni2 & Hiff & Hin).
    { apply Permutation_length in Hperm. simpl in Hperm. lia. }
    { done. } { done. } { done. } { done. }
    exists m', qi', frag', (match res with Some p => [p] | None => [] end ++ out).
    split.
    { do 4 f_equal. change (PartialPacketId_add nx 1) with (id_add_n nx 1).
      rewrite id_add_n_add. f_equal. lia. }
    split; [lia|]. split.
    { rewrite Hd. replace (m' - m)%nat with (S (m' - S m)) by lia. cbn [take].
      by eapply in_order_cons. }
    split; [done|]. split; [done|]. split.
    + intros j. rewrite Hiff, Hperm, elem_of_cons. split; [intros [? ?]; split; [by right|done]|].
      intros [[->|Hj] Hle]; [lia|done].
    + intros j Hj. rewrite Hperm. destruct (decide (j = S m)) as [->|?]; [left|]. right. apply Hin. lia.
Qed.

(** The state after the packets with the indices [seen] have arrived. *)
Definition reorder_inv (nx0 : PartialPacketId) (frag0 : option (list Z)) (seen : list nat)
    (s : CommandState) (out : list (list Z)) : Prop :=
  exists m qi,
    (m <= length ps)%nat /\ (forall j, j < m -> j ∈ seen)%nat /\ (m ∉ seen) /\
    NoDup qi /\ (forall j, j ∈ qi <-> j ∈ seen /\ m < j)%nat /\
    cs_next s = id_add_n nx0 m /\ cs_queue s = pk <$> qi /\
    in_order dir frag0 (take m ps) = Ok (cs_frag s, out).

Lemma in_packet_pk i : (i < length ps)%nat ->
  exists p, InPacket_new dir (pk i) = Ok p /\
    InHeader_packet_id (ip_header p) = Ok (wrap 16 (n + Z.of_nat i)).
Proof.
  intros Hi. pose proof (pk_id i Hi) as Hid. unfold header_id in Hid.
  unfold InPacket_new. destruct (InHeader_new dir (pk i)) as [h| |] eqn:Hh; [|done..].
  cbn [packet_op map_err res_bind] in *.
  unfold InHeader_new, slice_to in Hh. case_bool_decide as Hl; [|done].
  injection Hh as <-. cbn [ih_data].
  rewrite slice_from_ok by (rewrite length_take; lia). cbn [res_bind].
  eexists. split; [done|]. cbn [ip_header].
  by destruct (InHeader_packet_id _) as [z| |]; simplify_eq/=.
Qed.

Lemma step_spec nx0 frag0 seen s out j r :
  packet_id nx0 = n -> is_u16 n -> in_order dir frag0 ps = Ok r ->
  Forall (fun i => i < length ps)%nat seen -> (j < length ps)%nat -> j ∉ seen ->
  reorder_inv nx0 frag0 seen s out ->
  exists s' out', command_step dir s (pk j) = Ok (s', out') /\
    reorder_inv nx0 frag0 (j :: seen) s' (out ++ out').
Proof.
  intros Hn Hn16 Hall Hseen Hj Hjs (m & qi & Hm & Hbelow & Hms & Hnd & Hqi & Hnext & Hqueue & Hout).
  assert (is_u16 (packet_id nx0)) as Hnx16 by by rewrite Hn.
  destruct s as [nx queue frag]. cbn [cs_next cs_queue cs_frag] in *. subst nx queue.
  assert (m <= j)%nat as Hmj by (destruct (decide (j < m)%nat) as [Hlt|?]; [by apply Hbelow in Hlt|lia]).
  destruct (in_packet_pk j Hj) as (p & Hp & Hpid).
  unfold command_step. rewrite Hp. cbn [packet_op map_err res_bind]. rewrite Hpid.
  cbn [packet_op map_err res_bind cs_next cs_queue].
  rewrite id_add_n_packet_id, Hn by done.
  destruct (Z.eqb_spec (wrap 16 (n + Z.of_nat m)) (wrap 16 (n + Z.of_nat j))) as [He|Hne].
  - apply wrap16_inj in He as ->; [|lia|lia].
    rewrite <- (take_drop j ps) in Hall.
    destruct (in_order_app _ _ _ _ _ Hall) as (f1 & o1 & f2 & o2 & H1' & H2' & _).
    rewrite Hout in H1'. injection H1' as <- <-.
    rewrite length_fmap.
    destruct (loop_spec (S (length qi)) j qi (id_add_n nx0 j) frag (f2, o2))
      as (m' & qi' & frag' & out' & -> & Hm' & Hio & Hnd' & Hni' & Hiff & Hin);
      [lia|done|done| |done|].
    { apply Forall_forall. intros i Hi. apply Hqi in Hi as [Hi ?].
      rewrite Forall_forall in Hseen. specialize (Hseen i Hi). lia. }
    eexists _, _. split; [done|]. exists m', qi'. cbn [cs_next cs_queue cs_frag].
    split; [lia|]. split.
    { intros i Hi. destruct (decide (i < j)%nat) as [?|?]; [right; by apply Hbelow|].
      destruct (decide (i = j)) as [->|?]; [left|]. right. apply Hqi, Hin. lia. }
    split.
    { rewrite not_elem_of_cons. split; [lia|]. intros Hs. apply Hni', Hiff.
      split; [|lia]. apply Hqi. split; [done|lia]. }
    split; [done|]. split.
    { intros i. rewrite Hiff, Hqi, elem_of_cons. split.
      - intros [[Hs ?] Hle]. split; [by right|].
        assert (i <> m'); [|lia]. intros ->. apply Hni', Hiff. split; [|lia]. by apply Hqi.
      - intros [[->|Hs] ?]; [lia|]. repeat split; [done|lia|lia]. }
    rewrite id_add_n_add. split; [f_equal; lia|]. split; [done|].
    replace m' with (j + (m' - j))%nat at 1 by lia. rewrite <- take_take_drop.
    by eapply in_order_cat.
  - assert (m < j)%nat as Hlt by (assert (m <> j) by (by intros ->); lia).
    pose proof (queue_window (wrap 16 (n + Z.of_nat m)) (Z.of_nat j - Z.of_nat m)
      (wrap_uint 16 _ ltac:(lia)) ltac:(lia)) as Hwin.
    destruct (overflowing 16 (wrap 16 (n + Z.of_nat m) + MAX_QUEUE_LEN)) as [limit next_gen].
    cbv zeta in Hwin. rewrite wrap16_add in Hwin.
    replace (n + (Z.of_nat m + (Z.of_nat j - Z.of_nat m))) with (n + Z.of_nat j) in Hwin by lia.
    rewrite Hwin. eexists _, _. split; [done|]. exists m, (qi ++ [j]).
    cbn [cs_next cs_queue cs_frag]. rewrite app_nil_r.
    split; [done|]. split; [intros i Hi; right; by apply Hbelow|].
    split; [rewrite not_elem_of_cons; split; [lia|done]|]. split.
    { apply NoDup_app. split; [done|]. split; [|apply NoDup_singleton].
      intros i Hi ->%list_elem_of_singleton. apply Hqi in Hi as [? _]. done. }
    split.
    { intros i. rewrite elem_of_app, list_elem_of_singleton, Hqi, elem_of_cons.
      split; [intros [[? ?]| ->]; tauto|]. intros [[->|?] ?]; tauto. }
    split; [done|]. split; [by rewrite fmap_app|done].
Qed.

(** ** The whole codec *)

Context (is_client : bool) (t : PacketType).
Context (Hdir : dir = in_dir is_client) (Hcmd : PacketType_is_command t = true).
Context (Htype : of_type dir t ps).

Definition codec_ok (c : PacketCodec) : Prop :=
  length (outgoing_p_ids c) = 8%nat /\ length (receive_queue c) = 2%nat /\
  length (fragmented_queue c) = 2%nat /\ length (incoming_p_ids c) = 8%nat.

Lemma command_set_get c s :
  codec_ok c -> PacketCodec_command (PacketCodec_set_command c t s) t = Ok s.
Proof.
  intros (_ & Hq & Hf & Hi). unfold PacketCodec_command, PacketCodec_set_command.
  cbn [receive_queue fragmented_queue incoming_p_ids].
  unfold index. rewrite !list_lookup_insert_eq; [by destruct s|..].
  - rewrite Hi. destruct t; vm_compute; try lia. all: done.
  - rewrite Hf. destruct t; vm_compute; lia.
  - rewrite Hq. destruct t; vm_compute; lia.
Qed.

Lemma command_set_set c s s' :
  PacketCodec_set_command (PacketCodec_set_command c t s) t s' = PacketCodec_set_command c t s'.
Proof. unfold PacketCodec_set_command. simpl. by rewrite !list_insert_insert_eq. Qed.

Lemma command_set_same c s :
  PacketCodec_command c t = Ok s -> PacketCodec_set_command c t s = c.
Proof.
  unfold PacketCodec_command, index. intros Hc.
  destruct (receive_queue c !! cmd_index t) eqn:Hq; [|done]. cbn [unwrap res_bind] in Hc.
  destruct (fragmented_queue c !! cmd_index t) eqn:Hf; [|done]. cbn [unwrap res_bind] in Hc.
  destruct (incoming_p_ids c !! type_index t) eqn:Hi; [|done]. cbn [unwrap res_bind] in Hc.
  injection Hc as <-. destruct c. unfold PacketCodec_set_command. simpl in *.
  by rewrite !list_insert_id.
Qed.

Lemma set_command_ok c s : codec_ok c -> codec_ok (PacketCodec_set_command c t s).
Proof.
  unfold codec_ok, PacketCodec_set_command.
  cbn [outgoing_p_ids receive_queue fragmented_queue incoming_p_ids].
  by rewrite !length_insert.
Qed.

Lemma in_packet_type j : (j < length ps)%nat ->
  exists p, InPacket_new dir (pk j) = Ok p /\ InHeader_packet_type (ip_header p) = Ok t.
Proof.
  intros Hj. destruct (in_packet_pk j Hj) as (p & Hp & _). exists p. split; [done|].
  unfold of_type in Htype. rewrite Forall_forall in Htype.
  destruct (Htype (pk j)) as (h & Hh & Ht); [by eapply list_elem_of_lookup_2, pk_lookup|].
  unfold InPacket_new in Hp. rewrite Hh in Hp. cbn [res_bind] in Hp.
  destruct (slice_from _ _); [|done..]. by injection Hp as <-.
Qed.

Lemma receive_spec nx0 frag0 r order seen c s out :
  packet_id nx0 = n -> is_u16 n -> in_order dir frag0 ps = Ok r -> codec_ok c ->
  NoDup (order ++ seen) -> Forall (fun i => i < length ps)%nat (order ++ seen) ->
  reorder_inv nx0 frag0 seen s out ->
  exists s' out',
    receive_commands is_client (PacketCodec_set_command c t s) (pk <$> order)
      = Ok (PacketCodec_set_command c t s', out') /\
    reorder_inv nx0 frag0 (reverse order ++ seen) s' (out ++ out').
Proof.
  intros Hn Hn16 Hr Hc. revert seen s out.
  induction order as [|j order IH]; intros seen s out Hnd Hlt Hinv.
  { exists s, []. split; [done|]. by rewrite app_nil_r. }
  cbn [app] in Hnd, Hlt. apply NoDup_cons in Hnd as [Hj Hnd]. apply Forall_cons_1 in Hlt as [Hjl Hlt].
  apply not_elem_of_app in Hj as [Hjo Hjs]. pose proof Hlt as Hlt'. apply Forall_app in Hlt' as [_ Hls].
  destruct (step_spec nx0 frag0 seen s out j r Hn Hn16 Hr Hls Hjl Hjs Hinv) as (s1 & out1 & Hstep & Hinv1).
  destruct (IH (j :: seen) s1 (out ++ out1)) as (s' & out' & Hrec & Hinv').
  { rewrite <- Permutation_middle. apply NoDup_cons. split; [|done]. by apply not_elem_of_app. }
  { rewrite <- Permutation_middle. by constructor. }
  { done. }
  exists s', (out1 ++ out'). split.
  - cbn [fmap list_fmap receive_commands]. unfold handle_command_packet. rewrite <- Hdir.
    destruct (in_packet_type j Hjl) as (p & Hp & Ht). rewrite Hp.
    cbn [packet_op map_err res_bind]. rewrite Ht. cbn [packet_op map_err res_bind].
    rewrite command_set_get by done. cbn [res_bind]. rewrite Hstep. cbn [res_bind].
    rewrite command_set_set. change (list_fmap nat (list Z) pk order) with (pk <$> order).
    rewrite Hrec. done.
  - rewrite <- app_assoc in Hinv'. by rewrite reverse_cons, <- app_assoc.
Qed.

Lemma reorder_all nx0 frag0 r order c :
  packet_id nx0 = n -> is_u16 n -> in_order dir frag0 ps = Ok r -> codec_ok c ->
  order ≡ₚ seq 0 (length ps) ->
  PacketCodec_command c t = Ok {| cs_next := nx0; cs_queue := []; cs_frag := frag0 |} ->
  receive_commands is_client c (pk <$> order)
  = Ok (PacketCodec_set_command c t
      {| cs_next := id_add_n nx0 (length ps); cs_queue := []; cs_frag := fst r |}, snd r).
Proof.
  intros Hn Hn16 Hr Hc Horder Hcs. rewrite <- (command_set_same c _ Hcs) at 1.
  destruct (receive_spec nx0 frag0 r order [] c
    {| cs_next := nx0; cs_queue := []; cs_frag := frag0 |} []) as (s' & out & -> & Hinv);
    try done.
  - rewrite app_nil_r, Horder. apply NoDup_seq.
  - rewrite app_nil_r, Horder. apply Forall_forall. intros i Hi%elem_of_seq. lia.
  - exists 0%nat, []. split; [lia|]. split; [lia|]. split; [apply not_elem_of_nil|].
    split; [constructor|]. split; [|done]. intros j. split; [by intros ?%not_elem_of_nil|].
    by intros [?%not_elem_of_nil _].
  - destruct Hinv as (m & qi & Hm & Hbelow & Hms & Hnd & Hqi & Hnext & Hqueue & Hout).
    rewrite app_nil_r in Hms, Hqi. cbn [app] in Hout.
    assert (m = length ps) as ->.
    { destruct (decide (m = length ps)) as [|Hne]; [done|]. exfalso. apply Hms.
      rewrite elem_of_reverse, Horder. apply elem_of_seq. lia. }
    assert (qi = []) as ->.
    { destruct qi as [|j qi]; [done|]. exfalso.
      destruct (proj1 (Hqi j) ltac:(left)) as [Hj ?].
      rewrite elem_of_reverse, Horder, elem_of_seq in Hj. lia. }
    rewrite firstn_all, Hr in Hout. destruct r as [fr o]. injection Hout as -> ->.
    destruct s' as [nx q f]. simpl in *. by subst.
Qed.

End reorder.

(** * Properties *)

Section properties.
Context `{BeIoLaws, Quicklz, EaxCipher, Sha256}.

Lemma reordered_commands_lemma (is_client : bool) (c : PacketCodec) (t : PacketType)
    (next : PartialPacketId) (frag frag' : option (list Z)) (ps arrived out : list (list Z))
    (Hc : codec_ok c) (Ht : PacketType_is_command t = true) (Hn : is_u16 (packet_id next))
    (Hstate : PacketCodec_command c t = Ok {| cs_next := next; cs_queue := []; cs_frag := frag |})
    (Hlen : (length ps <= 200)%nat)
    (Hnum : numbered (in_dir is_client) (packet_id next) ps)
    (Htype : of_type (in_dir is_client) t ps)
    (Hout : in_order (in_dir is_client) frag ps = Ok (frag', out))
    (Harr : Permutation arrived ps) :
  receive_commands is_client c arrived
  = Ok (PacketCodec_set_command c t
      {| cs_next := id_add_n next (length ps); cs_queue := []; cs_frag := frag' |}, out).
Proof.
  assert (ps = pk ps <$> seq 0 (length ps)) as Hps.
  { apply list_eq. intros i. rewrite list_lookup_fmap.
    destruct (decide (i < length ps)%nat) as [Hi|Hi].
    - rewrite lookup_seq_lt by done. simpl. by apply pk_lookup.
    - rewrite lookup_seq_ge by lia. apply lookup_ge_None. lia. }
  rewrite Hps in Harr. apply Permutation_map_inv in Harr as (order & -> & Horder).
  by apply (reorder_all (in_dir is_client) (packet_id next) ps Hnum Hlen is_client t eq_refl Ht
    Htype next frag (frag', out) order c).
Qed.

(** C6: command packets are handled in the right order.  Take up to 200 command packets with
    consecutive ids, beginning at the next expected one (ids wrap around at 2^16), that can be
    handled without an error one after the other.  In whatever order they arrive, the codec
    finishes exactly the commands, in exactly the sequence, of the in-order arrival; afterwards
    no packet is left in the queue, the pending fragments are those of the in-order arrival, and
    the next expected id has advanced by the number of packets. *)
Theorem reordered_commands (is_client : bool) (c : PacketCodec) (t : PacketType)
    (next : PartialPacketId) (frag frag' : option (list Z)) (ps arrived out : list (list Z))
    (Hc : codec_ok c) (Ht : PacketType_is_command t = true) (Hn : is_u16 (packet_id next))
    (Hstate : PacketCodec_command c t = Ok {| cs_next := next; cs_queue := []; cs_frag := frag |})
    (Hlen : (length ps <= 200)%nat)
    (Hnum : numbered (in_dir is_client) (packet_id next) ps)
    (Htype : of_type (in_dir is_client) t ps)
    (Hout : in_order (in_dir is_client) frag ps = Ok (frag', out))
    (Harr : Permutation arrived ps) :
  receive_commands is_client c arrived
  = Ok (PacketCodec_set_command c t
      {| cs_next := id_add_n next (length ps); cs_queue := []; cs_frag := frag' |}, out).
Proof. by eapply reordered_commands_lemma. Qed.

(** The out-of-order branch: the packet is queued, whether or not it already is in the queue. *)
Lemma queue_early dir s p h d :
  is_u16 (packet_id (cs_next s)) -> 0 < d < 200 -> InPacket_new dir p = Ok h ->
  InHeader_packet_id (ip_header h) = Ok (wrap 16 (packet_id (cs_next s) + d)) ->
  command_step dir s p
  = Ok ({| cs_next := cs_next s; cs_queue := cs_queue s ++ [p]; cs_frag := cs_frag s |}, []).
Proof.
  intros Hn Hd Hp Hid. unfold command_step. rewrite Hp. cbn [packet_op map_err res_bind].
  rewrite Hid. cbn [packet_op map_err res_bind].
  assert (packet_id (cs_next s) <> wrap 16 (packet_id (cs_next s) + d)) as Hne.
  { unfold wrap, is_uint in *. change (2 ^ 16) with 65536 in *. intros He.
    pose proof (Z.div_mod (packet_id (cs_next s) + d) 65536). lia. }
  rewrite (proj2 (Z.eqb_neq _ _)) by done.
  pose proof (queue_window (packet_id (cs_next s)) d Hn Hd) as Hw.
  destruct (overflowing 16 _) as [limit next_gen]. cbv zeta in Hw. by rewrite Hw.
Qed.

(** A command packet that arrives twice before its predecessor is queued twice, but only one
    copy is taken out: after the predecessor has arrived and both commands are finished, the
    second copy is still in the queue, although its id lies behind the next expected id.  It
    stays there until the ids have wrapped around, when it is handled in the place of the packet
    that then has its id. *)
Theorem duplicate_stays_queued (dir : Direction) (next : PartialPacketId) (frag : option (list Z))
    (p0 p1 : list Z) (h0 h1 : InPacket) (r0 r1 : option (list Z)) (f0 f1 : option (list Z))
    (Hn : is_u16 (packet_id next))
    (Hp0 : InPacket_new dir p0 = Ok h0) (Hp1 : InPacket_new dir p1 = Ok h1)
    (Hi0 : InHeader_packet_id (ip_header h0) = Ok (packet_id next))
    (Hi1 : InHeader_packet_id (ip_header h1) = Ok (wrap 16 (packet_id next + 1)))
    (Hr0 : handle_in_order dir frag p0 = Ok (r0, f0)) (Hr1 : handle_in_order dir f0 p1 = Ok (r1, f1)) :
  exists s1 s2,
    command_step dir {| cs_next := next; cs_queue := []; cs_frag := frag |} p1 = Ok (s1, []) /\
    command_step dir s1 p1 = Ok (s2, []) /\
    command_step dir s2 p0
    = Ok ({| cs_next := id_add_n next 2; cs_queue := [p1]; cs_frag := f1 |},
          match r0 with Some p => [p] | None => [] end ++
          match r1 with Some p => [p] | None => [] end).
Proof.
  eexists _, _.
  split; [by eapply (queue_early dir _ p1 h1 1)|]. split; [by eapply (queue_early dir _ p1 h1 1)|].
  cbn [cs_next cs_queue cs_frag app]. unfold command_step at 1. rewrite Hp0.
  cbn [packet_op map_err res_bind]. rewrite Hi0. cbn [packet_op map_err res_bind].
  rewrite Z.eqb_refl.
  assert (header_id dir p1 = Ok (wrap 16 (packet_id next + 1))) as Hid1.
  { unfold header_id. unfold InPacket_new in Hp1.
    destruct (InHeader_new dir p1) as [h| |]; [|done..]. cbn [packet_op map_err res_bind] in *.
    destruct (slice_from _ _); [|done..]. injection Hp1 as <-. cbn [ip_header] in Hi1.
    by rewrite Hi1. }
  cbn [command_loop cs_next cs_queue cs_frag length]. rewrite Hr0. cbn [find_packet].
  rewrite Hid1. cbn [res_bind]. rewrite Z.eqb_refl. cbn [lookup list_lookup take drop app].
  rewrite Hr1. cbn [find_packet]. rewrite Hid1. cbn [res_bind].
  rewrite (proj2 (Z.eqb_neq _ _)); [|].
  - done.
  - rewrite wrap16_add. intros He.
    unfold wrap in He. change (2 ^ 16) with 65536 in He.
    pose proof (Z.div_mod (packet_id next + 1) 65536).
    pose proof (Z.div_mod (packet_id next + (1 + 1)) 65536). lia.
Qed.
End properties.

(** * Witnesses *)

(** An unfragmented server command. *)
Definition sample (hi lo c : Z) : list Z := replicate 8 0 ++ [hi; lo; 2; c].

Definition sample_codec : PacketCodec :=
  PacketCodec_set_command PacketCodec_default Command
    {| cs_next := {| generation_id := 0; packet_id := 65535 |}; cs_queue := []; cs_frag := None |}.

Lemma reordered_commands_witness :
  receive_commands true sample_codec [sample 0 1 12; sample 255 255 10; sample 0 0 11]
  = Ok (PacketCodec_set_command sample_codec Command
      {| cs_next := {| generation_id := 1; packet_id := 2 |}; cs_queue := []; cs_frag := None |},
      [sample 255 255 10; sample 0 0 11; sample 0 1 12]).
Proof.
  apply (reordered_commands true sample_codec Command {| generation_id := 0; packet_id := 65535 |}
    None None [sample 255 255 10; sample 0 0 11; sample 0 1 12]).
  - repeat split.
  - reflexivity.
  - by vm_compute.
  - reflexivity.
  - simpl. lia.
  - intros [|[|[|i]]] p Hp; simplify_eq/=; reflexivity.
  - repeat constructor; eexists; split; reflexivity.
  - reflexivity.
  - apply (Permutation_app_comm [sample 0 1 12] [sample 255 255 10; sample 0 0 11]).
Defined.

Lemma duplicate_stays_queued_witness : exists s1 s2,
  command_step S2C {| cs_next := PartialPacketId_default; cs_queue := []; cs_frag := None |}
    (sample 0 1 11) = Ok (s1, []) /\
  command_step S2C s1 (sample 0 1 11) = Ok (s2, []) /\
  command_step S2C s2 (sample 0 0 10)
  = Ok ({| cs_next := {| generation_id := 0; packet_id := 2 |}; cs_queue := [sample 0 1 11];
           cs_frag := None |}, [sample 0 0 10; sample 0 1 11]).
Proof.
  eapply (duplicate_stays_queued S2C PartialPacketId_default None (sample 0 0 10) (sample 0 1 11)
    _ _ (Some (sample 0 0 10)) (Some (sample 0 1 11)) None None); try reflexivity.
  by vm_compute.
Defined.
