(* ===== verification/Delivery.v ===== *)
(** End-to-end delivery of commands: the parts that [compress_and_split] makes of a command
    ([Algorithms]) are put together again by the codec of the receiver ([Codec]), whatever order
    they arrive in. *)
From S2P Require Import Prelude ByteIO Packets PacketId Algorithms Codec.
From stdpp Require Import strings.
#[local] Open Scope Z_scope.

(** The flags of the codec itself are not set on the packet that is sent. *)
Definition clean_flags (f : Z) : Prop := Z.land f (Z.lor COMPRESSED FRAGMENTED) = 0.

Lemma clean_land f g : clean_flags f -> Z.land (Z.lor COMPRESSED FRAGMENTED) g = g -> Z.land f g = 0.
Proof. intros Hf Hg. rewrite <- Hg, Z.land_assoc, Hf. apply Z.land_0_l. Qed.

Lemma contains_or f g h : clean_flags f -> Z.land (Z.lor COMPRESSED FRAGMENTED) h = h ->
  Flags_contains (Flags_or f g) h = Flags_contains g h.
Proof.
  intros Hf Hh. unfold Flags_contains, Flags_or.
  rewrite Z.land_lor_distr_l, (clean_land f h Hf Hh), Z.lor_0_l. done.
Qed.

Lemma contains_fragmented f c len i : clean_flags f ->
  Flags_contains (Flags_or f (fragment_flags c len i)) FRAGMENTED
  = bool_decide (1 < len)%nat && (bool_decide (i = 0%nat) || bool_decide (i = (len - 1)%nat)).
Proof.
  intros Hf. rewrite contains_or by done. unfold fragment_flags.
  by destruct (bool_decide (i = 0%nat) && c), (bool_decide (1 < len)%nat && _).
Qed.

Lemma contains_compressed f c len i : clean_flags f ->
  Flags_contains (Flags_or f (fragment_flags c len i)) COMPRESSED = bool_decide (i = 0%nat) && c.
Proof.
  intros Hf. rewrite contains_or by done. unfold fragment_flags.
  by destruct (bool_decide (i = 0%nat) && c), (bool_decide (1 < len)%nat && _).
Qed.

Section delivery.
Context `{BeIoLaws, QuicklzLaws, EaxCipher, Sha256}.

(** The header of part [i] of [len]. *)
Definition part_layout (L : Layout) (compressed : bool) (n : Z) (len i : nat) : Layout :=
  with_id (with_flags L (Flags_or (layout_flags L) (fragment_flags compressed len i)))
    (wrap 16 (n + Z.of_nat i)).

(** Setting consecutive packet ids on the parts. *)
Fixpoint number_parts (n : Z) (ps : list OutPacket) : res PacketError (list (list Z)) :=
  match ps with
  | [] => Ok []
  | p :: ps =>
      let? p := OutPacket_packet_id p (wrap 16 n) in
      let? rest := number_parts (n + 1) ps in
      Ok (op_data p :: rest)
  end.

Context (dir : Direction) (L : Layout) (t : PacketType).
Context (HL : layout_ok dir L) (Ht : layout_type L = Some t).
Context (Hclean : clean_flags (layout_flags L)).

Definition part_data (compressed : bool) (n : Z) (len i : nat) (chunk : list Z) : list Z :=
  layout_bytes (part_layout L compressed n len i) ++ chunk.

Lemma part_layout_ok c n len i : layout_ok dir (part_layout L c n len i).
Proof.
  apply with_id_ok, with_flags_ok; [done|]. apply is_flags_or; [by apply (layout_flags_ok dir)|].
  apply fragment_flags_ok.
Qed.

Lemma part_layout_read c n len i :
  layout_flags (part_layout L c n len i)
    = Flags_or (layout_flags L) (fragment_flags c len i) /\
  layout_type (part_layout L c n len i) = Some t.
Proof.
  unfold part_layout.
  change (layout_flags (with_id ?l _)) with (layout_flags l).
  assert (is_flags (Flags_or (layout_flags L) (fragment_flags c len i))) as Hf
    by (apply is_flags_or; [by apply (layout_flags_ok dir)|apply fragment_flags_ok]).
  destruct (with_flags_read L _ Hf) as [H1' H2']. split; [exact H1'|].
  by rewrite <- Ht, <- H2'.
Qed.

Lemma number_parts_eq c n len k chunks :
  number_parts (n + Z.of_nat k) (imap (fun i chunk => layout_packet dir
      (with_flags L (Flags_or (layout_flags L) (fragment_flags c len (k + i)))) chunk) chunks)
  = Ok (imap (fun i chunk => part_data c n len (k + i) chunk) chunks).
Proof.
  revert k. induction chunks as [|chunk chunks IH]; intros k; [done|].
  cbn [imap number_parts]. rewrite packet_id_packet.
  2: { apply with_flags_ok; [done|]. apply is_flags_or; [by apply (layout_flags_ok dir)|].
       apply fragment_flags_ok. }
  cbn [res_bind]. replace (n + Z.of_nat k + 1) with (n + Z.of_nat (S k)) by lia.
  rewrite (imap_ext _ (fun i chunk => layout_packet dir (with_flags L (Flags_or (layout_flags L)
    (fragment_flags c len (S k + i)))) chunk)) by (intros; simpl; by rewrite Nat.add_succ_r).
  rewrite IH. cbn [res_bind]. rewrite Nat.add_0_r. do 2 f_equal.
  apply imap_ext. intros. simpl. by rewrite Nat.add_succ_r.
Qed.

Lemma handle_part c n len i chunk frag :
  handle_in_order dir frag (part_data c n len i chunk) =
  if bool_decide (1 < len)%nat && (bool_decide (i = 0%nat) || bool_decide (i = (len - 1)%nat)) then
    match frag with
    | Some fq =>
        let fq := fq ++ chunk in
        let? header := packet_op (InPacket_new dir fq) in
        let? first_flags := packet_op (InHeader_flags (ip_header header)) in
        let? p := decompress dir fq first_flags in
        Ok (Some p, None)
    | None => Ok (None, Some (part_data c n len i chunk))
    end
  else
    match frag with
    | Some fq =>
        if bool_decide (length fq < MAX_FRAGMENTS_LENGTH)%nat then Ok (None, Some (fq ++ chunk))
        else Err (MaxLengthExceeded "fragment queue")
    | None =>
        let? p := decompress dir (part_data c n len i chunk)
          (Flags_or (layout_flags L) (fragment_flags c len i)) in
        Ok (Some p, None)
    end.
Proof.
  unfold handle_in_order, part_data. pose proof (part_layout_ok c n len i) as HLi.
  rewrite new_layout by done. cbn [packet_op map_err res_bind ip_header ip_content].
  rewrite flags_layout by done. cbn [packet_op map_err res_bind].
  destruct (part_layout_read c n len i) as [-> _]. by rewrite contains_fragmented.
Qed.

(** Decompressing what was sent gives the content back. *)
Lemma decompress_payload (c : bool) n len content data :
  bytes content -> Z.of_nat (length content) <= MAX_DECOMPRESSED_SIZE ->
  data = part_data c n len 0 (if c then qlz_compress content else content) ->
  decompress dir data (Flags_or (layout_flags L) (fragment_flags c len 0))
  = Ok (layout_bytes (part_layout L c n len 0) ++ content).
Proof.
  intros Hb Hs ->. unfold decompress. rewrite contains_compressed by done. simpl.
  destruct c; [|done]. unfold part_data.
  rewrite new_layout by apply part_layout_ok. cbn [packet_op map_err res_bind ip_header ip_content].
  rewrite qlz_roundtrip by done. cbn [ok_or res_bind ih_data layout_header].
  by rewrite take_app_length.
Qed.

(** The parts after the first, with the earlier ones in the fragment queue. *)
Lemma in_order_rest c n len k chunks fq result :
  (1 < len)%nat -> (0 < k)%nat -> (k + length chunks = len)%nat -> chunks <> [] ->
  (length fq + length (mjoin chunks) < MAX_FRAGMENTS_LENGTH)%nat ->
  (let? header := packet_op (InPacket_new dir (fq ++ mjoin chunks)) in
   let? first_flags := packet_op (InHeader_flags (ip_header header)) in
   decompress dir (fq ++ mjoin chunks) first_flags) = Ok result ->
  in_order dir (Some fq) (imap (fun i chunk => part_data c n len (k + i) chunk) chunks)
  = Ok (None, [result]).
Proof.
  intros Hlen. revert k fq. induction chunks as [|chunk chunks IH]; intros k fq Hk Hkl Hne Hmax Hres;
    [done|].
  cbn [imap in_order]. rewrite Nat.add_0_r, handle_part.
  rewrite (bool_decide_true (1 < len)%nat), (bool_decide_false (k = 0%nat)) by lia. cbn [andb orb].
  change (mjoin (chunk :: chunks)) with (chunk ++ mjoin chunks) in *. rewrite length_app in Hmax.
  destruct chunks as [|chunk2 chunks].
  - rewrite bool_decide_true by (simpl in Hkl; lia). cbn [mjoin list_join] in Hres.
    rewrite app_nil_r in Hres. cbv zeta. inv_binds. rewrite Ha. cbn [res_bind]. rewrite Ha0.
    cbn [res_bind]. rewrite Hres. done.
  - rewrite bool_decide_false by (simpl in Hkl; lia). rewrite bool_decide_true by lia.
    cbn [res_bind].
    rewrite (imap_ext _ (fun i chunk => part_data c n len (S k + i) chunk))
      by (intros; simpl; by rewrite Nat.add_succ_r).
    rewrite (IH (S k) (fq ++ chunk)); [done|lia|simpl in *; lia|done| |].
    + rewrite length_app. lia.
    + by rewrite <- app_assoc.
Qed.

(** All parts, in order: one finished command. *)
Lemma in_order_parts (c : bool) n (chunks : list (list Z)) (content : list Z) :
  bytes content -> Z.of_nat (length content) <= MAX_DECOMPRESSED_SIZE -> chunks <> [] ->
  mjoin chunks = (if c then qlz_compress content else content) ->
  (header_len dir + length (mjoin chunks) < MAX_FRAGMENTS_LENGTH)%nat ->
  in_order dir None (imap (fun i chunk => part_data c n (length chunks) i chunk) chunks)
  = Ok (None, [layout_bytes (part_layout L c n (length chunks) 0) ++ content]).
Proof.
  intros Hb Hs Hne Hj Hmax. destruct chunks as [|chunk chunks]; [done|].
  cbn [imap in_order]. rewrite handle_part. cbn [bool_decide].
  change (mjoin (chunk :: chunks)) with (chunk ++ mjoin chunks) in *.
  destruct chunks as [|chunk2 chunks].
  - cbn [length]. rewrite (bool_decide_false (1 < 1)%nat) by lia. cbn [andb].
    cbn [mjoin list_join] in Hj. rewrite app_nil_r in Hj. subst chunk.
    rewrite (decompress_payload c n 1 content) by done. done.
  - set (rest := chunk2 :: chunks) in *. set (len := length (chunk :: rest)).
    assert (1 < len)%nat as Hlen by (unfold len, rest; simpl; lia).
    rewrite (bool_decide_true (1 < len)%nat), (bool_decide_true (0%nat = 0%nat)) by done.
    cbn [andb orb res_bind].
    rewrite (in_order_rest c n len 1 rest _
      (layout_bytes (part_layout L c n len 0) ++ content));
      [done|done|lia|done|done| |].
    + unfold part_data. rewrite length_app, (layout_length dir) by apply part_layout_ok.
      rewrite length_app in Hmax. lia.
    + unfold part_data. rewrite <- app_assoc. rewrite new_layout by apply part_layout_ok.
      cbn [packet_op map_err res_bind ip_header]. rewrite flags_layout by apply part_layout_ok.
      cbn [packet_op map_err res_bind]. destruct (part_layout_read c n len 0) as [-> _].
      apply decompress_payload; [done|done|]. unfold part_data. by rewrite Hj.
Qed.

Lemma part_header c n len i chunk :
  InHeader_new dir (part_data c n len i chunk)
  = Ok (layout_header dir (part_layout L c n len i)).
Proof.
  pose proof (new_layout dir (part_layout L c n len i) chunk (part_layout_ok c n len i)) as Hn.
  unfold InPacket_new in Hn. unfold part_data. destruct (InHeader_new _ _) as [h| |]; [|done..].
  cbn [res_bind] in Hn. destruct (slice_from _ _); [|done..]. by injection Hn as ->.
Qed.

Lemma parts_numbered c n len (chunks : list (list Z)) :
  numbered dir n (imap (fun i chunk => part_data c n len i chunk) chunks) /\
  of_type dir t (imap (fun i chunk => part_data c n len i chunk) chunks).
Proof.
  split.
  - intros i p Hp. rewrite list_lookup_imap in Hp.
    destruct (chunks !! i) as [chunk|]; [|done]. injection Hp as <-.
    unfold header_id. rewrite part_header. cbn [packet_op map_err res_bind].
    rewrite packet_id_layout by apply part_layout_ok. cbn [l_id part_layout with_id].
    rewrite (read_be_app 2 _ (wrap 16 (n + Z.of_nat i)) []); [done|by rewrite app_nil_r|].
    apply (wrap_uint 16). lia.
  - apply Forall_forall. intros p Hp. apply list_elem_of_lookup in Hp as [i Hp].
    rewrite list_lookup_imap in Hp. destruct (chunks !! i) as [chunk|]; [|done].
    injection Hp as <-. eexists. split; [apply part_header|].
    rewrite packet_type_layout by apply part_layout_ok.
    by destruct (part_layout_read c n len i) as [_ ->].
Qed.

End delivery.

Section properties.
Context `{BeIoLaws, QuicklzLaws, EaxLaws, Sha256Laws}.

(** C1: a command of any length that fits the receiver's limits is delivered: the sender
    compresses it if that helps, splits it and numbers the parts with consecutive ids (which may
    wrap around); whatever order the parts arrive in, the receiver gets exactly one command, its
    content is the content that was sent, its type is kept, and nothing is left pending. *)
Theorem command_delivery (is_client : bool) (L : Layout) (t : PacketType) (content : list Z)
    (c : PacketCodec) (next : PartialPacketId)
    (HL : layout_ok (in_dir is_client) L) (Ht : layout_type L = Some t)
    (Hcmd : PacketType_is_command t = true) (Hclean : clean_flags (layout_flags L))
    (Hb : bytes content) (Hsize : Z.of_nat (length content) <= MAX_DECOMPRESSED_SIZE)
    (Hmax : Z.of_nat (header_len (in_dir is_client)
              + length (snd (payload (in_dir is_client) content))) < 40960)
    (Hc : codec_ok c) (Hn : is_u16 (packet_id next))
    (Hstate : PacketCodec_command c t = Ok {| cs_next := next; cs_queue := []; cs_frag := None |}) :
  exists parts sent header,
    compress_and_split (is_client_dir (in_dir is_client))
      (layout_packet (in_dir is_client) L content) = Ok parts /\
    number_parts (packet_id next) parts = Ok sent /\
    layout_ok (in_dir is_client) header /\ layout_type header = Some t /\
    forall arrived, Permutation arrived sent ->
      receive_commands is_client c arrived
      = Ok (PacketCodec_set_command c t
          {| cs_next := id_add_n next (length parts); cs_queue := []; cs_frag := None |},
          [layout_bytes header ++ content]).
Proof.
  set (dir := in_dir is_client) in *.
  assert (t <> VoiceWhisper) as Hw by by intros ->.
  destruct (compress_and_split_parts dir L content t HL Ht Hw)
    as (chunks & Hcs & Hne & Hj & Hl & Hcount).
  set (z := fst (payload dir content)) in *.
  eexists _, (imap (fun i chunk => part_data L z (packet_id next) (length chunks) i chunk) chunks),
    (part_layout L z (packet_id next) (length chunks) 0).
  split; [exact Hcs|]. split.
  { pose proof (number_parts_eq dir L HL z (packet_id next) (length chunks) 0 chunks) as Hnp.
    by rewrite Z.add_0_r in Hnp. }
  split; [by apply part_layout_ok|]. split; [by apply (part_layout_read dir L t)|].
  intros arrived Harr. rewrite length_imap.
  destruct (parts_numbered dir L t HL Ht z (packet_id next) (length chunks) chunks) as [Hnum Hty].
  set (ps := imap _ chunks) in Harr, Hnum, Hty.
  assert (length ps = length chunks) as Hps by apply length_imap.
  rewrite <- Hps.
  replace (length ps) with (length chunks) at 2 by done.
  assert (header_len dir <= 13)%nat as Hh by (destruct dir; unfold header_len, C2S_HEADER_LEN,
    S2C_HEADER_LEN; lia).
  assert (length chunks <= 200)%nat as Hk.
  { assert (Z.of_nat ((length chunks - 1) * 487) < 40960); [|lia].
    assert ((length chunks - 1) * 487 <= (length chunks - 1) * (500 - header_len dir))%nat
      by (apply Nat.mul_le_mono_l; lia). lia. }
  eapply reordered_commands_lemma; try done; [by rewrite Hps|].
  apply (in_order_parts dir L t HL Ht Hclean); try done.
  - rewrite Hj. unfold z, payload. destruct (bool_decide _); [done|]. by destruct (bool_decide _).
  - rewrite Hj. unfold MAX_FRAGMENTS_LENGTH. lia.
Qed.
End properties.

Lemma command_delivery_witness : exists parts sent header,
  compress_and_split true (layout_packet C2S (fresh_layout C2S NEWPROTOCOL Command)
    (replicate 1000 5)) = Ok parts /\
  number_parts 65535 parts = Ok sent /\ length sent = 3%nat /\
  receive_commands false (PacketCodec_set_command PacketCodec_default Command
      {| cs_next := {| generation_id := 0; packet_id := 65535 |}; cs_queue := []; cs_frag := None |})
    (rev sent)
  = Ok (PacketCodec_set_command PacketCodec_default Command
      {| cs_next := {| generation_id := 1; packet_id := 2 |}; cs_queue := []; cs_frag := None |},
      [layout_bytes header ++ replicate 1000 5]).
Proof.
  destruct (command_delivery false (fresh_layout C2S NEWPROTOCOL Command) Command
    (replicate 1000 5)
    (PacketCodec_set_command PacketCodec_default Command
      {| cs_next := {| generation_id := 0; packet_id := 65535 |}; cs_queue := []; cs_frag := None |})
    {| generation_id := 0; packet_id := 65535 |})
    as (parts & sent & header & Hp & Hs & _ & _ & Hr).
  - apply fresh_layout_ok. by vm_compute.
  - reflexivity.
  - reflexivity.
  - reflexivity.
  - apply Forall_replicate. by vm_compute.
  - by vm_compute.
  - by vm_compute.
  - by vm_compute.
  - by vm_compute.
  - reflexivity.
  - exists parts, sent, header. split; [exact Hp|]. split; [exact Hs|].
    assert (length parts = 3%nat) as Hlen by (vm_compute in Hp; by injection Hp as <-).
    split; [vm_compute in Hp; injection Hp as <-; vm_compute in Hs; by injection Hs as <-|].
    rewrite (Hr (rev sent)) by (symmetry; apply Permutation_rev). by rewrite Hlen.
Defined.
