(* ===== verification/Encode.v ===== *)
(** Encoding of outgoing packets ([PacketCodec::encode_packet] of
    [tsproto/src/packet_codec.rs]): flags, client id, compression, splitting, packet ids and
    encryption, with the connection parameters of [tsproto/src/connection.rs]. *)
From S2P Require Import Prelude ByteIO Packets InitPackets PacketId Algorithms Codec Delivery.
From stdpp Require Import strings.
#[local] Open Scope Z_scope.

(** The public key of the other side is not used by the packet code and left out. *)
Record ConnectedParams := {
  c_id : Z;
  voice_encryption : bool;
  shared_iv : list Z;
  shared_mac : list Z;
  key_cache : KeyCache;
}.

Definition ConnectedParams_new (shared_iv shared_mac : list Z) : ConnectedParams := {|
  c_id := 0; voice_encryption := true; shared_iv := shared_iv; shared_mac := shared_mac;
  key_cache := KeyCache_default;
|}.

Definition with_cache (p : ConnectedParams) (cache : KeyCache) : ConnectedParams := {|
  c_id := c_id p; voice_encryption := voice_encryption p; shared_iv := shared_iv p;
  shared_mac := shared_mac p; key_cache := cache;
|}.

Definition with_outgoing (c : PacketCodec) (t : PacketType) (id : PartialPacketId) : PacketCodec := {|
  outgoing_p_ids := <[type_index t := id]> (outgoing_p_ids c);
  receive_queue := receive_queue c; fragmented_queue := fragmented_queue c;
  incoming_p_ids := incoming_p_ids c;
|}.

(** [l.starts_with(prefix)] *)
Definition starts_with (prefix l : list Z) : bool :=
  bool_decide (take (length prefix) l = prefix).

Definition packet_flags (p : OutPacket) : res TsError Z :=
  let? h := packet_op (OutPacket_header p) in packet_op (InHeader_flags h).

(** [packet.flags(packet.header().flags() | f)] *)
Definition add_flag (p : OutPacket) (f : Z) : res TsError OutPacket :=
  let? g := packet_flags p in
  packet_op (OutPacket_flags p (Flags_or g f)).

Section encode.
Context `{BeIo, Quicklz, EaxCipher, Sha256}.

(** The closure that is mapped over the packets. *)
Definition encode_part (p_type : PacketType) (fake_encrypt should_encrypt : bool)
    (params : option ConnectedParams) (codec : PacketCodec) (packet : OutPacket)
    : res TsError (OutUdpPacket * option ConnectedParams * PacketCodec) :=
  let type_i := type_index p_type in
  let? '(packet, p_id) :=
    if bool_decide (p_type = Init) then Ok (packet, PartialPacketId_default)
    else
      let? id := index (outgoing_p_ids codec) type_i in
      let? packet := packet_op (OutPacket_packet_id packet (packet_id id)) in
      Ok (packet, id) in
  let? '(packet, params) :=
    if (fake_encrypt : bool) then
      let? packet := encrypt_fake packet in Ok (packet, params)
    else if (should_encrypt : bool) then
      match params with
      | None => Panic
      | Some ps =>
          let? '(packet, cache) :=
            encrypt packet (generation_id p_id) (shared_iv ps) (key_cache ps) in
          Ok (packet, Some (with_cache ps cache))
      end
    else Ok (packet, params) in
  let p_id := PartialPacketId_add p_id 1 in
  let codec := if bool_decide (p_type = Init) then codec else with_outgoing codec p_type p_id in
  Ok ({| ou_generation_id := generation_id p_id; ou_data := packet |}, params, codec).

Fixpoint encode_parts (p_type : PacketType) (fake_encrypt should_encrypt : bool)
    (params : option ConnectedParams) (codec : PacketCodec) (packets : list OutPacket)
    : res TsError (list OutUdpPacket * option ConnectedParams * PacketCodec) :=
  match packets with
  | [] => Ok ([], params, codec)
  | p :: packets =>
      let? '(u, params, codec) := encode_part p_type fake_encrypt should_encrypt params codec p in
      let? '(us, params, codec) :=
        encode_parts p_type fake_encrypt should_encrypt params codec packets in
      Ok (u :: us, params, codec)
  end.

(** Whether the packet is encrypted with the fixed key. *)
Definition is_fake_encrypt (is_client : bool) (p_type : PacketType) (p_id : PartialPacketId)
    (content : list Z) : bool :=
  (bool_decide (p_type = Command) && (generation_id p_id =? 0) &&
    ((negb is_client && (packet_id p_id =? 0))
     || (is_client && (packet_id p_id =? 1) && starts_with (byte_str "clientek") content)))
  || (is_client && bool_decide (p_type = Ack) && (generation_id p_id =? 0) && (packet_id p_id =? 0)).

Definition encode_packet (is_client : bool) (params : option ConnectedParams) (codec : PacketCodec)
    (packet : OutPacket) : res TsError (list OutUdpPacket * option ConnectedParams * PacketCodec) :=
  let? h := packet_op (OutPacket_header packet) in
  let? p_type := packet_op (InHeader_packet_type h) in
  let type_i := type_index p_type in
  let? packet :=
    if PacketType_is_command p_type && is_client then add_flag packet NEWPROTOCOL
    else Ok packet in
  let? p_id :=
    if bool_decide (p_type = Init) then Ok PartialPacketId_default
    else index (outgoing_p_ids codec) type_i in
  let? content := packet_op (OutPacket_content packet) in
  let fake := is_fake_encrypt is_client p_type p_id content in
  let '(should, fake, cid) :=
    match params with
    | Some ps => (should_encrypt p_type (voice_encryption ps), fake, c_id ps)
    | None =>
        let should := should_encrypt p_type false in
        (should, (if (should : bool) then true else fake), 0)
    end in
  let? packet :=
    if is_client then packet_op (OutPacket_client_id packet cid) else Ok packet in
  let? packet :=
    if negb should && negb fake then
      let? packet := add_flag packet UNENCRYPTED in
      match params with
      | Some ps => packet_op (OutPacket_set_mac packet (shared_mac ps))
      | None => Ok packet
      end
    else Ok packet in
  let? packets :=
    if PacketType_is_command p_type then compress_and_split is_client packet
    else if is_client && (bool_decide (p_type = Voice) || bool_decide (p_type = VoiceWhisper)) then
      (* Set the inner packet id for voice packets *)
      let? id := index (outgoing_p_ids codec) type_i in
      let? content := packet_op (OutPacket_content packet) in
      let? _ := slice_to content 2 in
      let? d := overwrite (op_data packet) (OutPacket_content_offset packet)
        (write_be 2 (packet_id id)) in
      Ok [OutPacket_with_data packet d]
    else Ok [packet] in
  encode_parts p_type fake should params codec packets.

End encode.

(** * What is sent for a command *)

Section commands.
Context `{BeIoLaws, QuicklzLaws, EaxLaws, Sha256Laws}.

(** The key a packet is encrypted with. *)
Definition packet_key (fake : bool) (ps : option ConnectedParams) (t : PacketType)
    (cid : option Z) (id : PartialPacketId) : list Z * list Z :=
  match fake, ps with
  | false, Some ps =>
      let kn := derive t cid (generation_id id) (shared_iv ps) in
      (mix_id (fst kn) (packet_id id), snd kn)
  | _, _ => (FAKE_KEY, FAKE_NONCE)
  end.

(** The parameters are usable: the iv has its length and the cache its keys. *)
Definition params_ok (ps : option ConnectedParams) : Prop :=
  forall p, ps = Some p -> length (shared_iv p) = 64%nat /\ cache_ok (shared_iv p) (key_cache p).

(** The iv is all that the keys depend on. *)
Definition same_keys (ps ps' : option ConnectedParams) : Prop :=
  shared_iv <$> ps = shared_iv <$> ps'.

Lemma header_ids dir L id : layout_ok dir L -> is_u16 id ->
  InHeader_packet_id (layout_header dir (with_id L id)) = Ok id.
Proof.
  intros HL Hid. rewrite packet_id_layout by by apply with_id_ok. cbn [l_id with_id].
  by rewrite (read_be_app 2 _ id []) by (by rewrite ?app_nil_r).
Qed.

(** The client id in a header. *)
Definition layout_cid (dir : Direction) (L : Layout) : option Z :=
  match dir with
  | S2C => None
  | C2S => read_be 2 (l_cid L)
  end.

Lemma header_cid dir L : layout_ok dir L ->
  InHeader_client_id (layout_header dir L) = Ok (layout_cid dir L).
Proof.
  intros HL. destruct dir; [done|]. rewrite client_id_layout by done. cbn [layout_cid].
  destruct (layout_parts_bytes C2S L HL) as [_ Hb]. pose proof HL as (_ & _ & Hl & _).
  by destruct (read_u16 (l_cid L) Hb Hl) as (c & -> & _).
Qed.

Lemma encode_part_command dir L t chunk fake ps codec id :
  layout_ok dir L -> layout_type L = Some t -> t <> Init -> bytes chunk -> encryptable chunk ->
  outgoing_p_ids codec !! type_index t = Some id -> id_ok id -> generation_id id <> 4294967295 ->
  params_ok ps -> (fake = false -> is_Some ps) ->
  exists mac c' ps',
    encode_part t fake true ps codec (layout_packet dir L chunk)
    = Ok ({| ou_generation_id := generation_id (PartialPacketId_add id 1);
             ou_data := layout_packet dir (with_mac (with_id L (packet_id id)) mac) c' |},
          ps', with_outgoing codec t (PartialPacketId_add id 1)) /\
    length mac = 8%nat /\ bytes mac /\ length c' = length chunk /\
    params_ok ps' /\ same_keys ps ps' /\
    eax_encrypt (fst (packet_key fake ps t (layout_cid dir L) id))
      (snd (packet_key fake ps t (layout_cid dir L) id))
      (layout_meta (with_id L (packet_id id))) chunk = Some (c', mac).
Proof.
  intros HL Ht Hi Hb Hsmall Hid [Hg Hp] Hgen Hps Hsome. unfold encode_part.
  rewrite bool_decide_false by done. rewrite (index_ok _ _ _ Hid). cbn [res_bind].
  rewrite packet_id_packet by done. cbn [packet_op map_err res_bind].
  assert (layout_ok dir (with_id L (packet_id id))) as HL' by by apply with_id_ok.
  destruct fake.
  - destruct (encrypt_key_nonce_layout dir (with_id L (packet_id id)) chunk FAKE_KEY FAKE_NONCE HL' Hb Hsmall)
      as (c' & mac & He & Hlen & Hcb & Hm & Hmb & Henc).
    exists mac, c', ps. unfold encrypt_fake. rewrite Henc. cbn [res_bind].
    split; [done|]. repeat (split; [done|]). by destruct ps.
  - destruct (Hsome eq_refl) as [p ->]. destruct (Hps p eq_refl) as [Hiv Hcache].
    set (key := packet_key false (Some p) t (layout_cid dir L) id).
    destruct (create_key_nonce_spec t (layout_cid dir L) (packet_id id) (generation_id id)
      (shared_iv p) (key_cache p) Hcache Hi Hiv Hgen) as (cache' & Hcache' & Hk).
    destruct (encrypt_key_nonce_layout dir (with_id L (packet_id id)) chunk (fst key) (snd key) HL' Hb Hsmall)
      as (c' & mac & He & Hlen & Hcb & Hm & Hmb & Henc).
    exists mac, c', (Some (with_cache p cache')). split.
    { unfold encrypt. rewrite header_layout by done. cbn [packet_op map_err res_bind].
      rewrite packet_type_layout by done. change (layout_type (with_id L _)) with (layout_type L).
      rewrite Ht. cbn [unwrap packet_op map_err res_bind]. rewrite header_cid by done.
      cbn [packet_op map_err res_bind]. change (layout_cid dir (with_id L _)) with (layout_cid dir L).
      rewrite header_ids by done. cbn [packet_op map_err res_bind]. rewrite Hk. cbn [res_bind].
      unfold key, packet_key in Henc. cbn [fst snd] in Henc. rewrite Henc. done. }
    repeat (split; [done|]). split; [|done]. intros p' [= <-]. done.
Qed.

Lemma packet_key_same fake ps ps' t cid id :
  same_keys ps ps' -> packet_key fake ps t cid id = packet_key fake ps' t cid id.
Proof.
  unfold same_keys. destruct ps as [p|], ps' as [p'|]; intros Hs; simplify_eq/=; try done.
  destruct fake; [done|]. cbn [packet_key]. by rewrite Hs.
Qed.

(** One sent packet: the header of the part with its id and mac, the encrypted chunk, and the
    generation of the id after it. *)
Definition sent_as (dir : Direction) (t : PacketType) (fake : bool) (ps : option ConnectedParams)
    (id : PartialPacketId) (L : Layout) (chunk : list Z) (u : OutUdpPacket) : Prop :=
  exists mac c', u = {| ou_generation_id := generation_id (PartialPacketId_add id 1);
      ou_data := layout_packet dir (with_mac (with_id L (packet_id id)) mac) c' |} /\
    length mac = 8%nat /\ bytes mac /\ length c' = length chunk /\
    eax_encrypt (fst (packet_key fake ps t (layout_cid dir L) id))
      (snd (packet_key fake ps t (layout_cid dir L) id))
      (layout_meta (with_id L (packet_id id))) chunk = Some (c', mac).

(** What the other side gets from a packet, with the keys of the connection and its own cache. *)
Definition decrypts_to (dir : Direction) (fake : bool) (ps : option ConnectedParams)
    (id : PartialPacketId) (u : OutUdpPacket) (chunk : list Z) : Prop :=
  exists ip, InPacket_try_new dir (op_data (ou_data u)) = Ok ip /\
    if fake then decrypt_fake ip = Ok chunk
    else forall p cache, ps = Some p -> cache_ok (shared_iv p) cache ->
      exists cache', decrypt ip (generation_id id) (shared_iv p) cache = Ok (Ok chunk, cache') /\
        cache_ok (shared_iv p) cache'.

Lemma sent_as_decrypts dir t fake ps id L chunk u :
  layout_ok dir L -> layout_type L = Some t -> t <> Init -> id_ok id -> generation_id id <> 4294967295 ->
  params_ok ps -> (fake = false -> is_Some ps) ->
  sent_as dir t fake ps id L chunk u -> decrypts_to dir fake ps id u chunk.
Proof.
  intros HL Ht Hi [Hg Hp] Hgen Hps Hsome (mac & c' & -> & Hm & Hmb & Hl & Henc).
  set (L1 := with_id L (packet_id id)) in *.
  assert (layout_ok dir L1) as HL1 by by apply with_id_ok.
  assert (layout_type L1 = Some t) as Ht1 by done.
  assert (layout_ok dir (with_mac L1 mac)) as HL2 by by apply with_mac_ok.
  exists {| ip_header := layout_header dir (with_mac L1 mac); ip_content := c' |}. split.
  { cbn [ou_data op_data layout_packet]. rewrite try_new_layout by done.
    rewrite (proj2 (Z.ltb_ge _ _)); [done|]. by apply (type_of_low _ t). }
  destruct fake; cbn [packet_key fst snd] in Henc.
  { unfold decrypt_fake. by rewrite (decrypt_key_nonce_layout dir L1 chunk c' mac) by (by destruct ps). }
  destruct (Hsome eq_refl) as [p ->]. intros p' cache [= <-] Hcache. destruct (Hps p eq_refl) as [Hiv _].
  destruct (create_key_nonce_spec t (layout_cid dir L) (packet_id id) (generation_id id)
    (shared_iv p) cache Hcache Hi Hiv Hgen) as (cache' & Hcache' & Hk).
  exists cache'. split; [|done]. unfold decrypt. cbn [ip_header].
  rewrite packet_type_layout by done. change (layout_type (with_mac L1 mac)) with (layout_type L).
  rewrite Ht. cbn [unwrap packet_op map_err res_bind]. rewrite header_cid by done.
  cbn [packet_op map_err res_bind]. change (layout_cid dir (with_mac L1 mac)) with (layout_cid dir L).
  rewrite packet_id_layout by done. change (l_id (with_mac L1 mac)) with (write_be 2 (packet_id id)).
  rewrite (read_be_app 2 _ (packet_id id) []) by (by rewrite ?app_nil_r).
  cbn [unwrap packet_op map_err res_bind]. rewrite Hk. cbn [res_bind]. cbn [packet_key fst snd] in Henc.
  by rewrite (decrypt_key_nonce_layout dir L1 chunk c' mac).
Qed.

Lemma id_add_n_room n id : id_ok id -> id_val id + Z.of_nat n < 2 ^ 48 ->
  id_ok (id_add_n id n) /\ id_val (id_add_n id n) = id_val id + Z.of_nat n.
Proof.
  intros Hok Hn. split; [by apply id_add_n_ok|]. rewrite id_add_n_val by done.
  pose proof (id_val_range _ Hok). rewrite wrap_small; unfold is_uint in *; lia.
Qed.

Lemma outgoing_with codec t id id' : outgoing_p_ids codec !! type_index t = Some id ->
  outgoing_p_ids (with_outgoing codec t id') !! type_index t = Some id'.
Proof. intros Hid. apply list_lookup_insert_eq. by apply lookup_lt_Some in Hid. Qed.

Lemma with_outgoing_twice codec t a b :
  with_outgoing (with_outgoing codec t a) t b = with_outgoing codec t b.
Proof. unfold with_outgoing. cbn [outgoing_p_ids]. by rewrite list_insert_insert_eq. Qed.

Lemma with_outgoing_same codec t id :
  outgoing_p_ids codec !! type_index t = Some id -> with_outgoing codec t id = codec.
Proof. intros Hid. unfold with_outgoing. rewrite list_insert_id by done. by destruct codec. Qed.

Lemma encode_parts_command dir t fake parts : t <> Init -> forall ps codec id,
  Forall (fun '(L, chunk) => layout_ok dir L /\ layout_type L = Some t /\ bytes chunk /\ encryptable chunk) parts ->
  outgoing_p_ids codec !! type_index t = Some id -> id_ok id ->
  id_val id + Z.of_nat (length parts) <= 4294967295 * 65536 ->
  params_ok ps -> (fake = false -> is_Some ps) ->
  exists us ps',
    encode_parts t fake true ps codec ((fun '(L, chunk) => layout_packet dir L chunk) <$> parts)
    = Ok (us, ps', with_outgoing codec t (id_add_n id (length parts))) /\
    params_ok ps' /\ same_keys ps ps' /\
    length us = length parts /\
    forall i L chunk, parts !! i = Some (L, chunk) ->
      exists u, us !! i = Some u /\ sent_as dir t fake ps (id_add_n id i) L chunk u.
Proof.
  intros Hi. induction parts as [|[L chunk] parts IH]; intros ps codec id Hp Hid Hok Hmax Hps Hsome.
  { exists [], ps. cbn [fmap list_fmap encode_parts length id_add_n Nat.iter].
    rewrite with_outgoing_same by done. repeat (split; [done|]). intros i L chunk ?. done. }
  apply Forall_cons_1 in Hp as [(HL & Ht & Hb & Hsmall) Hp]. cbn [length] in Hmax.
  assert (generation_id id <> 4294967295) as Hgen.
  { destruct Hok as [Hg Hpk]. unfold is_uint, id_val in *. lia. }
  destruct (encode_part_command dir L t chunk fake ps codec id HL Ht Hi Hb Hsmall Hid Hok Hgen Hps Hsome)
    as (mac & c' & ps1 & Henc & Hm & Hmb & Hl & Hps1 & Hsame & Hc').
  destruct (add_ok id 1 Hok ltac:(done)) as [Hok1 Hval1].
  destruct (IH ps1 (with_outgoing codec t (PartialPacketId_add id 1)) (PartialPacketId_add id 1))
    as (us & ps' & Hrest & Hps' & Hsame' & Hlen & Hus).
  - done.
  - by eapply outgoing_with.
  - done.
  - rewrite Hval1, wrap_small; [lia|]. pose proof (id_val_range id Hok) as Hr.
    unfold is_uint in *. change (2 ^ 48) with 281474976710656 in *. lia.
  - done.
  - intros Hf. destruct (Hsome Hf) as [p Hp']. rewrite Hp' in Hsame. by destruct ps1.
  - eexists (_ :: us), ps'. cbn [fmap list_fmap encode_parts]. rewrite Henc. cbn [res_bind].
    change (list_fmap _ _ ?f parts) with (f <$> parts). rewrite Hrest. cbn [res_bind length].
    rewrite with_outgoing_twice. split.
    { do 3 f_equal. change (PartialPacketId_add id 1) with (id_add_n id 1). by rewrite id_add_n_add. }
    split; [done|]. split; [by unfold same_keys in *; rewrite Hsame|]. split; [by rewrite Hlen|].
    intros [|i] L' chunk' Hlook; simpl in Hlook.
    + injection Hlook as <- <-. eexists. split; [done|]. exists mac, c'. done.
    + destruct (Hus i L' chunk' Hlook) as (u & Hu & mac' & c2 & Hu' & Hm' & Hmb' & Hl' & He).
      exists u. split; [done|]. exists mac', c2.
      assert (id_add_n (PartialPacketId_add id 1) i = id_add_n id (S i)) as Hsh
        by (change (PartialPacketId_add id 1) with (id_add_n id 1); by rewrite id_add_n_add).
      rewrite Hsh in Hu', He. rewrite <- (packet_key_same fake ps ps1) in He by done. done.
Qed.

Definition out_dir (is_client : bool) : Direction := if is_client then C2S else S2C.

(** The header of a command before it is split: clients set the new-protocol flag and their id. *)
Definition command_header (is_client : bool) (ps : option ConnectedParams) (L : Layout) : Layout :=
  if is_client then
    with_cid (with_flags L (Flags_or (layout_flags L) NEWPROTOCOL))
      (match ps with Some p => c_id p | None => 0 end)
  else L.

Lemma command_header_ok is_client ps L : layout_ok (out_dir is_client) L ->
  layout_ok (out_dir is_client) (command_header is_client ps L) /\
  layout_type (command_header is_client ps L) = layout_type L.
Proof.
  intros HL. destruct is_client; [|done]. cbn [out_dir command_header] in *.
  assert (is_flags (Flags_or (layout_flags L) NEWPROTOCOL)) as Hf
    by (apply is_flags_or; [by apply (layout_flags_ok C2S)|done]).
  split; [by apply with_cid_ok, with_flags_ok|].
  change (layout_type (with_cid ?l _)) with (layout_type l). by apply with_flags_read.
Qed.

Lemma add_flag_layout dir L content f : layout_ok dir L -> is_flags f ->
  add_flag (layout_packet dir L content) f
  = Ok (layout_packet dir (with_flags L (Flags_or (layout_flags L) f)) content).
Proof.
  intros HL Hf. unfold add_flag, packet_flags. pose proof (add_flags dir L content f HL Hf) as Ha.
  destruct (packet_op (OutPacket_header _)) as [h| |]; [|done..]. exact Ha.
Qed.

Lemma is_client_out is_client : is_client_dir (out_dir is_client) = is_client.
Proof. by destruct is_client. Qed.

Lemma payload_facts dir content : bytes content ->
  bytes (snd (payload dir content)) /\ (length (snd (payload dir content)) <= length content)%nat.
Proof.
  intros Hb. unfold payload. case_bool_decide; [done|]. case_bool_decide; [done|]. cbn [snd].
  split; [by apply qlz_compress_bytes|lia].
Qed.

Lemma chunk_count dir (chunks : list (list Z)) n :
  ((length chunks - 1) * (500 - header_len dir) <= n)%nat -> (length chunks <= S n)%nat.
Proof.
  intros Hn. assert (1 <= 500 - header_len dir)%nat as Hh
    by (destruct dir; unfold header_len, C2S_HEADER_LEN, S2C_HEADER_LEN; lia).
  assert ((length chunks - 1) * 1 <= (length chunks - 1) * (500 - header_len dir))%nat
    by (by apply Nat.mul_le_mono_l). lia.
Qed.

Lemma bytes_mjoin (chunks : list (list Z)) : bytes (mjoin chunks) -> Forall (fun c => bytes c) chunks.
Proof.
  induction chunks as [|c chunks IH]; intros Hb; [constructor|].
  change (mjoin (c :: chunks)) with (c ++ mjoin chunks) in Hb. apply bytes_app in Hb as [? ?].
  constructor; auto.
Qed.

(** The start of [encode_packet] on a command. *)
Lemma encode_command_open is_client ps codec L t content id :
  layout_ok (out_dir is_client) L -> layout_type L = Some t -> PacketType_is_command t = true ->
  outgoing_p_ids codec !! type_index t = Some id ->
  encode_packet is_client ps codec (layout_packet (out_dir is_client) L content) =
  let fake := match ps with None => true | Some _ => is_fake_encrypt is_client t id content end in
  let? packets := compress_and_split is_client
    (layout_packet (out_dir is_client) (command_header is_client ps L) content) in
  encode_parts t fake true ps codec packets.
Proof.
  intros HL Ht Hcmd Hid. unfold encode_packet. rewrite header_layout by done.
  cbn [packet_op map_err res_bind]. rewrite packet_type_layout, Ht by done.
  cbn [unwrap packet_op map_err res_bind]. rewrite Hcmd. cbn [andb].
  assert (t <> Init) as Hi by by intros ->. rewrite (bool_decide_false (t = Init)) by done.
  assert (forall b, should_encrypt t b = true) as Hshould by (intros b; by destruct t).
  assert (exists L1, (if is_client then add_flag (layout_packet (out_dir is_client) L content) NEWPROTOCOL
     else Ok (layout_packet (out_dir is_client) L content))
    = Ok (layout_packet (out_dir is_client) L1 content) /\ layout_ok (out_dir is_client) L1 /\
    command_header is_client ps L
    = if is_client then with_cid L1 (match ps with Some p => c_id p | None => 0 end) else L1)
    as (L1 & -> & HL1 & Hch).
  { destruct is_client; [|by exists L]. rewrite add_flag_layout by done. eexists. split; [done|].
    split; [|done]. apply with_flags_ok; [done|]. apply is_flags_or; [|done].
    by apply (layout_flags_ok C2S). }
  cbn [res_bind]. rewrite (index_ok _ _ _ Hid). cbn [res_bind].
  rewrite content_layout by done. cbn [packet_op map_err res_bind].
  rewrite Hch. destruct ps as [p|]; rewrite Hshould; cbn [negb andb]; destruct is_client;
    rewrite ?client_id_packet by done; cbn [packet_op map_err res_bind]; done.
Qed.

(** C20: sending a command.  [encode_packet] succeeds and makes one udp packet per part of the
    command; their ids are consecutive, beginning at the next outgoing id, which advances by
    their number; every packet has at most 500 bytes; its content is the encryption of the part
    under the key of the packet's own id (the fixed key before the connection is established and for
    the commands that establish it), and a peer with the same shared iv, whatever its
    cache of keys, decrypts it to the part.  The packet ids must not run out.
    The generation stored with the packet is that of the {e following} id: for the last id of a
    generation it is one too high. *)
Theorem encode_packet_command (is_client : bool) (ps : option ConnectedParams) (codec : PacketCodec)
    (L : Layout) (t : PacketType) (content : list Z) (id : PartialPacketId)
    (HL : layout_ok (out_dir is_client) L) (Ht : layout_type L = Some t)
    (Hcmd : PacketType_is_command t = true) (Hb : bytes content)
    (Hid : outgoing_p_ids codec !! type_index t = Some id) (Hok : id_ok id)
    (Hmax : id_val id + Z.of_nat (S (length content)) <= 4294967295 * 65536)
    (Hps : params_ok ps) :
  let dir := out_dir is_client in
  let L' := command_header is_client ps L in
  let fake := match ps with None => true | Some _ => is_fake_encrypt is_client t id content end in
  exists chunks us ps',
    mjoin chunks = snd (payload dir content) /\
    encode_packet is_client ps codec (layout_packet dir L content)
    = Ok (us, ps', with_outgoing codec t (id_add_n id (length chunks))) /\
    params_ok ps' /\ same_keys ps ps' /\ length us = length chunks /\
    forall i chunk, chunks !! i = Some chunk ->
      (header_len dir + length chunk <= 500)%nat /\
      exists u, us !! i = Some u /\
        sent_as dir t fake ps (id_add_n id i)
          (with_flags L' (Flags_or (layout_flags L')
            (fragment_flags (fst (payload dir content)) (length chunks) i))) chunk u /\
        decrypts_to dir fake ps (id_add_n id i) u chunk.
Proof.
  intros dir L' fake. destruct (command_header_ok is_client ps L HL) as [HL' Ht'].
  fold dir L' in HL'. fold L' in Ht'. rewrite Ht in Ht'.
  assert (t <> VoiceWhisper) as Hw by by intros ->.
  destruct (compress_and_split_parts dir L' content t HL' Ht' Hw)
    as (chunks & Hcs & Hne & Hj & Hl & Hcount).
  change (is_client_dir dir) with (is_client_dir (out_dir is_client)) in Hcs.
  rewrite is_client_out in Hcs.
  set (z := fst (payload dir content)) in *.
  set (parts := imap (fun i chunk => (with_flags L' (Flags_or (layout_flags L')
    (fragment_flags z (length chunks) i)), chunk)) chunks).
  destruct (payload_facts dir content Hb) as [Hpb Hpl].
  pose proof (chunk_count dir chunks _ Hcount) as Hk.
  assert (Forall (fun c => bytes c) chunks) as Hcb by (apply bytes_mjoin; by rewrite Hj).
  destruct (encode_parts_command dir t fake parts ltac:(by intros ->) ps codec id)
    as (us & ps' & Henc & Hps' & Hsame & Hlen & Hus); try done.
  { apply Forall_forall. intros [Li ci] Hin. apply list_elem_of_lookup in Hin as [i Hin].
    unfold parts in Hin. rewrite list_lookup_imap in Hin.
    destruct (chunks !! i) as [chunk|] eqn:Hc; [|done]. injection Hin as <- <-.
    pose proof (fragment_flags_ok z (length chunks) i) as Hff.
    assert (is_flags (Flags_or (layout_flags L') (fragment_flags z (length chunks) i))) as Hfo
      by (apply is_flags_or; [by apply (layout_flags_ok dir)|done]).
    split; [by apply with_flags_ok|]. split.
    - rewrite <- Ht'. by apply with_flags_read.
    - split; [rewrite Forall_forall in Hcb; by eapply Hcb, list_elem_of_lookup_2|].
      rewrite Forall_forall in Hl. apply list_elem_of_lookup_2, Hl in Hc. unfold encryptable. lia. }
  { unfold parts. rewrite length_imap. lia. }
  { unfold fake. by destruct ps. }
  exists chunks, us, ps'. split; [done|]. split.
  { unfold dir. rewrite (encode_command_open is_client ps codec L t content id) by done. cbv zeta.
    fold L' dir fake. rewrite Hcs. cbn [res_bind].
    unfold parts in Henc. rewrite fmap_imap, length_imap in Henc. exact Henc. }
  split; [done|]. split; [done|]. split; [unfold parts in Hlen; by rewrite length_imap in Hlen|].
  intros i chunk Hc. split.
  { rewrite Forall_forall in Hl. by eapply Hl, list_elem_of_lookup_2. }
  set (Li := with_flags L' _).
  destruct (Hus i Li chunk) as (u & Hu & Hsent); [unfold parts; by rewrite list_lookup_imap, Hc|].
  exists u. split; [done|]. split; [exact Hsent|].
  assert (is_flags (Flags_or (layout_flags L') (fragment_flags z (length chunks) i))) as Hfo
    by (apply is_flags_or; [by apply (layout_flags_ok dir)|apply fragment_flags_ok]).
  apply lookup_lt_Some in Hc. destruct (id_add_n_room i id Hok) as [Hoki Hvi].
  { change (2 ^ 48) with 281474976710656. lia. }
  apply (sent_as_decrypts dir t fake ps _ Li); try done.
  - by apply with_flags_ok.
  - rewrite <- Ht'. by apply with_flags_read.
  - by intros ->.
  - destruct Hoki as [Hg Hpk]. unfold is_uint, id_val in *. lia.
  - unfold fake. by destruct ps.
Qed.
End commands.

Lemma encode_packet_command_witness : exists us ps' codec',
  encode_packet true (Some (ConnectedParams_new (replicate 64 9) (replicate 8 0)))
    (with_outgoing PacketCodec_default Command {| generation_id := 0; packet_id := 65535 |})
    (layout_packet C2S (fresh_layout C2S Flags_empty Command) (replicate 600 5))
  = Ok (us, ps', codec') /\ params_ok ps'.
Proof.
  destruct (encode_packet_command true (Some (ConnectedParams_new (replicate 64 9) (replicate 8 0)))
    (with_outgoing PacketCodec_default Command {| generation_id := 0; packet_id := 65535 |})
    (fresh_layout C2S Flags_empty Command) Command (replicate 600 5)
    {| generation_id := 0; packet_id := 65535 |})
    as (chunks & us & ps' & _ & He & Hp & _).
  - apply fresh_layout_ok. by vm_compute.
  - reflexivity.
  - reflexivity.
  - apply Forall_replicate. by vm_compute.
  - reflexivity.
  - split; by vm_compute.
  - by vm_compute.
  - intros p [= <-]. split; [reflexivity|]. apply cache_default_ok.
  - eexists us, ps', _. split; [exact He|exact Hp].
Defined.
