(* ===== verification/BTree.v ===== *)
(** [BTreeMap<PartialPacketId, V>] of the standard library: an association list in ascending
    order of the keys, with the operations the resender uses. *)
From S2P Require Import Prelude Packets PacketId.

Section btree.
Context {V : Type}.


Fixpoint bt_insert (k : PartialPacketId) (v : V) (m : list (PartialPacketId * V))
    : list (PartialPacketId * V) :=
  match m with
  | [] => [(k, v)]
  | (k', v') :: m =>
      match PartialPacketId_cmp k k' with
      | Lt => (k, v) :: (k', v') :: m
      | Eq => (k, v) :: m
      | Gt => (k', v') :: bt_insert k v m
      end
  end.

Fixpoint bt_lookup (k : PartialPacketId) (m : list (PartialPacketId * V)) : option V :=
  match m with
  | [] => None
  | (k', v') :: m => if bool_decide (k = k') then Some v' else bt_lookup k m
  end.

Fixpoint bt_remove (k : PartialPacketId) (m : list (PartialPacketId * V))
    : list (PartialPacketId * V) :=
  match m with
  | [] => []
  | (k', v') :: m => if bool_decide (k = k') then m else (k', v') :: bt_remove k m
  end.

(** The keys are valid and strictly ascending. *)
Fixpoint bt_ok (m : list (PartialPacketId * V)) : Prop :=
  match m with
  | [] => True
  | (k, _) :: m =>
      id_ok k /\ Forall (fun p => id_val k < id_val (fst p)) m /\ bt_ok m
  end.

Lemma bt_ok_id k v m : bt_ok m -> (k, v) ∈ m -> id_ok k.
Proof.
  induction m as [|[k' v'] m IH]; intros Hm Hin; [by apply not_elem_of_nil in Hin|].
  destruct Hm as (Hk & _ & Hm). apply elem_of_cons in Hin as [[= -> ->]|Hin]; auto.
Qed.

Lemma bt_insert_elem k v m p :
  id_ok k -> bt_ok m -> p ∈ bt_insert k v m <-> p = (k, v) \/ (p ∈ m /\ fst p <> k).
Proof.
  intros Hk. induction m as [|[k' v'] m IH]; intros Hm; simpl.
  { rewrite list_elem_of_singleton. split; [tauto|]. intros [?|[Hn _]]; [done|].
    by apply not_elem_of_nil in Hn. }
  destruct Hm as (Hk' & Hlt & Hm). rewrite cmp_val by done. rewrite Forall_forall in Hlt.
  destruct (Z.compare_spec (id_val k) (id_val k')) as [He|Hl|Hg].
  - apply id_val_inj in He as ->; [|done..]. rewrite !elem_of_cons. split.
    + intros [?|Hp]; [tauto|]. right. split; [tauto|]. intros Hf. specialize (Hlt p Hp).
      rewrite Hf in Hlt. lia.
    + intros [?|[[->|?] Hne]]; [tauto|done|tauto].
  - rewrite !elem_of_cons. split.
    + intros [?|[->|Hp]]; [tauto| |].
      * right. split; [tauto|]. simpl. intros ->. lia.
      * right. split; [tauto|]. intros Hf. specialize (Hlt p Hp). rewrite Hf in Hlt. lia.
    + tauto.
  - rewrite !elem_of_cons, IH by done. split.
    + intros [->|[?|[? ?]]]; [|tauto|tauto]. right. split; [tauto|]. simpl. intros ->. lia.
    + tauto.
Qed.

Lemma bt_insert_ok k v m : id_ok k -> bt_ok m -> bt_ok (bt_insert k v m).
Proof.
  intros Hk. induction m as [|[k' v'] m IH]; intros Hm; simpl; [repeat split; try done; apply Hk|].
  destruct Hm as (Hk' & Hlt & Hm). rewrite cmp_val by done.
  destruct (Z.compare_spec (id_val k) (id_val k')) as [He|Hl|Hg].
  - apply id_val_inj in He as ->; done.
  - split; [done|]. split; [|by repeat split; try apply Hk'].
    constructor; [done|]. eapply Forall_impl; [exact Hlt|]. simpl. lia.
  - split; [done|]. split; [|by apply IH]. apply Forall_forall. intros p Hp.
    apply bt_insert_elem in Hp as [->|[Hp _]]; [done| |done|done].
    rewrite Forall_forall in Hlt. by apply Hlt.
Qed.

Lemma bt_remove_elem k m p : bt_ok m -> p ∈ bt_remove k m <-> p ∈ m /\ fst p <> k.
Proof.
  induction m as [|[k' v'] m IH]; intros Hm; simpl.
  { split; [intros Hn; by apply not_elem_of_nil in Hn|tauto]. }
  destruct Hm as (Hk' & Hlt & Hm). rewrite Forall_forall in Hlt. case_bool_decide as Hk.
  - subst k'. rewrite elem_of_cons. split.
    + intros Hp. split; [tauto|]. intros Hf. specialize (Hlt p Hp). rewrite Hf in Hlt. lia.
    + intros [[->|?] Hne]; done.
  - rewrite !elem_of_cons, IH by done. split; [|tauto].
    intros [->|?]; [|tauto]. split; [tauto|]. simpl. congruence.
Qed.

Lemma bt_remove_ok k m : bt_ok m -> bt_ok (bt_remove k m).
Proof.
  induction m as [|[k' v'] m IH]; intros Hm; simpl; [done|].
  destruct Hm as (Hk' & Hlt & Hm). case_bool_decide; [done|]. split; [done|]. split; [|by apply IH].
  apply Forall_forall. intros p Hp. apply bt_remove_elem in Hp as [Hp _]; [|done].
  rewrite Forall_forall in Hlt. by apply Hlt.
Qed.

Lemma bt_lookup_elem k m v : bt_ok m -> bt_lookup k m = Some v <-> (k, v) ∈ m.
Proof.
  induction m as [|[k' v'] m IH]; intros Hm; simpl.
  { split; [done|]. intros Hn. by apply not_elem_of_nil in Hn. }
  destruct Hm as (Hk' & Hlt & Hm). rewrite Forall_forall in Hlt. rewrite elem_of_cons.
  case_bool_decide as Hk.
  - subst k'. split; [intros [= ->]; tauto|]. intros [[= ->]|Hin]; [done|].
    specialize (Hlt _ Hin). simpl in Hlt. lia.
  - rewrite IH by done. split; [tauto|]. intros [[= -> ->]|?]; done.
Qed.

(** The first entry has the smallest key. *)
Lemma bt_first k v m p : bt_ok ((k, v) :: m) -> p ∈ m -> id_val k < id_val (fst p).
Proof. intros (_ & Hlt & _) Hp. rewrite Forall_forall in Hlt. by apply Hlt. Qed.

End btree.

#[export] Hint Resolve bt_insert_ok bt_remove_ok : ts.
