(* ===== verification/Resend.v ===== *)
(** The resender ([tsproto/src/resend.rs]): the queues of unacknowledged packets, the smoothed
    round trip time, and the statistics.  An instant and a duration are a [Z] in nanoseconds; the
    clock is read once per operation and is an argument.  The cubic window function computes with
    [f32]: it is a parameter, its clamping is modelled. *)
From S2P Require Import Prelude ByteIO Packets PacketId BTree.

Inductive ResenderState := Connecting | Connected | Disconnecting | Disconnected.

#[global] Instance ResenderState_eq_dec : EqDecision ResenderState.
Proof. solve_decision. Defined.

Record PacketId := { pid_type : PacketType; pid_part : PartialPacketId }.

#[global] Instance PacketId_eq_dec : EqDecision PacketId.
Proof. solve_decision. Defined.

Record SendRecordId := { sri_last : Z; sri_tries : nat; sri_id : PacketId }.

Record SendRecord := { sr_sent : Z; sr_id : SendRecordId; sr_packet : OutUdpPacket }.

Record Ping := { ping_id : PartialPacketId; ping_sent : Z }.

Record ResendConfig := {
  connecting_timeout : Z; normal_timeout : Z; disconnect_timeout : Z;
  srtt : Z; srtt_dev : Z;
}.

Definition second : Z := 1000000000.
Definition PING_COUNT : nat := 30.
Definition PING_SECONDS : Z := second.
Definition UDP_SINK_CAPACITY : Z := 50.

Definition ResendConfig_default : ResendConfig := {|
  connecting_timeout := 5 * second; normal_timeout := 30 * second;
  disconnect_timeout := 5 * second; srtt := second / 2; srtt_dev := 0;
|}.

(** The [BinaryHeap] is a list whose maximum is the next entry; the three [BTreeMap]s and indices
    are those of the [Init], [Command] and [CommandLow] packets. *)
Record Resender := {
  send_queue : list SendRecordId;
  full_send_queue : list (list (PartialPacketId * SendRecord));
  send_queue_indices : list PartialPacketId;
  config : ResendConfig;
  state : ResenderState;
  last_pings : list Ping;
  rtt : Z;
  rtt_dev : Z;
  w_max : Z;
  last_loss : Z;
  no_congestion_since : option Z;
  last_receive : Z;
  last_send : Z;
}.

Definition Resender_default (now : Z) : Resender := {|
  send_queue := []; full_send_queue := replicate 3 [];
  send_queue_indices := replicate 3 PartialPacketId_default;
  config := ResendConfig_default; state := Connecting; last_pings := [];
  rtt := 0; rtt_dev := 0; w_max := UDP_SINK_CAPACITY; last_loss := now;
  no_congestion_since := Some now; last_receive := now; last_send := now;
|}.

(** Record updates. *)
Definition with_queues (r : Resender) (q : list SendRecordId)
    (full : list (list (PartialPacketId * SendRecord))) (idx : list PartialPacketId) : Resender := {|
  send_queue := q; full_send_queue := full; send_queue_indices := idx;
  config := config r; state := state r; last_pings := last_pings r; rtt := rtt r;
  rtt_dev := rtt_dev r; w_max := w_max r; last_loss := last_loss r;
  no_congestion_since := no_congestion_since r; last_receive := last_receive r;
  last_send := last_send r;
|}.

Definition with_congestion (r : Resender) (w last : Z) (since : option Z) : Resender := {|
  send_queue := send_queue r; full_send_queue := full_send_queue r;
  send_queue_indices := send_queue_indices r; config := config r; state := state r;
  last_pings := last_pings r; rtt := rtt r; rtt_dev := rtt_dev r; w_max := w; last_loss := last;
  no_congestion_since := since; last_receive := last_receive r; last_send := last_send r;
|}.

Definition with_rtt (r : Resender) (srtt srtt_dev rtt rtt_dev : Z) : Resender := {|
  send_queue := send_queue r; full_send_queue := full_send_queue r;
  send_queue_indices := send_queue_indices r;
  config := {| connecting_timeout := connecting_timeout (config r);
               normal_timeout := normal_timeout (config r);
               disconnect_timeout := disconnect_timeout (config r);
               srtt := srtt; srtt_dev := srtt_dev |};
  state := state r; last_pings := last_pings r; rtt := rtt; rtt_dev := rtt_dev;
  w_max := w_max r; last_loss := last_loss r; no_congestion_since := no_congestion_since r;
  last_receive := last_receive r; last_send := last_send r;
|}.

Definition with_times (r : Resender) (s : ResenderState) (pings : list Ping) (recv send : Z)
    : Resender := {|
  send_queue := send_queue r; full_send_queue := full_send_queue r;
  send_queue_indices := send_queue_indices r; config := config r; state := s;
  last_pings := pings; rtt := rtt r; rtt_dev := rtt_dev r; w_max := w_max r;
  last_loss := last_loss r; no_congestion_since := no_congestion_since r;
  last_receive := recv; last_send := send;
|}.

(** The number computed by the cubic function, truncated to an integer, for the last maximum and
    the time since the last loss. *)
Class Cubic := { cubic : Z -> Z -> Z }.

Section resend.
Context `{BeIo, Cubic, Profile}.

(** [From<&OutUdpPacket> for PacketId] *)
Definition PacketId_from (p : OutUdpPacket) : res PacketError PacketId :=
  let? t := OutUdpPacket_packet_type p in
  let? id := OutUdpPacket_packet_id p in
  Ok {| pid_type := t;
        pid_part := {| generation_id := ou_generation_id p; packet_id := id |} |}.

(** [Ord for SendRecordId]: [Gt] is more important. *)
Definition SendRecordId_cmp (a b : SendRecordId) : comparison :=
  match sri_tries a, sri_tries b with
  | O, S _ => Gt
  | S _, O => Lt
  | _, _ =>
      match CompOpp (sri_last a ?= sri_last b) with
      | Eq => CompOpp (PartialPacketId_cmp (pid_part (sri_id a)) (pid_part (sri_id b)))
      | c => c
      end
  end.

Definition packet_type_to_index (t : PacketType) : res PacketError nat :=
  match t with
  | Init => Ok 0%nat
  | Command => Ok 1%nat
  | CommandLow => Ok 2%nat
  | _ => Panic
  end.

Definition get_timeout (r : Resender) : Z :=
  match state r with
  | Connecting => connecting_timeout (config r)
  | Disconnecting | Disconnected => disconnect_timeout (config r)
  | Connected => normal_timeout (config r)
  end.

(** The state timer is only a wake-up and not modelled. *)
Definition set_state (r : Resender) (s : ResenderState) (now : Z) : Resender :=
  with_times r s (last_pings r) (last_receive r) now.

Definition received_packet (r : Resender) (now : Z) : Resender :=
  with_times r (state r) (last_pings r) now (last_send r).

(** [Instant - Instant] saturates at zero. *)
Definition since (a b : Z) : Z := Z.max 0 (a - b).

Definition get_window (r : Resender) (now : Z) : Z :=
  let time := since (default now (no_congestion_since r)) (last_loss r) in
  let res := cubic (w_max r) time in
  let max := u16_MAX / 2 in
  if max <? res then max else if res <? 1 then 1 else res.

Definition is_full (r : Resender) (now : Z) : bool :=
  get_window r now <=? Z.of_nat (length (full_send_queue r)).

Definition is_empty (r : Resender) : bool :=
  forallb (fun q => match q with [] => true | _ => false end) (full_send_queue r).

Definition update_srtt (r : Resender) (sample : Z) : Resender :=
  let c := config r in
  let diff := if srtt c <? sample then sample - srtt c else srtt c - sample in
  let diff2 := if rtt r <? sample then sample - rtt r else rtt r - sample in
  with_rtt r (srtt c * 7 / 8 + sample / 8) (srtt_dev c * 3 / 4 + diff / 4)
    (rtt r / 2 + sample / 2) (rtt_dev r * 3 / 4 + diff2 / 4).

(** ** Filling the send queue *)

(** [values().skip_while(|r| r.id.id.part < start)] *)
Fixpoint skip_records (start : PartialPacketId) (m : list (PartialPacketId * SendRecord))
    : list SendRecord :=
  match m with
  | [] => []
  | (_, r) :: m' =>
      if PartialPacketId_lt (pid_part (sri_id (sr_id r))) start then skip_records start m'
      else snd <$> m
  end.

(** The inner loop over the heads of the iterators: the index of the one to take from. *)
Fixpoint pick (iters : list (list SendRecord)) (i : nat) (best : option (nat * Z))
    : option (nat * Z) :=
  match iters with
  | [] => best
  | it :: iters =>
      let best :=
        match it with
        | [] => best
        | r :: _ =>
            if match best with Some (_, t) => t <? sr_sent r | None => true end
            then Some (i, sr_sent r) else best
        end in
      pick iters (S i) best
  end.

(** The outer loop, [n] rounds: the new queue and indices, and whether the iterators ran out. *)
Fixpoint fill_loop (n : nat) (iters : list (list SendRecord)) (q : list SendRecordId)
    (idx : list PartialPacketId) : list SendRecordId * list PartialPacketId * bool :=
  match n with
  | O => (q, idx, false)
  | S n =>
      match pick iters 0 None with
      | None => (q, idx, true)
      | Some (i, _) =>
          match iters !! i with
          | Some (r :: rest) =>
              fill_loop n (<[i := rest]> iters) (q ++ [sr_id r])
                (<[i := PartialPacketId_add (pid_part (sri_id (sr_id r))) 1]> idx)
          | _ => (q, idx, true)
          end
      end
  end.

Definition fill_up_send_queue (r : Resender) (now : Z) : Resender :=
  let iters := zip_with skip_records (send_queue_indices r) (full_send_queue r) in
  let rounds := Z.to_nat (get_window r now - Z.of_nat (length (send_queue r))) in
  let '(q, idx, ran_out) := fill_loop rounds iters (send_queue r) (send_queue_indices r) in
  let r := with_queues r q (full_send_queue r) idx in
  if (ran_out : bool) then
    with_congestion r (w_max r) (last_loss r)
      (match no_congestion_since r with None => Some now | s => s end)
  else
    match no_congestion_since r with
    | Some until => with_congestion r (w_max r) (now - since until (last_loss r)) None
    | None => r
    end.

Definition rebuild_send_queue (r : Resender) (now : Z) : Resender :=
  fill_up_send_queue (with_queues r [] (full_send_queue r) (replicate 3 PartialPacketId_default)) now.

(** ** Sending and acknowledging *)

Definition send_packet (r : Resender) (packet : OutUdpPacket) (now : Z) : res PacketError Resender :=
  let r := with_times r (state r) (last_pings r) (last_receive r) now in
  let? id := PacketId_from packet in
  let rec := {| sr_sent := now;
                sr_id := {| sri_last := now; sri_tries := 0; sri_id := id |};
                sr_packet := packet |} in
  let? i := packet_type_to_index (pid_type id) in
  let? index := index (send_queue_indices r) i in
  let? full := Prelude.index (full_send_queue r) i in
  let idx := if PartialPacketId_lt (pid_part id) index
             then <[i := pid_part id]> (send_queue_indices r) else send_queue_indices r in
  let r := with_queues r (send_queue r)
    (<[i := bt_insert (pid_part id) rec full]> (full_send_queue r)) idx in
  Ok (fill_up_send_queue r now).

(** [ack_packet] for [Init], [Command] and [CommandLow] packets; [next] is the next outgoing id
    of the type.  The second result is the [AckPacket] item for the stream. *)
Definition ack_command (r : Resender) (p_type : PacketType) (p_id : Z) (next : PartialPacketId)
    (now : Z) : res PacketError (Resender * option PacketId) :=
  let? i := packet_type_to_index p_type in
  let? queue := index (full_send_queue r) i in
  match queue with
  | [] => Ok (r, None)
  | (first, _) :: rest =>
      let? '(id, item) :=
        if packet_id first =? p_id then
          let? p :=
            match rest with
            | (_, rec2) :: _ => Ok (pid_part (sri_id (sr_id rec2)))
            | [] =>
                if bool_decide (p_type = Init) then
                  let? id := arith 16 (p_id + 1) in
                  Ok {| generation_id := 0; packet_id := id |}
                else Ok next
            end in
          Ok (first, Some {| pid_type := p_type; pid_part := PartialPacketId_sub p 1 |})
        else
          Ok ({| generation_id := if p_id <? packet_id first then wrap 32 (generation_id first + 1)
                                  else generation_id first;
                 packet_id := p_id |}, None) in
      match bt_lookup id queue with
      | None => Ok (r, item)
      | Some rec =>
          let r := with_queues r (send_queue r) (<[i := bt_remove id queue]> (full_send_queue r))
            (send_queue_indices r) in
          let r := if bool_decide (sri_tries (sr_id rec) = 1%nat)
                   then update_srtt r (since now (sr_sent rec)) else r in
          Ok (r, item)
      end
  end.

End resend.

(** * The queues *)

Definition rec_key (r : SendRecord) : PartialPacketId := pid_part (sri_id (sr_id r)).

(** A queue of unacknowledged packets: every record is stored under its own id, and the ids are
    not at the very end of the 48-bit range. *)
Definition queue_ok (m : list (PartialPacketId * SendRecord)) : Prop :=
  bt_ok m /\ Forall (fun p => rec_key (snd p) = fst p /\ id_val (fst p) + 1 < 2 ^ 48) m.

(** The packets below the index are scheduled. *)
Definition covered (q : list SendRecordId) (start : PartialPacketId)
    (m : list (PartialPacketId * SendRecord)) : Prop :=
  forall k r, (k, r) ∈ m -> id_val k < id_val start -> exists s, s ∈ q /\ sri_id s = sri_id (sr_id r).

Lemma lt_val a b : id_ok a -> id_ok b -> PartialPacketId_lt a b = (id_val a <? id_val b).
Proof.
  intros Ha Hb. unfold PartialPacketId_lt. rewrite cmp_val by done.
  by destruct (Z.compare_spec (id_val a) (id_val b)), (Z.ltb_spec (id_val a) (id_val b)); try lia.
Qed.

(** The iterator of a queue is the rest of the queue from the index on. *)
Lemma skip_records_spec start m : id_ok start -> queue_ok m ->
  match skip_records start m with
  | [] => forall k r, (k, r) ∈ m -> id_val k < id_val start
  | r :: rest =>
      (rec_key r, r) ∈ m /\ id_val start <= id_val (rec_key r) /\
      (forall k r', (k, r') ∈ m -> id_val k < id_val (rec_key r) -> id_val k < id_val start) /\
      rest = skip_records (PartialPacketId_add (rec_key r) 1) m
  end.
Proof.
  intros Hs. induction m as [|[k r] m IH]; intros [Hok Hall].
  { intros k r Hn. by apply not_elem_of_nil in Hn. }
  cbn [skip_records]. fold (rec_key r).
  apply Forall_cons in Hall as [[Hkey Hmax] Hall]. cbn [fst snd] in *.
  pose proof Hok as (Hk & Hlt & Hm). rewrite Hkey, lt_val by done.
  destruct (Z.ltb_spec (id_val k) (id_val start)) as [Hl|Hge].
  - specialize (IH (conj Hm Hall)). destruct (skip_records start m) as [|r0 rest].
    + intros k' r' [[= -> ->]|Hin]%elem_of_cons; [done|by eapply IH].
    + destruct IH as (Hin & Hge & Hbelow & Hrest). split; [by right|]. split; [done|]. split.
      * intros k' r' [[= -> ->]|Hin']%elem_of_cons Hlt'; [done|by eapply Hbelow].
      * rewrite Hrest. cbn [skip_records]. fold (rec_key r). rewrite Forall_forall in Hlt, Hall.
        destruct (Hall _ Hin) as [_ Hmax0]. cbn [fst] in Hmax0.
        assert (id_ok (rec_key r0)) as Hr0 by by eapply bt_ok_id.
        destruct (add_ok (rec_key r0) 1 Hr0 ltac:(done)) as [Ha Hv].
        rewrite lt_val by done. specialize (Hlt _ Hin). cbn [fst] in Hlt.
        rewrite Hv, wrap_small by (pose proof (id_val_range _ Hr0); unfold is_uint in *; lia).
        by rewrite (proj2 (Z.ltb_lt _ _)) by lia.
  - cbn [fmap list_fmap snd]. rewrite Hkey. split; [left|]. split; [lia|]. split.
    + intros k' r' [[= -> ->]|Hin]%elem_of_cons Hlt'; [lia|].
      rewrite Forall_forall in Hlt. specialize (Hlt _ Hin). cbn [fst] in Hlt. lia.
    + destruct (add_ok k 1 Hk ltac:(done)) as [Ha Hv].
      assert (id_val (PartialPacketId_add k 1) = id_val k + 1) as Hv'.
      { rewrite Hv. apply wrap_small. pose proof (id_val_range _ Hk). unfold is_uint in *. lia. }
      rewrite lt_val by done. rewrite (proj2 (Z.ltb_lt _ _)) by lia.
      change (list_fmap _ _ snd m) with (snd <$> m).
      destruct m as [|[k2 r2] m]; [done|]. cbn [skip_records]. fold (rec_key r2).
      apply Forall_cons in Hall as [[Hkey2 _] _]. cbn [fst snd] in *.
      apply Forall_cons in Hlt as [Hlt2 _]. cbn [fst] in Hlt2. destruct Hm as (Hk2 & _ & _).
      rewrite Hkey2, lt_val by done. by rewrite (proj2 (Z.ltb_ge _ _)) by lia.
Qed.

(** The choice between the queues: a head that was added last, none when all are empty. *)
Lemma pick_spec iters i best :
  match pick iters i best with
  | None => best = None /\ Forall (fun it => it = []) iters
  | Some (j, t) =>
      (best = Some (j, t) \/
       exists r rest, (i <= j)%nat /\ iters !! (j - i)%nat = Some (r :: rest) /\ sr_sent r = t) /\
      (forall b, best = Some b -> snd b <= t) /\
      (forall n r rest, iters !! n = Some (r :: rest) -> sr_sent r <= t)
  end.
Proof.
  revert i best. induction iters as [|it iters IH]; intros i best; cbn [pick].
  { destruct best as [[j t]|]; [|done]. split; [by left|]. split; [intros b [= <-]; simpl; lia|done]. }
  set (best' := match it with [] => best | r :: _ => _ end). specialize (IH (S i) best').
  destruct (pick iters (S i) best') as [[j t]|].
  - destruct IH as (Hfrom & Hbest & Hmax).
    assert ((forall b, best = Some b -> snd b <= t) /\
      (forall r rest, it = r :: rest -> sr_sent r <= t)) as [Hb Hr].
    { subst best'. destruct it as [|r rest]; [by split|].
      destruct best as [[j0 t0]|].
      - destruct (Z.ltb_spec t0 (sr_sent r)); specialize (Hbest _ eq_refl); cbn [snd] in Hbest;
          split; intros; simplify_eq/=; lia.
      - specialize (Hbest _ eq_refl). cbn [snd] in Hbest. split; intros; simplify_eq/=; lia. }
    split; [|split; [done|]].
    + destruct Hfrom as [Hbe|(r & rest & Hj & Hl & Ht)].
      * subst best'. destruct it as [|r rest]; [by left|].
        destruct (match best with Some (_, t0) => t0 <? sr_sent r | None => true end); [|by left].
        injection Hbe as <- <-. right. exists r, rest. by rewrite Nat.sub_diag.
      * right. exists r, rest. split; [lia|]. replace (j - i)%nat with (S (j - S i)) by lia. done.
    + intros [|n] r rest Hn; simpl in Hn; [injection Hn as ->; by eapply Hr|by eapply Hmax].
  - destruct IH as [Hb Hall]. subst best'. destruct it as [|r rest].
    + split; [done|]. by constructor.
    + exfalso. destruct best as [[j0 t0]|]; [by destruct (t0 <? sr_sent r)|done].
Qed.

(** The relation between iterators, indices, queues and schedule that the loop maintains. *)
Definition fill_inv (full : list (list (PartialPacketId * SendRecord)))
    (iters : list (list SendRecord)) (q : list SendRecordId) (idx : list PartialPacketId) : Prop :=
  length idx = length full /\ length iters = length full /\
  forall i m start it, full !! i = Some m -> idx !! i = Some start -> iters !! i = Some it ->
    id_ok start /\ queue_ok m /\ it = skip_records start m /\ covered q start m.

Lemma covered_app q q' start m : covered q start m -> covered (q ++ q') start m.
Proof.
  intros Hc k r Hin Hlt. destruct (Hc k r Hin Hlt) as (s & Hs & He). exists s.
  split; [|done]. apply elem_of_app. by left.
Qed.

Lemma fill_step full iters q idx i r rest :
  fill_inv full iters q idx -> iters !! i = Some (r :: rest) ->
  fill_inv full (<[i := rest]> iters) (q ++ [sr_id r])
    (<[i := PartialPacketId_add (rec_key r) 1]> idx).
Proof.
  intros (Hl1 & Hl2 & Hinv) Hi. pose proof (lookup_lt_Some _ _ _ Hi) as Hlt.
  split; [by rewrite length_insert|]. split; [by rewrite length_insert|].
  intros j m start it Hm Hs Hit. destruct (decide (j = i)) as [->|Hne].
  - rewrite list_lookup_insert_eq in Hs by lia.
    rewrite list_lookup_insert_eq in Hit by lia. injection Hs as <-. injection Hit as <-.
    destruct (lookup_lt_is_Some_2 idx i) as [start Hstart]; [lia|].
    destruct (Hinv i m start (r :: rest) Hm Hstart Hi) as (Hso & Hq & Heq & Hc).
    pose proof (skip_records_spec start m Hso Hq) as Hskip. rewrite <- Heq in Hskip.
    destruct Hskip as (Hin & Hge & Hbelow & Hrest).
    destruct Hq as [Hbt Hall]. assert (id_ok (rec_key r)) as Hr by by eapply bt_ok_id.
    destruct (add_ok (rec_key r) 1 Hr ltac:(done)) as [Ha Hv].
    split; [done|]. split; [done|]. split; [done|]. intros k r' Hin' Hlt'.
    rewrite Forall_forall in Hall. destruct (Hall _ Hin) as [_ Hmax]. cbn [fst] in Hmax.
    rewrite Hv, wrap_small in Hlt' by (pose proof (id_val_range _ Hr); unfold is_uint in *; lia).
    destruct (decide (k = rec_key r)) as [->|Hk].
    + assert (r' = r) as ->.
      { apply (bt_lookup_elem (rec_key r) m r' Hbt) in Hin'. apply bt_lookup_elem in Hin; [|done].
        congruence. }
      exists (sr_id r). split; [|done]. apply elem_of_app. right. left.
    + apply (covered_app q [sr_id r] start m Hc k r' Hin'). apply (Hbelow k r' Hin').
      assert (id_val k <> id_val (rec_key r)); [|lia]. intros He. apply Hk.
      apply id_val_inj; [by eapply bt_ok_id|done|done].
  - rewrite list_lookup_insert_ne in Hs by done. rewrite list_lookup_insert_ne in Hit by done.
    destruct (Hinv j m start it Hm Hs Hit) as (? & ? & ? & Hc). repeat (split; [done|]).
    by apply covered_app.
Qed.

Lemma fill_loop_spec n full iters q idx : fill_inv full iters q idx ->
  let '(q', idx', ran_out) := fill_loop n iters q idx in
  exists iters', fill_inv full iters' q' idx' /\
    (length q <= length q' <= length q + n)%nat /\
    (if ran_out then Forall (fun it => it = []) iters' else length q' = (length q + n)%nat).
Proof.
  revert iters q idx. induction n as [|n IH]; intros iters q idx Hinv; cbn [fill_loop].
  { exists iters. split; [done|]. lia. }
  pose proof (pick_spec iters 0 None) as Hp. destruct (pick iters 0 None) as [[i t]|].
  - destruct Hp as ([?|(r & rest & _ & Hi & _)] & _); [done|]. rewrite Nat.sub_0_r in Hi.
    rewrite Hi. specialize (IH (<[i := rest]> iters) (q ++ [sr_id r])
      (<[i := PartialPacketId_add (rec_key r) 1]> idx) (fill_step _ _ _ _ _ _ _ Hinv Hi)).
    unfold rec_key in IH.
    destruct (fill_loop n _ _ _) as [[q' idx'] ran]. destruct IH as (iters' & Hinv' & Hlen & Hran).
    rewrite length_app in *. cbn [length] in *. exists iters'. split; [done|]. split; [lia|].
    destruct ran; [done|lia].
  - exists iters. split; [done|]. split; [lia|]. apply Hp.
Qed.

(** * The invariant of the resender *)

(** Every packet that is waiting for an ack and lies below the index of its type is in the send
    queue. *)
Definition resender_ok (r : Resender) : Prop :=
  length (full_send_queue r) = 3%nat /\ length (send_queue_indices r) = 3%nat /\
  forall i m start, full_send_queue r !! i = Some m -> send_queue_indices r !! i = Some start ->
    id_ok start /\ queue_ok m /\ covered (send_queue r) start m.

(** Every packet that is waiting for an ack is in the send queue. *)
Definition all_scheduled (r : Resender) : Prop :=
  forall i m k rec, full_send_queue r !! i = Some m -> (k, rec) ∈ m ->
    exists s, s ∈ send_queue r /\ sri_id s = sri_id (sr_id rec).

Lemma lookup_3 {A} (l : list A) i : length l = 3%nat -> (i < 3)%nat -> exists x, l !! i = Some x.
Proof. intros Hl Hi. apply lookup_lt_is_Some_2. lia. Qed.

Section properties.
Context `{BeIo, Cubic}.

Lemma fill_inv_start r : resender_ok r ->
  fill_inv (full_send_queue r) (zip_with skip_records (send_queue_indices r) (full_send_queue r))
    (send_queue r) (send_queue_indices r).
Proof.
  intros (Hf & Hi & Hall). split; [lia|]. split; [rewrite length_zip_with; lia|].
  intros i m start it Hm Hs Hit. destruct (Hall i m start Hm Hs) as (? & ? & ?).
  rewrite lookup_zip_with, Hs, Hm in Hit. simplify_eq/=. done.
Qed.

Lemma fill_up_spec r now : resender_ok r ->
  let r' := fill_up_send_queue r now in
  resender_ok r' /\ full_send_queue r' = full_send_queue r /\
  config r' = config r /\ w_max r' = w_max r /\ state r' = state r /\
  (all_scheduled r' \/ get_window r now <= Z.of_nat (length (send_queue r'))) /\
  Z.of_nat (length (send_queue r'))
    <= Z.max (Z.of_nat (length (send_queue r))) (get_window r now).
Proof.
  intros Hr. cbv zeta. pose proof (fill_inv_start r Hr) as Hinv.
  unfold fill_up_send_queue. set (rounds := Z.to_nat _).
  pose proof (fill_loop_spec rounds _ _ _ _ Hinv) as Hspec.
  destruct (fill_loop rounds _ _ _) as [[q idx] ran].
  destruct Hspec as (iters' & (Hl1 & Hl2 & Hall) & Hlen & Hran).
  set (r' := if ran then _ else _).
  assert (send_queue r' = q /\ full_send_queue r' = full_send_queue r /\
    send_queue_indices r' = idx /\ config r' = config r /\ w_max r' = w_max r /\
    state r' = state r) as (Hq & Hf & Hi & Hc & Hw & Hst).
  { subst r'. destruct ran; [done|]. by destruct (no_congestion_since _). }
  destruct Hr as (Hr1 & Hr2 & _).
  split.
  { split; [by rewrite Hf|]. split; [rewrite Hi; lia|]. intros i m start Hm Hs.
    rewrite Hf in Hm. rewrite Hi in Hs. rewrite Hq.
    destruct (lookup_lt_is_Some_2 iters' i) as [it Hit].
    { apply lookup_lt_Some in Hm. lia. }
    destruct (Hall i m start it Hm Hs Hit) as (? & ? & _ & ?). done. }
  split; [done|]. split; [done|]. split; [done|]. split; [done|]. rewrite Hq. split; [|lia].
  destruct ran.
  - left. intros i m k rec Hm Hin. rewrite Hf in Hm. rewrite Hq.
    pose proof (lookup_lt_Some _ _ _ Hm) as Hlt.
    destruct (lookup_lt_is_Some_2 iters' i) as [it Hit]; [lia|].
    destruct (lookup_lt_is_Some_2 idx i) as [start Hs]; [lia|].
    destruct (Hall i m start it Hm Hs Hit) as (Hso & Hqo & Heq & Hcov).
    rewrite Forall_forall in Hran. assert (it = []) as -> by by eapply Hran, list_elem_of_lookup_2.
    pose proof (skip_records_spec start m Hso Hqo) as Hsk. rewrite <- Heq in Hsk.
    apply (Hcov k rec Hin). by eapply Hsk.
  - right. lia.
Qed.

(** Adding a packet: its queue gets the record, and what was scheduled stays scheduled. *)
Lemma insert_ok r i id rec m start :
  resender_ok r -> full_send_queue r !! i = Some m -> send_queue_indices r !! i = Some start ->
  id_ok id -> id_val id + 1 < 2 ^ 48 -> rec_key rec = id ->
  resender_ok (with_queues r (send_queue r) (<[i := bt_insert id rec m]> (full_send_queue r))
    (if PartialPacketId_lt id start then <[i := id]> (send_queue_indices r)
     else send_queue_indices r)) .
Proof.
  intros (H1' & H2' & Hall) Hm Hs Hid Hmax Hkey.
  destruct (Hall i m start Hm Hs) as (Hso & [Hbt Hq] & Hcov).
  set (idx := if PartialPacketId_lt id start then _ else _).
  assert (length idx = 3%nat) as Hidx by (unfold idx; destruct (PartialPacketId_lt _ _);
    by rewrite ?length_insert).
  split; [cbn [full_send_queue with_queues]; by rewrite length_insert|]. split; [done|].
  intros j mj sj Hmj Hsj. cbn [full_send_queue with_queues send_queue_indices send_queue] in *.
  destruct (decide (j = i)) as [->|Hne].
  - pose proof (lookup_lt_Some _ _ _ Hm) as Hlt. pose proof (lookup_lt_Some _ _ _ Hs) as Hlt'.
    rewrite list_lookup_insert_eq in Hmj by done. injection Hmj as <-.
    assert (sj = (if PartialPacketId_lt id start then id else start)) as ->.
    { unfold idx in Hsj. destruct (PartialPacketId_lt id start).
      - rewrite list_lookup_insert_eq in Hsj by done. by injection Hsj.
      - congruence. }
    rewrite lt_val by done.
    split; [by destruct (id_val id <? id_val start)|]. split; [split; [by apply bt_insert_ok|]|].
    + apply Forall_forall. intros p Hp. apply bt_insert_elem in Hp as [->|[Hp _]]; [done| |done|done].
      rewrite Forall_forall in Hq. by apply Hq.
    + intros k rec' Hin Hlt1. apply bt_insert_elem in Hin as [Hin|[Hin Hk]]; [| |done|done].
      * injection Hin as -> ->. exfalso. destruct (Z.ltb_spec (id_val id) (id_val start)); lia.
      * apply (Hcov k rec' Hin). destruct (Z.ltb_spec (id_val id) (id_val start)); lia.
  - rewrite list_lookup_insert_ne in Hmj by done.
    assert (send_queue_indices r !! j = Some sj) as Hsj'.
    { unfold idx in Hsj. destruct (PartialPacketId_lt id start); [|done].
      by rewrite list_lookup_insert_ne in Hsj by done. }
    by apply (Hall j mj sj).
Qed.

Lemma send_packet_adds (r : Resender) (packet : OutUdpPacket) (now : Z) (id : PacketId) (i : nat)
    (Hr : resender_ok r) (Hid : PacketId_from packet = Ok id)
    (Hi : packet_type_to_index (pid_type id) = Ok i)
    (Hok : id_ok (pid_part id)) (Hmax : id_val (pid_part id) + 1 < 2 ^ 48) :
  exists r' m m',
    send_packet r packet now = Ok r' /\ resender_ok r' /\
    full_send_queue r !! i = Some m /\ full_send_queue r' = <[i := m']> (full_send_queue r) /\
    (forall p, p ∈ m' <->
      p = (pid_part id, {| sr_sent := now; sr_id := {| sri_last := now; sri_tries := 0; sri_id := id |};
                           sr_packet := packet |}) \/
      (p ∈ m /\ fst p <> pid_part id)) /\
    (all_scheduled r' \/ get_window r now <= Z.of_nat (length (send_queue r'))) /\
    Z.of_nat (length (send_queue r')) <= Z.max (Z.of_nat (length (send_queue r))) (get_window r now).
Proof.
  pose proof Hr as (H1' & H2' & Hall).
  assert (i < 3)%nat as Hi3 by (destruct (pid_type id); simplify_eq/=; lia).
  destruct (lookup_3 _ i H1' Hi3) as [m Hm]. destruct (lookup_3 _ i H2' Hi3) as [start Hs].
  destruct (Hall i m start Hm Hs) as (_ & [Hbt _] & _).
  unfold send_packet. rewrite Hid. cbn [res_bind]. rewrite Hi. cbn [res_bind].
  cbn [send_queue_indices full_send_queue with_times].
  rewrite (index_ok _ _ _ Hs), (index_ok _ _ _ Hm). cbn [res_bind].
  set (rec := {| sr_sent := now; sr_id := _; sr_packet := packet |}).
  set (r0 := with_times r _ _ _ _).
  pose proof (insert_ok r0 i (pid_part id) rec m start Hr Hm Hs Hok Hmax eq_refl) as Hins.
  cbn [full_send_queue with_times] in Hins. cbn [send_queue send_queue_indices with_times r0] in Hins.
  set (r1 := with_queues r0 _ _ _) in *.
  destruct (fill_up_spec r1 now Hins) as (Hok' & Hfull & _ & _ & _ & Hsched & Hlen).
  exists (fill_up_send_queue r1 now), m, (bt_insert (pid_part id) rec m).
  split; [done|]. split; [done|]. split; [done|]. split; [exact Hfull|].
  split; [intros p; by apply bt_insert_elem|]. split; [exact Hsched|exact Hlen].
Qed.

(** C24: no packet is forgotten.  Adding a packet to the resender succeeds, keeps the invariant,
    and stores the packet under its id; all other packets that wait for an ack are kept, of its
    queue and of the others.  Afterwards every packet that waits for an ack is scheduled for sending
    unless the congestion window is full, and the schedule grows at most to the window. *)
Theorem send_packet_spec (r : Resender) (packet : OutUdpPacket) (now : Z) (id : PacketId) (i : nat)
    (Hr : resender_ok r) (Hid : PacketId_from packet = Ok id)
    (Hi : packet_type_to_index (pid_type id) = Ok i)
    (Hok : id_ok (pid_part id)) (Hmax : id_val (pid_part id) + 1 < 2 ^ 48) :
  exists r' m m',
    send_packet r packet now = Ok r' /\ resender_ok r' /\
    full_send_queue r !! i = Some m /\ full_send_queue r' = <[i := m']> (full_send_queue r) /\
    (forall p, p ∈ m' <->
      p = (pid_part id, {| sr_sent := now; sr_id := {| sri_last := now; sri_tries := 0; sri_id := id |};
                           sr_packet := packet |}) \/
      (p ∈ m /\ fst p <> pid_part id)) /\
    (all_scheduled r' \/ get_window r now <= Z.of_nat (length (send_queue r'))) /\
    Z.of_nat (length (send_queue r')) <= Z.max (Z.of_nat (length (send_queue r))) (get_window r now).
Proof. by apply send_packet_adds. Qed.

(** After packet loss, when the schedule is rebuilt from the queues, again every waiting
    packet is scheduled unless the window is full, and no waiting packet is dropped. *)
Theorem rebuild_spec (r : Resender) (now : Z) (Hr : resender_ok r) :
  let r' := rebuild_send_queue r now in
  resender_ok r' /\ full_send_queue r' = full_send_queue r /\
  (all_scheduled r' \/ get_window r now <= Z.of_nat (length (send_queue r'))) /\
  Z.of_nat (length (send_queue r')) <= Z.max 0 (get_window r now).
Proof.
  cbv zeta. unfold rebuild_send_queue.
  set (r0 := with_queues r [] (full_send_queue r) (replicate 3 PartialPacketId_default)).
  assert (resender_ok r0) as Hr0.
  { destruct Hr as (H1' & H2' & Hall). split; [done|]. split; [done|]. intros i m start Hm Hs.
    apply lookup_replicate in Hs as [-> Hi].
    destruct (lookup_3 _ i H2' Hi) as [s0 Hs0].
    destruct (Hall i m s0 Hm Hs0) as (_ & Hq & _).
    split; [by split|]. split; [done|]. intros k rec Hin Hlt. exfalso.
    destruct Hq as [Hbt _]. pose proof (id_val_range k (bt_ok_id _ _ _ Hbt Hin)) as Hk.
    unfold is_uint in Hk. change (id_val PartialPacketId_default) with 0 in Hlt. lia. }
  destruct (fill_up_spec r0 now Hr0) as (Hok' & Hfull & _ & _ & _ & Hsched & Hlen).
  split; [done|]. split; [done|]. split; [exact Hsched|exact Hlen].
Qed.

(** The id an ack refers to: the one packet with this 16-bit id among the waiting packets. *)
Lemma acked_key_unique first p_id k :
  id_ok first -> id_ok k -> id_val first <= id_val k < id_val first + 65536 ->
  packet_id k = p_id ->
  k = (if packet_id first =? p_id then first else
       {| generation_id := if p_id <? packet_id first then wrap 32 (generation_id first + 1)
                           else generation_id first; packet_id := p_id |}).
Proof.
  destruct first as [g f], k as [g' f']. unfold id_ok, id_val, is_uint. simpl.
  intros [Hg Hf] [Hg' Hf'] Hr ->. change (2 ^ 16) with 65536 in *. change (2 ^ 32) with 4294967296 in *.
  destruct (Z.eqb_spec f p_id) as [->|Hne]; [f_equal; lia|].
  destruct (Z.ltb_spec p_id f); f_equal; [|lia].
  unfold wrap. change (2 ^ 32) with 4294967296. rewrite Z.mod_small; lia.
Qed.

Lemma remove_records_ok r i m m' :
  resender_ok r -> full_send_queue r !! i = Some m -> bt_ok m' ->
  (forall p, p ∈ m' -> p ∈ m) ->
  resender_ok (with_queues r (send_queue r) (<[i := m']> (full_send_queue r)) (send_queue_indices r)).
Proof.
  intros (H1' & H2' & Hall) Hm Hbt Hsub. pose proof (lookup_lt_Some _ _ _ Hm) as Hlt.
  split; [cbn [full_send_queue with_queues]; by rewrite length_insert|]. split; [done|].
  intros j mj sj Hmj Hsj. cbn [full_send_queue with_queues send_queue_indices send_queue] in *.
  destruct (decide (j = i)) as [->|Hne].
  - rewrite list_lookup_insert_eq in Hmj by done. injection Hmj as <-.
    destruct (Hall i m sj Hm Hsj) as (Hso & [Hb Hq] & Hcov).
    split; [done|]. split; [split; [done|]|].
    + apply Forall_forall. intros p Hp. rewrite Forall_forall in Hq. by apply Hq, Hsub.
    + intros k rec Hin. by apply Hcov, Hsub.
  - rewrite list_lookup_insert_ne in Hmj by done. by apply (Hall j mj sj).
Qed.

Lemma update_srtt_queues r sample :
  full_send_queue (update_srtt r sample) = full_send_queue r /\
  send_queue_indices (update_srtt r sample) = send_queue_indices r /\
  send_queue (update_srtt r sample) = send_queue r.
Proof. done. Qed.

Lemma update_srtt_ok r sample : resender_ok r -> resender_ok (update_srtt r sample).
Proof. done. Qed.

(** An ack removes the record it acknowledges. *)
Lemma ack_command_removes `{Profile} (r : Resender) (t : PacketType) (i : nat) (p_id : Z)
    (next : PartialPacketId) (now : Z) (m : list (PartialPacketId * SendRecord))
    (Hr : resender_ok r) (Hi : packet_type_to_index t = Ok i)
    (Hm : full_send_queue r !! i = Some m) (Hp : is_u16 p_id)
    (Hinit : t = Init -> p_id < 65535) (Hnext : id_ok next)
    (Hspan : forall p q, p ∈ m -> q ∈ m -> id_val (fst q) < id_val (fst p) + 65536) :
  exists r' item m',
    ack_command r t p_id next now = Ok (r', item) /\ resender_ok r' /\
    full_send_queue r' = <[i := m']> (full_send_queue r) /\
    (forall p, p ∈ m' <-> p ∈ m /\ packet_id (fst p) <> p_id) /\
    (forall pid p, item = Some pid -> p ∈ m' -> id_val (pid_part pid) < id_val (fst p)).
Proof.
  pose proof Hr as (_ & H2' & Hall).
  destruct (lookup_lt_is_Some_2 (send_queue_indices r) i) as [start Hs].
  { rewrite H2'. by destruct t; simplify_eq/=; lia. }
  destruct (Hall i m start Hm Hs) as (_ & [Hbt Hq] & _).
  unfold ack_command. rewrite Hi. cbn [res_bind]. rewrite (index_ok _ _ _ Hm). cbn [res_bind].
  destruct m as [|[first rec0] rest].
  { exists r, None, []. split; [done|]. split; [done|].
    split; [by rewrite list_insert_id|]. split; [|done]. intros p.
    split; [intros Hn|intros [Hn _]]; by apply not_elem_of_nil in Hn. }
  pose proof Hbt as (Hfirst & Hlt & Hbt'). set (m := (first, rec0) :: rest) in *.
  set (id := if packet_id first =? p_id then first else
       {| generation_id := if p_id <? packet_id first then wrap 32 (generation_id first + 1)
                           else generation_id first; packet_id := p_id |}).
  assert (packet_id id = p_id) as Hidp by (unfold id; by destruct (Z.eqb_spec (packet_id first) p_id)).
  assert (forall p, p ∈ m -> packet_id (fst p) = p_id -> fst p = id) as Huniq.
  { intros p Hin Hpp. assert (id_ok (fst p)) as Hpo by (destruct p; exact (bt_ok_id _ _ _ Hbt Hin)).
    apply acked_key_unique; [done|done| |done]. split; [|by apply (Hspan (first, rec0) p); [left|]].
    apply elem_of_cons in Hin as [->|Hin]; [done|]. rewrite Forall_forall in Hlt.
    specialize (Hlt _ Hin). lia. }
  assert (forall p, p ∈ bt_remove id m <-> p ∈ m /\ packet_id (fst p) <> p_id) as Hrem.
  { intros p. rewrite bt_remove_elem by done. split; intros [Hin Hne]; split; try done.
    - intros Hpp. apply Hne. by apply Huniq.
    - intros Hpp. apply Hne. by rewrite Hpp. }
  set (pick_id := if packet_id first =? p_id then _ else _).
  assert (exists item, pick_id = Ok (id, item) /\
    forall pid p, item = Some pid -> p ∈ bt_remove id m -> id_val (pid_part pid) < id_val (fst p))
    as (item & -> & Hitem).
  { subst pick_id id. destruct (Z.eqb_spec (packet_id first) p_id) as [He|He];
      [|by exists None].
    destruct rest as [|[k2 rec2] rest].
    - assert (forall p, ~ p ∈ bt_remove first m) as Hempty.
      { intros p Hp'. unfold m in Hp'. simpl in Hp'. rewrite bool_decide_true in Hp' by done.
        by apply not_elem_of_nil in Hp'. }
      case_bool_decide as Ht.
      + rewrite arith_ok by (unfold is_uint in *; specialize (Hinit Ht);
          change (2 ^ 16) with 65536 in *; lia). cbn [res_bind].
        eexists. split; [done|]. intros pid p _ Hp'. by apply Hempty in Hp'.
      + cbn [res_bind]. eexists. split; [done|]. intros pid p _ Hp'. by apply Hempty in Hp'.
    - cbn [res_bind]. eexists. split; [done|]. intros pid p [= <-] Hp'.
      cbn [pid_part]. apply Forall_cons in Hq as [_ Hq]. apply Forall_cons in Hq as [[Hk2 _] _].
      cbn [fst snd] in Hk2. unfold rec_key in Hk2. rewrite Hk2.
      destruct Hbt' as (Hk2o & Hlt2 & _). apply Forall_cons in Hlt as [Hlt1 _]. cbn [fst] in Hlt1.
      destruct (sub_ok k2 1 Hk2o ltac:(done)) as [_ ->].
      pose proof (id_val_range _ Hk2o). pose proof (id_val_range _ Hfirst). unfold is_uint in *.
      rewrite wrap_small by (unfold is_uint; lia).
      unfold m in Hp'. simpl in Hp'. rewrite bool_decide_true in Hp' by done.
      apply elem_of_cons in Hp' as [->|Hp']; [simpl; lia|]. rewrite Forall_forall in Hlt2.
      specialize (Hlt2 _ Hp'). lia. }
  cbn [res_bind]. destruct (bt_lookup id m) as [rec|] eqn:Hlook.
  - eexists _, item, (bt_remove id m). split; [done|]. split; [|split; [|split; [done|done]]].
    + assert (resender_ok (with_queues r (send_queue r) (<[i := bt_remove id m]> (full_send_queue r))
        (send_queue_indices r))) as Hok.
      { apply (remove_records_ok r i m); [done|done|by apply bt_remove_ok|].
        intros p Hp'. by apply Hrem in Hp' as [? _]. }
      by destruct (bool_decide _).
    + by destruct (bool_decide _).
  - exists r, item, m. split; [done|]. split; [done|]. split; [by rewrite list_insert_id|].
    assert (forall p, p ∈ m -> packet_id (fst p) <> p_id) as Hnone.
    { intros [k rec] Hin Hpp. assert (k = id) as -> by by apply (Huniq (k, rec)).
      apply bt_lookup_elem in Hin; [|done]. congruence. }
    split; [intros p; split; [intros Hin; split; [done|by apply Hnone]|tauto]|].
    intros pid p Hpid Hin. apply (Hitem pid p Hpid), Hrem. split; [done|by apply Hnone].
Qed.

(** C23: an ack removes exactly the packet it acknowledges, although it carries only 16 bits of
    its id: among the waiting packets of a type, which span less than 2^16 ids, exactly the one
    with this id is removed, all others and all other queues are kept, and the invariant holds
    again.  When an acknowledgement is reported to the stream, then no packet with an id up to the
    reported one is waiting any more. *)
Theorem ack_command_spec `{Profile} (r : Resender) (t : PacketType) (i : nat) (p_id : Z)
    (next : PartialPacketId) (now : Z) (m : list (PartialPacketId * SendRecord))
    (Hr : resender_ok r) (Hi : packet_type_to_index t = Ok i)
    (Hm : full_send_queue r !! i = Some m) (Hp : is_u16 p_id)
    (Hinit : t = Init -> p_id < 65535) (Hnext : id_ok next)
    (Hspan : forall p q, p ∈ m -> q ∈ m -> id_val (fst q) < id_val (fst p) + 65536) :
  exists r' item m',
    ack_command r t p_id next now = Ok (r', item) /\ resender_ok r' /\
    full_send_queue r' = <[i := m']> (full_send_queue r) /\
    (forall p, p ∈ m' <-> p ∈ m /\ packet_id (fst p) <> p_id) /\
    (forall pid p, item = Some pid -> p ∈ m' -> id_val (pid_part pid) < id_val (fst p)).
Proof. by apply (ack_command_removes r t i p_id next now m). Qed.

(** [is_full] compares the congestion window with the number of packet types, which is three,
    and not with the number of waiting packets: whether the resender is full does not depend on
    its queues. *)
Theorem is_full_ignores_queues (r : Resender) (now : Z) (Hr : resender_ok r) :
  is_full r now = (get_window r now <=? 3) /\
  forall q full idx, length full = 3%nat -> is_full (with_queues r q full idx) now = is_full r now.
Proof.
  destruct Hr as (Hl & _). unfold is_full. rewrite Hl. split; [done|]. intros q full idx Hf.
  cbn [full_send_queue with_queues]. by rewrite Hf.
Qed.

(** When there is room for one more packet, the choice between the three queues falls on the
    one whose first unscheduled packet was added last: the packets that have waited longest are
    served last. *)
Theorem pick_serves_newest (iters : list (list SendRecord)) (i : nat) (t : Z)
    (Hpick : pick iters 0 None = Some (i, t)) :
  exists rec rest, iters !! i = Some (rec :: rest) /\ sr_sent rec = t /\
    forall j rec' rest', iters !! j = Some (rec' :: rest') -> sr_sent rec' <= sr_sent rec.
Proof.
  pose proof (pick_spec iters 0 None) as Hs. rewrite Hpick in Hs.
  destruct Hs as ([?|(rec & rest & _ & Hi & <-)] & _ & Hmax); [done|].
  rewrite Nat.sub_0_r in Hi. by exists rec, rest.
Qed.

End properties.

(** * Witnesses *)

#[global] Instance constant_cubic : Cubic := {| cubic _ _ := 50 |}.

Lemma resender_default_ok now : resender_ok (Resender_default now).
Proof.
  split; [done|]. split; [done|]. intros i m start Hm Hs.
  apply lookup_replicate in Hm as [-> _]. apply lookup_replicate in Hs as [-> _].
  split; [by split|]. split; [by split; [|constructor]|]. intros k r Hn. by apply not_elem_of_nil in Hn.
Qed.

(** A client command with id 7. *)
Definition sample_out : OutUdpPacket :=
  {| ou_generation_id := 0;
     ou_data := {| op_dir := C2S; op_data := replicate 8 0 ++ [0; 7; 0; 1; 2; 99] |} |}.

Definition sample_id : PacketId :=
  {| pid_type := Command; pid_part := {| generation_id := 0; packet_id := 7 |} |}.

(** The packet is sent beside the one with id 8. *)
Definition other_out : OutUdpPacket :=
  {| ou_generation_id := 0;
     ou_data := {| op_dir := C2S; op_data := replicate 8 0 ++ [0; 8; 0; 1; 2; 99] |} |}.

Definition other_id : PacketId :=
  {| pid_type := Command; pid_part := {| generation_id := 0; packet_id := 8 |} |}.

Definition sent_record (id : PacketId) (packet : OutUdpPacket) (now : Z) : SendRecord :=
  {| sr_sent := now; sr_id := {| sri_last := now; sri_tries := 0; sri_id := id |}; sr_packet := packet |}.

(** One packet waits, and then two. *)
Definition sent_one : Resender :=
  match send_packet (Resender_default 5) other_out 6 with Ok r => r | _ => Resender_default 5 end.
Definition sent_two : Resender := match send_packet sent_one sample_out 7 with Ok r => r | _ => sent_one end.

Lemma sent_one_ok : resender_ok sent_one.
Proof.
  destruct (send_packet_adds (Resender_default 5) other_out 6 other_id 1) as (r' & m & m' & Hs & Hok & _).
  - apply resender_default_ok.
  - reflexivity.
  - reflexivity.
  - split; by vm_compute.
  - by vm_compute.
  - unfold sent_one. by rewrite Hs.
Qed.

Lemma sent_two_ok : resender_ok sent_two.
Proof.
  destruct (send_packet_adds sent_one sample_out 7 sample_id 1) as (r' & m & m' & Hs & Hok & _).
  - apply sent_one_ok.
  - reflexivity.
  - reflexivity.
  - split; by vm_compute.
  - by vm_compute.
  - unfold sent_two. by rewrite Hs.
Qed.

Lemma send_packet_spec_witness : exists r' m',
  send_packet sent_one sample_out 7 = Ok r' /\ full_send_queue r' !! 1%nat = Some m' /\
  (pid_part sample_id, sent_record sample_id sample_out 7) ∈ m' /\
  (pid_part other_id, sent_record other_id other_out 6) ∈ m'.
Proof.
  destruct (send_packet_spec sent_one sample_out 7 sample_id 1)
    as (r' & m & m' & Hs & _ & Hm & Hf & Hin & _).
  - apply sent_one_ok.
  - reflexivity.
  - reflexivity.
  - split; by vm_compute.
  - by vm_compute.
  - exists r', m'. split; [exact Hs|]. split; [by rewrite Hf|].
    assert (m = [(pid_part other_id, sent_record other_id other_out 6)]) as ->.
    { vm_compute in Hm. by injection Hm as <-. }
    split; apply Hin; [by left|right]. split; [by left|discriminate].
Defined.

Lemma rebuild_spec_witness : all_scheduled (rebuild_send_queue (Resender_default 5) 6) \/ 
  get_window (Resender_default 5) 6 <= 0.
Proof.
  destruct (rebuild_spec (Resender_default 5) 6 (resender_default_ok 5)) as (_ & _ & [Hs|Hs] & _).
  - by left.
  - by right.
Defined.

(** Two packets wait, and the one with id 7 is acknowledged. *)
Lemma ack_command_spec_witness : exists r' m',
  ack_command (H1 := debug_profile) sent_two Command 7 PartialPacketId_default 9
    = Ok (r', Some sample_id) /\ full_send_queue r' = <[1%nat := m']> (full_send_queue sent_two) /\
  (forall p, p ∈ m' <-> p = (pid_part other_id, sent_record other_id other_out 6)).
Proof.
  set (kept := (pid_part other_id, sent_record other_id other_out 6)).
  set (acked := (pid_part sample_id, sent_record sample_id sample_out 7)).
  assert (forall p, p ∈ [acked; kept] -> p = acked \/ p = kept) as Hcase.
  { intros p. rewrite !elem_of_cons. intros [|[|Hp]]; [by left|by right|by apply not_elem_of_nil in Hp]. }
  destruct (ack_command_spec (H1 := debug_profile) sent_two Command 1 7
    PartialPacketId_default 9 [acked; kept]) as (r' & item & m' & Ha & _ & Hf & Hin & _).
  - apply sent_two_ok.
  - reflexivity.
  - reflexivity.
  - by vm_compute.
  - discriminate.
  - split; by vm_compute.
  - intros p q Hp Hq. apply Hcase in Hp as [-> | ->]; apply Hcase in Hq as [-> | ->]; by vm_compute.
  - exists r', m'. split; [|split; [exact Hf|]].
    + rewrite Ha. vm_compute in Ha. by injection Ha as <- <-.
    + intros p. rewrite Hin. split.
      * intros [Hp Hne]. apply Hcase in Hp as [-> | ->]; [by destruct Hne|done].
      * intros ->. split; [right; by left|discriminate].
Defined.

Lemma is_full_ignores_queues_witness : is_full (Resender_default 5) 6 = false.
Proof.
  destruct (is_full_ignores_queues (Resender_default 5) 6 (resender_default_ok 5)) as [Hf _].
  rewrite Hf. reflexivity.
Defined.

Definition sample_record (sent : Z) : SendRecord :=
  {| sr_sent := sent; sr_id := {| sri_last := sent; sri_tries := 0; sri_id := sample_id |};
     sr_packet := sample_out |}.

Lemma pick_serves_newest_witness : exists rec rest,
  [[]; [sample_record 3]; [sample_record 8]] !! 2%nat = Some (rec :: rest) /\ sr_sent rec = 8.
Proof.
  destruct (pick_serves_newest [[]; [sample_record 3]; [sample_record 8]] 2 8)
    as (rec & rest & Hi & Ht & _).
  - reflexivity.
  - exists rec, rest. split; [exact Hi|exact Ht].
Defined.
