(* ===== verification/Stats.v ===== *)
(** The network statistics of a connection ([ConnectionStats] and [ConnectionStatsCounter] of
    [tsproto/src/resend.rs]).  The arrays are lists of their length.  The quotients that are
    computed in [f32] are given by numerator and denominator. *)
From S2P Require Import Prelude ByteIO Packets.

Inductive PacketStat := InControl | InKeepalive | InSpeech | OutControl | OutKeepalive | OutSpeech.

Definition PacketStat_index (s : PacketStat) : nat :=
  match s with
  | InControl => 0 | InKeepalive => 1 | InSpeech => 2
  | OutControl => 3 | OutKeepalive => 4 | OutSpeech => 5
  end.

Definition PacketStat_from (t : PacketType) (incoming : bool) : PacketStat :=
  match t with
  | Voice | VoiceWhisper => if incoming then InSpeech else OutSpeech
  | Command | CommandLow | Ack | AckLow | Init => if incoming then InControl else OutControl
  | Ping | Pong => if incoming then InKeepalive else OutKeepalive
  end.

Inductive PacketLossStat :=
  | VoiceInCount | VoiceInLost | AckOutCount | AckOutLost | AckInCount | AckInLost
  | AckInOrCommandOutLost | CommandOutCount | PongInCount | PongInLost | PingOutCount
  | PingInCount | PingInLost.

Definition PacketLossStat_index (s : PacketLossStat) : nat :=
  match s with
  | VoiceInCount => 0 | VoiceInLost => 1 | AckOutCount => 2 | AckOutLost => 3
  | AckInCount => 4 | AckInLost => 5 | AckInOrCommandOutLost => 6 | CommandOutCount => 7
  | PongInCount => 8 | PongInLost => 9 | PingOutCount => 10 | PingInCount => 11
  | PingInLost => 12
  end.

Definition UDP_HEADER_SIZE : Z := 8.
Definition IPV4_HEADER_SIZE : Z := 20.

Record ConnectionStatsCounter := { sc_bytes : list Z; sc_packet_loss : list Z }.

Definition ConnectionStatsCounter_default : ConnectionStatsCounter :=
  {| sc_bytes := replicate 6 0; sc_packet_loss := replicate 13 0 |}.

(** The round trip times are in [Resend]. *)
Record ConnectionStats := {
  total_packets : list Z;
  total_bytes : list Z;
  packet_loss : list Z;
  last_second_bytes : list (list Z);
  next_second_index : Z;
}.

Definition ConnectionStats_default : ConnectionStats := {|
  total_packets := replicate 6 0; total_bytes := replicate 6 0; packet_loss := replicate 13 0;
  last_second_bytes := replicate 60 (replicate 6 0); next_second_index := 0;
|}.

Section stats.
Context `{Profile}.

(** [a[i] += x] on an array of [w]-bit integers. *)
Definition add_at (w : Z) (a : list Z) (i : nat) (x : Z) : res PacketError (list Z) :=
  let? y := index a i in
  let? z := arith w (y + x) in
  Ok (<[i := z]> a).

(** The counters that an incoming packet changes. *)
Definition loss_stats (t : PacketType) : option (PacketLossStat * PacketLossStat) :=
  if PacketType_is_voice t then Some (VoiceInCount, VoiceInLost)
  else if PacketType_is_ack t then Some (AckInCount, AckInLost)
  else if bool_decide (t = Pong) then Some (PongInCount, PongInLost)
  else if bool_decide (t = Ping) then Some (PingInCount, PingInLost)
  else None.

(** [Resender::handle_loss_incoming], the packet given by its type, id and length. *)
Definition handle_loss_incoming (c : ConnectionStatsCounter) (s : ConnectionStats)
    (p_type : PacketType) (id : Z) (packet_len : nat) (in_recv_win : bool) (cur_next : Z)
    : res PacketError (ConnectionStatsCounter * ConnectionStats) :=
  let id_diff := wrap 16 (id - cur_next) in
  let p_stat := PacketStat_index (PacketStat_from p_type true) in
  let? len1 := arith 32 (wrap 32 (Z.of_nat packet_len) + UDP_HEADER_SIZE) in
  let? len := arith 32 (len1 + IPV4_HEADER_SIZE) in
  let? bytes := add_at 32 (sc_bytes c) p_stat len in
  let? packets := add_at 64 (total_packets s) p_stat 1 in
  let? all_bytes := add_at 64 (total_bytes s) p_stat len in
  let s := {| total_packets := packets; total_bytes := all_bytes; packet_loss := packet_loss s;
              last_second_bytes := last_second_bytes s; next_second_index := next_second_index s |} in
  let? loss :=
    match loss_stats p_type with
    | None => Ok (sc_packet_loss c)
    | Some (count, lost) =>
        let count := PacketLossStat_index count in
        let lost := PacketLossStat_index lost in
        if in_recv_win then
          let? inc := arith 32 (id_diff + 1) in
          let? l := add_at 32 (sc_packet_loss c) count inc in
          add_at 32 l lost id_diff
        else
          let? y := index (sc_packet_loss c) lost in
          Ok (<[lost := Z.max 0 (y - 1)]> (sc_packet_loss c))
    end in
  Ok ({| sc_bytes := bytes; sc_packet_loss := loss |}, s).

(** [ConnectionStatsCounter::handle_loss_outgoing] *)
Definition counter_handle_loss_outgoing (c : ConnectionStatsCounter) (p_type : PacketType)
    (p_stat : PacketStat) (len : Z) : res PacketError ConnectionStatsCounter :=
  let? bytes := add_at 32 (sc_bytes c) (PacketStat_index p_stat) len in
  let? loss :=
    if PacketType_is_ack p_type then
      add_at 32 (sc_packet_loss c) (PacketLossStat_index AckOutCount) 1
    else if bool_decide (p_type = Ping) then
      add_at 32 (sc_packet_loss c) (PacketLossStat_index PingOutCount) 1
    else if PacketType_is_command p_type then
      add_at 32 (sc_packet_loss c) (PacketLossStat_index CommandOutCount) 1
    else Ok (sc_packet_loss c) in
  Ok {| sc_bytes := bytes; sc_packet_loss := loss |}.

(** [ConnectionStats::handle_loss_outgoing] *)
Definition stats_handle_loss_outgoing (s : ConnectionStats) (p_stat : PacketStat) (len : Z)
    : res PacketError ConnectionStats :=
  let? packets := add_at 64 (total_packets s) (PacketStat_index p_stat) 1 in
  let? all_bytes := add_at 64 (total_bytes s) (PacketStat_index p_stat) len in
  Ok {| total_packets := packets; total_bytes := all_bytes; packet_loss := packet_loss s;
        last_second_bytes := last_second_bytes s; next_second_index := next_second_index s |}.

(** [Resender::handle_loss_outgoing] *)
Definition handle_loss_outgoing (c : ConnectionStatsCounter) (s : ConnectionStats)
    (p_type : PacketType) (packet_len : nat)
    : res PacketError (ConnectionStatsCounter * ConnectionStats) :=
  let p_stat := PacketStat_from p_type false in
  let? len1 := arith 32 (wrap 32 (Z.of_nat packet_len) + UDP_HEADER_SIZE) in
  let? len := arith 32 (len1 + IPV4_HEADER_SIZE) in
  let? c := counter_handle_loss_outgoing c p_type p_stat len in
  let? s := stats_handle_loss_outgoing s p_stat len in
  Ok (c, s).

Definition handle_loss_resend_ack (c : ConnectionStatsCounter)
    : res PacketError ConnectionStatsCounter :=
  let? loss := add_at 32 (sc_packet_loss c) (PacketLossStat_index AckOutLost) 1 in
  Ok {| sc_bytes := sc_bytes c; sc_packet_loss := loss |}.

Definition handle_loss_resend_command (c : ConnectionStatsCounter)
    : res PacketError ConnectionStatsCounter :=
  let? loss := add_at 32 (sc_packet_loss c) (PacketLossStat_index AckInOrCommandOutLost) 1 in
  Ok {| sc_bytes := sc_bytes c; sc_packet_loss := loss |}.

(** The reset of the counters at the end of a second, in [Resender::poll_ping]. *)
Definition stats_tick (c : ConnectionStatsCounter) (s : ConnectionStats)
    : res PacketError (ConnectionStatsCounter * ConnectionStats) :=
  let second_index := next_second_index s in
  let? seconds := set_index (last_second_bytes s) (Z.to_nat second_index) (sc_bytes c) in
  let? next := arith 8 (second_index + 1) in
  Ok (ConnectionStatsCounter_default,
      {| total_packets := total_packets s; total_bytes := total_bytes s;
         packet_loss := sc_packet_loss c; last_second_bytes := seconds;
         next_second_index := next mod 60 |}).

Definition get_last_second_bytes (s : ConnectionStats) : res PacketError (list Z) :=
  let? a := arith 8 (next_second_index s + 60) in
  let? b := arith 8 (a - 1) in
  index (last_second_bytes s) (Z.to_nat (b mod 60)).

(** [f32] quotients: [None] stands for [0.0], [Some (lost, count)] for [lost / count]. *)
Definition loss_at (s : ConnectionStats) (k : PacketLossStat) : res PacketError Z :=
  index (packet_loss s) (PacketLossStat_index k).

Definition quotient (lost count : Z) : option (Z * Z) :=
  if count =? 0 then None else Some (lost, count).

Definition get_packetloss_s2c_speech (s : ConnectionStats) : res PacketError (option (Z * Z)) :=
  let? count := loss_at s VoiceInCount in
  let? lost := loss_at s VoiceInLost in
  Ok (quotient lost count).

Definition get_packetloss_s2c_keepalive (s : ConnectionStats) : res PacketError (option (Z * Z)) :=
  let? a := loss_at s PingInCount in
  let? b := loss_at s PongInCount in
  let? count := arith 32 (a + b) in
  let? x := loss_at s PingInLost in
  let? y := loss_at s PongInLost in
  Ok (quotient (x + y) count).

Definition get_packetloss_s2c_control (s : ConnectionStats) : res PacketError (option (Z * Z)) :=
  let? count := loss_at s AckInCount in
  let? lost := loss_at s AckInLost in
  Ok (quotient lost count).

(** The sum of the counters, in 32 bits. *)
Fixpoint loss_sum (s : ConnectionStats) (acc : Z) (ks : list PacketLossStat) : res PacketError Z :=
  match ks with
  | [] => Ok acc
  | k :: ks => let? x := loss_at s k in let? acc := arith 32 (acc + x) in loss_sum s acc ks
  end.

(** The numerators of the next ones are summed as [f32]. *)
Definition get_packetloss_s2c_total (s : ConnectionStats) : res PacketError (option (Z * Z)) :=
  let? a := loss_at s VoiceInCount in
  let? count := loss_sum s a [PingInCount; PongInCount; AckInCount] in
  let? v := loss_at s VoiceInLost in
  let? x := loss_at s PingInLost in
  let? y := loss_at s PongInLost in
  let? z := loss_at s AckInLost in
  Ok (quotient (v + x + y + z) count).

(** The average of what is lost in both directions. *)
Definition get_packetloss (s : ConnectionStats) : res PacketError (option (Z * Z)) :=
  let? a := loss_at s VoiceInCount in
  let? count := loss_sum s a [PingInCount; PongInCount; AckInCount; AckOutCount; CommandOutCount] in
  if count =? 0 then Ok None
  else
    let? lost := loss_at s AckInOrCommandOutLost in
    let? ack := loss_at s AckInLost in
    let? commands := loss_at s CommandOutCount in
    let command_out_lost := Z.min (Z.max 0 (lost - ack)) commands in
    let? v := loss_at s VoiceInLost in
    let? x := loss_at s PingInLost in
    let? y := loss_at s PongInLost in
    let? z := loss_at s AckOutLost in
    Ok (Some (v + x + y + ack + z + command_out_lost, count)).

(** Adds the bytes of a second to the sums of the minute; [bytes] is as long as the sums. *)
Fixpoint add_bytes (bytes : list Z) (bs : list Z) : res PacketError (list Z) :=
  match bs with
  | [] => Ok bytes
  | b :: bs =>
      match bytes with
      | [] => Panic
      | x :: bytes => let? x := arith 64 (x + b) in let? l := add_bytes bytes bs in Ok (x :: l)
      end
  end.

Fixpoint add_seconds (bytes : list Z) (seconds : list (list Z)) : res PacketError (list Z) :=
  match seconds with
  | [] => Ok bytes
  | bs :: seconds => let? bytes := add_bytes bytes bs in add_seconds bytes seconds
  end.

Definition get_last_minute_bytes (s : ConnectionStats) : res PacketError (list Z) :=
  add_seconds (replicate 6 0) (last_second_bytes s).

End stats.

(** * Properties *)

(** The shape of the arrays. *)
Definition counter_ok (c : ConnectionStatsCounter) : Prop :=
  length (sc_bytes c) = 6%nat /\ length (sc_packet_loss c) = 13%nat.

Definition stats_ok (s : ConnectionStats) : Prop :=
  length (total_packets s) = 6%nat /\ length (total_bytes s) = 6%nat /\
  length (packet_loss s) = 13%nat /\ length (last_second_bytes s) = 60%nat /\
  0 <= next_second_index s < 60.

(** One event that changes the counters. *)
Inductive stats_event :=
  | EvIncoming (t : PacketType) (id : Z) (len : nat) (in_win : bool) (cur_next : Z)
  | EvOutgoing (t : PacketType) (len : nat)
  | EvResendAck
  | EvResendCommand
  | EvTick.

Definition stats_step `{Profile} (cs : ConnectionStatsCounter * ConnectionStats) (e : stats_event)
    : res PacketError (ConnectionStatsCounter * ConnectionStats) :=
  let '(c, s) := cs in
  match e with
  | EvIncoming t id len in_win cur => handle_loss_incoming c s t id len in_win cur
  | EvOutgoing t len => handle_loss_outgoing c s t len
  | EvResendAck => let? c := handle_loss_resend_ack c in Ok (c, s)
  | EvResendCommand => let? c := handle_loss_resend_command c in Ok (c, s)
  | EvTick => stats_tick c s
  end.

Fixpoint stats_run `{Profile} (cs : ConnectionStatsCounter * ConnectionStats) (l : list stats_event)
    : res PacketError (ConnectionStatsCounter * ConnectionStats) :=
  match l with
  | [] => Ok cs
  | e :: l => let? cs := stats_step cs e in stats_run cs l
  end.

Section properties.
Context `{Profile}.

Lemma add_at_ok w a i x b : add_at w a i x = Ok b -> exists y z, a !! i = Some y /\
  arith (E := PacketError) w (y + x) = Ok z /\ b = <[i := z]> a.
Proof.
  unfold add_at, index. intros Ha. destruct (a !! i) as [y|]; [|done]. simpl in Ha.
  inv_binds. subst b. eauto.
Qed.

Lemma add_at_length w a i x b : add_at w a i x = Ok b -> length b = length a.
Proof. intros (y & z & _ & _ & ->)%add_at_ok. apply length_insert. Qed.

Lemma add_at_other w a i x b j : add_at w a i x = Ok b -> j <> i -> b !! j = a !! j.
Proof. intros (y & z & _ & _ & ->)%add_at_ok Hj. by apply list_lookup_insert_ne. Qed.

(** The counters of pongs are zero, in the running second and in the last one. *)
Definition no_pongs (cs : ConnectionStatsCounter * ConnectionStats) : Prop :=
  length (sc_packet_loss (fst cs)) = 13%nat /\
  sc_packet_loss (fst cs) !! 8%nat = Some 0 /\ sc_packet_loss (fst cs) !! 9%nat = Some 0 /\
  packet_loss (snd cs) !! 8%nat = Some 0 /\ packet_loss (snd cs) !! 9%nat = Some 0.

Lemma loss_stats_not_pong t count lost : loss_stats t = Some (count, lost) ->
  PacketLossStat_index count <> 8%nat /\ PacketLossStat_index count <> 9%nat /\
  PacketLossStat_index lost <> 8%nat /\ PacketLossStat_index lost <> 9%nat.
Proof. destruct t; intros [= <- <-]; repeat split; discriminate. Qed.

Lemma no_pongs_add c s w i x l : no_pongs (c, s) -> add_at w (sc_packet_loss c) i x = Ok l ->
  i <> 8%nat -> i <> 9%nat ->
  length l = 13%nat /\ l !! 8%nat = Some 0 /\ l !! 9%nat = Some 0.
Proof.
  intros (Hl & H8 & H9 & _) Ha Hi8 Hi9. simpl in *.
  rewrite (add_at_length _ _ _ _ _ Ha), !(add_at_other _ _ _ _ _ _ Ha) by done. done.
Qed.

Lemma no_pongs_incoming c s t id len in_win cur cs' : no_pongs (c, s) ->
  handle_loss_incoming c s t id len in_win cur = Ok cs' -> no_pongs cs'.
Proof.
  intros Hc. unfold handle_loss_incoming. intros Hs. inv_binds. subst cs'.
  pose proof Hc as (Hl & H8 & H9 & H8' & H9'). unfold no_pongs. cbn [fst snd sc_packet_loss packet_loss] in *.
  enough (length a4 = 13%nat /\ a4 !! 8%nat = Some 0 /\ a4 !! 9%nat = Some 0) by tauto.
  destruct (loss_stats t) as [[count lost]|] eqn:Ht; [|by simplify_eq].
  destruct (loss_stats_not_pong _ _ _ Ht) as (Hc8 & Hc9 & Hl8 & Hl9).
  destruct in_win; inv_binds.
  - destruct (no_pongs_add c s _ _ _ _ Hc Ha6 Hc8 Hc9) as (Hl6 & H86 & H96).
    apply (no_pongs_add {| sc_bytes := sc_bytes c; sc_packet_loss := a6 |} s 32
      (PacketLossStat_index lost) (wrap 16 (id - cur))); try done.
  - subst a4. rewrite length_insert, !list_lookup_insert_ne by done. done.
Qed.

Lemma no_pongs_step cs e cs' : no_pongs cs -> stats_step cs e = Ok cs' -> no_pongs cs'.
Proof.
  destruct cs as [c s]. intros Hc Hs. pose proof Hc as (Hl & H8 & H9 & H8' & H9').
  destruct e as [t id len in_win cur|t len| | |]; cbn [stats_step] in Hs.
  - by eapply no_pongs_incoming.
  - unfold handle_loss_outgoing, counter_handle_loss_outgoing, stats_handle_loss_outgoing in Hs.
    inv_binds. subst. unfold no_pongs. cbn [fst snd sc_packet_loss packet_loss] in *.
    enough (length a6 = 13%nat /\ a6 !! 8%nat = Some 0 /\ a6 !! 9%nat = Some 0) by tauto.
    repeat case_match; simplify_eq; try done; by eapply no_pongs_add.
  - unfold handle_loss_resend_ack in Hs. inv_binds. subst.
    destruct (no_pongs_add c s _ _ _ _ Hc Ha0) as (? & ? & ?); done.
  - unfold handle_loss_resend_command in Hs. inv_binds. subst.
    destruct (no_pongs_add c s _ _ _ _ Hc Ha0) as (? & ? & ?); done.
  - unfold stats_tick in Hs. inv_binds. subst. by repeat split.
Qed.

(** Pongs are never counted as pongs: [is_ack] already holds for them, so their branch is not
    reached.  After any sequence of received and sent packets and ticks, the pong counters are
    zero, and the keepalive packet loss that is reported is that of the pings alone. *)
Theorem pongs_never_counted (l : list stats_event) (c : ConnectionStatsCounter) (s : ConnectionStats)
    (Hrun : stats_run (ConnectionStatsCounter_default, ConnectionStats_default) l = Ok (c, s)) :
  loss_at s PongInCount = Ok 0 /\ loss_at s PongInLost = Ok 0.
Proof.
  assert (no_pongs (c, s)) as (_ & _ & _ & H8 & H9).
  { assert (no_pongs (ConnectionStatsCounter_default, ConnectionStats_default)) as Hd by done.
    revert Hrun Hd. generalize (ConnectionStatsCounter_default, ConnectionStats_default) as cs.
    induction l as [|e l IH]; intros cs Hrun Hd; simpl in Hrun; [by injection Hrun as ->|].
    inv_binds. eapply IH; [done|]. by eapply no_pongs_step. }
  unfold loss_at, index. simpl in *. by rewrite H8, H9.
Qed.

(** At the end of a second the bytes of that second become the last entry of the ring of 60
    seconds, which the index never leaves; the other 59 entries are kept and the counters start
    again at zero. *)
Theorem stats_tick_spec (c : ConnectionStatsCounter) (s : ConnectionStats) (Hs : stats_ok s)
    (Hc : counter_ok c) :
  exists s', stats_tick c s = Ok (ConnectionStatsCounter_default, s') /\ stats_ok s' /\
    get_last_second_bytes s' = Ok (sc_bytes c) /\
    forall i, i <> Z.to_nat (next_second_index s) ->
      last_second_bytes s' !! i = last_second_bytes s !! i.
Proof.
  destruct Hs as (H1 & H2 & H3 & H4 & H5). destruct Hc as [Hb Hl].
  unfold stats_tick. rewrite set_index_ok by lia. cbn [res_bind].
  rewrite arith_ok by (unfold is_uint; lia). cbn [res_bind].
  eexists. split; [done|]. split.
  { unfold stats_ok. cbn [total_packets total_bytes packet_loss last_second_bytes next_second_index].
    rewrite length_insert. repeat split; try done; apply Z.mod_pos_bound; lia. }
  unfold get_last_second_bytes. cbn [next_second_index last_second_bytes].
  pose proof (Z.mod_pos_bound (next_second_index s + 1) 60 ltac:(lia)).
  rewrite arith_ok by (unfold is_uint; lia). cbn [res_bind].
  rewrite arith_ok by (unfold is_uint; lia). cbn [res_bind].
  replace (((next_second_index s + 1) mod 60 + 60 - 1) mod 60) with (next_second_index s).
  - split; [|intros i Hi; by apply list_lookup_insert_ne].
    apply index_ok, list_lookup_insert_eq. lia.
  - rewrite <- Z.add_sub_assoc, Zplus_mod_idemp_l.
    replace (next_second_index s + 1 + (60 - 1)) with (next_second_index s + 1 * 60) by lia.
    rewrite Z_mod_plus_full. symmetry. apply Z.mod_small. lia.
Qed.

(** ** Loss rates *)

(** The counters of which one counts a part of the other. *)
Definition loss_pairs : list (nat * nat) := [(0, 1); (4, 5); (8, 9); (11, 12)]%nat.

Definition fractions (l : list Z) : Prop :=
  length l = 13%nat /\ forall i j, (i, j) ∈ loss_pairs -> 0 <= l !!! j <= l !!! i.

Lemma add_at_exact w a i x a' : overflow_checks = true -> add_at w a i x = Ok a' ->
  a' = <[i := a !!! i + x]> a /\ (i < length a)%nat.
Proof.
  intros Ho (y & z & Hy & Hz & ->)%add_at_ok. unfold arith in Hz. rewrite Ho in Hz.
  case_bool_decide; [|done]. injection Hz as <-. rewrite (list_lookup_total_correct _ _ _ Hy).
  split; [done|]. by apply lookup_lt_Some in Hy.
Qed.

Lemma loss_stats_pairs t count lost : loss_stats t = Some (count, lost) ->
  (PacketLossStat_index count, PacketLossStat_index lost) ∈ loss_pairs.
Proof. unfold loss_pairs. destruct t; intros [= <- <-]; cbn; rewrite !elem_of_cons; auto. Qed.

Lemma loss_pair_cases i j : (i, j) ∈ loss_pairs ->
  (i = 0 /\ j = 1 \/ i = 4 /\ j = 5 \/ i = 8 /\ j = 9 \/ i = 11 /\ j = 12)%nat.
Proof.
  unfold loss_pairs. rewrite !elem_of_cons, elem_of_nil. intros [[=]|[[=]|[[=]|[[=]|[]]]]]; auto.
Qed.

(** Two pairs are equal or have nothing in common. *)
Lemma pairs_apart i j i' j' : (i, j) ∈ loss_pairs -> (i', j') ∈ loss_pairs ->
  i <> j' /\ j <> i' /\ (i = i' <-> j = j').
Proof. intros Ha%loss_pair_cases Hb%loss_pair_cases. lia. Qed.

Lemma fractions_default : fractions (replicate 13 0).
Proof. split; [done|]. by intros i j [[-> ->]|[[-> ->]|[[-> ->]|[-> ->]]]]%loss_pair_cases. Qed.

Lemma fractions_insert l k x : (forall i j, (i, j) ∈ loss_pairs -> k <> i /\ k <> j) -> fractions l -> fractions (<[k := x]> l).
Proof.
  intros Hk [Hl Hf]. split; [by rewrite length_insert|]. intros i j Hij. destruct (Hk i j Hij).
  rewrite !list_lookup_total_insert_ne by done. by apply Hf.
Qed.

Lemma fractions_pair l i j x y : (i, j) ∈ loss_pairs -> 0 <= y <= x -> fractions l -> fractions (<[j := y]> (<[i := x]> l)).
Proof.
  intros Hij Hxy [Hl Hf]. split; [by rewrite !length_insert|]. intros i' j' Hij'.
  destruct (pairs_apart i j i' j' Hij Hij') as (H1 & H2 & H3).
  pose proof (loss_pair_cases _ _ Hij) as Hcases.
  destruct (decide (i = i')) as [<-|Hne].
  - assert (j = j') as <- by tauto. assert (j <> i) as Hji by lia.
    rewrite (list_lookup_total_insert_ne _ j i) by done.
    rewrite !list_lookup_total_insert_eq by (rewrite ?length_insert; lia). done.
  - assert (j <> j') by tauto. rewrite !list_lookup_total_insert_ne by done. by apply Hf.
Qed.

Lemma fractions_lost l i j y : (i, j) ∈ loss_pairs -> 0 <= y <= l !!! i -> fractions l -> fractions (<[j := y]> l).
Proof.
  intros Hij Hy Hf. rewrite <- (list_insert_id l i (l !!! i)) at 1; [by apply fractions_pair|].
  apply list_lookup_lookup_total_lt. destruct Hf as [-> _]. apply loss_pair_cases in Hij. lia.
Qed.

Lemma fractions_incoming c s t id len in_win cur cs' : overflow_checks = true -> fractions (sc_packet_loss c) ->
  handle_loss_incoming c s t id len in_win cur = Ok cs' ->
  fractions (sc_packet_loss (fst cs')) /\ packet_loss (snd cs') = packet_loss s.
Proof.
  intros Ho Hf. unfold handle_loss_incoming. intros Hs. inv_binds. subst cs'. cbn [fst snd sc_packet_loss packet_loss].
  split; [|done]. destruct (loss_stats t) as [[count lost]|] eqn:Ht; [|by simplify_eq].
  apply loss_stats_pairs in Ht. destruct Hf as [Hl Hp]. pose proof (Hp _ _ Ht) as Hle.
  destruct (pairs_apart _ _ _ _ Ht Ht) as (Hne & _ & _).
  destruct in_win; inv_binds.
  - match goal with H : add_at 32 (sc_packet_loss c) _ _ = Ok _ |- _ => apply add_at_exact in H as [-> _]; [|done] end.
    match goal with H : add_at 32 _ _ _ = Ok _ |- _ => apply add_at_exact in H as [-> _]; [|done] end.
    match goal with H : arith 32 (wrap 16 _ + 1) = Ok _ |- _ =>
      unfold arith in H; rewrite Ho in H; case_bool_decide; [|done]; injection H as <- end.
    rewrite list_lookup_total_insert_ne by done.
    pose proof (Z.mod_pos_bound (id - cur) (2 ^ 16) ltac:(lia)) as Hd. unfold wrap in *.
    apply fractions_pair; [done|lia|done].
  - match goal with H : index _ _ = Ok ?y |- _ => unfold index in H; destruct (sc_packet_loss c !! _) eqn:Hy; [|done]; injection H as <- end.
    apply list_lookup_total_correct in Hy.
    subst. apply (fractions_lost _ (PacketLossStat_index count)); [done|lia|done].
Qed.

Lemma fractions_add w a i x a' : overflow_checks = true ->
  bool_decide (i ∈ [2; 3; 6; 7; 10]%nat) = true -> fractions a -> add_at w a i x = Ok a' -> fractions a'.
Proof.
  intros Ho Hi Hf Ha. apply add_at_exact in Ha as [-> _]; [|done]. apply fractions_insert; [|done].
  apply bool_decide_eq_true in Hi. rewrite !elem_of_cons, elem_of_nil in Hi.
  intros j k Hjk%loss_pair_cases. lia.
Qed.

Lemma fractions_step cs e cs' : overflow_checks = true ->
  fractions (sc_packet_loss (fst cs)) /\ fractions (packet_loss (snd cs)) -> stats_step cs e = Ok cs' ->
  fractions (sc_packet_loss (fst cs')) /\ fractions (packet_loss (snd cs')).
Proof.
  intros Ho [Hc Hf] Hs. destruct cs as [c s]. cbn [fst snd] in *.
  destruct e as [t id len in_win cur|t len| | |]; cbn [stats_step] in Hs.
  - apply fractions_incoming in Hs as [H1 ->]; done.
  - unfold handle_loss_outgoing, counter_handle_loss_outgoing, stats_handle_loss_outgoing in Hs.
    inv_binds. subst. cbn [fst snd sc_packet_loss packet_loss] in *. split; [|done].
    repeat case_match; simplify_eq; try done; (eapply (fractions_add 32 (sc_packet_loss c)); [| |done|eassumption]); done.
  - unfold handle_loss_resend_ack in Hs. inv_binds. subst. cbn. split; [|done]. (eapply (fractions_add 32 (sc_packet_loss c)); [| |done|eassumption]); done.
  - unfold handle_loss_resend_command in Hs. inv_binds. subst. cbn. split; [|done]. (eapply (fractions_add 32 (sc_packet_loss c)); [| |done|eassumption]); done.
  - unfold stats_tick in Hs. inv_binds. subst. cbn. split; [|done]. apply fractions_default.
Qed.

Definition a_fraction (q : res PacketError (option (Z * Z))) : Prop :=
  match q with Ok (Some (lost, count)) => 0 <= lost <= count /\ 0 < count | _ => True end.

(** C25.  The rates of lost packets that the client reports to the server are fractions: as long as no
    counter overflows, after any packets that arrive in any order, are sent or sent again, the rates of
    speech, keepalive, control and of all of them are between zero and one, or zero when nothing was
    counted. *)
Theorem loss_rates_bounded (Ho : overflow_checks = true) (l : list stats_event) (c : ConnectionStatsCounter) (s : ConnectionStats)
    (Hrun : stats_run (ConnectionStatsCounter_default, ConnectionStats_default) l = Ok (c, s)) :
  a_fraction (get_packetloss_s2c_speech s) /\ a_fraction (get_packetloss_s2c_keepalive s) /\
  a_fraction (get_packetloss_s2c_control s) /\ a_fraction (get_packetloss_s2c_total s).
Proof.
  assert (fractions (packet_loss s)) as [Hl Hf].
  { assert (fractions (replicate 13 0)) as Hd.
    { apply fractions_default. }
    assert (forall cs, fractions (sc_packet_loss (fst cs)) /\ fractions (packet_loss (snd cs)) ->
      stats_run cs l = Ok (c, s) -> fractions (packet_loss s)) as Hall.
    { clear Hrun. induction l as [|e l IH]; intros cs Hcs Hrun; cbn in Hrun; [injection Hrun as ->; apply Hcs|].
      inv_binds. eapply IH; [|done]. by eapply fractions_step. }
    by apply (Hall (ConnectionStatsCounter_default, ConnectionStats_default)). }
  assert (forall k, loss_at s k = Ok (packet_loss s !!! PacketLossStat_index k)) as Hat.
  { intros k. unfold loss_at. apply index_ok, list_lookup_lookup_total_lt. rewrite Hl. destruct k; cbn; lia. }
  assert (forall i j, (i, j) ∈ loss_pairs -> 0 <= packet_loss s !!! j <= packet_loss s !!! i) as Hp by done.
  pose proof (Hp 0%nat 1%nat ltac:(by left)) as H1. pose proof (Hp 4%nat 5%nat ltac:(by right; left)) as H2.
  pose proof (Hp 8%nat 9%nat ltac:(by right; right; left)) as H3.
  pose proof (Hp 11%nat 12%nat ltac:(by right; right; right; left)) as H4.
  unfold get_packetloss_s2c_speech, get_packetloss_s2c_keepalive, get_packetloss_s2c_control, get_packetloss_s2c_total,
    loss_sum, arith, quotient. rewrite !Hat, !Ho. cbn [PacketLossStat_index res_bind].
  split_and!; repeat (case_bool_decide; cbn [res_bind]; [|exact I]); unfold a_fraction;
    match goal with |- context [?n =? 0] => destruct (Z.eqb_spec n 0); [exact I|lia] end.
Qed.
End properties.

(** * Witnesses *)

Lemma pongs_never_counted_witness : exists c s,
  stats_run (H := debug_profile) (ConnectionStatsCounter_default, ConnectionStats_default)
    [EvIncoming Pong 5 13 true 3; EvTick] = Ok (c, s) /\
  loss_at s PongInCount = Ok 0 /\ loss_at s AckInCount = Ok 3.
Proof.
  eexists _, _. split; [reflexivity|].
  split; [|reflexivity].
  apply (pongs_never_counted (H := debug_profile) [EvIncoming Pong 5 13 true 3; EvTick]
    ConnectionStatsCounter_default). reflexivity.
Defined.

Lemma stats_tick_spec_witness : exists s',
  stats_tick (H := debug_profile) {| sc_bytes := [1; 2; 3; 4; 5; 6]; sc_packet_loss := replicate 13 0 |}
    ConnectionStats_default = Ok (ConnectionStatsCounter_default, s') /\
  get_last_second_bytes (H := debug_profile) s' = Ok [1; 2; 3; 4; 5; 6].
Proof.
  destruct (stats_tick_spec (H := debug_profile)
    {| sc_bytes := [1; 2; 3; 4; 5; 6]; sc_packet_loss := replicate 13 0 |} ConnectionStats_default)
    as (s' & Ht & _ & Hl & _).
  - repeat split; by vm_compute.
  - split; reflexivity.
  - exists s'. split; [exact Ht|exact Hl].
Defined.

Lemma loss_rates_bounded_witness :
  exists c s, stats_run (H := debug_profile) (ConnectionStatsCounter_default, ConnectionStats_default)
    [EvIncoming Voice 7 20 true 5; EvIncoming Voice 6 20 false 8; EvTick] = Ok (c, s) /\
  get_packetloss_s2c_speech s = Ok (Some (1, 3)) /\ 0 <= 1 <= 3.
Proof.
  eexists _, _. split; [reflexivity|]. split; [reflexivity|].
  destruct (loss_rates_bounded (H := debug_profile) eq_refl
    [EvIncoming Voice 7 20 true 5; EvIncoming Voice 6 20 false 8; EvTick] ConnectionStatsCounter_default _ eq_refl)
    as ([Hf _] & _).
  exact Hf.
Defined.
