(* ===== verification/Connection.v ===== *)
(** A connection ([tsproto/src/connection.rs]) and the handling of incoming packets
    ([PacketCodec::handle_udp_packet] of [tsproto/src/packet_codec.rs]): decryption, ordering,
    acknowledging and the stream of items for the user.  The clock is an argument; the socket is
    the list of the results of the coming [poll_send_to] calls (then [Pending]) and the log of
    the sent datagrams.  Event listeners only observe and are left out. *)
From S2P Require Import Prelude ByteIO Packets InitPackets AudioData PacketId Algorithms Codec.
From S2P Require Import Encode BTree Resend Stats.
From stdpp Require Import strings.
#[local] Open Scope Z_scope.

(** * State *)

Record SocketAddr := { sa_ip : list Z; sa_port : Z }.

#[global] Instance SocketAddr_eq_dec : EqDecision SocketAddr.
Proof. solve_decision. Defined.

(** The answers of the socket to [poll_send_to]. *)
Inductive SendResult := SendPending | SendFailed | SendSize (n : nat).

Inductive poll (A : Type) := Pending | Ready (a : A).
Arguments Pending {A}.
Arguments Ready {A} a.

(** The buffers of the source hold the datagram and what was parsed from it. *)
Inductive StreamItem :=
  | Item_Command (data : list Z)
  | Item_Audio (data : list Z) (audio : AudioData)
  | Item_C2SInit (data : list Z) (init : C2SInitData)
  | Item_S2CInit (data : list Z) (init : S2CInitData)
  | Item_AckPacket (id : PacketId)
  | Item_NetworkStatsUpdated
  | Item_Error (e : TsError).

(** The statistics counters and [last_stat] are fields of the resender in the source. *)
Record Connection := {
  is_client : bool;
  params : option ConnectedParams;
  address : SocketAddr;
  resender : Resender;
  stats_counter : ConnectionStatsCounter;
  stats : ConnectionStats;
  last_stat : Z;
  codec : PacketCodec;
  stream_items : list StreamItem;
  acks_to_send : list OutUdpPacket;
  udp_socket : list SendResult;
  udp_sent : list (list Z);
}.

(** Record updates. *)
Definition set_params (con : Connection) (ps : option ConnectedParams) : Connection := {|
  is_client := is_client con; params := ps; address := address con; resender := resender con;
  stats_counter := stats_counter con; stats := stats con; last_stat := last_stat con;
  codec := codec con; stream_items := stream_items con; acks_to_send := acks_to_send con;
  udp_socket := udp_socket con; udp_sent := udp_sent con;
|}.

Definition set_resender (con : Connection) (r : Resender) : Connection := {|
  is_client := is_client con; params := params con; address := address con; resender := r;
  stats_counter := stats_counter con; stats := stats con; last_stat := last_stat con;
  codec := codec con; stream_items := stream_items con; acks_to_send := acks_to_send con;
  udp_socket := udp_socket con; udp_sent := udp_sent con;
|}.

Definition set_stats (con : Connection) (c : ConnectionStatsCounter) (s : ConnectionStats)
    (last : Z) : Connection := {|
  is_client := is_client con; params := params con; address := address con;
  resender := resender con; stats_counter := c; stats := s; last_stat := last;
  codec := codec con; stream_items := stream_items con; acks_to_send := acks_to_send con;
  udp_socket := udp_socket con; udp_sent := udp_sent con;
|}.

Definition set_codec (con : Connection) (c : PacketCodec) : Connection := {|
  is_client := is_client con; params := params con; address := address con;
  resender := resender con; stats_counter := stats_counter con; stats := stats con;
  last_stat := last_stat con; codec := c; stream_items := stream_items con;
  acks_to_send := acks_to_send con; udp_socket := udp_socket con; udp_sent := udp_sent con;
|}.

Definition set_items (con : Connection) (l : list StreamItem) : Connection := {|
  is_client := is_client con; params := params con; address := address con;
  resender := resender con; stats_counter := stats_counter con; stats := stats con;
  last_stat := last_stat con; codec := codec con; stream_items := l;
  acks_to_send := acks_to_send con; udp_socket := udp_socket con; udp_sent := udp_sent con;
|}.

Definition set_acks (con : Connection) (l : list OutUdpPacket) : Connection := {|
  is_client := is_client con; params := params con; address := address con;
  resender := resender con; stats_counter := stats_counter con; stats := stats con;
  last_stat := last_stat con; codec := codec con; stream_items := stream_items con;
  acks_to_send := l; udp_socket := udp_socket con; udp_sent := udp_sent con;
|}.

Definition set_socket (con : Connection) (socket : list SendResult) (sent : list (list Z))
    : Connection := {|
  is_client := is_client con; params := params con; address := address con;
  resender := resender con; stats_counter := stats_counter con; stats := stats con;
  last_stat := last_stat con; codec := codec con; stream_items := stream_items con;
  acks_to_send := acks_to_send con; udp_socket := socket; udp_sent := sent;
|}.

(** [stream_items.push_back] *)
Definition push_item (con : Connection) (i : StreamItem) : Connection :=
  set_items con (stream_items con ++ [i]).

Definition first_command_id : PartialPacketId := {| generation_id := 0; packet_id := 1 |}.

Definition Connection_new (is_client : bool) (address : SocketAddr) (socket : list SendResult)
    (now : Z) : Connection :=
  let codec := PacketCodec_default in {|
  is_client := is_client; params := None; address := address; resender := Resender_default now;
  stats_counter := ConnectionStatsCounter_default; stats := ConnectionStats_default;
  last_stat := now;
  codec :=
    if is_client then with_outgoing codec Command first_command_id
    else {| outgoing_p_ids := outgoing_p_ids codec; receive_queue := receive_queue codec;
            fragmented_queue := fragmented_queue codec;
            incoming_p_ids := <[type_index Command := first_command_id]> (incoming_p_ids codec) |};
  stream_items := []; acks_to_send := []; udp_socket := socket; udp_sent := [];
|}.

Section connection.
Context `{BeIo, Quicklz, EaxCipher, Sha256, Cubic, Profile}.

(** * Sending *)

(** [static_poll_send_udp_packet] *)
Definition poll_send_udp_packet (con : Connection) (packet : OutUdpPacket)
    : poll (res TsError unit) * Connection :=
  let data := op_data (ou_data packet) in
  match udp_socket con with
  | [] => (Pending, con)
  | SendPending :: rest => (Pending, set_socket con rest (udp_sent con))
  | SendFailed :: rest => (Ready (Err Network), set_socket con rest (udp_sent con))
  | SendSize size :: rest =>
      (if bool_decide (size <> length data) then Ready (Err Network) else Ready (Ok tt),
       set_socket con rest (udp_sent con ++ [data]))
  end.

(** [self.resender.handle_loss_outgoing(packet)] *)
Definition count_outgoing (con : Connection) (packet : OutUdpPacket) : res TsError Connection :=
  let? t := packet_op (OutUdpPacket_packet_type packet) in
  let? '(c, s) := packet_op
    (handle_loss_outgoing (stats_counter con) (stats con) t (length (op_data (ou_data packet)))) in
  Ok (set_stats con c s (last_stat con)).

(** [PacketCodec::encode_packet(self, packet)] *)
Definition Connection_encode (con : Connection) (packet : OutPacket)
    : res TsError (list OutUdpPacket * Connection) :=
  let? '(us, ps, c) := encode_packet (is_client con) (params con) (codec con) packet in
  Ok (us, set_codec (set_params con ps) c).

Definition send_ack_packet (con : Connection) (packet : OutPacket) : res TsError Connection :=
  let? '(us, con) := Connection_encode con packet in
  match us with
  | [u] =>
      match poll_send_udp_packet con u with
      | (Ready (Ok _), con) => count_outgoing con u
      | (Ready (Err e), con) => Err e
      | (Ready Panic, con) => Panic
      | (Pending, con) => Ok (set_acks con (acks_to_send con ++ [u]))
      end
  | _ => Panic
  end.

Definition send_udp_packet (con : Connection) (packet : OutUdpPacket) (now : Z)
    : res TsError Connection :=
  let? t := packet_op (OutUdpPacket_packet_type packet) in
  match t with
  | Init | Command | CommandLow =>
      let? r := packet_op (send_packet (resender con) packet now) in
      Ok (set_resender con r)
  | _ => Ok (set_acks con (acks_to_send con ++ [packet]))
  end.

Fixpoint send_udp_packets (con : Connection) (l : list OutUdpPacket) (now : Z)
    : res TsError Connection :=
  match l with
  | [] => Ok con
  | u :: l =>
      let? con := send_udp_packet con u now in
      send_udp_packets con l now
  end.

Definition Connection_send_packet (con : Connection) (packet : OutPacket) (now : Z)
    : res TsError (PacketId * Connection) :=
  let? '(us, con) := Connection_encode con packet in
  let? u := unwrap (list.last us) in
  let? id := packet_op (PacketId_from u) in
  let? con := send_udp_packets con us now in
  Ok (id, con).

Fixpoint poll_send_acks_loop (con : Connection) (acks : list OutUdpPacket)
    : res TsError Connection :=
  match acks with
  | [] => Ok (set_acks con [])
  | packet :: rest =>
      match poll_send_udp_packet con packet with
      | (Ready (Ok _), con) =>
          let? con := count_outgoing con packet in
          poll_send_acks_loop con rest
      | (Ready (Err e), con) => Err e
      | (Ready Panic, con) => Panic
      | (Pending, con) => Ok (set_acks con acks)
      end
  end.

Definition poll_send_acks (con : Connection) : res TsError Connection :=
  poll_send_acks_loop con (acks_to_send con).

(** * Acknowledgements *)

(** [slice::binary_search_by_key] of the standard library: halving the range [base, base + size)
    until one element is left; [size] rounds are more than enough. *)
Fixpoint search_loop {A} (key : A -> Z) (l : list A) (k : Z) (fuel size base : nat) : nat :=
  match fuel with
  | O => base
  | S fuel =>
      if bool_decide (size <= 1)%nat then base
      else
        let half := (size / 2)%nat in
        let mid := (base + half)%nat in
        let base := match l !! mid with
                    | Some x => if k <? key x then base else mid
                    | None => base
                    end in
        search_loop key l k fuel (size - half) base
  end.

Definition binary_search {A} (key : A -> Z) (l : list A) (k : Z) : option nat :=
  let base := search_loop key l k (length l) (length l) 0 in
  match l !! base with
  | Some x => if key x =? k then Some base else None
  | None => None
  end.

Definition ack_ping (r : Resender) (p_id now : Z) : Resender :=
  match binary_search (fun p => packet_id (ping_id p)) (last_pings r) p_id with
  | Some i =>
      match last_pings r !! i with
      | Some ping =>
          let r := with_times r (state r) (take i (last_pings r) ++ drop (S i) (last_pings r))
            (last_receive r) (last_send r) in
          update_srtt r (since now (ping_sent ping))
      | None => r
      end
  | None => r
  end.

(** [Resender::ack_packet] *)
Definition ack_packet (con : Connection) (p_type : PacketType) (p_id now : Z)
    : res TsError Connection :=
  if bool_decide (p_type = Packets.Ping) then Ok (set_resender con (ack_ping (resender con) p_id now))
  else
    let next := default PartialPacketId_default (outgoing_p_ids (codec con) !! type_index p_type) in
    let? '(r, item) := packet_op (ack_command (resender con) p_type p_id next now) in
    let con := match item with Some id => push_item con (Item_AckPacket id) | None => con end in
    Ok (set_resender con r).

(** * Incoming packets *)

Definition in_receive_window (con : Connection) (p_type : PacketType) (p_id : Z)
    : res TsError (bool * Z * Z * Z) :=
  if bool_decide (p_type = Init) then Ok (true, 0, 0, 0)
  else
    let? cur := index (incoming_p_ids (codec con)) (type_index p_type) in
    receive_window cur p_id.

(** [self.resender.handle_loss_incoming(&packet, in_recv_win, cur_next)] *)
Definition count_incoming (con : Connection) (p_type : PacketType) (id : Z) (len : nat)
    (in_recv_win : bool) (cur_next : Z) : res TsError Connection :=
  let? '(c, s) := packet_op
    (handle_loss_incoming (stats_counter con) (stats con) p_type id len in_recv_win cur_next) in
  Ok (set_stats con c s (last_stat con)).

(** The checks of an established connection; the error item, if the packet is refused. *)
Definition check_params (con : Connection) (packet : InPacket) (p_type : PacketType)
    (id gen_id : Z) : res TsError (option TsError) :=
  match params con with
  | None => Ok None
  | Some ps =>
      if bool_decide (p_type = Init) then Ok (Some UnexpectedInitPacket)
      else if negb (is_client con) then
        let? c := packet_op (InHeader_client_id (ip_header packet)) in
        let? cid := unwrap c in
        let is_first_ack := (gen_id =? 0) && (id <=? 3) && bool_decide (p_type = Ack) in
        if negb (cid =? c_id ps) && negb is_first_ack then Ok (Some (WrongClientId cid))
        else Ok None
      else Ok None
  end.

(** The content of an encrypted packet. *)
Definition decrypt_content (con : Connection) (packet : InPacket) (p_type : PacketType)
    (id gen_id : Z) : res TsError (res TsError (list Z) * Connection) :=
  let with_params :=
    match params con with
    | Some ps =>
        let? '(r, cache) := decrypt packet gen_id (shared_iv ps) (key_cache ps) in
        Ok (r, set_params con (Some (with_cache ps cache)))
    | None => Ok (Err (WrongMac p_type gen_id id), con)
    end in
  if (bool_decide (p_type = Ack) && (id <=? 1) && is_client con)
     || bool_decide (params con = None) then
    match decrypt_fake packet with
    | Ok c => Ok (Ok c, con)
    | Err _ => with_params
    | Panic => Panic
    end
  else with_params.

(** The packet with its plain content, or [None] when handling stops here. *)
Definition open_packet (con : Connection) (packet : InPacket) (packet_data : list Z)
    (p_type : PacketType) (id gen_id : Z) : res TsError (option (list Z) * Connection) :=
  let? flags := packet_op (InHeader_flags (ip_header packet)) in
  if negb (Flags_contains flags UNENCRYPTED) then
    if bool_decide (p_type = Ack) && (id =? 1) && is_client con then Ok (None, con)
    else
      let? '(r, con) := decrypt_content con packet p_type id gen_id in
      match r with
      | Ok new_content =>
          let start := length (ih_data (ip_header packet)) in
          if bool_decide (length (drop start packet_data) = length new_content)
          then Ok (Some (take start packet_data ++ new_content), con) else Panic
      | Err e => Ok (None, push_item con (Item_Error e))
      | Panic => Panic
      end
  else if must_encrypt p_type then
    Ok (None, push_item con (Item_Error UnallowedUnencryptedPacket))
  else Ok (Some packet_data, con).

(** The loop over the commands that are in order now. *)
Fixpoint handle_commands (con : Connection) (commands : list (list Z)) (now : Z)
    : res TsError Connection :=
  match commands with
  | [] => Ok con
  | c :: commands =>
      let? packet := packet_op (InPacket_new (in_dir (is_client con)) c) in
      let content := ip_content packet in
      let? con :=
        if is_client con && starts_with (byte_str "initivexpand2 ") content then
          ack_packet con Init 4 now
        else if is_client con && starts_with (byte_str "initserver ") content then
          ack_packet con Command 2 now
        else if negb (is_client con) && starts_with (byte_str "clientek ") content then
          ack_packet con Command 0 now
        else Ok con in
      handle_commands (push_item con (Item_Command c)) commands now
  end.

(** The type of the packets that an ack, a pong or an init packet acknowledges. *)
Definition acked_type (p_type : PacketType) : PacketType :=
  match p_type with
  | Ack => Command
  | AckLow => CommandLow
  | Pong => Packets.Ping
  | t => t
  end.

Definition with_incoming (c : PacketCodec) (t : PacketType) (id : PartialPacketId) : PacketCodec := {|
  outgoing_p_ids := outgoing_p_ids c; receive_queue := receive_queue c;
  fragmented_queue := fragmented_queue c;
  incoming_p_ids := <[type_index t := id]> (incoming_p_ids c);
|}.

Definition parsed_item {A} (what : string) (m : res PacketError A) (f : A -> StreamItem)
    : res TsError StreamItem :=
  match m with
  | Ok a => Ok (f a)
  | Err e => Ok (Item_Error (PacketParse what e))
  | Panic => Panic
  end.

(** Packets other than commands. *)
Definition handle_other (con : Connection) (packet_data : list Z) (p_type : PacketType)
    (id gen_id now : Z) : res TsError Connection :=
  let dir := in_dir (is_client con) in
  let? packet := packet_op (InPacket_new dir packet_data) in
  let? con :=
    if bool_decide (p_type = Init) then Ok con
    else
      let '(id, next_gen) := overflowing 16 (id + 1) in
      let? generation_id := if (next_gen : bool) then arith 32 (gen_id + 1) else Ok gen_id in
      Ok (set_codec con (with_incoming (codec con) p_type
        {| generation_id := generation_id; packet_id := id |})) in
  match InPacket_ack_packet packet with
  | Panic => Panic
  | Err e => Ok (push_item con (Item_Error (CreateAck e)))
  | Ok acked =>
      let? con :=
        match acked with
        | Some ack_id => ack_packet con (acked_type p_type) ack_id now
        | None => Ok con
        end in
      if PacketType_is_voice p_type then
        let? item := parsed_item "audio" (InPacket_into_audio packet) (Item_Audio packet_data) in
        Ok (push_item con item)
      else if bool_decide (p_type = Init) then
        let? item :=
          if is_client con then
            parsed_item "s2cinit" (InPacket_into_s2cinit packet) (Item_S2CInit packet_data)
          else parsed_item "c2sinit" (InPacket_into_c2sinit packet) (Item_C2SInit packet_data) in
        Ok (push_item con item)
      else Ok con
  end.

(** What is done with a plain packet, and whether it is acknowledged. *)
Definition handle_plain (con : Connection) (packet_data : list Z) (p_type : PacketType)
    (id gen_id now : Z) : res TsError Connection :=
  if PacketType_is_command p_type then
    let? '(c, commands) := handle_command_packet (is_client con) (codec con) packet_data in
    handle_commands (set_codec con c) commands now
  else handle_other con packet_data p_type id gen_id now.

(** Acks and audio packets are accepted outside of the window. *)
Definition ignores_window (p_type : PacketType) : bool :=
  match p_type with
  | Ack | AckLow | Voice | VoiceWhisper => true
  | _ => false
  end.

(** Send the ack of a packet. *)
Definition reply_ack (con : Connection) (p_type : PacketType) (id : Z) : res TsError Connection :=
  let? ack := packet_op (OutAck_new (Direction_reverse (in_dir (is_client con))) p_type id) in
  send_ack_packet con ack.

(** [PacketCodec::handle_udp_packet] *)
Definition PacketCodec_handle_udp_packet (con : Connection) (packet_data : list Z) (now : Z)
    : res TsError Connection :=
  let dir := in_dir (is_client con) in
  let? packet := packet_op (InPacket_new dir packet_data) in
  let? p_type := packet_op (InHeader_packet_type (ip_header packet)) in
  let? id := packet_op (InHeader_packet_id (ip_header packet)) in
  let? '(in_recv_win, gen_id, cur_next, limit) := in_receive_window con p_type id in
  let? con := count_incoming con p_type id (length packet_data) in_recv_win cur_next in
  let? refused := check_params con packet p_type id gen_id in
  match refused with
  | Some e => Ok (push_item con (Item_Error e))
  | None =>
      if ignores_window p_type || in_recv_win then
        let? '(plain, con) := open_packet con packet packet_data p_type id gen_id in
        match plain with
        | None => Ok con
        | Some packet_data =>
            let? con := handle_plain con packet_data p_type id gen_id now in
            if PacketType_is_command p_type || bool_decide (p_type = Packets.Ping)
            then reply_ack con p_type id else Ok con
        end
      else
        let? con :=
          if PacketType_is_command p_type then
            let? c := packet_op (handle_loss_resend_ack (stats_counter con)) in
            Ok (set_stats con c (stats con) (last_stat con))
          else Ok con in
        let con := push_item con (Item_Error (NotInReceiveWindow id cur_next limit p_type)) in
        if PacketType_is_command p_type then reply_ack con p_type id else Ok con
  end.

(** [Connection::handle_udp_packet]: a datagram from the network. *)
Definition Connection_handle_udp_packet (con : Connection) (udp_buffer : list Z)
    (addr : SocketAddr) (now : Z) : res TsError Connection :=
  if negb (bool_decide (addr = address con)) then Ok (push_item con (Item_Error WrongAddress))
  else
    match InPacket_try_new (in_dir (is_client con)) udp_buffer with
    | Err e => Ok (push_item con (Item_Error (PacketParse "udp" e)))
    | Panic => Panic
    | Ok _ =>
        let con := set_resender con (received_packet (resender con) now) in
        PacketCodec_handle_udp_packet con udp_buffer now
    end.

End connection.
