(* ===== verification/Safety.v ===== *)
(** Robustness against the network: a well-formedness invariant of a connection, that handling a
    datagram preserves, without a panic, whatever the datagram contains. *)
From S2P Require Import Prelude ByteIO Packets InitPackets AudioData Commands PacketId Algorithms.
From S2P Require Import Codec Encode BTree Resend Stats Connection.
From stdpp Require Import strings.
#[local] Open Scope Z_scope.

(** * Well-formedness *)

(** Data that [InPacket::try_new] accepts. *)
Definition packet_shape (dir : Direction) (data : list Z) : Prop :=
  exists L content t, layout_ok dir L /\ bytes content /\ layout_type L = Some t /\
    data = layout_bytes L ++ content.

Definition option_shape (dir : Direction) (o : option (list Z)) : Prop :=
  match o with Some data => packet_shape dir data | None => True end.

Definition state_shape (dir : Direction) (s : CommandState) : Prop :=
  id_ok (cs_next s) /\ Forall (packet_shape dir) (cs_queue s) /\ option_shape dir (cs_frag s).

Definition codec_shape (dir : Direction) (c : PacketCodec) : Prop :=
  length (outgoing_p_ids c) = 8%nat /\ Forall id_ok (outgoing_p_ids c) /\
  length (receive_queue c) = 2%nat /\ Forall (Forall (packet_shape dir)) (receive_queue c) /\
  length (fragmented_queue c) = 2%nat /\ Forall (option_shape dir) (fragmented_queue c) /\
  length (incoming_p_ids c) = 8%nat /\ Forall id_ok (incoming_p_ids c).

Definition entry_shape (e : CachedKey) : Prop :=
  length (ck_key e) = 16%nat /\ length (ck_nonce e) = 16%nat.

Definition cache_shape (cache : KeyCache) : Prop :=
  length cache = 8%nat /\ Forall (fun row => length row = 2%nat /\ Forall entry_shape row) cache.

Lemma cache_default_shape : cache_shape KeyCache_default.
Proof. split; [done|]. by repeat constructor. Qed.

Definition params_shape (ps : ConnectedParams) : Prop :=
  length (shared_iv ps) = 64%nat /\ length (shared_mac ps) = 8%nat /\ bytes (shared_mac ps) /\
  cache_shape (key_cache ps).

Definition option_params (ps : option ConnectedParams) : Prop :=
  match ps with Some ps => params_shape ps | None => True end.

(** A packet that waits in the queue of acks. *)
Definition out_shape (u : OutUdpPacket) : Prop :=
  exists dir L content t, layout_ok dir L /\ layout_type L = Some t /\
    ou_data u = layout_packet dir L content.

Definition con_ok (con : Connection) : Prop :=
  codec_shape (in_dir (is_client con)) (codec con) /\ option_params (params con) /\
  resender_ok (resender con) /\ counter_ok (stats_counter con) /\ stats_ok (stats con) /\
  Forall out_shape (acks_to_send con).

(** [con'] is well-formed and on the same side as [con]. *)
Definition keeps (con con' : Connection) : Prop :=
  con_ok con' /\ is_client con' = is_client con.

Lemma keeps_trans a b c : keeps a b -> keeps b c -> keeps a c.
Proof. intros [_ Hb] [Hc Hk]. split; [done|]. by rewrite Hk, Hb. Qed.

Section safety.
Context `{BeIoLaws, QuicklzLaws, EaxLaws, Sha256Laws}.

(** * Packets *)

Lemma packet_shape_new dir data : packet_shape dir data ->
  exists L content t, layout_ok dir L /\ bytes content /\ layout_type L = Some t /\
    data = layout_bytes L ++ content /\
    InPacket_new dir data = Ok {| ip_header := layout_header dir L; ip_content := content |}.
Proof.
  intros (L & content & t & HL & Hb & Ht & ->). exists L, content, t.
  repeat (split; [done|]). by apply new_layout.
Qed.

Lemma try_new_shape dir data p : bytes data -> InPacket_try_new dir data = Ok p ->
  packet_shape dir data.
Proof.
  intros Hb Hp.
  assert (header_len dir <= length data)%nat as Hlen.
  { unfold InPacket_try_new in Hp. case_bool_decide; [done|lia]. }
  destruct (layout_exists dir data Hb Hlen) as (L & content & HL & ->).
  rewrite try_new_layout in Hp by done.
  destruct (Z.ltb_spec 8 (Z.land (l_byte L) 0xf)) as [|Hle]; [done|].
  destruct (layout_type_some dir L HL Hle) as [t Ht]. exists L, content, t.
  apply bytes_app in Hb as [_ Hb]. done.
Qed.

(** The accessors of the header of a packet. *)
Lemma shape_accessors dir L t : layout_ok dir L -> layout_type L = Some t ->
  exists id, is_u16 id /\ InHeader_packet_type (layout_header dir L) = Ok t /\
    InHeader_packet_id (layout_header dir L) = Ok id /\
    InHeader_flags (layout_header dir L) = Ok (layout_flags L) /\
    (exists c, InHeader_client_id (layout_header dir L) = Ok c /\ (dir = C2S -> is_Some c)).
Proof.
  intros HL Ht. destruct (layout_parts_bytes dir L HL) as [Hid Hcid].
  pose proof HL as (_ & Hid2 & Hcid2 & _).
  destruct (read_u16 (l_id L) Hid Hid2) as (id & Hread & Hu).
  exists id. split; [done|]. rewrite packet_type_layout, packet_id_layout, Ht, Hread by done.
  split; [done|]. split; [done|]. split; [by apply flags_layout|].
  destruct dir; [by exists None|].
  destruct (read_u16 (l_cid L) Hcid Hcid2) as (c & Hrc & _). exists (Some c).
  rewrite client_id_layout, Hrc by done. eauto.
Qed.

Lemma decompress_safe dir data flags : packet_shape dir data ->
  safe (E := TsError) (packet_shape dir) (decompress dir data flags).
Proof.
  intros Hs. unfold decompress. destruct (Flags_contains flags COMPRESSED); [|done].
  destruct (packet_shape_new dir data Hs) as (L & content & t & HL & Hb & Ht & -> & ->).
  cbn [packet_op map_err res_bind ip_content ip_header].
  destruct (qlz_decompress content MAX_DECOMPRESSED_SIZE) as [d|] eqn:Hd; [|done].
  cbn [ok_or res_bind safe ih_data layout_header]. rewrite take_app_length.
  exists L, d, t. repeat (split; [done|]). split; [|done].
  by apply (qlz_decompress_bytes content MAX_DECOMPRESSED_SIZE).
Qed.

Lemma handle_in_order_safe dir frag data : option_shape dir frag -> packet_shape dir data ->
  safe (fun '(r, f) => option_shape dir r /\ option_shape dir f) (handle_in_order dir frag data).
Proof.
  intros Hf Hs. unfold handle_in_order.
  destruct (packet_shape_new dir data Hs) as (L & content & t & HL & Hb & Ht & Heq & ->).
  cbn [packet_op map_err res_bind ip_header ip_content].
  destruct (shape_accessors dir L t HL Ht) as (id & _ & _ & _ & -> & _).
  cbn [packet_op map_err res_bind].
  assert (forall f, packet_shape dir f -> packet_shape dir (f ++ content)) as Happ.
  { intros f (L' & c' & t' & HL' & Hb' & Ht' & ->). exists L', (c' ++ content), t'.
    split; [done|]. split; [by apply bytes_app|]. split; [done|]. by rewrite app_assoc. }
  destruct (Flags_contains _ FRAGMENTED), frag as [f|].
  - destruct (packet_shape_new dir (f ++ content) (Happ f Hf)) as (L' & c' & t' & HL' & _ & Ht' & _ & ->).
    cbn [packet_op map_err res_bind ip_header].
    destruct (shape_accessors dir L' t' HL' Ht') as (id' & _ & _ & _ & -> & _).
    cbn [packet_op map_err res_bind].
    eapply safe_bind; [by apply decompress_safe, Happ|]. intros a Ha. by split.
  - by split.
  - case_bool_decide; [|done]. split; [done|by apply Happ].
  - eapply safe_bind; [by apply decompress_safe|]. intros a Ha. by split.
Qed.

Lemma find_packet_safe dir id queue : Forall (packet_shape dir) queue ->
  safe (fun r => forall i, r = Some i -> (i < length queue)%nat) (find_packet dir id queue).
Proof.
  induction queue as [|p queue IH]; intros Hq; [done|]. simpl.
  apply Forall_cons in Hq as [Hp Hq].
  destruct Hp as (L & content & t & HL & _ & Ht & ->). unfold header_id.
  unfold InHeader_new. rewrite slice_to_ok by (rewrite length_app, (layout_length dir L HL); lia).
  rewrite take_app_length' by (by rewrite (layout_length dir L HL)).
  cbn [packet_op map_err res_bind].
  change {| ih_direction := dir; ih_data := layout_bytes L |} with (layout_header dir L).
  destruct (shape_accessors dir L t HL Ht) as (pid & _ & _ & -> & _ & _).
  cbn [packet_op map_err res_bind]. destruct (pid =? id); [intros i [= <-]; simpl; lia|].
  eapply safe_bind; [by apply IH|]. intros [j|] Hj; simpl; [|done].
  intros i [= <-]. specialize (Hj j eq_refl). lia.
Qed.

(** The loop over the queue has enough fuel, and keeps the state well-formed. *)
Lemma command_loop_safe dir fuel s data id : (length (cs_queue s) < fuel)%nat ->
  state_shape dir s -> packet_shape dir data ->
  exists r, command_loop fuel dir s data id = Some r /\
    safe (fun '(s, ps) => state_shape dir s /\ Forall (packet_shape dir) ps) r.
Proof.
  revert s data id. induction fuel as [|fuel IH]; intros [nx queue frag] data id Hlen Hs Hd;
    [simpl in Hlen; lia|].
  destruct Hs as (Hnx & Hq & Hf). cbn [cs_next cs_queue cs_frag] in *. cbn [command_loop cs_next cs_queue cs_frag].
  assert (id_ok (PartialPacketId_add nx 1)) as Hnx' by by apply add_ok.
  pose proof (handle_in_order_safe dir frag data Hf Hd) as Ho.
  destruct (handle_in_order dir frag data) as [[r f]|e|]; [|by eauto|done].
  cbn [safe] in Ho. destruct Ho as [Hr Hf'].
  set (pk := match r with Some p => [p] | None => [] end).
  assert (Forall (packet_shape dir) pk) as Hpk by (destruct r; [by apply Forall_singleton|constructor]).
  pose proof (find_packet_safe dir (wrap 16 (id + 1)) queue Hq) as Hfind.
  destruct (find_packet _ _ _) as [[pos|]|e|]; [|eexists; split; [done|]; done|by eauto|done].
  specialize (Hfind pos eq_refl).
  destruct (lookup_lt_is_Some_2 queue pos Hfind) as [p Hp]. rewrite Hp.
  set (queue' := take pos queue ++ drop (S pos) queue).
  destruct (IH {| cs_next := PartialPacketId_add nx 1; cs_queue := queue'; cs_frag := f |} p
    (wrap 16 (id + 1))) as (r' & -> & Hr').
  - cbn [cs_queue]. unfold queue'. rewrite length_app, length_take, length_drop. lia.
  - split; [done|]. split; [|done]. cbn [cs_queue]. unfold queue'.
    apply Forall_app. split; [by apply Forall_take|by apply Forall_drop].
  - exact (Forall_lookup_1 _ _ _ _ Hq Hp).
  - destruct r' as [[s' ps]|e|]; [|by eauto|done]. eexists. split; [done|].
    destruct Hr' as [Hs' Hps]. split; [done|]. by apply Forall_app.
Qed.

Lemma command_step_safe dir s data : state_shape dir s -> packet_shape dir data ->
  safe (fun '(s, ps) => state_shape dir s /\ Forall (packet_shape dir) ps) (command_step dir s data).
Proof.
  intros Hs Hd. unfold command_step.
  destruct (packet_shape_new dir data Hd) as (L & content & t & HL & Hb & Ht & Heq & ->).
  cbn [packet_op map_err res_bind ip_header].
  destruct (shape_accessors dir L t HL Ht) as (id & _ & _ & -> & _ & _).
  cbn [packet_op map_err res_bind]. destruct (_ =? id).
  - destruct (command_loop_safe dir (S (length (cs_queue s))) s data id) as (r & -> & Hr);
      [lia|done|done|exact Hr].
  - destruct (overflowing 16 _) as [limit next_gen].
    destruct (_ || _); [|done]. destruct Hs as (Hn & Hq & Hf). split; [|constructor].
    split; [done|]. split; [|done]. cbn [cs_queue]. apply Forall_app. split; [done|].
    by apply Forall_singleton.
Qed.

Lemma type_index_lt t : t <> Init -> (type_index t < 8)%nat.
Proof. intros Ht. destruct t; try done; apply Nat.ltb_lt; reflexivity. Qed.

Lemma handle_command_packet_safe is_client c data :
  codec_shape (in_dir is_client) c -> packet_shape (in_dir is_client) data ->
  (forall L content, data = layout_bytes L ++ content -> layout_ok (in_dir is_client) L ->
    layout_type L <> Some Init) ->
  safe (fun '(c, ps) => codec_shape (in_dir is_client) c /\
    Forall (packet_shape (in_dir is_client)) ps) (handle_command_packet is_client c data).
Proof.
  intros (Ho & Hoi & Hr & Hrs & Hf & Hfs & Hi & His) Hd Hni. unfold handle_command_packet.
  destruct (packet_shape_new _ data Hd) as (L & content & t & HL & Hb & Ht & Heq & ->).
  cbn [packet_op map_err res_bind ip_header].
  destruct (shape_accessors _ L t HL Ht) as (id & _ & -> & _ & _ & _).
  cbn [packet_op map_err res_bind].
  assert (t <> Init) as Hti by (intros ->; exact (Hni L content Heq HL Ht)).
  pose proof (type_index_lt t Hti) as Hlt.
  assert (cmd_index t < 2)%nat as Hc by (unfold cmd_index; case_bool_decide; lia).
  unfold PacketCodec_command.
  eapply (safe_bind (state_shape (in_dir is_client))).
  { eapply safe_bind; [apply (safe_index (Forall (packet_shape (in_dir is_client)))); [lia|done]|].
    intros q Hq. eapply safe_bind; [apply (safe_index (option_shape (in_dir is_client))); [lia|done]|].
    intros f Hf'. eapply safe_bind; [apply (safe_index id_ok); [lia|done]|].
    intros n Hn. by split. }
  intros s Hs. eapply safe_bind; [by apply command_step_safe|].
  intros [s' ps] [(Hn' & Hq' & Hf') Hps]. split; [|done].
  unfold codec_shape, PacketCodec_set_command.
  cbn [outgoing_p_ids receive_queue fragmented_queue incoming_p_ids].
  rewrite !length_insert. repeat (split; [done || by apply Forall_insert|]). by apply Forall_insert.
Qed.

(** * Keys *)

Lemma create_key_nonce_shape t c p_id g iv cache :
  t <> Init -> length iv = 64%nat -> cache_shape cache ->
  exists k n cache', create_key_nonce t c p_id g iv cache = Ok (k, n, cache') /\ cache_shape cache'.
Proof.
  intros Ht Hiv (Hlen & Hrows). unfold create_key_nonce. pose proof (type_index_lt t Ht) as Hlt.
  unfold type_index in Hlt.
  destruct (index_lt (E := TsError) cache (Z.to_nat (PacketType_to_u8 t)) ltac:(lia))
    as (row & Hrow & ->). cbn [res_bind].
  destruct (Forall_lookup_1 _ _ _ _ Hrows Hrow) as [Hr2 Hents].
  assert (dir_index c < length row)%nat as Hd by (destruct c; simpl; lia).
  destruct (index_lt (E := TsError) row (dir_index c) Hd) as (e & He & ->). cbn [res_bind].
  pose proof (Forall_lookup_1 _ _ _ _ Hents He) as Hes.
  set (m := if negb _ then _ else _).
  assert (exists e', m = Ok e' /\ entry_shape e') as (e' & -> & Hk & Hn).
  { unfold m. destruct (ck_generation_id e =? g); cbn [negb]; [by exists e|].
    rewrite key_seed_eq by done. cbn [res_bind].
    rewrite slice_to_ok, slice_from_ok by (rewrite sha256_length; lia). cbn [res_bind].
    rewrite bool_decide_true by (rewrite length_drop, sha256_length; done).
    eexists. split; [done|]. split; cbn [ck_key ck_nonce];
      rewrite ?length_take, ?length_drop, sha256_length; done. }
  cbn [res_bind].
  destruct (index_lt (E := TsError) (ck_key e') 0 ltac:(lia)) as (k0 & _ & ->).
  destruct (index_lt (E := TsError) (ck_key e') 1 ltac:(lia)) as (k1 & _ & ->). cbn [res_bind].
  eexists _, _, _. split; [done|]. split; [by rewrite length_insert|].
  apply Forall_insert; [done|]. split; [by rewrite length_insert|]. by apply Forall_insert.
Qed.

Lemma decrypt_key_nonce_safe dir L content t key nonce :
  layout_ok dir L -> layout_type L = Some t -> bytes content ->
  safe (fun c => length c = length content /\ bytes c)
    (decrypt_key_nonce {| ip_header := layout_header dir L; ip_content := content |} key nonce).
Proof.
  intros HL Ht Hb. unfold decrypt_key_nonce. cbn [ip_header ip_content].
  destruct (shape_accessors dir L t HL Ht) as (id & _ & -> & -> & _ & _).
  rewrite get_meta_layout, mac_layout by done. cbn [packet_op map_err res_bind].
  destruct (eax_decrypt _ _ _ _ _) as [c|] eqn:Hc; [|done].
  by apply (eax_decrypt_shape _ _ _ _ _ _ Hb Hc).
Qed.

Lemma decrypt_safe dir L content t g iv cache :
  layout_ok dir L -> layout_type L = Some t -> t <> Init -> bytes content ->
  length iv = 64%nat -> cache_shape cache ->
  exists r cache', decrypt {| ip_header := layout_header dir L; ip_content := content |} g iv cache
      = Ok (r, cache') /\ cache_shape cache' /\
    safe (fun c => length c = length content /\ bytes c) r.
Proof.
  intros HL Ht Hi Hb Hiv Hc. unfold decrypt. cbn [ip_header].
  destruct (shape_accessors dir L t HL Ht) as (id & _ & -> & -> & _ & c & -> & _).
  cbn [packet_op map_err res_bind].
  destruct (create_key_nonce_shape t c id g iv cache Hi Hiv Hc) as (k & n & cache' & -> & Hc').
  cbn [res_bind]. pose proof (decrypt_key_nonce_safe dir L content t k n HL Ht Hb) as Hs.
  destruct (decrypt_key_nonce _ k n) as [d|e|]; [by eauto| |done].
  exists (Err (match e with WrongMac p_type _ p_id => WrongMac p_type g p_id | e => e end)), cache'.
  split; [by destruct e|]. by split.
Qed.

(** * Encoding an ack *)

Lemma encrypt_key_nonce_out dir L content key nonce t : layout_ok dir L -> bytes content -> encryptable content ->
  layout_type L = Some t ->
  exists L' c', encrypt_key_nonce (layout_packet dir L content) key nonce
      = Ok (layout_packet dir L' c') /\ layout_ok dir L' /\ layout_type L' = Some t /\ l_id L' = l_id L.
Proof.
  intros HL Hb Hsmall Ht.
  destruct (encrypt_key_nonce_layout dir L content key nonce HL Hb Hsmall)
    as (c' & mac & _ & _ & _ & Hm & Hmb & ->).
  exists (with_mac L mac), c'. split; [done|]. split; [by apply with_mac_ok|done].
Qed.

Definition params_like (ps ps' : option ConnectedParams) : Prop := is_Some ps <-> is_Some ps'.

(** The id under which a sent packet is stored: its own number, and the generation of the
    following id. *)
Definition sent_id (t : PacketType) (id : PartialPacketId) : PacketId :=
  {| pid_type := t;
     pid_part := {| generation_id := generation_id (PartialPacketId_add id 1); packet_id := packet_id id |} |}.

Lemma sent_packet_id dir L c t id : layout_ok dir L -> layout_type L = Some t -> t <> Init ->
  is_u16 (packet_id id) -> l_id L = write_be 2 (packet_id id) ->
  PacketId_from {| ou_generation_id := generation_id (PartialPacketId_add id 1);
                   ou_data := layout_packet dir L c |} = Ok (sent_id t id).
Proof.
  intros HL Ht Hi Hu Hid. unfold PacketId_from, OutUdpPacket_packet_id, OutUdpPacket_packet_type.
  cbn [ou_data ou_generation_id]. rewrite header_layout by done. cbn [res_bind].
  rewrite packet_type_layout, Ht by done. cbn [unwrap res_bind].
  rewrite bool_decide_false by done. cbn [res_bind]. rewrite packet_id_layout by done.
  by rewrite (read_be_app 2 (l_id L) (packet_id id) []) by (by rewrite ?app_nil_r).
Qed.

Lemma encode_part_sent dir L content t fake should ps codec :
  layout_ok dir L -> layout_type L = Some t -> bytes content -> encryptable content -> t <> Init -> option_params ps ->
  length (outgoing_p_ids codec) = 8%nat -> Forall id_ok (outgoing_p_ids codec) ->
  (should = true -> fake = true \/ is_Some ps) ->
  exists u ps' id, encode_part t fake should ps codec (layout_packet dir L content)
      = Ok (u, ps', with_outgoing codec t (PartialPacketId_add id 1)) /\
    outgoing_p_ids codec !! type_index t = Some id /\ id_ok id /\
    out_shape u /\ OutUdpPacket_packet_type u = Ok t /\ PacketId_from u = Ok (sent_id t id) /\
    option_params ps' /\ (is_Some ps -> is_Some ps').
Proof.
  intros HL Ht Hb Hsmall Hi Hps Hlen Hids Hkey. unfold encode_part. rewrite bool_decide_false by done.
  destruct (index_lt (E := TsError) (outgoing_p_ids codec) (type_index t)) as (id & Hid & ->).
  { rewrite Hlen. by apply type_index_lt. }
  pose proof (Forall_lookup_1 _ _ _ _ Hids Hid) as Hido. cbn [res_bind].
  rewrite packet_id_packet by done. cbn [packet_op map_err res_bind].
  set (L1 := with_id L (packet_id id)).
  assert (layout_ok dir L1) as HL1 by by apply with_id_ok.
  assert (layout_type L1 = Some t) as Ht1 by done.
  assert (forall L' c', layout_ok dir L' -> layout_type L' = Some t -> l_id L' = l_id L1 ->
    let u := {| ou_generation_id := generation_id (PartialPacketId_add id 1); ou_data := layout_packet dir L' c' |} in
    out_shape u /\ OutUdpPacket_packet_type u = Ok t /\ PacketId_from u = Ok (sent_id t id)) as Hout.
  { intros L' c' HL' Ht' Hid'. split; [by exists dir, L', c', t|]. split.
    - unfold OutUdpPacket_packet_type. cbn [ou_data]. rewrite header_layout by done. cbn [res_bind].
      by rewrite packet_type_layout, Ht'.
    - apply sent_packet_id; [done..|apply Hido|done]. }
  destruct fake.
  { unfold encrypt_fake.
    destruct (encrypt_key_nonce_out dir L1 content FAKE_KEY FAKE_NONCE t HL1 Hb Hsmall Ht1)
      as (L' & c' & -> & HL' & Ht' & Hid'). cbn [res_bind]. eexists _, ps, id.
    destruct (Hout L' c' HL' Ht' Hid') as (? & ? & ?). by split_and!. }
  destruct should; cbn [res_bind].
  - destruct (Hkey eq_refl) as [|[p ->]]; [done|]. destruct Hps as (Hiv & Hm & Hmb & Hc).
    unfold encrypt. rewrite header_layout by done. cbn [packet_op map_err res_bind].
    destruct (shape_accessors dir L1 t HL1 Ht1) as (pid & _ & -> & -> & _ & c & -> & _).
    cbn [packet_op map_err res_bind].
    destruct (create_key_nonce_shape t c pid (generation_id id) (shared_iv p) (key_cache p) Hi Hiv Hc)
      as (k & n & cache' & -> & Hc'). cbn [res_bind].
    destruct (encrypt_key_nonce_out dir L1 content k n t HL1 Hb Hsmall Ht1) as (L' & c' & -> & HL' & Ht' & Hid').
    cbn [res_bind]. eexists _, (Some _), id. destruct (Hout L' c' HL' Ht' Hid') as (? & ? & ?). by split_and!.
  - eexists _, ps, id. destruct (Hout L1 content HL1 Ht1 eq_refl) as (? & ? & ?). by split_and!.
Qed.

Lemma encode_part_safe dir L content t fake should ps codec :
  layout_ok dir L -> layout_type L = Some t -> bytes content -> encryptable content -> t <> Init -> option_params ps ->
  length (outgoing_p_ids codec) = 8%nat -> Forall id_ok (outgoing_p_ids codec) ->
  (should = true -> fake = true \/ is_Some ps) ->
  exists u ps' id', encode_part t fake should ps codec (layout_packet dir L content)
      = Ok (u, ps', with_outgoing codec t id') /\
    out_shape u /\ OutUdpPacket_packet_type u = Ok t /\ option_params ps' /\ id_ok id'.
Proof.
  intros HL Ht Hb Hsmall Hi Hps Hlen Hids Hkey.
  destruct (encode_part_sent dir L content t fake should ps codec HL Ht Hb Hsmall Hi Hps Hlen Hids Hkey)
    as (u & ps' & id & He & _ & Hid & Hu & Hut & _ & Hps' & _).
  exists u, ps', (PartialPacketId_add id 1). split_and!; try done. by apply add_ok.
Qed.

Lemma with_outgoing_shape dir codec t id : codec_shape dir codec -> id_ok id ->
  codec_shape dir (with_outgoing codec t id).
Proof.
  intros (Ho & Hoi & Hrest) Hid. split; [cbn [outgoing_p_ids with_outgoing]; by rewrite length_insert|].
  split; [by apply Forall_insert|]. exact Hrest.
Qed.

(** A non-command packet of the connection is encoded as one packet. *)
Lemma encode_ack_safe (is_client : bool) ps codec L content t :
  layout_ok (out_dir is_client) L -> layout_type L = Some t -> bytes content -> encryptable content ->
  t = Ack \/ t = AckLow \/ t = Pong \/ t = Packets.Ping ->
  codec_shape (in_dir is_client) codec -> option_params ps ->
  exists u ps' codec',
    encode_packet is_client ps codec (layout_packet (out_dir is_client) L content)
      = Ok ([u], ps', codec') /\ out_shape u /\ OutUdpPacket_packet_type u = Ok t /\
    option_params ps' /\
    codec_shape (in_dir is_client) codec'.
Proof.
  intros HL Ht Hb Hsmall Hack Hc Hps. pose proof Hc as (Ho & Hoi & _).
  assert (t <> Init /\ PacketType_is_command t = false /\
    bool_decide (t = Voice) = false /\ bool_decide (t = VoiceWhisper) = false) as (Hi & Hnc & Hv & Hw)
    by by destruct Hack as [->|[->|[-> | ->]]].
  pose proof (type_index_lt t Hi) as Hlt.
  unfold encode_packet. rewrite header_layout by done. cbn [packet_op map_err res_bind].
  destruct (shape_accessors _ L t HL Ht) as (pid & _ & -> & _). cbn [packet_op map_err res_bind].
  rewrite Hnc, Hv, Hw. cbn [andb orb]. rewrite !andb_false_r.
  rewrite (bool_decide_false (t = Init)) by done. cbn [res_bind].
  destruct (index_lt (E := TsError) (outgoing_p_ids codec) (type_index t) ltac:(lia)) as (id & Hid & ->).
  cbn [res_bind]. rewrite content_layout by done. cbn [packet_op map_err res_bind].
  set (fake0 := is_fake_encrypt is_client t id content).
  set (choice := match ps with Some _ => _ | None => _ end).
  assert (exists should fake cid, choice = (should, fake, cid) /\
    (should = true -> fake = true \/ is_Some ps)) as (should & fake & cid & -> & Hkey).
  { unfold choice. destruct ps as [p|]; [by eexists _, _, _; split; [done|]; right|].
    eexists _, _, _. split; [done|]. intros ->. by left. }
  set (L1 := if is_client then with_cid L cid else L).
  assert (layout_ok (out_dir is_client) L1 /\ layout_type L1 = Some t) as [HL1 Ht1].
  { unfold L1. destruct is_client; [|done]. split; [by apply with_cid_ok|done]. }
  assert ((if is_client then packet_op (OutPacket_client_id (layout_packet (out_dir is_client) L content) cid)
           else Ok (layout_packet (out_dir is_client) L content))
    = Ok (layout_packet (out_dir is_client) L1 content)) as ->.
  { unfold L1. destruct is_client; [|done]. cbn [out_dir] in *. by rewrite client_id_packet. }
  cbn [res_bind].
  set (m := if negb should && negb fake then _ else _).
  assert (exists L2, m = Ok (layout_packet (out_dir is_client) L2 content) /\
    layout_ok (out_dir is_client) L2 /\ layout_type L2 = Some t) as (L2 & -> & HL2 & Ht2).
  { unfold m. destruct (negb should && negb fake); [|by exists L1].
    rewrite add_flag_layout by done. cbn [res_bind].
    assert (is_flags (Flags_or (layout_flags L1) UNENCRYPTED)) as Hfl.
    { apply is_flags_or; [by apply layout_flags_ok with (out_dir is_client)|done]. }
    pose proof (with_flags_ok _ L1 _ HL1 Hfl) as HLf.
    destruct (with_flags_read L1 _ Hfl) as [_ Htf].
    destruct ps as [p|]; [|by eexists; split; [done|]; rewrite Htf].
    destruct Hps as (_ & Hm & Hmb & _). rewrite set_mac_packet by done.
    eexists. split; [done|]. split; [by apply with_mac_ok|]. by rewrite <- Ht1, <- Htf. }
  cbn [res_bind encode_parts].
  destruct (encode_part_safe _ L2 content t fake should ps codec HL2 Ht2 Hb Hsmall Hi Hps Ho Hoi Hkey)
    as (u & ps' & id' & -> & Hu & Hut & Hps' & Hid'). cbn [res_bind].
  eexists u, ps', _. split; [done|]. split; [done|]. split; [done|]. split; [done|]. by apply with_outgoing_shape.
Qed.

(** * The counters *)

Context `{Cubic, Profile}.
Context (Hrelease : overflow_checks = false).

Lemma add_at_returns w a i x : 0 <= w -> (i < length a)%nat ->
  returns (fun b => length b = length a) (add_at w a i x).
Proof.
  intros Hw Hi. unfold add_at. destruct (index_lt (E := PacketError) a i Hi) as (y & _ & ->).
  cbn [res_bind]. eapply returns_bind; [by apply returns_arith|]. intros z _. apply length_insert.
Qed.

Lemma PacketStat_index_lt s : (PacketStat_index s < 6)%nat.
Proof. destruct s; simpl; lia. Qed.

Lemma PacketLossStat_index_lt s : (PacketLossStat_index s < 13)%nat.
Proof. destruct s; simpl; lia. Qed.

Lemma count_incoming_returns con t id len in_win cur : con_ok con ->
  returns (fun con' => con_ok con' /\ exists c s, con' = set_stats con c s (last_stat con))
    (count_incoming con t id len in_win cur).
Proof.
  intros (Hc & Hp & Hr & [Hcb Hcl] & (Hs1 & Hs2 & Hs3 & Hs4 & Hs5) & Ha). unfold count_incoming.
  unfold packet_op. apply (returns_bind (fun '(c, s) => counter_ok c /\ stats_ok s)); [apply returns_map_err|].
  - unfold handle_loss_incoming. pose proof (PacketStat_index_lt (PacketStat_from t true)) as Hi.
    eapply returns_bind; [by apply returns_arith|]. intros l1 _.
    eapply returns_bind; [by apply returns_arith|]. intros l2 _.
    eapply returns_bind; [apply add_at_returns; lia|]. intros b Hb; cbv beta in *.
    eapply returns_bind; [apply add_at_returns; lia|]. intros ps Hps; cbv beta in *.
    eapply returns_bind; [apply add_at_returns; lia|]. intros bs Hbs; cbv beta in *.
    eapply (returns_bind (fun l => length l = 13%nat)).
    + destruct (loss_stats t) as [[count lost]|]; [|done].
      pose proof (PacketLossStat_index_lt count). pose proof (PacketLossStat_index_lt lost).
      destruct in_win.
      * eapply returns_bind; [by apply returns_arith|]. intros inc _.
        eapply returns_bind; [apply add_at_returns; lia|]. intros l Hl; cbv beta in *.
        eapply returns_weaken; [apply add_at_returns; lia|]. intros l' Hl'; cbv beta in *. lia.
      * destruct (index_lt (E := PacketError) (sc_packet_loss (stats_counter con))
          (PacketLossStat_index lost) ltac:(lia)) as (y & _ & ->).
        cbn [res_bind returns]. by rewrite length_insert.
    + intros l Hl; cbv beta in *. repeat split; cbn; lia.
  - intros [c s] [Hc' Hs']. split; [|by eexists _, _].
    split; [exact Hc|]. split; [exact Hp|]. split; [exact Hr|]. by split.
Qed.

Lemma count_outgoing_returns con u : con_ok con -> out_shape u -> returns (keeps con) (count_outgoing con u).
Proof.
  intros (Hc & Hp & Hr & [Hcb Hcl] & (Hs1 & Hs2 & Hs3 & Hs4 & Hs5) & Ha) Hu.
  destruct Hu as (dir & L & content & t & HL & Ht & Hu). unfold count_outgoing, OutUdpPacket_packet_type.
  rewrite Hu, header_layout by done. cbn [res_bind].
  destruct (shape_accessors dir L t HL Ht) as (id & _ & -> & _). cbn [packet_op map_err res_bind].
  apply (returns_bind (fun '(c, s) => counter_ok c /\ stats_ok s)); [apply returns_map_err|].
  - unfold handle_loss_outgoing. pose proof (PacketStat_index_lt (PacketStat_from t false)) as Hi.
    eapply returns_bind; [by apply returns_arith|]. intros l1 _.
    eapply returns_bind; [by apply returns_arith|]. intros l2 _.
    eapply (returns_bind counter_ok).
    + unfold counter_handle_loss_outgoing.
      eapply returns_bind; [apply add_at_returns; lia|]. intros b Hb; cbv beta in *.
      eapply (returns_bind (fun l => length l = 13%nat)).
      * repeat case_match; try done; (eapply returns_weaken; [apply add_at_returns; simpl; lia|]; simpl; lia).
      * intros l Hl; cbv beta in *. split; cbn; lia.
    + intros c Hc'. unfold stats_handle_loss_outgoing.
      eapply (returns_bind stats_ok).
      * eapply returns_bind; [apply add_at_returns; lia|]. intros ps Hps; cbv beta in *.
        eapply returns_bind; [apply add_at_returns; lia|]. intros bs Hbs; cbv beta in *. repeat split; cbn; lia.
      * intros s Hs'. by split.
  - intros [c s] [Hc' Hs'].
    split; [|done].
    split; [exact Hc|]. split; [exact Hp|]. split; [exact Hr|]. by split.
Qed.

(** * Sending an ack *)

Lemma set_socket_ok con socket sent : con_ok con -> con_ok (set_socket con socket sent).
Proof. done. Qed.

Lemma push_item_ok con i : con_ok con -> con_ok (push_item con i).
Proof. done. Qed.

Lemma poll_send_ok con u : con_ok con ->
  keeps con (poll_send_udp_packet con u).2 /\
  match (poll_send_udp_packet con u).1 with Ready Panic => False | _ => True end.
Proof.
  intros Hc. unfold poll_send_udp_packet. destruct (udp_socket con) as [|[| |n] rest]; [done..|].
  case_bool_decide; done.
Qed.

Lemma send_ack_packet_safe con L content t : con_ok con ->
  layout_ok (out_dir (is_client con)) L -> layout_type L = Some t -> bytes content -> encryptable content ->
  t = Ack \/ t = AckLow \/ t = Pong \/ t = Packets.Ping ->
  safe (keeps con) (send_ack_packet con (layout_packet (out_dir (is_client con)) L content)).
Proof.
  intros (Hc & Hp & Hrest) HL Ht Hb Hsmall Hack. unfold send_ack_packet, Connection_encode.
  destruct (encode_ack_safe (is_client con) (params con) (codec con) L content t HL Ht Hb Hsmall Hack Hc Hp)
    as (u & ps' & codec' & -> & Hu & _ & Hps' & Hc'). cbn [res_bind].
  set (con1 := set_codec (set_params con ps') codec').
  assert (con_ok con1) as Hok by done.
  pose proof (poll_send_ok con1 u Hok) as Hpoll.
  destruct (poll_send_udp_packet con1 u) as [[|[[]|e|]] con2]; cbn [fst snd] in Hpoll; try tauto.
  - destruct Hpoll as [[(? & ? & ? & ? & ? & Ha) Hk] _]. split; [|exact Hk].
    repeat (split; [done|]). cbn. apply Forall_app. split; [done|]. by apply Forall_singleton.
  - destruct Hpoll as [[Hok2 Hk] _].
    eapply safe_weaken; [by apply returns_safe, count_outgoing_returns|].
    intros con3 [? Hk3]. split; [done|]. by rewrite Hk3, Hk.
Qed.

Lemma reply_ack_safe con t id : con_ok con -> t = Packets.Ping \/ PacketType_is_command t = true ->
  safe (keeps con) (reply_ack con t id).
Proof.
  intros Hc Ht. unfold reply_ack.
  replace (Direction_reverse (in_dir (is_client con))) with (out_dir (is_client con))
    by by destruct (is_client con).
  assert (exists a, (a = Ack \/ a = AckLow \/ a = Pong \/ a = Packets.Ping) /\
    OutAck_new (out_dir (is_client con)) t id
    = Ok (layout_packet (out_dir (is_client con)) (fresh_layout (out_dir (is_client con)) Flags_empty a) (write_be 2 id)))
    as (a & Ha & ->).
  { unfold OutAck_new.
    destruct Ht as [->|Ht]; [|destruct t; try done]; cbn [res_bind];
      rewrite new_with_dir_layout by done; cbn [res_bind]; rewrite extend_layout; cbn [app];
      eexists; (split; [|reflexivity]); tauto. }
  cbn [packet_op map_err res_bind].
  apply (send_ack_packet_safe con _ _ a); try done.
  - by apply fresh_layout_ok.
  - by apply fresh_layout_read.
  - apply write_be_bytes.
  - unfold encryptable. rewrite write_be_length. lia.
Qed.

(** * Handling acks *)

Lemma ack_command_safe r t p_id next now :
  resender_ok r -> t = Init \/ PacketType_is_command t = true ->
  safe (fun '(r', _) => resender_ok r') (ack_command r t p_id next now).
Proof.
  intros Hr Ht. pose proof Hr as (Hl & Hl2 & Hall). unfold ack_command.
  assert (exists i, packet_type_to_index t = Ok i /\ (i < 3)%nat) as (i & -> & Hi).
  { destruct Ht as [->|Ht]; [|destruct t; try done]; simpl; eexists; (split; [done|]); lia. }
  cbn [res_bind]. destruct (lookup_3 _ i Hl Hi) as [m Hm]. destruct (lookup_3 _ i Hl2 Hi) as [start Hs].
  rewrite (index_ok _ _ _ Hm). cbn [res_bind]. destruct m as [|[first rec0] rest]; [done|].
  destruct (Hall i _ start Hm Hs) as (_ & [Hbt _] & _).
  eapply (safe_bind (fun _ => True)).
  { destruct (packet_id first =? p_id); [|done]. eapply (safe_bind (fun _ => True)); [|done].
    destruct rest as [|[k2 rec2] rest]; [|done]. case_bool_decide; [|done].
    eapply safe_bind; [by apply safe_arith|]. done. }
  intros [id item] _. destruct (bt_lookup id _) as [rec|] eqn:Hlook; [|done]. cbn [safe].
  assert (resender_ok (with_queues r (send_queue r) (<[i := bt_remove id ((first, rec0) :: rest)]>
    (full_send_queue r)) (send_queue_indices r))) as Hok.
  { apply (remove_records_ok r i _ _ Hr Hm); [by apply bt_remove_ok|].
    intros p Hp. by apply bt_remove_elem in Hp as [? _]. }
  by destruct (bool_decide _).
Qed.

Lemma ack_packet_safe con t p_id now : con_ok con ->
  t = Init \/ PacketType_is_command t = true \/ t = Packets.Ping ->
  safe (fun con' => con_ok con' /\ is_client con' = is_client con) (ack_packet con t p_id now).
Proof.
  intros Hc Ht. unfold ack_packet. case_bool_decide as Hp.
  { split; [|done]. destruct Hc as (? & ? & Hr & Hrest). split; [done|]. split; [done|]. split; [|done].
    cbn [resender set_resender]. unfold ack_ping.
    destruct (binary_search _ _ _) as [i|]; [|done]. by destruct (last_pings _ !! i). }
  eapply safe_bind.
  - apply safe_map_err, ack_command_safe; [apply Hc|]. tauto.
  - intros [r item] Hr. destruct Hc as (? & ? & _ & Hrest). destruct item; done.
Qed.

(** * Incoming packets *)

Lemma in_receive_window_returns con t id : codec_shape (in_dir (is_client con)) (codec con) ->
  returns (fun '(_, gen, _, _) => is_u32 gen) (in_receive_window con t id).
Proof.
  intros (_ & _ & _ & _ & _ & _ & Hl & Hi). unfold in_receive_window. case_bool_decide as Ht; [done|].
  destruct (index_lt (E := TsError) (incoming_p_ids (codec con)) (type_index t)) as (cur & Hcur & ->).
  { rewrite Hl. by apply type_index_lt. }
  destruct (Forall_lookup_1 _ _ _ _ Hi Hcur) as [Hg _]. cbn [res_bind]. unfold receive_window. destruct (overflowing 16 _) as [limit next_gen].
  apply (returns_bind (is_uint 32)); [|done]. repeat case_match; try done; by apply returns_arith.
Qed.

Lemma check_params_safe con L content t id gen :
  layout_ok (in_dir (is_client con)) L -> layout_type L = Some t ->
  safe (fun r => r = None -> t = Init -> params con = None)
    (check_params con {| ip_header := layout_header (in_dir (is_client con)) L;
                         ip_content := content |} t id gen).
Proof.
  intros HL Ht. unfold check_params. destruct (params con) as [ps|]; [|done].
  case_bool_decide as Hi; [done|]. destruct (is_client con); cbn [negb ip_header in_dir safe] in *; [by intros|].
  destruct (shape_accessors C2S L t HL Ht) as (pid & _ & _ & _ & _ & c & -> & Hs).
  destruct (Hs eq_refl) as [cid ->]. cbn [packet_op map_err res_bind unwrap].
  destruct (negb _ && negb _); cbn [safe]; [by intros|by intros _ ?].
Qed.

Lemma decrypt_content_safe con L content t id gen : con_ok con ->
  layout_ok (in_dir (is_client con)) L -> layout_type L = Some t -> bytes content ->
  (t = Init -> params con = None) ->
  safe (fun '(r, con') => con_ok con' /\ is_client con' = is_client con /\
      safe (fun c => length c = length content /\ bytes c) r)
    (decrypt_content con {| ip_header := layout_header (in_dir (is_client con)) L;
                            ip_content := content |} t id gen).
Proof.
  intros Hc HL Ht Hb Hi. unfold decrypt_content.
  set (p := {| ip_header := _; ip_content := content |}). set (with_params := match params con with Some _ => _ | None => _ end).
  match goal with |- safe ?Q0 _ => set (Q := Q0) end.
  assert (safe Q with_params) as Hw.
  { subst with_params. pose proof Hc as (Hcs & Hp & Hrest).
    destruct (params con) as [ps|] eqn:Hps; [|done].
    destruct Hp as (Hiv & Hm & Hmb & Hcache). assert (t <> Init) as Hti by (intros ->; by specialize (Hi eq_refl)).
    destruct (decrypt_safe _ L content t gen (shared_iv ps) (key_cache ps) HL Ht Hti Hb Hiv Hcache)
      as (r & cache' & Hd & Hc' & Hr). unfold p. rewrite Hd. cbn [res_bind safe Q]. by split. }
  destruct (_ || _); [|done].
  pose proof (decrypt_key_nonce_safe _ L content t FAKE_KEY FAKE_NONCE HL Ht Hb) as Hf.
  unfold decrypt_fake, p. destruct (decrypt_key_nonce _ FAKE_KEY FAKE_NONCE) as [c|e|]; [|done..].
  by split.
Qed.

Lemma open_packet_safe con L content t id gen : con_ok con ->
  layout_ok (in_dir (is_client con)) L -> layout_type L = Some t -> bytes content ->
  (t = Init -> params con = None) ->
  safe (fun '(plain, con') => con_ok con' /\ is_client con' = is_client con /\
      forall d, plain = Some d -> exists c', bytes c' /\ d = layout_bytes L ++ c')
    (open_packet con {| ip_header := layout_header (in_dir (is_client con)) L;
                        ip_content := content |} (layout_bytes L ++ content) t id gen).
Proof.
  intros Hc HL Ht Hb Hi. unfold open_packet. cbn [ip_header].
  rewrite flags_layout by done. cbn [packet_op map_err res_bind].
  destruct (Flags_contains _ UNENCRYPTED); cbn [negb].
  - destruct (must_encrypt t); (split; [by try apply push_item_ok|]); (split; [done|]); [done|].
    intros d [= <-]. by exists content.
  - destruct (_ && _); [done|]. eapply safe_bind; [by apply decrypt_content_safe|].
    intros [r con'] (Hc' & Hcl & Hr). destruct r as [c|e|]; [|by split|done].
    destruct Hr as [Hl Hcb]. cbn [ih_data layout_header].
    rewrite drop_app_length, bool_decide_true by done.
    split; [done|]. split; [done|]. intros d [= <-]. exists c. by rewrite take_app_length.
Qed.

Lemma handle_commands_safe con commands now : con_ok con ->
  Forall (packet_shape (in_dir (is_client con))) commands ->
  safe (fun con' => con_ok con' /\ is_client con' = is_client con) (handle_commands con commands now).
Proof.
  revert con. induction commands as [|c commands IH]; intros con Hc Hall; [by split|].
  apply Forall_cons in Hall as [Hs Hall]. cbn [handle_commands].
  destruct (packet_shape_new _ c Hs) as (L & content & t & HL & _ & _ & _ & ->).
  cbn [packet_op map_err res_bind ip_content].
  apply (safe_bind (fun con' => con_ok con' /\ is_client con' = is_client con)).
  - repeat case_match; try (by split); apply ack_packet_safe; try done; auto.
  - intros con' [Hc' Hcl]. eapply safe_weaken; [apply IH; [done|]|].
    + change (is_client (push_item con' (Item_Command c))) with (is_client con'). by rewrite Hcl.
    + intros con2 [? Hcl2]. split; [done|]. by rewrite Hcl2.
Qed.

(** The acknowledged ids and which packets carry one. *)
Lemma ack_id_safe dir L content t : layout_ok dir L -> layout_type L = Some t ->
  safe (fun acked => is_Some acked -> t = Init \/ PacketType_is_ack t = true)
    (InPacket_ack_packet {| ip_header := layout_header dir L; ip_content := content |}).
Proof.
  intros HL Ht. unfold InPacket_ack_packet. cbn [ip_header ip_content].
  destruct (shape_accessors dir L t HL Ht) as (id & _ & -> & _). cbn [res_bind].
  destruct (PacketType_is_ack t) eqn:Ha.
  - destruct (read_be 2 content); [|done]. cbn. auto.
  - case_bool_decide as Hi; [|intros [? ?]; done].
    apply (safe_weaken (fun _ => True)); [|by left].
    destruct (ih_direction _); [destruct (head content) as [i|]|destruct (content !! 4%nat) as [i|]];
      cbn [ok_or res_bind]; try done; by repeat case_match.
Qed.

Lemma with_incoming_shape dir codec t id : codec_shape dir codec -> id_ok id ->
  codec_shape dir (with_incoming codec t id).
Proof.
  intros (Ho & Hoi & Hr & Hrs & Hf & Hfs & Hi & His) Hid.
  repeat (split; [done|]). split; [cbn [incoming_p_ids with_incoming]; by rewrite length_insert|].
  by apply Forall_insert.
Qed.

Lemma parsed_item_safe {A} what (m : res PacketError A) f : no_panic m = true ->
  safe (fun _ => True) (parsed_item what m f).
Proof. by destruct m. Qed.

Lemma handle_other_safe con L content t id gen now : con_ok con -> is_client con = true ->
  layout_ok (in_dir (is_client con)) L -> layout_type L = Some t -> bytes content ->
  PacketType_is_command t = false -> is_u16 id -> is_u32 gen ->
  safe (fun con' => con_ok con' /\ is_client con' = is_client con)
    (handle_other con (layout_bytes L ++ content) t id gen now).
Proof.
  intros Hc Hcl HL Ht Hb Hnc Hid Hgen. unfold handle_other. rewrite new_layout by done.
  cbn [packet_op map_err res_bind].
  apply (safe_bind (fun con' => con_ok con' /\ is_client con' = is_client con)).
  { case_bool_decide as Hi; [by split|].
    destruct (overflowing 16 (id + 1)) as [id' next_gen] eqn:Ho.
    assert (is_u16 id') as Hid' by (injection Ho as <- _; by apply wrap_uint).
    eapply (safe_bind (is_uint 32)).
    { destruct next_gen; [by apply safe_arith|done]. }
    intros gen' Hgen'. destruct Hc as (Hcs & Hrest). split; [|done]. split; [|exact Hrest].
    by apply with_incoming_shape. }
  intros con1 [Hc1 Hcl1]. pose proof (ack_id_safe _ L content t HL Ht) as Hack.
  destruct (InPacket_ack_packet _) as [acked|e|]; [|by split|done]. cbn [safe] in Hack.
  apply (safe_bind (fun con' => con_ok con' /\ is_client con' = is_client con)).
  { destruct acked as [ack_id|]; [|by split].
    eapply safe_weaken; [apply ack_packet_safe; [done|]|].
    - destruct (Hack ltac:(eauto)) as [->|Ha]; [by left|right]. by destruct t; auto.
    - intros con2 [? Hcl2]. split; [done|]. by rewrite Hcl2. }
  intros con2 [Hc2 Hcl2]. destruct (PacketType_is_voice t).
  { eapply safe_bind; [apply parsed_item_safe|intros item _; by split].
    unfold InPacket_into_audio. cbn [ip_header ip_content].
    destruct (shape_accessors _ L t HL Ht) as (pid & _ & -> & _ & -> & _). cbn [res_bind].
    rewrite parse_no_panic by done. by rewrite Hcl. }
  case_bool_decide as Hi; [|by split]. rewrite Hcl2, Hcl.
  eapply safe_bind; [apply parsed_item_safe|intros item _; split; [done|cbn; congruence]].
  apply (init_parsers_safe (in_dir (is_client con)) (layout_bytes L ++ content)).
  - apply bytes_app. split; [apply HL|done].
  - rewrite try_new_layout by done. rewrite (proj2 (Z.ltb_ge _ _)); [by rewrite Hcl|]. by apply (type_of_low _ t).
Qed.

(** The whole handler. *)
Lemma handle_udp_packet_safe con data now : con_ok con -> is_client con = true ->
  packet_shape (in_dir (is_client con)) data ->
  safe (keeps con) (PacketCodec_handle_udp_packet con data now).
Proof.
  intros Hc Hcl Hs. unfold PacketCodec_handle_udp_packet.
  destruct (packet_shape_new _ data Hs) as (L & content & t & HL & Hb & Ht & -> & ->).
  cbn [packet_op map_err res_bind ip_header].
  destruct (shape_accessors _ L t HL Ht) as (id & Hid & -> & -> & _). cbn [packet_op map_err res_bind].
  eapply safe_bind; [apply returns_safe, in_receive_window_returns, Hc|]. intros [[[in_win gen] cur] limit] Hgen.
  eapply safe_bind; [by apply returns_safe, count_incoming_returns|]. intros con1 (Hc1 & c1 & s1 & Heq1).
  assert (is_client con1 = is_client con) as Hcl1 by by rewrite Heq1.
  apply (safe_weaken (keeps con1)); [|intros con'; apply keeps_trans; by split].
  rewrite <- Hcl1 in HL |- *.
  eapply safe_bind; [by apply check_params_safe|]. intros [e|] Hp; [done|]. specialize (Hp eq_refl).
  destruct (ignores_window t || in_win).
  - eapply safe_bind; [by apply open_packet_safe|]. intros [[plain|] con2] (Hc2 & Hcl2 & Hplain); [|by split].
    apply (safe_weaken (keeps con2)); [|intros con'; apply keeps_trans; by split].
    destruct (Hplain plain eq_refl) as (c2 & Hb2 & ->).
    apply (safe_bind (keeps con2)).
    + unfold handle_plain. destruct (PacketType_is_command t) eqn:Hcmd.
      * rewrite <- Hcl2 in HL. eapply safe_bind; [apply handle_command_packet_safe|].
        -- apply Hc2.
        -- by exists L, c2, t.
        -- intros L' c' Heq HL' Ht'. apply app_inj_1 in Heq as [Heq _];
             [|by rewrite (layout_length _ L HL), (layout_length _ L' HL')].
           unfold layout_bytes in Heq. rewrite !app_assoc in Heq. apply app_inj_2 in Heq as [_ [= Heq]]; [|done].
           unfold layout_type in *. rewrite <- Heq in Ht'. rewrite Ht in Ht'. injection Ht' as ->. done.
        -- intros [c ps] [Hc' Hps]. eapply safe_weaken; [apply handle_commands_safe; [|done]|done].
           destruct Hc2 as (_ & Hrest). by split.
      * rewrite <- Hcl2 in HL. eapply safe_weaken; [apply (handle_other_safe con2); try done; congruence|done].
    + intros con3 Hk3. pose proof Hk3 as [Hc3 _].
      apply (safe_weaken (keeps con3)); [|intros con'; by apply keeps_trans].
      destruct (PacketType_is_command t) eqn:Hcmd; cbn [orb].
      * apply reply_ack_safe; [done|by right].
      * case_bool_decide; [|by split]. apply reply_ack_safe; [done|by left].
  - apply (safe_bind (keeps con1)).
    + destruct (PacketType_is_command t); [|by split].
      eapply (safe_bind counter_ok).
      * apply safe_map_err. unfold handle_loss_resend_ack. destruct Hc1 as (_ & _ & _ & [Hcb Hcn] & _).
        eapply safe_bind; [apply returns_safe, add_at_returns; simpl; lia|]. intros l Hl; cbv beta in *.
        split; cbn; lia.
      * intros c Hc'. destruct Hc1 as (? & ? & ? & _ & ? & ?). split; [|done].
        by repeat (split; [done|]).
    + intros con2 Hk2. pose proof Hk2 as [Hc2 _].
      apply (safe_weaken (keeps con2)); [|intros con'; by apply keeps_trans].
      destruct (PacketType_is_command t) eqn:Hcmd; [|by split].
      by apply (reply_ack_safe (push_item con2 _)); [|right].
Qed.

(** A datagram from the network. *)
Lemma handle_datagram_safe (con : Connection) (data : list Z) (addr : SocketAddr) (now : Z)
    (Hc : con_ok con) (Hcl : is_client con = true) (Hb : bytes data) :
  safe (keeps con) (Connection_handle_udp_packet con data addr now).
Proof.
  unfold Connection_handle_udp_packet. case_bool_decide as Ha; [|done]. cbn [negb].
  destruct (InPacket_try_new (in_dir (is_client con)) data) as [p|e|] eqn:Hp; [|done|].
  - apply (safe_weaken (keeps (set_resender con (received_packet (resender con) now))));
      [|intros con'; apply keeps_trans; by split; [destruct Hc|]].
    apply handle_udp_packet_safe; [by destruct Hc|done|]. by apply (try_new_shape _ _ p).
  - exfalso. unfold InPacket_try_new in Hp. case_bool_decide as Hl; [done|].
    destruct (layout_exists (in_dir (is_client con)) data Hb ltac:(lia)) as (L & content & HL & ->).
    pose proof (try_new_layout _ L content HL) as Ht. unfold InPacket_try_new in Ht.
    rewrite bool_decide_false in Ht by done. rewrite Ht in Hp. by destruct (8 <? _).
Qed.

(** C11: no datagram crashes a client: for every well-formed state of a client connection, and for
    every byte sequence from any address, the handling returns and does not panic (without
    overflow checks), and the state is well-formed again.  Well-formed means: the arrays have their
    length, packet ids are in range, the queued packets and fragments are packets, cached keys have
    their length, and the queues of the resender are in order. *)
Theorem datagram_safe (con : Connection) (data : list Z) (addr : SocketAddr) (now : Z)
    (Hc : con_ok con) (Hcl : is_client con = true) (Hb : bytes data) :
  safe (keeps con) (Connection_handle_udp_packet con data addr now).
Proof. by apply handle_datagram_safe. Qed.

End safety.

(** * A fresh connection is well-formed *)

Definition local_addr : SocketAddr := {| sa_ip := [127; 0; 0; 1]; sa_port := 9987 |}.

Lemma connection_new_ok is_client addr socket now : con_ok (Connection_new is_client addr socket now).
Proof.
  assert (Forall id_ok (replicate 8 PartialPacketId_default)) as Hd.
  { apply Forall_replicate. by split. }
  split; [|split; [done|split; [apply resender_default_ok|]]].
  - assert (id_ok first_command_id) by by split.
    destruct is_client; repeat split; cbn [Connection_new codec with_outgoing PacketCodec_default
      outgoing_p_ids incoming_p_ids receive_queue fragmented_queue]; rewrite ?length_insert; try done;
      try (by apply Forall_insert); by repeat constructor.
  - by repeat split; try constructor.
Qed.

Lemma datagram_safe_witness :
  safe (keeps (Connection_new true local_addr [] 5)) (Connection_handle_udp_packet (H4 := release_profile)
    (Connection_new true local_addr [] 5) (replicate 8 0 ++ [0; 1; 0x80; 0; 1; 9]) local_addr 6).
Proof.
  apply (datagram_safe (H8 := release_profile)).
  - reflexivity.
  - apply connection_new_ok.
  - reflexivity.
  - repeat constructor; by vm_compute.
Defined.
