(* ===== verification/SendSafety.v ===== *)
(** Sending a packet on a well-formed connection succeeds and keeps it well-formed, as long as the
    packet ids are not used up; nothing but [connect] changes the shared secrets. *)
From S2P Require Import Prelude ByteIO Packets InitPackets AudioData PacketId Algorithms Codec.
From S2P Require Import Encode BTree Resend Stats Connection Safety.
#[local] Open Scope Z_scope.

(** * Room for packet ids *)

(** [n] more packets of type [t] get an id before the last generation. *)
Definition ids_room (codec : PacketCodec) (t : PacketType) (n : nat) : Prop :=
  forall id, outgoing_p_ids codec !! type_index t = Some id ->
    id_val id + Z.of_nat n <= 4294967294 * 65536.

Lemma add_one id : id_ok id -> id_val id < 4294967294 * 65536 ->
  id_ok (PartialPacketId_add id 1) /\ id_val (PartialPacketId_add id 1) = id_val id + 1.
Proof.
  intros Hid Hlt. destruct (add_ok id 1 Hid ltac:(done)) as [Hok Hv]. split; [done|].
  rewrite Hv. apply wrap_small. destruct (id_val_range id Hid) as [Hlo _]. unfold is_uint.
  change (2 ^ 48) with 281474976710656. lia.
Qed.

Lemma sent_id_room t id : id_ok id -> id_val id < 4294967294 * 65536 ->
  id_ok (pid_part (sent_id t id)) /\ id_val (pid_part (sent_id t id)) + 1 < 2 ^ 48.
Proof.
  intros Hid Hlt. destruct (add_one id Hid Hlt) as [[Hg Hp] Hv]. destruct Hid as [Hg' Hp'].
  unfold sent_id, id_ok, id_val in *. cbn [pid_part generation_id packet_id] in *.
  unfold is_uint in *. split; [done|]. change (2 ^ 48) with 281474976710656. change (2 ^ 16) with 65536 in *. lia.
Qed.

Section send.
Context `{BeIoLaws, QuicklzLaws, EaxLaws, Sha256Laws}.

(** A packet that the resender can store. *)
Definition sendable (t : PacketType) (u : OutUdpPacket) : Prop :=
  out_shape u /\ OutUdpPacket_packet_type u = Ok t /\
  exists id, PacketId_from u = Ok id /\ pid_type id = t /\ id_ok (pid_part id) /\
    id_val (pid_part id) + 1 < 2 ^ 48.

Lemma encode_parts_sent dir t fake should parts : t <> Init -> forall ps codec,
  Forall (fun '(L, chunk) => layout_ok dir L /\ layout_type L = Some t /\ bytes chunk /\ encryptable chunk) parts ->
  option_params ps -> codec_shape (Direction_reverse dir) codec ->
  ids_room codec t (length parts) -> (should = true -> fake = true \/ is_Some ps) ->
  exists us ps' codec',
    encode_parts t fake should ps codec ((fun '(L, chunk) => layout_packet dir L chunk) <$> parts)
      = Ok (us, ps', codec') /\ length us = length parts /\ Forall (sendable t) us /\
    option_params ps' /\ codec_shape (Direction_reverse dir) codec'.
Proof.
  intros Hi. induction parts as [|[L chunk] parts IH]; intros ps codec Hp Hps Hc Hroom Hkey.
  { exists [], ps, codec. by split_and!. }
  apply Forall_cons_1 in Hp as [(HL & Ht & Hb & Hsmall) Hp]. pose proof Hc as (Hlen & Hids & _).
  destruct (encode_part_sent dir L chunk t fake should ps codec HL Ht Hb Hsmall Hi Hps Hlen Hids Hkey)
    as (u & ps1 & id & He & Hid & Hido & Hu & Hut & Hfrom & Hps1 & Hsome).
  pose proof (Hroom id Hid) as Hroom1. cbn [length] in Hroom1.
  destruct (add_one id Hido ltac:(lia)) as [Hok1 Hv1].
  destruct (IH ps1 (with_outgoing codec t (PartialPacketId_add id 1))) as (us & ps' & c' & Hrest & Hl & Hall & Hps' & Hc');
    try done.
  { by apply with_outgoing_shape. }
  { intros id' Hid'. rewrite (outgoing_with codec t id) in Hid' by done. injection Hid' as <-. lia. }
  { intros Hs. destruct (Hkey Hs); auto. }
  exists (u :: us), ps', c'. cbn [fmap list_fmap encode_parts]. rewrite He. cbn [res_bind].
  change (list_fmap _ _ ?f parts) with (f <$> parts). rewrite Hrest. cbn [res_bind length].
  destruct (sent_id_room t id Hido ltac:(lia)) as [Hs1 Hs2].
  split_and!; [done|simpl; lia| |done|done].
  constructor; [|done]. split; [done|]. split; [done|]. exists (sent_id t id).
  repeat (split; [done|]). exact Hs2.
Qed.

(** Commands. *)
Lemma encode_command_sent is_client ps codec L t content :
  layout_ok (out_dir is_client) L -> layout_type L = Some t -> PacketType_is_command t = true ->
  bytes content -> option_params ps -> codec_shape (in_dir is_client) codec ->
  ids_room codec t (S (length content)) ->
  exists us ps' codec', encode_packet is_client ps codec (layout_packet (out_dir is_client) L content)
      = Ok (us, ps', codec') /\ (us <> []) /\ Forall (sendable t) us /\ option_params ps' /\
    codec_shape (in_dir is_client) codec'.
Proof.
  intros HL Ht Hcmd Hb Hps Hc Hroom. pose proof Hc as (Hlen & _).
  destruct (index_lt (E := TsError) (outgoing_p_ids codec) (type_index t)) as (id & Hid & _).
  { rewrite Hlen. apply type_index_lt. by intros ->. }
  rewrite (encode_command_open is_client ps codec L t content id) by done. cbv zeta.
  destruct (command_header_ok is_client ps L HL) as [HL' Ht']. rewrite Ht in Ht'.
  set (dir := out_dir is_client) in *. set (L' := command_header is_client ps L) in *.
  destruct (compress_and_split_parts dir L' content t HL' Ht' ltac:(by intros ->))
    as (chunks & Hcs & Hne & Hj & Hshort & Hcount).
  change (is_client_dir dir) with (is_client_dir (out_dir is_client)) in Hcs.
  rewrite is_client_out in Hcs. rewrite Hcs. cbn [res_bind].
  set (fake := match ps with Some _ => _ | None => _ end).
  destruct (payload_facts dir content Hb) as [Hpb Hpl].
  pose proof (chunk_count dir chunks _ Hcount) as Hk.
  assert (Forall (fun c => bytes c) chunks) as Hcb by (apply bytes_mjoin; by rewrite Hj).
  set (z := fst (payload dir content)) in *.
  set (parts := imap (fun i chunk => (with_flags L' (Flags_or (layout_flags L')
    (fragment_flags z (length chunks) i)), chunk)) chunks).
  replace (in_dir is_client) with (Direction_reverse dir) in Hc |- * by by destruct is_client.
  destruct (encode_parts_sent dir t fake true parts ltac:(by intros ->) ps codec)
    as (us & ps' & c' & Henc & Hl & Hall & Hps' & Hc'); try done.
  - apply Forall_forall. intros [Li ci] Hin. apply list_elem_of_lookup in Hin as [i Hin].
    unfold parts in Hin. rewrite list_lookup_imap in Hin.
    destruct (chunks !! i) as [chunk|] eqn:Hci; [|done]. injection Hin as <- <-.
    assert (is_flags (Flags_or (layout_flags L') (fragment_flags z (length chunks) i))) as Hfo
      by (apply is_flags_or; [by apply (layout_flags_ok dir)|apply fragment_flags_ok]).
    split; [by apply with_flags_ok|]. split.
    + rewrite <- Ht'. by apply with_flags_read.
    + split; [rewrite Forall_forall in Hcb; by eapply Hcb, list_elem_of_lookup_2|].
      rewrite Forall_forall in Hshort. apply list_elem_of_lookup_2, Hshort in Hci. unfold encryptable. lia.
  - intros id' Hid'. pose proof (Hroom id' Hid') as Hr. unfold parts. rewrite length_imap. lia.
  - intros _. unfold fake. destruct ps; [right|left]; done.
  - exists us, ps', c'. unfold parts in Henc. rewrite fmap_imap in Henc.
    split; [exact Henc|]. split; [|done]. intros ->. unfold parts in Hl. rewrite length_imap in Hl.
    by destruct chunks.
Qed.

(** Init packets of a client are neither encrypted nor numbered; the id of the resender is the
    step. *)
Lemma encode_init_sent codec L content :
  layout_ok C2S L -> layout_type L = Some Init -> bytes content -> (5 <= length content)%nat ->
  exists u, encode_packet true None codec (layout_packet C2S L content) = Ok ([u], None, codec) /\
    sendable Init u.
Proof.
  intros HL Ht Hb Hlen. unfold encode_packet. rewrite header_layout by done.
  cbn [packet_op map_err res_bind]. rewrite packet_type_layout, Ht by done.
  cbn [unwrap packet_op map_err res_bind].
  change (PacketType_is_command Init) with false. change (should_encrypt Init false) with false.
  rewrite (bool_decide_true (Init = Init)), !(bool_decide_false (Init = _)) by done.
  cbn [andb orb res_bind]. rewrite content_layout by done. cbn [packet_op map_err res_bind].
  assert (is_fake_encrypt true Init PartialPacketId_default content = false) as -> by done.
  cbn [andb negb]. rewrite client_id_packet by done. cbn [packet_op map_err res_bind].
  set (L1 := with_cid L 0). assert (layout_ok C2S L1) as HL1 by by apply with_cid_ok.
  rewrite add_flag_layout by done. cbn [res_bind encode_parts].
  set (L2 := with_flags L1 _).
  assert (is_flags (Flags_or (layout_flags L1) UNENCRYPTED)) as Hfl
    by (apply is_flags_or; [by apply (layout_flags_ok C2S)|done]).
  assert (layout_ok C2S L2) as HL2 by by apply with_flags_ok.
  assert (layout_type L2 = Some Init) as Ht2.
  { destruct (with_flags_read L1 _ Hfl) as [_ Htf]. unfold L2. by rewrite Htf. }
  eexists. split; [reflexivity|]. split; [by exists C2S, L2, content, Init|].
  assert (OutUdpPacket_packet_type {| ou_generation_id := 0; ou_data := layout_packet C2S L2 content |} = Ok Init)
    as Hty.
  { unfold OutUdpPacket_packet_type. cbn [ou_data]. rewrite header_layout by done. cbn [res_bind].
    by rewrite packet_type_layout, Ht2. }
  split; [exact Hty|].
  destruct (lookup_lt_is_Some_2 content 4 ltac:(lia)) as [step Hstep].
  exists {| pid_type := Init; pid_part := {| generation_id := 0; packet_id := step |} |}.
  pose proof (bytes_lookup content 4 step Hb Hstep) as Hs. split.
  - unfold PacketId_from, OutUdpPacket_packet_id. cbn [ou_generation_id PartialPacketId_add].
    change (generation_id (PartialPacketId_add PartialPacketId_default 1)) with 0.
    rewrite Hty. cbn [res_bind]. rewrite bool_decide_true by done. cbn [ou_data].
    rewrite content_layout by done. cbn [res_bind layout_packet op_dir].
    by rewrite (index_ok _ _ _ Hstep).
  - split; [done|]. unfold id_ok, id_val, is_uint. cbn [pid_part generation_id packet_id].
    change (2 ^ 48) with 281474976710656. change (2 ^ 16) with 65536. change (2 ^ 32) with 4294967296. lia.
Qed.

(** * Sending on a connection *)

Context `{Cubic, Profile}.

Lemma send_packet_ok r t u now : resender_ok r -> sendable t u ->
  t = Init \/ PacketType_is_command t = true ->
  exists r', send_packet r u now = Ok r' /\ resender_ok r'.
Proof.
  intros Hr (_ & _ & id & Hfrom & Hty & Hok & Hmax) Ht.
  assert (exists i, packet_type_to_index (pid_type id) = Ok i /\ (i < 3)%nat) as (i & Hi & Hi3).
  { rewrite Hty. destruct Ht as [->|Ht]; [by exists 0%nat; split; [|lia]|].
    destruct t; try done; eexists; (split; [done|lia]). }
  pose proof Hr as (H1' & H2' & Hall).
  destruct (lookup_3 _ i H1' Hi3) as [m Hm]. destruct (lookup_3 _ i H2' Hi3) as [start Hs].
  unfold send_packet. rewrite Hfrom. cbn [res_bind]. rewrite Hi. cbn [res_bind].
  cbn [send_queue_indices full_send_queue with_times].
  rewrite (index_ok _ _ _ Hs), (index_ok _ _ _ Hm). cbn [res_bind].
  set (rec := {| sr_sent := now; sr_id := _; sr_packet := u |}). set (r0 := with_times r _ _ _ _).
  pose proof (insert_ok r0 i (pid_part id) rec m start Hr Hm Hs Hok Hmax eq_refl) as Hins.
  eexists. split; [reflexivity|]. by apply fill_up_spec.
Qed.

Lemma send_udp_packets_ok t us : t = Init \/ PacketType_is_command t = true -> forall con now,
  con_ok con -> Forall (sendable t) us ->
  exists con', send_udp_packets con us now = Ok con' /\ keeps con con'.
Proof.
  intros Ht. induction us as [|u us IH]; intros con now Hc Hall; [by exists con|].
  apply Forall_cons in Hall as [Hu Hall]. cbn [send_udp_packets].
  pose proof Hc as (Hcodec & Hp & Hr & Hrest).
  destruct (send_packet_ok (resender con) t u now Hr Hu Ht) as (r & Hs & Hr').
  assert (send_udp_packet con u now = Ok (set_resender con r)) as ->.
  { unfold send_udp_packet. destruct Hu as (_ & -> & _). cbn [packet_op map_err res_bind].
    rewrite Hs. destruct Ht as [->|Ht]; [done|]. by destruct t. }
  cbn [res_bind]. destruct (IH (set_resender con r) now) as (con' & -> & Hk); [|done|].
  - by repeat (split; [done|]).
  - exists con'. split; [done|]. by apply (keeps_trans con (set_resender con r)).
Qed.

(** The packets a user sends through the resender: commands, and init packets before the
    connection is established. *)
Definition reliable (con : Connection) (L : Layout) (content : list Z) : Prop :=
  layout_ok (out_dir (is_client con)) L /\ bytes content /\
  ((exists t, layout_type L = Some t /\ PacketType_is_command t = true /\
      ids_room (codec con) t (S (length content))) \/
   (layout_type L = Some Init /\ is_client con = true /\ params con = None /\ (5 <= length content)%nat)).

Lemma Connection_send_ok con L content now : con_ok con -> reliable con L content ->
  exists id con', Connection_send_packet con (layout_packet (out_dir (is_client con)) L content) now
    = Ok (id, con') /\ keeps con con'.
Proof.
  intros Hc (HL & Hb & Hkind). pose proof Hc as (Hcodec & Hp & Hrest).
  assert (exists t us ps' c', (t = Init \/ PacketType_is_command t = true) /\
    encode_packet (is_client con) (params con) (codec con)
      (layout_packet (out_dir (is_client con)) L content) = Ok (us, ps', c') /\ (us <> []) /\
    Forall (sendable t) us /\ option_params ps' /\ codec_shape (in_dir (is_client con)) c')
    as (t & us & ps' & c' & Ht & He & Hne & Hall & Hps' & Hc').
  { destruct Hkind as [(t & Ht & Hcmd & Hroom)|(Ht & Hcl & Hnone & Hlen)].
    - destruct (encode_command_sent (is_client con) (params con) (codec con) L t content)
        as (us & ps' & c' & ?); try done. exists t, us, ps', c'. split; [by right|done].
    - rewrite Hcl, Hnone in *. destruct (encode_init_sent (codec con) L content) as (u & He & Hu); try done.
      exists Init, [u], None, (codec con). split; [by left|]. split_and!; try done. by constructor. }
  unfold Connection_send_packet, Connection_encode. rewrite He. cbn [res_bind].
  destruct us as [|u us] using rev_ind; [done|clear IHus]. rewrite last_snoc. cbn [unwrap res_bind].
  pose proof Hall as Hall'. apply Forall_app in Hall' as [_ Hu]. apply Forall_inv in Hu.
  destruct Hu as (_ & _ & id & Hfrom & _). rewrite Hfrom. cbn [packet_op map_err res_bind].
  destruct (send_udp_packets_ok t (us ++ [u]) Ht (set_codec (set_params con ps') c') now)
    as (con' & Hs & Hk); [|done|].
  { by repeat (split; [done|]). }
  rewrite Hs. exists id, con'. by split.
Qed.
End send.
