(* ===== verification/Trust.v ===== *)
(** What an unauthenticated datagram can change, and how late packets move the receive window. *)
From S2P Require Import Prelude ByteIO Packets InitPackets AudioData PacketId Algorithms Codec.
From S2P Require Import Encode BTree Resend Stats Connection Safety.
From stdpp Require Import strings.
#[local] Open Scope Z_scope.

Section trust.
Context `{BeIoLaws, QuicklzLaws, EaxLaws, Sha256Laws, Cubic, Profile}.
Context (Hrelease : overflow_checks = false).

(** The connection after the packet was counted. *)
Lemma counted con t id len in_win cur : con_ok con ->
  exists c s, count_incoming con t id len in_win cur = Ok (set_stats con c s (last_stat con)) /\
    con_ok (set_stats con c s (last_stat con)).
Proof.
  intros Hc. pose proof (count_incoming_returns Hrelease con t id len in_win cur Hc) as Hs.
  destruct (count_incoming _ _ _ _ _ _) as [con'|e|]; [|done..].
  destruct Hs as (Hok & c & s & ->). by exists c, s.
Qed.

Lemma check_params_client con p t id gen :
  is_client con = true -> t <> Init -> check_params con p t id gen = Ok None.
Proof.
  intros Hcl Ht. unfold check_params. destruct (params con); [|done].
  rewrite bool_decide_false by done. by rewrite Hcl.
Qed.

(** How a client reaches [handle_other] with an unencrypted packet that ignores the window: the
    packet only was counted. *)
Lemma plain_reaches_other con L content t id now :
  con_ok con -> is_client con = true -> layout_ok S2C L -> layout_type L = Some t ->
  InHeader_packet_id (layout_header S2C L) = Ok id ->
  Flags_contains (layout_flags L) UNENCRYPTED = true ->
  ignores_window t = true -> t <> Init ->
  exists con1 in_win gen cur limit,
    in_receive_window con t id = Ok (in_win, gen, cur, limit) /\ is_u32 gen /\
    Connection_handle_udp_packet con (layout_bytes L ++ content) (address con) now
      = handle_other con1 (layout_bytes L ++ content) t id gen now /\
    con_ok con1 /\ is_client con1 = true /\ codec con1 = codec con /\
    resender con1 = received_packet (resender con) now /\
    stream_items con1 = stream_items con /\ acks_to_send con1 = acks_to_send con /\
    udp_sent con1 = udp_sent con.
Proof.
  intros Hc Hcl HL Ht Hid Hun Hig Hi. unfold Connection_handle_udp_packet.
  rewrite bool_decide_true by done. cbn [negb]. rewrite Hcl. cbn [in_dir].
  rewrite try_new_layout by done.
  rewrite (proj2 (Z.ltb_ge _ _)) by by apply (type_of_low _ t).
  set (con0 := set_resender con _). assert (con_ok con0) as Hc0 by by destruct Hc.
  unfold PacketCodec_handle_udp_packet. cbn [is_client set_resender con0]. rewrite Hcl. cbn [in_dir].
  rewrite new_layout by done. cbn [packet_op map_err res_bind ip_header].
  destruct (shape_accessors S2C L t HL Ht) as (_ & _ & -> & _). rewrite Hid.
  cbn [packet_op map_err res_bind].
  pose proof (in_receive_window_returns Hrelease con t id (proj1 Hc)) as Hw.
  change (in_receive_window con0 t id) with (in_receive_window con t id).
  destruct (in_receive_window con t id) as [[[[in_win gen] cur] limit]|e|]; [|done..].
  cbn [returns] in Hw. cbn [res_bind].
  destruct (counted con0 t id (length (layout_bytes L ++ content)) in_win cur Hc0)
    as (c & s & -> & Hc1). cbn [res_bind]. set (con1 := set_stats con0 c s (last_stat con0)) in *.
  rewrite check_params_client by done. cbn [res_bind]. rewrite Hig. cbn [orb].
  unfold open_packet. cbn [ip_header]. rewrite flags_layout by done.
  cbn [packet_op map_err res_bind]. rewrite Hun. cbn [negb].
  assert (must_encrypt t = false) as -> by by destruct t. cbn [res_bind].
  assert (PacketType_is_command t = false) as Hcmd by by destruct t.
  unfold handle_plain. rewrite Hcmd. cbn [orb].
  exists con1, in_win, gen, cur, limit. split; [done|]. split; [done|].
  split; [|by repeat (split; [done|])].
  assert (bool_decide (t = Packets.Ping) = false) as -> by by destruct t.
  by destruct (handle_other con1 _ t id gen now).
Qed.

(** [handle_other] first moves the receive window behind the packet. *)
Lemma handle_other_window con L content t id gen now :
  con_ok con -> is_client con = true -> layout_ok S2C L -> t <> Init -> is_u16 id -> is_u32 gen ->
  exists con1, con1 = set_codec con (with_incoming (codec con) t
      (PartialPacketId_add {| generation_id := gen; packet_id := id |} 1)) /\ con_ok con1 /\
    handle_other con (layout_bytes L ++ content) t id gen now =
      match InPacket_ack_packet {| ip_header := layout_header S2C L; ip_content := content |} with
      | Panic => Panic
      | Err e => Ok (push_item con1 (Item_Error (CreateAck e)))
      | Ok acked =>
          let? con2 := match acked with
                       | Some ack_id => ack_packet con1 (acked_type t) ack_id now
                       | None => Ok con1
                       end in
          if PacketType_is_voice t then
            let? item := parsed_item "audio"
              (InPacket_into_audio {| ip_header := layout_header S2C L; ip_content := content |})
              (Item_Audio (layout_bytes L ++ content)) in
            Ok (push_item con2 item)
          else Ok con2
      end.
Proof.
  intros Hc Hcl HL Hi Hid Hgen. unfold handle_other. rewrite Hcl. cbn [in_dir].
  rewrite new_layout by done. cbn [packet_op map_err res_bind].
  rewrite (bool_decide_false (t = Init)) by done.
  set (id2 := PartialPacketId_add _ 1).
  assert (id_ok id2) as Hid2 by (apply add_ok; [by split|done]).
  eexists. split; [done|]. split.
  { destruct Hc as (Hcs & Hrest). split; [|exact Hrest]. by apply with_incoming_shape. }
  unfold id2, PartialPacketId_add. cbn [packet_id generation_id].
  destruct (overflowing 16 (id + 1)) as [id' next_gen].
  assert ((if next_gen then arith (E := TsError) 32 (gen + 1) else Ok gen)
    = Ok (if next_gen then wrap 32 (gen + 1) else gen)) as ->.
  { destruct next_gen; [|done]. unfold arith. rewrite Hrelease. case_bool_decide; [|done].
    by rewrite wrap_small. }
  cbn [res_bind]. done.
Qed.

(** An unencrypted ack from the right address, of any id and with any mac, is handled as an
    acknowledgement. *)
Lemma plain_ack_handled con L content ack_id now :
  con_ok con -> is_client con = true ->
  layout_ok S2C L -> layout_type L = Some Ack ->
  Flags_contains (layout_flags L) UNENCRYPTED = true ->
  read_be 2 content = Some ack_id ->
  exists con1,
    Connection_handle_udp_packet con (layout_bytes L ++ content) (address con) now
      = ack_packet con1 Command ack_id now /\
    con_ok con1 /\ resender con1 = received_packet (resender con) now /\
    outgoing_p_ids (codec con1) = outgoing_p_ids (codec con) /\
    stream_items con1 = stream_items con.
Proof.
  intros Hc Hcl HL Ht Hun Hread.
  destruct (shape_accessors S2C L Ack HL Ht) as (id & Hid & Htype & Hpid & _).
  destruct (plain_reaches_other con L content Ack id now Hc Hcl HL Ht Hpid Hun)
    as (con1 & _ & gen & _ & _ & _ & Hgen & -> & Hc1 & Hcl1 & Hcodec & Hres & Hitems & _); [done..|].
  destruct (handle_other_window con1 L content Ack id gen now Hc1 Hcl1 HL) as (con2 & Heq & Hc2 & ->);
    [done..|].
  unfold InPacket_ack_packet. cbn [ip_header ip_content]. rewrite Htype. cbn [res_bind].
  change (PacketType_is_ack Ack) with true. cbn iota. rewrite Hread. cbn [ok_or res_bind acked_type].
  change (PacketType_is_voice Ack) with false. cbn iota. subst con2.
  exists (set_codec con1 (with_incoming (codec con1) Ack
    (PartialPacketId_add {| generation_id := gen; packet_id := id |} 1))).
  split; [by destruct (ack_packet _ Command ack_id now)|]. split; [done|].
  cbn [resender codec outgoing_p_ids stream_items set_codec with_incoming].
  by rewrite Hres, Hcodec, Hitems.
Qed.

(** C26: acknowledgements are not authenticated.  A datagram from the address of the server whose
    header says "ack" and "unencrypted", with an arbitrary mac and packet id, removes the
    acknowledged command from the resend queue of a client, whatever the keys of the connection
    are; exactly this command is forgotten. *)
Theorem forged_ack_drops_command (con : Connection) (L : Layout) (k : PartialPacketId)
    (rec : SendRecord) (m : list (PartialPacketId * SendRecord)) (now : Z)
    (Hc : con_ok con) (Hcl : is_client con = true)
    (HL : layout_ok S2C L) (Ht : layout_type L = Some Ack)
    (Hun : Flags_contains (layout_flags L) UNENCRYPTED = true)
    (Hm : full_send_queue (resender con) !! 1%nat = Some m) (Hk : (k, rec) ∈ m)
    (Hspan : forall p q, p ∈ m -> q ∈ m -> id_val (fst q) < id_val (fst p) + 65536) :
  exists con' m',
    Connection_handle_udp_packet con (layout_bytes L ++ write_be 2 (packet_id k)) (address con) now
      = Ok con' /\
    full_send_queue (resender con') = <[1%nat := m']> (full_send_queue (resender con)) /\
    (forall p, p ∈ m' <-> p ∈ m /\ packet_id (fst p) <> packet_id k).
Proof.
  pose proof Hc as ((Hlen & Hids & _) & _ & Hr & _). pose proof Hr as (Hl3 & Hl3' & Hall).
  destruct (lookup_3 _ 1 Hl3' ltac:(lia)) as [start Hs].
  destruct (Hall 1%nat m start Hm Hs) as (_ & [Hbt _] & _).
  assert (is_u16 (packet_id k)) as Hk16 by apply (bt_ok_id _ _ _ Hbt Hk).
  destruct (plain_ack_handled con L (write_be 2 (packet_id k)) (packet_id k) now Hc Hcl HL Ht Hun)
    as (con1 & -> & _ & Hr1 & Ho1 & _).
  { apply (read_be_app 2 _ _ []); [by rewrite app_nil_r|done]. }
  unfold ack_packet. rewrite bool_decide_false by done. rewrite Ho1, Hr1.
  set (next := default _ _).
  assert (id_ok next) as Hnext.
  { subst next. destruct (outgoing_p_ids (codec con) !! type_index Command) as [id|] eqn:Hid; [|done].
    simpl. by eapply Forall_lookup_1. }
  destruct (ack_command_removes (received_packet (resender con) now) Command 1 (packet_id k) next now m)
    as (r' & item & m' & -> & _ & Hfull & Hmem & _); try done.
  cbn [packet_op map_err res_bind]. eexists _, m'. split; [done|]. by destruct item.
Qed.

(** The receive window of audio follows every packet.  After an audio packet with number [v]
    - in the window, late or repeated - the next expected number is [v + 1]: a late packet moves the
    window back, so that everything after it is accepted a second time. *)
Theorem audio_moves_window (con : Connection) (L : Layout) (content : list Z) (t : PacketType)
    (cur : PartialPacketId) (v now : Z)
    (Hc : con_ok con) (Hcl : is_client con = true) (HL : layout_ok S2C L)
    (Hb : bytes content) (Ht : layout_type L = Some t) (Hvoice : PacketType_is_voice t = true)
    (Hun : Flags_contains (layout_flags L) UNENCRYPTED = true)
    (Hcur : incoming_p_ids (codec con) !! type_index t = Some cur)
    (Hid : InHeader_packet_id (layout_header S2C L) = Ok (packet_id (id_of v)))
    (Hv : id_val cur - 32769 <= v < id_val cur + 32767) (Hrange : 0 <= v < 2 ^ 48 - 1) :
  exists con' item,
    Connection_handle_udp_packet con (layout_bytes L ++ content) (address con) now = Ok con' /\
    incoming_p_ids (codec con') !! type_index t = Some (id_of (v + 1)) /\
    stream_items con' = stream_items con ++ [item].
Proof.
  assert (is_uint 48 v) as Hv48 by (unfold is_uint; lia). pose proof (id_of_ok v Hv48) as [Hgen Hid16].
  assert (t <> Init /\ ignores_window t = true /\ PacketType_is_ack t = false) as (Hi & Hig & Hna)
    by by destruct t.
  pose proof Hc as ((_ & _ & _ & _ & _ & _ & Hl8 & Hids) & _).
  pose proof (Forall_lookup_1 _ _ _ _ Hids Hcur) as Hcuro.
  destruct (plain_reaches_other con L content t (packet_id (id_of v)) now Hc Hcl HL Ht Hid Hun Hig Hi)
    as (con1 & in_win & gen & cn & limit & Hw & _ & -> & Hc1 & Hcl1 & Hcodec & _ & Hitems & _).
  assert (gen = generation_id (id_of v)) as ->.
  { unfold in_receive_window in Hw. rewrite bool_decide_false in Hw by done.
    rewrite (index_ok _ _ _ Hcur) in Hw. cbn [res_bind] in Hw.
    cbn [packet_id id_of] in Hw. rewrite receive_window_cases in Hw by done.
    rewrite arith_ok in Hw by done. destruct (_ =? _); by injection Hw. }
  destruct (handle_other_window con1 L content t (packet_id (id_of v)) (generation_id (id_of v)) now
    Hc1 Hcl1 HL Hi Hid16 Hgen) as (con2 & -> & _ & ->).
  destruct (shape_accessors S2C L t HL Ht) as (pid & _ & Htype & _ & Hf & _).
  unfold InPacket_ack_packet. cbn [ip_header ip_content]. rewrite Htype. cbn [res_bind].
  rewrite Hna, bool_decide_false by done. cbn [res_bind]. rewrite Hvoice.
  unfold InPacket_into_audio. cbn [ip_header ip_content]. rewrite Htype, Hf. cbn [res_bind].
  pose proof (parse_no_panic t (Flags_contains (layout_flags L) NEWPROTOCOL) S2C content Hb) as Hnp.
  change (ih_direction (layout_header S2C L)) with S2C.
  assert (exists item, parsed_item "audio" (AudioData_parse t
      (Flags_contains (layout_flags L) NEWPROTOCOL) S2C content)
      (Item_Audio (layout_bytes L ++ content)) = Ok item) as [item ->].
  { by destruct (AudioData_parse _ _ _ _); eauto. }
  cbn [res_bind]. eexists _, item. split; [done|].
  cbn [push_item set_items set_codec codec stream_items incoming_p_ids with_incoming].
  rewrite Hitems, Hcodec. split; [|done].
  rewrite list_lookup_insert_eq by (rewrite Hl8; by apply type_index_lt).
  f_equal. change {| generation_id := _; packet_id := _ |} with (id_of v).
  destruct (add_ok (id_of v) 1 (id_of_ok v Hv48) ltac:(done)) as [Hok Hval].
  apply id_val_inj; [done|apply id_of_ok; unfold is_uint; lia|].
  rewrite Hval, !id_val_of. by rewrite wrap_small by (unfold is_uint; lia).
Qed.

(** An encrypted ack with packet id 1 never reaches the resender of a client.  The test is
    meant for the ack of the first command and ignores the generation: after every wrap of the ids
    of the acks, one acknowledgement is dropped, nothing but statistics changes. *)
Theorem ack_id_one_ignored (con : Connection) (L : Layout) (content : list Z) (now : Z)
    (Hc : con_ok con) (Hcl : is_client con = true) (HL : layout_ok S2C L)
    (Ht : layout_type L = Some Ack)
    (Hun : Flags_contains (layout_flags L) UNENCRYPTED = false)
    (Hid : InHeader_packet_id (layout_header S2C L) = Ok 1) :
  exists con',
    Connection_handle_udp_packet con (layout_bytes L ++ content) (address con) now = Ok con' /\
    resender con' = received_packet (resender con) now /\ codec con' = codec con /\
    params con' = params con /\ stream_items con' = stream_items con /\
    udp_sent con' = udp_sent con /\ acks_to_send con' = acks_to_send con.
Proof.
  unfold Connection_handle_udp_packet. rewrite bool_decide_true by done. cbn [negb].
  rewrite Hcl. cbn [in_dir]. rewrite try_new_layout by done.
  rewrite (proj2 (Z.ltb_ge _ _)) by by apply (type_of_low _ Ack).
  set (con0 := set_resender con _). assert (con_ok con0) as Hc0 by by destruct Hc.
  unfold PacketCodec_handle_udp_packet. cbn [is_client set_resender con0]. rewrite Hcl. cbn [in_dir].
  rewrite new_layout by done. cbn [packet_op map_err res_bind ip_header].
  rewrite packet_type_layout, Ht, Hid by done. cbn [unwrap packet_op map_err res_bind].
  pose proof (in_receive_window_returns Hrelease con0 Ack 1 (proj1 Hc0)) as Hw.
  destruct (in_receive_window con0 Ack 1) as [[[[in_win gen] cur] limit]|e|]; [|done..].
  cbn [res_bind]. destruct (counted con0 Ack 1 (length (layout_bytes L ++ content)) in_win cur Hc0)
    as (c & s & -> & _). cbn [res_bind].
  rewrite check_params_client by done. cbn [res_bind ignores_window orb].
  unfold open_packet. cbn [ip_header]. rewrite flags_layout by done.
  cbn [packet_op map_err res_bind]. rewrite Hun, bool_decide_true by done.
  cbn [negb is_client set_stats set_resender con0]. rewrite Hcl. cbn [andb Z.eqb Pos.eqb res_bind].
  eexists. by repeat (split; [done|]).
Qed.

End trust.

(** * Witnesses *)

(** A server packet header: arbitrary mac, packet id, flags and type. *)
Definition sample_layout (id byte : Z) : Layout :=
  {| l_mac := replicate 8 9; l_id := write_be 2 id; l_cid := []; l_byte := byte |}.

Lemma sample_layout_ok id byte : is_u8 byte -> layout_ok S2C (sample_layout id byte).
Proof.
  intros Hb. split; [done|]. split; [by apply write_be_length|]. split; [done|].
  unfold layout_bytes, sample_layout. cbn [l_mac l_id l_cid l_byte].
  rewrite !bytes_app. split; [by apply Forall_replicate|]. split; [apply write_be_bytes|].
  split; [constructor|by apply Forall_singleton].
Qed.

(** A client with one command that waits for its ack. *)
Definition sample_waiting : SendRecord :=
  {| sr_sent := 6; sr_id := {| sri_last := 6; sri_tries := 1; sri_id := sample_id |};
     sr_packet := sample_out |}.

Definition waiting_client : Connection :=
  let con := Connection_new true local_addr [] 5 in
  set_resender con (with_queues (resender con) []
    [[]; [(pid_part sample_id, sample_waiting)]; []] (replicate 3 PartialPacketId_default)).

Lemma waiting_client_ok : con_ok waiting_client.
Proof.
  destruct (connection_new_ok true local_addr [] 5) as (Hc & Hp & _ & Hrest).
  split; [exact Hc|]. split; [exact Hp|]. split; [|exact Hrest].
  apply (insert_ok (Resender_default 5) 1 (pid_part sample_id) sample_waiting []
    PartialPacketId_default); [apply resender_default_ok|done|done|by split|done|done].
Qed.

Lemma forged_ack_drops_command_witness : exists con' m',
  Connection_handle_udp_packet (H4 := release_profile) waiting_client
    (layout_bytes (sample_layout 3 0x86) ++ write_be 2 7) local_addr 8 = Ok con' /\
  full_send_queue (resender con') = <[1%nat := m']> [[]; [(pid_part sample_id, sample_waiting)]; []] /\
  (pid_part sample_id, sample_waiting) ∉ m'.
Proof.
  destruct (forged_ack_drops_command (H8 := release_profile) eq_refl waiting_client
    (sample_layout 3 0x86) (pid_part sample_id) sample_waiting
    [(pid_part sample_id, sample_waiting)] 8) as (con' & m' & Hcon & Hfull & Hmem).
  - apply waiting_client_ok.
  - reflexivity.
  - by apply sample_layout_ok.
  - reflexivity.
  - reflexivity.
  - reflexivity.
  - by left.
  - intros p q ->%list_elem_of_singleton ->%list_elem_of_singleton. lia.
  - exists con', m'. split; [exact Hcon|]. split; [exact Hfull|]. intros Hin. by apply Hmem in Hin as [_ ?].
Defined.

Lemma audio_moves_window_witness : exists con' item,
  Connection_handle_udp_packet (H4 := release_profile)
    (set_codec (Connection_new true local_addr [] 5)
      (with_incoming PacketCodec_default Voice {| generation_id := 0; packet_id := 7 |}))
    (layout_bytes (sample_layout 3 0x80) ++ [0; 3; 0; 1; 4; 99]) local_addr 6 = Ok con' /\
  incoming_p_ids (codec con') !! 0%nat = Some {| generation_id := 0; packet_id := 4 |} /\
  stream_items con' = [item].
Proof.
  apply (audio_moves_window (H8 := release_profile) eq_refl
    (set_codec (Connection_new true local_addr [] 5)
      (with_incoming PacketCodec_default Voice {| generation_id := 0; packet_id := 7 |}))
    (sample_layout 3 0x80) [0; 3; 0; 1; 4; 99] Voice {| generation_id := 0; packet_id := 7 |} 3 6).
  - destruct (connection_new_ok true local_addr [] 5) as (_ & Hrest). split; [|exact Hrest].
    apply with_incoming_shape; [|by split].
    repeat split; try done; by repeat constructor.
  - reflexivity.
  - by apply sample_layout_ok.
  - repeat constructor; by vm_compute.
  - reflexivity.
  - reflexivity.
  - reflexivity.
  - reflexivity.
  - reflexivity.
  - unfold id_val. simpl. lia.
  - lia.
Defined.

Lemma ack_id_one_ignored_witness : exists con',
  Connection_handle_udp_packet (H4 := release_profile) waiting_client
    (layout_bytes (sample_layout 1 0x06) ++ [1; 2]) local_addr 8 = Ok con' /\
  full_send_queue (resender con') = full_send_queue (resender waiting_client).
Proof.
  destruct (ack_id_one_ignored (H8 := release_profile) eq_refl waiting_client (sample_layout 1 0x06)
    [1; 2] 8) as (con' & Hcon & Hr & _).
  - apply waiting_client_ok.
  - reflexivity.
  - by apply sample_layout_ok.
  - reflexivity.
  - reflexivity.
  - reflexivity.
  - exists con'. split; [exact Hcon|]. rewrite Hr. reflexivity.
Defined.
