(* ===== verification/Poll.v ===== *)
(** The timed part of a connection: sending and resending ([Resender::poll_resend]), pings and the
    statistics timer ([Resender::poll_ping]), and the poll of the whole connection
    ([Connection::poll_next]).  A poll happens at one instant [now]: a timer is ready when its
    deadline is not later. *)
From S2P Require Import Prelude ByteIO Packets InitPackets AudioData PacketId Algorithms Codec.
From S2P Require Import Encode BTree Resend Stats Connection Safety.
From stdpp Require Import strings.
#[local] Open Scope Z_scope.

Definition STAT_SECONDS : Z := second.

(** [BinaryHeap::peek_mut]: the maximum; of equal entries the first one. *)
Fixpoint heap_max (q : list SendRecordId) : option (nat * SendRecordId) :=
  match q with
  | [] => None
  | x :: q =>
      match heap_max q with
      | None => Some (0%nat, x)
      | Some (i, y) =>
          match SendRecordId_cmp x y with
          | Lt => Some (S i, y)
          | _ => Some (0%nat, x)
          end
      end
  end.

Definition with_srtt (r : Resender) (s : Z) : Resender :=
  with_rtt r s (srtt_dev (config r)) (rtt r) (rtt_dev r).

(** The retransmission timeout, and the instant since which a sent packet is not resent. *)
Definition retransmission_timeout (r : Resender) : Z :=
  let rto := srtt (config r) + srtt_dev (config r) * 4 in
  let max_send_rto := second in
  if max_send_rto <? rto then max_send_rto else rto.

(** What a poll tells the user: the end of the stream, an item, or nothing yet.  An error ends
    the connection; it is the [Err] of the result. *)
Inductive Polled :=
  | PolledEnd
  | PolledItem (i : StreamItem)
  | PolledPending.

Definition MAX_UDP_PACKET_LENGTH : nat := Z.to_nat 1500.

(** The answers of the socket to [poll_recv_from]. *)
Inductive RecvResult := RecvPending | RecvFailed | RecvData (data : list Z) (addr : SocketAddr).

Section poll.
Context `{BeIo, Quicklz, EaxCipher, Sha256, Cubic, Profile}.

(** * Resending *)

(** The packet [rec] at position [i] of the heap was sent. *)
Definition sent_record (con : Connection) (i qi : nat) (rec : SendRecordId) (full_rec : SendRecord)
    (timeout now : Z) : res TsError Connection :=
  let? con :=
    if bool_decide (sri_tries rec <> 0%nat) then
      let? c := packet_op (handle_loss_resend_command (stats_counter con)) in
      Ok (set_stats con c (stats con) (last_stat con))
    else Ok con in
  let r := resender con in
  let rec := {| sri_last := now; sri_tries := S (sri_tries rec); sri_id := sri_id rec |} in
  let full_rec := {| sr_sent := sr_sent full_rec; sr_id := rec; sr_packet := sr_packet full_rec |} in
  let? full_queue := index (full_send_queue r) qi in
  let r := with_queues r (<[i := rec]> (send_queue r))
    (<[qi := bt_insert (pid_part (sri_id rec)) full_rec full_queue]> (full_send_queue r))
    (send_queue_indices r) in
  let? con := count_outgoing (set_resender con r) (sr_packet full_rec) in
  if bool_decide (sri_tries rec <> 1%nat) then
    (* Double srtt on packet loss *)
    let r := resender con in
    let s := srtt (config r) * 2 in
    let r := with_srtt r (if timeout <? s then timeout else s) in
    let r := with_congestion r (get_window r now) now None in
    Ok (set_resender con (rebuild_send_queue r now))
  else Ok con.

(** One round of the loop: whether it goes on. *)
Definition resend_step (con : Connection) (timeout now : Z) : res TsError (bool * Connection) :=
  let r := resender con in
  let last_threshold := now - retransmission_timeout r in
  match heap_max (send_queue r) with
  | None => Ok (false, con)
  | Some (i, rec) =>
      let? qi := packet_op (packet_type_to_index (pid_type (sri_id rec))) in
      let? full_queue := index (full_send_queue r) qi in
      match bt_lookup (pid_part (sri_id rec)) full_queue with
      | None =>
          (* The packet was acknowledged *)
          let q := take i (send_queue r) ++ drop (S i) (send_queue r) in
          let r := with_queues r q (full_send_queue r) (send_queue_indices r) in
          Ok (true, set_resender con (fill_up_send_queue r now))
      | Some full_rec =>
          if bool_decide (sri_tries rec <> 0%nat) && (last_threshold <? sri_last rec) then
            Ok (false, con)
          else if timeout <? since now (sr_sent full_rec) then Err (Timeout "Packet was not acked")
          else
            match poll_send_udp_packet con (sr_packet full_rec) with
            | (Pending, con) => Ok (false, con)
            | (Ready (Err e), _) => Err e
            | (Ready Panic, _) => Panic
            | (Ready (Ok _), con) =>
                let? con := sent_record con i qi rec full_rec timeout now in
                Ok (true, con)
            end
      end
  end.

(** The loop; [None] when out of fuel. *)
Fixpoint resend_loop (fuel : nat) (con : Connection) (timeout now : Z)
    : option (res TsError Connection) :=
  match fuel with
  | O => None
  | S fuel =>
      match resend_step con timeout now with
      | Ok (true, con) => resend_loop fuel con timeout now
      | Ok (false, con) => Some (Ok con)
      | Err e => Some (Err e)
      | Panic => Some Panic
      end
  end.

Definition waiting_count (r : Resender) : nat := length (mjoin (full_send_queue r)).

(** More rounds than the loop needs. *)
Definition resend_fuel (r : Resender) : nat :=
  let n := waiting_count r in
  (length (send_queue r) + n + (n + 2) * (n + 2))%nat.

Definition poll_resend (con : Connection) (now : Z) : option (res TsError Connection) :=
  resend_loop (resend_fuel (resender con)) con (get_timeout (resender con)) now.

(** * Pings and statistics *)

(** The loop over the statistics timer. *)
Fixpoint stats_loop (fuel : nat) (con : Connection) (now : Z) : option (res TsError Connection) :=
  match fuel with
  | O => None
  | S fuel =>
      if last_stat con + STAT_SECONDS <=? now then
        match packet_op (stats_tick (stats_counter con) (stats con)) with
        | Ok (c, s) => stats_loop fuel (push_item (set_stats con c s now) Item_NetworkStatsUpdated) now
        | Err e => Some (Err e)
        | Panic => Some Panic
        end
      else Some (Ok con)
  end.

(** No pong came in between the last pings. *)
Definition pings_lost (pings : list Ping) : bool :=
  bool_decide (PING_COUNT <= length pings)%nat &&
  match head pings, list.last pings with
  | Some first, Some last =>
      wrap 64 (PartialPacketId_diff (ping_id last) (ping_id first)) =? Z.of_nat (length pings - 1)
  | _, _ => false
  end.

Definition send_ping (con : Connection) (now : Z) : res TsError Connection :=
  let? packet := packet_op (OutPacket_new_with_dir (out_dir (is_client con)) Flags_empty Packets.Ping) in
  let? '(p_id, con) := Connection_send_packet con packet now in
  let r := resender con in
  let pings := last_pings r ++ [{| ping_id := pid_part p_id; ping_sent := now |}] in
  let pings := if bool_decide (PING_COUNT < length pings)%nat then drop 1 pings else pings in
  Ok (set_resender con (with_times r (state r) pings (last_receive r) (last_send r))).

Fixpoint ping_loop (fuel : nat) (con : Connection) (now : Z) : option (res TsError Connection) :=
  match fuel with
  | O => None
  | S fuel =>
      let r := resender con in
      let '(next_ping, pings) :=
        match list.last (last_pings r) with
        | Some p => if last_receive r <? ping_sent p then (ping_sent p + PING_SECONDS, last_pings r)
                    else (last_receive r + PING_SECONDS, [])
        | None => (last_receive r + PING_SECONDS, last_pings r)
        end in
      let con := set_resender con (with_times r (state r) pings (last_receive r) (last_send r)) in
      if next_ping <=? now then
        if pings_lost pings then Some (Err (Timeout "Server did not respond to pings"))
        else
          match send_ping con now with
          | Ok con => ping_loop fuel con now
          | Err e => Some (Err e)
          | Panic => Some Panic
          end
      else Some (Ok con)
  end.

Definition poll_ping (con : Connection) (now : Z) : option (res TsError Connection) :=
  let r := resender con in
  if bool_decide (state r = Disconnecting) && (last_send r + get_timeout r <=? now)
  then Some (Err (Timeout "No disconnect ack received"))
  else
    match stats_loop 2 con now with
    | Some (Ok con) =>
        let r := resender con in
        if bool_decide (state r = Connected) && is_empty r then ping_loop 2 con now
        else Some (Ok con)
    | other => other
    end.

(** * The stream *)

(** [poll_incoming_udp_packet]: datagrams are handled until there is an item; the datagrams that
    are left. *)
Fixpoint incoming_loop (con : Connection) (recvs : list RecvResult) (now : Z)
    : res TsError (Polled * Connection * list RecvResult) :=
  match recvs with
  | [] => Ok (PolledPending, con, [])
  | RecvPending :: rest => Ok (PolledPending, con, rest)
  | RecvFailed :: rest => Err Network
  | RecvData data addr :: rest =>
      match Connection_handle_udp_packet con (take MAX_UDP_PACKET_LENGTH data) addr now with
      | Panic => Panic
      | Err e => Err e
      | Ok con =>
          match stream_items con with
          | item :: items => Ok (PolledItem item, set_items con items, rest)
          | [] => incoming_loop con rest now
          end
      end
  end.

Definition poll_incoming_udp_packet (con : Connection) (recvs : list RecvResult) (now : Z)
    : res TsError (Polled * Connection * list RecvResult) :=
  if UDP_SINK_CAPACITY <=? Z.of_nat (length (acks_to_send con)) then Ok (PolledPending, con, recvs)
  else incoming_loop con recvs now.

(** [Stream::poll_next]; [None] when out of fuel. *)
Definition poll_next (con : Connection) (recvs : list RecvResult) (now : Z)
    : option (res TsError (Polled * Connection * list RecvResult)) :=
  match poll_send_acks con with
  | Panic => Some Panic
  | Err e => Some (Err e)
  | Ok con =>
      if bool_decide (state (resender con) = Disconnected) &&
         match acks_to_send con with [] => true | _ => false end
      then Some (Ok (PolledEnd, con, recvs))
      else
        match poll_resend con now with
        | None => None
        | Some Panic => Some Panic
        | Some (Err e) => Some (Err e)
        | Some (Ok con) =>
            match poll_ping con now with
            | None => None
            | Some Panic => Some Panic
            | Some (Err e) => Some (Err e)
            | Some (Ok con) =>
                match stream_items con with
                | item :: items => Some (Ok (PolledItem item, set_items con items, recvs))
                | [] => Some (poll_incoming_udp_packet con recvs now)
                end
            end
        end
  end.

End poll.
