(* ===== verification/Frames.v ===== *)
(** What the operations of a connection leave alone: sending, receiving, resending, pings and
    statistics change the parameters of the connection only in their cache of keys, so the shared
    secrets, the client id and the fact that a connection is established stay. *)
From S2P Require Import Prelude ByteIO Packets InitPackets AudioData PacketId Algorithms Codec.
From S2P Require Import Encode BTree Resend Stats Connection Poll.
#[local] Open Scope Z_scope.

(** [ensures P m]: a value that [m] returns satisfies [P]. *)
Definition ensures {E A} (P : A -> Prop) (m : res E A) : Prop :=
  match m with
  | Ok a => P a
  | _ => True
  end.

Lemma ensures_bind {E A B} (P : A -> Prop) (Q : B -> Prop) (m : res E A) (k : A -> res E B) :
  ensures P m -> (forall a, P a -> ensures Q (k a)) -> ensures Q (res_bind m k).
Proof. destruct m; simpl; eauto. Qed.

Lemma ensures_any {E A B} (Q : B -> Prop) (m : res E A) (k : A -> res E B) :
  (forall a, ensures Q (k a)) -> ensures Q (res_bind m k).
Proof. destruct m; simpl; eauto. Qed.

Lemma ensures_map_err {E F A} (f : E -> F) (P : A -> Prop) (m : res E A) :
  ensures P m -> ensures P (map_err f m).
Proof. by destruct m. Qed.

Lemma ensures_weaken {E A} (P Q : A -> Prop) (m : res E A) :
  ensures P m -> (forall a, P a -> Q a) -> ensures Q m.
Proof. destruct m; simpl; eauto. Qed.

(** The parameters without the cache. *)
Definition lasting (ps : option ConnectedParams) : option ConnectedParams :=
  (fun p => with_cache p KeyCache_default) <$> ps.

Definition same_params (a b : Connection) : Prop := lasting (params b) = lasting (params a).

#[global] Instance same_params_preorder : PreOrder same_params.
Proof. split; [done|]. intros a b c Hab Hbc. unfold same_params in *. congruence. Qed.

(** Walk through the binds and matches of an operation. *)
Ltac frames :=
  repeat match goal with
    | |- ensures _ (res_bind _ _) => apply ensures_any; intros
    | |- ensures _ (match ?x with _ => _ end) => destruct x
    | |- ensures _ (Ok _) => simpl
    | |- ensures _ (Err _) => exact I
    | |- ensures _ Panic => exact I
    | |- ensures _ (let _ := _ in _) => cbv zeta
    end.

Section frames.
Context `{BeIo, Quicklz, EaxCipher, Sha256, Cubic, Profile}.

(** * Encoding *)

Lemma encode_part_lasting t fake should ps codec packet :
  ensures (fun '(_, ps', _) => lasting ps' = lasting ps) (encode_part t fake should ps codec packet).
Proof.
  unfold encode_part. apply ensures_any. intros [packet1 p_id].
  apply (ensures_bind (fun '(_, ps') => lasting ps' = lasting ps)); [|by intros [? ?]].
  destruct fake; [by frames|]. destruct should; [|done]. destruct ps; [|done].
  apply ensures_any. by intros [? ?].
Qed.

Lemma encode_parts_lasting t fake should packets : forall ps codec,
  ensures (fun '(_, ps', _) => lasting ps' = lasting ps) (encode_parts t fake should ps codec packets).
Proof.
  induction packets as [|p packets IH]; intros ps codec; [done|]. cbn [encode_parts].
  eapply ensures_bind; [apply encode_part_lasting|]. intros [[u ps1] c1] Hps1.
  eapply ensures_bind; [apply IH|]. intros [[us ps2] c2] Hps2. simpl. congruence.
Qed.

Lemma encode_packet_lasting cl ps codec packet :
  ensures (fun '(_, ps', _) => lasting ps' = lasting ps) (encode_packet cl ps codec packet).
Proof.
  unfold encode_packet. repeat (apply ensures_any; intros).
  destruct (match ps with Some _ => _ | None => _ end) as [[should fake] cid].
  repeat (apply ensures_any; intros). apply encode_parts_lasting.
Qed.

Lemma Connection_encode_same con packet :
  ensures (fun '(_, con') => same_params con con') (Connection_encode con packet).
Proof.
  unfold Connection_encode. eapply ensures_bind; [apply encode_packet_lasting|].
  intros [[us ps] c] Hps. exact Hps.
Qed.

(** * Sending *)

Lemma poll_send_same con u : same_params con (poll_send_udp_packet con u).2.
Proof. unfold poll_send_udp_packet. by destruct (udp_socket con) as [|[| |n] rest]. Qed.

Lemma count_outgoing_same con u : ensures (same_params con) (count_outgoing con u).
Proof. unfold count_outgoing. apply ensures_any. intros t. apply ensures_any. by intros [c s]. Qed.

Lemma send_ack_packet_same con packet : ensures (same_params con) (send_ack_packet con packet).
Proof.
  unfold send_ack_packet. eapply ensures_bind; [apply Connection_encode_same|].
  intros [us con1] Hs. destruct us as [|u [|]]; try done.
  pose proof (poll_send_same con1 u) as Hp. destruct (poll_send_udp_packet con1 u) as [[|[[]|e|]] con2];
    try done; simpl in *.
  - by transitivity con1.
  - eapply ensures_weaken; [apply count_outgoing_same|]. intros c Hc. transitivity con2; [|done].
    by transitivity con1.
Qed.

Lemma send_udp_packet_same con u now : ensures (same_params con) (send_udp_packet con u now).
Proof. unfold send_udp_packet. apply ensures_any. intros []; try done; by apply ensures_any. Qed.

Lemma send_udp_packets_same us : forall con now, ensures (same_params con) (send_udp_packets con us now).
Proof.
  induction us as [|u us IH]; intros con now; [done|]. cbn [send_udp_packets].
  eapply ensures_bind; [apply send_udp_packet_same|]. intros con1 H1'.
  eapply ensures_weaken; [apply IH|]. intros c. by transitivity con1.
Qed.

Lemma Connection_send_same con packet now :
  ensures (fun '(_, con') => same_params con con') (Connection_send_packet con packet now).
Proof.
  unfold Connection_send_packet. eapply ensures_bind; [apply Connection_encode_same|].
  intros [us con1] Hs. do 2 (apply ensures_any; intros).
  eapply ensures_bind; [apply send_udp_packets_same|]. intros con2 H2'. simpl. by transitivity con1.
Qed.

Lemma poll_send_acks_same con : ensures (same_params con) (poll_send_acks con).
Proof.
  unfold poll_send_acks. generalize (acks_to_send con). intros acks. revert con.
  induction acks as [|u acks IH]; intros con; cbn [poll_send_acks_loop]; [done|].
  pose proof (poll_send_same con u) as Hp.
  destruct (poll_send_udp_packet con u) as [[|[[]|e|]] con1]; try done; simpl in *.
  eapply ensures_bind; [apply count_outgoing_same|]. intros con2 H2'.
  eapply ensures_weaken; [apply IH|]. intros c Hc. transitivity con2; [by transitivity con1|done].
Qed.

(** * Receiving *)

Lemma ack_packet_same con t id now : ensures (same_params con) (ack_packet con t id now).
Proof.
  unfold ack_packet. case_bool_decide; [done|]. apply ensures_any. intros [r [item|]]; done.
Qed.

Lemma decrypt_content_same con packet t id gen :
  ensures (fun '(_, con') => same_params con con') (decrypt_content con packet t id gen).
Proof.
  unfold decrypt_content.
  assert (ensures (fun '(_, con') => same_params con con')
    (match params con with
     | Some ps => let? '(r, cache) := decrypt packet gen (shared_iv ps) (key_cache ps) in
         Ok (r, set_params con (Some (with_cache ps cache)))
     | None => Ok (Err (WrongMac t gen id), con)
     end)) as Hw.
  { destruct (params con) as [ps|] eqn:Hps; [|done]. apply ensures_any. intros [r cache]. simpl.
    unfold same_params. by rewrite Hps. }
  destruct (_ || _); [|exact Hw]. destruct (decrypt_fake packet); [done|exact Hw|done].
Qed.

Lemma open_packet_same con packet data t id gen :
  ensures (fun '(_, con') => same_params con con') (open_packet con packet data t id gen).
Proof.
  unfold open_packet. apply ensures_any. intros flags. destruct (negb _); [|by destruct (must_encrypt t)].
  destruct (_ && _); [done|]. eapply ensures_bind; [apply decrypt_content_same|].
  intros [r con1] Hs. destruct r; try done. by case_bool_decide.
Qed.

Lemma handle_commands_same commands : forall con now,
  ensures (same_params con) (handle_commands con commands now).
Proof.
  induction commands as [|c commands IH]; intros con now; [done|]. cbn [handle_commands].
  apply ensures_any. intros packet. apply (ensures_bind (same_params con)).
  - destruct (_ && _); [apply ack_packet_same|]. destruct (_ && _); [apply ack_packet_same|].
    destruct (_ && _); [apply ack_packet_same|done].
  - intros con1 H1'. eapply ensures_weaken; [apply IH|]. intros c' Hc'. by transitivity con1.
Qed.

Lemma handle_other_same con data t id gen now :
  ensures (same_params con) (handle_other con data t id gen now).
Proof.
  unfold handle_other. apply ensures_any. intros packet. apply (ensures_bind (same_params con)).
  { case_bool_decide; [done|]. destruct (overflowing _ _) as [id' g]. by apply ensures_any. }
  intros con1 H1'. destruct (InPacket_ack_packet packet) as [acked|e|]; [|done..].
  apply (ensures_bind (same_params con)).
  { destruct acked; [|done]. eapply ensures_weaken; [apply ack_packet_same|]. intros c. by transitivity con1. }
  intros con2 H2'. destruct (PacketType_is_voice t); [by apply ensures_any|].
  case_bool_decide; [by apply ensures_any|done].
Qed.

Lemma handle_plain_same con data t id gen now :
  ensures (same_params con) (handle_plain con data t id gen now).
Proof.
  unfold handle_plain. destruct (PacketType_is_command t); [|apply handle_other_same].
  apply ensures_any. intros [c commands]. apply (handle_commands_same commands (set_codec con c) now).
Qed.

Lemma reply_ack_same con t id : ensures (same_params con) (reply_ack con t id).
Proof. unfold reply_ack. apply ensures_any. intros ack. apply send_ack_packet_same. Qed.

Lemma handle_udp_packet_same con data now :
  ensures (same_params con) (PacketCodec_handle_udp_packet con data now).
Proof.
  unfold PacketCodec_handle_udp_packet. do 3 (apply ensures_any; intros).
  apply ensures_any. intros [[[in_win gen] cur] limit].
  apply (ensures_bind (same_params con)).
  { unfold count_incoming. apply ensures_any. by intros [c s]. }
  intros con1 H1'. apply ensures_any. intros [e|]; [done|]. destruct (_ || _).
  - eapply ensures_bind; [apply open_packet_same|]. intros [plain con2] H2'.
    assert (same_params con con2) by by transitivity con1.
    destruct plain as [d|]; [|done]. eapply ensures_bind; [apply handle_plain_same|].
    intros con3 H3'. assert (same_params con con3) by by transitivity con2.
    destruct (_ || _); [|done]. eapply ensures_weaken; [apply reply_ack_same|].
    intros c Hc. by transitivity con3.
  - apply (ensures_bind (same_params con)); [destruct (PacketType_is_command _); [by apply ensures_any|done]|].
    intros con2 H2'. destruct (PacketType_is_command _); [|done].
    eapply ensures_weaken; [apply reply_ack_same|]. intros c Hc. by transitivity con2.
Qed.

Lemma Connection_handle_same con data addr now :
  ensures (same_params con) (Connection_handle_udp_packet con data addr now).
Proof.
  unfold Connection_handle_udp_packet. case_bool_decide; [|done]. cbn [negb].
  destruct (InPacket_try_new _ _); [|done..].
  apply (handle_udp_packet_same (set_resender con (received_packet (resender con) now))).
Qed.

(** * Timers *)

Lemma sent_record_same con i qi rec full_rec timeout now :
  ensures (same_params con) (sent_record con i qi rec full_rec timeout now).
Proof.
  unfold sent_record. apply (ensures_bind (same_params con)).
  { case_bool_decide; [by apply ensures_any|done]. }
  intros con1 H1'. cbv zeta. apply ensures_any. intros q.
  eapply ensures_bind; [apply count_outgoing_same|]. intros con2 H2'.
  assert (same_params con con2) by by transitivity con1. by case_bool_decide.
Qed.

Lemma resend_step_same con timeout now :
  ensures (fun '(_, con') => same_params con con') (resend_step con timeout now).
Proof.
  unfold resend_step. cbv zeta. destruct (heap_max _) as [[i rec]|]; [|done].
  do 2 (apply ensures_any; intros). destruct (bt_lookup _ _) as [full_rec|]; [|done].
  destruct (_ && _); [done|]. destruct (_ <? _); [done|].
  pose proof (poll_send_same con (sr_packet full_rec)) as Hp.
  destruct (poll_send_udp_packet _ _) as [[|[[]|e|]] con1]; try done; simpl in Hp.
  eapply ensures_bind; [apply sent_record_same|]. intros con2 H2'. simpl. by transitivity con1.
Qed.

(** The loops with fuel. *)
Definition loop_same (con : Connection) (r : option (res TsError Connection)) : Prop :=
  match r with
  | Some r => ensures (same_params con) r
  | None => True
  end.

Lemma loop_same_weaken a b r : same_params a b -> loop_same b r -> loop_same a r.
Proof.
  intros Hab. destruct r as [[c|e|]|]; simpl; [|done..]. intros Hc. by transitivity b.
Qed.

Lemma resend_loop_same fuel : forall con timeout now, loop_same con (resend_loop fuel con timeout now).
Proof.
  induction fuel as [|fuel IH]; intros con timeout now; [done|]. cbn [resend_loop].
  pose proof (resend_step_same con timeout now) as Hs.
  destruct (resend_step con timeout now) as [[[] con1]|e|]; simpl in Hs; try done.
  by eapply loop_same_weaken.
Qed.

Lemma stats_loop_same fuel : forall con now, loop_same con (stats_loop fuel con now).
Proof.
  induction fuel as [|fuel IH]; intros con now; [done|]. cbn [stats_loop].
  destruct (_ <=? _); [|done]. destruct (packet_op _) as [[c s]|e|]; [|done..].
  eapply loop_same_weaken; [|apply IH]. done.
Qed.

Lemma send_ping_same con now : ensures (same_params con) (send_ping con now).
Proof.
  unfold send_ping. apply ensures_any. intros packet.
  eapply ensures_bind; [apply Connection_send_same|]. by intros [id con1] Hs.
Qed.

Lemma ping_loop_same fuel : forall con now, loop_same con (ping_loop fuel con now).
Proof.
  induction fuel as [|fuel IH]; intros con now; [done|]. cbn [ping_loop].
  destruct (match list.last _ with Some _ => _ | None => _ end) as [next pings].
  destruct (next <=? now); [|done]. destruct (pings_lost pings); [done|].
  set (con1 := set_resender con _). pose proof (send_ping_same con1 now) as Hs.
  destruct (send_ping con1 now) as [con2|e|]; [|done..]. eapply loop_same_weaken; [exact Hs|apply IH].
Qed.

Lemma poll_ping_same con now : loop_same con (poll_ping con now).
Proof.
  unfold poll_ping. destruct (_ && _); [done|]. pose proof (stats_loop_same 2 con now) as Hs.
  destruct (stats_loop 2 con now) as [[con1|e|]|]; try done. simpl in Hs.
  destruct (_ && _); [|done]. eapply loop_same_weaken; [exact Hs|apply ping_loop_same].
Qed.

Definition polled_same (con : Connection) (r : Polled * Connection * list RecvResult) : Prop :=
  same_params con (snd (fst r)).

Lemma incoming_loop_same recvs : forall con now,
  ensures (polled_same con) (incoming_loop con recvs now).
Proof.
  induction recvs as [|[| |data addr] recvs IH]; intros con now; cbn [incoming_loop]; try done.
  pose proof (Connection_handle_same con (take MAX_UDP_PACKET_LENGTH data) addr now) as Hs.
  destruct (Connection_handle_udp_packet _ _ _ _) as [con1|e|]; [|done..]. simpl in Hs.
  destruct (stream_items con1) as [|item items]; [|done].
  eapply ensures_weaken; [apply IH|]. intros r Hr. unfold polled_same in *. by transitivity con1.
Qed.

Lemma poll_next_same con recvs now r : poll_next con recvs now = Some r -> ensures (polled_same con) r.
Proof.
  unfold poll_next. pose proof (poll_send_acks_same con) as Ha.
  destruct (poll_send_acks con) as [con1|e|]; [|by intros [= <-]..]. simpl in Ha.
  destruct (_ && _); [by intros [= <-]|].
  pose proof (resend_loop_same (resend_fuel (resender con1)) con1 (get_timeout (resender con1)) now) as Hr.
  change (resend_loop _ con1 _ now) with (poll_resend con1 now) in Hr.
  destruct (poll_resend con1 now) as [[con2|e|]|]; [|by intros [= <-]..|done]. simpl in Hr.
  pose proof (poll_ping_same con2 now) as Hp.
  destruct (poll_ping con2 now) as [[con3|e|]|]; [|by intros [= <-]..|done]. simpl in Hp.
  assert (same_params con con3) as Hs by (transitivity con2; [by transitivity con1|done]).
  destruct (stream_items con3) as [|item items]; [|by intros [= <-]].
  intros [= <-]. unfold poll_incoming_udp_packet. destruct (_ <=? _); [done|].
  eapply ensures_weaken; [apply incoming_loop_same|]. intros r' Hr'. unfold polled_same in *.
  by transitivity con3.
Qed.
End frames.
