(* ===== verification/ResendLoop.v ===== *)
(** Termination and result of the resend loop: how filling the send queue, dropping stale entries
    and resending change the amount of work that is left. *)
From S2P Require Import Prelude ByteIO Packets InitPackets AudioData PacketId Algorithms Codec.
From S2P Require Import Encode BTree Resend Stats Connection Safety Trust Poll.
From stdpp Require Import strings.
#[local] Open Scope Z_scope.

(** * Counting *)

Fixpoint count {A} (f : A -> bool) (l : list A) : nat :=
  match l with
  | [] => 0
  | x :: l => (if f x then 1 else 0) + count f l
  end.

Lemma count_app {A} (f : A -> bool) l k : count f (l ++ k) = (count f l + count f k)%nat.
Proof. induction l; simpl; lia. Qed.

Lemma count_le {A} (f : A -> bool) l : (count f l <= length l)%nat.
Proof. induction l as [|x l IH]; simpl; [lia|]. destruct (f x); lia. Qed.

Lemma count_ext {A} (f g : A -> bool) l : (forall x, x ∈ l -> f x = g x) -> count f l = count g l.
Proof.
  induction l as [|x l IH]; intros Hfg; [done|]. simpl. rewrite Hfg by left. rewrite IH; [done|].
  intros y Hy. apply Hfg. by right.
Qed.

Lemma count_insert {A} (f : A -> bool) l i x y : l !! i = Some x ->
  (count f (<[i := y]> l) + (if f x then 1 else 0) = count f l + (if f y then 1 else 0))%nat.
Proof.
  revert i. induction l as [|z l IH]; intros [|i] Hi; simplify_eq/=; [lia|]. specialize (IH i Hi). lia.
Qed.

Lemma count_delete {A} (f : A -> bool) l i x : l !! i = Some x ->
  (count f (take i l ++ drop (S i) l) + (if f x then 1 else 0) = count f l)%nat.
Proof.
  intros Hi. rewrite <- (take_drop_middle l i x Hi) at 3. rewrite !count_app. simpl. lia.
Qed.

(** * Work that is left *)

(** The record was not sent at this instant. *)
Definition due (now : Z) (s : SendRecordId) : bool :=
  bool_decide (sri_tries s = 0%nat) || negb (sri_last s =? now).

Definition due_entry (now : Z) (p : PartialPacketId * SendRecord) : bool := due now (sr_id (snd p)).

(** The record of an entry of the heap, if it was not acknowledged. *)
Definition lookup_rec (full : list (list (PartialPacketId * SendRecord))) (s : SendRecordId)
    : option SendRecord :=
  match packet_type_to_index (pid_type (sri_id s)) with
  | Ok i => m ← full !! i; bt_lookup (pid_part (sri_id s)) m
  | _ => None
  end.

(** An entry of the heap that the loop still has to look at. *)
Definition active (full : list (list (PartialPacketId * SendRecord))) (now : Z) (s : SendRecordId)
    : bool :=
  match lookup_rec full s with
  | Some _ => due now s
  | None => true
  end.

Definition unscheduled (full : list (list (PartialPacketId * SendRecord)))
    (idx : list PartialPacketId) : list SendRecord :=
  mjoin (zip_with skip_records idx full).

Definition queue_work (full : list (list (PartialPacketId * SendRecord))) (q : list SendRecordId)
    (idx : list PartialPacketId) (now : Z) : nat :=
  (count (active full now) q + length (unscheduled full idx))%nat.

Definition due_count (full : list (list (PartialPacketId * SendRecord))) (now : Z) : nat :=
  count (due_entry now) (mjoin full).

(** Every record is in the queue of its type. *)
Definition typed (full : list (list (PartialPacketId * SendRecord))) : Prop :=
  forall i m k r, full !! i = Some m -> (k, r) ∈ m ->
    packet_type_to_index (pid_type (sri_id (sr_id r))) = Ok i.

Definition typed_ids (q : list SendRecordId) : Prop :=
  Forall (fun s => exists i, packet_type_to_index (pid_type (sri_id s)) = Ok i /\ (i < 3)%nat) q.

(** The heap was filled by [fill_up_send_queue] alone: its entries are copies of the records below
    the indices, each at most once. *)
Definition synced (full : list (list (PartialPacketId * SendRecord))) (q : list SendRecordId)
    (idx : list PartialPacketId) : Prop :=
  (forall s rec, s ∈ q -> lookup_rec full s = Some rec -> sr_id rec = s) /\
  (forall s i st, s ∈ q -> packet_type_to_index (pid_type (sri_id s)) = Ok i ->
    idx !! i = Some st -> id_val (pid_part (sri_id s)) < id_val st) /\
  NoDup (sri_id <$> q).

Lemma type_index_inj t u i :
  packet_type_to_index t = Ok i -> packet_type_to_index u = Ok i -> t = u.
Proof. destruct t, u; simpl; congruence. Qed.

Lemma type_index_3 t i : packet_type_to_index t = Ok i -> (i < 3)%nat.
Proof. destruct t; simpl; intros [=]; lia. Qed.

Lemma fill_inv_iters full iters q idx : fill_inv full iters q idx ->
  iters = zip_with skip_records idx full.
Proof.
  intros (Hl1 & Hl2 & Hinv). apply list_eq. intros i. rewrite lookup_zip_with.
  destruct (iters !! i) as [it|] eqn:Hit.
  - pose proof (lookup_lt_Some _ _ _ Hit). destruct (lookup_lt_is_Some_2 full i) as [m Hm]; [lia|].
    destruct (lookup_lt_is_Some_2 idx i) as [st Hs]; [lia|]. rewrite Hs, Hm. simpl.
    by destruct (Hinv i m st it Hm Hs Hit) as (_ & _ & -> & _).
  - apply lookup_ge_None in Hit. rewrite (lookup_ge_None_2 idx) by lia. done.
Qed.

(** The head of an iterator is a record of its queue at or above the index. *)
Lemma iter_head full iters q idx i r rest : fill_inv full iters q idx ->
  iters !! i = Some (r :: rest) ->
  exists m st, full !! i = Some m /\ idx !! i = Some st /\ (rec_key r, r) ∈ m /\ bt_ok m /\
    id_ok (rec_key r) /\ id_val (rec_key r) + 1 < 2 ^ 48 /\ id_val st <= id_val (rec_key r).
Proof.
  intros (Hl1 & Hl2 & Hinv) Hi. pose proof (lookup_lt_Some _ _ _ Hi).
  destruct (lookup_lt_is_Some_2 full i) as [m Hm]; [lia|].
  destruct (lookup_lt_is_Some_2 idx i) as [st Hs]; [lia|].
  destruct (Hinv i m st _ Hm Hs Hi) as (Hso & Hq & Heq & _).
  pose proof (skip_records_spec st m Hso Hq) as Hsk. rewrite <- Heq in Hsk.
  destruct Hsk as (Hin & Hge & _). destruct Hq as [Hbt Hall].
  rewrite Forall_forall in Hall. destruct (Hall _ Hin) as [_ Hmax]. cbn [fst] in Hmax.
  exists m, st. repeat (split; [done|]). split; [by eapply bt_ok_id|]. by split.
Qed.

Lemma mjoin_insert {A} (l : list (list A)) i x rest : l !! i = Some (x :: rest) ->
  length (mjoin l) = S (length (mjoin (<[i := rest]> l))).
Proof.
  revert i. induction l as [|y l IH]; intros [|i] Hi; simplify_eq/=; rewrite ?length_app; [done|].
  rewrite (IH i Hi). lia.
Qed.

(** What one round of filling adds: records move from the iterators to the heap. *)
Lemma fill_loop_added n full iters q idx : fill_inv full iters q idx -> typed full ->
  let '(q', idx', _) := fill_loop n iters q idx in
  exists added, q' = q ++ added /\
    (length added + length (unscheduled full idx') = length (mjoin iters))%nat /\
    typed_ids added /\ (synced full q idx -> synced full q' idx').
Proof.
  intros Hinv Ht. revert iters q idx Hinv. induction n as [|n IH]; intros iters q idx Hinv; cbn [fill_loop].
  { exists []. rewrite app_nil_r, (fill_inv_iters _ _ _ _ Hinv).
    split; [done|]. split; [done|]. by split; [constructor|]. }
  pose proof (pick_spec iters 0 None) as Hp. destruct (pick iters 0 None) as [[i t]|].
  2: { exists []. rewrite app_nil_r, (fill_inv_iters _ _ _ _ Hinv).
    split; [done|]. split; [done|]. by split; [constructor|]. }
  destruct Hp as ([?|(r & rest & _ & Hi & _)] & _); [done|]. rewrite Nat.sub_0_r in Hi. rewrite Hi.
  specialize (IH _ _ _ (fill_step _ _ _ _ _ _ _ Hinv Hi)). unfold rec_key in IH.
  destruct (fill_loop n _ _ _) as [[q' idx'] ran]. destruct IH as (added & -> & Hlen & Hty & Hsync).
  destruct (iter_head _ _ _ _ _ _ _ Hinv Hi) as (m & st & Hm & Hst & Hin & Hbt & Hok & Hmax & Hge).
  pose proof (Ht i m _ r Hm Hin) as Hti.
  exists (sr_id r :: added). split; [by rewrite <- app_assoc|]. split.
  { rewrite (mjoin_insert _ _ _ _ Hi). simpl. lia. }
  split; [constructor; [exists i; split; [done|by eapply type_index_3]|done]|].
  intros (Hcopy & Hbelow & Hnd). apply Hsync.
  assert (forall s, s ∈ q -> packet_type_to_index (pid_type (sri_id s)) = Ok i ->
    id_val (pid_part (sri_id s)) < id_val (rec_key r)) as Hless.
  { intros s Hs Hsi. specialize (Hbelow s i st Hs Hsi Hst). lia. }
  split; [|split].
  - intros s rec [Hs| ->%list_elem_of_singleton]%elem_of_app Hl; [by eapply Hcopy|].
    unfold lookup_rec in Hl. rewrite Hti, Hm in Hl. cbn in Hl.
    apply bt_lookup_elem in Hin; [|done]. unfold rec_key in Hin. congruence.
  - intros s j st' Hs Hj Hst'.
    destruct (add_ok (rec_key r) 1 Hok ltac:(done)) as [_ Hv]. unfold rec_key in *.
    rewrite wrap_small in Hv by (pose proof (id_val_range _ Hok); unfold is_uint in *; lia).
    destruct (decide (j = i)) as [->|Hne].
    + rewrite list_lookup_insert_eq in Hst' by (by eapply lookup_lt_Some). injection Hst' as <-.
      apply elem_of_app in Hs as [Hs| ->%list_elem_of_singleton]; [|lia]. specialize (Hless s Hs Hj). lia.
    + rewrite list_lookup_insert_ne in Hst' by done.
      apply elem_of_app in Hs as [Hs| ->%list_elem_of_singleton]; [by eapply Hbelow|congruence].
  - rewrite fmap_app. apply NoDup_app. split; [done|]. split; [|apply NoDup_singleton].
    intros pid Hpid ->%list_elem_of_singleton. apply list_elem_of_fmap in Hpid as (s & Heq & Hs).
    assert (packet_type_to_index (pid_type (sri_id s)) = Ok i) as Hsi by by rewrite <- Heq.
    specialize (Hless s Hs Hsi). unfold rec_key in Hless. rewrite <- Heq in Hless. lia.
Qed.

Section loop.
Context `{BeIo, Cubic}.

(** The fields that filling the heap reads and writes. *)
Lemma fill_up_loop r now :
  let iters := zip_with skip_records (send_queue_indices r) (full_send_queue r) in
  let n := Z.to_nat (get_window r now - Z.of_nat (length (send_queue r))) in
  let '(q, idx, _) := fill_loop n iters (send_queue r) (send_queue_indices r) in
  send_queue (fill_up_send_queue r now) = q /\ send_queue_indices (fill_up_send_queue r now) = idx.
Proof.
  cbv zeta. unfold fill_up_send_queue. destruct (fill_loop _ _ _ _) as [[q idx] ran].
  destruct ran; [done|]. by destruct (no_congestion_since _).
Qed.

Definition resender_typed (r : Resender) : Prop :=
  typed (full_send_queue r) /\ typed_ids (send_queue r).

Definition resender_synced (r : Resender) : Prop :=
  synced (full_send_queue r) (send_queue r) (send_queue_indices r).

Definition resender_work (r : Resender) (now : Z) : nat :=
  queue_work (full_send_queue r) (send_queue r) (send_queue_indices r) now.

(** Filling the heap does not add work. *)
Lemma fill_up_work r now : resender_ok r -> resender_typed r ->
  let r' := fill_up_send_queue r now in
  resender_ok r' /\ resender_typed r' /\ full_send_queue r' = full_send_queue r /\
  config r' = config r /\ state r' = state r /\ (resender_work r' now <= resender_work r now)%nat /\
  (resender_synced r -> resender_synced r').
Proof.
  intros Hr [Ht Htq]. cbv zeta.
  destruct (fill_up_spec r now Hr) as (Hok & Hfull & Hconf & _ & Hst & _).
  pose proof (fill_inv_start r Hr) as Hinv.
  pose proof (fill_loop_added (Z.to_nat (get_window r now - Z.of_nat (length (send_queue r))))
    _ _ _ _ Hinv Ht) as Hadd.
  pose proof (fill_up_loop r now) as Hloop. cbv zeta in Hloop.
  destruct (fill_loop _ _ _ _) as [[q idx] ran]. destruct Hloop as [Hq Hi].
  destruct Hadd as (added & -> & Hlen & Hta & Hsync).
  split; [done|]. unfold resender_typed, resender_work, resender_synced, queue_work.
  rewrite Hfull, Hq, Hi. split.
  { split; [done|]. apply Forall_app. by split. }
  repeat (split; [done|]). split; [|done].
  rewrite count_app. pose proof (count_le (active (full_send_queue r) now) added).
  change (mjoin (zip_with skip_records (send_queue_indices r) (full_send_queue r)))
    with (unscheduled (full_send_queue r) (send_queue_indices r)) in Hlen. lia.
Qed.

Lemma skip_length st m : (length (skip_records st m) <= length m)%nat.
Proof.
  induction m as [|[k r] m IH]; simpl; [done|].
  destruct (PartialPacketId_lt _ _); [lia|]. simpl. rewrite length_fmap. lia.
Qed.

Lemma unscheduled_le full idx : (length (unscheduled full idx) <= length (mjoin full))%nat.
Proof.
  unfold unscheduled. revert full. induction idx as [|st idx IH]; intros [|m full]; simpl; try lia.
  rewrite !length_app. pose proof (skip_length st m). specialize (IH full). lia.
Qed.

(** Rebuilding the heap. *)
Lemma rebuild_work r now : resender_ok r -> typed (full_send_queue r) ->
  let r' := rebuild_send_queue r now in
  resender_ok r' /\ resender_typed r' /\ full_send_queue r' = full_send_queue r /\
  config r' = config r /\ state r' = state r /\ (resender_work r' now <= waiting_count r)%nat /\
  resender_synced r'.
Proof.
  intros Hr Ht. cbv zeta. unfold rebuild_send_queue.
  set (r0 := with_queues r [] (full_send_queue r) (replicate 3 PartialPacketId_default)).
  assert (resender_ok r0) as Hr0.
  { destruct Hr as (H1' & H2' & Hall). split; [done|]. split; [done|]. intros i m start Hm Hs.
    apply lookup_replicate in Hs as [-> Hi].
    destruct (lookup_3 _ i H2' Hi) as [s0 Hs0].
    destruct (Hall i m s0 Hm Hs0) as (_ & Hq & _).
    split; [by split|]. split; [done|]. intros k rec Hin Hlt. exfalso.
    destruct Hq as [Hbt _]. pose proof (id_val_range k (bt_ok_id _ _ _ Hbt Hin)) as Hk.
    unfold is_uint in Hk. change (id_val PartialPacketId_default) with 0 in Hlt. lia. }
  assert (resender_typed r0) as Ht0 by (split; [done|constructor]).
  destruct (fill_up_work r0 now Hr0 Ht0) as (Hok & Hty & Hfull & Hc & Hs & Hw & Hsy).
  repeat (split; [done|]). split.
  - etrans; [exact Hw|]. unfold resender_work, queue_work. simpl. apply unscheduled_le.
  - apply Hsy. split; [intros s rec Hn; by apply not_elem_of_nil in Hn|].
    split; [intros s i st Hn; by apply not_elem_of_nil in Hn|constructor].
Qed.

(** * Dropping a stale entry *)

Lemma delete_elem {A} (q : list A) i s : s ∈ take i q ++ drop (S i) q -> s ∈ q.
Proof.
  intros [Hs|Hs]%elem_of_app.
  - rewrite <- (take_drop i q). apply elem_of_app. by left.
  - rewrite <- (take_drop (S i) q). apply elem_of_app. by right.
Qed.

Lemma delete_keeps {A} (q : list A) i s x : q !! i = Some x -> s ∈ q ->
  s = x \/ s ∈ take i q ++ drop (S i) q.
Proof.
  intros Hi Hs. rewrite <- (take_drop_middle q i x Hi) in Hs.
  apply elem_of_app in Hs as [Hs|[->|Hs]%elem_of_cons]; [right|by left|right];
    apply elem_of_app; tauto.
Qed.

Lemma delete_stale r i s now : resender_ok r -> resender_typed r -> send_queue r !! i = Some s ->
  lookup_rec (full_send_queue r) s = None ->
  let r' := with_queues r (take i (send_queue r) ++ drop (S i) (send_queue r)) (full_send_queue r)
    (send_queue_indices r) in
  resender_ok r' /\ resender_typed r' /\ (S (resender_work r' now) = resender_work r now)%nat /\
  (resender_synced r -> resender_synced r').
Proof.
  intros (Hl & Hl' & Hall) [Ht Htq] Hi Hstale. cbv zeta. split; [|split; [|split]].
  - split; [done|]. split; [done|]. intros j m st Hm Hst.
    cbn [full_send_queue send_queue send_queue_indices with_queues] in *.
    destruct (Hall j m st Hm Hst) as (Hso & Hq & Hcov). split; [done|]. split; [done|].
    intros k r0 Hin Hlt. destruct (Hcov k r0 Hin Hlt) as (s' & Hs' & Heq).
    destruct (delete_keeps _ _ _ _ Hi Hs') as [->|Hs'']; [exfalso|by exists s'].
    unfold lookup_rec in Hstale. rewrite Heq, (Ht j m k r0 Hm Hin), Hm in Hstale. cbn in Hstale.
    destruct Hq as [Hbt Hkeys]. rewrite Forall_forall in Hkeys. destruct (Hkeys _ Hin) as [Hk _].
    cbn [fst snd] in Hk. unfold rec_key in Hk. rewrite Hk in Hstale.
    apply bt_lookup_elem in Hin; [congruence|done].
  - split; [done|]. apply Forall_forall. intros s' Hs'. unfold typed_ids in Htq.
    rewrite Forall_forall in Htq. apply Htq. exact (delete_elem _ i _ Hs').
  - unfold resender_work, queue_work. cbn [full_send_queue send_queue send_queue_indices with_queues].
    pose proof (count_delete (active (full_send_queue r) now) _ _ _ Hi) as Hc.
    unfold active at 2 in Hc. rewrite Hstale in Hc. lia.
  - intros (Hcopy & Hbelow & Hnd). split; [|split].
    + intros s' rec Hs'. exact (Hcopy s' rec (delete_elem _ i _ Hs')).
    + intros s' j st Hs'. exact (Hbelow s' j st (delete_elem _ i _ Hs')).
    + cbn [send_queue with_queues]. rewrite <- (take_drop_middle _ _ _ Hi), !fmap_app in Hnd.
      rewrite fmap_app. apply NoDup_app in Hnd as (H1' & H2' & H3').
      apply NoDup_app. rewrite fmap_cons in *. apply NoDup_cons in H3' as [_ H3'].
      split; [done|]. split; [|done]. intros x Hx Hx'. apply (H2' x Hx). by right.
Qed.

(** * Marking a record as sent *)

Lemma bt_update {V} k (v v' : V) m : bt_ok m -> bt_lookup k m = Some v -> exists l1 l2,
  m = l1 ++ (k, v) :: l2 /\ bt_insert k v' m = l1 ++ (k, v') :: l2.
Proof.
  induction m as [|[k0 v0] m IH]; intros Hm Hl; [done|].
  pose proof Hm as (Hk0 & Hlt & Hm'). simpl in *. case_bool_decide as Hk.
  - injection Hl as ->. subst k0. exists [], m. rewrite cmp_val, Z.compare_refl by done. done.
  - pose proof Hl as Hin. apply bt_lookup_elem in Hin; [|done].
    rewrite Forall_forall in Hlt. specialize (Hlt _ Hin). cbn [fst] in Hlt.
    assert (id_ok k) as Hko by by eapply bt_ok_id.
    rewrite cmp_val by done. rewrite (proj2 (Z.compare_gt_iff _ _)) by lia.
    destruct (IH Hm' Hl) as (l1 & l2 & -> & ->). by exists ((k0, v0) :: l1), l2.
Qed.

(** The queues after the record of [s] was sent. *)
Definition marked (s : SendRecordId) (now : Z) : SendRecordId :=
  {| sri_last := now; sri_tries := S (sri_tries s); sri_id := sri_id s |}.

Lemma marked_not_due s now : due now (marked s now) = false.
Proof. unfold due, marked. cbn [sri_tries sri_last]. by rewrite Z.eqb_refl. Qed.

Lemma mjoin_update {A} (l : list (list A)) i a x y b : l !! i = Some (a ++ x :: b) ->
  exists l1 l2, mjoin l = l1 ++ x :: l2 /\ mjoin (<[i := a ++ y :: b]> l) = l1 ++ y :: l2.
Proof.
  revert i. induction l as [|z l IH]; intros [|i] Hi; simplify_eq/=.
  - exists a, (b ++ mjoin l). by rewrite <- !app_assoc.
  - destruct (IH i Hi) as (l1 & l2 & -> & ->). exists (z ++ l1), l2. by rewrite !app_assoc.
Qed.

Lemma skip_update st l1 k r r' l2 : rec_key r = rec_key r' ->
  length (skip_records st (l1 ++ (k, r') :: l2)) = length (skip_records st (l1 ++ (k, r) :: l2)).
Proof.
  intros Hk. unfold rec_key in Hk. induction l1 as [|[k0 r0] l1 IH]; simpl.
  - rewrite <- Hk. destruct (PartialPacketId_lt _ st); [done|]. simpl. by rewrite !length_fmap.
  - destruct (PartialPacketId_lt _ st); [done|]. simpl. by rewrite !length_fmap, !length_app.
Qed.

Lemma unscheduled_update full idx i l1 k r r' l2 : full !! i = Some (l1 ++ (k, r) :: l2) ->
  rec_key r = rec_key r' ->
  length (unscheduled (<[i := l1 ++ (k, r') :: l2]> full) idx) = length (unscheduled full idx).
Proof.
  intros Hi Hk. unfold unscheduled. revert i idx Hi.
  induction full as [|m full IH]; intros [|i] [|st idx] Hi; simplify_eq/=; try done; rewrite !length_app.
  - by rewrite (skip_update st l1 k r r' l2 Hk).
  - by rewrite (IH i idx Hi).
Qed.

Lemma bt_lookup_update {V} x l1 k (v v' : V) l2 :
  (x <> k -> bt_lookup x (l1 ++ (k, v') :: l2) = bt_lookup x (l1 ++ (k, v) :: l2)) /\
  (is_Some (bt_lookup x (l1 ++ (k, v') :: l2)) <-> is_Some (bt_lookup x (l1 ++ (k, v) :: l2))).
Proof.
  induction l1 as [|[k0 v0] l1 IH]; simpl; by case_bool_decide.
Qed.

(** The record that the heap entry [s] stands for. *)
Section mark.
Context (r : Resender) (i qi : nat) (s : SendRecordId) (full_rec : SendRecord) (now : Z).
Context (m l1 l2 : list (PartialPacketId * SendRecord)).
Context (Hok : resender_ok r) (Hty : resender_typed r) (Hi : send_queue r !! i = Some s).
Context (Hqi : packet_type_to_index (pid_type (sri_id s)) = Ok qi).
Context (Hm : full_send_queue r !! qi = Some m).
Context (Hl : m = l1 ++ (pid_part (sri_id s), full_rec) :: l2).

Let rec' : SendRecord :=
  {| sr_sent := sr_sent full_rec; sr_id := marked s now; sr_packet := sr_packet full_rec |}.
Let m' := l1 ++ (pid_part (sri_id s), rec') :: l2.
Let full' := <[qi := m']> (full_send_queue r).
Let q' := <[i := marked s now]> (send_queue r).

Lemma full_rec_in : (pid_part (sri_id s), full_rec) ∈ m.
Proof. rewrite Hl. apply elem_of_app. right. left. Qed.

Lemma queue_facts : exists st, send_queue_indices r !! qi = Some st /\
  id_ok st /\ queue_ok m /\ covered (send_queue r) st m.
Proof.
  destruct Hok as (Hl3 & Hl3' & Hall). pose proof (lookup_lt_Some _ _ _ Hm).
  destruct (lookup_3 _ qi Hl3' ltac:(lia)) as [st Hst]. exists st. split; [done|]. by apply (Hall qi).
Qed.

Lemma full_rec_id : sri_id (sr_id full_rec) = sri_id s.
Proof.
  destruct queue_facts as (st & _ & _ & [_ Hkeys] & _). rewrite Forall_forall in Hkeys.
  destruct (Hkeys _ full_rec_in) as [Hk _]. cbn [fst snd] in Hk. unfold rec_key in Hk.
  pose proof (proj1 Hty qi m _ full_rec Hm full_rec_in) as Ht.
  pose proof (type_index_inj _ _ _ Ht Hqi). destruct (sri_id (sr_id full_rec)), (sri_id s); simpl in *.
  congruence.
Qed.

Lemma rec'_key : rec_key full_rec = rec_key rec'.
Proof. unfold rec_key. by rewrite full_rec_id. Qed.

Lemma m'_elem p : p ∈ m' -> p = (pid_part (sri_id s), rec') \/ p ∈ m.
Proof.
  rewrite Hl. unfold m'. intros [Hp|[->|Hp]%elem_of_cons]%elem_of_app; [right|by left|right];
    apply elem_of_app; [by left|right; by right].
Qed.

Lemma m'_queue_ok : queue_ok m'.
Proof.
  destruct queue_facts as (st & _ & _ & [Hbt Hkeys] & _). split.
  - assert (bt_lookup (pid_part (sri_id s)) m = Some full_rec) as Hlook
      by (apply bt_lookup_elem; [done|apply full_rec_in]).
    destruct (bt_update (pid_part (sri_id s)) full_rec rec' m Hbt Hlook) as (a & b & Hm1 & Hm2).
    assert (bt_ok (bt_insert (pid_part (sri_id s)) rec' m)) as Hb.
    { apply bt_insert_ok; [|done]. eapply bt_ok_id; [done|apply full_rec_in]. }
    rewrite Hl in Hbt. clear -Hbt. unfold m'. induction l1 as [|[k0 v0] l IH]; simpl in *; [done|].
    destruct Hbt as (? & Hlt & Hbt). split; [done|]. split; [|by apply IH].
    rewrite Forall_app, Forall_cons in *. exact Hlt.
  - apply Forall_forall. rewrite Forall_forall in Hkeys. intros p [->|Hp]%m'_elem; [|by apply Hkeys].
    destruct (Hkeys _ full_rec_in) as [_ Hmax]. split; [done|exact Hmax].
Qed.

Lemma q'_elem x : x ∈ q' -> x = marked s now \/ exists j, j <> i /\ send_queue r !! j = Some x.
Proof.
  intros [j Hj]%list_elem_of_lookup. unfold q' in Hj.
  apply list_lookup_insert_Some in Hj as [(-> & -> & _)|[Hne Hj]]; [by left|right]. eauto.
Qed.

Lemma q'_covers x : x ∈ send_queue r -> exists y, y ∈ q' /\ sri_id y = sri_id x.
Proof.
  intros [j Hj]%list_elem_of_lookup. destruct (decide (i = j)) as [->|Hne].
  - exists (marked s now). rewrite Hj in Hi. injection Hi as ->. split; [|done].
    apply list_elem_of_lookup. exists j. apply list_lookup_insert_eq. by eapply lookup_lt_Some.
  - exists x. split; [|done]. apply list_elem_of_lookup. exists j. unfold q'. by rewrite list_lookup_insert_ne.
Qed.

Lemma mark_ok : resender_ok (with_queues r q' full' (send_queue_indices r)).
Proof.
  pose proof Hok as (Hl3 & Hl3' & Hall).
  split; [cbn [full_send_queue with_queues]; unfold full'; by rewrite length_insert|]. split; [done|].
  intros j mj st Hmj Hst. cbn [full_send_queue with_queues send_queue_indices send_queue] in *.
  assert (forall mj, covered (send_queue r) st mj -> covered q' st mj) as Hcov.
  { intros mj0 Hc k r0 Hin Hlt. destruct (Hc k r0 Hin Hlt) as (x & Hx & He).
    destruct (q'_covers x Hx) as (y & Hy & Hye). exists y. split; [done|congruence]. }
  unfold full' in Hmj. apply list_lookup_insert_Some in Hmj as [(<- & <- & _)|[Hne Hmj]].
  - destruct (Hall qi m st Hm Hst) as (Hso & _ & Hc). split; [done|]. split; [apply m'_queue_ok|].
    intros k r0 [[= -> ->]|Hin]%m'_elem Hlt; [|by apply (Hcov m Hc k r0)].
    destruct (Hc _ full_rec full_rec_in Hlt) as (x & Hx & He). destruct (q'_covers x Hx) as (y & Hy & Hye).
    exists y. split; [done|]. rewrite Hye, He. apply full_rec_id.
  - destruct (Hall j mj st Hmj Hst) as (Hso & Hq & Hc). split; [done|]. split; [done|]. by apply Hcov.
Qed.

Lemma mark_typed : resender_typed (with_queues r q' full' (send_queue_indices r)).
Proof.
  destruct Hty as [Ht Htq]. split.
  - intros j mj k r0 Hmj Hin. cbn [full_send_queue with_queues] in *. unfold full' in Hmj.
    apply list_lookup_insert_Some in Hmj as [(<- & <- & _)|[Hne Hmj]]; [|by eapply Ht].
    apply m'_elem in Hin as [[= -> ->]|Hin]; [done|by eapply Ht].
  - apply Forall_forall. cbn [send_queue with_queues]. unfold typed_ids in Htq.
    rewrite Forall_forall in Htq. intros x [->|(j & _ & Hj)]%q'_elem.
    + exists qi. split; [done|by eapply type_index_3].
    + apply Htq. by eapply list_elem_of_lookup_2.
Qed.

(** Whether an entry is stale does not change. *)
Lemma lookup_rec_mark x : is_Some (lookup_rec full' x) <-> is_Some (lookup_rec (full_send_queue r) x).
Proof.
  unfold lookup_rec. destruct (packet_type_to_index (pid_type (sri_id x))) as [j| |]; [|done..].
  unfold full'. destruct (decide (j = qi)) as [->|Hne];
    [|by rewrite list_lookup_insert_ne].
  rewrite list_lookup_insert_eq by (by eapply lookup_lt_Some). rewrite Hm, Hl. cbn.
  apply bt_lookup_update.
Qed.

Lemma active_mark x : active full' now x = active (full_send_queue r) now x.
Proof.
  unfold active. pose proof (lookup_rec_mark x) as Hx.
  destruct (lookup_rec full' x), (lookup_rec (full_send_queue r) x); try done.
  - destruct (proj1 Hx ltac:(eauto)) as [? ?]. done.
  - destruct (proj2 Hx ltac:(eauto)) as [? ?]. done.
Qed.

Lemma mark_work : due now s = true ->
  S (resender_work (with_queues r q' full' (send_queue_indices r)) now) = resender_work r now.
Proof.
  intros Hdue. unfold resender_work, queue_work.
  cbn [full_send_queue send_queue send_queue_indices with_queues]. unfold full' at 2, m'.
  pose proof Hm as Hm2. rewrite Hl in Hm2.
  rewrite (unscheduled_update _ _ _ _ _ _ rec' _ Hm2 rec'_key).
  rewrite (count_ext (active full' now) (active (full_send_queue r) now)) by (intros; apply active_mark).
  pose proof (count_insert (active (full_send_queue r) now) _ _ _ (marked s now) Hi) as Hc.
  fold q' in Hc. assert (lookup_rec (full_send_queue r) s = Some full_rec) as Hlook.
  { unfold lookup_rec. rewrite Hqi, Hm2. cbn. apply bt_lookup_elem.
    - rewrite <- Hl. by destruct queue_facts as (? & _ & _ & [? _] & _).
    - apply elem_of_app. right. left. }
  assert (active (full_send_queue r) now s = true) as Hs by (unfold active; by rewrite Hlook).
  assert (active (full_send_queue r) now (marked s now) = false) as Hms.
  { unfold active. change (lookup_rec (full_send_queue r) (marked s now))
      with (lookup_rec (full_send_queue r) s). rewrite Hlook. apply marked_not_due. }
  rewrite Hs, Hms in Hc. lia.
Qed.

Lemma mark_due : waiting_count (with_queues r q' full' (send_queue_indices r)) = waiting_count r /\
  (due_count full' now + (if due now (sr_id full_rec) then 1 else 0) = due_count (full_send_queue r) now)%nat.
Proof.
  pose proof Hm as Hm2. rewrite Hl in Hm2. unfold waiting_count, due_count. cbn [full_send_queue with_queues].
  destruct (mjoin_update _ _ _ _ (pid_part (sri_id s), rec') _ Hm2) as (a & b & Ha & Hb).
  unfold full', m'. rewrite Ha, Hb, !length_app, !count_app. cbn [length count].
  split; [done|]. unfold due_entry at 2 5. cbn [snd rec' sr_id]. rewrite marked_not_due. lia.
Qed.

Lemma mark_synced : resender_synced r ->
  sr_id full_rec = s /\ resender_synced (with_queues r q' full' (send_queue_indices r)).
Proof.
  intros (Hcopy & Hbelow & Hnd).
  assert (bt_ok m) as Hbt by by destruct queue_facts as (? & _ & _ & [? _] & _).
  split.
  { apply Hcopy; [by eapply list_elem_of_lookup_2|]. unfold lookup_rec. rewrite Hqi, Hm. cbn.
    apply bt_lookup_elem; [done|apply full_rec_in]. }
  assert (forall j x, j <> i -> send_queue r !! j = Some x -> sri_id x <> sri_id s) as Hdiff.
  { intros j x Hne Hj Heq. apply Hne. eapply (NoDup_lookup _ _ _ (sri_id s) Hnd);
      rewrite list_lookup_fmap; [by rewrite Hj, <- Heq|by rewrite Hi]. }
  split; [|split]; cbn [full_send_queue send_queue send_queue_indices with_queues].
  - intros x rec [->|(j & Hne & Hj)]%q'_elem Hlook.
    + unfold lookup_rec in Hlook. cbn [sri_id marked] in Hlook. rewrite Hqi in Hlook.
      unfold full' in Hlook. rewrite list_lookup_insert_eq in Hlook by (by eapply lookup_lt_Some).
      cbn in Hlook. apply bt_lookup_elem in Hlook; [|by destruct m'_queue_ok].
      assert ((pid_part (sri_id s), rec') ∈ m') as Hin by (apply elem_of_app; right; left).
      apply bt_lookup_elem in Hin, Hlook; [|by destruct m'_queue_ok..].
      assert (rec = rec') as -> by congruence. done.
    + apply Hcopy; [by eapply list_elem_of_lookup_2|]. specialize (Hdiff j x Hne Hj).
      unfold lookup_rec in *. destruct (packet_type_to_index (pid_type (sri_id x))) as [jx| |] eqn:Hjx; [|done..].
      unfold full' in Hlook. destruct (decide (jx = qi)) as [->|Hq]; [|by rewrite list_lookup_insert_ne in Hlook].
      rewrite list_lookup_insert_eq in Hlook by (by eapply lookup_lt_Some). cbn in Hlook.
      rewrite Hm, Hl. cbn. rewrite <- Hlook. symmetry. apply bt_lookup_update. intros Hp. apply Hdiff.
      pose proof (type_index_inj _ _ _ Hjx Hqi). destruct (sri_id x), (sri_id s). simpl in *. congruence.
  - intros x j st [->|(j' & _ & Hj')]%q'_elem Ht Hst.
    + apply (Hbelow s j st); [by eapply list_elem_of_lookup_2|done|done].
    + apply (Hbelow x j st); [by eapply list_elem_of_lookup_2|done|done].
  - unfold q'. rewrite list_fmap_insert. rewrite list_insert_id; [done|].
    rewrite list_lookup_fmap, Hi. done.
Qed.

End mark.

End loop.

(** * The heap *)

(** The entry was sent after [threshold]. *)
Definition fresh (threshold : Z) (s : SendRecordId) : Prop :=
  sri_tries s <> 0%nat /\ threshold < sri_last s.

Lemma cmp_fresh thr x y : SendRecordId_cmp x y <> Gt -> fresh thr y -> fresh thr x.
Proof.
  unfold SendRecordId_cmp, fresh. intros Hc [Hy Hlt].
  destruct (sri_tries x), (sri_tries y); try done. split; [done|].
  destruct (Z.compare_spec (sri_last x) (sri_last y)); simpl in Hc; [lia|done|lia].
Qed.

Lemma cmp_fresh' thr x y : SendRecordId_cmp x y <> Lt -> fresh thr x -> fresh thr y.
Proof.
  unfold SendRecordId_cmp, fresh. intros Hc [Hx Hlt].
  destruct (sri_tries x), (sri_tries y); try done. split; [done|].
  destruct (Z.compare_spec (sri_last x) (sri_last y)); simpl in Hc; [lia|lia|done].
Qed.

(** The maximum is an entry, and when it need not be sent, then no entry need be. *)
Lemma heap_max_spec q :
  match heap_max q with
  | None => q = []
  | Some (i, x) => q !! i = Some x /\ forall thr, fresh thr x -> Forall (fresh thr) q
  end.
Proof.
  induction q as [|x q IH]; [done|]. simpl. destruct (heap_max q) as [[i y]|].
  - destruct IH as [Hi Hall]. destruct (SendRecordId_cmp x y) eqn:Hc.
    + split; [done|]. intros thr Hx. constructor; [done|]. apply Hall.
      by apply (cmp_fresh' thr x y); [rewrite Hc|].
    + split; [done|]. intros thr Hy. constructor; [|by apply Hall].
      by apply (cmp_fresh thr x y); [rewrite Hc|].
    + split; [done|]. intros thr Hx. constructor; [done|]. apply Hall.
      by apply (cmp_fresh' thr x y); [rewrite Hc|].
  - subst q. split; [done|]. intros thr Hx. by constructor.
Qed.

(** * The loop *)

(** A connection whose resender can work: the packets have their header, and the timeouts are
    positive. *)
Definition con_live (con : Connection) : Prop :=
  con_ok con /\ resender_typed (resender con) /\
  (forall p, p ∈ mjoin (full_send_queue (resender con)) -> out_shape (sr_packet (snd p))) /\
  0 < srtt (config (resender con)) /\ 0 <= srtt_dev (config (resender con)).

(** The ids that wait for an ack. *)
Definition waiting_ids (r : Resender) : list (list PartialPacketId) :=
  (fun m : list (PartialPacketId * SendRecord) => fst <$> m) <$> full_send_queue r.

(** Nothing is left to be sent at this instant. *)
Definition all_sent (con : Connection) (now : Z) : Prop :=
  Forall (fresh (now - retransmission_timeout (resender con))) (send_queue (resender con)).

(** The socket refused a datagram. *)
Definition would_block (before after : list SendResult) : Prop :=
  exists k, (before !! k = None \/ before !! k = Some SendPending) /\ after = drop (S k) before.

Lemma would_block_cons x before after : would_block before after -> would_block (x :: before) after.
Proof. intros (k & Hk & ->). by exists (S k). Qed.

Lemma retransmission_pos r : 0 < srtt (config r) -> 0 <= srtt_dev (config r) ->
  0 < retransmission_timeout r.
Proof.
  intros. unfold retransmission_timeout. destruct (Z.ltb_spec second (srtt (config r) + srtt_dev (config r) * 4));
    [done|lia].
Qed.

(** What a round that goes on does to the work. *)
Definition progress (r r' : Resender) (now : Z) : Prop :=
  waiting_ids r' = waiting_ids r /\
  (due_count (full_send_queue r') now <= due_count (full_send_queue r) now)%nat /\
  (((resender_work r' now < resender_work r now)%nat /\ (resender_synced r -> resender_synced r')) \/
   ((resender_work r' now <= waiting_count r)%nat /\ resender_synced r' /\
    (resender_synced r ->
     due_count (full_send_queue r') now < due_count (full_send_queue r) now)%nat)).

Lemma waiting_ids_count r r' : waiting_ids r' = waiting_ids r -> waiting_count r' = waiting_count r.
Proof.
  unfold waiting_ids, waiting_count. generalize (full_send_queue r) (full_send_queue r').
  intros l. induction l as [|m l IH]; intros [|m' l'] Heq; [done..|].
  injection Heq as Hm Hl. simpl. rewrite !length_app, (IH l') by done. f_equal.
  by rewrite <- !(length_fmap fst), Hm.
Qed.

Section resend.
Context `{BeIoLaws, QuicklzLaws, EaxLaws, Sha256Laws, Cubic, Profile}.
Context (Hrelease : overflow_checks = false).

Lemma resend_command_returns con : con_ok con ->
  returns (fun con' => con_ok con' /\ exists c, con' = set_stats con c (stats con) (last_stat con))
    (let? c := packet_op (handle_loss_resend_command (stats_counter con)) in
     Ok (set_stats con c (stats con) (last_stat con))).
Proof.
  intros (Hc & Hp & Hr & [Hcb Hcl] & Hs & Ha).
  apply (returns_bind counter_ok); [apply returns_map_err|].
  - unfold handle_loss_resend_command. eapply returns_bind.
    + apply add_at_returns; [done|done|]. rewrite Hcl. apply PacketLossStat_index_lt.
    + intros l Hl; cbv beta in *. split; [exact Hcb|cbn; lia].
  - intros c Hc'. split; [|by exists c]. split; [exact Hc|]. split; [exact Hp|].
    split; [exact Hr|]. by split.
Qed.

Lemma count_outgoing_only con u : con_ok con -> out_shape u ->
  returns (fun con' => con_ok con' /\ resender con' = resender con /\ udp_socket con' = udp_socket con /\
      is_client con' = is_client con) (count_outgoing con u).
Proof.
  intros Hc Hu. pose proof (count_outgoing_returns Hrelease con u Hc Hu) as Hr.
  unfold count_outgoing in *. destruct (packet_op (OutUdpPacket_packet_type u)); [|done..].
  cbn [res_bind] in *. destruct (packet_op _) as [[c s]| |]; [|done..]. destruct Hr. by repeat (split; [done|]).
Qed.

Lemma sent_record_spec con i qi s full_rec m timeout now :
  con_live con -> send_queue (resender con) !! i = Some s ->
  packet_type_to_index (pid_type (sri_id s)) = Ok qi ->
  full_send_queue (resender con) !! qi = Some m ->
  bt_lookup (pid_part (sri_id s)) m = Some full_rec -> due now s = true -> 0 < timeout ->
  returns (fun con' => con_live con' /\ progress (resender con) (resender con') now /\
      udp_socket con' = udp_socket con /\ is_client con' = is_client con)
    (sent_record con i qi s full_rec timeout now).
Proof.
  intros (Hok & Hty & Hout & Hsrtt & Hdev) Hi Hqi Hm Hlook Hdue Htime.
  pose proof Hok as (_ & _ & Hr & _). pose proof Hr as (Hl3 & Hl3' & Hall).
  assert (bt_ok m) as Hbt.
  { destruct (lookup_3 _ qi Hl3' ltac:(by eapply type_index_3)) as [st Hst].
    by destruct (Hall qi m st Hm Hst) as (_ & [? _] & _). }
  set (rec' := {| sr_sent := sr_sent full_rec; sr_id := marked s now; sr_packet := sr_packet full_rec |}).
  destruct (bt_update _ full_rec rec' m Hbt Hlook) as (l1 & l2 & Hl & Hins).
  assert (out_shape (sr_packet full_rec)) as Hshape.
  { apply (Hout (pid_part (sri_id s), full_rec)), list_elem_of_join. exists m.
    split; [by apply bt_lookup_elem in Hlook|by eapply list_elem_of_lookup_2]. }
  unfold sent_record.
  apply (returns_bind (fun con1 => con_ok con1 /\ resender con1 = resender con /\
    udp_socket con1 = udp_socket con /\ is_client con1 = is_client con)).
  { case_bool_decide; [|done]. eapply returns_weaken; [by apply resend_command_returns|].
    intros con1 (Hc1 & c & ->). done. }
  intros con1 (Hc1 & Hr1 & Hs1 & Hk1). rewrite Hr1, (index_ok _ _ _ Hm). cbn [res_bind].
  change {| sri_last := now; sri_tries := S (sri_tries s); sri_id := sri_id s |} with (marked s now).
  fold rec'. change (sri_id (marked s now)) with (sri_id s). rewrite Hins.
  pose proof (mark_ok _ i qi s full_rec now m l1 l2 Hr Hty Hi Hqi Hm Hl) as Hmok.
  pose proof (mark_typed _ i qi s full_rec now m l1 l2 Hty Hi Hqi Hm Hl) as Hmty.
  pose proof (mark_work _ i qi s full_rec now m l1 l2 Hr Hty Hi Hqi Hm Hl Hdue) as Hmwork.
  destruct (mark_due _ i qi s full_rec now m l1 l2 Hm Hl) as [Hmcount Hmdue].
  pose proof (mark_synced _ i qi s full_rec now m l1 l2 Hr Hi Hqi Hm Hl) as Hmsync.
  fold rec' in Hmok, Hmty, Hmwork, Hmcount, Hmdue, Hmsync.
  set (r' := with_queues (resender con) _ _ _) in *.
  change (<[qi := _]> (full_send_queue (resender con))) with (full_send_queue r') in Hmdue.
  assert (waiting_ids r' = waiting_ids (resender con)) as Hids.
  { unfold waiting_ids, r'. cbn [full_send_queue with_queues]. rewrite list_fmap_insert.
    apply list_insert_id. rewrite list_lookup_fmap, Hm, Hl. cbn. by rewrite !fmap_app. }
  assert (forall p, p ∈ mjoin (full_send_queue r') -> out_shape (sr_packet (snd p))) as Hout'.
  { intros p (l & Hp & Hin)%list_elem_of_join. apply list_elem_of_lookup in Hin as [j Hj].
    unfold r' in Hj. cbn [full_send_queue with_queues] in Hj.
    apply list_lookup_insert_Some in Hj as [(_ & <- & _)|[_ Hj]].
    - apply (m'_elem _ _ _ _ _ _ Hl) in Hp as [->|Hp]; [done|].
      apply Hout, list_elem_of_join. exists m. split; [done|by eapply list_elem_of_lookup_2].
    - apply Hout, list_elem_of_join. exists l. split; [done|by eapply list_elem_of_lookup_2]. }
  assert (con_ok (set_resender con1 r')) as Hcr.
  { destruct Hc1 as (? & ? & _ & Hrest). by repeat (split; [done|]). }
  eapply returns_bind; [by apply count_outgoing_only|].
  intros con2 (Hc2 & Hr2 & Hs2 & Hk2). cbn [resender set_resender udp_socket is_client] in Hr2, Hs2, Hk2.
  case_bool_decide as Htries.
  - rewrite Hr2. set (srt := if timeout <? _ then _ else _).
    set (r3 := with_congestion (with_srtt r' srt) _ now None).
    assert (resender_ok r3) as Hr3 by exact Hmok.
    destruct (rebuild_work r3 now Hr3 (proj1 Hmty)) as (Hok4 & Hty4 & Hfull4 & Hconf4 & _ & Hw4 & Hsy4).
    set (r4 := rebuild_send_queue r3 now) in *. split; [split; [|split; [|split; [|split]]]|split].
    + destruct Hc2 as (? & ? & _ & Hrest). by repeat (split; [done|]).
    + exact Hty4.
    + cbn [resender set_resender]. rewrite Hfull4. exact Hout'.
    + cbn [resender set_resender]. rewrite Hconf4. cbn. unfold srt.
      destruct (timeout <? _); [done|]. cbn. lia.
    + cbn [resender set_resender]. rewrite Hconf4. exact Hdev.
    + cbn [resender set_resender]. split; [unfold waiting_ids; rewrite Hfull4; exact Hids|].
      rewrite Hfull4. change (full_send_queue r3) with (full_send_queue r').
      assert (waiting_count r3 = waiting_count (resender con)) as <- by exact Hmcount.
      split; [lia|]. right. split; [done|]. split; [done|].
      intros Hsync. destruct (Hmsync Hsync) as [Heq _]. rewrite Heq, Hdue in Hmdue. lia.
    + cbn. split; congruence.
  - split; [split; [done|]|split; [|split; congruence]].
    + rewrite Hr2. by repeat (split; [done|]).
    + rewrite Hr2. split; [done|]. split; [lia|]. left. split; [lia|]. intros Hsync.
      by destruct (Hmsync Hsync).
Qed.

Lemma poll_send_socket con u :
  match poll_send_udp_packet con u with
  | (Pending, con') => would_block (udp_socket con) (udp_socket con') /\
      con' = set_socket con (udp_socket con') (udp_sent con')
  | (Ready (Ok _), con') => (exists x, udp_socket con = x :: udp_socket con') /\
      con' = set_socket con (udp_socket con') (udp_sent con')
  | (Ready (Err _), _) => True
  | (Ready Panic, _) => False
  end.
Proof.
  unfold poll_send_udp_packet, would_block. destruct (udp_socket con) as [|[| |n] rest] eqn:Hs.
  - split; [exists 0%nat; split; [by left|done]|]. destruct con. cbn in *. by subst.
  - split; [exists 0%nat; split; [by right|done]|done].
  - done.
  - case_bool_decide; [done|]. split; [by eexists|done].
Qed.

(** One round of the loop. *)
Lemma resend_step_spec con timeout now : con_live con -> 0 < timeout ->
  safe (fun '(go, con') => con_live con' /\ is_client con' = is_client con /\
      if (go : bool) then
        progress (resender con) (resender con') now /\
        (udp_socket con' = udp_socket con \/ exists x, udp_socket con = x :: udp_socket con')
      else resender con' = resender con /\
        (all_sent con' now \/ would_block (udp_socket con) (udp_socket con')))
    (resend_step con timeout now).
Proof.
  intros Hlive Htime. pose proof Hlive as (Hok & Hty & Hout & Hsrtt & Hdev).
  pose proof Hok as (_ & _ & Hr & _). unfold resend_step.
  pose proof (heap_max_spec (send_queue (resender con))) as Hheap.
  destruct (heap_max (send_queue (resender con))) as [[i s]|].
  2: { split; [done|]. split; [done|]. split; [done|]. left. unfold all_sent. rewrite Hheap. constructor. }
  destruct Hheap as [Hi Hfresh]. pose proof (proj2 Hty) as Htq. unfold typed_ids in Htq.
  destruct (Forall_lookup_1 _ _ _ _ Htq Hi) as (qi & Hqi & Hqi3). rewrite Hqi.
  cbn [packet_op map_err res_bind]. pose proof Hr as (Hl3 & _).
  destruct (lookup_3 _ qi Hl3 Hqi3) as [m Hm]. rewrite (index_ok _ _ _ Hm). cbn [res_bind].
  destruct (bt_lookup _ m) as [full_rec|] eqn:Hlook.
  2: { assert (lookup_rec (full_send_queue (resender con)) s = None) as Hstale.
    { unfold lookup_rec. by rewrite Hqi, Hm. }
    destruct (delete_stale _ i s now Hr Hty Hi Hstale) as (Hok1 & Hty1 & Hw1 & Hsy1).
    set (r1 := with_queues (resender con) _ _ _) in *.
    destruct (fill_up_work r1 now Hok1 Hty1) as (Hok2 & Hty2 & Hfull2 & Hconf2 & _ & Hw2 & Hsy2).
    cbn [safe]. split; [|split; [done|split; [|by left]]].
    - destruct Hok as (? & ? & _ & Hrest). split; [by repeat (split; [done|])|].
      split; [done|]. cbn [resender set_resender]. rewrite Hfull2, Hconf2. done.
    - unfold progress, waiting_ids. cbn [resender set_resender]. rewrite Hfull2.
      split; [done|]. split; [done|]. left. split; [lia|]. auto. }
  pose proof (retransmission_pos _ Hsrtt Hdev) as Hrto.
  destruct (bool_decide (sri_tries s <> 0%nat) && _) eqn:Hidle.
  { split; [done|]. split; [done|]. split; [done|]. left. apply Hfresh.
    apply andb_prop in Hidle as [Ht%bool_decide_eq_true Hl%Z.ltb_lt]. by split. }
  destruct (timeout <? _); [done|].
  assert (due now s = true) as Hdue.
  { unfold due. destruct (sri_tries s); [done|]. cbn [orb bool_decide].
    rewrite bool_decide_true in Hidle by done. cbn [andb] in Hidle. apply Z.ltb_ge in Hidle.
    rewrite (proj2 (Z.eqb_neq _ _)) by lia. by rewrite orb_true_r. }
  pose proof (poll_send_socket con (sr_packet full_rec)) as Hsock.
  destruct (poll_send_udp_packet con (sr_packet full_rec)) as [[|[u|e|]] con1]; [..|done].
  - destruct Hsock as [Hblock ->]. split; [done|]. split; [done|]. split; [done|]. by right.
  - destruct Hsock as [[x Hx] Hcon1].
    assert (con_live con1 /\ resender con1 = resender con /\ is_client con1 = is_client con)
      as (Hlive1 & Hr1 & Hk1) by by rewrite Hcon1.
    eapply safe_bind.
    { apply returns_safe. apply (sent_record_spec con1 i qi s full_rec m); rewrite ?Hr1; done. }
    intros con2 (Hlive2 & Hp & Hs2 & Hk2). rewrite Hr1 in Hp. split; [done|].
    split; [congruence|]. split; [done|]. right.
    exists x. by rewrite Hs2.
  - done.
Qed.

(** What the loop is asked for. *)
Definition resend_result (con con' : Connection) (now : Z) : Prop :=
  con_live con' /\ is_client con' = is_client con /\
  waiting_ids (resender con') = waiting_ids (resender con) /\
  (all_sent con' now \/ would_block (udp_socket con) (udp_socket con')).

Lemma resend_result_step con con1 con' now :
  progress (resender con) (resender con1) now -> is_client con1 = is_client con ->
  (udp_socket con1 = udp_socket con \/ exists x, udp_socket con = x :: udp_socket con1) ->
  resend_result con1 con' now -> resend_result con con' now.
Proof.
  intros (Hids & _) Hk Hs (Hlive & Hk' & Hids' & Hend). split; [done|]. split; [congruence|].
  split; [congruence|].
  destruct Hend as [?|Hb]; [by left|right].
  destruct Hs as [<-|[x ->]]; [done|by apply would_block_cons].
Qed.

(** From a heap that only filling built: the number of records that can still be sent, and then
    the rest of the heap, decrease. *)
Lemma resend_loop_synced fuel con timeout now : con_live con -> 0 < timeout ->
  resender_synced (resender con) ->
  (due_count (full_send_queue (resender con)) now * S (waiting_count (resender con))
    + resender_work (resender con) now < fuel)%nat ->
  exists r, resend_loop fuel con timeout now = Some r /\
    safe (fun con' => resend_result con con' now) r.
Proof.
  intros Hlive Htime. revert con Hlive. induction fuel as [|fuel IH]; intros con Hlive Hsync Hfuel; [lia|].
  cbn [resend_loop]. pose proof (resend_step_spec con timeout now Hlive Htime) as Hstep.
  destruct (resend_step con timeout now) as [[[] con1]|e|]; [| |by eauto|done].
  2: { destruct Hstep as (Hlive1 & Hk1 & Hr1 & Hend). eexists. split; [done|]. split; [done|].
    split; [done|].
    split; [by rewrite Hr1|done]. }
  destruct Hstep as (Hlive1 & Hk1 & Hprog & Hs).
  pose proof Hprog as (Hids & Hd & Hcases). pose proof (waiting_ids_count _ _ Hids) as Hcount.
  destruct (IH con1 Hlive1) as (r & -> & Hres).
  - destruct Hcases as [[_ Hsy]|(_ & Hsy & _)]; auto.
  - rewrite Hcount. destruct Hcases as [[Hw _]|(Hw & _ & Hdd)]; [nia|]. specialize (Hdd Hsync). nia.
  - exists r. split; [done|]. eapply safe_weaken; [exact Hres|]. intros con'.
    by apply resend_result_step.
Qed.

Lemma resend_loop_any fuel con timeout now : con_live con -> 0 < timeout ->
  (resender_work (resender con) now
    + S (waiting_count (resender con)) * S (waiting_count (resender con)) < fuel)%nat ->
  exists r, resend_loop fuel con timeout now = Some r /\
    safe (fun con' => resend_result con con' now) r.
Proof.
  intros Hlive Htime. revert con Hlive. induction fuel as [|fuel IH]; intros con Hlive Hfuel; [lia|].
  cbn [resend_loop]. pose proof (resend_step_spec con timeout now Hlive Htime) as Hstep.
  destruct (resend_step con timeout now) as [[[] con1]|e|]; [| |by eauto|done].
  2: { destruct Hstep as (Hlive1 & Hk1 & Hr1 & Hend). eexists. split; [done|]. split; [done|].
    split; [done|].
    split; [by rewrite Hr1|done]. }
  destruct Hstep as (Hlive1 & Hk1 & Hprog & Hs).
  pose proof Hprog as (Hids & Hd & Hcases). pose proof (waiting_ids_count _ _ Hids) as Hcount.
  assert (exists r, resend_loop fuel con1 timeout now = Some r /\
    safe (fun con' => resend_result con1 con' now) r) as (r & -> & Hres).
  { destruct Hcases as [[Hw _]|(Hw & Hsy & _)].
    - apply IH; [done|]. rewrite Hcount. lia.
    - apply resend_loop_synced; [done..|]. rewrite Hcount.
      pose proof (count_le (due_entry now) (mjoin (full_send_queue (resender con1)))) as Hle.
      fold (due_count (full_send_queue (resender con1)) now) in Hle.
      fold (waiting_count (resender con1)) in Hle. rewrite Hcount in Hle. nia. }
  exists r. split; [done|]. eapply safe_weaken; [exact Hres|]. intros con'. by apply resend_result_step.
Qed.

Lemma get_timeout_pos r : 0 < connecting_timeout (config r) -> 0 < normal_timeout (config r) ->
  0 < disconnect_timeout (config r) -> 0 < get_timeout r.
Proof. intros. unfold get_timeout. by destruct (state r). Qed.

Lemma poll_resend_result con now : con_live con -> 0 < get_timeout (resender con) ->
  exists r, poll_resend con now = Some r /\ safe (fun con' => resend_result con con' now) r.
Proof.
  intros Hlive Ht. unfold poll_resend. apply resend_loop_any; [done|done|].
  unfold resend_fuel, resender_work, queue_work.
  pose proof (count_le (active (full_send_queue (resender con)) now) (send_queue (resender con))).
  pose proof (unscheduled_le (full_send_queue (resender con)) (send_queue_indices (resender con))) as Hu.
  fold (waiting_count (resender con)) in Hu. nia.
Qed.

(** C18: polling the resender terminates, from every state of the heap (also one with stale and
    duplicated entries), without a panic.  Unless the connection times out or the socket fails, no
    waiting packet is dropped, and in the end either the socket does not accept more, or every
    entry of the send queue was sent at least once and less than one retransmission timeout ago.
    A retransmission timeout of zero would make the loop run forever. *)
Theorem poll_resend_complete (con : Connection) (now : Z) (Hlive : con_live con)
    (Hc : 0 < connecting_timeout (config (resender con)))
    (Hn : 0 < normal_timeout (config (resender con)))
    (Hd : 0 < disconnect_timeout (config (resender con))) :
  exists r, poll_resend con now = Some r /\
    safe (fun con' => con_live con' /\ waiting_ids (resender con') = waiting_ids (resender con) /\
      (all_sent con' now \/ would_block (udp_socket con) (udp_socket con'))) r.
Proof.
  destruct (poll_resend_result con now Hlive) as (r & -> & Hr); [by apply get_timeout_pos|].
  exists r. split; [done|]. eapply safe_weaken; [exact Hr|]. by intros con' (? & _ & ?).
Qed.

End resend.

(** A client with one waiting command, and a socket that takes two datagrams. *)
Definition polled_client : Connection := set_socket waiting_client [SendSize 14; SendSize 14] [].

Lemma polled_client_live : con_live polled_client.
Proof.
  split; [exact waiting_client_ok|]. split; [split; [|constructor]|split; [|done]].
  - intros i m k r Hm Hin. destruct i as [|[|[|i]]]; simplify_eq/=;
      try (by apply not_elem_of_nil in Hin). by apply list_elem_of_singleton in Hin as [= -> ->].
  - intros p Hp. cbn in Hp. apply list_elem_of_singleton in Hp as ->.
    exists C2S, {| l_mac := replicate 8 0; l_id := [0; 7]; l_cid := [0; 1]; l_byte := 2 |}, [99], Command.
    split; [|done]. split; [done|]. split; [done|]. split; [done|].
    unfold layout_bytes. cbn [l_mac l_id l_cid l_byte].
    rewrite !bytes_app. split; [by apply Forall_replicate|].
    split; [by apply Forall_cons; split; [|apply Forall_singleton]|].
    split; [by apply Forall_cons; split; [|apply Forall_singleton]|by apply Forall_singleton].
Qed.

Lemma poll_resend_complete_witness : exists r,
  poll_resend (H4 := release_profile) polled_client 2000000000 = Some r /\
  is_ok r = true.
Proof.
  destruct (poll_resend_complete (H8 := release_profile) eq_refl polled_client 2000000000)
    as (r & Hr & _).
  - apply polled_client_live.
  - reflexivity.
  - reflexivity.
  - reflexivity.
  - exists r. split; [exact Hr|]. vm_compute in Hr. injection Hr as <-. reflexivity.
Defined.
