(* ===== verification/PollSafety.v ===== *)
(** The poll of a whole connection: it terminates and does not panic, whatever the socket and the
    network do.  Acks only remove waiting packets, the round trip time stays a time, and the timeouts
    stay as they were set: so a connection that was polled can be polled again. *)
From S2P Require Import Prelude ByteIO Packets InitPackets AudioData PacketId Algorithms Codec.
From S2P Require Import Encode BTree Resend Stats Connection Safety Trust Poll Frames ResendLoop.
From stdpp Require Import strings.
#[local] Open Scope Z_scope.

(** * Timeouts *)

(** The configured timeouts. *)
Definition timeouts (r : Resender) : Z * Z * Z :=
  (connecting_timeout (config r), normal_timeout (config r), disconnect_timeout (config r)).

Definition same_timeouts (a b : Connection) : Prop := timeouts (resender b) = timeouts (resender a).

#[global] Instance same_timeouts_preorder : PreOrder same_timeouts.
Proof. split; [done|]. intros a b c Hab Hbc. unfold same_timeouts in *. congruence. Qed.

Definition timeouts_pos (r : Resender) : Prop :=
  0 < connecting_timeout (config r) /\ 0 < normal_timeout (config r) /\ 0 < disconnect_timeout (config r).

Lemma timeouts_pos_same a b : same_timeouts a b -> timeouts_pos (resender a) -> timeouts_pos (resender b).
Proof. unfold same_timeouts, timeouts, timeouts_pos. intros [= -> -> ->]. done. Qed.

(** * Waiting packets *)

(** The round trip time and its deviation are times. *)
Definition rtt_ok (r : Resender) : Prop := 0 <= srtt (config r) /\ 0 <= srtt_dev (config r).

Definition fewer (a b : Resender) : Prop :=
  timeouts b = timeouts a /\ send_queue b = send_queue a /\
  (forall i m', full_send_queue b !! i = Some m' -> exists m, full_send_queue a !! i = Some m /\ m' ⊆ m) /\
  (rtt_ok a -> rtt_ok b).

Definition shrinks (a b : Connection) : Prop := fewer (resender a) (resender b).

#[global] Instance fewer_preorder : PreOrder fewer.
Proof.
  split; [intros a; split; [done|]; split; [done|]; split; [|done]; eauto|].
  intros a b c (Ht & Hq & Hf & Hr) (Ht' & Hq' & Hf' & Hr'). split; [congruence|]. split; [congruence|].
  split; [|auto]. intros i m'' Hm''. destruct (Hf' i m'' Hm'') as (m' & Hm' & Hs').
  destruct (Hf i m' Hm') as (m & Hm & Hs). exists m. split; [done|]. by etrans.
Qed.

#[global] Instance shrinks_preorder : PreOrder shrinks.
Proof.
  split; [intros a; unfold shrinks; reflexivity|]. intros a b c Hab Hbc. unfold shrinks in *. by etrans.
Qed.

Lemma shrinks_same a b : resender b = resender a -> shrinks a b.
Proof. intros Heq. unfold shrinks. by rewrite Heq. Qed.

Lemma fewer_times r s pings recv send : fewer r (with_times r s pings recv send).
Proof. split; [done|]. split; [done|]. split; [|done]. eauto. Qed.

Lemma fewer_srtt r sample : 0 <= sample -> fewer r (update_srtt r sample).
Proof.
  intros Hs. split; [done|]. split; [done|]. split; [eauto|]. intros [Hr Hd]. unfold rtt_ok, update_srtt.
  cbn [config with_rtt srtt srtt_dev].
  assert (0 <= (if srtt (config r) <? sample then sample - srtt (config r) else srtt (config r) - sample)).
  { destruct (Z.ltb_spec (srtt (config r)) sample); lia. }
  split; apply Z.add_nonneg_nonneg; apply Z.div_pos; lia.
Qed.

Lemma bt_remove_incl {V} k (m : list (PartialPacketId * V)) : bt_remove k m ⊆ m.
Proof.
  induction m as [|[k' v'] m IH]; [done|]. cbn [bt_remove]. case_bool_decide.
  - intros x Hx. by right.
  - intros x [->|Hx]%elem_of_cons; [by left|right; by apply IH].
Qed.

Lemma fewer_remove r i queue id : full_send_queue r !! i = Some queue ->
  fewer r (with_queues r (send_queue r) (<[i := bt_remove id queue]> (full_send_queue r)) (send_queue_indices r)).
Proof.
  intros Hi. split; [done|]. split; [done|]. split; [|done]. cbn [full_send_queue with_queues].
  intros j m' Hj. apply list_lookup_insert_Some in Hj as [(-> & <- & _)|[_ Hj]]; [|eauto].
  exists queue. split; [done|apply bt_remove_incl].
Qed.

(** * What the resender needs *)

(** A connection as a poll leaves it. *)
Definition con_steady (con : Connection) : Prop :=
  con_ok con /\ resender_typed (resender con) /\
  (forall p, p ∈ mjoin (full_send_queue (resender con)) -> out_shape (sr_packet (snd p))) /\
  rtt_ok (resender con) /\ timeouts_pos (resender con).

Lemma con_steady_live con : con_steady con -> 0 < srtt (config (resender con)) -> con_live con.
Proof. intros (? & ? & ? & [_ Hd] & _) ?. by repeat (split; [done|]). Qed.

Lemma con_steady_shrinks con con' : con_steady con -> con_ok con' -> shrinks con con' -> con_steady con'.
Proof.
  intros (_ & [Ht Hq] & Hout & Hr & Hp) Hok Hs. pose proof Hs as (Hto & Hsq & Hf & Hr').
  split; [done|]. split.
  { split; [|by rewrite Hsq]. intros i m' k rec Hm' Hin. destruct (Hf i m' Hm') as (m & Hm & Hsub).
    by apply (Ht i m k rec Hm), Hsub. }
  split.
  { intros p (m' & Hin & Hm')%list_elem_of_join. apply list_elem_of_lookup in Hm' as [i Hm'].
    destruct (Hf i m' Hm') as (m & Hm & Hsub). apply Hout, list_elem_of_join. exists m.
    split; [by apply Hsub|]. by eapply list_elem_of_lookup_2. }
  split; [by apply Hr'|]. by apply (timeouts_pos_same con con').
Qed.

Section steady.
Context `{BeIo, Quicklz, EaxCipher, Sha256, Cubic, Profile}.

(** * Acks *)

Lemma ack_command_fewer r t p_id next now :
  ensures (fun '(r', _) => fewer r r') (ack_command r t p_id next now).
Proof.
  unfold ack_command. apply ensures_any. intros i. unfold index.
  destruct (full_send_queue r !! i) as [queue|] eqn:Hi; [|exact I]. cbn [unwrap res_bind].
  assert (fewer r r) as Hrefl by reflexivity.
  destruct queue as [|[first rec0] rest]; [exact Hrefl|]. apply ensures_any. intros [id item].
  destruct (bt_lookup id _) as [rec|]; [|exact Hrefl]. cbn [ensures].
  pose proof (fewer_remove r i _ id Hi) as Hf. case_bool_decide; [|exact Hf].
  etrans; [exact Hf|]. apply fewer_srtt. unfold since. lia.
Qed.

Lemma ack_packet_shrinks con t id now : ensures (shrinks con) (ack_packet con t id now).
Proof.
  unfold ack_packet. case_bool_decide.
  { unfold shrinks. cbn [ensures resender set_resender]. unfold ack_ping.
    destruct (binary_search _ _ _) as [i|]; [|done]. destruct (last_pings _ !! i) as [p|]; [|done].
    etrans; [apply fewer_times|]. apply fewer_srtt. unfold since. lia. }
  apply (ensures_bind (fun '(r, _) => fewer (resender con) r)).
  - apply ensures_map_err, ack_command_fewer.
  - intros [r [item|]] Hr; exact Hr.
Qed.

(** * Sending *)

Definition same_resender (a b : Connection) : Prop := resender b = resender a.

Lemma poll_send_resender con u : same_resender con (poll_send_udp_packet con u).2.
Proof. unfold poll_send_udp_packet. by destruct (udp_socket con) as [|[| |n] rest]. Qed.

Lemma count_outgoing_resender con u : ensures (same_resender con) (count_outgoing con u).
Proof. unfold count_outgoing. apply ensures_any. intros t. apply ensures_any. by intros [c s]. Qed.

Lemma send_ack_packet_resender con packet : ensures (same_resender con) (send_ack_packet con packet).
Proof.
  unfold send_ack_packet, Connection_encode.
  apply (ensures_bind (fun '(_, con') => same_resender con con')); [apply ensures_any; by intros [[us ps] c]|].
  intros [us con1] Hs. destruct us as [|u [|]]; try done.
  pose proof (poll_send_resender con1 u) as Hp. unfold same_resender in *.
  destruct (poll_send_udp_packet con1 u) as [[|[[]|e|]] con2]; try done; simpl in *; [congruence|].
  eapply ensures_weaken; [apply count_outgoing_resender|]. intros c Hc. unfold same_resender in *. congruence.
Qed.

Lemma reply_ack_shrinks con t id : ensures (shrinks con) (reply_ack con t id).
Proof.
  unfold reply_ack. apply ensures_any. intros ack.
  eapply ensures_weaken; [apply send_ack_packet_resender|]. apply shrinks_same.
Qed.

(** * Receiving *)

Lemma decrypt_content_resender con packet t id gen :
  ensures (fun '(_, con') => same_resender con con') (decrypt_content con packet t id gen).
Proof.
  unfold decrypt_content.
  match goal with |- context [if _ then _ else ?m] => set (with_params := m) end.
  assert (ensures (fun '(_, con') => same_resender con con') with_params) as Hw.
  { subst with_params. destruct (params con) as [ps|]; [|done]. apply ensures_any. by intros [r cache]. }
  destruct (_ || _); [|exact Hw]. by destruct (decrypt_fake packet).
Qed.

Lemma open_packet_resender con packet data t id gen :
  ensures (fun '(_, con') => same_resender con con') (open_packet con packet data t id gen).
Proof.
  unfold open_packet. apply ensures_any. intros flags. destruct (negb _); [|by destruct (must_encrypt t)].
  destruct (_ && _); [done|]. eapply ensures_bind; [apply decrypt_content_resender|].
  intros [r con1] Hs. destruct r; try done. by case_bool_decide.
Qed.

Lemma handle_commands_shrinks commands : forall con now,
  ensures (shrinks con) (handle_commands con commands now).
Proof.
  induction commands as [|c commands IH]; intros con now; [by apply shrinks_same|]. cbn [handle_commands].
  apply ensures_any. intros packet. apply (ensures_bind (shrinks con)).
  - repeat (destruct (_ && _); [apply ack_packet_shrinks|]). by apply shrinks_same.
  - intros con1 Hs. eapply ensures_weaken; [apply IH|]. intros c' Hc'. by etrans; [exact Hs|].
Qed.

Lemma handle_other_shrinks con data t id gen now :
  ensures (shrinks con) (handle_other con data t id gen now).
Proof.
  unfold handle_other. apply ensures_any. intros packet. apply (ensures_bind (same_resender con)).
  { case_bool_decide; [done|]. destruct (overflowing _ _) as [id' g]. by apply ensures_any. }
  intros con1 Hs. apply shrinks_same in Hs. destruct (InPacket_ack_packet packet) as [acked|e|]; [|done..].
  apply (ensures_bind (shrinks con)).
  { destruct acked; [|done]. eapply ensures_weaken; [apply ack_packet_shrinks|]. intros c. by etrans; [exact Hs|]. }
  intros con2 Hs2. destruct (PacketType_is_voice t); [by apply ensures_any|].
  case_bool_decide; [by apply ensures_any|done].
Qed.

Lemma handle_plain_shrinks con data t id gen now :
  ensures (shrinks con) (handle_plain con data t id gen now).
Proof.
  unfold handle_plain. destruct (PacketType_is_command t); [|apply handle_other_shrinks].
  apply ensures_any. intros [c commands]. apply (handle_commands_shrinks commands (set_codec con c) now).
Qed.

Lemma handle_udp_packet_shrinks con data now :
  ensures (shrinks con) (PacketCodec_handle_udp_packet con data now).
Proof.
  unfold PacketCodec_handle_udp_packet. do 3 (apply ensures_any; intros).
  apply ensures_any. intros [[[in_win gen] cur] limit].
  apply (ensures_bind (same_resender con)).
  { unfold count_incoming. apply ensures_any. by intros [c s]. }
  intros con1 Hs%shrinks_same. apply ensures_any. intros [e|]; [done|]. destruct (_ || _).
  - eapply ensures_bind; [apply open_packet_resender|]. intros [plain con2] Hs2%shrinks_same.
    assert (shrinks con con2) as Hs3 by by etrans.
    destruct plain as [d|]; [|done]. eapply ensures_bind; [apply handle_plain_shrinks|].
    intros con3 H3'. assert (shrinks con con3) as Hs4 by by etrans.
    destruct (_ || _); [|done]. eapply ensures_weaken; [apply reply_ack_shrinks|].
    intros c Hc. by etrans; [exact Hs4|].
  - apply (ensures_bind (shrinks con)); [destruct (PacketType_is_command _); [by apply ensures_any|done]|].
    intros con2 Hs2. destruct (PacketType_is_command _); [|done].
    eapply ensures_weaken; [apply reply_ack_shrinks|]. intros c Hc. by etrans; [exact Hs2|].
Qed.

Lemma Connection_handle_shrinks con data addr now :
  ensures (shrinks con) (Connection_handle_udp_packet con data addr now).
Proof.
  unfold Connection_handle_udp_packet. case_bool_decide; [|by apply shrinks_same]. cbn [negb].
  destruct (InPacket_try_new _ _); [|by apply shrinks_same|done].
  eapply ensures_weaken;
    [apply (handle_udp_packet_shrinks (set_resender con (received_packet (resender con) now)))|].
  intros c Hc. etrans; [|exact Hc]. apply fewer_times.
Qed.

(** * Resending *)

Lemma fill_up_timeouts r now : timeouts (fill_up_send_queue r now) = timeouts r.
Proof.
  unfold fill_up_send_queue. destruct (fill_loop _ _ _ _) as [[q idx] []]; [done|].
  by destruct (no_congestion_since _).
Qed.

Lemma sent_record_timeouts con i qi rec full_rec timeout now :
  ensures (same_timeouts con) (sent_record con i qi rec full_rec timeout now).
Proof.
  unfold sent_record. apply (ensures_bind (same_resender con)).
  { case_bool_decide; [by apply ensures_any|done]. }
  intros con1 Hr1. cbv zeta. apply ensures_any. intros q.
  eapply ensures_bind; [apply count_outgoing_resender|]. intros con2 Hr2.
  assert (same_timeouts con con2) as Hs.
  { unfold same_timeouts, same_resender in *. rewrite Hr2. cbn [resender set_resender]. by rewrite Hr1. }
  case_bool_decide; [|exact Hs]. unfold same_timeouts in *. cbn [ensures resender set_resender].
  unfold rebuild_send_queue. by rewrite fill_up_timeouts.
Qed.

Lemma resend_step_timeouts con timeout now :
  ensures (fun '(_, con') => same_timeouts con con') (resend_step con timeout now).
Proof.
  unfold resend_step. cbv zeta. destruct (heap_max _) as [[i rec]|]; [|done].
  do 2 (apply ensures_any; intros). destruct (bt_lookup _ _) as [full_rec|].
  2: { unfold same_timeouts. cbn [ensures resender set_resender]. by rewrite fill_up_timeouts. }
  destruct (_ && _); [done|]. destruct (_ <? _); [done|].
  pose proof (poll_send_resender con (sr_packet full_rec)) as Hp.
  assert (same_timeouts con (poll_send_udp_packet con (sr_packet full_rec)).2) as Ht
    by (unfold same_timeouts, same_resender in *; by rewrite Hp).
  destruct (poll_send_udp_packet _ _) as [[|[[]|e|]] con1]; try done.
  eapply ensures_bind; [apply sent_record_timeouts|]. intros con2 H2'. by etrans.
Qed.

Lemma resend_loop_timeouts fuel : forall con timeout now con',
  resend_loop fuel con timeout now = Some (Ok con') -> same_timeouts con con'.
Proof.
  induction fuel as [|fuel IH]; intros con timeout now con' Hl; [done|]. cbn [resend_loop] in Hl.
  pose proof (resend_step_timeouts con timeout now) as Hs.
  destruct (resend_step con timeout now) as [[[] con1]|e|]; simpl in Hs; try done.
  - etrans; [exact Hs|]. by eapply IH.
  - by injection Hl as <-.
Qed.
End steady.

(** * The timers of [poll_ping] *)

Section timers.
Context `{BeIo, Quicklz, EaxCipher, Sha256, Cubic, Profile}.

(** After one tick the next one is in the future. *)
Lemma stats_loop_terminates con now : exists r, stats_loop 2 con now = Some r.
Proof.
  cbn [stats_loop]. destruct (last_stat con + STAT_SECONDS <=? now); [|by eauto].
  destruct (packet_op _) as [[c s]|e|]; [|by eauto..]. cbn [last_stat push_item set_items set_stats].
  destruct (Z.leb_spec (now + STAT_SECONDS) now) as [Hle|_]; [|by eauto].
  unfold STAT_SECONDS, second in Hle. lia.
Qed.

Lemma fill_up_times r now : last_pings (fill_up_send_queue r now) = last_pings r /\
  last_receive (fill_up_send_queue r now) = last_receive r.
Proof.
  unfold fill_up_send_queue. destruct (fill_loop _ _ _ _) as [[q idx] ran].
  destruct ran; [done|]. by destruct (no_congestion_since _).
Qed.

Lemma send_packet_times r u now r' : send_packet r u now = Ok r' ->
  last_pings r' = last_pings r /\ last_receive r' = last_receive r.
Proof.
  unfold send_packet. intros Hs. inv_binds. subst r'.
  destruct (fill_up_times (with_queues (with_times r (state r) (last_pings r) (last_receive r) now)
    (send_queue r) (<[a0:=bt_insert (pid_part a) {| sr_sent := now;
      sr_id := {| sri_last := now; sri_tries := 0; sri_id := a |}; sr_packet := u |} a2]>
      (full_send_queue r))
    (if PartialPacketId_lt (pid_part a) a1 then <[a0:=pid_part a]> (send_queue_indices r)
     else send_queue_indices r)) now) as [Hp Hr].
  split; [exact Hp|exact Hr].
Qed.

Lemma send_udp_packet_times con u now con' : send_udp_packet con u now = Ok con' ->
  last_pings (resender con') = last_pings (resender con) /\
  last_receive (resender con') = last_receive (resender con).
Proof.
  unfold send_udp_packet. intros Hs. apply res_bind_ok in Hs as (t & _ & Hs).
  assert (forall m, (let? r := packet_op m in Ok (set_resender con r)) = Ok con' ->
    exists r, m = Ok r /\ con' = set_resender con r) as Hinv.
  { intros m Hm. apply res_bind_ok in Hm as (r & Hr & [= <-]). exists r.
    by destruct m; simplify_eq/=. }
  destruct t; try (by injection Hs as <-);
    apply Hinv in Hs as (r & Hr & ->); by apply (send_packet_times _ _ _ _ Hr).
Qed.

Lemma send_udp_packets_times l : forall con now con', send_udp_packets con l now = Ok con' ->
  last_pings (resender con') = last_pings (resender con) /\
  last_receive (resender con') = last_receive (resender con).
Proof.
  induction l as [|u l IH]; intros con now con' Hs; [by injection Hs as <-|].
  cbn [send_udp_packets] in Hs. apply res_bind_ok in Hs as (con1 & H1' & H2').
  apply send_udp_packet_times in H1' as [Hp Hr]. apply IH in H2' as [-> ->]. done.
Qed.

(** Sending a ping records it as the last one, sent now. *)
Lemma send_ping_last con now con' : send_ping con now = Ok con' ->
  (exists p, list.last (last_pings (resender con')) = Some p /\ ping_sent p = now) /\
  last_receive (resender con') = last_receive (resender con).
Proof.
  unfold send_ping. intros Hs. apply res_bind_ok in Hs as (packet & _ & Hs).
  apply res_bind_ok in Hs as ([id con1] & Hsend & [= <-]).
  unfold Connection_send_packet in Hsend. apply res_bind_ok in Hsend as ([us con2] & Henc & Hsend).
  apply res_bind_ok in Hsend as (u & _ & Hsend). apply res_bind_ok in Hsend as (id' & _ & Hsend).
  apply res_bind_ok in Hsend as (con3 & Hsend & [= <- <-]).
  apply send_udp_packets_times in Hsend as [Hp Hr].
  unfold Connection_encode in Henc. apply res_bind_ok in Henc as ([[us' ps] c] & _ & [= <- <-]).
  cbn [resender set_codec set_params] in Hp, Hr.
  cbn [resender set_resender last_pings last_receive with_times]. split; [|exact Hr].
  eexists {| ping_id := _; ping_sent := now |}. split; [|reflexivity].
  case_bool_decide as Hlen; [|apply last_snoc].
  destruct (last_pings (resender con3)) as [|p pings]; [unfold PING_COUNT in Hlen; simpl in Hlen; lia|].
  cbn [app drop]. apply last_snoc.
Qed.

Lemma ping_loop_terminates con now : exists r, ping_loop 2 con now = Some r.
Proof.
  assert (0 < PING_SECONDS) as Hpos by done.
  cbn [ping_loop]. set (choice := match list.last (last_pings (resender con)) with Some _ => _ | None => _ end).
  destruct choice as [next pings]. set (con1 := set_resender con _).
  destruct (next <=? now); [|by eauto]. destruct (pings_lost pings); [by eauto|].
  destruct (send_ping con1 now) as [con2| |] eqn:Hs; [|by eauto..].
  apply send_ping_last in Hs as ((p & -> & Hp) & _). rewrite Hp.
  destruct (Z.ltb_spec (last_receive (resender con2)) now) as [Hlt|Hge].
  - destruct (Z.leb_spec (now + PING_SECONDS) now); [lia|by eauto].
  - destruct (Z.leb_spec (last_receive (resender con2) + PING_SECONDS) now); [lia|by eauto].
Qed.

Lemma poll_ping_terminates con now : exists r, poll_ping con now = Some r.
Proof.
  unfold poll_ping. destruct (_ && _); [by eauto|].
  destruct (stats_loop_terminates con now) as [r ->]. destruct r as [con1|e|]; [|by eauto..].
  destruct (_ && _); [apply ping_loop_terminates|by eauto].
Qed.

End timers.

(** * No panics *)

Section safety.
Context `{BeIoLaws, QuicklzLaws, EaxLaws, Sha256Laws, Cubic, Profile}.
Context (Hrelease : overflow_checks = false).

Lemma poll_send_acks_safe con : con_live con ->
  safe (fun con' => con_live con' /\ resender con' = resender con /\ is_client con' = is_client con)
    (poll_send_acks con).
Proof.
  intros Hlive. unfold poll_send_acks.
  assert (Forall out_shape (acks_to_send con)) as Hall by apply Hlive.
  revert Hall. generalize (acks_to_send con). intros acks. revert con Hlive.
  induction acks as [|u acks IH]; intros con Hlive Hall; cbn [poll_send_acks_loop].
  { destruct Hlive as ((? & ? & ? & ? & ? & _) & Hrest). by repeat (split; [done|]). }
  pose proof Hall as [Hu Hall']%Forall_cons.
  pose proof (poll_send_socket con u) as Hs.
  destruct (poll_send_udp_packet con u) as [[|[x|e|]] con1]; [..|done].
  - destruct Hs as [_ ->]. destruct Hlive as ((? & ? & ? & ? & ? & _) & Hrest). by repeat (split; [done|]).
  - destruct Hs as [_ Hcon1].
    assert (con_live con1 /\ resender con1 = resender con /\ is_client con1 = is_client con)
      as (Hlive1 & Hr1 & Hk1) by by rewrite Hcon1.
    eapply safe_bind; [apply returns_safe, (count_outgoing_only Hrelease con1 u (proj1 Hlive1) Hu)|].
    intros con2 (Hok2 & Hr2 & _ & Hk2). eapply safe_weaken; [apply (IH con2)|].
    + split; [done|]. rewrite Hr2. apply Hlive1.
    + done.
    + intros con3 (? & ? & ?). split; [done|]. split; congruence.
  - done.
Qed.

(** The connection after a timer or a datagram. *)
Definition kept (con con' : Connection) : Prop :=
  con_ok con' /\ is_client con' = is_client con /\ shrinks con con'.

Lemma kept_refl con : con_ok con -> kept con con.
Proof. intros Hok. split; [done|]. split; [done|]. by apply shrinks_same. Qed.

Lemma kept_trans a b c : is_client b = is_client a -> shrinks a b -> kept b c -> kept a c.
Proof. intros Hk Hs (Hok & Hk' & Hs'). split; [done|]. split; [congruence|]. by etrans. Qed.

Lemma stats_loop_safe fuel : forall con now, con_ok con ->
  forall r, stats_loop fuel con now = Some r -> safe (kept con) r.
Proof.
  induction fuel as [|fuel IH]; intros con now Hok r Hr; [done|]. cbn [stats_loop] in Hr.
  destruct (last_stat con + STAT_SECONDS <=? now); [|by injection Hr as <-; apply kept_refl].
  destruct Hok as (Hc & Hp & Hre & [Hcb Hcl] & (Hs1 & Hs2 & Hs3 & Hs4 & Hs5) & Ha).
  assert (returns (fun '(c, s) => counter_ok c /\ stats_ok s)
    (packet_op (stats_tick (stats_counter con) (stats con)))) as Ht.
  { apply returns_map_err. unfold stats_tick. rewrite set_index_ok by lia. cbn [res_bind].
    rewrite arith_ok by (unfold is_uint; lia). cbn [res_bind returns].
    split; [done|]. repeat split; cbn; rewrite ?length_insert; try lia; apply Z.mod_pos_bound; lia. }
  destruct (packet_op _) as [[c s]|e|]; [|done..]. destruct Ht as [Hc' Hs'].
  apply IH in Hr.
  { eapply safe_weaken; [exact Hr|]. intros con'. apply kept_trans; [done|by apply shrinks_same]. }
  split; [exact Hc|]. split; [exact Hp|]. split; [exact Hre|]. by split.
Qed.

Lemma with_times_ok con s pings recv send : con_ok con ->
  con_ok (set_resender con (with_times (resender con) s pings recv send)).
Proof. intros (? & ? & ? & Hrest). by repeat (split; [done|]). Qed.

Lemma send_ping_safe con now : con_ok con -> safe (kept con) (send_ping con now).
Proof.
  intros (Hc & Hp & Hrest). unfold send_ping. rewrite new_with_dir_layout by done.
  cbn [packet_op map_err res_bind].
  destruct (fresh_layout_read (out_dir (is_client con)) Flags_empty Packets.Ping ltac:(done)) as [_ Ht].
  unfold Connection_send_packet, Connection_encode.
  destruct (encode_ack_safe (is_client con) (params con) (codec con)
    (fresh_layout (out_dir (is_client con)) Flags_empty Packets.Ping) [] Packets.Ping)
    as (u & ps' & codec' & -> & Hu & Hut & Hps' & Hc'); [by apply fresh_layout_ok|done..|tauto|done|done|].
  cbn [res_bind list.last unwrap]. destruct Hu as (dir & L & content & t & HL & HLt & Hu).
  unfold PacketId_from, OutUdpPacket_packet_id. rewrite Hut. cbn [res_bind].
  rewrite bool_decide_false by done. rewrite Hu, header_layout by done. cbn [res_bind].
  destruct (shape_accessors dir L t HL HLt) as (id & _ & _ & -> & _).
  cbn [packet_op map_err res_bind send_udp_packets]. unfold send_udp_packet. rewrite Hut.
  cbn [packet_op map_err res_bind safe]. split; [|split; [done|apply fewer_times]]. apply with_times_ok.
  destruct Hrest as (Hr & ? & ? & Ha). split; [done|]. split; [done|]. split; [done|].
  split; [done|]. split; [done|]. cbn. apply Forall_app. split; [done|]. apply Forall_singleton.
  by exists dir, L, content, t.
Qed.

Lemma ping_loop_safe fuel : forall con now, con_ok con ->
  forall r, ping_loop fuel con now = Some r -> safe (kept con) r.
Proof.
  induction fuel as [|fuel IH]; intros con now Hok r Hr; [done|]. cbn [ping_loop] in Hr.
  set (choice := match list.last (last_pings (resender con)) with Some _ => _ | None => _ end) in Hr.
  destruct choice as [next pings]. set (con1 := set_resender con _) in Hr.
  assert (con_ok con1) as Hok1 by by apply with_times_ok.
  assert (shrinks con con1) as Hs1 by apply fewer_times.
  destruct (next <=? now); [|by injection Hr as <-; split].
  destruct (pings_lost pings); [by injection Hr as <-|].
  pose proof (send_ping_safe con1 now Hok1) as Hs.
  destruct (send_ping con1 now) as [con2|e|]; [|by injection Hr as <-|done].
  destruct Hs as (Hok2 & Hk2 & Hs2). apply IH in Hr; [|done]. eapply safe_weaken; [exact Hr|].
  intros con3. apply kept_trans; [by rewrite Hk2|by etrans; [exact Hs1|]].
Qed.

Lemma poll_ping_safe con now r : con_ok con -> poll_ping con now = Some r -> safe (kept con) r.
Proof.
  intros Hok. unfold poll_ping. destruct (_ && _); [by intros [= <-]|].
  destruct (stats_loop 2 con now) as [r1|] eqn:Hs; [|done].
  pose proof (stats_loop_safe 2 con now Hok r1 Hs) as Hsafe.
  destruct r1 as [con1|e|]; [|by intros [= <-]|done]. destruct Hsafe as (Hok1 & Hk1 & Hs1).
  destruct (_ && _); [|by intros [= <-]].
  intros Hr. apply ping_loop_safe in Hr; [|done]. eapply safe_weaken; [exact Hr|].
  intros con2. by apply kept_trans.
Qed.

(** The datagrams consist of bytes. *)
Definition recv_ok (r : RecvResult) : Prop :=
  match r with RecvData data _ => bytes data | _ => True end.

Lemma incoming_loop_safe recvs : forall con now, con_ok con -> is_client con = true ->
  Forall recv_ok recvs -> safe (fun '(_, con', _) => kept con con') (incoming_loop con recvs now).
Proof.
  induction recvs as [|[| |data addr] recvs IH]; intros con now Hok Hcl Hall; cbn [incoming_loop];
    [by apply kept_refl|by apply kept_refl|done|]. apply Forall_cons in Hall as [Hd Hall].
  pose proof (handle_datagram_safe Hrelease con (take MAX_UDP_PACKET_LENGTH data) addr now Hok Hcl
    (Forall_take _ _ _ Hd)) as Hs.
  pose proof (Connection_handle_shrinks con (take MAX_UDP_PACKET_LENGTH data) addr now) as Hsh.
  destruct (Connection_handle_udp_packet _ _ _ _) as [con1|e|]; [|done..]. destruct Hs as [Hok1 Hk1].
  cbn [ensures] in Hsh. destruct (stream_items con1).
  - eapply safe_weaken; [apply IH; [done|congruence|done]|]. intros [[p con2] rest]. by apply kept_trans.
  - split; [exact Hok1|]. split; [exact Hk1|]. etrans; [exact Hsh|]. by apply shrinks_same.
Qed.

Lemma con_steady_kept con con' : con_steady con -> kept con con' -> con_steady con' /\ is_client con' = is_client con.
Proof. intros Hs (Hok & Hk & Hsh). split; [by apply (con_steady_shrinks con)|done]. Qed.

Lemma con_live_steady con : con_live con -> timeouts_pos (resender con) -> con_steady con.
Proof. intros (? & ? & ? & ? & ?) Ht. do 3 (split; [done|]). split; [split; [lia|done]|done]. Qed.

(** C12: polling a client returns and does not panic (built without overflow checks), for every
    behaviour of the socket - refused, failed and partial sends - and every sequence of datagrams
    that arrives.  Before the poll the connection is steady: it is well-formed, every packet that
    waits is a packet of its queue, the round trip time and its deviation are not negative, and the
    timeouts that the user sets are positive; besides, the round trip time is positive.  After the
    poll the connection is steady and a client again, so that the next poll does not panic either.
    Only that the round trip time is still positive does not follow: acks that take less than 8 ns
    shrink it by an eighth, rounded down. *)
Theorem poll_next_safe (con : Connection) (recvs : list RecvResult) (now : Z)
    (Hcon : con_steady con) (Hrtt : 0 < srtt (config (resender con))) (Hcl : is_client con = true)
    (Hrecv : Forall recv_ok recvs) :
  exists r, poll_next con recvs now = Some r /\
    safe (fun '(_, con', _) => con_steady con' /\ is_client con' = true) r.
Proof.
  pose proof (con_steady_live con Hcon Hrtt) as Hlive. destruct Hcon as (_ & _ & _ & _ & Hpos).
  unfold poll_next. pose proof (poll_send_acks_safe con Hlive) as Ha.
  destruct (poll_send_acks con) as [con1|e|]; [|by eauto|done]. destruct Ha as (Hl1 & Hr1 & Hk1).
  assert (timeouts_pos (resender con1)) as Hpos1 by by rewrite Hr1.
  destruct (_ && _).
  { eexists. split; [done|]. split; [by apply con_live_steady|congruence]. }
  destruct (poll_resend_result Hrelease con1 now Hl1) as (r2 & Hr2 & H2'); [by apply get_timeout_pos; apply Hpos1|].
  rewrite Hr2. destruct r2 as [con2|e|]; [|by eauto|done]. destruct H2' as (Hl2 & Hk2 & _).
  assert (con_steady con2) as Hs2.
  { apply con_live_steady; [done|]. apply (timeouts_pos_same con1); [|done].
    unfold poll_resend in Hr2. by apply resend_loop_timeouts in Hr2. }
  destruct (poll_ping_terminates con2 now) as [r3 H3']. rewrite H3'.
  apply poll_ping_safe in H3'; [|by apply Hs2].
  destruct r3 as [con3|e|]; [|by eauto|done]. apply con_steady_kept in H3' as [Hs3 Hk3]; [|done].
  assert (is_client con3 = true) as Hcl3 by congruence.
  destruct (stream_items con3) as [|item items]; [|by eexists; split; [done|split; [exact Hs3|]]].
  eexists. split; [done|].
  unfold poll_incoming_udp_packet. destruct (_ <=? _); [done|].
  eapply safe_weaken; [apply incoming_loop_safe; [apply Hs3|done|done]|].
  intros [[p con4] rest] Hk4. apply con_steady_kept in Hk4 as [Hs4 Hk4]; [|done]. split; [done|congruence].
Qed.

End safety.

Lemma poll_next_safe_witness : exists r,
  poll_next (H4 := release_profile) polled_client
    [RecvData (layout_bytes (sample_layout 3 0x86) ++ [0; 7]) local_addr; RecvPending] 2000000000
    = Some r /\ is_ok r = true.
Proof.
  destruct (poll_next_safe (H8 := release_profile) eq_refl polled_client
    [RecvData (layout_bytes (sample_layout 3 0x86) ++ [0; 7]) local_addr; RecvPending] 2000000000)
    as (r & Hr & _).
  - apply con_live_steady; [apply polled_client_live|by split].
  - reflexivity.
  - reflexivity.
  - constructor; [|constructor; [done|constructor]]. cbn. apply bytes_app.
    split; [apply (sample_layout_ok 3 0x86); done|by repeat constructor].
  - exists r. split; [exact Hr|]. vm_compute in Hr. injection Hr as <-. reflexivity.
Defined.
