(* ===== verification/License.v ===== *)
(** Licenses ([license.rs]): the blocks of a license, their fields, the parser that checks the
    nested validity, and the derivation of keys.  Dates (the [time] crate), the group of the
    Ed25519 keys ([curve25519-dalek]), SHA-512 and the generated enum of license types are
    parameters with laws. *)
From S2P Require Import Prelude ByteIO Text.
From stdpp Require Import strings.
#[local] Open Scope Z_scope.

(** * Parameters *)

(** [OffsetDateTime]: a point in time, with the seconds since the epoch. *)
Class Calendar := {
  DateTime : Type;
  from_unix_timestamp : Z -> option DateTime;
  unix_timestamp : DateTime -> Z;
  date_ltb : DateTime -> DateTime -> bool;
}.

(** The supported dates end with the year 9999. *)
Class CalendarLaws `{Calendar} : Prop := {
  date_of_timestamp s : 0 <= s < 253402300800 ->
    exists d, from_unix_timestamp s = Some d /\ unix_timestamp d = s;
}.

(** Points of the curve, scalars and the hash function. *)
Class Ed25519 := {
  Point : Type;
  Scalar : Type;
  decompress_point : list Z -> option Point;
  compress_point : Point -> list Z;
  base_point : Point;
  point_add : Point -> Point -> Point;
  point_mul : Point -> Scalar -> Point;
  scalar_add : Scalar -> Scalar -> Scalar;
  scalar_mul : Scalar -> Scalar -> Scalar;
  scalar_from_bytes : list Z -> Scalar;
  sha512 : list Z -> list Z;
}.

Class Ed25519Laws `{Ed25519} : Prop := {
  decompress_compress p : decompress_point (compress_point p) = Some p;
  compress_length p : length (compress_point p) = 32%nat;
  point_mul_mul p a b : point_mul p (scalar_mul a b) = point_mul (point_mul p a) b;
  point_mul_add p a b : point_mul p (scalar_add a b) = point_add (point_mul p a) (point_mul p b);
  sha512_length l : length (sha512 l) = 64%nat;
}.

(** [LicenseType] is generated from a declaration file. *)
Class LicenseTypes := {
  LicenseType : Type;
  LicenseType_from_u8 : Z -> option LicenseType;
  LicenseType_to_u8 : LicenseType -> option Z;
}.

Class LicenseTypesLaws `{LicenseTypes} : Prop := {
  license_type_u8 t : exists b, LicenseType_to_u8 t = Some b /\ is_u8 b /\
    LicenseType_from_u8 b = Some t;
}.

(** * Data *)

Definition TIMESTAMP_OFFSET : Z := 0x50e22700.
Definition BLOCK_MIN_LEN : nat := 42.
Definition BLOCK_TYPE_OFFSET : nat := 33.
Definition BLOCK_NOT_VALID_BEFORE_OFFSET : nat := 34.
Definition BLOCK_NOT_VALID_AFTER_OFFSET : nat := 38.

Inductive LicenseBlockType :=
  | Intermediate | Website | Server | Code | Ts5Server | Ephemeral.

#[global] Instance LicenseBlockType_eq_dec : EqDecision LicenseBlockType.
Proof. solve_decision. Defined.

Definition LicenseBlockType_to_u8 (t : LicenseBlockType) : Z :=
  match t with
  | Intermediate => 0 | Website => 1 | Server => 2 | Code => 3 | Ts5Server => 8 | Ephemeral => 32
  end.

Definition LicenseBlockType_from_u8 (n : Z) : option LicenseBlockType :=
  match n with
  | 0 => Some Intermediate | 1 => Some Website | 2 => Some Server | 3 => Some Code
  | 8 => Some Ts5Server | 32 => Some Ephemeral
  | _ => None
  end.

Inductive InnerLicense :=
  | Inner_Ts5Server (properties : list nat)
  | Inner_Other.

Inductive LicenseProperty :=
  | Unknown1 (n : Z)
  | Issuer (s : list Z)
  | MaxClients (n : Z)
  | Unknown (id typ : Z) (data : list Z).

Section license.
Context `{BeIo} `{Calendar} `{Ed25519} `{LicenseTypes}.

Inductive LicenseError :=
  | Bounds (outer_start outer_end inner_start inner_end : DateTime)
  | Deserialize
  | DeserializeString
  | DeserializeDate
  | Expired (start end_ : DateTime)
  | InvalidPublicKey
  | IntermediateInvalidData (n : Z)
  | InvalidRootKey
  | NonterminatedString
  | NoPrivateKey
  | TooManyBlocks (n : nat)
  | TooShort (n : nat) (what : string)
  | UnknownBlockType (n : Z)
  | UnknownLicenseType (n : Z)
  | UnsupportedVersion (n : Z)
  | WrongKeyKind (n : Z)
  | NoSuchProperty (what : string)
  | WrongPropertyType (id expected actual : Z)
  | WrongPropertyLength (id typ expected actual : Z).

Record License := {
  len : nat;
  private_key : option Scalar;
  inner : InnerLicense;
}.

Record Licenses := {
  data : list Z;
  blocks : list License;
}.

Definition Licenses_default : Licenses := {| data := [1]; blocks := [] |}.

Definition LicenseTimeBounds : Type := DateTime * DateTime.

(** * Parsing one block *)

(** The iterator over the properties of a [Ts5Server] block; [pos] is the variable that the
    closure advances, [all] the length in its first error. *)
Fixpoint properties_loop (count : nat) (d : list Z) (all pos : nat)
    : res LicenseError (list nat * nat) :=
  match count with
  | O => Ok ([], pos)
  | S count =>
      if bool_decide (length d <= pos)%nat then Err (TooShort all "missing TS5 license property")
      else
      let? b := index d pos in
      let l := Z.to_nat b in
      if bool_decide (length d <= pos + 1 + l)%nat
      then Err (TooShort l "cut off TS5 license property") else
      let? '(ps, e) := properties_loop count d all (pos + 1 + l) in
      Ok ((pos - 2)%nat :: ps, e)
  end.

(** The null-terminated issuer after [skip] bytes. *)
Definition issuer_len (d : list Z) (skip : nat) : res LicenseError nat :=
  let? rest := slice_from d skip in
  ok_or (position_zero rest) NonterminatedString.

Definition parse_inner (typ : LicenseBlockType) (typ_i : Z) (d : list Z) (all : nat)
    : res LicenseError (InnerLicense * nat) :=
  match typ with
  | Intermediate =>
      if bool_decide (length d < 5)%nat
      then Err (TooShort all "less than minimum length of intermediate license") else
      let? l := issuer_len d 4 in
      Ok (Inner_Other, 5 + l)%nat
  | Server =>
      if bool_decide (length d < 6)%nat
      then Err (TooShort all "less than minimum length of TS3 server license") else
      let? l := issuer_len d 5 in
      Ok (Inner_Other, 6 + l)%nat
  | Ts5Server =>
      if bool_decide (length d < 2)%nat
      then Err (TooShort all "less than minimum length of TS5 server license") else
      let? count := index d 1 in
      let? '(properties, pos) := properties_loop (Z.to_nat count) d all 2 in
      Ok (Inner_Ts5Server properties, pos)
  | Ephemeral => Ok (Inner_Other, 0%nat)
  | Website | Code => Err (UnknownBlockType typ_i)
  end.

Definition License_parse (d : list Z) : res LicenseError License :=
  let all := length d in
  if bool_decide (all < BLOCK_MIN_LEN)%nat
  then Err (TooShort all "less than minimum block length") else
  let? kind := index d 0 in
  if negb (kind =? 0) then Err (WrongKeyKind kind) else
  let? typ_i := index d BLOCK_TYPE_OFFSET in
  let? typ := ok_or (LicenseBlockType_from_u8 typ_i) (UnknownBlockType typ_i) in
  let? rest := slice_from d BLOCK_MIN_LEN in
  let? '(inner, extra_len) := parse_inner typ typ_i rest all in
  Ok {| len := BLOCK_MIN_LEN + extra_len; private_key := None; inner := inner |}.

(** * The fields of a block *)

Definition get_type (d : list Z) : res LicenseError LicenseBlockType :=
  let? typ_i := index d BLOCK_TYPE_OFFSET in
  ok_or (LicenseBlockType_from_u8 typ_i) (UnknownBlockType typ_i).

Definition get_public_key (d : list Z) : res LicenseError Point :=
  let? k := slice d 1 33 in
  ok_or (decompress_point k) InvalidPublicKey.

Definition get_timestamp (d : list Z) (block_offset : nat) : res LicenseError DateTime :=
  let? rest := slice_from d block_offset in
  let? num := ok_or (read_be 4 rest) Deserialize in
  ok_or (from_unix_timestamp (num + TIMESTAMP_OFFSET)) DeserializeDate.

Definition get_not_valid_before (d : list Z) : res LicenseError DateTime :=
  get_timestamp d BLOCK_NOT_VALID_BEFORE_OFFSET.
Definition get_not_valid_after (d : list Z) : res LicenseError DateTime :=
  get_timestamp d BLOCK_NOT_VALID_AFTER_OFFSET.

Definition get_license_type (d : list Z) : res LicenseError LicenseType :=
  let? t := get_type d in
  if negb (bool_decide (t ∈ [Server; Ts5Server])) then Err (NoSuchProperty "license type") else
  let? b := index d BLOCK_MIN_LEN in
  ok_or (LicenseType_from_u8 b) (UnknownLicenseType b).

Definition from_utf8 (s : list Z) : res LicenseError (list Z) :=
  if utf8_valid s then Ok s else Err DeserializeString.

(** The number in the four bytes at [o]. *)
Definition read_u32 (d : list Z) (o : nat) : res LicenseError Z :=
  let? s := slice d o (o + 4) in
  ok_or (read_be 4 s) Deserialize.

(** The length that the type of a property prescribes, after the check of a string. *)
Definition expected_len (d : list Z) (o l : nat) (typ : Z) : res LicenseError (option Z) :=
  match typ with
  | 0 =>
      let? last := index d (o + l) in
      if negb (last =? 0) then Err NonterminatedString else Ok None
  | 1 | 3 => Ok (Some 4)
  | 2 | 4 => Ok (Some 8)
  | _ => Ok None
  end.

Definition property_value (d : list Z) (o l : nat) (id typ : Z)
    : res LicenseError LicenseProperty :=
  match id with
  | 1 =>
      if negb (typ =? 1) then Err (WrongPropertyType id 1 typ) else
      let? n := read_u32 d (o + 3) in
      Ok (Unknown1 n)
  | 2 =>
      if negb (typ =? 0) then Err (WrongPropertyType id 1 typ) else
      let? s := slice d (o + 3) (o + l) in
      let? s := from_utf8 s in
      Ok (Issuer s)
  | 3 =>
      if negb (typ =? 1) then Err (WrongPropertyType id 1 typ) else
      let? n := read_u32 d (o + 3) in
      Ok (MaxClients n)
  | _ =>
      let? s := slice d (o + 3) (o + l) in
      Ok (Unknown id typ s)
  end.

(** The closure that [get_properties] maps over the positions. *)
Definition get_property (d : list Z) (p : nat) : res LicenseError LicenseProperty :=
  let o := (BLOCK_MIN_LEN + 2 + p)%nat in
  let? l := index d o in
  let? id := index d (o + 1) in
  let? typ := index d (o + 2) in
  let? e := expected_len d o (Z.to_nat l) typ in
  match e with
  | Some expected =>
      if negb (l =? expected) then Err (WrongPropertyLength id typ expected l)
      else property_value d o (Z.to_nat l) id typ
  | None => property_value d o (Z.to_nat l) id typ
  end.

(** [get_properties] returns a lazy iterator: the positions that it will visit. *)
Definition get_properties (l : License) : res LicenseError (list nat) :=
  match inner l with
  | Inner_Ts5Server properties => Ok properties
  | Inner_Other => Err (NoSuchProperty "properties")
  end.

(** [find_map] over the properties: errors are skipped. *)
Fixpoint find_property {A} (d : list Z) (f : LicenseProperty -> option A) (ps : list nat)
    : res LicenseError (option A) :=
  match ps with
  | [] => Ok None
  | p :: ps =>
      match get_property d p with
      | Panic => Panic
      | Err _ => find_property d f ps
      | Ok v => match f v with Some a => Ok (Some a) | None => find_property d f ps end
      end
  end.

Definition get_issuer (l : License) (d : list Z) : res LicenseError (list Z) :=
  let? typ := get_type d in
  if bool_decide (typ = Ts5Server) then
    let? ps := get_properties l in
    let? r := find_property d (fun p => match p with Issuer i => Some i | _ => None end) ps in
    ok_or r (NoSuchProperty "issuer")
  else
    let? offset := match typ with
      | Intermediate => Ok (BLOCK_MIN_LEN + 4)%nat
      | Website | Code => Ok BLOCK_MIN_LEN
      | Server => Ok (BLOCK_MIN_LEN + 5)%nat
      | _ => Err (NoSuchProperty "issuer")
      end in
    if bool_decide (len l < offset + 1)%nat then Panic else
    let? s := slice d offset (len l - 1) in
    from_utf8 s.

Definition get_max_clients (l : License) (d : list Z) : res LicenseError Z :=
  let? typ := get_type d in
  if bool_decide (typ = Ts5Server) then
    let? ps := get_properties l in
    let? r := find_property d (fun p => match p with MaxClients i => Some i | _ => None end) ps in
    ok_or r (NoSuchProperty "max clients")
  else
    let? offset := match typ with
      | Intermediate => Ok BLOCK_MIN_LEN
      | Server => Ok (BLOCK_MIN_LEN + 1)%nat
      | _ => Err (NoSuchProperty "max clients")
      end in
    read_u32 d offset.

(** * Keys *)

(** [EccKeyPubEd25519::from(&priv_key)] *)
Definition to_pub (k : Scalar) : list Z := compress_point (point_mul base_point k).

(** Make a valid private key from the hash. *)
Definition clamp (h : list Z) : list Z :=
  let h := alter (fun b => Z.land b 248) 0%nat h in
  let h := alter (fun b => Z.land b 63) 31%nat h in
  alter (fun b => Z.lor b 64) 31%nat h.

Definition get_hash_key (d : list Z) : res LicenseError Scalar :=
  let? rest := slice_from d 1 in
  let? k := slice_to (clamp (sha512 rest)) 32 in
  Ok (scalar_from_bytes k).

Definition License_derive_public_key (d : list Z) (parent_key : Point) : res LicenseError Point :=
  let? pub_key := get_public_key d in
  let? hash_key := get_hash_key d in
  Ok (point_add (point_mul pub_key hash_key) parent_key).

Definition License_derive_private_key (l : License) (d : list Z) (parent_key : Scalar)
    : res LicenseError Scalar :=
  match private_key l with
  | None => Err NoPrivateKey
  | Some priv_key =>
      let? hash_key := get_hash_key d in
      Ok (scalar_add (scalar_mul priv_key hash_key) parent_key)
  end.

(** * Validity *)

(** The pattern [if let Err(e) = m { if !matches!(e, NoSuchProperty(_)) { return Err(e) } }]. *)
Definition tolerate {A} (m : res LicenseError A) : res LicenseError () :=
  match m with
  | Ok _ => Ok ()
  | Err (NoSuchProperty _) => Ok ()
  | Err e => Err e
  | Panic => Panic
  end.

Definition License_is_valid (l : License) (d : list Z) : res LicenseError () :=
  let? _ := get_public_key d in
  let? _ := get_not_valid_before d in
  let? _ := get_not_valid_after d in
  let? _ := tolerate (get_license_type d) in
  let? _ := tolerate (get_issuer l d) in
  match get_properties l with
  | Ok ps => let? _ := res_mapM (get_property d) ps in Ok ()
  | m => tolerate m
  end.

(** * A list of blocks *)

Definition parse_block (d : list Z) (check_expired : bool) (now : DateTime)
    (bounds : option LicenseTimeBounds) : res LicenseError (License * LicenseTimeBounds) :=
  let? license := License_parse d in
  let? license_data := slice_to d (len license) in
  let? before := get_not_valid_before license_data in
  let? after := get_not_valid_after license_data in
  if date_ltb now before && check_expired then Err (Expired before after) else
  if date_ltb after now && check_expired then Err (Expired before after) else
  match bounds with
  | Some (start, end_) =>
      if date_ltb before start || date_ltb end_ after
      then Err (Bounds start end_ before after) else Ok (license, (before, after))
  | None => Ok (license, (before, after))
  end.

(** The loop of [parse_internal] and [build]; [room] is what [8 - blocks.len()] allows. *)
Fixpoint parse_blocks (room : nat) (d : list Z) (check_expired : bool) (now : DateTime)
    (offset : nat) (bounds : option LicenseTimeBounds) (bs : list License)
    : res LicenseError (list License) :=
  if bool_decide (length d <= offset)%nat then Ok bs else
  match room with
  | O => Err (TooManyBlocks (length bs))
  | S room =>
      let? rest := slice_from d offset in
      let? '(license, b) := parse_block rest check_expired now bounds in
      parse_blocks room d check_expired now (offset + len license) (Some b) (bs ++ [license])
  end.

Definition parse_internal (now : DateTime) (d : list Z) (check_expired : bool)
    : res LicenseError Licenses :=
  let? version := index d 0 in
  if negb (version =? 0) && negb (version =? 1) then Err (UnsupportedVersion version) else
  let? bs := parse_blocks 8 d check_expired now 1 None [] in
  Ok {| data := d; blocks := bs |}.

Definition parse_ignore_expired (now : DateTime) (d : list Z) : res LicenseError Licenses :=
  parse_internal now d false.
Definition Licenses_parse (now : DateTime) (d : list Z) : res LicenseError Licenses :=
  parse_internal now d true.

Fixpoint derive_public_loop (d : list Z) (bs : list License) (offset : nat) (last_round : Point)
    : res LicenseError Point :=
  match bs with
  | [] => Ok last_round
  | l :: bs =>
      let? block := slice d offset (offset + len l) in
      let? last_round := License_derive_public_key block last_round in
      derive_public_loop d bs (offset + len l) last_round
  end.

Definition derive_public_key (ls : Licenses) (root : list Z) : res LicenseError Point :=
  let? last_round := ok_or (decompress_point root) InvalidRootKey in
  derive_public_loop (data ls) (blocks ls) 1 last_round.

Fixpoint derive_private_loop (d : list Z) (bs : list License) (i starting_block offset : nat)
    (k : Scalar) : res LicenseError Scalar :=
  match bs with
  | [] => Ok k
  | l :: bs =>
      let? k := if bool_decide (starting_block <= i)%nat
        then let? block := slice d offset (offset + len l) in License_derive_private_key l block k
        else Ok k in
      derive_private_loop d bs (S i) starting_block (offset + len l) k
  end.

Definition derive_private_key (ls : Licenses) (starting_block : nat) (first_key : Scalar)
    : res LicenseError Scalar :=
  derive_private_loop (data ls) (blocks ls) 0 starting_block 1 first_key.

Fixpoint is_valid_loop (d : list Z) (bs : list License) (offset : nat) : res LicenseError () :=
  match bs with
  | [] => Ok ()
  | l :: bs =>
      let? block := slice d offset (offset + len l) in
      let? _ := License_is_valid l block in
      is_valid_loop d bs (offset + len l)
  end.

Definition is_valid (ls : Licenses) : res LicenseError () :=
  is_valid_loop (data ls) (blocks ls) 1.

End license.

(** * Instances, used by the witnesses *)

(** Dates as seconds since the epoch. *)
#[global] Instance seconds : Calendar := {|
  DateTime := Z;
  from_unix_timestamp s := if bool_decide (0 <= s < 253402300800) then Some s else None;
  unix_timestamp s := s;
  date_ltb := Z.ltb;
|}.

#[global] Instance seconds_laws : CalendarLaws.
Proof. split. intros s Hs. exists s. simpl. by rewrite bool_decide_true. Qed.

(** The group with two elements. *)
#[global] Instance two_points : Ed25519 := {|
  Point := bool;
  Scalar := bool;
  decompress_point l := match l with 0 :: _ => Some false | 1 :: _ => Some true | _ => None end;
  compress_point p := (if p : bool then 1 else 0) :: replicate 31 0;
  base_point := true;
  point_add := xorb;
  point_mul := andb;
  scalar_add := xorb;
  scalar_mul := andb;
  scalar_from_bytes l := Z.odd (foldr Z.add 0 l);
  sha512 l := foldr Z.add 0 l mod 256 :: replicate 63 7;
|}.

#[global] Instance two_points_laws : Ed25519Laws.
Proof.
  split.
  - by intros [].
  - by intros [].
  - by intros [] [] [].
  - by intros [] [] [].
  - intros l. cbn [sha512 two_points length]. by rewrite length_replicate.
Qed.

#[global] Instance two_types : LicenseTypes := {|
  LicenseType := bool;
  LicenseType_from_u8 b := match b with 0 => Some false | 1 => Some true | _ => None end;
  LicenseType_to_u8 t := Some (if t : bool then 1 else 0);
|}.

#[global] Instance two_types_laws : LicenseTypesLaws.
Proof. split. intros []; [exists 1|exists 0]; by repeat split. Qed.
