(* ===== verification/Crypto.v ===== *)
(** Keys ([utils/tsproto-types/src/crypto.rs]): the formats in which P-256 keys are stored, the
    obfuscation of identities, and Ed25519 keys. *)
From stdpp Require Import strings.
From S2P Require Import Prelude ByteIO Text Packets InitPackets CryptoLib License.
#[local] Open Scope Z_scope.

Definition IDENTITY_OBFUSCATION : list Z := byte_str
  "b9dfaa7bee6ac57ac7b65f1094a1c155e747327bc2fe5d51c512023fe54a280201004e90ad1daaae1075d53b7d571c30e063b5a62a4a017bb394833aa0983e6e".

Section crypto.
Context `{Base64Enc, Base64Dec, Sha1, Asn1, BigIntIo, P256}.

Definition EccKeyPubP256 : Type := PublicKey.
Definition EccKeyPrivP256 : Type := SecretKey.

(** The errors; the payloads of the library errors are dropped. *)
Inductive CryptoError :=
  | TooManyAsn1Blocks
  | UnexpectedPrivateKey
  | NoPrivateKey
  | PublicKeyNotFound
  | ExpectedBitString
  | ExpectedSequence
  | EmptyKeyData
  | KeyDecodeError
  | NoShortKey
  | NoObfuscatedKey
  | NoCounterBlock
  | ParsePublicKeyFailed
  | WrongKeyLength
  | WrongPublicKeyLength (expected got : nat)
  | WrongSignature (key : EccKeyPubP256) (data signature : list Z)
  | Asn1Decode
  | Asn1Encode
  | CryptoBase64
  | CryptoUtf8.

Definition decode_base64 (s : list Z) : res CryptoError (list Z) :=
  ok_or (base64_decode s) CryptoBase64.

Definition encode_password (password : list Z) : list Z := base64_encode (sha1 password).

(** * Public keys *)

Definition EccKeyPubP256_from_short (data : list Z) : res CryptoError EccKeyPubP256 :=
  ok_or (from_sec1_bytes data) ParsePublicKeyFailed.

(** The closure [to_coord]. *)
Definition to_coord (src : Z) : res CryptoError (list Z) :=
  let '(sign, l) := bi_to_bytes_le src in
  match sign with
  | Minus => Err ParsePublicKeyFailed
  | _ =>
      if bool_decide (field_size < length l)%nat
      then Err (WrongPublicKeyLength field_size (length l))
      else Ok (reverse (resize field_size 0 l))
  end.

Definition EccKeyPubP256_from_tomcrypt (data : list Z) : res CryptoError EccKeyPubP256 :=
  let? blocks := ok_or (from_der data) Asn1Decode in
  if negb (bool_decide (length blocks = 1%nat)) then Err TooManyAsn1Blocks else
  let? block := index blocks 0 in
  match block with
  | Sequence _ blocks =>
      match blocks !! 0%nat with
      | Some (BitString _ len content) =>
          let? private :=
            if negb (len =? 1) then Ok true else
            let? c := index content 0 in
            Ok (negb (Z.land c 0x80 =? 0)) in
          if private : bool then Err UnexpectedPrivateKey else
          match blocks !! 2%nat, blocks !! 3%nat with
          | Some (Integer _ x), Some (Integer _ y) =>
              let? x_coord := to_coord x in
              let? y_coord := to_coord y in
              ok_or (from_encoded_point x_coord y_coord) ParsePublicKeyFailed
          | _, _ => Err PublicKeyNotFound
          end
      | _ => Err ExpectedBitString
      end
  | _ => Err ExpectedSequence
  end.

Definition EccKeyPubP256_from_ts (data : list Z) : res CryptoError EccKeyPubP256 :=
  let? d := decode_base64 data in EccKeyPubP256_from_tomcrypt d.

Definition EccKeyPubP256_to_tomcrypt (k : EccKeyPubP256) : res CryptoError (list Z) :=
  let pubkey_x := bi_from_bytes_be Plus (fst (affine_coordinates k)) in
  let pubkey_y := bi_from_bytes_be Plus (snd (affine_coordinates k)) in
  unwrap (to_der (Sequence 0 [BitString 0 1 [0]; Integer 0 32; Integer 0 pubkey_x; Integer 0 pubkey_y])).

Definition EccKeyPubP256_to_ts (k : EccKeyPubP256) : res CryptoError (list Z) :=
  let? d := EccKeyPubP256_to_tomcrypt k in Ok (base64_encode d).

Definition EccKeyPubP256_to_short (k : EccKeyPubP256) : list Z := to_sec1_bytes k.

Definition get_uid_no_base64 (k : EccKeyPubP256) : res CryptoError (list Z) :=
  let? s := EccKeyPubP256_to_ts k in Ok (sha1 s).

Definition get_uid (k : EccKeyPubP256) : res CryptoError (list Z) :=
  let? s := get_uid_no_base64 k in Ok (base64_encode s).

Definition EccKeyPubP256_verify (k : EccKeyPubP256) (data signature : list Z)
    : res CryptoError unit :=
  match signature_from_der signature with
  | None => Err (WrongSignature k data signature)
  | Some sig => if ecdsa_verify k data sig then Ok tt else Err (WrongSignature k data signature)
  end.

(** * Private keys *)

Definition EccKeyPrivP256_from_short (data : list Z) : res CryptoError EccKeyPrivP256 :=
  if negb (bool_decide (length data = 32%nat)) then Err NoShortKey
  else ok_or (secret_from_bytes data) NoShortKey.

Definition EccKeyPrivP256_to_short (k : EccKeyPrivP256) : list Z := secret_to_bytes k.

Definition EccKeyPrivP256_from_tomcrypt (data : list Z) : res CryptoError EccKeyPrivP256 :=
  let? blocks := ok_or (from_der data) Asn1Decode in
  if negb (bool_decide (length blocks = 1%nat)) then Err TooManyAsn1Blocks else
  let? block := index blocks 0 in
  match block with
  | Sequence _ blocks =>
      match blocks !! 0%nat with
      | Some (BitString _ len content) =>
          let? no_private :=
            if negb (len =? 1) && negb (len =? 2) then Ok true else
            let? c := index content 0 in
            Ok (Z.land c 0x80 =? 0) in
          if no_private : bool then Err NoPrivateKey else
          match blocks !! (if len =? 1 then 4%nat else 2%nat) with
          | Some (Integer _ i) => EccKeyPrivP256_from_short (snd (bi_to_bytes_be i))
          | _ => Err NoPrivateKey
          end
      | _ => Err ExpectedBitString
      end
  | _ => Err ExpectedSequence
  end.

Definition EccKeyPrivP256_from_ts (data : list Z) : res CryptoError EccKeyPrivP256 :=
  let? d := decode_base64 data in EccKeyPrivP256_from_tomcrypt d.

Definition EccKeyPrivP256_to_tomcrypt (k : EccKeyPrivP256) : res CryptoError (list Z) :=
  let p := affine_coordinates (secret_public k) in
  let pubkey_x := bi_from_bytes_be Plus (fst p) in
  let pubkey_y := bi_from_bytes_be Plus (snd p) in
  let privkey := bi_from_bytes_be Plus (secret_to_bytes k) in
  unwrap (to_der (Sequence 0 [BitString 0 1 [0x80]; Integer 0 32; Integer 0 pubkey_x;
                              Integer 0 pubkey_y; Integer 0 privkey])).

Definition EccKeyPrivP256_to_ts (k : EccKeyPrivP256) : res CryptoError (list Z) :=
  let? d := EccKeyPrivP256_to_tomcrypt k in Ok (base64_encode d).

(** [for i in from..from + n { data[i] ^= key[i] }] *)
Fixpoint xor_loop (n i : nat) (key data : list Z) : res CryptoError (list Z) :=
  match n with
  | O => Ok data
  | S n =>
      let? d := index data i in
      let? k := index key i in
      let? data := set_index data i (Z.lxor d k) in
      xor_loop n (S i) key data
  end.

(** The hash of everything until the first 0 byte, starting after the first 20 bytes. *)
Definition obfuscation_hash (data : list Z) : res CryptoError (list Z) :=
  let? rest := slice_from data 20 in
  let pos := default (length data - 20)%nat (position_zero rest) in
  let? hashed := slice data 20 (20 + pos) in
  Ok (sha1 hashed).

Definition EccKeyPrivP256_from_ts_obfuscated (s : list Z) : res CryptoError EccKeyPrivP256 :=
  let? data := decode_base64 s in
  if bool_decide (length data < 20)%nat then Err NoObfuscatedKey else
  let? hash := obfuscation_hash data in
  let? data := xor_loop 20 0 hash data in
  let? data := xor_loop (Nat.min (length data) 100) 0 IDENTITY_OBFUSCATION data in
  if negb (utf8_valid data) then Err CryptoUtf8 else
  EccKeyPrivP256_from_ts data.

Definition EccKeyPrivP256_to_ts_obfuscated (k : EccKeyPrivP256) : res CryptoError (list Z) :=
  let? data := EccKeyPrivP256_to_ts k in
  let? data := xor_loop (Nat.min (length data) 100) 0 IDENTITY_OBFUSCATION data in
  let? hash := obfuscation_hash data in
  let? data := xor_loop 20 0 hash data in
  Ok (base64_encode data).

(** [if let Ok(r) = m { return Ok(r); } k] *)
Definition or_else {A} (m k : res CryptoError A) : res CryptoError A :=
  match m with
  | Err _ => k
  | r => r
  end.

(** [import] and [import_str] call each other, on the decoded base64; [None] when the fuel does
    not suffice.  [import_str_with f] is [import_str] with [f] for [import]. *)
Definition import_str_with (f : list Z -> option (res CryptoError EccKeyPrivP256)) (s : list Z)
    : option (res CryptoError EccKeyPrivP256) :=
  let obfuscated := or_else (EccKeyPrivP256_from_ts_obfuscated s) (Err KeyDecodeError) in
  match base64_decode s with
  | Some r => r ← f r; Some (or_else r obfuscated)
  | None => Some obfuscated
  end.

Fixpoint EccKeyPrivP256_import (fuel : nat) (data : list Z)
    : option (res CryptoError EccKeyPrivP256) :=
  match fuel with
  | O => None
  | S fuel =>
      match data with
      | [] => Some (Err EmptyKeyData)
      | _ =>
          let raw := or_else (EccKeyPrivP256_from_tomcrypt data)
            (or_else (EccKeyPrivP256_from_short data) (Err KeyDecodeError)) in
          if utf8_valid data then
            r ← import_str_with (EccKeyPrivP256_import fuel) data; Some (or_else r raw)
          else Some raw
      end
  end.

Definition EccKeyPrivP256_import_str (fuel : nat) : list Z -> option (res CryptoError EccKeyPrivP256) :=
  import_str_with (EccKeyPrivP256_import fuel).

Definition create_shared_secret (k : EccKeyPrivP256) (other : EccKeyPubP256) : list Z :=
  diffie_hellman k other.

Definition EccKeyPrivP256_sign (k : EccKeyPrivP256) (data : list Z) : list Z :=
  signature_to_der (ecdsa_sign k data).

Definition EccKeyPrivP256_to_pub (k : EccKeyPrivP256) : EccKeyPubP256 := secret_public k.

(** * Ed25519 keys *)

Definition ed25519_array (data : list Z) : res CryptoError (list Z) :=
  let? decoded := decode_base64 data in
  if negb (bool_decide (length decoded = 32%nat)) then Err WrongKeyLength else
  slice_to decoded 32.

(** A public key is its compressed point. *)
Definition EccKeyPubEd25519_from_bytes (data : list Z) : list Z := data.

Definition EccKeyPubEd25519_from_base64 (data : list Z) : res CryptoError (list Z) :=
  let? a := ed25519_array data in Ok (EccKeyPubEd25519_from_bytes a).

Definition EccKeyPubEd25519_to_base64 (k : list Z) : list Z := base64_encode k.

Section ed25519.
Context `{Ed25519}.

Definition EccKeyPrivEd25519_from_bytes (data : list Z) : Scalar := scalar_from_bytes data.

Definition EccKeyPrivEd25519_from_base64 (data : list Z) : res CryptoError Scalar :=
  let? a := ed25519_array data in Ok (EccKeyPrivEd25519_from_bytes a).

Definition EccKeyPrivEd25519_create_shared_secret (k : Scalar) (pub_key : Point) : list Z :=
  compress_point (point_mul pub_key k).

Definition EccKeyPrivEd25519_to_pub (k : Scalar) : list Z :=
  compress_point (point_mul base_point k).
End ed25519.
End crypto.
