(* ===== verification/KeyFormats.v ===== *)
(** The stored formats of keys: reading back what was written, for public keys, private keys and
    obfuscated identities; importing a key terminates and never panics. *)
From S2P Require Import Prelude ByteIO Text Packets InitPackets CryptoLib License Crypto.
#[local] Open Scope Z_scope.

(** * Xoring a prefix *)

Fixpoint xor_prefix (n : nat) (key data : list Z) : list Z :=
  match n, key, data with
  | S n, k :: key, d :: data => Z.lxor d k :: xor_prefix n key data
  | _, _, _ => data
  end.

Lemma xor_prefix_length n key data : length (xor_prefix n key data) = length data.
Proof. revert key data. induction n; intros [|] [|]; simpl; auto. Qed.

Lemma xor_prefix_involutive n key data : xor_prefix n key (xor_prefix n key data) = data.
Proof.
  revert key data. induction n as [|n IH]; intros [|k key] [|d data]; simpl; [done..|].
  by rewrite IH, Z.lxor_assoc, Z.lxor_nilpotent, Z.lxor_0_r.
Qed.

Lemma xor_prefix_drop n m key data :
  (n <= m)%nat -> drop m (xor_prefix n key data) = drop m data.
Proof.
  revert m key data. induction n as [|n IH]; intros m [|k key] [|d data] Hm; simpl; try done.
  destruct m as [|m]; [lia|]. simpl. apply IH. lia.
Qed.

Lemma lxor_u8 a b : is_u8 a -> is_u8 b -> is_u8 (Z.lxor a b).
Proof.
  intros [Ha1 Ha2] [Hb1 Hb2]. split; [by apply Z.lxor_nonneg|].
  assert (Hn : 0 <= Z.lxor a b) by (by apply Z.lxor_nonneg).
  destruct (Z.eq_dec (Z.lxor a b) 0) as [->|Hne]; [lia|].
  apply Z.log2_lt_pow2; [lia|]. pose proof (Z.log2_lxor a b Ha1 Hb1) as Hl.
  assert (forall c, 0 <= c < 2 ^ 8 -> Z.log2 c < 8) as Hlog.
  { intros c Hc. destruct (Z.eq_dec c 0) as [->|]; [done|]. apply Z.log2_lt_pow2; lia. }
  pose proof (Hlog a ltac:(lia)). pose proof (Hlog b ltac:(lia)). lia.
Qed.

Lemma xor_prefix_bytes n key data : bytes key -> bytes data -> bytes (xor_prefix n key data).
Proof.
  revert key data. induction n as [|n IH]; intros key data Hk Hd; [done|].
  destruct Hk as [|k key Hk Hks], Hd as [|d data Hd Hds]; simpl; [by constructor..|].
  constructor; [by apply lxor_u8|]. by apply IH.
Qed.

Section formats.
Context `{P256Laws, Base64Laws, Sha1Laws, Asn1Laws, BigIntLaws}.

(** The loops of the source xor a prefix. *)
Lemma xor_loop_at n kpre key pre data :
  length kpre = length pre -> (n <= length key)%nat -> (n <= length data)%nat ->
  xor_loop n (length pre) (kpre ++ key) (pre ++ data) = Ok (pre ++ xor_prefix n key data).
Proof.
  revert kpre key pre data. induction n as [|n IH]; intros kpre key pre data Hpre Hk Hd; [done|].
  destruct key as [|k key]; [simpl in Hk; lia|]. destruct data as [|d data]; [simpl in Hd; lia|].
  cbn [xor_loop xor_prefix]. rewrite index_skip, Nat.sub_diag by lia.
  rewrite index_skip, Hpre, Nat.sub_diag by lia. cbn [res_bind index unwrap lookup list_lookup].
  rewrite set_index_skip, Nat.sub_diag, set_index_ok by (simpl; lia). cbn.
  replace (S (length pre)) with (length (pre ++ [Z.lxor d k])) by (rewrite length_app; simpl; lia).
  change (k :: key) with ([k] ++ key). rewrite app_assoc.
  change (Z.lxor d k :: data) with ([Z.lxor d k] ++ data). rewrite app_assoc.
  rewrite IH by (rewrite ?length_app; simpl in *; lia). by rewrite <- app_assoc.
Qed.

Lemma xor_loop_0 n key data :
  (n <= length key)%nat -> (n <= length data)%nat ->
  xor_loop n 0 key data = Ok (xor_prefix n key data).
Proof. intros Hk Hd. by apply (xor_loop_at n [] key [] data). Qed.

(** * The hash of the obfuscation *)

Lemma obfuscation_hash_ok data :
  (20 <= length data)%nat -> exists h, obfuscation_hash data = Ok h /\ length h = 20%nat /\ bytes h.
Proof.
  intros Hl. unfold obfuscation_hash. rewrite slice_from_ok by lia. cbn [res_bind].
  assert (Hpos : (default (length data - 20) (position_zero (drop 20 data)) <= length data - 20)%nat).
  { unfold position_zero. destruct (list_find _ _) as [[i x]|] eqn:Hf; simpl; [|lia].
    apply list_find_Some in Hf as (Hi & _). apply lookup_lt_Some in Hi.
    rewrite length_drop in Hi. lia. }
  rewrite slice_ok by lia. cbn [res_bind]. eexists. split_and!; [done|apply sha1_length|apply sha1_bytes].
Qed.

Lemma obfuscation_hash_drop a b :
  length a = length b -> drop 20 a = drop 20 b -> obfuscation_hash a = obfuscation_hash b.
Proof.
  intros Hl Hd. unfold obfuscation_hash, slice_from, slice. by rewrite Hl, Hd.
Qed.

(** * ASN.1 blocks *)

Lemma flat_block_at (bs bs' : list ASN1Block) (i : nat) :
  strip <$> bs' = strip <$> bs -> strip <$> bs' !! i = strip <$> bs !! i.
Proof. intros Heq. by rewrite <- !list_lookup_fmap, Heq. Qed.

Lemma strip_integer b i : strip b = Integer 0 i -> exists o, b = Integer o i.
Proof. destruct b; try done. intros [= ->]. eauto. Qed.

Lemma strip_bits b len c : strip b = BitString 0 len c -> exists o, b = BitString o len c.
Proof. destruct b; try done. intros [= -> ->]. eauto. Qed.

Lemma strip_fmap_some (o : option ASN1Block) b : strip <$> o = Some b -> exists c, o = Some c /\ strip c = b.
Proof. destruct o; [|done]. intros [= <-]. eauto. Qed.

(** The block at an index of a decoded key. *)
Ltac decoded_block Hs i :=
  let Hb := fresh "Hb" in
  pose proof (flat_block_at _ _ i Hs) as Hb; cbn in Hb;
  let c := fresh "c" in let Hc := fresh "Hc" in let Hst := fresh "Hst" in
  apply strip_fmap_some in Hb as (c & Hc & Hst);
  first [apply strip_integer in Hst as [? ->] | apply strip_bits in Hst as [? ->]].

Ltac one_block :=
  cbn [ok_or res_bind length]; rewrite bool_decide_true by done; cbn [negb];
  rewrite (index_ok [_] 0 _ eq_refl); cbn [res_bind].

Lemma to_coord_bytes l : field_bytes l -> to_coord (bi_from_bytes_be Plus l) = Ok l.
Proof.
  intros [Hlen Hl]. unfold to_coord. rewrite bi_to_le.
  destruct (integer_bytes l Hl) as (m & -> & Hle & Heq); [unfold field_size in *; lia|].
  cbn [fst snd]. pose proof (sign_not_minus l Hl).
  assert (Hres : (if bool_decide (field_size < length (reverse m))%nat
      then Err (WrongPublicKeyLength field_size (length (reverse m)))
      else Ok (reverse (resize field_size 0 (reverse m)))) = Ok (E := CryptoError) l).
  { rewrite length_reverse, bool_decide_false by lia. f_equal.
    rewrite resize_ge by (rewrite length_reverse; lia). rewrite length_reverse.
    by rewrite reverse_app, reverse_involutive, reverse_replicate, <- Hlen. }
  by destruct (sign_of _).
Qed.

Lemma unwrap_to_der (bs : list ASN1Block) :
  Forall encodable bs -> exists d bs', unwrap (E := CryptoError) (to_der (Sequence 0 bs)) = Ok d /\
    bytes d /\ (2 + 3 * length bs <= length d)%nat /\ from_der d = Some [Sequence 0 bs'] /\
    strip <$> bs' = strip <$> bs.
Proof. intros (d & bs' & -> & ?)%der_roundtrip. by exists d, bs'. Qed.

Lemma public_tomcrypt k : exists d, EccKeyPubP256_to_tomcrypt k = Ok d /\ bytes d /\
  EccKeyPubP256_from_tomcrypt d = Ok k.
Proof.
  unfold EccKeyPubP256_to_tomcrypt, EccKeyPubP256_from_tomcrypt.
  destruct (coordinates_bytes k) as [Hx Hy]. pose proof (point_roundtrip k) as Hk.
  destruct (affine_coordinates k) as [x y]. cbn [fst snd] in *.
  edestruct unwrap_to_der as (d & bs & Hd & Hb & _ & Hfrom & Hs);
    [|exists d; split; [exact Hd|split; [exact Hb|]]].
  { repeat constructor; by unfold is_uint. }
  rewrite Hfrom. one_block.
  decoded_block Hs 0%nat. decoded_block Hs 2%nat. decoded_block Hs 3%nat.
  rewrite Hc, Hc0, Hc1. cbn. rewrite !to_coord_bytes by done. cbn. by rewrite Hk.
Qed.

(** A private key whose first byte is zero is written with fewer than 32 bytes. *)
Definition leading_zero (k : EccKeyPrivP256) : bool := bool_decide (head (secret_to_bytes k) = Some 0).

Lemma from_short_integer k :
  EccKeyPrivP256_from_short (snd (bi_to_bytes_be (bi_from_bytes_be Plus (secret_to_bytes k)))) =
    if leading_zero k then Err NoShortKey else Ok k.
Proof.
  pose proof (secret_roundtrip k) as Hk. destruct (secret_bytes k) as [Hlen Hb].
  unfold leading_zero, EccKeyPrivP256_from_short. destruct (secret_to_bytes k) as [|b l]; [done|].
  pose proof (integer_bytes_length b l _ Hb ltac:(unfold field_size in *; simpl in *; lia) eq_refl) as Hiff.
  destruct (integer_bytes (b :: l) Hb) as (m & Hm & Hle & Heq); [simpl; lia|].
  rewrite Hm in *. cbn [snd head] in *. rewrite Hlen in Hiff. unfold field_size in *.
  destruct (decide (b = 0)) as [->|Hb0].
  - rewrite bool_decide_false by tauto. by rewrite bool_decide_true.
  - rewrite bool_decide_true by tauto. rewrite bool_decide_false by (by intros [= ->]).
    assert (length m = length (b :: l)) as Hm' by (rewrite Hlen; tauto).
    rewrite Hm', Nat.sub_diag in Heq. simpl in Heq. subst m. cbn. by rewrite Hk.
Qed.

Lemma private_tomcrypt k : exists d, EccKeyPrivP256_to_tomcrypt k = Ok d /\ bytes d /\
  (17 <= length d)%nat /\
  EccKeyPrivP256_from_tomcrypt d = if leading_zero k then Err NoShortKey else Ok k.
Proof.
  unfold EccKeyPrivP256_to_tomcrypt, EccKeyPrivP256_from_tomcrypt.
  edestruct unwrap_to_der as (d & bs & Hd & Hb & Hl & Hfrom & Hs);
    [|exists d; split_and!; [exact Hd|exact Hb|exact Hl|]].
  { repeat constructor; by unfold is_uint. }
  rewrite Hfrom. one_block.
  decoded_block Hs 0%nat. decoded_block Hs 4%nat.
  rewrite Hc. replace (if 1 =? 1 then 4%nat else 2%nat) with 4%nat by done.
  rewrite Hc0. cbn. apply from_short_integer.
Qed.

(** * Obfuscated identities *)

Lemma obfuscation_bytes : length IDENTITY_OBFUSCATION = 128%nat /\ bytes IDENTITY_OBFUSCATION.
Proof. split; [done|]. by apply (bool_decide_unpack _). Qed.

(** What is stored decodes to the text that was obfuscated. *)
Lemma obfuscated_text k ts : ascii ts -> (20 <= length ts)%nat -> EccKeyPrivP256_to_ts k = Ok ts ->
  exists s, EccKeyPrivP256_to_ts_obfuscated k = Ok s /\
    EccKeyPrivP256_from_ts_obfuscated s = EccKeyPrivP256_from_ts ts.
Proof.
  intros Hascii Hlen Hts. destruct obfuscation_bytes as [Hol Hob].
  unfold EccKeyPrivP256_to_ts_obfuscated. rewrite Hts. cbn [res_bind].
  rewrite xor_loop_0 by lia. cbn [res_bind].
  set (n := Nat.min (length ts) 100). set (x := xor_prefix n IDENTITY_OBFUSCATION ts).
  assert (Hx : length x = length ts) by apply xor_prefix_length.
  assert (Hxb : bytes x) by (by apply xor_prefix_bytes, ascii_bytes).
  destruct (obfuscation_hash_ok x) as (h & Hh & Hhl & Hhb); [lia|]. rewrite Hh. cbn [res_bind].
  rewrite xor_loop_0 by lia. cbn [res_bind]. eexists. split; [reflexivity|].
  unfold EccKeyPrivP256_from_ts_obfuscated, decode_base64.
  rewrite base64_roundtrip by (by apply xor_prefix_bytes). cbn [ok_or res_bind].
  assert (Hy : length (xor_prefix 20 h x) = length ts) by (by rewrite xor_prefix_length).
  rewrite bool_decide_false by lia.
  rewrite (obfuscation_hash_drop _ x) by (rewrite ?xor_prefix_length, ?xor_prefix_drop; auto).
  rewrite Hh. cbn [res_bind]. rewrite xor_loop_0 by lia. cbn [res_bind].
  rewrite xor_prefix_involutive, Hx, xor_loop_0 by lia. cbn [res_bind].
  unfold x. rewrite xor_prefix_involutive. by rewrite utf8_valid_ascii.
Qed.

Lemma private_text k : exists ts, EccKeyPrivP256_to_ts k = Ok ts /\ ascii ts /\
  (20 <= length ts)%nat /\
  EccKeyPrivP256_from_ts ts = if leading_zero k then Err NoShortKey else Ok k.
Proof.
  destruct (private_tomcrypt k) as (d & Hd & Hb & Hl & Hk).
  unfold EccKeyPrivP256_to_ts, EccKeyPrivP256_from_ts, decode_base64. rewrite Hd. cbn [res_bind].
  exists (base64_encode d). split_and!; [done|apply base64_ascii| |].
  - pose proof (base64_expands d). lia.
  - by rewrite base64_roundtrip.
Qed.

(** * Importing *)

Lemma or_else_no_panic {A} (m k : res CryptoError A) :
  no_panic m = true -> no_panic k = true -> no_panic (or_else m k) = true.
Proof. by destruct m. Qed.

Lemma from_short_no_panic d : no_panic (EccKeyPrivP256_from_short d) = true.
Proof.
  unfold EccKeyPrivP256_from_short. case_bool_decide; [|done]. simpl. by destruct (secret_from_bytes d).
Qed.

(** A bit string with a bit has a byte. *)
Lemma private_tomcrypt_no_panic d : no_panic (EccKeyPrivP256_from_tomcrypt d) = true.
Proof.
  unfold EccKeyPrivP256_from_tomcrypt.
  destruct (from_der d) as [blocks|] eqn:Hd; [|done]. cbn [ok_or res_bind].
  case_bool_decide as Hlen; [|done]. destruct blocks as [|b [|]]; try done. cbn.
  destruct b as [o seq|o len c|o i|t]; try done.
  destruct (seq !! 0%nat) as [[o' l|o' len c|o' i|t]|] eqn:H0'; try done.
  assert (Hbit : len <= 8 * Z.of_nat (length c)).
  { eapply der_bit_length; [exact Hd|by left|]. by eapply list_elem_of_lookup_2. }
  destruct (negb (len =? 1) && negb (len =? 2)) eqn:Hl; [done|].
  destruct c as [|b c]; [exfalso|].
  - simpl in Hbit. destruct (Z.eqb_spec len 1), (Z.eqb_spec len 2); simpl in Hl; lia || done.
  - cbn. destruct (Z.land b 128 =? 0); [done|].
    destruct (seq !! (if len =? 1 then 4%nat else 2%nat)) as [[| | |]|]; try done. apply from_short_no_panic.
Qed.

Lemma to_coord_no_panic i : no_panic (to_coord i) = true.
Proof. unfold to_coord. destruct (bi_to_bytes_le i) as [[] l]; [done|by case_bool_decide..]. Qed.

Lemma public_tomcrypt_no_panic d : no_panic (EccKeyPubP256_from_tomcrypt d) = true.
Proof.
  unfold EccKeyPubP256_from_tomcrypt.
  destruct (from_der d) as [blocks|] eqn:Hd; [|done]. cbn [ok_or res_bind].
  case_bool_decide as Hlen; [|done]. destruct blocks as [|b [|]]; try done. cbn.
  destruct b as [o seq|o len c|o i|t]; try done.
  destruct (seq !! 0%nat) as [[o' l|o' len c|o' i|t]|] eqn:H0'; try done.
  assert (Hbit : len <= 8 * Z.of_nat (length c)).
  { eapply der_bit_length; [exact Hd|by left|]. by eapply list_elem_of_lookup_2. }
  destruct (Z.eqb_spec len 1) as [->|]; [|done]. cbn [negb].
  destruct c as [|b c]; [simpl in Hbit; lia|]. cbn. destruct (Z.land b 128 =? 0); [|done]. cbn.
  destruct (seq !! 2%nat) as [[| |ox x|]|]; try done. destruct (seq !! 3%nat) as [[| |oy y|]|]; try done.
  apply no_panic_bind; [apply to_coord_no_panic|]. intros xc _.
  apply no_panic_bind; [apply to_coord_no_panic|]. intros yc _. by destruct (from_encoded_point xc yc).
Qed.

Lemma public_from_ts_no_panic s : no_panic (EccKeyPubP256_from_ts s) = true.
Proof.
  unfold EccKeyPubP256_from_ts, decode_base64. destruct (base64_decode s); [|done].
  apply public_tomcrypt_no_panic.
Qed.

Lemma from_ts_no_panic s : no_panic (EccKeyPrivP256_from_ts s) = true.
Proof.
  unfold EccKeyPrivP256_from_ts, decode_base64. destruct (base64_decode s); [|done].
  apply private_tomcrypt_no_panic.
Qed.

Lemma from_ts_obfuscated_no_panic s : no_panic (EccKeyPrivP256_from_ts_obfuscated s) = true.
Proof.
  unfold EccKeyPrivP256_from_ts_obfuscated, decode_base64.
  destruct (base64_decode s) as [d|]; [|done]. cbn [ok_or res_bind].
  case_bool_decide; [done|]. destruct (obfuscation_hash_ok d) as (h & -> & Hl & _); [lia|].
  destruct obfuscation_bytes as [Hol _]. cbn [res_bind]. rewrite xor_loop_0 by lia. cbn [res_bind].
  rewrite xor_loop_0 by lia. cbn [res_bind]. destruct (utf8_valid _); [|done]. apply from_ts_no_panic.
Qed.

(** An import of shorter data succeeds in its fuel. *)
Definition imports (fuel : nat) (data : list Z) : Prop :=
  exists r, EccKeyPrivP256_import fuel data = Some r /\ no_panic r = true.

Lemma import_str_imports fuel s :
  (forall d, (length d < length s)%nat \/ d = [] -> imports fuel d) ->
  exists r, EccKeyPrivP256_import_str fuel s = Some r /\ no_panic r = true.
Proof.
  intros Hd. unfold EccKeyPrivP256_import_str, import_str_with.
  assert (Hobf : no_panic (or_else (EccKeyPrivP256_from_ts_obfuscated s) (Err KeyDecodeError)) = true)
    by (by apply or_else_no_panic; [apply from_ts_obfuscated_no_panic|]).
  destruct (base64_decode s) as [d|] eqn:Hs; [|eauto].
  apply base64_shrinks in Hs as [Hlen _].
  destruct (Hd d) as (r & Hr & Hp).
  { destruct d; [by right|left]. simpl in *. lia. }
  rewrite Hr. cbn. eexists. split; [reflexivity|]. by apply or_else_no_panic.
Qed.

Lemma import_imports fuel data : (length data < fuel)%nat -> imports fuel data.
Proof.
  revert data. induction fuel as [|fuel IH]; intros data Hf; [lia|]. unfold imports.
  cbn [EccKeyPrivP256_import]. destruct data as [|b data]; [by eexists|].
  set (raw := or_else _ _).
  assert (Hraw : no_panic raw = true).
  { repeat apply or_else_no_panic; [apply private_tomcrypt_no_panic|apply from_short_no_panic|done]. }
  destruct (utf8_valid (b :: data)); [|eauto].
  destruct (import_str_imports fuel (b :: data)) as (r & Hr & Hp).
  { intros d [Hd| ->]; apply IH; simpl in *; lia. }
  unfold EccKeyPrivP256_import_str in Hr. rewrite Hr. cbn. eexists. split; [reflexivity|].
  by apply or_else_no_panic.
Qed.

(** * The properties *)

(** C27: Reading back the TomCrypt, base64 or obfuscated form of a private key gives the key if
    and only if its first byte is not zero; with a leading zero the stored key is refused. *)
Theorem identity_formats (k : EccKeyPrivP256) :
  exists d ts obf,
    EccKeyPrivP256_to_tomcrypt k = Ok d /\ EccKeyPrivP256_to_ts k = Ok ts /\
    EccKeyPrivP256_to_ts_obfuscated k = Ok obf /\
    let expected := if leading_zero k then Err NoShortKey else Ok k in
    EccKeyPrivP256_from_tomcrypt d = expected /\ EccKeyPrivP256_from_ts ts = expected /\
    EccKeyPrivP256_from_ts_obfuscated obf = expected.
Proof.
  destruct (private_tomcrypt k) as (d & Hd & _ & _ & Hk).
  destruct (private_text k) as (ts & Hts & Ha & Hl & Hkts).
  destruct (obfuscated_text k ts Ha Hl Hts) as (obf & Hobf & Hko).
  exists d, ts, obf. split_and!; [done..|]. by rewrite Hko.
Qed.

(** A public key is read back from its TomCrypt form and from its base64 form, whatever
    leading zeros its coordinates have. *)
Theorem public_key_formats (k : EccKeyPubP256) :
  exists d ts, EccKeyPubP256_to_tomcrypt k = Ok d /\ EccKeyPubP256_to_ts k = Ok ts /\
    EccKeyPubP256_from_tomcrypt d = Ok k /\ EccKeyPubP256_from_ts ts = Ok k /\
    EccKeyPubP256_from_short (EccKeyPubP256_to_short k) = Ok k.
Proof.
  destruct (public_tomcrypt k) as (d & Hd & Hb & Hk). exists d, (base64_encode d).
  unfold EccKeyPubP256_to_ts, EccKeyPubP256_from_ts, decode_base64. rewrite Hd.
  split_and!; [done..| |].
  - by rewrite base64_roundtrip.
  - unfold EccKeyPubP256_from_short, EccKeyPubP256_to_short. by rewrite sec1_roundtrip.
Qed.

(** Importing a key from any bytes terminates, within a fuel of one more than their number,
    and does not panic, although the two import functions call each other. *)
Theorem import_terminates (data : list Z) :
  exists r, EccKeyPrivP256_import (S (length data)) data = Some r /\ no_panic r = true.
Proof. apply import_imports. lia. Qed.
End formats.

(** * Witnesses *)

Lemma identity_formats_witness :
  (exists d ts obf,
    EccKeyPrivP256_to_tomcrypt (true : @EccKeyPrivP256 two_keys) = Ok d /\
    EccKeyPrivP256_to_ts (true : @EccKeyPrivP256 two_keys) = Ok ts /\
    EccKeyPrivP256_to_ts_obfuscated (true : @EccKeyPrivP256 two_keys) = Ok obf /\
    EccKeyPrivP256_from_tomcrypt d = Ok true /\ EccKeyPrivP256_from_ts ts = Ok true /\
    EccKeyPrivP256_from_ts_obfuscated obf = Ok true) /\
  leading_zero (false : @EccKeyPrivP256 two_keys) = true.
Proof.
  split; [|reflexivity]. exact (identity_formats (true : @EccKeyPrivP256 two_keys)).
Defined.

Lemma public_key_formats_witness : exists d,
  EccKeyPubP256_to_tomcrypt (false : @EccKeyPubP256 two_keys) = Ok d /\
  EccKeyPubP256_from_tomcrypt d = Ok (false : @EccKeyPubP256 two_keys).
Proof.
  destruct (public_key_formats (false : @EccKeyPubP256 two_keys)) as (d & ts & Hd & _ & Hk & _).
  exists d. split; [exact Hd|exact Hk].
Defined.

Lemma import_terminates_witness : exists r,
  EccKeyPrivP256_import (H4 := two_keys) 5 [0x41; 0x42; 0x43; 0x44] = Some r /\ no_panic r = true.
Proof. exact (import_terminates [0x41; 0x42; 0x43; 0x44]). Defined.
