(* ===== verification/Identity.v ===== *)
(** Identities ([tsproto/src/lib.rs]) and the parts of [tsproto/src/algorithms.rs] that the
    handshake uses: the hash cash of an identity, the agreement on the shared iv and mac, and the
    conversion of the puzzle's numbers. *)
From S2P Require Import Prelude ByteIO Text Packets InitPackets CryptoLib License Crypto KeyFormats.
#[local] Open Scope Z_scope.

Definition u64_max : Z := 2 ^ 64 - 1.

(** [u8::trailing_zeros] of a byte that is not zero. *)
Fixpoint trailing_zeros (n : nat) (d : Z) : Z :=
  match n with
  | O => 0
  | S n => if Z.odd d then 0 else 1 + trailing_zeros n (d / 2)
  end.

Section identity.
Context `{Profile, Base64Enc, Base64Dec, Sha1, Asn1, BigIntIo, P256, Ed25519}.

(** * Hash cash *)

Fixpoint level_loop (data : list Z) (acc : Z) : res CryptoError Z :=
  match data with
  | [] => Ok acc
  | d :: data =>
      if d =? 0 then
        let? acc := arith 8 (acc + 8) in level_loop data acc
      else arith 8 (acc + trailing_zeros 8 d)
  end.

Definition get_hash_cash_level (omega : list Z) (offset : Z) : res CryptoError Z :=
  level_loop (sha1 (omega ++ to_dec offset)) 0.

(** [while offset < u64::MAX && get_hash_cash_level(&omega, offset) < target { offset += 1; }];
    [None] when the fuel does not suffice. *)
Fixpoint hash_cash_loop (fuel : nat) (omega : list Z) (target offset : Z)
    : option (res CryptoError Z) :=
  match fuel with
  | O => None
  | S fuel =>
      if offset <? u64_max then
        match get_hash_cash_level omega offset with
        | Ok level =>
            if level <? target then
              match arith 64 (offset + 1) with
              | Ok offset => hash_cash_loop fuel omega target offset
              | r => Some r
              end
            else Some (Ok offset)
        | r => Some r
        end
      else Some (Ok offset)
  end.

Definition hash_cash (fuel : nat) (key : EccKeyPubP256) (level : Z) : option (res CryptoError Z) :=
  match EccKeyPubP256_to_ts key with
  | Ok omega => hash_cash_loop fuel omega level 0
  | Err e => Some (Err e)
  | Panic => Some Panic
  end.

(** * The identity *)

Record Identity := { id_key : EccKeyPrivP256; counter : Z; max_counter : Z }.

Inductive IdentityError := IdentityCrypto (e : CryptoError).

Definition Identity_new_with_max_counter (key : EccKeyPrivP256) (counter max_counter : Z) : Identity :=
  {| id_key := key; counter := counter; max_counter := max_counter |}.

Definition Identity_new (key : EccKeyPrivP256) (counter : Z) : Identity :=
  Identity_new_with_max_counter key counter counter.

Definition set_key (i : Identity) (k : EccKeyPrivP256) : Identity :=
  {| id_key := k; counter := counter i; max_counter := max_counter i |}.
Definition set_counter (i : Identity) (c : Z) : Identity :=
  {| id_key := id_key i; counter := c; max_counter := max_counter i |}.
Definition set_max_counter (i : Identity) (c : Z) : Identity :=
  {| id_key := id_key i; counter := counter i; max_counter := c |}.

Definition Identity_level (i : Identity) : res CryptoError Z :=
  let? omega := EccKeyPubP256_to_ts (EccKeyPrivP256_to_pub (id_key i)) in
  get_hash_cash_level omega (counter i).

Definition upgrade_level (fuel : nat) (i : Identity) (target : Z) : option (res CryptoError Identity) :=
  match EccKeyPubP256_to_ts (EccKeyPrivP256_to_pub (id_key i)) with
  | Ok omega =>
      r ← hash_cash_loop fuel omega target (max_counter i);
      Some (let? offset := r in Ok (Identity_new_with_max_counter (id_key i) offset offset))
  | Err e => Some (Err e)
  | Panic => Some Panic
  end.

(** The import has the fuel it needs. *)
Definition import_key (data : list Z) : option (res CryptoError EccKeyPrivP256) :=
  EccKeyPrivP256_import (S (length data)) data.
Definition import_key_str (s : list Z) : option (res CryptoError EccKeyPrivP256) :=
  EccKeyPrivP256_import_str (S (length s)) s.

Definition new_from_ts_str (key : list Z) : option (res IdentityError Identity) :=
  match list_find (fun c => c = 0x56) key with
  | None => Some (Err (IdentityCrypto NoCounterBlock))
  | Some (counter_separator, _) =>
      match parse_uint 64 (take counter_separator key) with
      | None => Some (Err (IdentityCrypto NoCounterBlock))
      | Some counter =>
          r ← import_key_str (drop (S counter_separator) key);
          Some (let? ecc_key := map_err IdentityCrypto r in Ok (Identity_new ecc_key counter))
      end
  end.

(** [let mut res = Self::new(key?, 0); res.upgrade_level(8); Ok(res)] *)
Definition new_upgraded (fuel : nat) (key : res CryptoError EccKeyPrivP256)
    : option (res IdentityError Identity) :=
  match key with
  | Ok k => map_err IdentityCrypto <$> upgrade_level fuel (Identity_new k 0) 8
  | Err e => Some (Err (IdentityCrypto e))
  | Panic => Some Panic
  end.

Definition Identity_create (fuel : nat) (random_key : EccKeyPrivP256)
    : option (res IdentityError Identity) :=
  new_upgraded fuel (Ok random_key).

Definition new_from_str (fuel : nat) (key : list Z) : option (res IdentityError Identity) :=
  r ← new_from_ts_str key;
  match r with
  | Err _ => k ← import_key_str key; new_upgraded fuel k
  | r => Some r
  end.

Definition new_from_bytes (fuel : nat) (key : list Z) : option (res IdentityError Identity) :=
  k ← import_key key; new_upgraded fuel k.

(** * Shared iv and mac *)

(** [for i in 0..len { shared_iv[i + start] ^= v[i]; }] *)
Fixpoint xor_at (v : list Z) (start : nat) (iv : list Z) : res CryptoError (list Z) :=
  match v with
  | [] => Ok iv
  | b :: v =>
      let? x := index iv start in
      let? iv := set_index iv start (Z.lxor x b) in
      xor_at v (S start) iv
  end.

Definition compute_iv_mac (alpha beta : list Z) (our_key : Scalar) (other_key : Point)
    : res CryptoError (list Z * list Z) :=
  let shared_secret := EccKeyPrivEd25519_create_shared_secret our_key other_key in
  let shared_iv := sha512 shared_secret in
  let? shared_iv := xor_at alpha 0 shared_iv in
  let? shared_iv := xor_at beta 10 shared_iv in
  let? shared_mac := slice_to (sha1 shared_iv) 8 in
  Ok (shared_iv, shared_mac).

(** * The numbers of the puzzle *)

(** A [BigUint] is a [BigInt] that is not negative.  [64 - len] panics, and without overflow
    checks the allocation of its wrapped value. *)
Definition biguint_to_array (i : Z) : res CryptoError (list Z) :=
  let v := snd (bi_to_bytes_le i) in
  if bool_decide (64 < length v)%nat then Panic else
  Ok (reverse (v ++ replicate (64 - length v) 0)).

Definition array_to_biguint (a : list Z) : Z := bi_from_bytes_be Plus a.
End identity.
