(* ===== verification/IdentityLevel.v ===== *)
(** The level of an identity is the position of the lowest bit of the hash, the upgrade finds the
    first counter with the level, both sides of the handshake compute the same iv and mac, and the
    numbers of the puzzle survive their conversions. *)
From stdpp Require Import strings.
From S2P Require Import Prelude ByteIO Text Packets InitPackets CryptoLib License Crypto KeyFormats Identity.
#[local] Open Scope Z_scope.

(** * The level *)

(** The hash as a little-endian number. *)
Definition le_value (data : list Z) : Z := foldr (fun d v => d + 256 * v) 0 data.

(** [n] is the position of the lowest set bit of [v]. *)
Definition lowest_bit (v n : Z) : Prop :=
  Z.testbit v n = true /\ forall i, 0 <= i < n -> Z.testbit v i = false.

Definition lowest_bit_b (d : Z) (k : nat) : bool :=
  Z.testbit d (Z.of_nat k) && forallb (fun i => negb (Z.testbit d (Z.of_nat i))) (seq 0 k).

Lemma lowest_bit_reflect d k : lowest_bit_b d k = true -> lowest_bit d (Z.of_nat k).
Proof.
  intros [Hk Hi]%andb_prop. split; [done|]. intros i Hik. rewrite forallb_forall in Hi.
  specialize (Hi (Z.to_nat i)). rewrite Z2Nat.id in Hi by lia. apply negb_true_iff, Hi, in_seq. lia.
Qed.

(** Checked for every byte. *)
Lemma trailing_zeros_bytes :
  forallb (fun n => (0 <=? trailing_zeros 8 (Z.of_nat n)) && (trailing_zeros 8 (Z.of_nat n) <? 8) &&
    lowest_bit_b (Z.of_nat n) (Z.to_nat (trailing_zeros 8 (Z.of_nat n)))) (seq 1 255) = true.
Proof. vm_compute. reflexivity. Qed.

Lemma trailing_zeros_spec d :
  is_u8 d -> d <> 0 -> 0 <= trailing_zeros 8 d < 8 /\ lowest_bit d (trailing_zeros 8 d).
Proof.
  intros [H1 H2] Hd. pose proof trailing_zeros_bytes as Hall. rewrite forallb_forall in Hall.
  specialize (Hall (Z.to_nat d)). rewrite Z2Nat.id in Hall by lia.
  apply andb_prop in Hall as [Hr Hl]; [|apply in_seq; lia].
  apply lowest_bit_reflect in Hl. rewrite Z2Nat.id in Hl by lia. split; [lia|done].
Qed.

(** The bits of a number whose lowest byte is [d]. *)
Lemma le_low d v i : is_u8 d -> 0 <= i < 8 -> Z.testbit (d + 256 * v) i = Z.testbit d i.
Proof.
  intros Hd Hi. rewrite <- (Z.mod_pow2_bits_low (d + 256 * v) 8 i) by lia.
  rewrite (Z.mul_comm 256). change 256 with (2 ^ 8). rewrite Z_mod_plus_full.
  by rewrite Z.mod_small by apply Hd.
Qed.

Lemma le_high d v i : is_u8 d -> 8 <= i -> Z.testbit (d + 256 * v) i = Z.testbit v (i - 8).
Proof.
  intros Hd Hi. replace i with (i - 8 + 8) at 1 by lia. rewrite <- Z.div_pow2_bits by lia.
  change (2 ^ 8) with 256. rewrite (Z.mul_comm 256), Z.div_add by lia.
  by rewrite Z.div_small by apply Hd.
Qed.

Section level.
Context `{Profile}.
Context `{Sha1Laws}.

(** The loop adds the position of the lowest bit, or all bits when there is none. *)
Lemma level_loop_spec `{P256} data acc :
  bytes data -> 0 <= acc -> acc + 8 * Z.of_nat (length data) < 256 ->
  exists n, level_loop data acc = Ok (acc + n) /\ 0 <= n <= 8 * Z.of_nat (length data) /\
    (le_value data = 0 /\ n = 8 * Z.of_nat (length data) \/ lowest_bit (le_value data) n).
Proof.
  intros Hb. revert acc. induction Hb as [|d data Hd _ IH]; intros acc Hacc Hmax.
  - exists 0. rewrite Z.add_0_r. split_and!; try done. by left.
  - cbn [level_loop length] in *. cbn [le_value foldr]. change (foldr _ 0 data) with (le_value data).
    destruct (Z.eqb_spec d 0) as [->|Hne].
    + rewrite arith_ok by (unfold is_uint; simpl; lia). cbn [res_bind].
      destruct (IH (acc + 8)) as (n & -> & Hn & Hcase); [lia..|].
      exists (8 + n). split_and!; [f_equal; lia|lia|lia|].
      destruct Hcase as [[-> ->]|[Ht Hf]]; [left; lia|right]. split.
      * rewrite le_high by (done || lia). by replace (8 + n - 8) with n by lia.
      * intros i Hi. destruct (Z_lt_ge_dec i 8).
        -- rewrite le_low by (done || lia). by apply Z.bits_0.
        -- rewrite le_high by (done || lia). apply Hf. lia.
    + destruct (trailing_zeros_spec d Hd Hne) as [Hr [Ht Hf]].
      rewrite arith_ok by (unfold is_uint; change (2 ^ 8) with 256; lia).
      exists (trailing_zeros 8 d). split_and!; [done|lia|lia|]. right. split.
      * by rewrite le_low.
      * intros i Hi. rewrite le_low by (done || lia). by apply Hf.
Qed.
End level.

Section upgrade.
Context `{Profile}.
Context `{P256Laws, Base64Laws, Sha1Laws, Asn1Laws, BigIntLaws}.

Lemma level_spec omega offset : exists level, get_hash_cash_level omega offset = Ok level /\
  0 <= level <= 160 /\
  let v := le_value (sha1 (omega ++ to_dec offset)) in (v = 0 /\ level = 160 \/ lowest_bit v level).
Proof.
  unfold get_hash_cash_level. pose proof (sha1_length (omega ++ to_dec offset)) as Hl.
  destruct (level_loop_spec (sha1 (omega ++ to_dec offset)) 0) as (n & -> & Hn & Hc).
  - apply sha1_bytes.
  - lia.
  - rewrite Hl. simpl. lia.
  - rewrite Hl in *. exists n. split; [done|]. split; [lia|exact Hc].
Qed.

(** The level of [offset] reaches [target]. *)
Definition reaches (omega : list Z) (target offset : Z) : Prop :=
  exists level, get_hash_cash_level omega offset = Ok level /\ target <= level.

(** [c] is the first counter from [start] that reaches the target, or the end of the range. *)
Definition first_counter (omega : list Z) (target start c : Z) : Prop :=
  start <= c <= u64_max /\ (c = u64_max \/ reaches omega target c) /\
  forall o, start <= o < c -> ~ reaches omega target o.

Lemma hash_cash_loop_spec omega target n offset :
  0 <= offset -> Z.of_nat n = u64_max - offset ->
  exists c, first_counter omega target offset c /\
    forall fuel, c - offset < Z.of_nat fuel -> hash_cash_loop fuel omega target offset = Some (Ok c).
Proof.
  revert offset. induction n as [|n IH]; intros offset Hoff Hn.
  - exists offset. split.
    + split_and!; [lia|lia|left; lia|]. intros o Ho. lia.
    + intros [|fuel] Hf; [lia|]. cbn [hash_cash_loop]. by destruct (Z.ltb_spec offset u64_max); [lia|].
  - destruct (level_spec omega offset) as (level & Hlevel & _).
    destruct (Z.ltb_spec level target) as [Hlt|Hge].
    + destruct (IH (offset + 1)) as (c & (Hr & Hc & Hfirst) & Hloop); [lia..|].
      exists c. split.
      * split_and!; [lia|lia|done|]. intros o Ho. destruct (Z.eq_dec o offset) as [->|].
        -- intros (l & Hl & Hge). rewrite Hlevel in Hl. injection Hl as ->. lia.
        -- apply Hfirst. lia.
      * intros [|fuel] Hf; [lia|]. cbn [hash_cash_loop].
        destruct (Z.ltb_spec offset u64_max); [|lia]. rewrite Hlevel.
        destruct (Z.ltb_spec level target); [|lia].
        rewrite arith_ok by (unfold is_uint, u64_max in *; lia). apply Hloop. lia.
    + exists offset. split.
      * split_and!; [lia|lia|right; by exists level|]. intros o Ho. lia.
      * intros [|fuel] Hf; [lia|]. cbn [hash_cash_loop].
        destruct (Z.ltb_spec offset u64_max); [|lia]. rewrite Hlevel.
        by destruct (Z.ltb_spec level target); [lia|].
Qed.

Lemma public_text k : exists omega, EccKeyPubP256_to_ts k = Ok omega.
Proof.
  unfold EccKeyPubP256_to_ts. destruct (public_tomcrypt k) as (d & -> & _). by eexists.
Qed.

(** The hash cash level never overflows its byte and is the number of zero bits before the
    lowest set bit of the hash, read as a little-endian number (160 for a hash of zeros). *)
Theorem hash_cash_level_lowest_bit (omega : list Z) (offset : Z) :
  exists level, get_hash_cash_level omega offset = Ok level /\ 0 <= level <= 160 /\
  let v := le_value (sha1 (omega ++ to_dec offset)) in (v = 0 /\ level = 160 \/ lowest_bit v level).
Proof. exact (level_spec omega offset). Qed.

(** C28: Upgrading an identity terminates with the first counter, from the highest one that was
    tried, whose level reaches the target, or with the last counter; the key stays. *)
Theorem upgrade_level_first (i : Identity) (target : Z) (Hcounter : 0 <= max_counter i <= u64_max) :
  exists omega c, EccKeyPubP256_to_ts (EccKeyPrivP256_to_pub (id_key i)) = Ok omega /\
    first_counter omega target (max_counter i) c /\
    forall fuel, c - max_counter i < Z.of_nat fuel ->
      upgrade_level fuel i target = Some (Ok {| id_key := id_key i; counter := c; max_counter := c |}).
Proof.
  destruct (public_text (EccKeyPrivP256_to_pub (id_key i))) as (omega & Homega).
  destruct (hash_cash_loop_spec omega target (Z.to_nat (u64_max - max_counter i)) (max_counter i))
    as (c & Hc & Hloop); [lia..|].
  exists omega, c. split_and!; [done|done|]. intros fuel Hf. unfold upgrade_level.
  rewrite Homega, Hloop by done. done.
Qed.

(** * Identity strings *)

Lemma list_find_app_v (pre rest : list Z) :
  0x56 ∉ pre -> list_find (fun c => c = 0x56) (pre ++ 0x56 :: rest) = Some (length pre, 0x56).
Proof.
  intros Hpre. apply list_find_Some. split_and!.
  - by rewrite lookup_app_r, Nat.sub_diag by lia.
  - done.
  - intros j y Hj Hlt ->. rewrite lookup_app_l in Hj by done. by apply list_elem_of_lookup_2, Hpre in Hj.
Qed.

Lemma to_dec_no_v c : 0 <= c -> 0x56 ∉ to_dec c.
Proof.
  intros Hc Hin. destruct (to_dec_spec c Hc) as (_ & Hds & _).
  eapply Forall_forall in Hin; [|exact Hds]. simpl in Hin. lia.
Qed.

(** An identity string is read as its counter and its key: the counter of the result is the
    printed one, for every counter of 64 bits, and the key is the import of the rest. *)
Theorem identity_string (c : Z) (key : list Z) (Hc : is_u64 c) :
  exists r, import_key_str key = Some r /\ no_panic r = true /\
    new_from_ts_str (to_dec c ++ 0x56 :: key) =
      Some (res_bind (map_err IdentityCrypto r) (fun k => Ok (Identity_new k c))).
Proof.
  destruct (import_str_imports (S (length key)) key) as (r & Hr & Hp).
  { intros d [Hd| ->]; apply import_imports; simpl; lia. }
  change (import_key_str key = Some r) in Hr.
  exists r. split_and!; [done|done|]. unfold new_from_ts_str.
  rewrite list_find_app_v by (by apply to_dec_no_v, Hc). rewrite take_app_length.
  rewrite parse_to_dec by done.
  change (0x56 :: key) with ([0x56] ++ key). rewrite app_assoc.
  rewrite drop_app_length' by (rewrite length_app; simpl; lia). by rewrite Hr.
Qed.

(** * Numbers of the puzzle *)

Lemma biguint_array_ok i : 0 <= i < 2 ^ 512 ->
  exists a, biguint_to_array i = Ok a /\ length a = 64%nat /\ bytes a /\ be_decode a 0 = i.
Proof.
  intros [Hi Hlt]. unfold biguint_to_array. rewrite bi_to_le. cbn [snd].
  destruct (bi_to_be i) as (m & Hm & Hb & Hv). pose proof (bi_minimal i 64 ltac:(lia)) as Hmin.
  rewrite Hm in *. cbn [snd] in *. rewrite length_reverse. rewrite Z.abs_eq in * by done.
  rewrite bool_decide_false by (specialize (Hmin Hlt); lia).
  eexists. split; [reflexivity|]. specialize (Hmin Hlt).
  rewrite reverse_app, reverse_involutive, reverse_replicate.
  split_and!; [rewrite length_app, length_replicate; lia| |by rewrite be_decode_zeros].
  apply Forall_app. split; [|done]. apply Forall_replicate. by unfold is_uint.
Qed.

Lemma biguint_array_long i : 2 ^ 512 <= i -> biguint_to_array i = Panic.
Proof.
  intros Hge. unfold biguint_to_array. rewrite bi_to_le. cbn [snd].
  destruct (bi_to_be i) as (m & -> & Hb & Hv). cbn [snd]. rewrite length_reverse.
  rewrite Z.abs_eq in Hv by lia. rewrite bool_decide_true; [done|].
  destruct (decide (64 < length m)%nat); [done|exfalso].
  destruct (be_encode_decode m Hb) as [[_ Hu] _]. rewrite Hv in Hu.
  assert (2 ^ width (length m) <= 2 ^ 512); [|lia].
  apply Z.pow_le_mono_r; unfold width; lia.
Qed.

(** A number of at most 512 bits is stored in 64 bytes and read back; a longer one makes the
    conversion panic. *)
Theorem biguint_array_roundtrip (i : Z) (Hi : 0 <= i) :
  (i < 2 ^ 512 -> exists a, biguint_to_array i = Ok a /\ length a = 64%nat /\ bytes a /\
    array_to_biguint a = i) /\
  (2 ^ 512 <= i -> biguint_to_array i = Panic).
Proof.
  split; [|apply biguint_array_long]. intros Hlt.
  destruct (biguint_array_ok i) as (a & Ha & Hl & Hb & Hv); [done|]. exists a. split_and!; try done.
  unfold array_to_biguint. by rewrite bi_from_be.
Qed.

(** * Shared iv and mac *)

(** The iv is the hash of the shared secret, xored with [alpha] and then [beta]. *)
Definition mixed_iv (alpha beta iv : list Z) : list Z :=
  xor_prefix 10 alpha (take 10 iv) ++ xor_prefix 54 beta (drop 10 iv).

Lemma xor_at_spec v pre iv : (length v <= length iv)%nat ->
  xor_at v (length pre) (pre ++ iv) = Ok (pre ++ xor_prefix (length v) v iv).
Proof.
  revert pre iv. induction v as [|b v IH]; intros pre iv Hl; [done|].
  destruct iv as [|x iv]; [simpl in Hl; lia|]. cbn [xor_at length xor_prefix].
  rewrite index_skip, Nat.sub_diag by lia. cbn [res_bind index unwrap lookup list_lookup].
  rewrite set_index_skip, Nat.sub_diag, set_index_ok by (simpl; lia). cbn.
  replace (S (length pre)) with (length (pre ++ [Z.lxor x b])) by (rewrite length_app; simpl; lia).
  change (Z.lxor x b :: iv) with ([Z.lxor x b] ++ iv). rewrite app_assoc, IH by (simpl in Hl; lia).
  by rewrite <- app_assoc.
Qed.

Lemma xor_at_0 v iv : (length v <= length iv)%nat -> xor_at v 0 iv = Ok (xor_prefix (length v) v iv).
Proof. exact (xor_at_spec v [] iv). Qed.

Lemma xor_at_mixed alpha beta iv :
  length alpha = 10%nat -> length beta = 54%nat -> length iv = 64%nat ->
  res_bind (xor_at alpha 0 iv) (xor_at beta 10) = Ok (mixed_iv alpha beta iv).
Proof.
  intros Ha Hb Hi. rewrite <- (take_drop 10 iv).
  assert (Ht : length (take 10 iv) = 10%nat) by (rewrite length_take; lia).
  assert (Hx : xor_at alpha 0 (take 10 iv ++ drop 10 iv) =
    Ok (xor_prefix 10 alpha (take 10 iv) ++ drop 10 iv)).
  { rewrite xor_at_0 by (rewrite length_app, length_drop; lia). f_equal. rewrite Ha. clear Hi. revert Ha Ht. generalize (take 10 iv), (drop 10 iv). intros l k Ha Hl.
    revert alpha l Ha Hl. generalize 10%nat. induction n as [|n IH]; intros [|a al] [|x l] Ha Hl;
      try done. simpl. by rewrite IH by (simpl in *; lia). }
  rewrite Hx. cbn [res_bind]. replace 10%nat with (length (xor_prefix 10 alpha (take 10 iv))) at 1
    by (by rewrite xor_prefix_length).
  rewrite xor_at_spec by (rewrite length_drop; lia). unfold mixed_iv.
  by rewrite Hb, (take_drop 10).
Qed.

Section agreement.
Context `{Ed25519Laws}.

Lemma compute_iv_mac_ok alpha beta k p :
  length alpha = 10%nat -> length beta = 54%nat ->
  let iv := mixed_iv alpha beta (sha512 (compress_point (point_mul p k))) in
  compute_iv_mac alpha beta k p = Ok (iv, take 8 (sha1 iv)).
Proof.
  intros Ha Hb iv. unfold compute_iv_mac, EccKeyPrivEd25519_create_shared_secret.
  pose proof (xor_at_mixed alpha beta _ Ha Hb (sha512_length (compress_point (point_mul p k)))) as Hx.
  destruct (xor_at alpha 0 _) as [a| |]; cbn [res_bind] in *; [|done..]. rewrite Hx. cbn [res_bind].
  rewrite slice_to_ok by (rewrite sha1_length; lia). done.
Qed.

(** Both sides of a handshake, each with its own secret scalar and the public point of the
    other, compute the same iv of 64 bytes and the same mac of 8 bytes, where the product of
    scalars is commutative. *)
Theorem iv_mac_agreement (alpha beta : list Z) (a b : Scalar)
    (Hcomm : scalar_mul a b = scalar_mul b a)
    (Halpha : length alpha = 10%nat) (Hbeta : length beta = 54%nat) :
  exists iv mac, length iv = 64%nat /\ length mac = 8%nat /\
    compute_iv_mac alpha beta a (point_mul base_point b) = Ok (iv, mac) /\
    compute_iv_mac alpha beta b (point_mul base_point a) = Ok (iv, mac).
Proof.
  rewrite !compute_iv_mac_ok by done. rewrite <- !point_mul_mul, Hcomm.
  eexists _, _. split_and!; [..|done|done].
  - unfold mixed_iv. rewrite length_app, !xor_prefix_length, <- length_app, take_drop.
    apply sha512_length.
  - rewrite length_take, sha1_length. lia.
Qed.
End agreement.
End upgrade.

(** * Witnesses *)

Definition sample_identity : Identity (H5 := two_keys) :=
  Identity_new_with_max_counter (H5 := two_keys) true 0 17.

Lemma upgrade_level_first_witness : 0 <= 17 <= u64_max /\ exists omega c,
  first_counter (H := release_profile) (H0 := two_keys) omega 3 17 c.
Proof.
  split; [done|].
  assert (Hc : 0 <= max_counter sample_identity <= u64_max) by (split; [done|by vm_compute]).
  destruct (upgrade_level_first (H := release_profile) sample_identity 3 Hc) as (omega & c & _ & Hfirst & _).
  exists omega, c. exact Hfirst.
Defined.

Lemma hash_cash_level_lowest_bit_witness : exists level,
  get_hash_cash_level (H := release_profile) (H5 := two_keys) [] 7 = Ok level /\ 0 <= level <= 160.
Proof.
  destruct (hash_cash_level_lowest_bit (H := release_profile) (H0 := two_keys) [] 7) as (l & Hl & Hr & _).
  exists l. split; [exact Hl|exact Hr].
Defined.

Lemma identity_string_witness : is_u64 (2 ^ 64 - 1) /\ exists r,
  new_from_ts_str (H5 := two_keys) (byte_str "18446744073709551615VAAAA") = Some r.
Proof.
  split; [done|]. destruct (identity_string (H0 := two_keys) (2 ^ 64 - 1) (byte_str "AAAA")) as (r & _ & _ & Hr);
    [done|]. eexists. exact Hr.
Defined.

Lemma biguint_array_roundtrip_witness : 2 ^ 512 <= 2 ^ 512 /\ biguint_to_array (H5 := two_keys) (2 ^ 512) = Panic.
Proof. split; [done|]. by apply (proj2 (biguint_array_roundtrip (H0 := two_keys) (2 ^ 512) ltac:(done))). Defined.

Lemma iv_mac_agreement_witness :
  exists iv mac, length iv = 64%nat /\ length mac = 8%nat /\
    compute_iv_mac (H5 := two_keys) (replicate 10 1) (replicate 54 2) (true : @Scalar two_points)
      (point_mul base_point (false : @Scalar two_points)) = Ok (iv, mac).
Proof.
  destruct (iv_mac_agreement (H0 := two_keys) (replicate 10 1) (replicate 54 2)
    (true : @Scalar two_points) (false : @Scalar two_points)) as (iv & mac & H1 & H2 & H3 & _);
    [reflexivity..|].
  exists iv, mac. split; [exact H1|split; [exact H2|exact H3]].
Defined.
