(* ===== verification/LicenseParse.v ===== *)
(** The parser of licenses accepts exactly the chains of blocks with nested validity, and the
    keys that are derived from the public and from the private side of a license belong
    together. *)
From S2P Require Import Prelude ByteIO Text License.
From stdpp Require Import strings.
#[local] Open Scope Z_scope.

Section spec.
Context `{BeIo} `{Calendar} `{Ed25519} `{LicenseTypes}.

(** * The specification of an accepted license *)

(** The validity [before .. after] of a block lies in the one of the block around it, and contains
    the current time when that is checked. *)
Definition within (check_expired : bool) (now : DateTime) (bounds : option LicenseTimeBounds)
    (before after : DateTime) : Prop :=
  (check_expired = true -> date_ltb now before = false /\ date_ltb after now = false) /\
  match bounds with
  | Some (start, end_) => date_ltb before start = false /\ date_ltb end_ after = false
  | None => True
  end.

(** The blocks [bs] cover the data [d] from [off] to the end. *)
Inductive license_chain (check_expired : bool) (now : DateTime) (d : list Z) :
    nat -> option LicenseTimeBounds -> list License -> Prop :=
  | chain_end bounds : license_chain check_expired now d (length d) bounds []
  | chain_block off bounds l before after bs :
      (off < length d)%nat ->
      License_parse (drop off d) = Ok l ->
      get_not_valid_before (take (len l) (drop off d)) = Ok before ->
      get_not_valid_after (take (len l) (drop off d)) = Ok after ->
      within check_expired now bounds before after ->
      license_chain check_expired now d (off + len l) (Some (before, after)) bs ->
      license_chain check_expired now d off bounds (l :: bs).

(** Every block holds the public key of its private key. *)
Fixpoint keyed (d : list Z) (off : nat) (bs : list License) : Prop :=
  match bs with
  | [] => True
  | l :: bs =>
      (exists k block, private_key l = Some k /\
        slice (E := LicenseError) d off (off + len l) = Ok block /\
        slice (E := LicenseError) block 1 33 = Ok (to_pub k)) /\
      keyed d (off + len l) bs
  end.

End spec.

Section parse.
Context `{BeIoLaws} `{CalendarLaws} `{Ed25519Laws} `{LicenseTypes}.

(** * One block *)

Lemma position_zero_lt l n : position_zero l = Some n -> (n < length l)%nat.
Proof.
  unfold position_zero. rewrite fmap_Some. intros ([i x] & Hf & ->).
  apply list_find_Some in Hf as (Hl & _). by apply lookup_lt_Some in Hl.
Qed.

(** The positions that the loop collects are those of properties inside the data. *)
Lemma properties_loop_safe count d all pos :
  (2 <= pos <= length d)%nat ->
  safe (fun '(ps, e) => (pos <= e <= length d)%nat /\
    Forall (fun p => exists b, d !! (p + 2)%nat = Some b /\ (p + 3 + Z.to_nat b < length d)%nat /\
      (p + 3 + Z.to_nat b <= e)%nat) ps) (properties_loop count d all pos).
Proof.
  revert pos. induction count as [|count IH]; intros pos Hpos; simpl.
  - split; [lia|constructor].
  - case_bool_decide; [done|]. destruct (index_lt (E := LicenseError) d pos) as (b & Hb & ->); [lia|].
    cbn [res_bind]. case_bool_decide; [done|].
    eapply safe_bind; [apply IH; lia|]. intros [ps e] [He Hps]. simpl. split; [lia|].
    constructor; [|done]. exists b. replace (pos - 2 + 2)%nat with pos by lia.
    repeat split; [done|lia|lia].
Qed.

Lemma issuer_len_safe d skip :
  (skip < length d)%nat -> safe (fun n => (skip + n < length d)%nat) (issuer_len d skip).
Proof.
  intros Hs. unfold issuer_len. rewrite slice_from_ok by lia. cbn [res_bind].
  destruct (position_zero _) eqn:Hp; [|done]. simpl. apply position_zero_lt in Hp.
  rewrite length_drop in Hp. lia.
Qed.

Lemma parse_inner_safe typ typ_i d all :
  safe (fun '(_, n) => (n <= length d)%nat) (parse_inner typ typ_i d all).
Proof.
  destruct typ; unfold parse_inner; try done; try (case_bool_decide; [done|]).
  - eapply safe_bind; [apply issuer_len_safe; lia|]. simpl. lia.
  - eapply safe_bind; [apply issuer_len_safe; lia|]. simpl. lia.
  - destruct (index_lt (E := LicenseError) d 1) as (c & _ & ->); [lia|]. cbn [res_bind].
    eapply safe_bind; [apply properties_loop_safe; lia|]. intros [ps e] [? _]. simpl. lia.
  - simpl. lia.
Qed.

(** [License::parse] does not panic, and the block it returns lies inside the data. *)
Lemma License_parse_safe d :
  safe (fun l => (42 <= len l <= length d)%nat /\ private_key l = None) (License_parse d).
Proof.
  unfold License_parse, BLOCK_TYPE_OFFSET, BLOCK_MIN_LEN. case_bool_decide; [done|].
  destruct (index_lt (E := LicenseError) d 0) as (k & _ & ->); [lia|]. cbn [res_bind].
  destruct (negb _); [done|].
  destruct (index_lt (E := LicenseError) d 33) as (ti & _ & ->); [lia|]. cbn [res_bind].
  destruct (LicenseBlockType_from_u8 ti) as [typ|]; [|done]. cbn [ok_or res_bind].
  rewrite slice_from_ok by lia. cbn [res_bind].
  eapply safe_bind; [apply parse_inner_safe|]. intros [i n] Hn. simpl.
  rewrite length_drop in Hn. split; [lia|done].
Qed.

Lemma License_parse_len d l :
  License_parse d = Ok l -> (42 <= len l <= length d)%nat /\ private_key l = None.
Proof. intros Hl. pose proof (License_parse_safe d) as Hs. by rewrite Hl in Hs. Qed.

Lemma get_timestamp_ok d off :
  bytes d -> (off + 4 <= length d)%nat ->
  exists t n, get_timestamp d off = Ok t /\ read_be 4 (drop off d) = Some n /\ is_u32 n /\
    unix_timestamp t = n + TIMESTAMP_OFFSET.
Proof.
  intros Hb Hoff. unfold get_timestamp. rewrite slice_from_ok by lia. cbn [res_bind].
  destruct (read_be_total 4 (drop off d)) as (n & Hn & Hu & _);
    [by apply Forall_drop|rewrite length_drop; lia|].
  rewrite Hn. cbn [ok_or res_bind].
  assert (0 <= n + TIMESTAMP_OFFSET < 253402300800) as Hr.
  { change (width 4) with 32 in Hu. unfold is_uint in Hu. unfold TIMESTAMP_OFFSET. lia. }
  destruct (date_of_timestamp _ Hr) as (t & Ht & Hu'). rewrite Ht. by exists t, n.
Qed.

(** * The list of blocks *)

Lemma parse_block_ok d check now bounds l b e :
  parse_block d check now bounds = Ok (l, (b, e)) <->
  License_parse d = Ok l /\ get_not_valid_before (take (len l) d) = Ok b /\
  get_not_valid_after (take (len l) d) = Ok e /\ within check now bounds b e.
Proof.
  unfold parse_block, within. split.
  - intros Hp. inv_binds. apply License_parse_len in Ha as Hlen. destruct Hlen as [Hlen _].
    rewrite slice_to_ok in Ha0 by lia. injection Ha0 as <-.
    destruct (date_ltb now a1) eqn:E1, (date_ltb a2 now) eqn:E2, check; try discriminate Hp;
      simpl in Hp; (destruct bounds as [[s en]|];
        [destruct (date_ltb a1 s) eqn:E3, (date_ltb en a2) eqn:E4; try discriminate Hp|]);
      simpl in Hp; injection Hp as <- <- <-; repeat split; done.
  - intros (Hl & Hb & He & Hw & Hn). rewrite Hl. cbn [res_bind].
    apply License_parse_len in Hl as [Hlen _]. rewrite slice_to_ok by lia. cbn [res_bind].
    rewrite Hb, He. cbn [res_bind].
    destruct check; [destruct Hw as [-> ->]; [done|]|]; rewrite ?andb_false_r;
      (destruct bounds as [[s en]|]; [destruct Hn as [-> ->]|]; done).
Qed.

Lemma parse_block_safe d check now bounds :
  bytes d -> no_panic (parse_block d check now bounds) = true.
Proof.
  intros Hb. unfold parse_block. apply safe_no_panic.
  eapply safe_bind; [apply License_parse_safe|]. intros l [Hlen _].
  rewrite slice_to_ok by lia. cbn [res_bind].
  assert (bytes (take (len l) d)) as Hbt by by apply Forall_take.
  unfold get_not_valid_before, get_not_valid_after, BLOCK_NOT_VALID_BEFORE_OFFSET,
    BLOCK_NOT_VALID_AFTER_OFFSET.
  destruct (get_timestamp_ok (take (len l) d) 34 Hbt) as (b & _ & -> & _);
    [rewrite length_take; lia|].
  destruct (get_timestamp_ok (take (len l) d) 38 Hbt) as (e & _ & -> & _);
    [rewrite length_take; lia|].
  cbn [res_bind]. destruct (_ && _); [done|]. destruct (_ && _); [done|].
  destruct bounds as [[s en]|]; [|done]. by destruct (_ || _).
Qed.

Lemma parse_blocks_ok room d check now off bounds bs r :
  (off <= length d)%nat ->
  parse_blocks room d check now off bounds bs = Ok r <->
  exists new, r = bs ++ new /\ (length new <= room)%nat /\ license_chain check now d off bounds new.
Proof.
  revert off bounds bs. induction room as [|room IH]; intros off bounds bs Hoff; simpl.
  - case_bool_decide as Hend.
    + assert (off = length d) as -> by lia. split.
      * intros [= <-]. exists []. rewrite app_nil_r. repeat split; [simpl; lia|constructor].
      * intros ([|l new] & -> & Hl & _); simpl in Hl; [|lia]. by rewrite app_nil_r.
    + split; [done|]. intros ([|l new] & -> & Hl & Hc); simpl in Hl; [|lia].
      inversion Hc; subst. lia.
  - case_bool_decide as Hend.
    + assert (off = length d) as -> by lia. split.
      * intros [= <-]. exists []. rewrite app_nil_r. repeat split; [simpl; lia|constructor].
      * intros (new & -> & _ & Hc). inversion Hc; subst; [by rewrite app_nil_r|lia].
    + rewrite slice_from_ok by lia. cbn [res_bind]. split.
      * intros Hp. apply res_bind_ok in Hp as ((l & (b & e)) & Hb & Hp).
        apply parse_block_ok in Hb as (Hl & Hbe & He & Hw).
        pose proof (License_parse_len _ _ Hl) as [Hlen _]. rewrite length_drop in Hlen.
        apply IH in Hp as (new & -> & Hn & Hc); [|lia].
        exists (l :: new). rewrite <- app_assoc. simpl. repeat split; [lia|].
        by econstructor; try done; lia.
      * intros (new & -> & Hn & Hc). inversion Hc as [|? ? l b e new' ? Hl Hbe He Hw Hc']; subst; [lia|].
        rewrite (proj2 (parse_block_ok _ _ _ _ l b e)) by done. cbn [res_bind].
        pose proof (License_parse_len _ _ Hl) as [Hlen _]. rewrite length_drop in Hlen.
        apply IH; [lia|]. exists new'. rewrite <- app_assoc. simpl in Hn.
        repeat split; [lia|done].
Qed.

Lemma parse_blocks_safe room d check now off bounds bs :
  bytes d -> (off <= length d)%nat ->
  no_panic (parse_blocks room d check now off bounds bs) = true.
Proof.
  intros Hd. revert off bounds bs. induction room as [|room IH]; intros off bounds bs Hoff; simpl;
    case_bool_decide as Hend; try done.
  rewrite slice_from_ok by lia. cbn [res_bind].
  apply no_panic_bind; [by apply parse_block_safe, Forall_drop|].
  intros [l [b e]] [Hl _]%parse_block_ok. apply IH.
  apply License_parse_len in Hl as [Hlen _]. rewrite length_drop in Hlen. lia.
Qed.

(** C30: the parser of licenses accepts exactly the data with a version of 0 or 1 that at most eight
    blocks cover completely, each of them a well-formed block whose validity lies inside the one of
    the block before it and, when this is checked, contains the current time. *)
Theorem parse_internal_accepts (now : DateTime) (d : list Z) (check_expired : bool)
    (ls : Licenses) :
  parse_internal now d check_expired = Ok ls <->
  data ls = d /\ (exists version, d !! 0%nat = Some version /\ (version = 0 \/ version = 1)) /\
  (length (blocks ls) <= 8)%nat /\ license_chain check_expired now d 1 None (blocks ls).
Proof.
  unfold parse_internal. destruct d as [|v d'].
  { split; [done|]. by intros (_ & (v & Hv & _) & _). }
  set (d := v :: d'). cbn [index unwrap lookup list_lookup d res_bind].
  assert (1 <= length d)%nat as Hd by (simpl; lia). split.
  - destruct (Z.eqb_spec v 0), (Z.eqb_spec v 1); cbn [negb andb]; try discriminate;
      intros Hp; apply res_bind_ok in Hp as (bs & Hbs & [= <-]);
      apply parse_blocks_ok in Hbs as (new & -> & Hn & Hc); try done;
      (split; [done|split; [by eauto|done]]).
  - intros (Hdata & (v' & [= ->] & Hv) & Hn & Hc).
    replace (negb (v' =? 0) && negb (v' =? 1)) with false by (by destruct Hv as [-> | ->]).
    rewrite (proj2 (parse_blocks_ok _ _ _ _ _ _ _ (blocks ls) Hd)) by by exists (blocks ls).
    cbn [res_bind]. subst d. rewrite <- Hdata. by destruct ls.
Qed.

Lemma parse_internal_panic_iff (now : DateTime) (d : list Z) (check_expired : bool) (Hd : bytes d) :
  no_panic (parse_internal now d check_expired) = negb (bool_decide (d = [])).
Proof.
  unfold parse_internal. destruct d as [|v d']; [done|].
  rewrite bool_decide_false by done. cbn [index unwrap lookup list_lookup res_bind negb].
  destruct (_ && _); [done|]. apply no_panic_bind; [|done].
  apply parse_blocks_safe; [done|simpl; lia].
Qed.

(** The parser of licenses, which reads data of the peer, panics exactly on empty data. *)
Theorem parse_internal_panics (now : DateTime) (d : list Z) (check_expired : bool) (Hd : bytes d) :
  no_panic (parse_internal now d check_expired) = negb (bool_decide (d = [])).
Proof. by apply parse_internal_panic_iff. Qed.

(** * Keys *)

Lemma clamp_length h : length (clamp h) = length h.
Proof. unfold clamp. by rewrite !length_alter. Qed.

Lemma hash_key_ok d : (1 <= length d)%nat -> exists h, get_hash_key d = Ok h.
Proof.
  intros Hd. unfold get_hash_key. rewrite slice_from_ok by lia. cbn [res_bind].
  rewrite slice_to_ok by (rewrite clamp_length, sha512_length; lia). cbn [res_bind]. eauto.
Qed.

(** The keys of a chain of blocks are derived without a panic. *)
Lemma derive_public_safe d check now off bounds bs p :
  license_chain check now d off bounds bs -> (off <= length d)%nat ->
  no_panic (derive_public_loop d bs off p) = true.
Proof.
  intros Hc. revert p. induction Hc as [|off bounds l before after bs Hoff Hl _ _ _ _ IH]; intros p Hle; [done|].
  apply License_parse_len in Hl as [Hlen _]. rewrite length_drop in Hlen.
  cbn [derive_public_loop]. rewrite slice_ok by lia. cbn [res_bind].
  set (block := take _ _). assert (length block = len l) as Hbl
    by (unfold block; rewrite length_take, length_drop; lia).
  apply no_panic_bind.
  - unfold License_derive_public_key, get_public_key. rewrite slice_ok by lia. cbn [res_bind].
    destruct (decompress_point _); [|done]. cbn [ok_or res_bind].
    destruct (hash_key_ok block) as [h ->]; [lia|]. done.
  - intros q _. apply IH. lia.
Qed.

Lemma derive_public_key_no_panic check now d ls root : parse_internal now d check = Ok ls ->
  no_panic (derive_public_key ls root) = true.
Proof.
  unfold parse_internal. intros Hp. apply res_bind_ok in Hp as (version & Hv & Hp).
  destruct (_ && _); [done|]. apply res_bind_ok in Hp as (bs & Hbs & [= <-]).
  assert (1 <= length d)%nat as Hd by (destruct d; [done|simpl; lia]).
  apply parse_blocks_ok in Hbs as (new & -> & _ & Hc); [|done].
  unfold derive_public_key. cbn [data blocks app].
  destruct (decompress_point root); [|done]. cbn [ok_or res_bind]. by eapply derive_public_safe.
Qed.

(** One block: the keys of both sides stay a pair. *)
Lemma derive_block d l k parent :
  private_key l = Some k -> slice (E := LicenseError) d 1 33 = Ok (to_pub k) ->
  exists k', License_derive_private_key l d parent = Ok k' /\
    License_derive_public_key d (point_mul base_point parent) = Ok (point_mul base_point k').
Proof.
  intros Hk Hs. unfold License_derive_private_key, License_derive_public_key, get_public_key.
  rewrite Hk, Hs. cbn [res_bind]. unfold to_pub. rewrite decompress_compress. cbn [ok_or res_bind].
  assert (1 <= length d)%nat as Hd.
  { unfold slice in Hs. case_bool_decide; [lia|done]. }
  destruct (hash_key_ok d Hd) as [h ->]. cbn [res_bind].
  eexists. split; [done|]. by rewrite point_mul_add, point_mul_mul.
Qed.

Lemma derive_loop d bs i start off k :
  (start <= i)%nat -> keyed d off bs ->
  exists k', derive_private_loop d bs i start off k = Ok k' /\
    derive_public_loop d bs off (point_mul base_point k) = Ok (point_mul base_point k').
Proof.
  revert i off k. induction bs as [|l bs IH]; intros i off k Hi Hk; simpl; [eauto|].
  destruct Hk as [(kl & block & Hkl & Hs & Hpub) Hrest].
  rewrite bool_decide_true by done. rewrite Hs. cbn [res_bind].
  destruct (derive_block block l kl k Hkl Hpub) as (k1 & -> & ->). cbn [res_bind].
  apply IH; [lia|done].
Qed.

Lemma derive_loop_from d bs i start off p k point :
  derive_public_loop d (take (start - i) bs) off p = Ok point ->
  point = point_mul base_point k ->
  keyed d (off + sum_list_with len (take (start - i) bs)) (drop (start - i) bs) ->
  exists k', derive_private_loop d bs i start off k = Ok k' /\
    derive_public_loop d bs off p = Ok (point_mul base_point k').
Proof.
  revert i off p. induction bs as [|l bs IH]; intros i off p Hpub Hpoint Hk.
  - rewrite take_nil in Hpub. injection Hpub as ->. subst. simpl. eauto.
  - destruct (start - i)%nat as [|n] eqn:Hn.
    + simpl in Hpub. injection Hpub as ->. subst. simpl in Hk. rewrite Nat.add_0_r in Hk.
      apply (derive_loop d (l :: bs)); [lia|done].
    + simpl. simpl in Hpub. apply res_bind_ok in Hpub as (block & Hb & Hpub).
      apply res_bind_ok in Hpub as (q & Hq & Hpub). rewrite Hb. cbn [res_bind].
      rewrite Hq, bool_decide_false by lia. cbn [res_bind].
      replace n with (start - S i)%nat in * by lia. apply IH; [done..|].
      simpl in Hk. by rewrite <- Nat.add_assoc.
Qed.

(** The two derivations of the key of a license agree.  When the blocks from [starting_block] on
    hold the public keys of their private keys, and [first_key] is the private key of what the
    blocks before it derive to, then the derived private key belongs to the derived public key. *)
Theorem derived_keys_match (ls : Licenses) (starting_block : nat) (root : list Z)
    (first_key : Scalar) (parent : Point)
    (Hparent : derive_public_key
      {| data := data ls; blocks := take starting_block (blocks ls) |} root = Ok parent)
    (Hfirst : parent = point_mul base_point first_key)
    (Hkeys : keyed (data ls) (1 + sum_list_with len (take starting_block (blocks ls)))
      (drop starting_block (blocks ls))) :
  exists k, derive_private_key ls starting_block first_key = Ok k /\
    derive_public_key ls root = Ok (point_mul base_point k).
Proof.
  unfold derive_public_key, derive_private_key in *. cbn [data blocks] in Hparent.
  apply res_bind_ok in Hparent as (p & -> & Hp). cbn [res_bind].
  replace starting_block with (starting_block - 0)%nat in Hp, Hkeys by lia.
  by eapply derive_loop_from.
Qed.

End parse.

(** * Witnesses *)

(** An intermediate block of "TS", valid in the seconds 100 .. 900, and an ephemeral block in it. *)
Definition sample_license : list Z :=
  [1] ++ ([0] ++ compress_point true ++ [0] ++ write_be 4 100 ++ write_be 4 900 ++
    write_be 4 32 ++ [84; 83; 0]) ++
  ([0] ++ compress_point true ++ [32] ++ write_be 4 200 ++ write_be 4 800).

Definition sample_blocks : list License :=
  [{| len := 49; private_key := None; inner := Inner_Other |};
   {| len := 42; private_key := None; inner := Inner_Other |}].

Definition sample_now : @DateTime seconds := TIMESTAMP_OFFSET + 500.

Lemma parse_internal_accepts_witness :
  length (sample_blocks) = 2%nat /\
  license_chain true sample_now sample_license 1 None sample_blocks.
Proof.
  split; [done|].
  apply (parse_internal_accepts sample_now sample_license true
    {| data := sample_license; blocks := sample_blocks |}).
  reflexivity.
Defined.

Lemma parse_internal_panics_witness :
  bytes sample_license /\ no_panic (parse_internal sample_now sample_license true) = true.
Proof.
  assert (bytes sample_license) as Hb by (by apply (bool_decide_unpack (bytes sample_license)); vm_compute).
  split; [exact Hb|]. rewrite (parse_internal_panics _ _ _ Hb). reflexivity.
Defined.

(** The last block holds a private key. *)
Definition keyed_license : @Licenses two_points :=
  {| data := sample_license; blocks :=
     [{| len := 49; private_key := None; inner := Inner_Other |};
      {| len := 42; private_key := Some (true : @Scalar two_points); inner := Inner_Other |}] |}.

Lemma derived_keys_match_witness : exists k,
  derive_private_key keyed_license 1 (false : @Scalar two_points) = Ok k /\
  derive_public_key keyed_license (to_pub (true : @Scalar two_points))
    = Ok (point_mul base_point k).
Proof.
  apply (derived_keys_match keyed_license 1 (to_pub (true : @Scalar two_points))
    (false : @Scalar two_points) (false : @Point two_points)); [reflexivity|reflexivity|].
  split; [|exact I]. exists (true : @Scalar two_points). eexists. split; [reflexivity|].
  split; reflexivity.
Defined.
