(* ===== verification/LicenseBuild.v ===== *)
(** The builder of licenses ([license.rs]): its operations write into the growing data of the
    license.  The specification is a record of fields that the operations set; the bytes that the
    builder leaves are the layout of that record, and the parser reads its fields back. *)
From S2P Require Import Prelude ByteIO Text License LicenseParse.
From stdpp Require Import strings.
#[local] Open Scope Z_scope.

Section build.
Context `{Profile} `{BeIo} `{Calendar} `{Ed25519} `{LicenseTypes}.

(** * Operations *)

Record LicenseBlockBuilder := {
  lb_data : list Z;            (* [builder.licenses.data] *)
  lb_offset : nat;
  lb_typ : LicenseBlockType;
}.

Definition with_data (b : LicenseBlockBuilder) (d : list Z) : LicenseBlockBuilder :=
  {| lb_data := d; lb_offset := lb_offset b; lb_typ := lb_typ b |}.

(** [Vec::resize(n, 0)] *)
Definition resize (d : list Z) (n : nat) : list Z := take n d ++ replicate (n - length d) 0.

Definition min_len (typ : LicenseBlockType) : nat :=
  BLOCK_MIN_LEN +
  match typ with
  | Intermediate => 5
  | Website | Code => 1
  | Server => 6
  | Ts5Server => 2
  | Ephemeral => 0
  end.

Definition add_block (d : list Z) (typ : LicenseBlockType)
    : res LicenseError LicenseBlockBuilder :=
  let n := length d in
  let d := resize d (n + min_len typ) in
  let? d := set_index d (n + BLOCK_TYPE_OFFSET) (LicenseBlockType_to_u8 typ) in
  Ok {| lb_data := d; lb_offset := n; lb_typ := typ |}.

Definition public_key (b : LicenseBlockBuilder) (key : list Z)
    : res LicenseError LicenseBlockBuilder :=
  let? d := overwrite (lb_data b) (lb_offset b + 1) key in
  Ok (with_data b d).

Definition write_timestamp (b : LicenseBlockBuilder) (offset : nat) (time : DateTime)
    : res LicenseError LicenseBlockBuilder :=
  let? d := overwrite (lb_data b) (lb_offset b + offset)
    (write_be 4 (wrap 32 (unix_timestamp time - TIMESTAMP_OFFSET))) in
  Ok (with_data b d).

Definition not_valid_before (b : LicenseBlockBuilder) (time : DateTime)
    : res LicenseError LicenseBlockBuilder :=
  write_timestamp b BLOCK_NOT_VALID_BEFORE_OFFSET time.
Definition not_valid_after (b : LicenseBlockBuilder) (time : DateTime)
    : res LicenseError LicenseBlockBuilder :=
  write_timestamp b BLOCK_NOT_VALID_AFTER_OFFSET time.

Definition server_license_type (b : LicenseBlockBuilder) (typ : LicenseType)
    : res LicenseError LicenseBlockBuilder :=
  if negb (bool_decide (lb_typ b ∈ [Server; Ts5Server])) then Panic else
  let? n := unwrap (LicenseType_to_u8 typ) in
  let? d := set_index (lb_data b) (lb_offset b + BLOCK_MIN_LEN) n in
  Ok (with_data b d).

Definition ts5_add_property (b : LicenseBlockBuilder) (id typ : Z) (n : nat)
    : res LicenseError (LicenseBlockBuilder * nat) :=
  let o := length (lb_data b) in
  let d := resize (lb_data b) (o + n + 3) in
  let count_at := (lb_offset b + BLOCK_MIN_LEN + 1)%nat in
  let? count := index d count_at in
  let? count := arith 8 (count + 1) in
  let? d := set_index d count_at count in
  let? l := if bool_decide (is_u8 (Z.of_nat n)) then Ok (Z.of_nat n) else Panic in
  let? l := arith 8 (l + 2) in
  let? d := set_index d o l in
  let? d := set_index d (o + 1) id in
  let? d := set_index d (o + 2) typ in
  Ok (with_data b d, o + 3)%nat.

Definition max_clients (b : LicenseBlockBuilder) (n : Z) : res LicenseError LicenseBlockBuilder :=
  let? '(b, o) :=
    if bool_decide (lb_typ b = Ts5Server) then ts5_add_property b 3 1 4
    else match lb_typ b with
      | Intermediate => Ok (b, lb_offset b + BLOCK_MIN_LEN + 0)%nat
      | Server => Ok (b, lb_offset b + BLOCK_MIN_LEN + 1)%nat
      | _ => Panic
      end in
  let? d := overwrite (lb_data b) o (write_be 4 n) in
  Ok (with_data b d).

Definition issuer (b : LicenseBlockBuilder) (s : list Z) : res LicenseError LicenseBlockBuilder :=
  if bool_decide (0 ∈ s) then Panic else
  let? '(b, o) :=
    if bool_decide (lb_typ b = Ts5Server) then ts5_add_property b 2 0 (length s + 1)
    else if negb (bool_decide (lb_typ b ∈ [Intermediate; Server])) then Panic
    else if negb (bool_decide (length (lb_data b) - lb_offset b = min_len (lb_typ b))%nat) then Panic
    else
      let o := length (lb_data b) in
      Ok (with_data b (resize (lb_data b) (o + length s)), o - 1)%nat in
  let? d := overwrite (lb_data b) o s in
  Ok (with_data b d).

(** The validity of the last block that was there before. *)
Definition last_bounds (d : list Z) (n : nat) (bs : list License)
    : res LicenseError (option LicenseTimeBounds) :=
  match last bs with
  | None => Ok None
  | Some b =>
      if bool_decide (n < len b)%nat then Panic else
      let? b_data := slice d (n - len b) n in
      let? before := get_not_valid_before b_data in
      let? after := get_not_valid_after b_data in
      Ok (Some (before, after))
  end.

(** [build], with the effect of the closure on the data. *)
Definition build (now : DateTime) (ls : Licenses) (f : list Z -> res LicenseError (list Z))
    : res LicenseError Licenses :=
  let n := length (data ls) in
  let? d := f (data ls) in
  let? bounds := last_bounds d n (blocks ls) in
  let? bs := parse_blocks (8 - length (blocks ls)) d false now n bounds (blocks ls) in
  Ok {| data := d; blocks := bs |}.

(** The calls that a closure makes on a block, in any order. *)
Inductive BuildOp :=
  | SetPublicKey (key : list Z)
  | SetNotValidBefore (time : DateTime)
  | SetNotValidAfter (time : DateTime)
  | SetLicenseType (typ : LicenseType)
  | SetMaxClients (n : Z)
  | SetIssuer (s : list Z).

Definition run_op (b : LicenseBlockBuilder) (op : BuildOp)
    : res LicenseError LicenseBlockBuilder :=
  match op with
  | SetPublicKey key => public_key b key
  | SetNotValidBefore time => not_valid_before b time
  | SetNotValidAfter time => not_valid_after b time
  | SetLicenseType typ => server_license_type b typ
  | SetMaxClients n => max_clients b n
  | SetIssuer s => issuer b s
  end.

Fixpoint run_ops (b : LicenseBlockBuilder) (ops : list BuildOp)
    : res LicenseError LicenseBlockBuilder :=
  match ops with
  | [] => Ok b
  | op :: ops => let? b := run_op b op in run_ops b ops
  end.

Definition build_block (typ : LicenseBlockType) (ops : list BuildOp) (d : list Z)
    : res LicenseError (list Z) :=
  let? b := add_block d typ in
  let? b := run_ops b ops in
  Ok (lb_data b).

(** * The specification: the fields of a block *)

Record BlockSpec := {
  bs_key : list Z;
  bs_before : Z;
  bs_after : Z;
  bs_kind : Z;
  bs_clients : Z;
  bs_issuer : list Z;
}.

Definition blank : BlockSpec :=
  {| bs_key := replicate 32 0; bs_before := 0; bs_after := 0; bs_kind := 0; bs_clients := 0;
     bs_issuer := [] |}.

Definition timestamp_word (t : DateTime) : Z := wrap 32 (unix_timestamp t - TIMESTAMP_OFFSET).

Definition spec_op (s : BlockSpec) (op : BuildOp) : BlockSpec :=
  match s, op with
  | Build_BlockSpec _ before after kind clients iss, SetPublicKey key =>
      Build_BlockSpec key before after kind clients iss
  | Build_BlockSpec key _ after kind clients iss, SetNotValidBefore t =>
      Build_BlockSpec key (timestamp_word t) after kind clients iss
  | Build_BlockSpec key before _ kind clients iss, SetNotValidAfter t =>
      Build_BlockSpec key before (timestamp_word t) kind clients iss
  | Build_BlockSpec key before after _ clients iss, SetLicenseType t =>
      Build_BlockSpec key before after (default 0 (LicenseType_to_u8 t)) clients iss
  | Build_BlockSpec key before after kind _ iss, SetMaxClients n =>
      Build_BlockSpec key before after kind n iss
  | Build_BlockSpec key before after kind clients _, SetIssuer iss =>
      Build_BlockSpec key before after kind clients iss
  end.

(** The date that the last call for it set. *)
Definition set_before (ops : list BuildOp) : option DateTime :=
  last (omap (fun op => match op with SetNotValidBefore t => Some t | _ => None end) ops).
Definition set_after (ops : list BuildOp) : option DateTime :=
  last (omap (fun op => match op with SetNotValidAfter t => Some t | _ => None end) ops).

(** The dates that fit into a license: from the year 2013 on, for 2^32 seconds. *)
Definition date_fits (t : DateTime) : Prop := is_u32 (unix_timestamp t - TIMESTAMP_OFFSET).

(** The calls that are allowed: the types of the arguments, the license type only in a server
    block, and one issuer without null bytes. *)
Definition op_ok (typ : LicenseBlockType) (s : BlockSpec) (op : BuildOp) : Prop :=
  match op with
  | SetPublicKey key => length key = 32%nat
  | SetNotValidBefore _ | SetNotValidAfter _ => True
  | SetLicenseType _ => typ = Server
  | SetMaxClients n => is_u32 n
  | SetIssuer s' => (0 ∉ s') /\ bs_issuer s = []
  end.

Fixpoint ops_ok (typ : LicenseBlockType) (s : BlockSpec) (ops : list BuildOp) : Prop :=
  match ops with
  | [] => True
  | op :: ops => op_ok typ s op /\ ops_ok typ (spec_op s op) ops
  end.

(** The bytes of an intermediate or server block. *)
Definition kind_bytes (typ : LicenseBlockType) (kind : Z) : list Z :=
  match typ with Server => [kind] | _ => [] end.

Definition block_bytes (typ : LicenseBlockType) (s : BlockSpec) : list Z :=
  [0] ++ bs_key s ++ [LicenseBlockType_to_u8 typ] ++ write_be 4 (bs_before s) ++
  write_be 4 (bs_after s) ++ kind_bytes typ (bs_kind s) ++ write_be 4 (bs_clients s) ++ bs_issuer s ++ [0].

Definition spec_ok (s : BlockSpec) : Prop :=
  length (bs_key s) = 32%nat /\ is_u32 (bs_before s) /\ is_u32 (bs_after s) /\ is_u8 (bs_kind s) /\
  is_u32 (bs_clients s) /\ 0 ∉ bs_issuer s.

End build.

Section build_proofs.
Context `{Profile} `{BeIoLaws} `{CalendarLaws} `{Ed25519Laws} `{LicenseTypesLaws}.

Ltac lens := repeat rewrite ?length_app, ?write_be_length, ?length_replicate; cbn [length].

(** A builder that has written the fields [s]. *)
Definition builder (pre : list Z) (typ : LicenseBlockType) (s : BlockSpec) : LicenseBlockBuilder :=
  {| lb_data := pre ++ block_bytes typ s; lb_offset := length pre; lb_typ := typ |}.

Lemma block_length typ s : typ = Intermediate \/ typ = Server -> length (bs_key s) = 32%nat ->
  length (block_bytes typ s) = (min_len typ + length (bs_issuer s))%nat.
Proof.
  intros [-> | ->] Hk; unfold block_bytes, kind_bytes, min_len, BLOCK_MIN_LEN; lens; lia.
Qed.

Lemma resize_app d n : resize d (length d + n) = d ++ replicate n 0.
Proof.
  unfold resize. rewrite take_ge by lia. by replace (length d + n - length d)%nat with n by lia.
Qed.

Lemma add_block_ok (pre : list Z) typ : typ = Intermediate \/ typ = Server ->
  add_block pre typ = Ok (builder pre typ blank) /\ spec_ok blank.
Proof.
  intros Ht. split; [|by split_and!; try done; apply not_elem_of_nil].
  unfold add_block. rewrite resize_app.
  assert (replicate (min_len typ) 0 = replicate 33 0 ++ [0] ++ replicate (min_len typ - 34) 0) as ->
    by by destruct Ht as [-> | ->].
  unfold BLOCK_TYPE_OFFSET. writes lens. do 2 f_equal.
  unfold builder, block_bytes, kind_bytes. cbn [blank bs_key bs_before bs_after bs_kind bs_clients bs_issuer].
  rewrite !write_be_0. by destruct Ht as [-> | ->].
Qed.

Lemma run_op_ok pre typ s op : typ = Intermediate \/ typ = Server -> spec_ok s -> op_ok typ s op ->
  run_op (builder pre typ s) op = Ok (builder pre typ (spec_op s op)) /\ spec_ok (spec_op s op).
Proof.
  intros Ht (Hk & Hb & Ha & Hki & Hc & Hi) Hop.
  destruct s as [key before after kind clients iss]. cbn [bs_key bs_before bs_after bs_kind
    bs_clients bs_issuer] in *.
  assert (forall z, is_u32 (wrap 32 z)) as Hw by (intros; by apply wrap_uint).
  destruct op; cbn [op_ok run_op spec_op bs_issuer] in *;
    unfold public_key, not_valid_before, not_valid_after, write_timestamp, server_license_type,
      max_clients, issuer, builder, block_bytes, BLOCK_NOT_VALID_BEFORE_OFFSET,
      BLOCK_NOT_VALID_AFTER_OFFSET, BLOCK_MIN_LEN;
    cbn [lb_data lb_offset lb_typ bs_key bs_before bs_after bs_kind bs_clients bs_issuer].
  - writes lens. split; [done|by split_and!; try apply Hw].
  - writes lens. split; [done|by split_and!; try apply Hw].
  - writes lens. split; [done|by split_and!; try apply Hw].
  - subst typ. rewrite bool_decide_true by (rewrite list_elem_of_In; by left). cbn [negb kind_bytes].
    destruct (license_type_u8 typ0) as (n & -> & Hn & _). cbn [unwrap res_bind default].
    writes lens. split; [done|by split_and!].
  - rewrite bool_decide_false by (by destruct Ht as [-> | ->]).
    destruct Ht as [-> | ->]; cbn [kind_bytes res_bind lb_data]; writes lens;
      (split; [done|by split_and!]).
  - destruct Hop as [Hs ->]. rewrite (bool_decide_false (0 ∈ s)) by done.
    rewrite bool_decide_false by (by destruct Ht as [-> | ->]).
    rewrite bool_decide_true by (destruct Ht as [-> | ->]; rewrite list_elem_of_In; simpl; tauto).
    cbn [negb]. rewrite bool_decide_true; cbn [negb].
    2: { rewrite length_app, Nat.add_sub_swap, Nat.sub_diag by lia.
         destruct Ht as [-> | ->]; cbn [kind_bytes]; lens; rewrite Hk; reflexivity. }
    rewrite resize_app. unfold with_data. cbn [res_bind lb_data lb_offset lb_typ app].
    rewrite !app_comm_cons, <- !app_assoc.
    assert ([0] ++ replicate (length s) 0 = replicate (length s) 0 ++ [0]) as ->
      by apply replicate_cons_app.
    destruct Ht as [-> | ->]; cbn [kind_bytes]; writes lens; (split; [done|by split_and!]).
Qed.
Lemma run_ops_ok pre typ s ops :
  typ = Intermediate \/ typ = Server -> spec_ok s -> ops_ok typ s ops ->
  run_ops (builder pre typ s) ops = Ok (builder pre typ (foldl spec_op s ops)) /\
  spec_ok (foldl spec_op s ops).
Proof.
  intros Ht. revert s. induction ops as [|op ops IH]; intros s Hs Hops; [done|].
  destruct Hops as [Hop Hops]. cbn [run_ops foldl].
  destruct (run_op_ok pre typ s op Ht Hs Hop) as [-> Hs']. cbn [res_bind]. by apply IH.
Qed.

(** * Reading the block back *)

Lemma position_zero_app l k : 0 ∉ l -> position_zero (l ++ [0] ++ k) = Some (length l).
Proof.
  unfold position_zero. induction l as [|x l IH]; intros Hl; simpl; [done|].
  apply not_elem_of_cons in Hl as [Hx Hl]. rewrite decide_False by done.
  specialize (IH Hl). simpl in IH. by destruct (list_find _ _) as [[? ?]|]; simplify_eq/=.
Qed.

Lemma block_parse typ s rest : typ = Intermediate \/ typ = Server -> spec_ok s ->
  License_parse (block_bytes typ s ++ rest)
    = Ok {| len := length (block_bytes typ s); private_key := None; inner := Inner_Other |}.
Proof.
  intros Ht (Hk & _ & _ & _ & _ & Hi).
  assert (length (block_bytes typ s) = min_len typ + length (bs_issuer s))%nat as Hlen
    by by apply block_length.
  rewrite Hlen. unfold License_parse. rewrite bool_decide_false
    by (rewrite length_app, Hlen; unfold min_len; lia).
  unfold block_bytes, BLOCK_TYPE_OFFSET, BLOCK_MIN_LEN. rewrite <- !app_assoc. slices lens.
  unfold parse_inner, issuer_len.
  destruct Ht as [-> | ->]; cbn [LicenseBlockType_to_u8 LicenseBlockType_from_u8 kind_bytes ok_or
    res_bind Z.eqb negb Pos.eqb]; slices lens; rewrite bool_decide_false by (lens; lia); slices lens;
    rewrite position_zero_app by done; cbn [ok_or res_bind]; do 2 f_equal; unfold min_len; lia.
Qed.
Lemma timestamp_at (a c : list Z) n off t :
  off = length a -> is_u32 n -> from_unix_timestamp (n + TIMESTAMP_OFFSET) = Some t ->
  get_timestamp (a ++ write_be 4 n ++ c) off = Ok t.
Proof.
  intros -> Hn Ht. unfold get_timestamp. slices lens. rewrite read_be_write by done.
  cbn [ok_or res_bind]. by rewrite Ht.
Qed.

(** What the accessors return for a block with the fields [s]. *)
Lemma block_fields typ s before after : typ = Intermediate \/ typ = Server -> spec_ok s ->
  from_unix_timestamp (bs_before s + TIMESTAMP_OFFSET) = Some before ->
  from_unix_timestamp (bs_after s + TIMESTAMP_OFFSET) = Some after ->
  let d := block_bytes typ s in
  let l := {| len := length d; private_key := None; inner := Inner_Other |} in
  get_type d = Ok typ /\
  get_public_key d = ok_or (decompress_point (bs_key s)) InvalidPublicKey /\
  get_not_valid_before d = Ok before /\ get_not_valid_after d = Ok after /\
  get_max_clients l d = Ok (bs_clients s) /\ get_issuer l d = from_utf8 (bs_issuer s) /\
  (typ = Server -> get_license_type d =
    ok_or (LicenseType_from_u8 (bs_kind s)) (UnknownLicenseType (bs_kind s))).
Proof.
  intros Ht (Hk & Hb & Ha & _ & Hc & _) Hbefore Hafter d l.
  assert (get_type d = Ok typ) as Htype.
  { unfold get_type, BLOCK_TYPE_OFFSET, d, block_bytes. slices lens. by destruct Ht as [-> | ->]. }
  assert (len l = min_len typ + length (bs_issuer s))%nat as Hlen by by apply block_length.
  split; [done|]. split; [|split; [|split; [|split; [|split]]]].
  - unfold get_public_key, d, block_bytes. by slices lens.
  - unfold get_not_valid_before, d, block_bytes.
    rewrite (app_assoc [0]), (app_assoc ([0] ++ _)). apply timestamp_at; [|done..].
    unfold BLOCK_NOT_VALID_BEFORE_OFFSET. lens. lia.
  - unfold get_not_valid_after, d, block_bytes.
    rewrite (app_assoc [0]), (app_assoc ([0] ++ _)), (app_assoc (([0] ++ _) ++ _)).
    apply timestamp_at; [|done..]. unfold BLOCK_NOT_VALID_AFTER_OFFSET. lens. lia.
  - unfold get_max_clients. rewrite Htype. cbn [res_bind].
    rewrite bool_decide_false by (by destruct Ht as [-> | ->]).
    unfold d, block_bytes, BLOCK_MIN_LEN, read_u32.
    destruct Ht as [-> | ->]; cbn [kind_bytes res_bind]; slices lens;
      by rewrite (read_be_app 4 _ (bs_clients s) []) by (rewrite ?app_nil_r; done).
  - unfold get_issuer. rewrite Htype. cbn [res_bind].
    rewrite bool_decide_false by (by destruct Ht as [-> | ->]).
    rewrite Hlen. unfold d, block_bytes, BLOCK_MIN_LEN.
    destruct Ht as [-> | ->]; cbn [kind_bytes res_bind];
      rewrite bool_decide_false by (unfold min_len, BLOCK_MIN_LEN; lia);
      unfold min_len, BLOCK_MIN_LEN; slices lens; done.
  - intros ->. unfold get_license_type. rewrite Htype. cbn [res_bind].
    rewrite bool_decide_true by (rewrite list_elem_of_In; by left). cbn [negb].
    unfold d, block_bytes, BLOCK_MIN_LEN. cbn [kind_bytes]. by slices lens.
Qed.

Lemma last_bounds_app d k bs : last_bounds (d ++ k) (length d) bs = last_bounds d (length d) bs.
Proof.
  unfold last_bounds. destruct (last bs) as [b|]; [|done]. case_bool_decide; [done|].
  assert (slice (E := LicenseError) (d ++ k) (length d - len b) (length d)
    = slice d (length d - len b) (length d)) as ->; [|done].
  rewrite !slice_ok by (rewrite ?length_app; lia). f_equal.
  rewrite drop_app_le by lia. apply take_app_le. rewrite length_drop. lia.
Qed.

Lemma spec_dates ops : forall s,
  bs_before (foldl spec_op s ops) = from_option timestamp_word (bs_before s) (set_before ops) /\
  bs_after (foldl spec_op s ops) = from_option timestamp_word (bs_after s) (set_after ops).
Proof.
  induction ops as [|op ops IH] using rev_ind; intros s; [done|]. rewrite foldl_snoc.
  destruct (IH s) as [IHb IHa]. unfold set_before, set_after in *. rewrite !omap_app.
  destruct (foldl spec_op s ops). destruct op; cbn [omap list_omap spec_op bs_before bs_after] in *;
    rewrite ?app_nil_r, ?last_snoc; done.
Qed.

(** A date that fits is read back to the second. *)
Lemma date_read_back t d : date_fits t -> from_unix_timestamp (timestamp_word t + TIMESTAMP_OFFSET) = Some d ->
  unix_timestamp d = unix_timestamp t.
Proof.
  unfold date_fits, timestamp_word, is_uint. intros Ht. rewrite wrap_small by done.
  destruct (date_of_timestamp (unix_timestamp t - TIMESTAMP_OFFSET + TIMESTAMP_OFFSET)) as (d' & -> & Hd').
  { change (2 ^ 32) with 4294967296 in Ht. unfold TIMESTAMP_OFFSET in *. lia. }
  intros [= <-]. lia.
Qed.

(** C31: the builder of a license implements its specification: when the calls on a new intermediate
    or server block are allowed, in any order, the license has less than eight blocks and the new
    block is valid only within the block before it, then the license is extended by one block, which
    the parser accepts, and every accessor returns what the last call for its field set.  Allowed
    are a license type only in a server block, and one issuer without null bytes.  Of a date the
    block keeps the seconds since the start of 2013 modulo 2^32: a date from then on, for 136 years,
    is read back to the second, an earlier one as another date. *)
Theorem build_reads_back (now : DateTime) (ls : Licenses) (typ : LicenseBlockType)
    (ops : list BuildOp) (s : BlockSpec) (bounds : option LicenseTimeBounds)
    (before after : DateTime)
    (Ht : typ = Intermediate \/ typ = Server)
    (Hops : ops_ok typ blank ops) (Hs : s = foldl spec_op blank ops)
    (Hroom : (length (blocks ls) < 8)%nat)
    (Hlast : last_bounds (data ls) (length (data ls)) (blocks ls) = Ok bounds)
    (Hbefore : from_unix_timestamp (bs_before s + TIMESTAMP_OFFSET) = Some before)
    (Hafter : from_unix_timestamp (bs_after s + TIMESTAMP_OFFSET) = Some after)
    (Hwithin : within false now bounds before after) :
  let d := block_bytes typ s in
  let l := {| len := length d; private_key := None; inner := Inner_Other |} in
  build now ls (build_block typ ops)
    = Ok {| data := data ls ++ d; blocks := blocks ls ++ [l] |} /\
  get_type d = Ok typ /\
  get_public_key d = ok_or (decompress_point (bs_key s)) InvalidPublicKey /\
  get_not_valid_before d = Ok before /\ get_not_valid_after d = Ok after /\
  (forall t, set_before ops = Some t -> date_fits t -> unix_timestamp before = unix_timestamp t) /\
  (forall t, set_after ops = Some t -> date_fits t -> unix_timestamp after = unix_timestamp t) /\
  get_max_clients l d = Ok (bs_clients s) /\ get_issuer l d = from_utf8 (bs_issuer s) /\
  (typ = Server -> get_license_type d =
    ok_or (LicenseType_from_u8 (bs_kind s)) (UnknownLicenseType (bs_kind s))).
Proof.
  intros d l. destruct (spec_dates ops blank) as [Hdb Hda]. rewrite <- Hs in Hdb, Hda. destruct (add_block_ok (data ls) typ Ht) as [Hadd Hblank].
  destruct (run_ops_ok (data ls) typ blank ops Ht Hblank Hops) as [Hrun Hok].
  rewrite <- Hs in Hrun, Hok.
  pose proof (block_fields typ s before after Ht Hok Hbefore Hafter) as Hfields.
  destruct Hfields as (Hty & Hkey & Hb & Ha & Hrest). split.
  2: { split; [exact Hty|]. split; [exact Hkey|]. split; [exact Hb|]. split; [exact Ha|].
    split; [intros t Hset Hfits; rewrite Hset in Hdb; cbn [from_option] in Hdb; rewrite Hdb in Hbefore;
      by apply (date_read_back t)|].
    split; [|exact Hrest]. intros t Hset Hfits. rewrite Hset in Hda. cbn [from_option] in Hda.
    rewrite Hda in Hafter. by apply (date_read_back t). }
  unfold build, build_block. rewrite Hadd. cbn [res_bind]. rewrite Hrun.
  cbn [res_bind builder lb_data]. fold d. rewrite last_bounds_app, Hlast. cbn [res_bind].
  assert (length (data ls) <= length (data ls ++ d))%nat as Hle by (rewrite length_app; lia).
  rewrite (proj2 (parse_blocks_ok _ _ _ _ _ _ _ (blocks ls ++ [l]) Hle)); [done|].
  exists [l]. split; [done|]. split; [simpl; lia|].
  assert (length d = min_len typ + length (bs_issuer s))%nat as Hdl by by apply block_length, Hok.
  unfold min_len, BLOCK_MIN_LEN in Hdl.
  econstructor; rewrite ?drop_app_length; cbn [len l].
  - rewrite length_app. lia.
  - rewrite <- (app_nil_r d) at 1. by apply block_parse.
  - rewrite take_ge by done. exact Hb.
  - rewrite take_ge by done. exact Ha.
  - done.
  - rewrite <- length_app. constructor.
Qed.

(** * Blocks of a TS5 server *)

(** The bytes of a block with a key and one property, the number of clients. *)
Definition ts5_block (key : list Z) (n : Z) : list Z :=
  [0] ++ key ++ [8] ++ replicate 8 0 ++ [0] ++ [1] ++ [6] ++ [3] ++ [1] ++ write_be 4 n.

Lemma ts5_block_built (pre key : list Z) (n : Z) :
  length key = 32%nat ->
  build_block Ts5Server [SetPublicKey key; SetMaxClients n] pre = Ok (pre ++ ts5_block key n).
Proof.
  intros Hk. unfold build_block, add_block. rewrite resize_app.
  change (replicate (min_len Ts5Server) 0)
    with ([0] ++ replicate 32 0 ++ [0] ++ replicate 8 0 ++ [0] ++ [0]).
  unfold BLOCK_TYPE_OFFSET. writes lens. cbn [run_ops run_op]. unfold public_key.
  cbn [lb_data lb_offset with_data]. writes lens. cbn [run_ops run_op].
  unfold max_clients, with_data. cbn [lb_typ lb_data lb_offset]. rewrite bool_decide_true by done.
  unfold ts5_add_property, BLOCK_MIN_LEN. cbn [lb_data lb_offset lb_typ].
  rewrite <- Nat.add_assoc, resize_app. change (replicate (4 + 3) 0) with ([0] ++ [0] ++ [0] ++ replicate 4 0).
  rewrite <- !app_assoc. change ([LicenseBlockType_to_u8 Ts5Server]) with [8].
  rewrite (index_skip pre), (index_skip [0]), (index_skip key), (index_skip [8]) by (lens; lia).
  rewrite (index_skip (replicate 8 0)), (index_skip [0]), index_head by (lens; lia).
  cbn [res_bind]. rewrite arith_ok by done. cbn [res_bind]. writes lens.
  rewrite bool_decide_true by done. cbn [res_bind]. rewrite arith_ok by done. writes lens.
  cbn [with_data lb_data]. writes lens. cbn [run_ops res_bind lb_data]. done.
Qed.

(** The number of clients that the builder writes into a TS5 server block cannot be read.  When
    the block is the last one of the data, the parser takes its property for cut off and rejects
    the license; otherwise the property has the wrong length for its reader, so that the number is
    reported as absent. *)
Theorem ts5_max_clients_unreadable (pre key rest : list Z) (n : Z)
    (Hk : length key = 32%nat) (Hrest : rest <> []) :
  let d := ts5_block key n in
  let l := {| len := length d; private_key := None; inner := Inner_Ts5Server [0%nat] |} in
  build_block Ts5Server [SetPublicKey key; SetMaxClients n] pre = Ok (pre ++ d) /\
  License_parse d = Err (TooShort 6 "cut off TS5 license property") /\
  License_parse (d ++ rest) = Ok l /\
  get_property d 0 = Err (WrongPropertyLength 3 1 4 6) /\
  get_max_clients l d = Err (NoSuchProperty "max clients").
Proof.
  intros d l. split; [by apply ts5_block_built|].
  assert (length d = 51)%nat as Hd by (unfold d, ts5_block; lens; lia).
  assert (get_type d = Ok Ts5Server) as Htype.
  { unfold get_type, BLOCK_TYPE_OFFSET, d, ts5_block. by slices lens. }
  assert (get_property d 0 = Err (WrongPropertyLength 3 1 4 6)) as Hprop.
  { unfold get_property, BLOCK_MIN_LEN, d, ts5_block. by slices lens. }
  assert (forall k, License_parse (d ++ k) =
    if bool_decide (k = []) then Err (TooShort 6 "cut off TS5 license property") else Ok l) as Hp.
  { intros k. unfold License_parse. rewrite bool_decide_false
      by (rewrite length_app, Hd; unfold BLOCK_MIN_LEN; lia).
    unfold l. rewrite Hd. unfold BLOCK_TYPE_OFFSET, BLOCK_MIN_LEN, d, ts5_block.
    rewrite <- !app_assoc. slices lens. cbn [Z.eqb negb LicenseBlockType_from_u8 ok_or res_bind].
    slices lens. unfold parse_inner. rewrite bool_decide_false by (lens; lia). slices lens.
    change (Z.to_nat 1) with 1%nat. cbn [properties_loop].
    rewrite bool_decide_false by (lens; lia). slices lens. change (Z.to_nat 6) with 6%nat.
    destruct k as [|x k].
    - by rewrite !bool_decide_true by (lens; lia || done).
    - by rewrite !bool_decide_false by (lens; lia || done). }
  split; [by rewrite <- (app_nil_r d), Hp|]. split; [by rewrite Hp, bool_decide_false by done|].
  split; [done|]. unfold get_max_clients. rewrite Htype. cbn [res_bind].
  rewrite bool_decide_true by done. unfold get_properties, l. cbn [inner res_bind find_property].
  by rewrite Hprop.
Qed.
End build_proofs.

(** * Witnesses *)

Definition sample_ops : list BuildOp :=
  [SetIssuer [84; 83]; SetNotValidAfter (TIMESTAMP_OFFSET + 700 : @DateTime seconds);
   SetLicenseType (true : @LicenseType two_types); SetPublicKey (compress_point true);
   SetMaxClients 64; SetNotValidBefore (TIMESTAMP_OFFSET + 300 : @DateTime seconds)].

Definition sample_spec : BlockSpec :=
  {| bs_key := compress_point true; bs_before := 300; bs_after := 700; bs_kind := 1;
     bs_clients := 64; bs_issuer := [84; 83] |}.

Lemma build_reads_back_witness :
  build sample_now {| data := sample_license; blocks := sample_blocks |}
    (build_block (H := debug_profile) Server sample_ops)
  = Ok {| data := sample_license ++ block_bytes Server sample_spec;
          blocks := sample_blocks ++
            [{| len := 50; private_key := None; inner := Inner_Other |}] |}.
Proof.
  refine (proj1 (build_reads_back (H := debug_profile) sample_now
    {| data := sample_license; blocks := sample_blocks |} Server
    sample_ops sample_spec (Some (TIMESTAMP_OFFSET + 200, TIMESTAMP_OFFSET + 800))
    (TIMESTAMP_OFFSET + 300) (TIMESTAMP_OFFSET + 700) _ _ _ _ _ _ _ _)).
  - by right.
  - cbn. repeat split; try done. intros Hin. rewrite list_elem_of_In in Hin. simpl in Hin. lia.
  - reflexivity.
  - cbn. lia.
  - reflexivity.
  - reflexivity.
  - reflexivity.
  - split; [done|split; reflexivity].
Defined.

Definition sample_key : list Z := compress_point (true : @Point two_points).

Lemma ts5_max_clients_unreadable_witness :
  length sample_key = 32%nat /\
  License_parse (ts5_block sample_key 5) = Err (TooShort 6 "cut off TS5 license property").
Proof.
  split; [reflexivity|].
  refine (proj1 (proj2 (ts5_max_clients_unreadable (H := debug_profile) [1] sample_key [0] 5 _ _)));
    [reflexivity|done].
Defined.
