(* ===== verification/AudioQueue.v ===== *)
(** Received audio ([tsclientlib/src/audio.rs]): the jitter buffer of one talker
    ([AudioQueue]), the sliding window minimum that adapts its length, and the mixer
    ([AudioHandler]).  The Opus decoder and the arithmetic of [f32] are parameters. *)
From S2P Require Import Prelude ByteIO Packets AudioData.
#[local] Open Scope Z_scope.

(** * Parameters *)

(** Samples ([f32]). *)
Class Float32 := {
  f32 : Type;
  f32_zero : f32;
  f32_one : f32;
  f32_add : f32 -> f32 -> f32;
  f32_mul : f32 -> f32 -> f32;
}.

(** The [audiopus] crate: [packet_check] is [Packet::try_from], [signals_check] is
    [MutSignals::try_from] of a slice of that length; [decode_float] gets the slice that it writes
    to and returns it together with the number of samples per channel. *)
Class Opus `{Float32} := {
  OpusError : Type;
  Decoder : Type;
  decoder_new : OpusError + Decoder;
  packet_check : list Z -> option OpusError;
  nb_samples : list Z -> OpusError + nat;
  signals_check : nat -> option OpusError;
  decode_float : Decoder -> option (list Z) -> list f32 -> bool ->
    Decoder * list f32 * (OpusError + nat);
}.

(** A decoder writes inside the slice, and a successful call decodes at least one sample. *)
Class OpusLaws `{Opus} : Prop := {
  decode_slice d p buf fec : length (snd (fst (decode_float d p buf fec))) = length buf;
  decode_count d p buf fec n : snd (decode_float d p buf fec) = inr n ->
    (0 < n /\ n * 2 <= length buf)%nat;
}.

(** * Constants *)

Definition CHANNEL_NUM : nat := 2.
Definition MAX_PACKET_LOSSES : nat := 3.
Definition LAST_BUFFER_SIZE_COUNT : Z := 255.
Definition MAX_BUFFER_SIZE : nat := Z.to_nat 24000.
Definition MAX_BUFFER_PACKETS : nat := 50.
Definition MAX_BUFFER_TIME : nat := Z.to_nat 24000.
Definition SPEED_CHANGE_STEPS : nat := 100.
Definition USUAL_FRAME_SIZE : nat := Z.to_nat 960.

(** * The sliding window minimum *)

(** A type with a total order ([Ord]) and a default value. *)
Class Ordered (T : Type) := { leb : T -> T -> bool; default_value : T }.
Class OrderedLaws (T : Type) `{Ordered T} : Prop := {
  leb_refl x : leb x x = true;
  leb_trans x y z : leb x y = true -> leb y z = true -> leb x z = true;
  leb_total x y : leb x y = false -> leb y x = true;
}.

Section window.
Context {T : Type} `{Ordered T}.

Record SlidingWindowMinimum := {
  swm_size : Z;
  swm_queue : list (Z * T);     (* the front of the deque is the head of the list *)
  swm_cur_time : Z;
}.

Definition swm_new (size : Z) : SlidingWindowMinimum :=
  {| swm_size := size; swm_queue := []; swm_cur_time := 0 |}.

(** The first loop of [push], on the reversed queue. *)
Fixpoint pop_bigger (rq : list (Z * T)) (value : T) : list (Z * T) :=
  match rq with
  | [] => []
  | (i, s) :: rq' => if leb value s then pop_bigger rq' value else rq
  end.

(** The second loop. *)
Fixpoint pop_expired (q : list (Z * T)) (size cur_time : Z) : list (Z * T) :=
  match q with
  | [] => []
  | (i, s) :: q' => if size <=? wrap 8 (cur_time - i) then pop_expired q' size cur_time else q
  end.

Definition swm_push (w : SlidingWindowMinimum) (value : T) : SlidingWindowMinimum :=
  let q := rev (pop_bigger (rev (swm_queue w)) value) in
  let i := swm_cur_time w in
  let q := q ++ [(i, value)] in
  let q := pop_expired q (swm_size w) (swm_cur_time w) in
  {| swm_size := swm_size w; swm_queue := q; swm_cur_time := wrap 8 (swm_cur_time w + 1) |}.

Definition get_min (w : SlidingWindowMinimum) : T :=
  match swm_queue w with
  | (_, s) :: _ => s
  | [] => default_value
  end.

End window.
Arguments SlidingWindowMinimum T : clear implicits.

(** [u8] and [Reverse<u8>]. *)
Definition Reverse : Type := Z.
#[global] Instance ordered_u8 : Ordered Z := { leb := Z.leb; default_value := 0 }.
Definition ordered_reverse : Ordered Reverse := {| leb x y := y <=? x; default_value := 0 |}.

(** * The queue of a talker *)

Record InAudioBuf := { iab_raw : list Z; iab_data : AudioData }.

Record QueuePacket := { qp_packet : InAudioBuf; qp_samples : nat; qp_id : Z }.

Definition qp_data (p : QueuePacket) : list Z := AudioData_data (iab_data (qp_packet p)).

Section queue.
Context `{Profile} `{Opus}.

Inductive AudioError :=
  | CreateDecoder (e : OpusError)
  | Decode (e : OpusError) (packet : option (list Z))
  | Duplicate (id : Z)
  | GetPacketSample (e : OpusError)
  | QueueFull
  | TooLate (wanted got : Z)
  | TooManySamples
  | UnsupportedCodec (codec : CodecType).

Record AudioQueue := {
  decoder : Decoder;
  volume : f32;
  next_id : Z;
  whispering : bool;
  packet_buffer : list QueuePacket;
  packet_buffer_samples : nat;
  decoded_buffer : list f32;
  decoded_pos : nat;
  last_packet_samples : nat;
  packet_loss_num : nat;
  buffering_samples : nat;
  last_buffer_size_min : SlidingWindowMinimum Z;
  last_buffer_size_max : SlidingWindowMinimum Reverse;
  buffered_for_samples : nat;
}.

(** Updates of groups of fields. *)
Definition with_packets (q : AudioQueue) (id : Z) (l : list QueuePacket) (n : nat) : AudioQueue := {|
  decoder := decoder q; volume := volume q; next_id := id; whispering := whispering q;
  packet_buffer := l; packet_buffer_samples := n; decoded_buffer := decoded_buffer q;
  decoded_pos := decoded_pos q; last_packet_samples := last_packet_samples q;
  packet_loss_num := packet_loss_num q; buffering_samples := buffering_samples q;
  last_buffer_size_min := last_buffer_size_min q; last_buffer_size_max := last_buffer_size_max q;
  buffered_for_samples := buffered_for_samples q |}.

Definition with_decoded (q : AudioQueue) (l : list f32) (pos : nat) : AudioQueue := {|
  decoder := decoder q; volume := volume q; next_id := next_id q; whispering := whispering q;
  packet_buffer := packet_buffer q; packet_buffer_samples := packet_buffer_samples q;
  decoded_buffer := l; decoded_pos := pos; last_packet_samples := last_packet_samples q;
  packet_loss_num := packet_loss_num q; buffering_samples := buffering_samples q;
  last_buffer_size_min := last_buffer_size_min q; last_buffer_size_max := last_buffer_size_max q;
  buffered_for_samples := buffered_for_samples q |}.

Definition with_decoder (q : AudioQueue) (d : Decoder) (w : bool) (last loss : nat) : AudioQueue := {|
  decoder := d; volume := volume q; next_id := next_id q; whispering := w;
  packet_buffer := packet_buffer q; packet_buffer_samples := packet_buffer_samples q;
  decoded_buffer := decoded_buffer q; decoded_pos := decoded_pos q; last_packet_samples := last;
  packet_loss_num := loss; buffering_samples := buffering_samples q;
  last_buffer_size_min := last_buffer_size_min q; last_buffer_size_max := last_buffer_size_max q;
  buffered_for_samples := buffered_for_samples q |}.

Definition with_buffering (q : AudioQueue) (samples waited : nat) : AudioQueue := {|
  decoder := decoder q; volume := volume q; next_id := next_id q; whispering := whispering q;
  packet_buffer := packet_buffer q; packet_buffer_samples := packet_buffer_samples q;
  decoded_buffer := decoded_buffer q; decoded_pos := decoded_pos q;
  last_packet_samples := last_packet_samples q; packet_loss_num := packet_loss_num q;
  buffering_samples := samples; last_buffer_size_min := last_buffer_size_min q;
  last_buffer_size_max := last_buffer_size_max q; buffered_for_samples := waited |}.

Definition with_windows (q : AudioQueue) (mn : SlidingWindowMinimum Z)
    (mx : SlidingWindowMinimum Reverse) : AudioQueue := {|
  decoder := decoder q; volume := volume q; next_id := next_id q; whispering := whispering q;
  packet_buffer := packet_buffer q; packet_buffer_samples := packet_buffer_samples q;
  decoded_buffer := decoded_buffer q; decoded_pos := decoded_pos q;
  last_packet_samples := last_packet_samples q; packet_loss_num := packet_loss_num q;
  buffering_samples := buffering_samples q; last_buffer_size_min := mn;
  last_buffer_size_max := mx; buffered_for_samples := buffered_for_samples q |}.

(** [a - b] on [usize]: only an underflow can happen. *)
Definition usize_sub {E} (a b : nat) : res E nat :=
  if bool_decide (b <= a)%nat then Ok (a - b)%nat
  else if overflow_checks then Panic else Ok (Z.to_nat (wrap 64 (Z.of_nat a - Z.of_nat b))).

Definition add_buffer_size (q : AudioQueue) (size : nat) : AudioQueue :=
  let n := Z.of_nat (size / USUAL_FRAME_SIZE) in
  if bool_decide (is_u8 n) then
    with_windows q (swm_push (last_buffer_size_min q) n)
      (swm_push (H := ordered_reverse) (last_buffer_size_max q) n)
  else q.

Definition get_deviation {E} (q : AudioQueue) : res E Z :=
  let mn := get_min (last_buffer_size_min q) in
  let mx := get_min (H := ordered_reverse) (last_buffer_size_max q) in
  arith 8 (mx - mn).

(** The number of samples of an Opus packet. *)
Definition packet_samples (d : list Z) : res AudioError nat :=
  match packet_check d with
  | Some e => Err (GetPacketSample e)
  | None =>
      match nb_samples d with
      | inl e => Err (GetPacketSample e)
      | inr n => if bool_decide (MAX_BUFFER_SIZE < n)%nat then Err TooManySamples else Ok n
      end
  end.

(** [iter().rev().take_while(..).count()] of the packets that are not before [id]. *)
Fixpoint count_not_before (rl : list QueuePacket) (id : Z) : nat :=
  match rl with
  | [] => 0
  | p :: rl =>
      if wrap 16 (qp_id p - id) <=? Z.of_nat MAX_BUFFER_PACKETS
      then S (count_not_before rl id) else 0
  end.

Definition add_packet (q : AudioQueue) (packet : InAudioBuf) : res AudioError AudioQueue :=
  let buf := packet_buffer q in
  if bool_decide (MAX_BUFFER_PACKETS <= length buf)%nat then Err QueueFull else
  let d := AudioData_data (iab_data packet) in
  let? samples := if bool_decide (length d <= 1)%nat then Ok 0%nat else packet_samples d in
  let id := AudioData_id (iab_data packet) in
  let p := {| qp_packet := packet; qp_samples := samples; qp_id := id |} in
  if Z.of_nat MAX_BUFFER_PACKETS <? wrap 16 (id - next_id q) then Err (TooLate (next_id q) id) else
  let i := (length buf - count_not_before (rev buf) id)%nat in
  if match buf !! i with Some p' => qp_id p' =? id | None => false end then Err (Duplicate id) else
  let last_id := match last buf with Some p' => wrap 16 (qp_id p' + 1) | None => id end in
  let q :=
    if last_id <=? id then
      let b := (buffering_samples q - samples)%nat in
      with_buffering q (b - Z.to_nat (id - last_id) * last_packet_samples q)%nat
        (buffered_for_samples q)
    else q in
  Ok (with_packets q (next_id q) (take i buf ++ [p] ++ drop i buf)
    (packet_buffer_samples q + samples)).

Definition is_whisper (a : AudioData) : bool :=
  match a with AS2CWhisper _ _ _ _ => true | _ => false end.

Definition AudioQueue_new (packet : InAudioBuf) : res AudioError AudioQueue :=
  let data := iab_data packet in
  let? n := packet_samples (AudioData_data data) in
  match decoder_new with
  | inl e => Err (CreateDecoder e)
  | inr d =>
      let q := {|
        decoder := d; volume := f32_one; next_id := AudioData_id data;
        whispering := is_whisper data; packet_buffer := []; packet_buffer_samples := 0;
        decoded_buffer := []; decoded_pos := 0; last_packet_samples := n * CHANNEL_NUM;
        packet_loss_num := 0; buffering_samples := 0;
        last_buffer_size_min := swm_new LAST_BUFFER_SIZE_COUNT;
        last_buffer_size_max := swm_new LAST_BUFFER_SIZE_COUNT;
        buffered_for_samples := 0 |} in
      add_packet (add_buffer_size q 0) packet
  end.

(** * Decoding

    The functions below change the queue also when they return an error: they return the queue and
    the Rust result.  [Panic] is the only failure of the monad. *)

Definition outcome (A : Type) : Type := res Empty_set (AudioQueue * (AudioError + A)).

(** The statistics after a packet was decoded. *)
Definition update_buffer_size (q : AudioQueue) : res Empty_set AudioQueue :=
  match last (packet_buffer q) with
  | Some l =>
      let? lost := usize_sub (Z.to_nat (wrap 16 (qp_id l - next_id q)) + 1)
        (length (packet_buffer q)) in
      Ok (add_buffer_size q (packet_buffer_samples q + lost * last_packet_samples q))
  | None => Ok (add_buffer_size q (packet_buffer_samples q))
  end.

(** [decode_packet] after the packet was checked: [n] samples are expected. *)
Definition decode_samples (q : AudioQueue) (packet : option QueuePacket) (fec : bool) (n : nat)
    : outcome unit :=
  let orig := decoded_buffer q in
  let slice := replicate (n * CHANNEL_NUM) f32_zero in
  let loss := S (packet_loss_num q) in
  match signals_check (n * CHANNEL_NUM) with
  | Some e =>
      let q := with_decoder q (decoder q) (whispering q) (last_packet_samples q) loss in
      Ok (with_decoded q (orig ++ slice) (decoded_pos q), inl (GetPacketSample e))
  | None =>
      let '(d, slice, r) := decode_float (decoder q) (qp_data <$> packet) slice fec in
      let q := with_decoded q (orig ++ slice) (decoded_pos q) in
      match r with
      | inl e =>
          Ok (with_decoder q d (whispering q) (last_packet_samples q) loss,
            inl (Decode e ((fun p => iab_raw (qp_packet p)) <$> packet)))
      | inr n =>
          let q := with_decoded q (take (length orig + n * CHANNEL_NUM) (decoded_buffer q))
            (decoded_pos q) in
          let loss := if bool_decide (is_Some packet) && negb fec then 0%nat else loss in
          let q := with_decoder q d (whispering q) n loss in
          let? q := update_buffer_size q in
          Ok (q, inr tt)
      end
  end.

Definition decode_packet (q : AudioQueue) (packet : option QueuePacket) (fec : bool)
    : outcome unit :=
  match packet with
  | Some p =>
      match packet_check (qp_data p) with
      | Some e => Ok (q, inl (GetPacketSample e))
      | None =>
          let q := with_decoder q (decoder q) (is_whisper (iab_data (qp_packet p)))
            (last_packet_samples q) (packet_loss_num q) in
          decode_samples q packet fec (qp_samples p)
      end
  | None => decode_samples q None fec (last_packet_samples q)
  end.

(** [drain(i..i + 2)] for every [i] of the loop that speeds up the playback. *)
Fixpoint speed_up_loop (d : list f32) (start i n : nat) : res Empty_set (list f32) :=
  match n with
  | O => Ok d
  | S n =>
      let j := (start + i * (SPEED_CHANGE_STEPS - 1) * CHANNEL_NUM)%nat in
      if bool_decide (j + CHANNEL_NUM <= length d)%nat
      then speed_up_loop (take j d ++ drop (j + CHANNEL_NUM) d) start (S i) n else Panic
  end.

(** [take_while] with the sum of the samples, from the back. *)
Fixpoint count_kept (rl : list QueuePacket) (keep_samples limit : nat) : nat :=
  match rl with
  | [] => 0
  | p :: rl =>
      let keep_samples := (keep_samples + qp_samples p)%nat in
      if bool_decide (keep_samples < limit)%nat then S (count_kept rl keep_samples limit) else 0
  end.

Definition sum_samples (l : list QueuePacket) : nat := sum_list_with qp_samples l.

(** The end of an iteration: drop packets or speed up when the buffer was too long. *)
Definition adapt_speed (q : AudioQueue) : res Empty_set AudioQueue :=
  let mn := get_min (last_buffer_size_min q) in
  let? dev := get_deviation q in
  if Z.of_nat (MAX_BUFFER_SIZE / USUAL_FRAME_SIZE) <? mn then
    let buf := packet_buffer q in
    let keep := count_kept (rev buf) 0 (Z.to_nat mn + USUAL_FRAME_SIZE) in
    let buf := drop (length buf - keep) buf in
    let id := match buf with p :: _ => qp_id p | [] => next_id q end in
    Ok (with_packets q id buf (sum_samples buf))
  else if dev <? mn then
    let? start := usize_sub (length (decoded_buffer q)) (last_packet_samples q * CHANNEL_NUM) in
    let? d := speed_up_loop (decoded_buffer q) start 0
      (last_packet_samples q / SPEED_CHANGE_STEPS) in
    Ok (with_decoded q d (decoded_pos q))
  else Ok q.

(** What the loop does next. *)
Inductive flow :=
  | Continue
  | Break
  | Return (r : AudioError + list f32 * bool).

(** [self.decode_packet(..)?], then [k]. *)
Definition try_decode (m : outcome unit) (k : AudioQueue -> res Empty_set (AudioQueue * flow))
    : res Empty_set (AudioQueue * flow) :=
  let? '(q, r) := m in
  match r with
  | inl e => Ok (q, Return (inl e))
  | inr _ => k q
  end.

Definition after_decode (q : AudioQueue) : res Empty_set (AudioQueue * flow) :=
  if bool_decide (last_packet_samples q = 0%nat) then Ok (q, Break)
  else let? q := adapt_speed q in Ok (q, Continue).

(** One iteration of the loop. *)
Definition next_step (q : AudioQueue) : res Empty_set (AudioQueue * flow) :=
  match packet_buffer q with
  | packet :: rest =>
      if bool_decide (length (qp_data packet) <= 1)%nat then
        let q := with_packets q (next_id q) rest (packet_buffer_samples q) in
        Ok (q, Return (inr (decoded_buffer q, true)))
      else
        let? n := usize_sub (packet_buffer_samples q) (qp_samples packet) in
        let cur_id := next_id q in
        let q := with_packets q (wrap 16 (next_id q + 1)) rest n in
        if negb (qp_id packet =? cur_id) then
          if debug_assertions && negb (wrap 16 (qp_id packet - cur_id) <? Z.of_nat MAX_BUFFER_PACKETS)
          then Panic
          else
            try_decode (if qp_id packet =? next_id q then decode_packet q (Some packet) true
                        else decode_packet q None false)
              (fun q => after_decode (with_packets q (next_id q) (packet :: packet_buffer q)
                (packet_buffer_samples q + qp_samples packet)))
        else try_decode (decode_packet q (Some packet) false) after_decode
  | [] => try_decode (decode_packet q None false) after_decode
  end.

Fixpoint next_loop (fuel : nat) (q : AudioQueue) (len : nat)
    : option (res Empty_set (AudioQueue * flow)) :=
  match fuel with
  | O => None
  | S fuel =>
      if bool_decide (length (decoded_buffer q) < len)%nat then
        match next_step q with
        | Ok (q, Continue) => next_loop fuel q len
        | r => Some r
        end
      else Some (Ok (q, Break))
  end.

(** Every iteration adds at least one sample. *)
Definition next_fuel (len : nat) : nat := S len.

(** After the loop. *)
Definition finish_data (q : AudioQueue) (len : nat) : outcome (list f32 * bool) :=
  let q := with_decoded q (decoded_buffer q) len in
  let? r := slice_to (decoded_buffer q) len in
  Ok (q, inr (r, false)).

Definition refill (q : AudioQueue) (len : nat) : option (outcome (list f32 * bool)) :=
  if bool_decide (decoded_pos q <= length (decoded_buffer q))%nat then
    let q := with_decoded q (drop (decoded_pos q) (decoded_buffer q)) (decoded_pos q) in
    match next_loop (next_fuel len) q len with
    | None => None
    | Some (Ok (q, Return r)) => Some (Ok (q, r))
    | Some (Ok (q, _)) => Some (finish_data q len)
    | Some (Err e) => Some (Err e)
    | Some Panic => Some Panic
    end
  else Some Panic.

Definition get_next_data (q : AudioQueue) (len : nat) : option (outcome (list f32 * bool)) :=
  if bool_decide (0 < buffering_samples q)%nat then
    if bool_decide (MAX_BUFFER_TIME <= buffered_for_samples q)%nat then
      refill (with_buffering q 0 0) len
    else
      Some (Ok (with_buffering q (buffering_samples q) (buffered_for_samples q + len),
        inr ([], false)))
  else refill q len.

(** * The handler *)

(** The queues of the talkers, in the order in which the hash map iterates. *)
Context {Id : Type} `{EqDecision Id}.

Record AudioHandler := {
  queues : list (Id * AudioQueue);
  avg_buffer_samples : nat;
}.

Definition AudioHandler_default : AudioHandler := {| queues := []; avg_buffer_samples := 0 |}.

Definition reset (h : AudioHandler) : AudioHandler :=
  {| queues := []; avg_buffer_samples := avg_buffer_samples h |}.

(** [buf[i] += r[i] * vol] for the samples of [r]. *)
Fixpoint mix (buf r : list f32) (vol : f32) {struct r} : res Empty_set (list f32) :=
  match r with
  | [] => Ok buf
  | x :: r =>
      match buf with
      | [] => Panic
      | b :: buf => let? buf := mix buf r vol in Ok (f32_add b (f32_mul x vol) :: buf)
      end
  end.

(** The loop over the queues: the queues afterwards, the output and the talkers to remove. *)
Fixpoint fill_loop (qs : list (Id * AudioQueue)) (buf : list f32)
    : option (res Empty_set (list (Id * AudioQueue) * list f32 * list Id)) :=
  match qs with
  | [] => Some (Ok ([], buf, []))
  | (id, q) :: qs =>
      let step :=
        if bool_decide (MAX_PACKET_LOSSES <= packet_loss_num q)%nat then Some (Ok (q, buf, [id]))
        else
          match get_next_data q (length buf) with
          | None => None
          | Some m =>
              Some (let? '(q, r) := m in
                match r with
                | inl _ => Ok (q, buf, [])
                | inr (r, is_end) =>
                    let? buf := mix buf r (volume q) in
                    Ok (q, buf, if (is_end : bool) then [id] else [])
                end)
          end in
      match step with
      | Some (Ok (q, buf, gone)) =>
          match fill_loop qs buf with
          | Some (Ok (qs, buf, ids)) => Some (Ok ((id, q) :: qs, buf, gone ++ ids))
          | r => r
          end
      | Some (Err e) => Some (Err e)
      | Some Panic => Some Panic
      | None => None
      end
  end.

Definition fill_buffer (h : AudioHandler) (buf : list f32)
    : option (res Empty_set (AudioHandler * list f32 * list Id)) :=
  match fill_loop (queues h) buf with
  | Some (Ok (qs, buf, to_remove)) =>
      Some (Ok ({| queues := filter (fun p => fst p ∉ to_remove) qs;
                   avg_buffer_samples := avg_buffer_samples h |}, buf, to_remove))
  | Some (Err e) => Some (Err e)
  | Some Panic => Some Panic
  | None => None
  end.

(** The queue of a talker. *)
Fixpoint find_queue (qs : list (Id * AudioQueue)) (id : Id) : option AudioQueue :=
  match qs with
  | [] => None
  | (i, q) :: qs => if bool_decide (i = id) then Some q else find_queue qs id
  end.

Fixpoint set_queue (qs : list (Id * AudioQueue)) (id : Id) (q : AudioQueue)
    : list (Id * AudioQueue) :=
  match qs with
  | [] => [(id, q)]
  | (i, q') :: qs => if bool_decide (i = id) then (i, q) :: qs else (i, q') :: set_queue qs id q
  end.

Definition handle_packet (h : AudioHandler) (id : Id) (packet : InAudioBuf)
    : res AudioError (AudioHandler * option Id) :=
  let data := iab_data packet in
  let empty := bool_decide (length (AudioData_data data) <= 1)%nat in
  let codec := AudioData_codec data in
  if negb (bool_decide (codec = OpusMusic)) && negb (bool_decide (codec = OpusVoice))
  then Err (UnsupportedCodec codec) else
  match find_queue (queues h) id with
  | Some q =>
      let? q := add_packet q packet in
      Ok ({| queues := set_queue (queues h) id q; avg_buffer_samples := avg_buffer_samples h |}, None)
  | None =>
      if empty then Ok (h, None) else
      let? q := AudioQueue_new packet in
      let avg :=
        match queues h with
        | [] => avg_buffer_samples h
        | qs => (USUAL_FRAME_SIZE +
            sum_list_with (fun p => Z.to_nat (get_min (last_buffer_size_min (snd p)))) qs
              / length qs)%nat
        end in
      Ok ({| queues := set_queue (queues h) id (with_buffering q avg (buffered_for_samples q));
             avg_buffer_samples := avg |}, Some id)
  end.

End queue.

(** * Instances, used by the witnesses *)

(** Samples as integers. *)
#[global] Instance integer_samples : Float32 := {|
  f32 := Z; f32_zero := 0; f32_one := 1; f32_add := Z.add; f32_mul := Z.mul;
|}.

(** A decoder of silence: the first byte of a packet is its number of samples, a packet with the
    second byte 255 is corrupt. *)
#[global] Instance silence : Opus := {|
  OpusError := unit;
  Decoder := unit;
  decoder_new := inr tt;
  packet_check d := match d with [] => Some tt | _ => None end;
  nb_samples d := match d with n :: _ => inr (Z.to_nat n) | [] => inl tt end;
  signals_check _ := None;
  decode_float d p buf fec :=
    (d, buf,
     if bool_decide (length buf < 2)%nat then inl tt else
     match p with Some (_ :: 255 :: _) => inl tt | _ => inr (length buf / 2)%nat end);
|}.

#[global] Instance silence_laws : OpusLaws.
Proof.
  split; [done|]. intros [] p buf fec n. cbn [decode_float silence snd].
  case_bool_decide as Hl; [done|]. intros Hn.
  assert (n = length buf / 2)%nat as ->.
  { destruct p as [[|? [|z ?]]|]; try congruence. destruct z as [|z|]; try congruence.
    repeat (destruct z as [z|z|]; try congruence). }
  pose proof (Nat.Div0.mul_div_le (length buf) 2).
  split; [apply Nat.div_str_pos; lia|lia].
Qed.

(** An audio packet of a server with [n] samples. *)
Definition audio_packet (id n mark : Z) : InAudioBuf :=
  {| iab_raw := [n; mark]; iab_data := AS2C id 1 OpusVoice [n; mark] |}.
