(* ===== verification/AudioWindow.v ===== *)
(** The sliding window minimum of the audio queue computes the minimum of the last [size] values,
    for every order of the values, although its times are bytes that wrap around. *)
From S2P Require Import Prelude AudioQueue.
#[local] Open Scope Z_scope.

#[global] Instance ordered_u8_laws : OrderedLaws Z.
Proof. split; cbn [leb ordered_u8]; intros; lia. Qed.

#[global] Instance ordered_reverse_laws : @OrderedLaws Reverse ordered_reverse.
Proof. split; cbn [leb ordered_reverse]; unfold Reverse in *; intros; lia. Qed.

Section window.
Context {T : Type} `{OrderedLaws T}.
Implicit Types (hist : list T) (Q : list (nat * T)).

(** [x] is smaller than [y]. *)
Definition ltb (x y : T) : bool := negb (leb y x).

(** The values with their time in the window: the last [size] of the history. *)
Definition in_window (size : Z) hist (t : nat) (v : T) : Prop :=
  hist !! t = Some v /\ Z.of_nat (length hist) <= Z.of_nat t + size.

(** The queue without the wrap-around: times and values increase, every value of the window has an
    entry that is not older and not bigger. *)
Definition abs_window (size : Z) hist Q : Prop :=
  Forall (fun '(t, v) => in_window size hist t v) Q /\
  (forall i j t v t' v', (i < j)%nat -> Q !! i = Some (t, v) -> Q !! j = Some (t', v') ->
     (t < t')%nat /\ ltb v v' = true) /\
  (forall t v, in_window size hist t v ->
     exists t' v', (t', v') ∈ Q /\ (t <= t')%nat /\ leb v' v = true).

(** The window [w] after the values of the history were pushed. *)
Definition window_repr (w : SlidingWindowMinimum T) hist : Prop :=
  exists Q, abs_window (swm_size w) hist Q /\
    swm_queue w = map (fun '(t, v) => (wrap 8 (Z.of_nat t), v)) Q /\
    swm_cur_time w = wrap 8 (Z.of_nat (length hist)).

Lemma window_new size : window_repr (swm_new size) [].
Proof.
  exists []. split; [|done]. split; [constructor|split].
  - intros i j t v t' v' _ Hi. by rewrite lookup_nil in Hi.
  - intros t v [Ht _]. by rewrite lookup_nil in Ht.
Qed.

(** ** The two loops *)

(** The first loop keeps the entries that are smaller than the value. *)
Lemma pop_bigger_spec (rq : list (Z * T)) value :
  exists gone, rq = gone ++ pop_bigger rq value /\
    Forall (fun p => leb value (snd p) = true) gone /\
    match pop_bigger rq value with p :: _ => leb value (snd p) = false | [] => True end.
Proof.
  induction rq as [|[i s] rq (gone & Hrq & Hg & Hk)]; simpl.
  - by exists [].
  - destruct (leb value s) eqn:Hs.
    + exists ((i, s) :: gone). simpl. rewrite <- Hrq. split; [done|]. split; [|done].
      by constructor.
    + by exists [].
Qed.

Lemma pop_expired_spec (q : list (Z * T)) size cur :
  exists gone, q = gone ++ pop_expired q size cur /\
    Forall (fun p => size <= wrap 8 (cur - fst p)) gone /\
    match pop_expired q size cur with
    | p :: _ => wrap 8 (cur - fst p) < size | [] => True end.
Proof.
  induction q as [|[i s] q (gone & Hq & Hg & Hk)]; simpl.
  - by exists [].
  - destruct (Z.leb_spec size (wrap 8 (cur - i))).
    + exists ((i, s) :: gone). simpl. rewrite <- Hq. split; [done|]. split; [|done].
      by constructor.
    + by exists [].
Qed.

(** Transitivity of the strict order. *)
Lemma ltb_leb x y : ltb x y = true -> leb x y = true.
Proof. unfold ltb. intros Hx%negb_true_iff. by apply leb_total. Qed.

Lemma leb_ltb_trans x y z : leb x y = true -> ltb y z = true -> ltb x z = true.
Proof.
  unfold ltb. rewrite !negb_true_iff. intros Hxy Hyz. destruct (leb z x) eqn:Hzx; [|done].
  by rewrite (leb_trans z x y Hzx Hxy) in Hyz.
Qed.

(** ** Pushing a value *)

(** Without the entries at the back that are not smaller, and with the new value. *)
Lemma abs_push size hist value Q1 Q2 :
  1 <= size -> abs_window size hist (Q1 ++ Q2) ->
  Forall (fun p => leb value (snd p) = true) Q2 ->
  match last Q1 with Some p => ltb (snd p) value = true | None => True end ->
  abs_window (size + 1) (hist ++ [value]) (Q1 ++ [(length hist, value)]).
Proof.
  intros Hsize (Hin & Hsort & Hcov) Hbig Hlast.
  apply Forall_app in Hin as [Hin1 _].
  assert (forall t v, in_window size hist t v -> in_window (size + 1) (hist ++ [value]) t v) as Hmono.
  { intros t v [Ht Hs]. split; [by apply lookup_app_l_Some|]. rewrite length_app. simpl. lia. }
  split; [|split].
  - apply Forall_app. split; [|apply Forall_singleton].
    + eapply Forall_impl; [exact Hin1|]. intros [t v]. apply Hmono.
    + split; [by rewrite lookup_app_r, Nat.sub_diag by lia|]. rewrite length_app. simpl. lia.
  - intros i j t v t' v' Hij Hi Hj.
    apply lookup_app_Some in Hj as [Hj | [Hjl Hj]].
    + apply (Hsort i j); [done| |by apply lookup_app_l_Some].
      apply lookup_app_l_Some. rewrite lookup_app_l in Hi; [done|].
      apply lookup_lt_Some in Hj. lia.
    + assert (j = length Q1) as -> by (apply list_lookup_singleton_Some in Hj as [? _]; lia).
      rewrite Nat.sub_diag in Hj. simplify_eq/=. rewrite lookup_app_l in Hi by lia.
      split.
      * eapply Forall_lookup_1 in Hin1; [|exact Hi]. destruct Hin1 as [Ht _].
        by apply lookup_lt_Some in Ht.
      * destruct (last Q1) as [[tl vl]|] eqn:Hl; [|apply last_None in Hl; by subst].
        simpl in Hlast. rewrite last_lookup in Hl.
        destruct (decide (i = pred (length Q1))) as [->|Hne]; [congruence|].
        eapply leb_ltb_trans; [|exact Hlast]. apply ltb_leb.
        apply (Hsort i (pred (length Q1)) t v tl vl); [lia|by apply lookup_app_l_Some..].
  - intros t v [Ht Hs]. apply lookup_app_Some in Ht as [Ht | [Htl Ht]].
    + rewrite length_app in Hs. simpl in Hs.
      destruct (Hcov t v) as (t' & v' & Hq & Hle & Hv); [split; [done|lia]|].
      apply elem_of_app in Hq as [Hq|Hq].
      * exists t', v'. split; [|done]. apply elem_of_app. by left.
      * exists (length hist), value. split; [apply elem_of_app; right; by left|].
        apply lookup_lt_Some in Ht. split; [lia|].
        eapply leb_trans; [|exact Hv]. eapply Forall_forall in Hbig; [|exact Hq]. done.
    + apply list_lookup_singleton_Some in Ht as [Ht <-].
      exists (length hist), value. split; [apply elem_of_app; right; by left|].
      split; [lia|apply leb_refl].
Qed.

(** Without the entries that left the window. *)
Lemma abs_expire size hist Q1 Q2 :
  abs_window (size + 1) hist (Q1 ++ Q2) ->
  Forall (fun p => Z.of_nat (fst p) + size < Z.of_nat (length hist)) Q1 ->
  match Q2 with p :: _ => Z.of_nat (length hist) <= Z.of_nat (fst p) + size | [] => True end ->
  abs_window size hist Q2.
Proof.
  intros (Hin & Hsort & Hcov) Hgone Hhead. apply Forall_app in Hin as [_ Hin2].
  split; [|split].
  - apply Forall_lookup. intros i [t v] Hi. pose proof (Forall_lookup_1 _ _ _ _ Hin2 Hi) as [Ht _].
    split; [done|]. destruct Q2 as [|[t0 v0] Q2]; [done|]. simpl in Hhead.
    destruct i as [|i]; [by simplify_eq/=|].
    destruct (Hsort (length Q1) (length Q1 + S i)%nat t0 v0 t v) as [? _]; [lia|..|lia].
    + by rewrite lookup_app_r, Nat.sub_diag by lia.
    + rewrite lookup_app_r by lia. by replace (length Q1 + S i - length Q1)%nat with (S i) by lia.
  - intros i j t v t' v' Hij Hi Hj.
    apply (Hsort (length Q1 + i) (length Q1 + j))%nat; [lia|..];
      rewrite lookup_app_r by lia;
      [by replace (length Q1 + i - length Q1)%nat with i by lia
      |by replace (length Q1 + j - length Q1)%nat with j by lia].
  - intros t v [Ht Hs]. destruct (Hcov t v) as (t' & v' & Hq & Hle & Hv); [split; [done|lia]|].
    apply elem_of_app in Hq as [Hq|Hq]; [|by exists t', v'].
    eapply Forall_forall in Hgone; [|exact Hq]. simpl in Hgone. lia.
Qed.

(** Ages below 256 survive the wrap-around of the times. *)
Lemma age_wrap n t : 0 <= n - t < 256 -> wrap 8 (wrap 8 n - wrap 8 t) = n - t.
Proof.
  intros Ha. unfold wrap. change (2 ^ 8) with 256. rewrite <- Zminus_mod. apply Z.mod_small. lia.
Qed.

Definition stamp (p : nat * T) : Z * T := (wrap 8 (Z.of_nat (fst p)), snd p).

Lemma window_push w hist value :
  1 <= swm_size w <= 255 -> window_repr w hist -> window_repr (swm_push w value) (hist ++ [value]).
Proof.
  intros Hsize (Q & Habs & Hq & Hcur).
  assert (swm_queue w = map stamp Q) as Hq' by (rewrite Hq; apply map_ext; by intros []).
  destruct (pop_bigger_spec (rev (swm_queue w)) value) as (gone & Hrev & Hgone & Hkept).
  set (kept := pop_bigger _ _) in *.
  assert (map stamp Q = rev kept ++ rev gone) as Hsplit
    by (rewrite <- rev_app_distr, <- Hrev, rev_involutive; done).
  apply map_eq_app in Hsplit as (Q1 & Q2 & -> & Hk & Hg).
  assert (abs_window (swm_size w + 1) (hist ++ [value]) (Q1 ++ [(length hist, value)])) as Habs1.
  { eapply abs_push; [lia|exact Habs|..].
    - apply Forall_forall. intros p Hp. assert (stamp p ∈ gone) as Hin.
      { rewrite <- (rev_involutive gone), <- Hg, list_elem_of_In, <- in_rev, <- list_elem_of_In.
        apply list_elem_of_In, in_map, list_elem_of_In, Hp. }
      eapply Forall_forall in Hgone; [|exact Hin]. done.
    - destruct (last Q1) as [p|] eqn:Hl; [|done].
      apply last_Some in Hl as [Q1' ->]. rewrite map_app in Hk. simpl in Hk.
      apply (f_equal (@rev _)) in Hk. rewrite rev_involutive, rev_app_distr in Hk. simpl in Hk.
      rewrite <- Hk in Hkept. simpl in Hkept. unfold ltb. by rewrite Hkept. }
  unfold swm_push. fold kept. rewrite <- Hk.
  assert (map stamp Q1 ++ [(swm_cur_time w, value)]
    = map stamp (Q1 ++ [(length hist, value)])) as -> by (rewrite map_app, Hcur; done).
  set (Q' := Q1 ++ [(length hist, value)]) in *.
  destruct (pop_expired_spec (map stamp Q') (swm_size w) (swm_cur_time w))
    as (out & Hout & Hexp & Hhead).
  set (rest := pop_expired _ _ _) in *.
  apply map_eq_app in Hout as (G & R & HQ & HG & HR). rewrite HQ in Habs1.
  assert (forall p : nat * T, p ∈ G ++ R -> (fst p <= length hist)%nat /\
    wrap 8 (swm_cur_time w - fst (stamp p)) = Z.of_nat (length hist) - Z.of_nat (fst p)) as Hage.
  { intros [t v] Hp. destruct Habs1 as [Hin _]. eapply Forall_forall in Hin; [|exact Hp].
    destruct Hin as [Ht Hs]. apply lookup_lt_Some in Ht. rewrite length_app in Ht, Hs.
    simpl in Ht, Hs. simpl. split; [lia|]. rewrite Hcur. apply age_wrap. lia. }
  exists R. cbn [swm_queue swm_size swm_cur_time]. split; [|split].
  - eapply abs_expire; [exact Habs1|..].
    + apply Forall_forall. intros p Hp. rewrite length_app. simpl.
      destruct (Hage p) as [Hle Ha]; [apply elem_of_app; by left|].
      assert (stamp p ∈ out) as Hin by (rewrite <- HG; apply list_elem_of_In, in_map, list_elem_of_In, Hp).
      eapply Forall_forall in Hexp; [|exact Hin]. cbn beta in Hexp. lia.
    + destruct R as [|p R]; [done|]. rewrite length_app. simpl.
      destruct (Hage p) as [Hle Ha]; [apply elem_of_app; right; by left|].
      subst rest. rewrite <- HR in Hhead. simpl in Hhead. unfold stamp in Ha. simpl in Ha. lia.
  - subst rest. rewrite <- HR. apply map_ext. by intros [].
  - rewrite Hcur, length_app. simpl. unfold wrap. rewrite Nat2Z.inj_add.
    by rewrite Zplus_mod_idemp_l.
Qed.

Lemma window_push_size w value : swm_size (swm_push w value) = swm_size w.
Proof. done. Qed.

(** The front of the queue is the minimum. *)
Lemma get_min_spec w hist :
  1 <= swm_size w -> window_repr w hist -> hist <> [] ->
  (exists t, in_window (swm_size w) hist t (get_min w)) /\
  forall t v, in_window (swm_size w) hist t v -> leb (get_min w) v = true.
Proof.
  intros Hsize (Q & (Hin & Hsort & Hcov) & Hq & _) Hne.
  destruct (exists_last Hne) as (h & x & ->).
  destruct (Hcov (length h) x) as (t0 & v0 & Hq0 & _ & _).
  { split; [by rewrite lookup_app_r, Nat.sub_diag by lia|]. rewrite length_app. simpl. lia. }
  destruct Q as [|[t1 v1] Q]; [by apply not_elem_of_nil in Hq0|].
  unfold get_min. rewrite Hq. simpl. split.
  - exists t1. by apply Forall_inv in Hin.
  - intros t v Htv. destruct (Hcov t v Htv) as (t' & v' & Hq' & _ & Hle).
    apply list_elem_of_lookup in Hq' as [[|j] Hj]; [by simplify_eq/=|].
    destruct (Hsort 0%nat (S j) t1 v1 t' v') as [_ Hlt]; [lia|done..|].
    eapply leb_trans; [by apply ltb_leb|done].
Qed.

(** The last [size] values. *)
Definition last_values (size : nat) hist : list T := drop (length hist - size) hist.

Lemma in_window_last size hist v :
  (exists t, in_window (Z.of_nat size) hist t v) <-> v ∈ last_values size hist.
Proof.
  unfold last_values, in_window. rewrite list_elem_of_lookup. split.
  - intros (t & Ht & Hs). exists (t - (length hist - size))%nat. rewrite lookup_drop.
    by replace (length hist - size + (t - (length hist - size)))%nat with t by lia.
  - intros [i Hi]. rewrite lookup_drop in Hi. exists (length hist - size + i)%nat.
    split; [done|lia].
Qed.

Lemma window_repr_pushes size hist :
  1 <= Z.of_nat size <= 255 ->
  swm_size (foldl swm_push (swm_new (Z.of_nat size)) hist) = Z.of_nat size /\
  window_repr (foldl swm_push (swm_new (Z.of_nat size)) hist) hist.
Proof.
  intros Hsize. induction hist as [|v hist IH] using rev_ind; simpl.
  - split; [done|apply window_new].
  - rewrite foldl_app. simpl. destruct IH as [IHs IHr]. split; [done|].
    apply window_push; [by rewrite IHs|done].
Qed.

(** C34: the sliding window minimum equals its reference: after any non-empty sequence of values,
    [get_min] is one of the last [size] values and not bigger than any of them, for every size a
    byte can hold and also after the byte of the current time wrapped around. *)
Theorem sliding_window_minimum (size : nat) (hist : list T)
    (Hsize : 1 <= Z.of_nat size <= 255) (Hne : hist <> []) :
  let w := foldl swm_push (swm_new (Z.of_nat size)) hist in
  get_min w ∈ last_values size hist /\
  Forall (fun v => leb (get_min w) v = true) (last_values size hist).
Proof.
  intros w. destruct (window_repr_pushes size hist Hsize) as [Hs Hr].
  fold w in Hs, Hr. destruct (get_min_spec w hist) as [Hin Hmin]; [by rewrite Hs; lia|done|done|].
  rewrite Hs in Hin, Hmin. split; [by apply in_window_last|].
  apply Forall_forall. intros v Hv. apply in_window_last in Hv as [t Ht]. by eapply Hmin.
Qed.

End window.

Lemma sliding_window_minimum_witness :
  let w := foldl swm_push (swm_new 3) [5; 1; 9; 7; 8] in
  get_min w ∈ [9; 7; 8] /\ get_min w = 7.
Proof.
  split; [|reflexivity].
  apply (sliding_window_minimum 3 [5; 1; 9; 7; 8]); [lia|done].
Defined.
