(* ===== verification/AudioSafety.v ===== *)
(** The jitter buffer keeps its packets sorted, accepts exactly the packets that fit, and hands out
    the requested number of samples; after a decoding error it can panic. *)
From S2P Require Import Prelude ByteIO Packets AudioData AudioQueue AudioWindow.
From Stdlib Require Import Sorting.Sorted.
#[local] Open Scope Z_scope.

Section invariant.
Context `{Profile} `{OpusLaws}.

(** * The invariant *)

(** How far a packet is ahead of the next one that is played. *)
Definition dist (n : Z) (p : QueuePacket) : Z := wrap 16 (qp_id p - n).

(** The end of a stream has no samples. *)
Definition packet_ok (lim n : Z) (p : QueuePacket) : Prop :=
  (is_u16 (qp_id p) /\ ((length (qp_data p) <= 1)%nat -> qp_samples p = 0%nat)) /\ dist n p <= lim.

(** The packets are in the order in which they are played, at most [lim] ahead. *)
Definition packets_ok (lim n : Z) (l : list QueuePacket) : Prop :=
  is_u16 n /\ Forall (packet_ok lim n) l /\ StronglySorted (fun a b => dist n a < dist n b) l.

(** Both windows saw the same values. *)
Definition windows_ok (mn : SlidingWindowMinimum Z) (mx : SlidingWindowMinimum Reverse) : Prop :=
  exists hist, hist <> [] /\ bytes hist /\ swm_size mn = LAST_BUFFER_SIZE_COUNT /\
    swm_size mx = LAST_BUFFER_SIZE_COUNT /\ window_repr mn hist /\
    window_repr (H := ordered_reverse) mx hist.

Definition base_ok (lim : Z) (q : AudioQueue) : Prop :=
  packets_ok lim (next_id q) (packet_buffer q) /\
  packet_buffer_samples q = sum_samples (packet_buffer q) /\
  windows_ok (last_buffer_size_min q) (last_buffer_size_max q).

(** The samples that were handed out are still in the buffer. *)
Definition pos_ok (q : AudioQueue) : Prop := (decoded_pos q <= length (decoded_buffer q))%nat.

(** * Distances *)

Lemma wrap16_range z : 0 <= wrap 16 z < 65536.
Proof. apply (wrap_uint 16). lia. Qed.

(** Packets that are near relate to each other as their distances. *)
Lemma dist_sub n a b :
  0 <= wrap 16 (a - n) <= 50 -> 0 <= wrap 16 (b - n) <= 50 ->
  (wrap 16 (a - b) <= 50 <-> wrap 16 (b - n) <= wrap 16 (a - n)) /\
  (wrap 16 (b - n) <= wrap 16 (a - n) -> wrap 16 (a - b) = wrap 16 (a - n) - wrap 16 (b - n)).
Proof.
  intros Ha Hb. unfold wrap in *. change (2 ^ 16) with 65536 in *.
  assert ((a - b) mod 65536 = ((a - n) mod 65536 - (b - n) mod 65536) mod 65536) as Hab.
  { rewrite <- Zminus_mod. f_equal. lia. }
  destruct (Z.le_gt_cases ((b - n) mod 65536) ((a - n) mod 65536)) as [Hle|Hgt].
  - rewrite Hab, Z.mod_small by lia. split; [split; [done|lia]|done].
  - rewrite Hab. replace ((a - n) mod 65536 - (b - n) mod 65536)
      with (((a - n) mod 65536 - (b - n) mod 65536 + 65536) + -1 * 65536) by lia.
    rewrite Z_mod_plus_full, Z.mod_small by lia. split; [split; lia|lia].
Qed.

Lemma dist_inj n a b : is_u16 a -> is_u16 b -> wrap 16 (a - n) = wrap 16 (b - n) -> a = b.
Proof.
  unfold is_uint, wrap. change (2 ^ 16) with 65536. intros Ha Hb Hab.
  assert ((a - b) mod 65536 = 0) as Hz.
  { replace (a - b) with ((a - n) - (b - n)) by lia. rewrite Zminus_mod, Hab, Z.sub_diag. done. }
  apply Z.mod_divide in Hz as [k Hk]; lia.
Qed.

(** The same packets seen from a later id that is not after any of them. *)
Lemma packets_rebase lim n n' l :
  packets_ok lim n l -> lim <= 50 -> is_u16 n' -> wrap 16 (n' - n) <= 50 ->
  Forall (fun p => wrap 16 (n' - n) <= dist n p) l -> packets_ok lim n' l.
Proof.
  intros (Hn & Hall & Hsort) Hlim Hn' Hd Hle.
  assert (forall p, p ∈ l -> dist n' p = dist n p - wrap 16 (n' - n)) as Hdist.
  { intros p Hp. eapply Forall_forall in Hall as [_ Hp1]; [|exact Hp].
    eapply Forall_forall in Hle; [|exact Hp]. unfold dist in *.
    pose proof (wrap16_range (qp_id p - n)). pose proof (wrap16_range (n' - n)).
    apply (dist_sub n (qp_id p) n'); lia. }
  split; [done|]. split.
  - apply Forall_forall. intros p Hp. eapply Forall_forall in Hall as [Hp0 Hp1]; [|exact Hp].
    split; [done|]. rewrite Hdist by done. pose proof (wrap16_range (n' - n)). lia.
  - clear Hall Hle. induction Hsort as [|p l Hs IH Hp]; [constructor|]. constructor.
    + apply IH. intros p' Hp'. apply Hdist. by right.
    + apply Forall_forall. intros p' Hp'. eapply Forall_forall in Hp; [|exact Hp'].
      rewrite !Hdist by (by left || by right). lia.
Qed.

Lemma packets_drop lim n l k : packets_ok lim n l -> packets_ok lim n (drop k l).
Proof.
  intros (Hn & Hall & Hsort). split; [done|]. split; [by apply Forall_drop|].
  clear Hall. revert k. induction Hsort as [|p l Hs IH Hp]; intros [|k]; simpl; try done; constructor; done.
Qed.

(** The last of a sorted list of packets is at least as far as there are packets before it. *)
Lemma sorted_last n (l : list QueuePacket) p :
  StronglySorted (fun a b => dist n a < dist n b) l -> last l = Some p ->
  Z.of_nat (length l) <= dist n p + 1.
Proof.
  destruct l as [|m l]; [done|]. intros Hsort Hlast.
  assert (dist n m + Z.of_nat (length l) <= dist n p) as Hgap.
  { revert m Hsort Hlast. induction l as [|m' l IH]; intros m Hsort Hlast.
    - simpl in Hlast. injection Hlast as ->. simpl. lia.
    - apply StronglySorted_inv in Hsort as [Hsort Hm]. apply Forall_inv in Hm.
      specialize (IH m' Hsort Hlast). cbn [length]. lia. }
  pose proof (wrap16_range (qp_id m - n)). unfold dist in *. cbn [length]. lia.
Qed.

(** * Adding a packet *)

Lemma sorted_app n (a b : list QueuePacket) :
  StronglySorted (fun a b => dist n a < dist n b) (a ++ b) <->
  StronglySorted (fun a b => dist n a < dist n b) a /\
  StronglySorted (fun a b => dist n a < dist n b) b /\
  Forall (fun x => Forall (fun y => dist n x < dist n y) b) a.
Proof.
  induction a as [|x a IH]; simpl.
  - split; [by repeat split; try constructor|tauto].
  - split.
    + intros [Hs Hx]%StronglySorted_inv. apply IH in Hs as (Ha & Hb & Hab).
      apply Forall_app in Hx as [Hx1 Hx2]. repeat split; by try constructor.
    + intros (Ha & Hb & Hab). apply StronglySorted_inv in Ha as [Ha Hx].
      apply Forall_cons in Hab as [Hxb Hab]. constructor; [by apply IH|].
      by apply Forall_app.
Qed.

(** The packets that are counted from the back are those that are not before [id]. *)
Lemma count_split lim n l id :
  packets_ok lim n l -> lim <= 50 -> wrap 16 (id - n) <= 50 ->
  exists a b, l = a ++ b /\ length b = count_not_before (rev l) id /\
    Forall (fun p => dist n p < wrap 16 (id - n)) a /\
    Forall (fun p => wrap 16 (id - n) <= dist n p) b.
Proof.
  intros (Hn & Hall & Hsort) Hlim Hid. induction l as [|p l IH] using rev_ind.
  - by exists [], [].
  - apply Forall_app in Hall as [Hall [_ Hp]%Forall_inv]. apply sorted_app in Hsort as (Hs & _ & Hlt).
    rewrite rev_app_distr. simpl. unfold dist in Hp. change (Z.of_nat MAX_BUFFER_PACKETS) with 50.
    pose proof (wrap16_range (qp_id p - n)). pose proof (wrap16_range (id - n)).
    destruct (dist_sub n (qp_id p) id) as [Hiff _]; [lia..|].
    destruct (Z.leb_spec (wrap 16 (qp_id p - id)) 50) as [Hle|Hgt].
    + destruct (IH Hall Hs) as (a & b & -> & Hlen & Ha & Hb).
      exists a, (b ++ [p]). rewrite <- app_assoc, length_app. simpl. split; [done|]. split; [lia|]. split; [done|].
      apply Forall_app. split; [done|]. apply Forall_singleton. unfold dist. lia.
    + exists (l ++ [p]), []. rewrite app_nil_r. split; [done|]; split; [done|]; split; [|constructor].
      apply Forall_app. split; [|apply Forall_singleton; unfold dist; lia].
      eapply Forall_impl; [exact Hlt|]. intros x Hx. apply Forall_inv in Hx. unfold dist in *. lia.
Qed.

Lemma packets_insert lim n a b p :
  packets_ok lim n (a ++ b) -> packet_ok lim n p ->
  Forall (fun x => dist n x < dist n p) a -> Forall (fun x => dist n p < dist n x) b ->
  packets_ok lim n (a ++ [p] ++ b).
Proof.
  intros (Hn & Hall & Hsort) Hp Ha Hb. apply Forall_app in Hall as [Hla Hlb].
  apply sorted_app in Hsort as (Hsa & Hsb & Hab).
  split; [done|]. split; [apply Forall_app; split; [done|by constructor]|].
  apply sorted_app. split; [done|]. split; [by constructor|].
  apply Forall_forall. intros x Hx. constructor.
  - by eapply Forall_forall in Ha.
  - by eapply Forall_forall in Hab.
Qed.

Lemma sum_samples_app a b : sum_samples (a ++ b) = (sum_samples a + sum_samples b)%nat.
Proof. unfold sum_samples. induction a as [|x a IH]; simpl; [done|]. rewrite IH. lia. Qed.

(** How many samples the queue counts for the data of a packet: none for the end of a stream, else
    what the library reads from it, at most half a second. *)
Definition has_samples (data : list Z) (n : nat) : Prop :=
  if bool_decide (length data <= 1)%nat then n = 0%nat
  else packet_check data = None /\ nb_samples data = inr n /\ Z.of_nat n <= 24000.

(** The library refuses the data. *)
Definition not_readable (data : list Z) (e : OpusError) : Prop :=
  (1 < length data)%nat /\ (packet_check data = Some e \/ packet_check data = None /\ nb_samples data = inl e).

(** The packet is longer than half a second. *)
Definition too_long (data : list Z) : Prop :=
  (1 < length data)%nat /\ packet_check data = None /\ exists n, nb_samples data = inr n /\ 24000 < Z.of_nat n.

Lemma packet_samples_spec data :
  match (if bool_decide (length data <= 1)%nat then Ok 0%nat else packet_samples data) with
  | Ok n => has_samples data n
  | Err (GetPacketSample e) => not_readable data e
  | Err TooManySamples => too_long data
  | _ => False
  end.
Proof.
  unfold has_samples, not_readable, too_long. case_bool_decide as Hl; [done|].
  assert (1 < length data)%nat as Hl' by lia. unfold packet_samples.
  destruct (packet_check data) as [e|] eqn:Hc; [by split; [|left]|].
  destruct (nb_samples data) as [e|n] eqn:Hn; [by split; [|right]|].
  assert (MAX_BUFFER_SIZE = Z.to_nat 24000) as -> by done.
  case_bool_decide as Hm; [split; [done|]; split; [done|]; exists n; split; [done|lia]|].
  split; [done|]. split; [done|lia].
Qed.

(** The sample count says which of the three it is. *)
Lemma has_samples_excludes data n : has_samples data n ->
  (forall e, ~ not_readable data e) /\ ~ too_long data.
Proof.
  unfold has_samples, not_readable, too_long. case_bool_decide; [intros _; split; [intros e|]; intros [? _]; lia|].
  intros (Hc & Hn & Hl). rewrite Hc, Hn. split; [intros e (_ & [?|[_ ?]]); done|].
  intros (_ & _ & m & [= <-] & Hm). lia.
Qed.

(** The branches of [add_packet]. *)
Lemma add_packet_ok (q : AudioQueue) (packet : InAudioBuf)
    (Hq : base_ok 50 q) (Hid : is_u16 (AudioData_id (iab_data packet))) :
  let id := AudioData_id (iab_data packet) in
  let data := AudioData_data (iab_data packet) in
  match add_packet q packet with
  | Ok q' =>
      (length (packet_buffer q) < 50)%nat /\ wrap 16 (id - next_id q) <= 50 /\
      base_ok 50 q' /\ next_id q' = next_id q /\
      decoded_buffer q' = decoded_buffer q /\ decoded_pos q' = decoded_pos q /\
      exists a b p, packet_buffer q = a ++ b /\ packet_buffer q' = a ++ [p] ++ b /\
        qp_packet p = packet /\ qp_id p = id /\ has_samples data (qp_samples p) /\
        id ∉ map qp_id (packet_buffer q)
  | Err QueueFull => (50 <= length (packet_buffer q))%nat
  | Err (TooLate wanted got) => wanted = next_id q /\ got = id /\ 50 < wrap 16 (id - next_id q)
  | Err (Duplicate i) => i = id /\ id ∈ map qp_id (packet_buffer q)
  | Err (GetPacketSample e) => not_readable data e
  | Err TooManySamples => too_long data
  | _ => False
  end.
Proof.
  intros id data. destruct Hq as (Hp & Hsum & Hw). unfold add_packet.
  change MAX_BUFFER_PACKETS with 50%nat. case_bool_decide as Hroom; [done|].
  pose proof (packet_samples_spec (AudioData_data (iab_data packet))) as Hsamples. fold data in Hsamples |- *.
  set (samples := if bool_decide _ then Ok 0%nat else _) in *.
  destruct samples as [n|e|]; [|by destruct e|done]. cbn [res_bind].
  assert ((length data <= 1)%nat -> n = 0%nat) as Hquiet.
  { intros Hl. unfold has_samples in Hsamples. by rewrite bool_decide_true in Hsamples. }
  change (Z.of_nat 50) with 50. fold id.
  destruct (Z.ltb_spec 50 (wrap 16 (id - next_id q))) as [Hfar|Hnear]; [done|].
  destruct (count_split 50 (next_id q) (packet_buffer q) id Hp) as (a & b & Hab & Hlb & Ha & Hb);
    [lia..|].
  assert (length (packet_buffer q) < 50)%nat as Hlen by lia.
  rewrite <- Hlb, Hab, length_app, Nat.add_sub. rewrite Hab, length_app in Hlen.
  rewrite lookup_app_r, Nat.sub_diag by lia. pose proof Hp as (Hn & Hall & Hsort).
  rewrite Hab in Hall. apply Forall_app in Hall as [Hla Hlb'].
  set (p := {| qp_packet := packet; qp_samples := n; qp_id := id |}).
  assert (packet_ok 50 (next_id q) p) as Hpok by (split; [by split|unfold dist; cbn [p qp_id]; lia]).
  destruct (match b !! 0%nat with Some p' => qp_id p' =? id | None => false end) eqn:Hdup.
  { split; [done|]. destruct b as [|p' b]; [done|]. simpl in Hdup. apply Z.eqb_eq in Hdup.
    rewrite map_app. apply elem_of_app. right. rewrite <- Hdup. by left. }
  assert (Forall (fun x => dist (next_id q) p < dist (next_id q) x) b) as Hb'.
  { destruct b as [|p' b]; [constructor|]. simpl in Hdup.
    assert (dist (next_id q) p <> dist (next_id q) p') as Hne.
    { intros Heq. apply dist_inj in Heq; [|done|by apply Forall_inv in Hlb' as [[? _] _]].
      cbn [p qp_id] in Heq. subst id. rewrite Heq, Z.eqb_refl in Hdup. done. }
    rewrite Hab in Hsort. apply sorted_app in Hsort as (_ & Hsb & _).
    apply StronglySorted_inv in Hsb as [_ Hsb]. apply Forall_inv in Hb as Hb0.
    unfold dist in *. cbn [p qp_id] in *.
    constructor; [lia|]. eapply Forall_impl; [exact Hsb|]. cbn beta. intros x Hx. lia. }
  rewrite take_app_length, drop_app_length.
  set (q1 := if _ <=? _ then _ else q).
  assert (next_id q1 = next_id q /\ packet_buffer_samples q1 = packet_buffer_samples q /\
    last_buffer_size_min q1 = last_buffer_size_min q /\
    last_buffer_size_max q1 = last_buffer_size_max q /\
    decoded_buffer q1 = decoded_buffer q /\ decoded_pos q1 = decoded_pos q) as (E1 & E2 & E3 & E4 & E5 & E6).
  { subst q1. by destruct (_ <=? _). }
  unfold base_ok. cbn [with_packets next_id packet_buffer packet_buffer_samples
    last_buffer_size_min last_buffer_size_max decoded_buffer decoded_pos].
  rewrite E1, E2, E3, E4, E5, E6, Hsum.
  rewrite Hab. split; [rewrite ?length_app; lia|]. split; [done|].
  split; [|split; [done|split; [done|split; [done|]]]].
  - split; [apply packets_insert; [by rewrite <- Hab|done|exact Ha|exact Hb']|]. split; [|done].
    rewrite !sum_samples_app. change (sum_samples [p]) with (n + 0)%nat. lia.
  - exists a, b, p. split; [done|]. split; [done|]. split; [done|]. split; [done|]. split; [done|].
    rewrite map_app. intros [Hin|Hin]%elem_of_app;
      apply list_elem_of_In, in_map_iff in Hin as (x & Hx & Hin); apply list_elem_of_In in Hin.
    + eapply Forall_forall in Ha; [|exact Hin]. unfold dist in Ha. rewrite Hx in Ha. lia.
    + eapply Forall_forall in Hb'; [|exact Hin]. unfold dist in Hb'. cbn [p qp_id] in Hb'.
      rewrite Hx in Hb'. lia.
Qed.

(** C33: adding a packet to the queue of a talker is exact.  A packet is accepted if and only if
    there is room for it among the 50 packets, it is at most 50 ids ahead of the next one, it is not
    yet queued, and the library reads at most half a second of samples from it (or it is the end of
    the stream).  Then it is inserted at its place in the playing order, with the samples that were
    read, and no other packet moves.  Every refusal names its reason: the one reason it has of the
    library or of the length, and else that the packet is too far away or queued. *)
Theorem add_packet_exact (q : AudioQueue) (packet : InAudioBuf)
    (Hq : base_ok 50 q) (Hid : is_u16 (AudioData_id (iab_data packet))) :
  let id := AudioData_id (iab_data packet) in
  let data := AudioData_data (iab_data packet) in
  (match add_packet q packet with
  | Ok q' =>
      (length (packet_buffer q) < 50)%nat /\ wrap 16 (id - next_id q) <= 50 /\
      base_ok 50 q' /\ next_id q' = next_id q /\
      decoded_buffer q' = decoded_buffer q /\ decoded_pos q' = decoded_pos q /\
      exists a b p, packet_buffer q = a ++ b /\ packet_buffer q' = a ++ [p] ++ b /\
        qp_packet p = packet /\ qp_id p = id /\ has_samples data (qp_samples p) /\
        id ∉ map qp_id (packet_buffer q)
  | Err QueueFull => (50 <= length (packet_buffer q))%nat
  | Err (TooLate wanted got) => wanted = next_id q /\ got = id /\ 50 < wrap 16 (id - next_id q)
  | Err (Duplicate i) => i = id /\ id ∈ map qp_id (packet_buffer q)
  | Err (GetPacketSample e) => not_readable data e
  | Err TooManySamples => too_long data
  | _ => False
  end) /\
  (is_ok (add_packet q packet) = true <->
    wrap 16 (id - next_id q) <= 50 /\ (length (packet_buffer q) < 50)%nat /\
    (id ∉ map qp_id (packet_buffer q)) /\ exists n, has_samples data n).
Proof.
  intros id data. pose proof (add_packet_ok q packet Hq Hid) as Hadd. split; [exact Hadd|].
  cbn zeta in Hadd. fold id data in Hadd. destruct (add_packet q packet) as [q'|e|]; [|split; [done|]|done].
  - destruct Hadd as (Hroom & Hnear & _ & _ & _ & _ & a & b & p & _ & _ & _ & _ & Hn & Hnew).
    split; [|done]. intros _. split; [done|]. split; [done|]. split; [done|]. by exists (qp_samples p).
  - intros (Hnear & Hroom & Hnew & n & Hn). apply has_samples_excludes in Hn as [He Hl]. exfalso.
    destruct e; try done; try (by apply Hl); try (by eapply He); try lia; by destruct Hadd.
Qed.
End invariant.
