(* ===== verification/AudioDecode.v ===== *)
(** Taking samples out of the queue of a talker: the loop terminates, the packets stay in order,
    and the caller gets the number of samples it asked for.  After a decoding error this is no
    longer so. *)
From S2P Require Import Prelude ByteIO Packets AudioData AudioQueue AudioWindow AudioSafety.
From Stdlib Require Import Sorting.Sorted.
#[local] Open Scope Z_scope.

Section decode.
Context `{Profile} `{OpusLaws}.

(** * The windows *)

Lemma windows_push mn mx z :
  windows_ok mn mx -> is_u8 z ->
  windows_ok (swm_push mn z) (swm_push (H := ordered_reverse) mx z).
Proof.
  intros (hist & Hne & Hb & Hsmn & Hsmx & Hmn & Hmx) Hz. exists (hist ++ [z]).
  assert (1 <= LAST_BUFFER_SIZE_COUNT <= 255) by (unfold LAST_BUFFER_SIZE_COUNT; lia).
  split; [by destruct hist|]. split; [by apply Forall_app; split; [|constructor]|].
  split; [done|]. split; [done|].
  split; apply window_push; congruence.
Qed.

(** Both extrema are values of the window, so that their difference is not negative. *)
Lemma windows_extrema mn mx :
  windows_ok mn mx ->
  0 <= get_min mn /\ get_min mn <= get_min (H := ordered_reverse) mx < 256.
Proof.
  intros (hist & Hne & Hb & Hsmn & Hsmx & Hmn & Hmx).
  destruct (get_min_spec mn hist) as [(t & Ht) Hle]; [by rewrite Hsmn|done..|].
  destruct (get_min_spec (H := ordered_reverse) mx hist) as [(t' & Ht') _]; [by rewrite Hsmx|done..|].
  rewrite Hsmn in Ht, Hle. rewrite Hsmx in Ht'.
  specialize (Hle _ _ Ht'). cbn [leb ordered_u8] in Hle.
  destruct Ht as [Ht _]. apply (bytes_lookup _ _ _ Hb) in Ht.
  destruct Ht' as [Ht' _]. apply (bytes_lookup _ _ _ Hb) in Ht'. unfold Reverse in *. lia.
Qed.

Lemma get_deviation_ok {E} lim q :
  base_ok lim q -> exists dev, get_deviation (E := E) q = Ok dev /\ 0 <= dev.
Proof.
  intros (_ & _ & Hw). apply windows_extrema in Hw as [H1' H2']. unfold get_deviation.
  eexists. split; [apply arith_ok; unfold is_uint, Reverse in *; lia|]. unfold Reverse in *. lia.
Qed.

Lemma add_buffer_size_windows q n :
  windows_ok (last_buffer_size_min q) (last_buffer_size_max q) ->
  exists mn mx, add_buffer_size q n = with_windows q mn mx /\ windows_ok mn mx.
Proof.
  intros Hw. unfold add_buffer_size. case_bool_decide as Hb.
  - eexists _, _. split; [done|]. by apply windows_push.
  - exists (last_buffer_size_min q), (last_buffer_size_max q). split; [by destruct q|done].
Qed.

Lemma update_buffer_size_ok lim q :
  base_ok lim q -> lim <= 50 ->
  exists mn mx, update_buffer_size q = Ok (with_windows q mn mx) /\ windows_ok mn mx.
Proof.
  intros ((Hn & Hall & Hsort) & _ & Hw) Hlim. unfold update_buffer_size.
  destruct (last (packet_buffer q)) as [l|] eqn:Hl.
  - pose proof (sorted_last _ _ _ Hsort Hl) as Hlen. unfold dist in Hlen.
    unfold usize_sub. rewrite bool_decide_true
      by (pose proof (wrap16_range (qp_id l - next_id q)); lia).
    cbn [res_bind]. destruct (add_buffer_size_windows q
      (packet_buffer_samples q + (Z.to_nat (wrap 16 (qp_id l - next_id q)) + 1
         - length (packet_buffer q)) * last_packet_samples q) Hw) as (mn & mx & -> & Hw').
    by exists mn, mx.
  - destruct (add_buffer_size_windows q (packet_buffer_samples q) Hw) as (mn & mx & -> & Hw').
    by exists mn, mx.
Qed.

(** * Decoding a packet *)

(** What decoding leaves as it is, and what it adds. *)
Definition decode_post (lim : Z) (q q' : AudioQueue) (r : AudioError + unit) : Prop :=
  base_ok lim q' /\ next_id q' = next_id q /\ packet_buffer q' = packet_buffer q /\
  packet_buffer_samples q' = packet_buffer_samples q /\ decoded_pos q' = decoded_pos q /\
  match r with
  | inl _ => True
  | inr _ => (0 < last_packet_samples q')%nat /\
      length (decoded_buffer q')
        = (length (decoded_buffer q) + last_packet_samples q' * CHANNEL_NUM)%nat
  end.

Lemma decode_samples_ok lim q packet fec n :
  base_ok lim q -> lim <= 50 ->
  exists q' r, decode_samples q packet fec n = Ok (q', r) /\ decode_post lim q q' r.
Proof.
  intros Hq Hlim. unfold decode_samples. destruct (signals_check _) as [e|].
  { eexists _, _. split; [done|]. done. }
  pose proof (decode_slice (decoder q) (qp_data <$> packet) (replicate (n * CHANNEL_NUM) f32_zero)
    fec) as Hslice.
  pose proof (decode_count (decoder q) (qp_data <$> packet) (replicate (n * CHANNEL_NUM) f32_zero)
    fec) as Hcount.
  destruct (decode_float _ _ _ _) as [[d slice] [e|m]]; [by eexists _, _|].
  cbn [fst snd] in *. specialize (Hcount m eq_refl) as [Hm Hle].
  set (q1 := with_decoder _ _ _ _ _).
  destruct (update_buffer_size_ok lim q1) as (mn & mx & -> & Hw); [exact Hq|done|].
  cbn [res_bind]. eexists _, _. split; [done|]. split; [by split; [apply Hq|split; [apply Hq|]]|].
  split; [done|]. split; [done|]. split; [done|]. split; [done|].
  cbn [with_windows last_packet_samples decoded_buffer with_decoder with_decoded q1].
  split; [done|]. rewrite length_take, length_app, Hslice. unfold CHANNEL_NUM in *. lia.
Qed.

Lemma decode_packet_ok lim q packet fec :
  base_ok lim q -> lim <= 50 ->
  exists q' r, decode_packet q packet fec = Ok (q', r) /\ decode_post lim q q' r.
Proof.
  intros Hq Hlim. unfold decode_packet. destruct packet as [p|]; [|by apply decode_samples_ok].
  destruct (packet_check _) as [e|]; [by eexists _, _|].
  set (q1 := with_decoder _ _ _ _ _).
  destruct (decode_samples_ok lim q1 (Some p) fec (qp_samples p)) as (q' & r & -> & Hpost);
    [exact Hq|done|]. by exists q', r.
Qed.

(** * Speed *)

Lemma speed_up_ok d start i n :
  (start + 200 * (i + n) <= length d + 2 * i)%nat ->
  exists d', speed_up_loop d start i n = Ok d' /\ length d' = (length d - 2 * n)%nat.
Proof.
  revert d i. induction n as [|n IH]; intros d i Hlen; cbn [speed_up_loop].
  - exists d. split; [done|lia].
  - unfold SPEED_CHANGE_STEPS, CHANNEL_NUM. set (j := (start + _ * 2)%nat).
    assert (j = start + 198 * i)%nat as Hj by (subst j; lia). clearbody j.
    rewrite bool_decide_true by lia.
    assert (length (take j d ++ drop (j + 2) d) = length d - 2)%nat as Hl
      by (rewrite length_app, length_take, length_drop; lia).
    destruct (IH (take j d ++ drop (j + 2) d) (S i)) as (d' & -> & Hd'); [lia|].
    exists d'. split; [done|]. lia.
Qed.

(** Adapting the speed keeps the packets in order, and less is removed than one packet has. *)
Lemma adapt_speed_ok lim q l :
  base_ok lim q -> lim <= 50 -> (0 < last_packet_samples q)%nat ->
  length (decoded_buffer q) = (l + last_packet_samples q * CHANNEL_NUM)%nat ->
  exists q', adapt_speed q = Ok q' /\ base_ok lim q' /\ decoded_pos q' = decoded_pos q /\
    packet_buffer q' ⊆ packet_buffer q /\ (l < length (decoded_buffer q'))%nat.
Proof.
  intros Hq Hlim Hlast Hlen. destruct (get_deviation_ok (E := Empty_set) lim q Hq) as (dev & Hdev & _).
  unfold adapt_speed. rewrite Hdev. cbn [res_bind]. destruct Hq as (Hp & Hsum & Hw).
  unfold CHANNEL_NUM in *. destruct (_ <? _); [|destruct (_ <? _)].
  - eexists. split; [done|]. cbn [with_packets decoded_pos decoded_buffer packet_buffer].
    split; [|split; [done|split; [apply subseteq_drop|lia]]].
    set (k := (length (packet_buffer q) - _)%nat).
    apply (packets_drop lim _ _ k) in Hp. split; [|done].
    cbn [with_packets next_id packet_buffer].
    destruct (drop k (packet_buffer q)) as [|p rest] eqn:Hd; [done|].
    pose proof Hp as (_ & Hall & Hsort). apply Forall_inv in Hall as [[Hp16 _] Hplim].
    eapply packets_rebase; [exact Hp|done|done|unfold dist in Hplim; lia|].
    apply StronglySorted_inv in Hsort as [_ Hlt]. constructor; [unfold dist; lia|].
    eapply Forall_impl; [exact Hlt|]. cbn beta. unfold dist. lia.
  - unfold usize_sub. rewrite bool_decide_true by lia. cbn [res_bind].
    pose proof (Nat.Div0.mul_div_le (last_packet_samples q) 100) as Hdiv.
    destruct (speed_up_ok (decoded_buffer q)
      (length (decoded_buffer q) - last_packet_samples q * 2) 0
      (last_packet_samples q / SPEED_CHANGE_STEPS)) as (d' & -> & Hd');
      [unfold SPEED_CHANGE_STEPS; lia..|].
    cbn [res_bind]. eexists. split; [done|]. split; [done|]. split; [done|]. split; [done|].
    cbn [with_decoded decoded_buffer]. rewrite Hd'. unfold SPEED_CHANGE_STEPS. lia.
  - exists q. repeat split; try done; try apply Hp; lia.
Qed.

(** * The loop *)

(** A queued packet that ends the stream. *)
Definition has_end (q : AudioQueue) : Prop := Exists (fun p => (length (qp_data p) <= 1)%nat) (packet_buffer q).

Lemma has_end_incl q q' : packet_buffer q' ⊆ packet_buffer q -> has_end q' -> has_end q.
Proof. unfold has_end. rewrite !Exists_exists. intros Hin (p & Hp & Hl). exists p. split; [by apply Hin|done]. Qed.

(** What an iteration does to a well-formed queue. *)
Definition step_post (lim : Z) (q q' : AudioQueue) (f : flow) : Prop :=
  base_ok lim q' /\ decoded_pos q' = decoded_pos q /\ packet_buffer q' ⊆ packet_buffer q /\
  match f with
  | Continue => (length (decoded_buffer q) < length (decoded_buffer q'))%nat
  | Break => False
  | Return (inl _) => True
  | Return (inr (out, ended)) =>
      out = decoded_buffer q /\ decoded_buffer q' = decoded_buffer q /\ ended = true /\ has_end q
  end.

Lemma after_decode_ok lim q0 q :
  base_ok lim q -> lim <= 50 -> decoded_pos q = decoded_pos q0 -> packet_buffer q ⊆ packet_buffer q0 ->
  (0 < last_packet_samples q)%nat ->
  length (decoded_buffer q)
    = (length (decoded_buffer q0) + last_packet_samples q * CHANNEL_NUM)%nat ->
  exists q' f, after_decode q = Ok (q', f) /\ step_post lim q0 q' f.
Proof.
  intros Hq Hlim Hpos Hin Hlast Hlen. unfold after_decode. rewrite bool_decide_false by lia.
  destruct (adapt_speed_ok lim q _ Hq Hlim Hlast Hlen) as (q' & -> & Hq' & Hpos' & Hin' & Hgrow).
  cbn [res_bind]. exists q', Continue. split; [done|]. split; [done|]. split; [congruence|].
  split; [by etrans|done].
Qed.

(** Decoding, then [k] on a queue whose decoded samples grew. *)
Lemma try_decode_ok lim q0 q m k :
  decoded_buffer q = decoded_buffer q0 -> decoded_pos q = decoded_pos q0 -> packet_buffer q ⊆ packet_buffer q0 ->
  (exists q' r, m = Ok (q', r) /\ decode_post lim q q' r) ->
  (forall q', base_ok lim q' -> next_id q' = next_id q -> packet_buffer q' = packet_buffer q ->
     packet_buffer_samples q' = packet_buffer_samples q -> decoded_pos q' = decoded_pos q0 ->
     (0 < last_packet_samples q')%nat ->
     length (decoded_buffer q')
       = (length (decoded_buffer q0) + last_packet_samples q' * CHANNEL_NUM)%nat ->
     exists q'' f, k q' = Ok (q'', f) /\ step_post lim q0 q'' f) ->
  exists q' f, try_decode m k = Ok (q', f) /\ step_post lim q0 q' f.
Proof.
  intros Hbuf Hpos Hin (q' & r & -> & (Hok & Hn & Hb & Hs & Hp & Hr)) Hk. unfold try_decode.
  cbn [res_bind]. destruct r as [e|[]].
  - exists q', (Return (inl e)). split; [done|]. split; [done|]. split; [congruence|]. by rewrite Hb.
  - destruct Hr as [Hlast Hlen]. apply Hk; congruence.
Qed.

(** The first packet is taken out, and the next id is the one after the current one. *)
Lemma packets_behind lim n p rest :
  packets_ok lim n (p :: rest) -> lim <= 50 ->
  packets_ok lim (wrap 16 (n + 1)) rest /\
  (qp_id p <> n -> packets_ok lim (wrap 16 (n + 1)) (p :: rest)).
Proof.
  intros Hp Hlim. pose proof Hp as (Hn & Hall & Hsort).
  assert (is_u16 (wrap 16 (n + 1))) as Hn' by by apply wrap_uint.
  assert (wrap 16 (wrap 16 (n + 1) - n) = 1) as H1'.
  { unfold wrap. rewrite Zminus_mod_idemp_l. by replace (n + 1 - n) with 1 by lia. }
  apply StronglySorted_inv in Hsort as [_ Hlt].
  assert (Forall (fun x => 1 <= dist n x) rest) as Hrest.
  { eapply Forall_impl; [exact Hlt|]. cbn beta. intros x Hx.
    pose proof (wrap16_range (qp_id p - n)). unfold dist in *. lia. }
  split.
  - apply (packets_rebase lim n); rewrite ?H1'; try done.
    apply (packets_drop lim n (p :: rest) 1 Hp).
  - intros Hne. apply (packets_rebase lim n); rewrite ?H1'; try done. constructor; [|done].
    pose proof (wrap16_range (qp_id p - n)). unfold dist.
    assert (wrap 16 (qp_id p - n) <> 0); [|lia]. intros H0'. apply Hne.
    apply (dist_inj n); [by apply Forall_inv in Hall as [[? _] _]|done|].
    by rewrite H0', Z.sub_diag.
Qed.

Lemma next_step_ok lim q :
  base_ok lim q -> lim <= 50 -> (debug_assertions = true -> lim < 50) ->
  exists q' f, next_step q = Ok (q', f) /\ step_post lim q q' f.
Proof.
  intros Hq Hlim Hdebug. pose proof Hq as (Hp & Hsum & Hw). unfold next_step.
  destruct (packet_buffer q) as [|p rest] eqn:Hbuf.
  { apply (try_decode_ok lim q q); [done..|by apply decode_packet_ok|].
    intros q' Hq' _ Hb _ Hpos Hlast Hlen. apply after_decode_ok; try done. by rewrite Hb. }
  assert (rest ⊆ packet_buffer q) as Hin by (rewrite Hbuf; intros x Hx; by right).
  case_bool_decide.
  { eexists _, _. split; [done|]. split; [|split; [done|split; [done|]]].
    2: { split; [done|]. split; [done|]. split; [done|]. unfold has_end. rewrite Hbuf. by left. }
    split; [by apply (packets_drop lim _ (p :: rest) 1)|]. split; [|done].
    cbn [with_packets packet_buffer_samples packet_buffer]. rewrite Hsum.
    destruct Hp as (_ & Hl & _). apply Forall_inv in Hl as [[_ Hquiet] _]. cbn [sum_samples sum_list_with].
    unfold sum_samples. simpl. rewrite Hquiet by done. done. }
  assert (packet_buffer_samples q = qp_samples p + sum_samples rest)%nat as Hsum' by done.
  unfold usize_sub. rewrite bool_decide_true by lia. cbn [res_bind].
  rewrite Hsum', Nat.add_comm, Nat.add_sub.
  destruct (packets_behind lim _ p rest Hp Hlim) as [Hrest Hall].
  set (q1 := with_packets q _ rest _). assert (base_ok lim q1) as Hq1 by by split.
  destruct (Z.eqb_spec (qp_id p) (next_id q)) as [Heq|Hne]; cbn [negb].
  { apply (try_decode_ok lim q q1); [done..|by apply decode_packet_ok|].
    intros q' Hq' _ Hb _ Hpos Hlast Hlen. apply after_decode_ok; try done. by rewrite Hb. }
  assert (debug_assertions && negb (wrap 16 (qp_id p - next_id q) <? Z.of_nat MAX_BUFFER_PACKETS)
    = false) as ->.
  { destruct debug_assertions; [|done]. specialize (Hdebug eq_refl). destruct Hp as (_ & Hl & _).
    apply Forall_inv in Hl as [_ Hd]. unfold dist in Hd. change (Z.of_nat MAX_BUFFER_PACKETS) with 50.
    apply negb_false_iff, Z.ltb_lt. lia. }
  apply (try_decode_ok lim q q1); [done..| |].
  { destruct (_ =? _); by apply decode_packet_ok. }
  intros q' (Hp' & Hs' & Hw') Hn Hb Hs Hpos Hlast Hlen. apply after_decode_ok; try done.
  2: { cbn [with_packets packet_buffer]. rewrite Hb, Hbuf. done. }
  split; cbn [with_packets next_id packet_buffer packet_buffer_samples]; rewrite ?Hn, ?Hb, ?Hs.
  - by apply Hall.
  - split; [|done]. cbn [q1 with_packets packet_buffer packet_buffer_samples]. simpl. unfold sum_samples. lia.
Qed.

Lemma next_loop_ok lim fuel q n :
  base_ok lim q -> lim <= 50 -> (debug_assertions = true -> lim < 50) ->
  (n - length (decoded_buffer q) < fuel)%nat ->
  exists q' f, next_loop fuel q n = Some (Ok (q', f)) /\ base_ok lim q' /\
    decoded_pos q' = decoded_pos q /\ packet_buffer q' ⊆ packet_buffer q /\
    match f with
    | Continue => False
    | Break => (n <= length (decoded_buffer q'))%nat
    | Return (inl _) => True
    | Return (inr (out, ended)) =>
        out = decoded_buffer q' /\ (length out < n)%nat /\ ended = true /\ has_end q
    end.
Proof.
  intros Hq Hlim Hdebug. revert q Hq. induction fuel as [|fuel IH]; intros q Hq Hfuel; [lia|].
  cbn [next_loop]. case_bool_decide as Hlen; [|exists q, Break; split; [done|]; split; [done|]; split; [done|]; split; [done|lia]].
  destruct (next_step_ok lim q Hq Hlim Hdebug) as (q' & f & -> & Hq' & Hpos & Hin & Hf).
  destruct f as [| |[e|[out ended]]].
  - destruct (IH q' Hq') as (q'' & f & -> & Hq'' & Hpos' & Hin' & Hf'); [lia|].
    exists q'', f. split; [done|]. split; [done|]. split; [congruence|]. split; [by etrans|].
    destruct f as [| |[|[out ended]]]; try done. destruct Hf' as (-> & Hl & -> & He).
    split; [done|]. split; [done|]. split; [done|]. by eapply has_end_incl.
  - done.
  - by exists q', (Return (inl e)).
  - destruct Hf as (-> & Hb & -> & He). exists q', (Return (inr (decoded_buffer q, true))).
    by rewrite Hb.
Qed.

(** What [get_next_data] hands out. *)
Definition data_post (lim : Z) (q : AudioQueue) (n : nat) (q' : AudioQueue)
    (r : AudioError + list f32 * bool) : Prop :=
  base_ok lim q' /\
  match r with
  | inl _ => True
  | inr (out, true) => out = decoded_buffer q' /\ (length out < n)%nat /\ has_end q
  | inr (out, false) =>
      pos_ok q' /\
      (out = take n (decoded_buffer q') /\ length out = n /\ decoded_pos q' = n \/
       out = [] /\ (0 < buffering_samples q)%nat /\
         q' = with_buffering q (buffering_samples q) (buffered_for_samples q + n))
  end.

Lemma refill_ok lim q0 q n : packet_buffer q = packet_buffer q0 ->
  base_ok lim q -> pos_ok q -> lim <= 50 -> (debug_assertions = true -> lim < 50) ->
  exists q' r, refill q n = Some (Ok (q', r)) /\ data_post lim q0 n q' r.
Proof.
  intros Hsame Hq Hpos Hlim Hdebug. unfold refill. rewrite bool_decide_true by done.
  set (q1 := with_decoded q _ _).
  destruct (next_loop_ok lim (next_fuel n) q1 n) as (q' & f & -> & Hq' & _ & _ & Hf);
    [exact Hq|done|done|unfold next_fuel; lia|].
  destruct f as [| |[e|[out ended]]]; [done| |by exists q', (inl e)|].
  - unfold finish_data. rewrite slice_to_ok by done. cbn [res_bind].
    eexists _, _. split; [done|]. split; [done|]. split; [done|]. left.
    rewrite length_take. cbn [with_decoded decoded_buffer decoded_pos]. split; [done|]. split; [lia|done].
  - destruct Hf as (-> & Hout & -> & He). exists q', (inr (decoded_buffer q', true)).
    split; [done|]. split; [done|]. split; [done|]. split; [done|].
    unfold has_end in *. cbn [q1 with_decoded packet_buffer] in He. by rewrite <- Hsame.
Qed.

Lemma get_next_data_ok (lim : Z) (q : AudioQueue) (n : nat)
    (Hq : base_ok lim q) (Hpos : pos_ok q) (Hlim : lim <= 50)
    (Hdebug : debug_assertions = true -> lim < 50) :
  exists q' r, get_next_data q n = Some (Ok (q', r)) /\ data_post lim q n q' r.
Proof.
  unfold get_next_data. case_bool_decide; [case_bool_decide|]; try by apply refill_ok.
  eexists _, _. split; [done|]. split; [exact Hq|]. split; [done|]. by right.
Qed.


(** C32: taking data out of the queue of a talker returns, whatever the decoder answers, when
    the queue is in order and the samples it played are still in its buffer; with debug assertions
    also no packet may be 50 ids ahead.  The result is one of four.  Exactly the requested number of
    samples, the first of the decoded ones.  Nothing while the queue is buffering, and then it only
    counts the time.  All decoded samples, fewer than were requested, when a queued packet ends the
    stream.  Or an error.  The packets stay in order after all of them.  The played samples are in
    the buffer again after the first two; after an error they may not be, and then the next call
    panics ([decode_error_then_panic]). *)
Theorem get_next_data_returns (lim : Z) (q : AudioQueue) (n : nat)
    (Hq : base_ok lim q) (Hpos : pos_ok q) (Hlim : lim <= 50)
    (Hdebug : debug_assertions = true -> lim < 50) :
  exists q' r, get_next_data q n = Some (Ok (q', r)) /\ data_post lim q n q' r.
Proof. by apply get_next_data_ok. Qed.

(** One corrupt packet can crash the mixer.  When the decoder rejects a packet that is shorter
    than what was handed out before, the buffer is shorter than the position in it, and the next
    call panics, whatever it asks for. *)
Theorem decode_error_then_panic (q : AudioQueue) (n m : nat) (p : QueuePacket)
    (rest : list QueuePacket) (e : OpusError) (d : Decoder) (slice : list f32)
    (Hlim : (0 < n)%nat) (Hplaying : buffering_samples q = 0%nat)
    (Hbuf : packet_buffer q = p :: rest) (Hnext : qp_id p = next_id q)
    (Hsamples : (qp_samples p <= packet_buffer_samples q)%nat)
    (Hlong : (1 < length (qp_data p))%nat) (Hcheck : packet_check (qp_data p) = None)
    (Hsignals : signals_check (qp_samples p * CHANNEL_NUM) = None)
    (Hdecode : decode_float (decoder q) (Some (qp_data p))
      (replicate (qp_samples p * CHANNEL_NUM) f32_zero) false = (d, slice, inl e))
    (Hplayed : decoded_pos q = length (decoded_buffer q))
    (Hshort : (qp_samples p * CHANNEL_NUM < decoded_pos q)%nat) :
  exists q', get_next_data q n = Some (Ok (q', inl (Decode e (Some (iab_raw (qp_packet p)))))) /\
    get_next_data q' m = Some Panic.
Proof.
  pose proof (decode_slice (decoder q) (Some (qp_data p))
    (replicate (qp_samples p * CHANNEL_NUM) f32_zero) false) as Hslice.
  rewrite Hdecode in Hslice. cbn [fst snd] in Hslice. rewrite length_replicate in Hslice.
  unfold get_next_data at 1. rewrite Hplaying. rewrite bool_decide_false by lia. unfold refill.
  rewrite bool_decide_true by lia. rewrite drop_ge by lia. unfold next_fuel. cbn [next_loop].
  cbn [with_decoded decoded_buffer length]. rewrite bool_decide_true by done.
  unfold next_step. cbn [with_decoded packet_buffer next_id packet_buffer_samples]. rewrite Hbuf.
  rewrite bool_decide_false by lia. unfold usize_sub. rewrite bool_decide_true by done.
  cbn [res_bind]. rewrite Hnext, Z.eqb_refl. cbn [negb]. unfold decode_packet. rewrite Hcheck.
  unfold decode_samples. rewrite Hsignals.
  cbn [with_decoder with_packets with_decoded decoder fmap option_fmap option_map]. rewrite Hdecode.
  unfold try_decode. cbn [res_bind]. eexists. split; [done|].
  unfold get_next_data.
  cbn [with_decoder with_packets with_decoded buffering_samples decoded_buffer decoded_pos].
  rewrite Hplaying. rewrite bool_decide_false by lia. unfold refill.
  cbn [with_decoder with_packets with_decoded decoded_buffer decoded_pos].
  rewrite bool_decide_false; [done|]. rewrite app_nil_l. lia.
Qed.

End decode.
