(* ===== verification/AudioMixer.v ===== *)
(** The mixer of received audio: one queue per talker, filling a buffer from all of them. *)
From S2P Require Import Prelude ByteIO Packets AudioData AudioQueue AudioWindow AudioSafety.
From S2P Require Import AudioDecode.
From Stdlib Require Import Sorting.Sorted.
#[local] Open Scope Z_scope.

Section mixer.
Context `{Profile} `{OpusLaws}.
Context {Id : Type} `{!EqDecision Id}.
Implicit Types (qs : list (Id * AudioQueue)) (h : AudioHandler (Id := Id)).

(** * New queues *)

Lemma windows_start (q : AudioQueue) :
  last_buffer_size_min q = swm_new LAST_BUFFER_SIZE_COUNT ->
  last_buffer_size_max q = swm_new LAST_BUFFER_SIZE_COUNT ->
  exists mn mx, add_buffer_size q 0 = with_windows q mn mx /\ windows_ok mn mx.
Proof.
  intros Hmn Hmx. unfold add_buffer_size. rewrite bool_decide_true by done.
  eexists _, _. split; [done|]. rewrite Hmn, Hmx. exists [0].
  split; [done|]. split; [by constructor|]. split; [done|]. split; [done|].
  assert (1 <= LAST_BUFFER_SIZE_COUNT <= 255) by (unfold LAST_BUFFER_SIZE_COUNT; lia).
  split; (apply (window_push _ []); [done|apply window_new]).
Qed.

(** A queue that is ready to be played. *)
Definition playable (lim : Z) (q : AudioQueue) : Prop := base_ok lim q /\ pos_ok q.

Lemma add_packet_playable q packet q' :
  playable 50 q -> is_u16 (AudioData_id (iab_data packet)) -> add_packet q packet = Ok q' ->
  playable 50 q'.
Proof.
  intros [Hq Hpos] Hid Hadd. pose proof (add_packet_ok q packet Hq Hid) as Hspec.
  rewrite Hadd in Hspec. destruct Hspec as (_ & _ & Hq' & _ & Hdec & Hdp & _).
  split; [done|]. unfold pos_ok in *. congruence.
Qed.

Lemma AudioQueue_new_playable packet q :
  is_u16 (AudioData_id (iab_data packet)) -> AudioQueue_new packet = Ok q -> playable 50 q.
Proof.
  intros Hid Hnew. unfold AudioQueue_new in Hnew.
  apply res_bind_ok in Hnew as (n & _ & Hnew). destruct decoder_new as [e|d]; [done|].
  match type of Hnew with context [add_buffer_size ?q0 0] => set (q1 := q0) in Hnew end.
  destruct (windows_start q1) as (mn & mx & Hw & Hok); [done..|]. rewrite Hw in Hnew.
  eapply add_packet_playable; [|exact Hid|exact Hnew]. split; [|unfold pos_ok; simpl; lia].
  split; [|by split]. split; [exact Hid|]. split; constructor.
Qed.

(** * One queue per talker *)

Definition talkers h : list Id := map fst (queues h).

Definition handler_ok (lim : Z) h : Prop :=
  NoDup (talkers h) /\ Forall (fun p => playable lim (snd p)) (queues h).

Lemma find_queue_in qs id q : find_queue qs id = Some q -> (id, q) ∈ qs.
Proof.
  induction qs as [|[i q'] qs IH]; simpl; [done|]. case_bool_decide as Hi.
  - intros [= ->]. subst. by left.
  - intros Hq. right. by apply IH.
Qed.

Lemma find_queue_none qs id : find_queue qs id = None <-> id ∉ map fst qs.
Proof.
  induction qs as [|[i q'] qs IH]; simpl; [split; [intros _; apply not_elem_of_nil|done]|].
  case_bool_decide as Hi.
  - split; [done|]. intros Hin. destruct Hin. subst. by left.
  - rewrite IH, not_elem_of_cons. split; [by split|tauto].
Qed.

Lemma set_queue_keys qs id q :
  map fst (set_queue qs id q)
    = match find_queue qs id with Some _ => map fst qs | None => map fst qs ++ [id] end.
Proof.
  induction qs as [|[i q'] qs IH]; simpl; [done|]. case_bool_decide as Hi; [done|].
  simpl. rewrite IH. by destruct (find_queue qs id).
Qed.

Lemma set_queue_all (P : Id * AudioQueue -> Prop) qs id q :
  Forall P qs -> (forall i, P (i, q)) -> Forall P (set_queue qs id q).
Proof.
  intros Hall Hq. induction Hall as [|[i q'] qs Hp Hall IH]; simpl; [by constructor|].
  case_bool_decide; by constructor.
Qed.

(** The mixer keeps one well-formed queue per talker.  An accepted packet of a talker without a
    queue opens one exactly when it is not the end of a stream, and its talker is reported; all
    other talkers stay. *)
Theorem handle_packet_talkers h (id : Id) (packet : InAudioBuf) h' (new : option Id)
    (Hh : handler_ok 50 h) (Hid : is_u16 (AudioData_id (iab_data packet)))
    (Hok : handle_packet h id packet = Ok (h', new)) :
  handler_ok 50 h' /\
  (new = Some id <-> (id ∉ talkers h) /\ (1 < length (AudioData_data (iab_data packet)))%nat) /\
  (new = None \/ new = Some id) /\
  talkers h' = talkers h ++ (if bool_decide (new = None) then [] else [id]).
Proof.
  destruct Hh as [Hnd Hall]. unfold handle_packet in Hok. destruct (_ && _); [done|].
  destruct (find_queue (queues h) id) as [q|] eqn:Hf.
  - apply res_bind_ok in Hok as (q' & Hadd & [= <- <-]).
    assert (id ∈ talkers h) as Hin.
    { apply find_queue_in in Hf. unfold talkers. apply list_elem_of_In, in_map_iff.
      exists (id, q). split; [done|]. by apply list_elem_of_In. }
    assert (playable 50 q') as Hq'.
    { eapply add_packet_playable; [|exact Hid|exact Hadd]. apply find_queue_in in Hf.
      eapply Forall_forall in Hall; [|exact Hf]. done. }
    rewrite bool_decide_true, app_nil_r by done. unfold handler_ok, talkers. cbn [queues].
    rewrite set_queue_keys, Hf. split; [split; [done|by apply set_queue_all]|].
    split; [|by split; [left|]]. split; [done|]. by intros [? _].
  - assert (id ∉ talkers h) as Hnot by by apply find_queue_none.
    case_bool_decide as Hempty.
    { injection Hok as <- <-. rewrite bool_decide_true, app_nil_r by done.
      split; [done|]. split; [|by split; [left|]]. split; [done|]. intros [_ ?]. lia. }
    apply res_bind_ok in Hok as (q & Hnew & [= <- <-]).
    rewrite bool_decide_false by done. unfold handler_ok, talkers in *. cbn [queues].
    rewrite set_queue_keys, Hf. split; [split|].
    + apply NoDup_app. split; [done|]. split; [|apply NoDup_singleton].
      intros i Hi Hi'. apply list_elem_of_singleton in Hi'. by subst.
    + apply set_queue_all; [done|]. intros i.
      destruct (AudioQueue_new_playable packet q Hid Hnew) as [Hb Hp]. by split.
    + split; [|by split; [right|]]. split; [intros _; split; [done|lia]|done].
Qed.

(** * Filling a buffer *)

Lemma mix_ok buf r vol :
  (length r <= length buf)%nat -> exists out, mix buf r vol = Ok out /\ length out = length buf.
Proof.
  revert buf. induction r as [|x r IH]; intros buf Hlen; simpl; [by exists buf|].
  destruct buf as [|b buf]; simpl in *; [lia|]. destruct (IH buf) as (out & -> & Ho); [lia|].
  cbn [res_bind]. eexists. split; [done|]. simpl. lia.
Qed.

(** A queue after it was asked for samples: it can be played again when it did not fail, and it is
    removed when its stream ended or it lost too many packets. *)
Lemma fill_loop_ok lim qs buf :
  Forall (fun p => playable lim (snd p)) qs -> lim <= 50 -> (debug_assertions = true -> lim < 50) ->
  exists qs' out ids, fill_loop qs buf = Some (Ok (qs', out, ids)) /\
    map fst qs' = map fst qs /\ length out = length buf /\ (forall i, i ∈ ids -> i ∈ map fst qs) /\
    Forall (fun p => base_ok lim (snd p)) qs'.
Proof.
  intros Hall Hlim Hdebug. revert buf. induction Hall as [|[id q] qs [Hq Hpos] Hall IH]; intros buf.
  { exists [], buf, []. repeat split; [|constructor]. by intros i ?%not_elem_of_nil. }
  cbn [fill_loop snd] in *.
  set (step := if bool_decide _ then _ else _).
  assert (exists q' out gone, step = Some (Ok (q', out, gone)) /\ length out = length buf /\
    (gone = [] \/ gone = [id]) /\ base_ok lim q') as (q' & out & gone & -> & Hout & Hgone & Hq').
  { subst step. case_bool_decide; [by exists q, buf, [id]; repeat split; try apply Hq; right|].
    destruct (get_next_data_ok lim q (length buf) Hq Hpos Hlim Hdebug) as (q' & r & -> & Hq' & Hr).
    cbn [res_bind]. destruct r as [e|[out ended]].
    - by exists q', buf, []; split; [|split; [|split; [left|]]].
    - assert (length out <= length buf)%nat as Hle.
      { destruct ended; [lia|]. destruct Hr as [_ [(_ & -> & _)|[-> _]]]; simpl; lia. }
      destruct (mix_ok buf out (volume q') Hle) as (out' & -> & Ho). cbn [res_bind].
      eexists q', out', _. split; [done|]. split; [done|]. split; [|done].
      destruct ended; [by right|by left]. }
  destruct (IH out) as (qs' & out' & ids & -> & Hkeys & Hlen & Hin & Hall').
  exists ((id, q') :: qs'), out', (gone ++ ids). split; [done|]. split; [simpl; by rewrite Hkeys|].
  split; [congruence|]. split; [|by constructor]. intros i [Hi|Hi]%elem_of_app.
  - destruct Hgone as [-> | ->]; [by apply not_elem_of_nil in Hi|].
    apply list_elem_of_singleton in Hi as ->. by left.
  - right. by apply Hin.
Qed.

(** Filling a buffer from playable queues returns a buffer of the same length.  The reported
    talkers are former talkers, exactly they are removed, and the packets of all others stay in
    order - whatever the decoder does in this call. *)
Theorem fill_buffer_mixes (lim : Z) h (buf : list f32)
    (Hh : handler_ok lim h) (Hlim : lim <= 50) (Hdebug : debug_assertions = true -> lim < 50) :
  exists h' out gone, fill_buffer h buf = Some (Ok (h', out, gone)) /\
    length out = length buf /\ (forall i, i ∈ gone -> i ∈ talkers h) /\
    (forall i, i ∈ talkers h' <-> (i ∈ talkers h) /\ (i ∉ gone)) /\
    Forall (fun p => base_ok lim (snd p)) (queues h').
Proof.
  destruct Hh as [Hnd Hall]. unfold fill_buffer.
  destruct (fill_loop_ok lim (queues h) buf Hall Hlim Hdebug)
    as (qs & out & gone & -> & Hkeys & Hlen & Hin & Hok).
  eexists _, out, gone. split; [done|]. split; [done|]. split; [exact Hin|].
  unfold talkers. cbn [queues]. rewrite <- Hkeys. split.
  - intros i. rewrite !list_elem_of_In, !in_map_iff. setoid_rewrite <- list_elem_of_In.
    setoid_rewrite list_elem_of_filter. split.
    + intros ([j q] & <- & Hj & Hq). split; [by exists (j, q)|done].
    + intros [([j q] & <- & Hq) Hg]. by exists (j, q).
  - apply Forall_forall. intros p [_ Hp]%list_elem_of_filter. eapply Forall_forall in Hok; [|exact Hp].
    done.
Qed.
End mixer.

(** * Witnesses *)

Definition queued (id mark : Z) : QueuePacket :=
  {| qp_packet := audio_packet id 4 mark; qp_samples := 4; qp_id := id |}.

(** A talker whose packets 65534 and 0 arrived. *)
Definition wrapped_queue : AudioQueue :=
  let q := {|
    decoder := tt : @Decoder _ silence; volume := 1 : @f32 integer_samples; next_id := 65534;
    whispering := false;
    packet_buffer := [queued 65534 0; queued 0 0];
    packet_buffer_samples := 8; decoded_buffer := [] : list (@f32 integer_samples);
    decoded_pos := 0; last_packet_samples := 8;
    packet_loss_num := 0; buffering_samples := 0;
    last_buffer_size_min := swm_new LAST_BUFFER_SIZE_COUNT;
    last_buffer_size_max := swm_new LAST_BUFFER_SIZE_COUNT; buffered_for_samples := 0 |} in
  add_buffer_size q 0.

Lemma wrapped_queue_ok lim : 2 <= lim -> playable lim wrapped_queue.
Proof.
  intros Hlim. split; [|unfold pos_ok; simpl; lia]. split; [|split; [done|]].
  - change (packets_ok lim 65534 [queued 65534 0; queued 0 0]). split; [done|].
    assert (forall id, is_u16 id -> dist 65534 (queued id 0) <= 2 ->
      packet_ok lim 65534 (queued id 0)) as Hp.
    { intros id Hid Hd. split; [|lia]. split; [done|]. cbn. lia. }
    split.
    + constructor; [by apply Hp|]. constructor; [by apply Hp|constructor].
    + constructor; [by repeat constructor|]. by constructor.
  - exists [0]. split; [done|]. split; [by constructor|]. split; [done|]. split; [done|].
    assert (1 <= LAST_BUFFER_SIZE_COUNT <= 255) by (unfold LAST_BUFFER_SIZE_COUNT; lia).
    split; (apply (window_push _ []); [done|apply window_new]).
Qed.

Lemma add_packet_exact_witness :
  match add_packet wrapped_queue (audio_packet 65535 4 0) with
  | Ok q' => map qp_id (packet_buffer q') = [65534; 65535; 0] /\ base_ok 50 q'
  | _ => False
  end.
Proof.
  split; [reflexivity|].
  refine (proj1 (proj2 (proj2 (proj1 (add_packet_exact wrapped_queue (audio_packet 65535 4 0) _ _))))).
  - by apply (wrapped_queue_ok 50).
  - done.
Defined.

Lemma get_next_data_returns_witness : exists q' r,
  get_next_data (H := release_profile) wrapped_queue 20 = Some (Ok (q', r)) /\
  data_post 50 wrapped_queue 20 q' r.
Proof.
  apply (get_next_data_returns (H := release_profile) 50 wrapped_queue 20).
  - by apply (wrapped_queue_ok 50).
  - by apply (wrapped_queue_ok 50).
  - lia.
  - done.
Defined.

(** After 16 floats were played, a corrupt packet of four samples arrives. *)
Definition corrupt_queue : AudioQueue :=
  with_decoded (with_packets wrapped_queue 65534
    [queued 65534 255] 4)
    (replicate 16 (0 : @f32 integer_samples)) 16.

Lemma decode_error_then_panic_witness : exists q',
  get_next_data (H := release_profile) corrupt_queue 16
    = Some (Ok (q', inl (Decode tt (Some [4; 255])))) /\
  get_next_data (H := release_profile) q' 16 = Some Panic.
Proof.
  apply (decode_error_then_panic (H := release_profile) corrupt_queue 16 16 (queued 65534 255) []
    (tt : @OpusError _ silence) (tt : @Decoder _ silence) (replicate 8 (0 : @f32 integer_samples)));
    try reflexivity.
  - lia.
  - cbn. lia.
  - cbn. lia.
Defined.

Definition one_talker : AudioHandler (Id := Z) :=
  {| queues := [(7, wrapped_queue)]; avg_buffer_samples := 0 |}.

Lemma one_talker_ok lim : 2 <= lim -> handler_ok lim one_talker.
Proof.
  intros Hlim. split; [apply NoDup_singleton|]. apply Forall_singleton. by apply wrapped_queue_ok.
Qed.

Lemma handle_packet_talkers_witness : exists h' new,
  handle_packet one_talker 9 (audio_packet 3 4 0) = Ok (h', new) /\ new = Some 9 /\
  handler_ok 50 h'.
Proof.
  eexists _, _. split; [reflexivity|]. split; [reflexivity|].
  refine (proj1 (handle_packet_talkers one_talker 9 (audio_packet 3 4 0) _ (Some 9) _ _ eq_refl)).
  - by apply one_talker_ok.
  - done.
Defined.

Lemma fill_buffer_mixes_witness : exists h' out gone,
  fill_buffer (H := debug_profile) one_talker [1; 2; 3] = Some (Ok (h', out, gone)) /\
  length out = 3%nat.
Proof.
  destruct (fill_buffer_mixes (H := debug_profile) 2 one_talker [1; 2; 3]) as (h' & out & gone & E & Hl & _).
  - by apply one_talker_ok.
  - lia.
  - intros _. lia.
  - by exists h', out, gone.
Defined.
