(* ===== verification/Client.v ===== *)
(** The client ([tsproto/src/client.rs]): a connection with the handshake of the client, and the
    commands that change its state.

    [connect] is an asynchronous function: it runs until it awaits the next item of the stream and
    goes on with this item.  The model is its state machine: [ConnectState] are the places where it
    waits, [connect_start] runs to the first one and [connect_item] from one item to the next
    place.  The random values and the time stamp that it draws are its inputs.  The server key is
    a field of the connection's parameters in the source; here it is kept beside them. *)
From stdpp Require Import strings.
From S2P Require Import Prelude ByteIO Text Packets InitPackets AudioData Commands PacketId Algorithms Codec.
From S2P Require Import Encode BTree Resend Stats Connection Poll Ip CryptoLib License Crypto Identity.
#[local] Open Scope Z_scope.

(** [BigUint::modpow]; [None] is the panic for a modulus of zero. *)
Class ModPow := { modpow : Z -> Z -> Z -> option Z }.
Class ModPowLaws `{ModPow} : Prop := {
  modpow_zero x e : modpow x e 0 = None;
  modpow_some x e n : 0 <= x -> 0 <= e -> 0 < n -> modpow x e n = Some (x ^ e mod n);
}.

(** The package version, from the build. *)
Class BuildVersion := { build_version : list Z }.

Definition ROOT_KEY : list Z := [
  0xcd; 0x0d; 0xe2; 0xae; 0xd4; 0x63; 0x45; 0x50; 0x9a; 0x7e; 0x3c; 0xfd; 0x8f; 0x68; 0xb3; 0xdc;
  0x75; 0x55; 0xb2; 0x9d; 0xcc; 0xec; 0x73; 0xcd; 0x18; 0x75; 0x0f; 0x99; 0x38; 0x12; 0x40; 0x8a].

Definition set_c_id (p : ConnectedParams) (c : Z) : ConnectedParams := {|
  c_id := c; voice_encryption := voice_encryption p; shared_iv := shared_iv p;
  shared_mac := shared_mac p; key_cache := key_cache p;
|}.

(** [PartialOrd for PacketId]: [a <= b]. *)
Definition PacketId_le (a b : PacketId) : bool :=
  bool_decide (pid_type a = pid_type b) &&
  match PartialPacketId_cmp (pid_part a) (pid_part b) with Gt => false | _ => true end.

(** What [connect] draws from the clock and the random number generator. *)
Record Drawn `{Ed25519} := {
  timestamp : Z; random0 : list Z; drawn_alpha : list Z; drawn_ek : Scalar;
}.

(** Where [connect] waits. *)
Inductive ConnectState :=
  | WaitInit1
  | WaitInit3
  | WaitInitivexpand2
  | WaitAck (id : PacketId)
  | ConnectDone.

Section client.
Context `{BeIo, Quicklz, EaxCipher, Sha256, Cubic, Profile}.
Context `{Base64Enc, Base64Dec, Sha1, Asn1, BigIntIo, P256}.
Context `{Calendar, Ed25519, LicenseTypes, ModPow, BuildVersion}.

(** The errors; those of the base64 library are dropped. *)
Inductive ClientError :=
  | ConnectionEnd
  | EarlyInitserver
  | InvalidBase64Arg (arg : string)
  | InvalidBetaLength (len : nat)
  | InvalidClientId (raw : list Z) (e : PacketError)
  | InvalidInitivexpand2
  | InvalidOmegaKey (e : CryptoError)
  | InvalidOmegaString (e : PacketError)
  | InvalidPacket (what : string)
  | InvalidRootKeyLength (len : nat)
  | InvalidSignature (e : CryptoError)
  | MultipleCommands (name : string)
  | NoClientId
  | OutdatedServer
  | ParseLicense (e : LicenseError)
  | RsaPuzzle
  | RsaPuzzleTooHighLevel (level : Z)
  | TsProto (e : TsError)
  | UnexpectedPacket (wanted : string).

Record Client := {
  con : Connection;
  cl_private_key : EccKeyPrivP256;
  server_public_key : option EccKeyPubP256;
}.

Definition with_con (cl : Client) (c : Connection) : Client :=
  {| con := c; cl_private_key := cl_private_key cl; server_public_key := server_public_key cl |}.

Definition Client_new (address : SocketAddr) (socket : list SendResult) (key : EccKeyPrivP256)
    (now : Z) : Client :=
  {| con := Connection_new true address socket now; cl_private_key := key; server_public_key := None |}.

Definition set_connection_state (c : Connection) (s : ResenderState) (now : Z) : Connection :=
  set_resender c (set_state (resender c) s now).

(** [Client::send_packet] *)
Definition Client_send_packet (c : Connection) (packet : OutPacket) (now : Z)
    : res ClientError (PacketId * Connection) :=
  map_err TsProto (
    let? h := packet_op (OutPacket_header packet) in
    let? t := packet_op (InHeader_packet_type h) in
    let? content := packet_op (OutPacket_content packet) in
    let c := if bool_decide (t = Command) && starts_with (byte_str "clientdisconnect") content
      then set_connection_state c Disconnecting now else c in
    Connection_send_packet c packet now).

(** The operations of packets and commands only fail by panicking. *)
Definition client_op {A} (m : res PacketError A) : res ClientError A :=
  map_err TsProto (packet_op m).

(** * Reading a command *)

(** The name and the items of a received command.  The iterator is run to its end; its steps have
    no effects. *)
Definition read_command (c : Connection) (data : list Z) : res ClientError (list Z * list CommandItem) :=
  let? packet := client_op (InPacket_new (in_dir (is_client c)) data) in
  let content := ip_content packet in
  let? '(name, p) := client_op (CommandParser_new content) in
  match CommandParser_collect (S (length content)) p with
  | Some items => let? items := client_op items in Ok (name, items)
  | None => Panic
  end.

Definition arg_is (a : CommandArgument) (name : string) : bool :=
  bool_decide (ca_name a = byte_str name).

Definition parse_client_id (a : CommandArgument) : res ClientError Z :=
  map_err (InvalidClientId (cv_raw (ca_value a))) (CommandArgumentValue_get_parse 16 (ca_value a)).

(** * Commands that change the connection *)

Fixpoint initserver_loop (items : list CommandItem) : res ClientError (option Z) :=
  match items with
  | [] => Ok None
  | NextCommand :: _ => Err (MultipleCommands "initserver")
  | Argument a :: items =>
      if arg_is a "aclid" then let? c := parse_client_id a in Ok (Some c)
      else initserver_loop items
  end.

Definition handle_initserver (c : Connection) (items : list CommandItem) (now : Z)
    : res ClientError Connection :=
  match params c with
  | None => Err EarlyInitserver
  | Some ps =>
      let? c_id := initserver_loop items in
      match c_id with
      | None => Err NoClientId
      | Some c_id => Ok (set_connection_state (set_params c (Some (set_c_id ps c_id))) Connected now)
      end
  end.

Fixpoint clientleft_loop (own_id : Z) (items : list CommandItem) (own_client : bool)
    : res ClientError bool :=
  match items with
  | [] => Ok own_client
  | NextCommand :: items => clientleft_loop own_id items own_client
  | Argument a :: items =>
      if arg_is a "clid" then
        let? c := parse_client_id a in
        clientleft_loop own_id items (own_client || (c =? own_id))
      else clientleft_loop own_id items own_client
  end.

Definition handle_clientleft (c : Connection) (items : list CommandItem) (now : Z)
    : res ClientError Connection :=
  match params c with
  | None => Ok c
  | Some ps =>
      let? own_client := clientleft_loop (c_id ps) items false in
      Ok (if own_client : bool then set_connection_state c Disconnected now else c)
  end.

Definition build_kind : list Z := if debug_assertions then byte_str " (Debug)" else byte_str " (Release)".

Definition getversion_reply (sender : Z) : res ClientError OutPacket :=
  let? cmd := client_op (OutCommand_new C2S Flags_empty Command (byte_str "plugincmd")) in
  let? cmd := client_op (OutCommand_write_arg cmd (byte_str "name") [byte_str "getversion"]) in
  let? cmd := client_op (OutCommand_write_arg cmd (byte_str "data") [build_version ++ build_kind]) in
  let? cmd := client_op (OutCommand_write_arg cmd (byte_str "targetmode") [to_dec 2]) in
  client_op (OutCommand_write_arg cmd (byte_str "target") [to_dec sender]).

(** The loop over the items of a plugin command, followed by a final [NextCommand]. *)
Fixpoint plugincmd_loop (c : Connection) (items : list CommandItem)
    (is_getversion is_getversion_request : bool) (sender : option Z) (now : Z)
    : res ClientError Connection :=
  match items with
  | [] => Ok c
  | Argument a :: items =>
      if arg_is a "name" then
        plugincmd_loop c items (bool_decide (cv_raw (ca_value a) = byte_str "getversion"))
          is_getversion_request sender now
      else if arg_is a "data" then
        plugincmd_loop c items is_getversion
          (bool_decide (cv_raw (ca_value a) = byte_str "request")) sender now
      else if arg_is a "invokerid" then
        match CommandArgumentValue_get_parse 16 (ca_value a) with
        | Ok id => plugincmd_loop c items is_getversion is_getversion_request (Some id) now
        | Err _ => plugincmd_loop c items is_getversion is_getversion_request sender now
        | Panic => Panic
        end
      else plugincmd_loop c items is_getversion is_getversion_request sender now
  | NextCommand :: items =>
      match sender with
      | Some id =>
          if is_getversion && is_getversion_request then
            let? reply := getversion_reply id in
            let? '(_, c) := Client_send_packet c reply now in
            plugincmd_loop c items is_getversion is_getversion_request sender now
          else plugincmd_loop c items is_getversion is_getversion_request sender now
      | None => plugincmd_loop c items is_getversion is_getversion_request sender now
      end
  end.

(** The command is always handed on to the user. *)
Definition handle_command (c : Connection) (data : list Z) (now : Z) : res ClientError Connection :=
  let? '(name, items) := read_command c data in
  if bool_decide (name = byte_str "initserver") then handle_initserver c items now
  else if bool_decide (name = byte_str "notifyclientleftview") then handle_clientleft c items now
  else if bool_decide (name = byte_str "notifyplugincmd") then
    plugincmd_loop c (items ++ [NextCommand]) false false None now
  else Ok c.

(** [Stream::poll_next]: [handle_command] hands every command on, so the loop has one round. *)
Definition Client_poll_next (cl : Client) (recvs : list RecvResult) (now : Z)
    : option (res ClientError (Polled * Client * list RecvResult)) :=
  match poll_next (con cl) recvs now with
  | None => None
  | Some (Err e) => Some (Err (TsProto e))
  | Some Panic => Some Panic
  | Some (Ok (PolledItem (Item_Command data), c, rest)) =>
      Some (let? c := handle_command c data now in
            Ok (PolledItem (Item_Command data), with_con cl c, rest))
  | Some (Ok (p, c, rest)) => Some (Ok (p, with_con cl c, rest))
  end.

(** * The handshake *)

Definition send_init (c : Connection) (packet : res PacketError OutPacket) (now : Z)
    : res ClientError Connection :=
  let? packet := client_op packet in
  let? '(_, c) := Client_send_packet c packet now in
  Ok c.

Definition init_version (d : Drawn) : res ClientError Z := arith 32 (timestamp d - 1356998400).

(** The start of the loop of [connect]. *)
Definition send_init0 (d : Drawn) (c : Connection) (now : Z) : res ClientError Connection :=
  let? version := init_version d in
  send_init c (OutC2SInit0_new version (timestamp d) (random0 d)) now.

Definition connect_start (d : Drawn) (cl : Client) (now : Z) : res ClientError (ConnectState * Client) :=
  let? c := send_init0 d (con cl) now in
  Ok (WaitInit1, with_con cl c).

(** The filter of [get_init]. *)
Definition wanted_init (steps : list Z) (i : StreamItem) : option S2CInitData :=
  match i with
  | Item_S2CInit _ init => if bool_decide (S2CInitData_get_step init ∈ steps) then Some init else None
  | _ => None
  end.

(** The filter of [wait_for_ack]: whether it returns at an item. *)
Definition wait_for_ack (id : PacketId) (i : StreamItem) : bool :=
  match i with
  | Item_AckPacket ack => PacketId_le id ack
  | _ => false
  end.

(** y = x ^ (2 ^ level) % n *)
Definition solve_puzzle (x n : list Z) (level : Z) : res ClientError (list Z) :=
  let xi := bi_from_bytes_be Plus x in
  let ni := bi_from_bytes_be Plus n in
  let e := Z.shiftl 1 level in
  let? yi := unwrap (modpow xi e ni) in
  map_err InvalidOmegaKey (biguint_to_array yi).

Definition handle_init3 (d : Drawn) (cl : Client) (x n : list Z) (level : Z) (random2 : list Z)
    (now : Z) : res ClientError Client :=
  if 10000000 <? level then Err (RsaPuzzleTooHighLevel level) else
  let? version := init_version d in
  let? y := solve_puzzle x n level in
  let? omega := map_err InvalidOmegaKey
    (EccKeyPubP256_to_tomcrypt (EccKeyPrivP256_to_pub (cl_private_key cl))) in
  let ip := sent_ip (ip_of_bytes (sa_ip (address (con cl)))) in
  let? c := send_init (con cl) (OutC2SInit4_new version x n level random2 y (drawn_alpha d) omega ip) now in
  Ok (with_con cl c).

(** The arguments of [initivexpand2]. *)
Record InitivArgs := {
  arg_l : option (list Z);
  arg_beta : option (list Z);
  arg_omega : option EccKeyPubP256;
  arg_proof : option (list Z);
  arg_ot : bool;
  arg_root : option (list Z);
}.

Definition no_args : InitivArgs := {|
  arg_l := None; arg_beta := None; arg_omega := None; arg_proof := None; arg_ot := false;
  arg_root := None |}.

(** [BASE64_STANDARD.decode(arg.value().get())] *)
Definition base64_arg (a : CommandArgument) (name : string) : res ClientError (list Z) :=
  let? v := client_op (CommandArgumentValue_get (ca_value a)) in
  ok_or (base64_decode v) (InvalidBase64Arg name).

Definition read_arg (args : InitivArgs) (a : CommandArgument) : res ClientError InitivArgs :=
  if arg_is a "l" then
    let? v := base64_arg a "proof" in
    Ok {| arg_l := Some v; arg_beta := arg_beta args; arg_omega := arg_omega args;
          arg_proof := arg_proof args; arg_ot := arg_ot args; arg_root := arg_root args |}
  else if arg_is a "beta" then
    let? v := base64_arg a "proof" in
    Ok {| arg_l := arg_l args; arg_beta := Some v; arg_omega := arg_omega args;
          arg_proof := arg_proof args; arg_ot := arg_ot args; arg_root := arg_root args |}
  else if arg_is a "omega" then
    let? s := map_err InvalidOmegaString (CommandArgumentValue_get_str (ca_value a)) in
    let? k := map_err InvalidOmegaKey (EccKeyPubP256_from_ts s) in
    Ok {| arg_l := arg_l args; arg_beta := arg_beta args; arg_omega := Some k;
          arg_proof := arg_proof args; arg_ot := arg_ot args; arg_root := arg_root args |}
  else if arg_is a "proof" then
    let? v := base64_arg a "proof" in
    Ok {| arg_l := arg_l args; arg_beta := arg_beta args; arg_omega := arg_omega args;
          arg_proof := Some v; arg_ot := arg_ot args; arg_root := arg_root args |}
  else if arg_is a "ot" then
    Ok {| arg_l := arg_l args; arg_beta := arg_beta args; arg_omega := arg_omega args;
          arg_proof := arg_proof args; arg_ot := bool_decide (cv_raw (ca_value a) = byte_str "1");
          arg_root := arg_root args |}
  else if arg_is a "root" then
    let? v := base64_arg a "root" in
    if negb (bool_decide (length v = 32%nat)) then Err (InvalidRootKeyLength (length v)) else
    Ok {| arg_l := arg_l args; arg_beta := arg_beta args; arg_omega := arg_omega args;
          arg_proof := arg_proof args; arg_ot := arg_ot args;
          arg_root := Some (EccKeyPubEd25519_from_bytes v) |}
  else Ok args.

Fixpoint read_args (args : InitivArgs) (items : list CommandItem) : res ClientError InitivArgs :=
  match items with
  | [] => Ok args
  | NextCommand :: _ => Err (MultipleCommands "initivexpand2")
  | Argument a :: items => let? args := read_arg args a in read_args args items
  end.

(** The checks of the arguments: the key of the server, beta and the ephemeral key of the server.
    [today] is the time at which the license is checked. *)
Definition check_args (args : InitivArgs) (today : DateTime)
    : res ClientError (EccKeyPubP256 * list Z * Point) :=
  if negb (arg_ot args) then Err OutdatedServer else
  match arg_l args, arg_beta args, arg_omega args, arg_proof args with
  | Some l, Some beta, Some server_key, Some proof =>
      let root := default (EccKeyPubEd25519_from_bytes ROOT_KEY) (arg_root args) in
      let? _ := map_err InvalidSignature (EccKeyPubP256_verify server_key l proof) in
      if negb (bool_decide (length beta = 54%nat)) then Err (InvalidBetaLength (length beta)) else
      let? licenses := map_err ParseLicense (Licenses_parse today l) in
      let? server_ek := map_err ParseLicense (derive_public_key licenses root) in
      Ok (server_key, beta, server_ek)
  | _, _, _, _ => Err InvalidInitivexpand2
  end.

(** The [clientek] command. *)
Definition clientek (key : EccKeyPrivP256) (ek : Scalar) (beta : list Z) : res ClientError OutPacket :=
  let ek_pub := EccKeyPrivEd25519_to_pub ek in
  let proof := EccKeyPrivP256_sign key (ek_pub ++ beta) in
  let? cmd := client_op (OutCommand_new C2S Flags_empty Command (byte_str "clientek")) in
  let? cmd := client_op (OutCommand_write_arg cmd (byte_str "ek") [base64_encode ek_pub]) in
  client_op (OutCommand_write_arg cmd (byte_str "proof") [base64_encode proof]).

Definition handle_initivexpand2 (d : Drawn) (cl : Client) (items : list CommandItem)
    (today : DateTime) (now : Z) : res ClientError (PacketId * Client) :=
  let? args := read_args no_args items in
  let? '(server_key, beta, server_ek) := check_args args today in
  let? '(iv, mac) := map_err InvalidOmegaKey (compute_iv_mac (drawn_alpha d) beta (drawn_ek d) server_ek) in
  let c := set_params (con cl) (Some (ConnectedParams_new iv mac)) in
  let? cmd := clientek (cl_private_key cl) (drawn_ek d) beta in
  let? '(id, c) := Client_send_packet c cmd now in
  Ok (id, {| con := c; cl_private_key := cl_private_key cl; server_public_key := Some server_key |}).

(** One item of the stream: where [connect] waits next. *)
Definition connect_item (d : Drawn) (st : ConnectState) (cl : Client) (i : StreamItem)
    (today : DateTime) (now : Z) : res ClientError (ConnectState * Client) :=
  match st with
  | WaitInit1 =>
      match wanted_init [1] i with
      | None => Ok (st, cl)
      | Some (Init1 random1 random0_r) =>
          let? version := init_version d in
          let? c := send_init (con cl) (OutC2SInit2_new version random1 random0_r) now in
          Ok (WaitInit3, with_con cl c)
      | Some _ => Err (UnexpectedPacket "Init1")
      end
  | WaitInit3 =>
      match wanted_init [3; 127] i with
      | None => Ok (st, cl)
      | Some Init127 => connect_start d cl now
      | Some (Init3 x n level random2) =>
          let? cl := handle_init3 d cl x n level random2 now in
          Ok (WaitInitivexpand2, cl)
      | Some _ => Err (UnexpectedPacket "Init3")
      end
  | WaitInitivexpand2 =>
      match i with
      | Item_Command data =>
          let? '(name, items) := read_command (con cl) data in
          if negb (bool_decide (name = byte_str "initivexpand2"))
          then Err (UnexpectedPacket "initivexpand2") else
          let? '(id, cl) := handle_initivexpand2 d cl items today now in
          Ok (WaitAck id, cl)
      | _ => Ok (st, cl)
      end
  | WaitAck id => Ok (if wait_for_ack id i then ConnectDone else st, cl)
  | ConnectDone => Ok (st, cl)
  end.

(** * Polling the handshake *)

(** One poll of the stream in [connect]: the datagrams that arrived since the last one and the
    time. *)
Record PollEvent := { ev_recvs : list RecvResult; ev_now : Z; ev_today : DateTime }.

(** Runs [connect] over a sequence of polls; it returns early when it is done.  [waiting] are the
    datagrams that the earlier polls left at the socket. *)
Fixpoint connect_run (d : Drawn) (st : ConnectState) (cl : Client) (waiting : list RecvResult)
    (events : list PollEvent) : option (res ClientError (ConnectState * Client)) :=
  match st, events with
  | ConnectDone, _ => Some (Ok (st, cl))
  | _, [] => Some (Ok (st, cl))
  | _, e :: events =>
      match Client_poll_next cl (waiting ++ ev_recvs e) (ev_now e) with
      | None => None
      | Some Panic => Some Panic
      | Some (Err e) => Some (Err e)
      | Some (Ok (PolledEnd, _, _)) => Some (Err ConnectionEnd)
      | Some (Ok (PolledPending, cl, waiting)) => connect_run d st cl waiting events
      | Some (Ok (PolledItem i, cl, waiting)) =>
          match connect_item d st cl i (ev_today e) (ev_now e) with
          | Ok (st, cl) => connect_run d st cl waiting events
          | Err e => Some (Err e)
          | Panic => Some Panic
          end
      end
  end.

(** * Waiting *)

Definition is_send_queue_full (c : Connection) (now : Z) : bool := is_full (resender c) now.

(** The filter of [wait_until_can_send], which is not run when the queue is not full at first. *)
Definition wait_until_can_send (c : Connection) (i : StreamItem) (now : Z) : bool :=
  match i with
  | Item_AckPacket _ => negb (is_send_queue_full c now)
  | _ => false
  end.

(** [wait_disconnect]: drops every item; [Some] when it returns. *)
Fixpoint wait_disconnect (cl : Client) (waiting : list RecvResult) (events : list PollEvent)
    : option (res ClientError (bool * Client)) :=
  match events with
  | [] => Some (Ok (false, cl))
  | e :: events =>
      match Client_poll_next cl (waiting ++ ev_recvs e) (ev_now e) with
      | None => None
      | Some Panic => Some Panic
      | Some (Err e) => Some (Err e)
      | Some (Ok (PolledEnd, cl, _)) => Some (Ok (true, cl))
      | Some (Ok (_, cl, waiting)) => wait_disconnect cl waiting events
      end
  end.
End client.
