(* ===== verification/ClientHandshake.v ===== *)
(** The handshake of the client as a transition system: which states [connect] can reach on any
    sequence of polls, and what holds of the connection in them.  Before the key exchange the
    connection has no parameters; after it they are the iv and mac of a verified exchange, and no
    later packet changes them. *)
From stdpp Require Import strings.
From S2P Require Import Prelude ByteIO Text Packets InitPackets AudioData Commands PacketId Algorithms Codec.
From S2P Require Import Encode BTree Resend Stats Connection Poll Frames Ip CryptoLib License Crypto Identity Client.
#[local] Open Scope Z_scope.

Section handshake.
Context `{BeIo, Quicklz, EaxCipher, Sha256, Cubic, Profile}.
Context `{Base64Enc, Base64Dec, Sha1, Asn1, BigIntIo, P256}.
Context `{Calendar, Ed25519, LicenseTypes, ModPow, BuildVersion}.

(** * The secrets stay *)

Definition secrets (c : Connection) : option (list Z * list Z) :=
  (fun p => (shared_iv p, shared_mac p)) <$> params c.

Definition keeps_secrets (a b : Connection) : Prop := secrets b = secrets a.

Lemma same_params_secrets a b : same_params a b -> keeps_secrets a b.
Proof.
  unfold same_params, lasting, keeps_secrets, secrets. intros Hs.
  destruct (params a), (params b); simplify_eq/=; congruence.
Qed.

Lemma Client_send_secrets c packet now :
  ensures (fun '(_, c') => keeps_secrets c c') (Client_send_packet c packet now).
Proof.
  unfold Client_send_packet. apply ensures_map_err. do 3 (apply ensures_any; intros).
  eapply ensures_weaken; [apply Connection_send_same|]. intros [id c'] Hs.
  apply same_params_secrets in Hs. by destruct (_ && _).
Qed.

Lemma send_init_secrets c packet now : ensures (keeps_secrets c) (send_init c packet now).
Proof.
  unfold send_init. apply ensures_any. intros p.
  eapply ensures_bind; [apply Client_send_secrets|]. by intros [id c'].
Qed.

Lemma plugincmd_secrets items : forall c v r s now,
  ensures (keeps_secrets c) (plugincmd_loop c items v r s now).
Proof.
  induction items as [|[a|] items IH]; intros c v r s now; cbn [plugincmd_loop]; [done| |].
  - repeat (case_match; try apply IH; try done).
  - destruct s as [id|]; [|apply IH]. destruct (_ && _); [|apply IH].
    apply ensures_any. intros reply. eapply ensures_bind; [apply Client_send_secrets|].
    intros [pid c'] Hc. eapply ensures_weaken; [apply IH|]. intros c2 Hc2. unfold keeps_secrets in *. congruence.
Qed.

Lemma handle_command_secrets c data now : ensures (keeps_secrets c) (handle_command c data now).
Proof.
  unfold handle_command. apply ensures_any. intros [name items].
  case_bool_decide; [|case_bool_decide; [|case_bool_decide; [apply plugincmd_secrets|done]]].
  - unfold handle_initserver. destruct (params c) as [ps|] eqn:Hps; [|done].
    apply ensures_any. intros [id|]; [|done]. simpl. unfold keeps_secrets, secrets. by rewrite Hps.
  - unfold handle_clientleft. destruct (params c) as [ps|] eqn:Hps; [|done].
    apply ensures_any. by intros [].
Qed.

Lemma Client_poll_secrets cl recvs now r : Client_poll_next cl recvs now = Some r ->
  ensures (fun '(_, cl', _) => keeps_secrets (con cl) (con cl') /\
    cl_private_key cl' = cl_private_key cl /\ server_public_key cl' = server_public_key cl) r.
Proof.
  unfold Client_poll_next. pose proof (poll_next_same (con cl) recvs now) as Hp.
  destruct (poll_next (con cl) recvs now) as [[[[p c] rest]|e|]|]; [|by intros [= <-]..|done].
  specialize (Hp _ eq_refl). apply same_params_secrets in Hp. simpl in Hp.
  destruct p as [|[]|]; intros [= <-]; try done.
  eapply ensures_bind; [apply handle_command_secrets|]. intros c' Hc'. simpl.
  unfold keeps_secrets in *. split; [congruence|done].
Qed.

(** * What a key exchange verifies *)

(** The server proved that it has the private key of [key] by signing its license; the license is
    valid and its chain of keys, from the root key on, ends in the point from which the iv and the
    mac were computed. *)
Definition verified (d : Drawn) (key : EccKeyPubP256) (iv mac : list Z) : Prop :=
  exists l proof beta root today licenses point,
    EccKeyPubP256_verify key l proof = Ok tt /\
    length beta = 54%nat /\ (root = ROOT_KEY \/ length root = 32%nat) /\
    Licenses_parse today l = Ok licenses /\ derive_public_key licenses root = Ok point /\
    compute_iv_mac (drawn_alpha d) beta (drawn_ek d) point = Ok (iv, mac).

Definition root_length (args : InitivArgs) : Prop :=
  match arg_root args with Some r => length r = 32%nat | None => True end.

Lemma read_arg_root args a : root_length args -> ensures root_length (read_arg args a).
Proof.
  intros Hr. unfold read_arg.
  repeat (case_match; [repeat (apply ensures_any; intros); done|]).
  case_match; [|done]. apply ensures_any. intros v. case_bool_decide as Hl; [|done]. exact Hl.
Qed.

Lemma read_args_root items : forall args, root_length args -> ensures root_length (read_args args items).
Proof.
  induction items as [|[a|] items IH]; intros args Hr; cbn [read_args]; [done| |done].
  eapply ensures_bind; [by apply read_arg_root|]. intros args' Hr'. by apply IH.
Qed.

Lemma handle_initivexpand2_verified d cl items today now :
  ensures (fun '(_, cl') => exists key iv mac, server_public_key cl' = Some key /\
      secrets (con cl') = Some (iv, mac) /\ verified d key iv mac)
    (handle_initivexpand2 d cl items today now).
Proof.
  unfold handle_initivexpand2. eapply ensures_bind; [by apply read_args_root|].
  intros args Hroot. unfold check_args. destruct (arg_ot args); [|done]. cbn [negb].
  destruct (arg_l args) as [l|], (arg_beta args) as [beta|], (arg_omega args) as [key|],
    (arg_proof args) as [proof|]; try done. cbn [res_bind].
  destruct (EccKeyPubP256_verify key l proof) as [[]|e|] eqn:Hver; [|done..]. cbn [map_err res_bind].
  case_bool_decide as Hbeta; [|done]. cbn [negb].
  set (root := default _ _).
  destruct (Licenses_parse today l) as [licenses|e|] eqn:Hlic; [|done..]. cbn [map_err res_bind].
  destruct (derive_public_key licenses root) as [point|e|] eqn:Hder; [|done..]. cbn [map_err res_bind].
  destruct (compute_iv_mac _ beta _ point) as [[iv mac]|e|] eqn:Hiv; [|done..]. cbn [map_err res_bind].
  apply ensures_any. intros cmd. eapply ensures_bind; [apply Client_send_secrets|].
  intros [id c] Hc. exists key, iv, mac. split; [done|]. split; [exact Hc|].
  exists l, proof, beta, root, today, licenses, point. split_and!; try done.
  unfold root, root_length in *. destruct (arg_root args); [by right|by left].
Qed.

(** * Reachable states *)

(** The states of [connect] for a client that is new, on any sequence of polls: the datagrams and
    times of every poll are arbitrary. *)
Inductive reaches (d : Drawn) (cl0 : Client) : ConnectState -> Client -> Prop :=
  | reach_start st cl now :
      connect_start d cl0 now = Ok (st, cl) -> reaches d cl0 st cl
  | reach_pending st cl recvs now cl' rest :
      reaches d cl0 st cl -> Client_poll_next cl recvs now = Some (Ok (PolledPending, cl', rest)) ->
      reaches d cl0 st cl'
  | reach_item st cl recvs now today i cl1 rest st' cl' :
      reaches d cl0 st cl -> Client_poll_next cl recvs now = Some (Ok (PolledItem i, cl1, rest)) ->
      connect_item d st cl1 i today now = Ok (st', cl') -> reaches d cl0 st' cl'.

(** What holds where [connect] waits. *)
Definition handshake_inv (d : Drawn) (key : EccKeyPrivP256) (st : ConnectState) (cl : Client) : Prop :=
  cl_private_key cl = key /\
  match st with
  | WaitInit1 | WaitInit3 | WaitInitivexpand2 => params (con cl) = None /\ server_public_key cl = None
  | WaitAck _ | ConnectDone => exists server_key iv mac,
      server_public_key cl = Some server_key /\ secrets (con cl) = Some (iv, mac) /\
      verified d server_key iv mac
  end.

Lemma secrets_none c : secrets c = None <-> params c = None.
Proof. unfold secrets. by destruct (params c). Qed.

(** The invariant only reads the secrets and the keys. *)
Lemma handshake_inv_keeps d key st cl cl' :
  handshake_inv d key st cl -> keeps_secrets (con cl) (con cl') ->
  cl_private_key cl' = cl_private_key cl -> server_public_key cl' = server_public_key cl ->
  handshake_inv d key st cl'.
Proof.
  unfold handshake_inv, keeps_secrets. intros [Hk Hst] Hs Hp Hsk. split; [congruence|].
  assert (params (con cl') = None <-> params (con cl) = None) as Hnone
    by (rewrite <- !secrets_none; by rewrite Hs).
  rewrite Hsk, Hs. destruct st; rewrite ?Hnone; exact Hst.
Qed.

Lemma with_con_keeps d key st cl (m : res ClientError Connection) : handshake_inv d key st cl ->
  ensures (keeps_secrets (con cl)) m ->
  ensures (fun c => handshake_inv d key st (with_con cl c)) m.
Proof.
  intros Hinv Hm. eapply ensures_weaken; [exact Hm|]. intros c Hc. by eapply handshake_inv_keeps.
Qed.

Lemma connect_start_inv d key cl now : handshake_inv d key WaitInit1 cl ->
  ensures (fun '(st, cl') => handshake_inv d key st cl') (connect_start d cl now).
Proof.
  intros Hinv. unfold connect_start, send_init0. eapply ensures_bind.
  { apply ensures_any. intros version. apply (with_con_keeps d key WaitInit1); [done|].
    apply send_init_secrets. }
  by intros c Hc.
Qed.

Lemma connect_item_inv d key st cl i today now : handshake_inv d key st cl ->
  ensures (fun '(st', cl') => handshake_inv d key st' cl') (connect_item d st cl i today now).
Proof.
  intros Hinv. destruct st; cbn [connect_item].
  - destruct (wanted_init [1] i) as [[r1 r0|x n level r2|]|]; try done. apply ensures_any. intros v.
    eapply ensures_bind; [apply (with_con_keeps d key WaitInit1); [done|apply send_init_secrets]|].
    by intros c Hc.
  - destruct (wanted_init [3; 127] i) as [[r1 r0|x n level r2|]|]; try done.
    + apply (ensures_bind (handshake_inv d key WaitInit3)); [|by intros cl' Hcl'].
      unfold handle_init3. destruct (_ <? _); [done|]. do 3 (apply ensures_any; intros).
      eapply ensures_bind; [apply (with_con_keeps d key WaitInit3); [done|apply send_init_secrets]|].
      by intros c Hc.
    + by apply connect_start_inv.
  - destruct i; try done. apply ensures_any. intros [name items]. case_bool_decide; [|done].
    cbn [negb]. destruct Hinv as [Hk _].
    assert (ensures (fun '(_, cl') => cl_private_key cl' = key)
      (handle_initivexpand2 d cl items today now)) as Hkey.
    { unfold handle_initivexpand2. apply ensures_any. intros args. apply ensures_any.
      intros [[sk beta] ek]. apply ensures_any. intros [iv mac]. apply ensures_any. intros cmd.
      apply ensures_any. by intros [id c]. }
    pose proof (handle_initivexpand2_verified d cl items today now) as Hv.
    destruct (handle_initivexpand2 d cl items today now) as [[id cl']|e|]; [|done..].
    simpl in *. split; [done|exact Hv].
  - simpl. by destruct (wait_for_ack id i).
  - done.
Qed.

Lemma reaches_inv d addr socket key now0 st cl :
  reaches d (Client_new addr socket key now0) st cl -> handshake_inv d key st cl.
Proof.
  induction 1 as [st cl now Hs|st cl recvs now cl' rest _ IH Hp|st cl recvs now today i cl1 rest st' cl' _ IH Hp Hi].
  - pose proof (connect_start_inv d key (Client_new addr socket key now0) now) as Hinv.
    rewrite Hs in Hinv. by apply Hinv.
  - apply Client_poll_secrets in Hp as (Hk & Hpk & Hsk). by eapply handshake_inv_keeps.
  - apply Client_poll_secrets in Hp as (Hk & Hpk & Hsk).
    assert (handshake_inv d key st cl1) as Hinv by by eapply handshake_inv_keeps.
    apply (connect_item_inv d key st cl1 i today now) in Hinv. by rewrite Hi in Hinv.
Qed.

(** Running over a list of polls reaches a state of the relation. *)
Lemma connect_run_from d cl0 events : forall st cl waiting st' cl',
  reaches d cl0 st cl -> connect_run d st cl waiting events = Some (Ok (st', cl')) -> reaches d cl0 st' cl'.
Proof.
  induction events as [|e events IH]; intros st cl waiting st' cl' Hr Hrun.
  { by destruct st; injection Hrun as <- <-. }
  assert (st = ConnectDone \/ match Client_poll_next cl (waiting ++ ev_recvs e) (ev_now e) with
    | Some (Ok (PolledPending, cl, waiting)) => connect_run d st cl waiting events
    | Some (Ok (PolledItem i, cl, waiting)) =>
        match connect_item d st cl i (ev_today e) (ev_now e) with
        | Ok (st, cl) => connect_run d st cl waiting events
        | Err e => Some (Err e)
        | Panic => Some Panic
        end
    | Some (Ok (PolledEnd, _, _)) => Some (Err ConnectionEnd)
    | Some (Err e) => Some (Err e)
    | Some Panic => Some Panic
    | None => None
    end = Some (Ok (st', cl'))) as [->|Hstep].
  { destruct st; [right..|by left]; cbn [connect_run] in Hrun;
      destruct (Client_poll_next _ _ _) as [[[[[] ?] ?]| |]|]; try done. }
  { by injection Hrun as <- <-. }
  destruct (Client_poll_next cl (waiting ++ ev_recvs e) (ev_now e)) as [[[[[|i|] cl1] rest]|?|]|] eqn:Hp; try done.
  - destruct (connect_item d st cl1 i (ev_today e) (ev_now e)) as [[st1 cl2]|?|] eqn:Hi; try done.
    eapply IH; [|exact Hstep]. by eapply reach_item.
  - eapply IH; [|exact Hstep]. by eapply reach_pending.
Qed.

(** * The properties *)

(** C9: Whatever the network delivers, a handshake that is past the key exchange has a server
    key that signed its license, a valid license whose keys lead to the iv and mac of the
    connection; before the key exchange there are no parameters, so nothing is accepted or sent
    under a real key. *)
Theorem handshake_secure (d : Drawn) (addr : SocketAddr) (socket : list SendResult)
    (key : EccKeyPrivP256) (now0 : Z) (st : ConnectState) (cl : Client)
    (Hr : reaches d (Client_new addr socket key now0) st cl) :
  match st with
  | WaitInit1 | WaitInit3 | WaitInitivexpand2 => params (con cl) = None /\ server_public_key cl = None
  | WaitAck _ | ConnectDone => exists server_key iv mac,
      server_public_key cl = Some server_key /\ secrets (con cl) = Some (iv, mac) /\
      verified d server_key iv mac
  end.
Proof. exact (proj2 (reaches_inv d addr socket key now0 st cl Hr)). Qed.

(** The loop of [connect], run on a list of polls, implements the transition system: what it
    returns is a reachable state. *)
Theorem connect_run_reaches (d : Drawn) (addr : SocketAddr) (socket : list SendResult)
    (key : EccKeyPrivP256) (now0 : Z) (st : ConnectState) (cl : Client) (events : list PollEvent)
    (st' : ConnectState) (cl' : Client) (start : Z)
    (Hs : connect_start d (Client_new addr socket key now0) start = Ok (st, cl))
    (Hrun : connect_run d st cl [] events = Some (Ok (st', cl'))) :
  reaches d (Client_new addr socket key now0) st' cl'.
Proof. eapply connect_run_from; [|exact Hrun]. by eapply reach_start. Qed.
End handshake.
