(* ===== verification/ClientSpec.v ===== *)
(** What the client does with the commands of the server: the puzzle of the handshake is solved, and
    written commands have their effect ([initserver], [notifyclientleftview], [notifyplugincmd]). *)
From stdpp Require Import strings.
From S2P Require Import Prelude ByteIO Text Packets InitPackets AudioData Commands PacketId Algorithms Codec.
From S2P Require Import Encode BTree Resend Stats Connection Poll Safety Ip CryptoLib License Crypto Identity IdentityLevel Client.
#[local] Open Scope Z_scope.

(** * The puzzle *)

Section puzzle.
Context `{P256Laws, BigIntLaws, ModPowLaws}.
Context `{Ed25519, Calendar, LicenseTypes}.

Lemma puzzle_answer (x n : list Z) (level : Z) (Hx : bytes x) (Hn : bytes n)
    (Hlen : length n = 64%nat) (Hlevel : 0 <= level) :
  match be_decode n 0 with
  | 0 => solve_puzzle x n level = Panic
  | m => exists y, solve_puzzle x n level = Ok y /\ length y = 64%nat /\ bytes y /\
      be_decode y 0 = be_decode x 0 ^ 2 ^ level mod m
  end.
Proof.
  unfold solve_puzzle. rewrite !bi_from_be by done. rewrite Z.shiftl_1_l.
  destruct (be_encode_decode n Hn) as [[Hn0 Hnu] _]. destruct (be_encode_decode x Hx) as [[Hx0 _] _].
  rewrite Hlen in Hnu. change (width 64) with 512 in Hnu.
  destruct (Z.eq_dec (be_decode n 0) 0) as [->|Hne]; [by rewrite modpow_zero|].
  assert (0 < be_decode n 0) as Hpos by lia.
  rewrite modpow_some by (try done; apply Z.pow_nonneg; lia). cbn [unwrap res_bind].
  destruct (biguint_array_ok (be_decode x 0 ^ 2 ^ level mod be_decode n 0)) as (y & Hy & Hl & Hb & Hv).
  { pose proof (Z.mod_pos_bound (be_decode x 0 ^ 2 ^ level) (be_decode n 0) Hpos). lia. }
  destruct (be_decode n 0) as [|m|m] eqn:Em; try lia. rewrite Hy. by exists y.
Qed.

(** C29: The puzzle of the server is solved: the answer is, in 64 bytes, x to the power of 2 to the
    level, modulo n; a modulus of zero panics. *)
Theorem puzzle_solved (x n : list Z) (level : Z) (Hx : bytes x) (Hn : bytes n)
    (Hlen : length n = 64%nat) (Hlevel : 0 <= level) :
  match be_decode n 0 with
  | 0 => solve_puzzle x n level = Panic
  | m => exists y, solve_puzzle x n level = Ok y /\ length y = 64%nat /\ bytes y /\
      be_decode y 0 = be_decode x 0 ^ 2 ^ level mod m
  end.
Proof. by apply puzzle_answer. Qed.
End puzzle.

(** * Reading written commands *)

#[global] Instance item_eq_dec : EqDecision item.
Proof. solve_decision. Defined.

Lemma get_str_escaped v : utf8_valid v = true ->
  CommandArgumentValue_get_str {| cv_raw := escape v; cv_escapes := specials v |} = Ok v.
Proof.
  intros Hv. pose proof (get_escaped v) as Hg. unfold CommandArgumentValue_get, CommandArgumentValue_get_str in *.
  cbn [cv_escapes cv_raw] in *. case_bool_decide.
  - injection Hg as ->. by rewrite Hv.
  - rewrite Hg. cbn [res_bind]. by rewrite Hv.
Qed.

Lemma get_parse_written w z : is_uint w z ->
  CommandArgumentValue_get_parse w {| cv_raw := escape (to_dec z); cv_escapes := specials (to_dec z) |}
  = Ok z.
Proof.
  intros Hz. unfold CommandArgumentValue_get_parse.
  rewrite get_str_escaped by (apply utf8_valid_ascii, to_dec_ascii, Hz). cbn [res_bind].
  by rewrite parse_to_dec.
Qed.

(** Raw bytes without special characters compare like the value. *)
Lemma raw_is v s : specials s = 0%nat -> unescape_loop s = s ->
  bool_decide (escape v = s) = bool_decide (v = s).
Proof.
  intros Hs Hu. apply bool_decide_ext. split; [|intros ->; by apply escape_no_specials].
  intros He. by rewrite <- (unescape_escape v), He.
Qed.

(** The value of the last argument with a name. *)
Fixpoint last_value (name : list Z) (l : list item) : option (list Z) :=
  match l with
  | [] => None
  | Arg n v :: l =>
      match last_value name l with
      | Some v' => Some v'
      | None => if bool_decide (n = name) then Some v else None
      end
  | NextPart :: l => last_value name l
  end.

Section written.
Context `{BeIoLaws}.
Context `{Quicklz, EaxCipher, Sha256, Cubic, Profile}.
Context `{Base64Enc, Base64Dec, Sha1, Asn1, BigIntIo, P256}.
Context `{Calendar, Ed25519, LicenseTypes, ModPow, BuildVersion}.

(** A received command packet with a written command. *)
Definition received (c : Connection) (data name : list Z) (l : list item) : Prop :=
  exists L, layout_ok (in_dir (is_client c)) L /\ command_ok name l /\
    data = layout_bytes L ++ name ++ items_text false l.

Lemma read_written c data name l : received c data name l ->
  read_command c data = Ok (name, parsed <$> l).
Proof.
  intros (L & HL & Hc & ->). unfold read_command. rewrite new_layout by done.
  cbn [client_op packet_op map_err res_bind ip_content]. unfold client_op, packet_op.
  rewrite parse_text by done. cbn [map_err res_bind].
  pose proof Hc as (_ & _ & Hl & _). pose proof (items_text_length false l Hl) as Hlen.
  rewrite collect_written; [done|done|]. rewrite length_app. lia.
Qed.

Lemma arg_is_parsed n v s :
  arg_is {| ca_name := n; ca_value := v |} s = bool_decide (n = byte_str s).
Proof. done. Qed.

Lemma initserver_loop_written pre v post id :
  Forall (fun i => match i with Arg n _ => n <> byte_str "aclid" | NextPart => False end) pre ->
  v = to_dec id -> is_u16 id ->
  initserver_loop (parsed <$> (pre ++ Arg (byte_str "aclid") v :: post)) = Ok (Some id).
Proof.
  intros Hpre -> Hid. induction Hpre as [|[n v|] pre Hn _ IH]; [| |done]; cbn [app fmap list_fmap parsed initserver_loop].
  - rewrite arg_is_parsed, bool_decide_true by done. unfold parse_client_id. cbn [ca_value].
    by rewrite get_parse_written.
  - rewrite arg_is_parsed, bool_decide_false by done. exact IH.
Qed.

(** An [initserver] command of the server, whatever its other arguments are, sets the client
    id that was granted and makes the connection connected; before the key exchange it is an
    error. *)
Theorem initserver_connects (c : Connection) (data : list Z) (pre post : list item) (id now : Z)
    (Hid : is_u16 id)
    (Hpre : Forall (fun i => match i with Arg n _ => n <> byte_str "aclid" | NextPart => False end) pre)
    (Hdata : received c data (byte_str "initserver") (pre ++ Arg (byte_str "aclid") (to_dec id) :: post)) :
  handle_command c data now =
    match params c with
    | None => Err EarlyInitserver
    | Some ps => Ok (set_connection_state (set_params c (Some (set_c_id ps id))) Connected now)
    end.
Proof.
  unfold handle_command. rewrite (read_written _ _ _ _ Hdata). cbn [res_bind].
  rewrite bool_decide_true by done. unfold handle_initserver. destruct (params c) as [ps|]; [|done].
  by rewrite (initserver_loop_written pre (to_dec id) post id).
Qed.

(** The client ids of a written command. *)
Definition ids_written (l : list item) : Prop :=
  Forall (fun i => match i with
    | Arg n v => n = byte_str "clid" -> exists id, is_u16 id /\ v = to_dec id
    | NextPart => True
    end) l.

Lemma to_dec_inj a b : is_u16 a -> is_u16 b -> to_dec a = to_dec b -> a = b.
Proof. intros Ha Hb Heq. pose proof (parse_to_dec 16 a Ha). pose proof (parse_to_dec 16 b Hb). congruence. Qed.

Lemma clientleft_loop_written own l acc : is_u16 own -> ids_written l ->
  clientleft_loop own (parsed <$> l) acc =
    Ok (acc || bool_decide (Arg (byte_str "clid") (to_dec own) ∈ l)).
Proof.
  intros Hown Hl. revert acc. induction Hl as [|[n v|] l Hi _ IH]; intros acc;
    cbn [fmap list_fmap parsed clientleft_loop].
  - rewrite bool_decide_false by (apply not_elem_of_nil). by rewrite orb_false_r.
  - rewrite arg_is_parsed. destruct (decide (n = byte_str "clid")) as [Hn|Hn];
      [rewrite (bool_decide_true (n = _)) by done|rewrite (bool_decide_false (n = _)) by done].
    + destruct (Hi Hn) as (id & Hid & ->). unfold parse_client_id. cbn [ca_value].
      rewrite get_parse_written by done. cbn [map_err res_bind].
      change (list_fmap _ _ parsed l) with (parsed <$> l). rewrite IH, <- orb_assoc. do 2 f_equal.
      subst n. destruct (Z.eqb_spec id own) as [->|Hne].
      * rewrite (bool_decide_true (_ ∈ _ :: _)) by by left. done.
      * cbn [orb]. apply bool_decide_ext. rewrite elem_of_cons. split; [by right|].
        intros [[= Heq]|Hin]; [|done]. by apply to_dec_inj in Heq.
    + change (list_fmap _ _ parsed l) with (parsed <$> l). rewrite IH. do 2 f_equal.
      apply bool_decide_ext. rewrite elem_of_cons. split; [by right|].
      intros [[= Hc _]|Hin]; [by subst|done].
  - change (list_fmap _ _ parsed l) with (parsed <$> l). rewrite IH. do 2 f_equal.
    apply bool_decide_ext. rewrite elem_of_cons. split; [by right|]. by intros [|].
Qed.

(** A [notifyclientleftview] command disconnects exactly when one of its parts names the own
    client id; the clients that it names otherwise, and commands before the key exchange, change
    nothing. *)
Theorem clientleft_disconnects (c : Connection) (data : list Z) (l : list item) (now : Z)
    (Hids : ids_written l) (Hown : forall ps, params c = Some ps -> is_u16 (c_id ps))
    (Hdata : received c data (byte_str "notifyclientleftview") l) :
  handle_command c data now =
    match params c with
    | None => Ok c
    | Some ps =>
        Ok (if bool_decide (Arg (byte_str "clid") (to_dec (c_id ps)) ∈ l)
            then set_connection_state c Disconnected now else c)
    end.
Proof.
  unfold handle_command. rewrite (read_written _ _ _ _ Hdata). cbn [res_bind].
  rewrite bool_decide_false, bool_decide_true by done. unfold handle_clientleft.
  destruct (params c) as [ps|] eqn:Hps; [|done].
  by rewrite clientleft_loop_written by auto.
Qed.

(** * The version request *)

Definition one_part (l : list item) : Prop :=
  Forall (fun i => match i with
    | Arg n v => n = byte_str "invokerid" -> exists id, is_u16 id /\ v = to_dec id
    | NextPart => False
    end) l.

(** The flag or id that the loop has after the arguments. *)
Definition flag_after (name expected : list Z) (l : list item) (before : bool) : bool :=
  match last_value name l with
  | Some v => bool_decide (v = expected)
  | None => before
  end.

Definition sender_after (l : list item) (before : option Z) : option Z :=
  match last_value (byte_str "invokerid") l with
  | Some v => parse_uint 16 v
  | None => before
  end.

Lemma plugincmd_loop_args l rest now : one_part l -> forall c g r s,
  plugincmd_loop c ((parsed <$> l) ++ rest) g r s now =
  plugincmd_loop c rest (flag_after (byte_str "name") (byte_str "getversion") l g)
    (flag_after (byte_str "data") (byte_str "request") l r) (sender_after l s) now.
Proof.
  induction 1 as [|[n v|] l Hi _ IH]; intros c g r s; [done| |done].
  cbn [fmap list_fmap app parsed plugincmd_loop]. rewrite !arg_is_parsed. cbn [ca_value cv_raw].
  change (list_fmap _ _ parsed l) with (parsed <$> l). rewrite !raw_is by done.
  unfold flag_after, sender_after in *. cbn [last_value].
  destruct (decide (n = byte_str "name")) as [->|Hname].
  { rewrite bool_decide_true, IH by done. by destruct (last_value (byte_str "name") l),
      (last_value (byte_str "data") l), (last_value (byte_str "invokerid") l). }
  rewrite (bool_decide_false (n = byte_str "name")) by done.
  destruct (decide (n = byte_str "data")) as [->|Hdata].
  { rewrite bool_decide_true, IH by done. by destruct (last_value (byte_str "name") l),
      (last_value (byte_str "data") l), (last_value (byte_str "invokerid") l). }
  rewrite (bool_decide_false (n = byte_str "data")) by done.
  destruct (decide (n = byte_str "invokerid")) as [->|Hinv].
  - rewrite bool_decide_true by done. destruct (Hi eq_refl) as (id & Hid & ->).
    rewrite get_parse_written, IH by done. destruct (last_value (byte_str "name") l),
      (last_value (byte_str "data") l), (last_value (byte_str "invokerid") l);
      by rewrite ?parse_to_dec.
  - rewrite (bool_decide_false (n = byte_str "invokerid")), IH by done. by destruct (last_value (byte_str "name") l),
      (last_value (byte_str "data") l), (last_value (byte_str "invokerid") l).
Qed.

(** The version reply as a written command. *)
Definition reply_items (sender : Z) : list item :=
  [Arg (byte_str "name") (byte_str "getversion"); Arg (byte_str "data") (build_version ++ build_kind);
   Arg (byte_str "targetmode") (byte_str "2"); Arg (byte_str "target") (to_dec sender)].

Lemma write_args_written dir L content n v : layout_ok dir L -> content <> [] ->
  OutCommand_write_arg (layout_packet dir L content) n [v] =
  Ok (layout_packet dir L (content ++
    (if bool_decide (list.last content = Some c_pipe) then [] else [c_space]) ++ arg_text n v)).
Proof.
  intros HL Hc. rewrite write_arg_bin_arg. change (mjoin [v]) with (v ++ []). rewrite app_nil_r.
  by apply write_bin_arg_layout.
Qed.

Lemma last_arg_text (content : list Z) sep n v : forallb name_char n = true -> n <> [] ->
  list.last (content ++ sep ++ arg_text n v) <> Some c_pipe.
Proof.
  intros Hn Hne. rewrite app_assoc. apply last_app_not; [|by apply arg_text_no_pipe].
  unfold arg_text. by destruct n.
Qed.

(** Writing a sequence of arguments with [write_arg]. *)
Lemma write_arg_next dir L content n v : layout_ok dir L -> content <> [] ->
  list.last content <> Some c_pipe -> forallb name_char n = true -> n <> [] ->
  exists content', OutCommand_write_arg (layout_packet dir L content) n [v] = Ok (layout_packet dir L content') /\
    content' = content ++ [c_space] ++ arg_text n v /\ content' <> [] /\
    list.last content' <> Some c_pipe.
Proof.
  intros HL Hc Hl Hn Hne. eexists. split; [by apply write_args_written|].
  rewrite bool_decide_false by done. split; [done|]. split; [by destruct content|].
  by apply last_arg_text.
Qed.

Lemma getversion_reply_written sender : is_u16 sender -> exists L, layout_ok C2S L /\
  layout_type L = Some Command /\
  getversion_reply sender = Ok (layout_packet C2S L
    (byte_str "plugincmd" ++ items_text false (reply_items sender))).
Proof.
  intros Hs. set (L := with_flags (fresh_layout C2S Flags_empty Command) Flags_empty).
  assert (layout_ok C2S L) as HL by by apply with_flags_ok; [apply fresh_layout_ok|].
  exists L. split; [done|]. split; [by apply with_flags_read|].
  unfold getversion_reply. rewrite new_command_layout by done. fold L.
  unfold client_op, packet_op. cbn [map_err res_bind].
  destruct (write_arg_next C2S L (byte_str "plugincmd") (byte_str "name") (byte_str "getversion") HL)
    as (c1 & -> & Hc1 & Hn1 & Hl1); try done. cbn [map_err res_bind].
  destruct (write_arg_next C2S L c1 (byte_str "data") (build_version ++ build_kind) HL)
    as (c2 & -> & Hc2 & Hn2 & Hl2); try done. cbn [map_err res_bind].
  destruct (write_arg_next C2S L c2 (byte_str "targetmode") (to_dec 2) HL)
    as (c3 & -> & Hc3 & Hn3 & Hl3); try done. cbn [map_err res_bind].
  destruct (write_arg_next C2S L c3 (byte_str "target") (to_dec sender) HL)
    as (c4 & -> & Hc4 & _); try done. cbn [map_err].
  do 2 f_equal. subst. cbn [reply_items items_text]. rewrite app_nil_r. by rewrite <- !app_assoc.
Qed.

(** A plugin command that asks for the version is answered with exactly one plugin command to
    the asking client, which names the version; other plugin commands are ignored. *)
Theorem version_request_answered (c : Connection) (data : list Z) (l : list item) (now : Z)
    (Hl : one_part l) (Hdata : received c data (byte_str "notifyplugincmd") l) :
  match last_value (byte_str "name") l, last_value (byte_str "data") l, sender_after l None with
  | Some n, Some r, Some id =>
      if bool_decide (n = byte_str "getversion" /\ r = byte_str "request") then
        exists L, layout_ok C2S L /\ layout_type L = Some Command /\
          handle_command c data now =
          res_bind (Client_send_packet c (layout_packet C2S L
            (byte_str "plugincmd" ++ items_text false (reply_items id))) now) (fun r => Ok (snd r))
      else handle_command c data now = Ok c
  | _, _, _ => handle_command c data now = Ok c
  end.
Proof.
  assert (handle_command c data now = plugincmd_loop c [NextCommand]
    (flag_after (byte_str "name") (byte_str "getversion") l false)
    (flag_after (byte_str "data") (byte_str "request") l false) (sender_after l None) now) as ->.
  { unfold handle_command. rewrite (read_written _ _ _ _ Hdata). cbn [res_bind].
    rewrite !bool_decide_false, bool_decide_true by done. by apply plugincmd_loop_args. }
  assert (forall id, sender_after l None = Some id -> is_u16 id) as Hid.
  { unfold sender_after. intros id. destruct (last_value (byte_str "invokerid") l); [|done].
    apply parse_uint_range. }
  unfold flag_after. cbn [plugincmd_loop]. destruct (sender_after l None) as [id|].
  2: { by destruct (last_value (byte_str "name") l), (last_value (byte_str "data") l). }
  destruct (last_value (byte_str "name") l) as [n|], (last_value (byte_str "data") l) as [r|];
    rewrite ?andb_false_r; try done.
  destruct (decide (n = byte_str "getversion")), (decide (r = byte_str "request"));
    rewrite ?(bool_decide_true (n = _)), ?(bool_decide_true (r = _)), ?(bool_decide_false (n = _)),
      ?(bool_decide_false (r = _)) by done; cbn [andb];
    [|by rewrite bool_decide_false by tauto..].
  rewrite bool_decide_true by done.
  destruct (getversion_reply_written id (Hid id eq_refl)) as (L & HL & Ht & ->).
  exists L. split_and!; try done. cbn [res_bind]. by destruct (Client_send_packet _ _ _) as [[]| |].
Qed.
End written.
