(* ===== verification/ClientSafety.v ===== *)
(** The handshake and panics: on any item from the network, one step of [connect] panics exactly in
    two cases that a server can cause - a puzzle with the modulus zero and a signed license without
    a byte - and otherwise keeps the connection well-formed. *)
From stdpp Require Import strings.
From S2P Require Import Prelude ByteIO Text Packets InitPackets AudioData Commands PacketId Algorithms Codec.
From S2P Require Import Encode BTree Resend Stats Connection Poll Frames Safety SendSafety Ip CryptoLib License LicenseParse.
From S2P Require Import Crypto KeyFormats Identity IdentityLevel Client ClientSpec ClientHandshake.
#[local] Open Scope Z_scope.

Section safety.
Context `{BeIoLaws, QuicklzLaws, EaxLaws, Sha256Laws, Cubic, Profile}.
Context `{P256Laws, Base64Laws, Sha1Laws, Asn1Laws, BigIntLaws}.
Context `{CalendarLaws, Ed25519Laws, LicenseTypes, ModPowLaws, BuildVersion}.

(** * Sending *)

Lemma starts_disconnect c packet now L content : con_ok c -> reliable c L content ->
  packet = layout_packet (out_dir (is_client c)) L content ->
  returns (fun '(_, c') => keeps c c') (Client_send_packet c packet now).
Proof.
  intros Hc Hrel ->. pose proof Hrel as (HL & Hb & Hkind). unfold Client_send_packet. apply returns_map_err.
  assert (exists t, layout_type L = Some t) as [t Ht]
    by (destruct Hkind as [(t & Ht & _)|(Ht & _)]; eauto).
  rewrite header_layout by done. cbn [packet_op map_err res_bind].
  rewrite packet_type_layout, Ht by done. cbn [unwrap packet_op map_err res_bind].
  rewrite content_layout by done. cbn [packet_op map_err res_bind].
  set (c1 := if _ && _ then _ else c).
  assert (con_ok c1 /\ is_client c1 = is_client c /\ codec c1 = codec c /\ params c1 = params c)
    as (Hc1 & Hk1 & Hcd1 & Hp1).
  { unfold c1. destruct (_ && _); [|done]. split; [|done].
    destruct Hc as (? & ? & ? & Hrest). by repeat (split; [done|]). }
  destruct (Connection_send_ok c1 L content now Hc1) as (id & c' & Hs & Hk).
  { unfold reliable. rewrite Hk1, Hcd1, Hp1. exact Hrel. }
  rewrite Hk1 in Hs. rewrite Hs. destruct Hk as [? Hk]. split; [done|congruence].
Qed.

Lemma send_init_returns c packet content now : con_ok c -> is_client c = true -> params c = None ->
  packet = Ok (layout_packet C2S (init_layout C2S) content) -> bytes content ->
  (5 <= length content)%nat -> returns (keeps c) (send_init c packet now).
Proof.
  intros Hc Hcl Hp -> Hb Hl. unfold send_init. cbn [client_op packet_op map_err res_bind].
  eapply returns_bind.
  - apply (starts_disconnect c _ now (init_layout C2S) content Hc); [|by rewrite Hcl].
    unfold reliable. rewrite Hcl. split; [apply init_layout_ok|]. split; [done|].
    right. by rewrite init_layout_type.
  - by intros [id c'] Hk.
Qed.

Lemma write_be_lens n z : bytes (write_be n z) /\ length (write_be n z) = n.
Proof. split; [apply write_be_bytes|apply write_be_length]. Qed.

(** The three init packets of the client. *)
Ltac init_content :=
  rewrite init_packet_layout; cbn [res_bind]; rewrite init_extend; eexists; split; [reflexivity|]; split;
  [repeat (apply Forall_app; split); try done; try apply write_be_bytes
  |rewrite !length_app, !write_be_length; lia].

Lemma init0_content version timestamp random0 : bytes random0 -> exists content,
  OutC2SInit0_new version timestamp random0 = Ok (layout_packet C2S (init_layout C2S) content) /\
  bytes content /\ (5 <= length content)%nat.
Proof. intros Hr. unfold OutC2SInit0_new. init_content. by apply (bool_decide_unpack _). Qed.

Lemma init2_content version r1 r0 : bytes r1 -> bytes r0 -> exists content,
  OutC2SInit2_new version r1 r0 = Ok (layout_packet C2S (init_layout C2S) content) /\
  bytes content /\ (5 <= length content)%nat.
Proof. intros H1' H2'. unfold OutC2SInit2_new. init_content. Qed.

Lemma byte_str_ascii s : bool_decide (ascii (byte_str s)) = true -> bytes (byte_str s).
Proof. intros Ha. by apply ascii_bytes, (bool_decide_unpack _), Is_true_eq_left. Qed.

Lemma clientinitiv_bytes alpha omega ip : ascii ip -> bytes (clientinitiv alpha omega ip).
Proof.
  intros Hip. apply ascii_bytes. unfold clientinitiv.
  repeat (apply Forall_app; split); try apply base64_ascii; try (by apply (bool_decide_unpack _)).
  destruct ip; [constructor|]. apply Forall_app. split; [by apply (bool_decide_unpack _)|done].
Qed.

Lemma init4_content version x n level r2 y alpha omega ip :
  bytes x -> bytes n -> bytes r2 -> bytes y -> ascii ip -> exists content,
  OutC2SInit4_new version x n level r2 y alpha omega ip = Ok (layout_packet C2S (init_layout C2S) content) /\
  bytes content /\ (5 <= length content)%nat.
Proof.
  intros Hx Hn Hr Hy Hip. unfold OutC2SInit4_new. pose proof (clientinitiv_bytes alpha omega ip Hip) as Hcmd.
  revert Hcmd. generalize (clientinitiv alpha omega ip). intros cmd Hcmd. init_content.
Qed.

(** * Reading the arguments *)

Definition item_value_ok (i : CommandItem) : Prop :=
  match i with
  | Argument a => no_panic (CommandArgumentValue_get (ca_value a)) = true
  | NextCommand => True
  end.

(** Every received command is read without a panic. *)
Lemma read_command_ok c data : packet_shape (in_dir (is_client c)) data ->
  exists name items, read_command c data = Ok (name, items) /\ Forall item_value_ok items.
Proof.
  intros Hs. destruct (packet_shape_new _ _ Hs) as (L & content & t & _ & _ & _ & -> & Hnew).
  unfold read_command. rewrite Hnew. cbn [client_op packet_op map_err res_bind ip_content].
  unfold client_op, packet_op, CommandParser_new.
  pose proof (command_name_end_le content 0) as Hle. simpl in Hle.
  rewrite slice_to_ok by done. cbn [map_err res_bind].
  destruct (collect_total (S (length content)) {| cp_data := content; cp_index := command_name_end content 0 |})
    as (items & -> & Hr & _); [done|simpl; lia|].
  cbn [map_err res_bind]. eexists _, items. split; [done|]. eapply Forall_impl; [exact Hr|].
  intros [a|] Hi; [|done]. unfold item_readable in Hi. simpl in Hi. simpl.
  by destruct (CommandArgumentValue_get (ca_value a)).
Qed.

Lemma base64_arg_safe a name : item_value_ok (Argument a) ->
  safe (fun v => bytes v) (base64_arg a name).
Proof.
  intros Ha. simpl in Ha. unfold base64_arg, client_op, packet_op.
  destruct (CommandArgumentValue_get (ca_value a)) as [v|e|]; [|done..]. cbn [map_err res_bind].
  destruct (base64_decode v) as [d|] eqn:Hd; [|done]. simpl. by apply base64_shrinks in Hd as [_ ?].
Qed.

Lemma get_str_no_panic v : no_panic (CommandArgumentValue_get v) = true ->
  no_panic (CommandArgumentValue_get_str v) = true.
Proof.
  unfold CommandArgumentValue_get, CommandArgumentValue_get_str. case_bool_decide; [by destruct (utf8_valid _)|].
  destruct (CommandArgumentValue_unescape v) as [s|e|]; [|done..]. simpl. by destruct (utf8_valid s).
Qed.

Definition args_ok (args : InitivArgs) : Prop :=
  match arg_l args with Some l => bytes l | None => True end /\
  match arg_beta args with Some b => bytes b | None => True end.

Lemma read_arg_safe args a : args_ok args -> item_value_ok (Argument a) -> safe args_ok (read_arg args a).
Proof.
  intros [Hl Hb] Ha. unfold read_arg.
  destruct (arg_is a "l"); [eapply safe_bind; [by apply base64_arg_safe|]; by intros v Hv|].
  destruct (arg_is a "beta"); [eapply safe_bind; [by apply base64_arg_safe|]; by intros v Hv|].
  destruct (arg_is a "omega").
  { eapply safe_bind; [apply safe_map_err, safe_no_panic, get_str_no_panic, Ha|]. intros s _.
    eapply safe_bind; [apply safe_map_err, safe_no_panic, public_from_ts_no_panic|]. done. }
  destruct (arg_is a "proof"); [eapply safe_bind; [by apply base64_arg_safe|]; by intros v Hv|].
  destruct (arg_is a "ot"); [done|]. destruct (arg_is a "root"); [|done].
  eapply safe_bind; [by apply base64_arg_safe|]. intros v Hv. by case_bool_decide.
Qed.

Lemma read_args_safe items : forall args, args_ok args -> Forall item_value_ok items ->
  safe args_ok (read_args args items).
Proof.
  induction items as [|i items IH]; intros args Ha Hi; [done|]. apply Forall_cons in Hi as [Hi Hit].
  destruct i as [a|]; [|done]. cbn [read_args]. eapply safe_bind; [by apply read_arg_safe|].
  intros args' Ha'. by apply IH.
Qed.

(** * The key exchange *)

(** The server sent a signed license of no bytes, and everything before the license is right. *)
Definition empty_license (args : InitivArgs) : Prop :=
  exists beta key proof, arg_ot args = true /\ arg_l args = Some [] /\ arg_beta args = Some beta /\
    arg_omega args = Some key /\ arg_proof args = Some proof /\
    EccKeyPubP256_verify key [] proof = Ok () /\ length beta = 54%nat.

Definition checked (r : EccKeyPubP256 * list Z * Point) : Prop :=
  length (snd (fst r)) = 54%nat /\ bytes (snd (fst r)).

Lemma check_args_panics args today : args_ok args ->
  (check_args args today = Panic <-> empty_license args) /\ ensures checked (check_args args today).
Proof.
  intros [Hl Hb]. unfold check_args, empty_license.
  destruct (arg_ot args); [|split; [split; [done|]|done]; by intros (? & ? & ? & ? & _)]. cbn [negb].
  destruct (arg_l args) as [l|]; [|split; [split; [done|]|done]; by intros (? & ? & ? & ? & ? & _)].
  destruct (arg_beta args) as [beta|]; [|split; [split; [done|]|done]; by intros (? & ? & ? & ? & ? & ? & _)].
  destruct (arg_omega args) as [key|]; [|split; [split; [done|]|done]; by intros (? & ? & ? & ? & ? & ? & ? & _)].
  destruct (arg_proof args) as [proof|]; [|split; [split; [done|]|done]; by intros (? & ? & ? & ? & ? & ? & ? & ? & _)].
  destruct (EccKeyPubP256_verify key l proof) as [[]|e|] eqn:Hver; cbn [map_err res_bind].
  2: { split; [|done]. split; [done|]. intros (? & ? & ? & _ & [= ->] & _ & [= <-] & [= <-] & Hv & _). congruence. }
  2: { unfold EccKeyPubP256_verify in Hver. by repeat case_match. }
  case_bool_decide as Hlen; cbn [negb].
  2: { split; [|done]. split; [done|]. by intros (? & ? & ? & _ & _ & [= <-] & _ & _ & _ & ?). }
  pose proof (parse_internal_panic_iff today l true Hl) as Hp.
  change (parse_internal today l true) with (Licenses_parse today l) in Hp.
  destruct (Licenses_parse today l) as [ls|e|] eqn:Hls; cbn [map_err res_bind].
  - assert (l <> []) as Hne by (intros ->; done).
    pose proof (derive_public_key_no_panic true today l ls
      (default (EccKeyPubEd25519_from_bytes ROOT_KEY) (arg_root args)) Hls) as Hd.
    destruct (derive_public_key _ _) as [point|e|]; [|..|done]; (split; [split; [done|]|done]);
      by intros (? & ? & ? & _ & [= ->] & _).
  - split; [|done]. split; [done|]. by intros (? & ? & ? & _ & [= ->] & _).
  - split; [|done]. split; [|done]. intros _. simpl in Hp. symmetry in Hp.
    apply negb_false_iff, bool_decide_eq_true in Hp as ->. by exists beta, key, proof.
Qed.

(** The size of [clientek], generously. *)
Definition clientek_size : nat := 2000.

Lemma escape_bound v : (length (escape v) <= 2 * length v)%nat.
Proof.
  induction v as [|c v IH]; [done|]. cbn [escape]. rewrite length_app.
  destruct (escape_char_cases c) as [(_ & -> & _)|(_ & e & -> & _)]; simpl; lia.
Qed.

Lemma escape_char_bytes c : is_u8 c -> bytes (escape_char c).
Proof.
  intros Hc. unfold escape_char.
  repeat case_match; repeat first [apply Forall_nil_2|apply Forall_cons_2]; try done; by unfold is_uint.
Qed.

Lemma escape_bytes v : bytes v -> bytes (escape v).
Proof.
  induction 1 as [|c v Hc _ IH]; [constructor|]. cbn [escape]. apply Forall_app. split; [|done].
  by apply escape_char_bytes.
Qed.

Lemma arg_text_bytes n v : bytes n -> bytes v ->
  bytes (arg_text n v) /\ (length (arg_text n v) <= length n + 1 + 2 * length v)%nat.
Proof.
  intros Hn Hv. unfold arg_text. destruct v as [|x v].
  { rewrite app_nil_r. split; [done|lia]. }
  split.
  - apply Forall_app. split; [done|]. constructor; [done|by apply escape_bytes].
  - rewrite length_app. cbn [length]. pose proof (escape_bound (x :: v)). simpl in *. lia.
Qed.

Lemma clientek_ok key ek beta : bytes beta -> length beta = 54%nat ->
  exists content, clientek key ek beta = Ok (layout_packet C2S
      (with_flags (fresh_layout C2S Flags_empty Command) Flags_empty) content) /\
    bytes content /\ (length content < clientek_size)%nat.
Proof.
  intros Hb Hlen. unfold clientek. rewrite new_command_layout by done.
  set (L := with_flags _ _). assert (layout_ok C2S L) as HL by by apply with_flags_ok; [apply fresh_layout_ok|].
  unfold client_op, packet_op. cbn [map_err res_bind].
  set (ek_pub := EccKeyPrivEd25519_to_pub ek). set (proof := EccKeyPrivP256_sign key (ek_pub ++ beta)).
  destruct (write_arg_next C2S L (byte_str "clientek") (byte_str "ek") (base64_encode ek_pub) HL)
    as (c1 & -> & Hc1 & Hn1 & Hl1); try done. cbn [map_err res_bind].
  destruct (write_arg_next C2S L c1 (byte_str "proof") (base64_encode proof) HL)
    as (c2 & -> & Hc2 & _); try done.
  exists c2. split; [done|]. subst c1 c2.
  destruct (arg_text_bytes (byte_str "ek") (base64_encode ek_pub)) as [Hb1 Hs1];
    [by apply (bool_decide_unpack _)|apply ascii_bytes, base64_ascii|].
  destruct (arg_text_bytes (byte_str "proof") (base64_encode proof)) as [Hb2 Hs2];
    [by apply (bool_decide_unpack _)|apply ascii_bytes, base64_ascii|].
  assert (length ek_pub = 32%nat) as Hek by apply compress_length.
  assert (length proof <= 72)%nat as Hpr by apply signature_bytes.
  pose proof (base64_compact ek_pub). pose proof (base64_compact proof).
  set (t1 := arg_text (byte_str "ek") _) in *. set (t2 := arg_text (byte_str "proof") _) in *.
  clearbody t1 t2. split.
  - repeat (apply Forall_app; split); try done; by apply (bool_decide_unpack _).
  - rewrite !length_app. unfold clientek_size.
    change (length (byte_str "clientek")) with 8%nat. change (length (byte_str "ek")) with 2%nat in *.
    change (length (byte_str "proof")) with 5%nat in *. cbn [length]. lia.
Qed.

(** * One step of the handshake *)

Definition drawn_ok (d : Drawn) : Prop :=
  is_u32 (timestamp d - 1356998400) /\ bytes (random0 d) /\ length (drawn_alpha d) = 10%nat.

(** The items of the stream hold what the parsers of packets return. *)
Definition stream_item_ok (i : StreamItem) : Prop :=
  match i with
  | Item_Command data => packet_shape S2C data
  | Item_S2CInit _ (Init1 r1 r0) => bytes r1 /\ bytes r0
  | Item_S2CInit _ (Init3 x n level r2) =>
      bytes x /\ bytes n /\ length n = 64%nat /\ 0 <= level /\ bytes r2
  | _ => True
  end.

(** A client before or in the handshake. *)
Definition client_ready (st : ConnectState) (c : Connection) : Prop :=
  con_ok c /\ is_client c = true /\ ids_room (codec c) Command (S clientek_size) /\
  ip_ok (ip_of_bytes (sa_ip (address c))) /\
  match st with
  | WaitInit1 | WaitInit3 | WaitInitivexpand2 => params c = None
  | _ => True
  end.

(** What makes a step panic. *)
Definition panic_cause (c : Connection) (st : ConnectState) (i : StreamItem) : Prop :=
  match st, i with
  | WaitInit3, Item_S2CInit _ (Init3 x n level _) => level <= 10000000 /\ be_decode n 0 = 0
  | WaitInitivexpand2, Item_Command data => exists items args,
      read_command c data = Ok (byte_str "initivexpand2", items) /\
      read_args no_args items = Ok args /\ empty_license args
  | _, _ => False
  end.

Definition step_result (c : Connection) (cause : Prop) (m : res ClientError (ConnectState * Client)) : Prop :=
  (m = Panic <-> cause) /\ ensures (fun '(_, cl') => keeps c (con cl')) m.

Lemma step_returns c (cause : Prop) m : ~ cause ->
  returns (fun '(_, cl') => keeps c (con cl')) m -> step_result c cause m.
Proof. by destruct m. Qed.

Lemma init_version_ok d : drawn_ok d -> init_version d = Ok (timestamp d - 1356998400).
Proof. intros (Ht & _). unfold init_version. by apply arith_ok. Qed.

Lemma send_returns d st cl packet content now : client_ready st (con cl) -> params (con cl) = None ->
  packet = Ok (layout_packet C2S (init_layout C2S) content) -> bytes content -> (5 <= length content)%nat ->
  returns (fun '(_, cl') => keeps (con cl) (con cl'))
    (let? c := send_init (con cl) packet now in Ok (d : ConnectState, with_con cl c)).
Proof.
  intros (Hc & Hcl & _) Hp -> Hb Hl. eapply returns_bind; [by eapply send_init_returns|].
  by intros c Hk.
Qed.

Lemma connect_start_returns d st cl now : drawn_ok d -> client_ready st (con cl) -> params (con cl) = None ->
  returns (fun '(_, cl') => keeps (con cl) (con cl')) (connect_start d cl now).
Proof.
  intros Hd Hr Hp. unfold connect_start, send_init0. rewrite init_version_ok by done. cbn [res_bind].
  destruct (init0_content (timestamp d - 1356998400) (timestamp d) (random0 d)) as (content & -> & Hb & Hl);
    [apply Hd|]. by apply (send_returns WaitInit1 st cl _ content).
Qed.

Lemma handle_init3_result d cl x n level r2 now : drawn_ok d -> client_ready WaitInit3 (con cl) ->
  bytes x -> bytes n -> length n = 64%nat -> 0 <= level -> bytes r2 ->
  step_result (con cl) (level <= 10000000 /\ be_decode n 0 = 0)
    (let? cl := handle_init3 d cl x n level r2 now in Ok (WaitInitivexpand2, cl)).
Proof.
  intros Hd Hr Hx Hn Hlen Hlevel Hr2. unfold handle_init3.
  destruct (Z.ltb_spec 10000000 level); [split; [|done]; split; [done|lia]|].
  rewrite init_version_ok by done. cbn [res_bind].
  pose proof (puzzle_answer x n level Hx Hn Hlen Hlevel) as Hp.
  destruct (Z.eq_dec (be_decode n 0) 0) as [H0'|Hne].
  { rewrite H0' in Hp. rewrite Hp. split; [|done]. by split. }
  assert (exists y, solve_puzzle x n level = Ok y /\ bytes y) as (y & -> & Hy).
  { destruct (be_decode n 0); [done|..]; destruct Hp as (y & ? & _ & ? & _); eauto. }
  apply step_returns; [tauto|]. cbn [res_bind].
  destruct (public_tomcrypt (EccKeyPrivP256_to_pub (cl_private_key cl))) as (omega & -> & _).
  cbn [map_err res_bind]. pose proof Hr as (Hc & Hcl & _ & Hip & Hnone).
  assert (ascii (sent_ip (ip_of_bytes (sa_ip (address (con cl)))))) as Hascii.
  { unfold sent_ip. destruct (is_global_ip _); [by apply ip_text_ascii|constructor]. }
  edestruct init4_content as (content & -> & Hb & Hl); [exact Hx|exact Hn|exact Hr2|exact Hy|exact Hascii|].
  apply (returns_bind (fun cl' => keeps (con cl) (con cl'))); [|by intros cl' Hk].
  eapply returns_bind; [by eapply send_init_returns|]. by intros c Hk.
Qed.

Lemma handle_initivexpand2_result d cl items today now : drawn_ok d ->
  client_ready WaitInitivexpand2 (con cl) -> Forall item_value_ok items ->
  step_result (con cl) (exists args, read_args no_args items = Ok args /\ empty_license args)
    (let? '(id, cl) := handle_initivexpand2 d cl items today now in Ok (WaitAck id, cl)).
Proof.
  intros Hd Hr Hi. unfold handle_initivexpand2.
  pose proof (read_args_safe items no_args ltac:(done) Hi) as Hargs.
  destruct (read_args no_args items) as [args|e|]; [|split; [|done]; by split; [|intros (? & ? & _)]|done].
  cbn [res_bind safe] in *. destruct (check_args_panics args today Hargs) as [Hpanic Hchecked].
  destruct (check_args args today) as [[[key beta] ek]|e|].
  2: { split; [|done]. split; [done|]. intros (a & [= <-] & He). by apply Hpanic in He. }
  2: { split; [|done]. split; [|done]. intros _. exists args. split; [done|]. by apply Hpanic. }
  destruct Hchecked as [Hbl Hbb]. cbn [fst snd] in *. apply step_returns.
  { intros (a & [= <-] & He). by apply Hpanic in He. }
  cbn [res_bind]. pose proof Hr as (Hc & Hcl & Hroom & _ & Hnone).
  rewrite compute_iv_mac_ok by (done || apply Hd). cbn [map_err res_bind].
  set (iv := mixed_iv _ _ _). set (mac := take 8 (sha1 iv)).
  destruct (clientek_ok (cl_private_key cl) (drawn_ek d) beta Hbb Hbl) as (content & -> & Hb & Hsize).
  cbn [res_bind]. set (L := with_flags _ _).
  set (c1 := set_params (con cl) (Some (ConnectedParams_new iv mac))).
  assert (length iv = 64%nat) as Hiv.
  { unfold iv, mixed_iv. rewrite length_app, !xor_prefix_length, <- length_app, take_drop. apply sha512_length. }
  assert (con_ok c1) as Hc1.
  { destruct Hc as (Hcodec & _ & Hrest). split; [done|]. split; [|done]. split; [done|].
    split; [unfold mac; cbn; rewrite length_take, sha1_length; lia|].
    split; [apply Forall_take, sha1_bytes|apply cache_default_shape]. }
  assert (reliable c1 L content) as Hrel.
  { change (is_client c1) with (is_client (con cl)). unfold reliable. change (is_client c1) with (is_client (con cl)).
    rewrite Hcl. split; [by apply with_flags_ok; [apply fresh_layout_ok|]|]. split; [done|]. left.
    exists Command. split; [by apply with_flags_read|]. split; [done|].
    intros id Hid. specialize (Hroom id Hid). lia. }
  apply (returns_bind (fun '(_, cl') => keeps (con cl) (con cl'))); [|by intros [id cl'] Hk].
  eapply returns_bind; [eapply (starts_disconnect c1 _ now L content); [done|done|]|].
  - change (is_client c1) with (is_client (con cl)). by rewrite Hcl.
  - intros [id c] Hk. exact Hk.
Qed.

(** C19: One step of the handshake on any item the network can cause: it panics exactly for a puzzle
    with modulus zero, or for a signed license without a byte; in every other case it returns a
    well-formed client or an error. *)
Theorem connect_item_panics (d : Drawn) (st : ConnectState) (cl : Client) (i : StreamItem)
    (today : DateTime) (now : Z) (Hd : drawn_ok d) (Hr : client_ready st (con cl))
    (Hi : stream_item_ok i) :
  (connect_item d st cl i today now = Panic <-> panic_cause (con cl) st i) /\
  ensures (fun '(_, cl') => keeps (con cl) (con cl')) (connect_item d st cl i today now).
Proof.
  change (step_result (con cl) (panic_cause (con cl) st i) (connect_item d st cl i today now)).
  pose proof Hr as (Hc & Hcl & _ & _ & Hnone).
  assert (forall st' : ConnectState, returns (fun '(_, cl') => keeps (con cl) (con cl')) (Ok (E := ClientError) (st', cl))) as Hstay
    by by (intros st'; split).
  destruct st; cbn [connect_item].
  - destruct i as [| | |data init| | |]; try (by apply step_returns; [intros []|]).
    cbn [wanted_init]. case_bool_decide as Hw; [|by apply step_returns; [intros []|]].
    destruct init as [r1 r0|x n level r2|].
    2-3: by apply list_elem_of_singleton in Hw.
    apply step_returns; [intros []|]. rewrite init_version_ok by done. cbn [res_bind].
    destruct (init2_content (timestamp d - 1356998400) r1 r0) as (content & -> & Hb & Hl); [apply Hi..|].
    by apply (send_returns WaitInit3 WaitInit1 cl _ content).
  - destruct i as [| | |data init| | |]; try (by apply step_returns; [intros []|]).
    cbn [wanted_init]. destruct init as [r1 r0|x n level r2|].
    + rewrite bool_decide_false; [by apply step_returns; [intros []|]|].
      rewrite !elem_of_cons, elem_of_nil. cbn [S2CInitData_get_step]. lia.
    + rewrite bool_decide_true by by left. cbn [stream_item_ok panic_cause] in *.
      destruct Hi as (Hx & Hn & Hl & Hlev & Hr2). by apply handle_init3_result.
    + rewrite bool_decide_true by by right; left. apply step_returns; [intros []|].
      by apply (connect_start_returns d WaitInit3).
  - destruct i as [data| | | | | |]; try (by apply step_returns; [intros []|]).
    cbn [stream_item_ok panic_cause] in *.
    destruct (read_command_ok (con cl) data) as (name & items & Hread & Hitems); [by rewrite Hcl|].
    rewrite Hread. cbn [res_bind]. case_bool_decide as Hname; cbn [negb].
    + subst name. destruct (handle_initivexpand2_result d cl items today now Hd Hr Hitems) as [Hp He].
      split; [|exact He]. rewrite Hp. split.
      * intros (args & ? & ?). by exists items, args.
      * intros (items' & args & Heq & Hargs & He'). injection Heq as Heq. subst items'. by exists args.
    + split; [|done]. split; [done|].
      intros (items' & args & Heq & _). clear -Heq Hname. congruence.
  - apply step_returns; [by intros []|apply Hstay].
  - apply step_returns; [by intros []|apply Hstay].
Qed.
End safety.
