(* ===== verification/ClientRun.v ===== *)
(** A handshake with a simulated server, run from the first packet to the acknowledged [clientek],
    with the instances of the primitives that satisfy their laws; and the witnesses of the
    properties of the client that use it. *)
From stdpp Require Import strings.
From S2P Require Import Prelude ByteIO Text Packets InitPackets AudioData Commands PacketId Algorithms Codec.
From S2P Require Import Encode BTree Resend Stats Connection Poll Frames Safety SendSafety Trust Ip CryptoLib License LicenseParse.
From S2P Require Import Crypto KeyFormats Identity IdentityLevel Client ClientSpec ClientHandshake ClientSafety.
#[local] Open Scope Z_scope.

(** * Instances *)

#[local] Existing Instance release_profile.

#[local] Instance plain_modpow : ModPow := {|
  modpow x e n := if n =? 0 then None else Some (x ^ e mod n) |}.

#[local] Instance plain_modpow_laws : ModPowLaws.
Proof.
  split; [done|]. intros x e n _ _ Hn. unfold modpow, plain_modpow.
  by destruct (Z.eqb_spec n 0); [lia|].
Qed.

#[local] Instance first_version : BuildVersion := {| build_version := byte_str "0.1.0" |}.

(** * The server *)

(** The datagrams of a packet that the server sends. *)
Definition server_sends (ps : option ConnectedParams) (packet : res PacketError OutPacket)
    : list (list Z) :=
  match (let? p := packet_op packet in encode_packet false ps PacketCodec_default p) with
  | Ok (us, _, _) => (fun u => op_data (ou_data u)) <$> us
  | _ => []
  end.

Definition server_init1 : list (list Z) :=
  server_sends None (OutS2CInit1_new (replicate 16 3) (replicate 4 1)).

Definition server_init3 : list (list Z) :=
  server_sends None (OutS2CInit3_new (replicate 64 3) (replicate 64 5) 2 (replicate 100 9)).

Definition server_beta : list Z := replicate 54 7.

(** The [initivexpand2] command with a license and a signature of it. *)
Definition initivexpand2 (l proof : list Z) : res PacketError OutPacket :=
  let? omega := map_err (fun _ => Base64) (EccKeyPubP256_to_ts true) in
  let? c := OutCommand_new S2C Flags_empty Command (byte_str "initivexpand2") in
  let? c := OutCommand_write_arg c (byte_str "l") [base64_encode l] in
  let? c := OutCommand_write_arg c (byte_str "beta") [base64_encode server_beta] in
  let? c := OutCommand_write_arg c (byte_str "omega") [omega] in
  let? c := OutCommand_write_arg c (byte_str "proof") [base64_encode proof] in
  let? c := OutCommand_write_arg c (byte_str "ot") [byte_str "1"] in
  OutCommand_write_arg c (byte_str "root") [base64_encode (compress_point true)].

Definition server_initivexpand2 : list (list Z) :=
  server_sends None (initivexpand2 sample_license (EccKeyPrivP256_sign true sample_license)).

(** * The client *)

Definition sample_drawn : Drawn (H := two_points) := {|
  timestamp := 1700000000; random0 := [1; 2; 3; 4]; drawn_alpha := replicate 10 5;
  drawn_ek := (true : @Scalar two_points) |}.

Definition sample_client : Client := Client_new local_addr [] (false : @SecretKey two_keys) 5.

(** The secrets that the server computes from its own scalar and the key of the client. *)
Definition server_params : option ConnectedParams :=
  match compute_iv_mac (drawn_alpha sample_drawn) server_beta (true : @Scalar two_points)
    (point_mul base_point (drawn_ek sample_drawn)) with
  | Ok (iv, mac) => Some (ConnectedParams_new iv mac)
  | _ => None
  end.

(** The acknowledgement of the packet 1, [clientek]. *)
Definition server_ack : list (list Z) := server_sends server_params (OutAck_new S2C Command 1).

Definition arrives (l : list (list Z)) (now : Z) : PollEvent := {|
  ev_recvs := (fun data => RecvData data local_addr) <$> l; ev_now := now; ev_today := sample_now |}.

Definition sample_polls : list PollEvent :=
  [arrives server_init1 7; arrives [] 8; arrives server_init3 9; arrives server_initivexpand2 10;
   arrives [] 11; arrives [] 12; arrives server_ack 13; arrives [] 14; arrives [] 15].

Definition started : res ClientError (ConnectState * Client) := connect_start sample_drawn sample_client 6.

Definition sample_run (n : nat) : option (res ClientError (ConnectState * Client)) :=
  match started with
  | Ok (st, cl) => connect_run sample_drawn st cl [] (take n sample_polls)
  | Err e => Some (Err e)
  | Panic => Some Panic
  end.

Definition run_state (r : option (res ClientError (ConnectState * Client))) : option ConnectState :=
  match r with Some (Ok (st, _)) => Some st | _ => None end.


(** The handshake reaches its end, and both sides have the same secrets. *)
Example handshake_done : run_state (sample_run 9) = Some ConnectDone.
Proof. vm_compute. reflexivity. Qed.

Example handshake_secrets : match sample_run 9 with
    | Some (Ok (_, cl)) => secrets (con cl)
    | _ => None
    end = (fun ps => (shared_iv ps, shared_mac ps)) <$> server_params.
Proof. vm_compute. reflexivity. Qed.

(** A license with a wrong signature ends the handshake. *)
Definition forged : option (res ClientError (ConnectState * Client)) :=
  match started with
  | Ok (st, cl) => connect_run sample_drawn st cl []
      (take 3 sample_polls ++ [arrives (server_sends None (initivexpand2 sample_license (bit_bytes false))) 10;
         arrives [] 11; arrives [] 12])
  | _ => None
  end.

Example forged_license :
  match forged with Some (Err (InvalidSignature (WrongSignature _ l s))) => Some (l, s) | _ => None end
  = Some (sample_license, bit_bytes false).
Proof. vm_compute. reflexivity. Qed.

(** * Witnesses *)

Lemma run_state_some r st : run_state r = Some st -> exists cl, r = Some (Ok (st, cl)).
Proof. destruct r as [[[st' cl]|e|]|]; [|done..]. intros [= ->]. by exists cl. Qed.

Lemma sample_run_reaches n st cl :
  sample_run n = Some (Ok (st, cl)) -> reaches sample_drawn sample_client st cl.
Proof.
  unfold sample_run. destruct started as [[st0 cl0]|e|] eqn:Hs; [|discriminate..].
  intros Hrun. eapply connect_run_from; [|exact Hrun]. eapply reach_start. exact Hs.
Qed.

Lemma handshake_secure_witness : exists cl server_key iv mac,
  reaches sample_drawn sample_client ConnectDone cl /\ server_public_key cl = Some server_key /\
  secrets (con cl) = Some (iv, mac) /\ verified sample_drawn server_key iv mac.
Proof.
  destruct (run_state_some _ _ handshake_done) as (cl & Hcl).
  pose proof (sample_run_reaches _ _ _ Hcl) as Hr.
  destruct (handshake_secure sample_drawn local_addr [] _ 5 ConnectDone cl Hr)
    as (key & iv & mac & Hk & Hsec & Hv).
  exists cl, key, iv, mac. split; [exact Hr|]. split; [exact Hk|]. split; [exact Hsec|exact Hv].
Defined.

Lemma sample_run_parts n st cl : sample_run n = Some (Ok (st, cl)) -> exists st0 cl0,
  connect_start sample_drawn sample_client 6 = Ok (st0, cl0) /\
  connect_run sample_drawn st0 cl0 [] (take n sample_polls) = Some (Ok (st, cl)).
Proof.
  unfold sample_run. fold started. destruct started as [[st0 cl0]|e|]; [|discriminate..].
  intros Hrun. by exists st0, cl0.
Qed.

Lemma connect_run_reaches_witness : exists cl, reaches sample_drawn sample_client ConnectDone cl.
Proof.
  destruct (run_state_some _ _ handshake_done) as (cl & Hcl).
  destruct (sample_run_parts _ _ _ Hcl) as (st0 & cl0 & Hs & Hrun). exists cl.
  exact (connect_run_reaches sample_drawn local_addr [] _ 5 st0 cl0 _ ConnectDone cl 6 Hs Hrun).
Defined.

Definition two_bytes : list Z := replicate 63 0 ++ [2].
Definition modulus : list Z := replicate 63 0 ++ [35].

Lemma small_bytes z : is_u8 z -> bytes (replicate 63 0 ++ [z]).
Proof. intros Hz. apply Forall_app. split; [by apply Forall_replicate|by apply Forall_singleton]. Qed.

Lemma puzzle_solved_witness : exists y,
  solve_puzzle two_bytes modulus 3 = Ok y /\ length y = 64%nat /\ be_decode y 0 = 2 ^ 8 mod 35.
Proof.
  pose proof (puzzle_solved two_bytes modulus 3 (small_bytes 2 ltac:(done)) (small_bytes 35 ltac:(done))
    eq_refl ltac:(done)) as Hp.
  assert (be_decode modulus 0 = 35) as Em by (vm_compute; reflexivity). rewrite Em in Hp.
  assert (be_decode two_bytes 0 = 2) as Ex by (vm_compute; reflexivity). rewrite Ex in Hp.
  destruct Hp as (y & Hy & Hl & _ & Hv). exists y. split; [exact Hy|]. split; [exact Hl|exact Hv].
Defined.

(** A client whose key exchange is over. *)
Definition keyed_client : Connection :=
  set_params (Connection_new true local_addr [] 5) (Some (ConnectedParams_new (replicate 64 1) (replicate 8 2))).

(** A command packet from the server. *)
Definition from_server (name : string) (l : list item) : list Z :=
  layout_bytes (sample_layout 3 0x82) ++ byte_str name ++ items_text false l.

Lemma from_server_received name l : command_ok (byte_str name) l ->
  received keyed_client (from_server name l) (byte_str name) l.
Proof. intros Hl. exists (sample_layout 3 0x82). split; [by apply sample_layout_ok|]. by split. Qed.

Lemma initserver_connects_witness :
  handle_command keyed_client (from_server "initserver" [Arg (byte_str "virtualserver_name") (byte_str "s");
      Arg (byte_str "aclid") (to_dec 17)]) 8 =
    Ok (set_connection_state (set_params keyed_client (Some (set_c_id
      (ConnectedParams_new (replicate 64 1) (replicate 8 2)) 17))) Connected 8).
Proof.
  apply (initserver_connects keyed_client _ [Arg (byte_str "virtualserver_name") (byte_str "s")] [] 17 8).
  - done.
  - by apply Forall_singleton.
  - apply from_server_received. repeat split; try done. repeat constructor; try done; by left.
Defined.

Lemma clientleft_disconnects_witness :
  handle_command keyed_client (from_server "notifyclientleftview" [Arg (byte_str "clid") (to_dec 3);
      NextPart; Arg (byte_str "clid") (to_dec 0)]) 8 =
    Ok (set_connection_state keyed_client Disconnected 8).
Proof.
  rewrite (clientleft_disconnects keyed_client _ [Arg (byte_str "clid") (to_dec 3);
    NextPart; Arg (byte_str "clid") (to_dec 0)] 8).
  - reflexivity.
  - repeat constructor; [exists 3|exists 0]; by split.
  - by intros ps [= <-].
  - apply from_server_received. repeat split; try done. repeat constructor; try done; by left.
Defined.

Definition version_request : list item :=
  [Arg (byte_str "name") (byte_str "getversion"); Arg (byte_str "data") (byte_str "request");
   Arg (byte_str "invokerid") (to_dec 9)].

Lemma version_request_answered_witness : exists L, layout_type L = Some Command /\
  handle_command keyed_client (from_server "notifyplugincmd" version_request) 8 =
    res_bind (Client_send_packet keyed_client (layout_packet C2S L
      (byte_str "plugincmd" ++ items_text false (reply_items 9))) 8) (fun r => Ok (snd r)).
Proof.
  destruct (version_request_answered keyed_client (from_server "notifyplugincmd" version_request)
    version_request 8) as (L & _ & Ht & Heq).
  - repeat constructor; [done|done|]. exists 9. by split.
  - apply from_server_received. repeat split; try done. repeat constructor; try done; by left.
  - exists L. split; [exact Ht|exact Heq].
Defined.

Lemma sample_drawn_ok : drawn_ok sample_drawn.
Proof. split; [done|]. split; [by repeat (apply Forall_cons_2; [done|]); apply Forall_nil_2|done]. Qed.

Lemma sample_client_ready : client_ready WaitInit3 (con sample_client).
Proof.
  split; [apply connection_new_ok|]. split; [done|]. split; [|split; [done|done]].
  intros id [= <-]. done.
Qed.

(** A puzzle with the modulus 0. *)
Lemma connect_item_panics_witness :
  connect_item sample_drawn WaitInit3 sample_client
    (Item_S2CInit [] (Init3 two_bytes (replicate 64 0) 3 (replicate 100 1))) sample_now 6 = Panic.
Proof.
  apply (connect_item_panics sample_drawn WaitInit3 sample_client _ sample_now 6 sample_drawn_ok sample_client_ready).
  - split; [by apply small_bytes|]. split; [by apply Forall_replicate|]. split; [done|]. split; [done|].
    by apply Forall_replicate.
  - split; [done|]. vm_compute. reflexivity.
Defined.
