(* ===== verification/Resolver.v ===== *)
(** Resolving addresses ([tsclientlib/src/resolver.rs]): the text of an address, the order of the
    methods that are tried, and the choice among the records of a DNS answer.

    A stream is the list of what waiting for its next item gives: an item, or nothing ever, when a
    request to the network never gets its answer.  A timeout of the stream is an error item between
    the others, and errors are dropped, so timeouts leave no trace: they do not give up the request
    that is waited for.  What comes from the network is a parameter. *)
From stdpp Require Import strings.
From S2P Require Import Prelude Text Packets InitPackets Commands Ip Connection.
#[local] Open Scope Z_scope.

Definition DEFAULT_PORT : Z := 9987.
Definition DNS_PREFIX_TCP : list Z := byte_str "_tsdns._tcp.".
Definition DNS_PREFIX_UDP : list Z := byte_str "_ts3._udp.".

(** The errors; those of the libraries are dropped. *)
Inductive ResolveError :=
  | CreateResolver
  | InvalidIp4Address
  | InvalidIp6Address
  | InvalidIpAddress
  | InvalidNickname
  | InvalidPort
  | ResolveIo (what : string)
  | NicknameParseUrl
  | NicknameResolve
  | ResolveHost
  | SrvLookup
  | TsdnsAddressInvalidResponse (addr : list Z)
  | TsdnsAddressNotFound
  | TsdnsParseResponse.

Inductive ParseIpResult :=
  | ParsedAddr (a : SocketAddr)
  | ParsedOther (addr : list Z) (port : option Z).

Record Srv := { srv_priority : Z; srv_weight : Z; srv_port : Z; srv_target : list Z }.

(** What waiting for the network gives: an answer, or nothing ever. *)
Inductive answer (A : Type) :=
  | Answer (a : A)
  | Hung.
Arguments Answer {A} a.
Arguments Hung {A}.

(** The network and the resolvers: [to_socket_addrs] of the system on a text with a port and on a
    host with a port, the asynchronous [lookup_host], the DNS resolver with its configuration, the
    body of the answer of the nickname service, and the answer of a TSDNS server.  The asynchronous
    requests may hang.  The records of a DNS answer that are no SRV records are [None]. *)
Class Network := {
  to_socket_addrs : list Z -> option (list SocketAddr);
  to_socket_addrs_port : list Z -> Z -> option (list SocketAddr);
  lookup_host : list Z -> Z -> answer (option (list SocketAddr));
  NameServer : Type;
  ns_ip : NameServer -> IpAddr;
  ResolverOpts : Type;
  read_system_conf : option (list NameServer * ResolverOpts);
  cloudflare : list NameServer;
  default_opts : ResolverOpts;
  DnsResolver : Type;
  build_resolver : list NameServer -> ResolverOpts -> option DnsResolver;
  srv_lookup : DnsResolver -> list Z -> answer (option (list (option Srv)));
  nickname_body : list Z -> answer (res ResolveError (list Z));
  tsdns_answer : SocketAddr -> list Z -> answer (option (list Z));
}.

(** The addresses of a lookup have the port that was asked for.  The request does not panic.  The weight of an SRV record has 16
    bits, and an answer fits into a packet of 2^16 bytes.  Answers may hold other records than SRV
    records. *)
Class NetworkLaws `{Network} : Prop := {
  lookup_host_port host port l : lookup_host host port = Answer (Some l) -> Forall (fun a => sa_port a = port) l;
  nickname_body_returns name : nickname_body name <> Answer Panic;
  srv_lookup_size d name l : srv_lookup d name = Answer (Some l) -> Z.of_nat (length l) <= 2 ^ 16;
  srv_lookup_weight d name l e : srv_lookup d name = Answer (Some l) -> Some e ∈ l -> is_u16 (srv_weight e);
}.

(** [random_range(0..=hi)] of the random number generator. *)
Class Rng := { rng : Type; random_range : rng -> Z -> Z * rng }.
Class RngLaws `{Rng} : Prop := {
  random_range_bounds r hi : 0 <= hi -> 0 <= fst (random_range r hi) <= hi;
}.

(** * Addresses *)

(** [str::find] and [str::rfind] of an ASCII character. *)
Definition find_char (c : Z) (l : list Z) : option nat := fst <$> list_find (fun x => x = c) l.

Fixpoint rfind_char (c : Z) (l : list Z) : option nat :=
  match l with
  | [] => None
  | x :: l =>
      match rfind_char c l with
      | Some i => Some (S i)
      | None => if x =? c then Some 0%nat else None
      end
  end.

Definition digit_or_dot (c : Z) : bool := ((0x30 <=? c) && (c <=? 0x39)) || (c =? 0x2e).

Definition set_port (a : SocketAddr) (port : Z) : SocketAddr := {| sa_ip := sa_ip a; sa_port := port |}.

Section resolver.
Context `{Network}.

Definition first_addr (e : ResolveError) (l : option (list SocketAddr)) : res ResolveError ParseIpResult :=
  match l with
  | Some (a :: _) => Ok (ParsedAddr a)
  | _ => Err e
  end.

Definition parse_other (addr : list Z) (port : option (list Z)) : res ResolveError ParseIpResult :=
  match port with
  | None => Ok (ParsedOther addr None)
  | Some p =>
      match parse_uint 16 p with
      | Some p => Ok (ParsedOther addr (Some p))
      | None => Err InvalidPort
      end
  end.

Definition parse_ip (address : list Z) : res ResolveError ParseIpResult :=
  match rfind_char 0x3a address with
  | Some pos =>
      (* Either with port or IPv6 address *)
      if bool_decide (find_char 0x3a address = Some pos) then
        (* Port is appended *)
        let addr := take pos address in
        if forallb digit_or_dot addr
        then first_addr InvalidIp4Address (to_socket_addrs address)
        else parse_other addr (Some (drop (S pos) address))
      else
        match rfind_char 0x5d address with
        | Some pos_bracket =>
            if bool_decide (pos_bracket < pos)%nat then
              first_addr InvalidIp6Address (to_socket_addrs address)
            else if bool_decide (pos_bracket = length address - 1)%nat
                    && bool_decide (head address = Some 0x5b) then
              let? host := slice address 1 pos_bracket in
              first_addr InvalidIp6Address (to_socket_addrs_port host DEFAULT_PORT)
            else Err InvalidIpAddress
        | None => first_addr InvalidIp6Address (to_socket_addrs_port address DEFAULT_PORT)
        end
  | None =>
      if forallb digit_or_dot address
      then first_addr InvalidIp4Address (to_socket_addrs_port address DEFAULT_PORT)
      else parse_other address None
  end.

(** * The DNS resolver *)

Definition FILTERED_IPS : list IpAddr := [
  V6 [0xfec0; 0; 0; 0xffff; 0; 0; 0; 1];
  V6 [0xfec0; 0; 0; 0xffff; 0; 0; 0; 2];
  V6 [0xfec0; 0; 0; 0xffff; 0; 0; 0; 3]].

Definition create_resolver : res ResolveError DnsResolver :=
  let '(config, options) :=
    match read_system_conf with
    | Some (config, options) => (base.filter (fun ns => ns_ip ns ∉ FILTERED_IPS) config, options)
    | None => (cloudflare, default_opts)
    end in
  ok_or (build_resolver config options) CreateResolver.

(** * Streams *)

(** What waiting for the next item, or for another future, gives. *)
Definition item (A : Type) : Type := answer (res ResolveError A).
Definition stream : Type := list (item SocketAddr).

(** The [?] of an asynchronous block. *)
Definition item_bind {A B} (m : item A) (f : A -> item B) : item B :=
  match m with
  | Answer (Ok a) => f a
  | Answer (Err e) => Answer (Err e)
  | Answer Panic => Answer Panic
  | Hung => Hung
  end.

(** [request.await.map_err(|_| e)?] *)
Definition ask {A} (request : answer (option A)) (e : ResolveError) : item A :=
  match request with
  | Answer r => Answer (ok_or r e)
  | Hung => Hung
  end.

(** [stream::once(m).try_flatten()] *)
Definition flatten_once (m : item stream) : stream :=
  match m with
  | Answer (Ok s) => s
  | Answer (Err e) => [Answer (Err e)]
  | Answer Panic => [Answer Panic]
  | Hung => [Hung]
  end.

(** [s.and_then(f).try_flatten()] *)
Definition and_then_flatten {A} (s : list (item A)) (f : A -> item stream) : stream :=
  mjoin ((fun r => flatten_once (item_bind r f)) <$> s).

(** [s.and_then(f)] *)
Definition and_then (s : stream) (f : SocketAddr -> item SocketAddr) : stream := (fun r => item_bind r f) <$> s.

(** [stream::iter] of successes. *)
Definition oks {A} (l : list A) : list (item A) := (fun a => Answer (Ok a)) <$> l.

Definition found (l : answer (option (list SocketAddr))) : item stream :=
  item_bind (ask l ResolveHost) (fun l => Answer (Ok (oks l))).

(** * SRV records *)

(** [chunk_by(|srv| srv.priority)]: consecutive records of one priority. *)
Fixpoint chunk_by_priority (l : list Srv) : list (Z * list Srv) :=
  match l with
  | [] => []
  | x :: l =>
      match chunk_by_priority l with
      | (p, g) :: r => if srv_priority x =? p then (p, x :: g) :: r else (srv_priority x, [x]) :: (p, g) :: r
      | [] => [(srv_priority x, [x])]
      end
  end.

(** The stable [sorted_by_key(|(p, _)| *p)]. *)
Fixpoint insert_chunk (x : Z * list Srv) (l : list (Z * list Srv)) : list (Z * list Srv) :=
  match l with
  | [] => [x]
  | y :: r => if fst x <=? fst y then x :: y :: r else y :: insert_chunk x r
  end.

Definition sort_chunks (l : list (Z * list Srv)) : list (Z * list Srv) := foldr insert_chunk [] l.

Context `{Profile, Rng}.

(** [entries.iter().map(|e| e.weight as u32).sum()] *)
Fixpoint sum_weights (l : list Srv) (acc : Z) : res ResolveError Z :=
  match l with
  | [] => Ok acc
  | e :: l => let? acc := arith 32 (acc + srv_weight e) in sum_weights l acc
  end.

(** The loop that subtracts weights: the entry that is picked and the entries that are left. *)
Fixpoint pick (w : Z) (before entries : list Srv) : option (Srv * list Srv) :=
  match entries with
  | [] => None
  | e :: entries =>
      if w <=? srv_weight e then Some (e, before ++ entries)
      else pick (w - srv_weight e) (before ++ [e]) entries
  end.

(** The first entry with weight 0 and the entries that are left. *)
Fixpoint take_zero (before entries : list Srv) : option (Srv * list Srv) :=
  match entries with
  | [] => None
  | e :: entries =>
      if srv_weight e =? 0 then Some (e, before ++ entries) else take_zero (before ++ [e]) entries
  end.

Definition push_taken (t : option (Srv * list Srv)) (entries sorted : list Srv) : list Srv * list Srv :=
  match t with
  | Some (e, rest) => (rest, sorted ++ [e])
  | None => (entries, sorted)
  end.

(** [while !entries.is_empty()]; [None] when the fuel does not suffice. *)
Fixpoint weigh_loop (fuel : nat) (r : rng) (entries sorted : list Srv)
    : option (res ResolveError (list Srv * rng)) :=
  match entries, fuel with
  | [], _ => Some (Ok (sorted, r))
  | _, O => None
  | _, S fuel =>
      match sum_weights entries 0 with
      | Ok weight =>
          let '(w, r) := random_range r weight in
          let '(entries, sorted) :=
            if w =? 0 then push_taken (take_zero [] entries) entries sorted else (entries, sorted) in
          let '(entries, sorted) := push_taken (pick w [] entries) entries sorted in
          weigh_loop fuel r entries sorted
      | Err e => Some (Err e)
      | Panic => Some Panic
      end
  end.

(** The entries with weight 0 are moved to [zero_entries], which is not read again. *)
Definition nonzero (l : list Srv) : list Srv := base.filter (fun e => srv_weight e <> 0) l.

Fixpoint select_by_weight (chunks : list (Z * list Srv)) (r : rng) (sorted : list Srv)
    : option (res ResolveError (list Srv * rng)) :=
  match chunks with
  | [] => Some (Ok (sorted, r))
  | (_, es) :: chunks =>
      match weigh_loop (length es) r (nonzero es) sorted with
      | Some (Ok (sorted, r)) => select_by_weight chunks r sorted
      | m => m
      end
  end.

Definition order_srvs (srvs : list Srv) (r : rng) : option (res ResolveError (list Srv * rng)) :=
  select_by_weight (sort_chunks (chunk_by_priority srvs)) r [].

(** [let RData::SRV(srv) = &r.data else { panic!() }] *)
Definition srv_records (answers : list (option Srv)) : res ResolveError (list Srv) := unwrap (mapM id answers).

Definition resolve_srv (resolver : DnsResolver) (addr : list Z) (r : rng) : option stream :=
  match item_bind (ask (srv_lookup resolver addr) SrvLookup) (fun answers => Answer (srv_records answers)) with
  | Answer (Ok srvs) =>
      m ← order_srvs srvs r;
      Some (flatten_once (item_bind (Answer m) (fun '(sorted, _) =>
        Answer (Ok (and_then_flatten (oks sorted) (fun e => found (lookup_host (srv_target e) (srv_port e))))))))
  | Answer (Err e) => Some [Answer (Err e)]
  | Answer Panic => Some [Answer Panic]
  | Hung => Some [Hung]
  end.

(** * Nicknames and TSDNS *)

(** [split(&['\r', '\n'])] without empty pieces. *)
Fixpoint split_lines (l cur : list Z) : list (list Z) :=
  match l with
  | [] => if bool_decide (cur = []) then [] else [cur]
  | c :: l =>
      if (c =? 0x0d) || (c =? 0x0a) then (if bool_decide (cur = []) then [] else [cur]) ++ split_lines l []
      else split_lines l (cur ++ [c])
  end.

Definition nickname_addr (addr : list Z) : item stream :=
  item_bind (Answer (parse_ip addr)) (fun p =>
    match p with
    | ParsedAddr a => Answer (Ok [Answer (Ok a)])
    | ParsedOther a p => found (lookup_host a (default DEFAULT_PORT p))
    end).

Definition resolve_nickname (nickname : list Z) : stream :=
  flatten_once (item_bind (nickname_body nickname) (fun body =>
    Answer (Ok (and_then_flatten (oks (split_lines body [])) nickname_addr)))).

Definition read_tsdns (data : list Z) : res ResolveError SocketAddr :=
  if negb (utf8_valid data) then Err TsdnsParseResponse else
  if bool_decide (take 3 data = byte_str "404") then Err TsdnsAddressNotFound else
  let? p := parse_ip data in
  match p with
  | ParsedAddr a => Ok a
  | ParsedOther _ _ => Err (TsdnsAddressInvalidResponse data)
  end.

Definition resolve_tsdns (server : SocketAddr) (addr : list Z) : item SocketAddr :=
  item_bind (ask (tsdns_answer server addr) (ResolveIo "tsdns")) (fun data => Answer (read_tsdns data)).

(** * Resolving *)

Definition overwrite_port (port : option Z) (a : SocketAddr) : SocketAddr :=
  match port with
  | Some p => set_port a p
  | None => a
  end.

(** The last two components of a domain. *)
Definition tsdns_domain (addr : list Z) : list Z :=
  match (i ← rfind_char 0x2e addr; rfind_char 0x2e (take i addr)) with
  | Some i => drop (S i) addr
  | None => addr
  end.

Definition nickname_step (address addr : list Z) (port : option Z) : stream :=
  if bool_decide (0x2e ∉ address) && negb (bool_decide (addr = byte_str "localhost")) then
    and_then (resolve_nickname address) (fun a => Answer (Ok (overwrite_port port a)))
  else [Answer (Err InvalidNickname)].

Definition srv_step (addr : list Z) (r : rng) : option stream :=
  match create_resolver with
  | Ok resolver => resolve_srv resolver (DNS_PREFIX_UDP ++ addr ++ byte_str ".") r
  | Err e => Some [Answer (Err e)]
  | Panic => Some [Answer Panic]
  end.

Definition tsdns_step (address addr : list Z) (port : option Z) (r : rng) : option stream :=
  match create_resolver with
  | Ok resolver =>
      s ← resolve_srv resolver (DNS_PREFIX_TCP ++ tsdns_domain addr ++ byte_str ".") r;
      Some (and_then s (fun srv =>
        item_bind (resolve_tsdns srv address) (fun a => Answer (Ok (overwrite_port port a)))))
  | Err e => Some [Answer (Err e)]
  | Panic => Some [Answer Panic]
  end.

Definition host_step (addr : list Z) (port : option Z) : stream :=
  flatten_once (found (lookup_host addr (default DEFAULT_PORT port))).

(** The filter behind the timeout: errors are dropped; behind a panic, and behind a request that never
    gets its answer, nothing follows. *)
Fixpoint successes (s : stream) : stream :=
  match s with
  | [] => []
  | Answer (Ok a) :: s => Answer (Ok a) :: successes s
  | Answer (Err _) :: s => successes s
  | Answer Panic :: _ => [Answer Panic]
  | Hung :: _ => [Hung]
  end.

(** The two queries for SRV records draw from [r1] and [r2]. *)
Definition resolve (address : list Z) (r1 r2 : rng) : option stream :=
  match parse_ip address with
  | Ok (ParsedAddr a) => Some [Answer (Ok a)]
  | Err e => Some [Answer (Err e)]
  | Panic => Some [Answer Panic]
  | Ok (ParsedOther addr port) =>
      srv ← srv_step addr r1;
      tsdns ← tsdns_step address addr port r2;
      Some (successes (nickname_step address addr port ++ srv ++ tsdns ++ host_step addr port))
  end.
End resolver.
