(* ===== verification/ResolverSpec.v ===== *)
(** What resolving returns: the order of SRV records is by priority and drops the records of weight
    0; texts of addresses are read back; the results of the methods and their ports. *)
From stdpp Require Import strings sorting.
From S2P Require Import Prelude Text Packets InitPackets Commands Ip Connection Resolver.
#[local] Open Scope Z_scope.

(** * Sorting *)

Lemma chunks_concat l : mjoin (snd <$> chunk_by_priority l) = l.
Proof.
  induction l as [|x l IH]; [done|]. cbn [chunk_by_priority].
  destruct (chunk_by_priority l) as [|[p g] r]; [by rewrite <- IH|].
  destruct (srv_priority x =? p); rewrite <- IH; done.
Qed.

Definition chunk_ok (c : Z * list Srv) : Prop := Forall (fun e => srv_priority e = fst c) (snd c).

Lemma chunks_ok l : Forall chunk_ok (chunk_by_priority l).
Proof.
  induction l as [|x l IH]; [constructor|]. cbn [chunk_by_priority].
  assert (chunk_ok (srv_priority x, [x])) as Hx by by apply Forall_singleton.
  destruct (chunk_by_priority l) as [|[p g] r]; [by constructor|].
  destruct (Z.eqb_spec (srv_priority x) p) as [Hp|Hp]; [|by constructor].
  apply Forall_cons in IH as [Hg Hr]. constructor; [|done]. by constructor.
Qed.

Definition chunk_le (a b : Z * list Srv) : Prop := fst a <= fst b.

Lemma insert_chunk_perm x l : insert_chunk x l ≡ₚ x :: l.
Proof.
  induction l as [|y l IH]; [done|]. cbn [insert_chunk]. destruct (_ <=? _); [done|].
  rewrite IH. constructor.
Qed.

Lemma insert_chunk_sorted x l : StronglySorted chunk_le l -> StronglySorted chunk_le (insert_chunk x l).
Proof.
  induction 1 as [|y l Hl IH Hy]; [by repeat constructor|]. cbn [insert_chunk].
  destruct (Z.leb_spec (fst x) (fst y)) as [Hle|Hlt].
  - constructor; [by constructor|]. constructor; [done|].
    eapply Forall_impl; [exact Hy|]. unfold chunk_le. intros z Hz. lia.
  - constructor; [done|]. rewrite insert_chunk_perm. constructor; [unfold chunk_le; lia|done].
Qed.

Lemma sort_chunks_spec l : sort_chunks l ≡ₚ l /\ StronglySorted chunk_le (sort_chunks l).
Proof.
  induction l as [|x l [IHp IHs]]; [by split; constructor|]. cbn [sort_chunks foldr].
  split; [by rewrite insert_chunk_perm, IHp|by apply insert_chunk_sorted].
Qed.

(** * The weighted choice *)

Definition total_weight (l : list Srv) : Z := foldr (fun e => Z.add (srv_weight e)) 0 l.

Definition weighed (e : Srv) : Prop := is_u16 (srv_weight e) /\ srv_weight e <> 0.

Lemma total_weight_bound l : Forall weighed l -> 0 <= total_weight l <= 65535 * Z.of_nat (length l).
Proof.
  induction 1 as [|e l [He _] _ IH]; [done|]. cbn [total_weight foldr length].
  fold (total_weight l). unfold is_uint in He. lia.
Qed.

Section order.
Context `{Profile, RngLaws}.

Lemma sum_weights_total l acc : Forall weighed l -> 0 <= acc -> is_u32 (acc + total_weight l) ->
  sum_weights l acc = Ok (acc + total_weight l).
Proof.
  intros Hl. revert acc. induction Hl as [|e l He Hl IH]; intros acc Hacc Hu; cbn [sum_weights total_weight foldr] in *.
  { by rewrite Z.add_0_r. }
  fold (total_weight l) in *. pose proof (total_weight_bound l Hl). destruct He as [He _]. unfold is_uint in *.
  rewrite arith_ok by (unfold is_uint; lia). cbn [res_bind]. rewrite IH by (unfold is_uint; lia). f_equal. lia.
Qed.

(** A draw up to the total weight picks an entry. *)
Lemma pick_some entries : forall w before, Forall weighed entries -> entries <> [] -> w <= total_weight entries ->
  exists a e b, entries = a ++ e :: b /\ pick w before entries = Some (e, before ++ a ++ b).
Proof.
  induction entries as [|e entries IH]; intros w before Hall Hne Hw; [done|].
  apply Forall_cons in Hall as [He Hall]. cbn [pick total_weight foldr] in *. fold (total_weight entries) in Hw.
  destruct (Z.leb_spec w (srv_weight e)); [by exists [], e, entries|].
  destruct entries as [|e' entries]; [simpl in Hw; lia|].
  destruct (IH (w - srv_weight e) (before ++ [e]) Hall) as (a & x & b & -> & ->); [done|lia|].
  exists (e :: a), x, b. split; [done|]. by rewrite <- app_assoc.
Qed.

Lemma take_zero_none entries : forall before, Forall weighed entries -> take_zero before entries = None.
Proof.
  induction entries as [|e entries IH]; intros before Hall; [done|].
  apply Forall_cons in Hall as [[_ He] Hall]. cbn [take_zero]. destruct (Z.eqb_spec (srv_weight e) 0); [done|].
  by apply IH.
Qed.

Lemma weigh_loop_spec fuel : forall r entries sorted, Forall weighed entries ->
  (length entries <= fuel)%nat -> Z.of_nat (length entries) <= 2 ^ 16 ->
  exists picked r', weigh_loop fuel r entries sorted = Some (Ok (sorted ++ picked, r')) /\ picked ≡ₚ entries.
Proof.
  induction fuel as [|fuel IH]; intros r [|e0 rest] sorted Hall Hf Hlen; try (simpl in Hf; lia);
    try (exists [], r; by rewrite app_nil_r).
  set (entries := e0 :: rest) in *. change (weigh_loop (S fuel) r entries sorted) with
    (match sum_weights entries 0 with
      | Ok weight =>
          let '(w, r) := random_range r weight in
          let '(entries, sorted) :=
            if w =? 0 then push_taken (take_zero [] entries) entries sorted else (entries, sorted) in
          let '(entries, sorted) := push_taken (pick w [] entries) entries sorted in
          weigh_loop fuel r entries sorted
      | Err e => Some (Err e)
      | Panic => Some Panic
      end).
  pose proof (total_weight_bound entries Hall) as Hb.
  rewrite sum_weights_total by (try done; unfold is_uint; lia). rewrite Z.add_0_l.
  pose proof (random_range_bounds r (total_weight entries)) as Hr.
  destruct (random_range r (total_weight entries)) as [w r1]. cbn [fst] in Hr.
  rewrite take_zero_none by done. cbn [push_taken].
  replace (if w =? 0 then (entries, sorted) else (entries, sorted)) with (entries, sorted) by by destruct (w =? 0).
  destruct (pick_some entries w [] Hall) as (a & e & b & He & Hp); [done|lia|].
  rewrite Hp. cbn [push_taken app]. rewrite He in *.
  apply Forall_app in Hall as [Ha Hall]. apply Forall_cons in Hall as [_ Hb'].
  rewrite length_app in *. cbn [length] in *.
  destruct (IH r1 (a ++ b) (sorted ++ [e])) as (picked & r2 & -> & Hperm).
  - by apply Forall_app.
  - rewrite length_app. lia.
  - rewrite length_app. lia.
  - exists (e :: picked), r2. rewrite <- app_assoc. split; [done|].
    rewrite Hperm. by rewrite Permutation_middle.
Qed.

Lemma nonzero_weighed l : Forall (fun e => is_u16 (srv_weight e)) l -> Forall weighed (nonzero l).
Proof.
  intros Hl. apply Forall_forall. intros e He. unfold nonzero in He. apply list_elem_of_filter in He as [Hz He].
  split; [by eapply Forall_forall in Hl|done].
Qed.

Definition srv_le (a b : Srv) : Prop := srv_priority a <= srv_priority b.

Lemma same_priority_sorted p l : Forall (fun e => srv_priority e = p) l -> StronglySorted srv_le l.
Proof.
  induction 1 as [|e l He Hl IH]; constructor; [done|].
  eapply Forall_impl; [exact Hl|]. unfold srv_le. intros x Hx. lia.
Qed.

Definition small_chunk (c : Z * list Srv) : Prop :=
  Forall (fun e => is_u16 (srv_weight e)) (snd c) /\ Z.of_nat (length (snd c)) <= 2 ^ 16.

Lemma select_spec chunks : forall r sorted, Forall chunk_ok chunks -> Forall small_chunk chunks ->
  StronglySorted chunk_le chunks ->
  exists l r', select_by_weight chunks r sorted = Some (Ok (sorted ++ l, r')) /\
    l ≡ₚ nonzero (mjoin (snd <$> chunks)) /\ StronglySorted srv_le l.
Proof.
  induction chunks as [|[p es] chunks IH]; intros r sorted Hok Hsm Hs; cbn [select_by_weight].
  { exists [], r. rewrite app_nil_r. split; [done|]. split; [done|constructor]. }
  apply Forall_cons in Hok as [Hp Hok]. apply Forall_cons in Hsm as [[Hw Hlen] Hsm]. cbn [fst snd] in *.
  apply StronglySorted_cons in Hs as [Hle Hs].
  destruct (weigh_loop_spec (length es) r (nonzero es) sorted) as (picked & r1 & -> & Hpick).
  - by apply nonzero_weighed.
  - apply length_filter.
  - pose proof (length_filter (fun e => srv_weight e <> 0) es). unfold nonzero. lia.
  - destruct (IH r1 (sorted ++ picked) Hok Hsm Hs) as (l & r2 & -> & Hl & Hsort).
    exists (picked ++ l), r2. rewrite <- app_assoc. split; [done|].
    rewrite fmap_cons. cbn [mjoin list_join]. unfold nonzero. rewrite filter_app.
    split; [by rewrite Hpick, Hl|]. apply StronglySorted_app. split; [|split; [|done]].
    + intros x y Hx Hy. rewrite Hpick in Hx. apply list_elem_of_filter in Hx as [_ Hx].
      rewrite Hl in Hy. apply list_elem_of_filter in Hy as [_ Hy].
      apply list_elem_of_join in Hy as (g & Hy & Hg). apply list_elem_of_fmap in Hg as (c & -> & Hc).
      unfold chunk_ok in Hp. cbn [fst snd] in Hp.
      eapply Forall_forall in Hp; [|exact Hx]. eapply Forall_forall in Hok; [|exact Hc].
      eapply Forall_forall in Hok; [|exact Hy]. eapply Forall_forall in Hle; [|exact Hc].
      unfold srv_le, chunk_le in *. cbn [fst] in Hle. lia.
    + apply (same_priority_sorted p). rewrite Hpick. apply Forall_forall. intros x Hx.
      apply list_elem_of_filter in Hx as [_ Hx]. by eapply Forall_forall in Hp.
Qed.

Lemma order_srvs_ok srvs r : Z.of_nat (length srvs) <= 2 ^ 16 ->
  Forall (fun e => is_u16 (srv_weight e)) srvs ->
  exists l r', order_srvs srvs r = Some (Ok (l, r')) /\ l ≡ₚ nonzero srvs /\ StronglySorted srv_le l.
Proof.
  intros Hlen Hw. unfold order_srvs. destruct (sort_chunks_spec (chunk_by_priority srvs)) as [Hperm Hsort].
  assert (Forall small_chunk (chunk_by_priority srvs)) as Hsm.
  { apply Forall_forall. intros c Hc.
    assert (exists a b, srvs = a ++ snd c ++ b) as (a & b & ->).
    { rewrite <- (chunks_concat srvs). apply list_elem_of_split in Hc as (a & b & ->).
      rewrite fmap_app, join_app, fmap_cons. by eexists _, _. }
    apply Forall_app in Hw as [_ Hw]. apply Forall_app in Hw as [Hw _].
    rewrite !length_app in Hlen. split; [done|lia]. }
  destruct (select_spec (sort_chunks (chunk_by_priority srvs)) r []) as (l & r' & Hsel & Hl & Hs).
  - rewrite Hperm. apply chunks_ok.
  - by rewrite Hperm.
  - done.
  - exists l, r'. split; [done|]. split; [|done]. rewrite Hl. unfold nonzero. apply filter_Permutation.
    by rewrite Hperm, chunks_concat.
Qed.

(** For every answer and every sequence of random numbers, the choice among SRV records ends;
    it yields the records of nonzero weight, each once, in the order of their priority.  Records of
    weight zero are lost. *)
Theorem srv_order (srvs : list Srv) (r : rng) (Hlen : Z.of_nat (length srvs) <= 2 ^ 16)
    (Hw : Forall (fun e => is_u16 (srv_weight e)) srvs) :
  exists l r', order_srvs srvs r = Some (Ok (l, r')) /\
    l ≡ₚ base.filter (fun e => srv_weight e <> 0) srvs /\ StronglySorted srv_le l.
Proof. exact (order_srvs_ok srvs r Hlen Hw). Qed.
End order.

(** * Texts of addresses *)

Lemma rfind_none c l : c ∉ l -> rfind_char c l = None.
Proof.
  induction l as [|x l IH]; [done|]. rewrite not_elem_of_cons. intros [Hx Hl]. cbn [rfind_char].
  rewrite IH by done. destruct (Z.eqb_spec x c); [by subst|done].
Qed.

Lemma rfind_last c a b : c ∉ b -> rfind_char c (a ++ c :: b) = Some (length a).
Proof.
  intros Hb. induction a as [|x a IH]; cbn [app rfind_char].
  - rewrite rfind_none by done. by rewrite Z.eqb_refl.
  - by rewrite IH.
Qed.

Lemma find_first c a b : c ∉ a -> find_char c (a ++ c :: b) = Some (length a).
Proof.
  intros Ha. unfold find_char. induction a as [|x a IH]; cbn [app list_find].
  - by rewrite decide_True.
  - apply not_elem_of_cons in Ha as [Hx Ha]. rewrite decide_False by done.
    specialize (IH Ha). destruct (list_find _ (a ++ c :: b)) as [[i y]|]; [|done].
    simpl in *. by injection IH as ->.
Qed.

(** Two colons: the first one is not the last one. *)
Definition two_colons (l : list Z) : Prop := exists a b c, l = a ++ 0x3a :: b ++ 0x3a :: c.

Lemma two_colons_spec l : two_colons l -> exists pos, rfind_char 0x3a l = Some pos /\ find_char 0x3a l <> Some pos.
Proof.
  intros (a & b & c & ->).
  assert (exists i, rfind_char 0x3a (b ++ 0x3a :: c) = Some i) as [i Hi].
  { clear. induction b as [|x b [i IH]]; cbn [app rfind_char].
    - destruct (rfind_char 0x3a c); eauto.
    - rewrite IH. eauto. }
  exists (length a + S i)%nat. split.
  - induction a as [|y a IH]; cbn [app rfind_char]; [by rewrite Hi|by rewrite IH].
  - unfold find_char. intros Hf. destruct (list_find _ _) as [[j y]|] eqn:Hl; [|done].
    injection Hf as ->. apply list_find_Some in Hl as (_ & _ & Hmin).
    apply (Hmin (length a) 0x3a); [by rewrite lookup_app_r, Nat.sub_diag|lia|done].
Qed.

Lemma two_colons_app l r : two_colons l -> two_colons (l ++ r).
Proof. intros (a & b & c & ->). exists a, b, (c ++ r). by rewrite <- !app_assoc, <- !app_comm_cons, <- app_assoc. Qed.

Lemma two_colons_prefix l r : two_colons r -> two_colons (l ++ r).
Proof. intros (a & b & c & ->). exists (l ++ a), b, c. by rewrite <- app_assoc. Qed.

(** The text of an IPv6 address. *)
Lemma ip6_two_colons s : length s = 8%nat -> two_colons (ip_to_string (V6 s)).
Proof.
  intros Hs. unfold ip_to_string.
  assert (two_colons (let '(start, len) := zero_runs s 0 (0%nat, 0%nat) (0%nat, 0%nat) in
          if bool_decide (1 < len)%nat
          then join colon (map to_hex16 (take start s)) ++ byte_str "::"
               ++ join colon (map to_hex16 (drop (start + len) s))
          else join colon (map to_hex16 s))) as Hgen.
  { destruct (zero_runs _ _ _ _) as [start len]. case_bool_decide.
    - exists (join colon (map to_hex16 (take start s))), [], (join colon (map to_hex16 (drop (start + len) s))). done.
    - destruct s as [|x [|y [|z s]]]; try done. cbn [map join].
      exists (to_hex16 x), (to_hex16 y). by eexists. }
  assert (forall t, two_colons (byte_str "::ffff:" ++ t)) as Hmapped
    by (intros t; apply two_colons_app; by exists [], [], (byte_str "ffff:")).
  repeat (case_match; subst; try exact Hgen; try apply Hmapped).
Qed.


Lemma not_in_text c ip : ip_ok ip -> ~ addr_char c -> c ∉ ip_to_string ip.
Proof. intros Hip Hc Hin. apply Hc. eapply Forall_forall in Hin; [exact Hin|by apply ip_text_chars]. Qed.

Lemma not_in_dec c z : 0 <= z -> ~ (0x30 <= c <= 0x39) -> c ∉ to_dec z.
Proof. intros Hz Hc Hin. apply Hc. eapply Forall_forall in Hin; [exact Hin|by apply dec_chars]. Qed.

(** What can be written as an address. *)
Inductive Target :=
  | TargetHost (host : list Z) (port : option Z)
  | TargetSocket (a : SocketAddr)
  | TargetIp (ip : list Z)
  | TargetBrackets (ip : list Z).

Definition socket_text (a : SocketAddr) : list Z :=
  let ip := ip_to_string (ip_of_bytes (sa_ip a)) in
  (if bool_decide (length (sa_ip a) = 4%nat) then ip else ([0x5b] ++ ip ++ [0x5d]))
  ++ [0x3a] ++ to_dec (sa_port a).

Definition target_text (t : Target) : list Z :=
  match t with
  | TargetHost h None => h
  | TargetHost h (Some p) => h ++ [0x3a] ++ to_dec p
  | TargetSocket a => socket_text a
  | TargetIp ip => ip_to_string (ip_of_bytes ip)
  | TargetBrackets ip => [0x5b] ++ ip_to_string (ip_of_bytes ip) ++ [0x5d]
  end.

Definition default_socket (ip : list Z) : SocketAddr := {| sa_ip := ip; sa_port := DEFAULT_PORT |}.

Definition target_result (t : Target) : ParseIpResult :=
  match t with
  | TargetHost h p => ParsedOther h p
  | TargetSocket a => ParsedAddr a
  | TargetIp ip | TargetBrackets ip => ParsedAddr (default_socket ip)
  end.

Definition ip_bytes_ok (ip : list Z) : Prop :=
  bytes ip /\ (length ip = 4%nat \/ length ip = 16%nat).

Definition target_ok (t : Target) : Prop :=
  match t with
  | TargetHost h p => (0x3a ∉ h) /\ forallb digit_or_dot h = false /\
      match p with Some p => is_u16 p | None => True end
  | TargetSocket a => ip_bytes_ok (sa_ip a) /\ is_u16 (sa_port a)
  | TargetIp ip => ip_bytes_ok ip
  | TargetBrackets ip => ip_bytes_ok ip /\ length ip = 16%nat
  end.

(** The system reads the text of an address. *)
Definition system_reads `{Network} (t : Target) : Prop :=
  match t with
  | TargetHost _ _ => True
  | TargetSocket a => to_socket_addrs (socket_text a) = Some [a]
  | TargetIp ip | TargetBrackets ip =>
      to_socket_addrs_port (ip_to_string (ip_of_bytes ip)) DEFAULT_PORT = Some [default_socket ip]
  end.

Lemma ip_of_bytes_ok ip : ip_bytes_ok ip ->
  ip_ok (ip_of_bytes ip) /\
  if bool_decide (length ip = 4%nat)
  then forallb digit_or_dot (ip_to_string (ip_of_bytes ip)) = true /\
       0x3a ∉ ip_to_string (ip_of_bytes ip)
  else two_colons (ip_to_string (ip_of_bytes ip)).
Proof.
  intros [Hb Hl]. case_bool_decide as H4.
  - destruct ip as [|a [|b [|c [|d [|]]]]]; try done. cbn [ip_of_bytes ip_to_string].
    assert (ip_ok (V4 a b c d)) as Hok.
    { do 4 (apply Forall_cons_1 in Hb as [[? _] Hb]). done. }
    split; [done|]. split.
    + apply forallb_forall. intros x Hx. apply list_elem_of_In in Hx.
      eapply Forall_forall in Hx; [|by apply v4_chars]. unfold digit_or_dot. simpl in Hx. lia.
    + intros Hx. eapply Forall_forall in Hx; [|by apply v4_chars]. simpl in Hx. lia.
  - destruct Hl as [|Hl]; [done|]. do 16 (destruct ip as [|? ip]; [done|]). destruct ip; [|done].
    cbn [ip_of_bytes segments_of]. split; [|by apply ip6_two_colons].
    do 16 (apply Forall_cons_1 in Hb as [[? _] Hb]). repeat apply Forall_cons_2; try apply Forall_nil_2; lia.
Qed.

Section addresses.
Context `{Network}.

Lemma parse_ip_two_colons l : two_colons l ->
  exists pos, rfind_char 0x3a l = Some pos /\ parse_ip l =
    match rfind_char 0x5d l with
    | Some pos_bracket =>
        if bool_decide (pos_bracket < pos)%nat then
          first_addr InvalidIp6Address (to_socket_addrs l)
        else if bool_decide (pos_bracket = length l - 1)%nat
                && bool_decide (head l = Some 0x5b) then
          let? host := slice l 1 pos_bracket in
          first_addr InvalidIp6Address (to_socket_addrs_port host DEFAULT_PORT)
        else Err InvalidIpAddress
    | None => first_addr InvalidIp6Address (to_socket_addrs_port l DEFAULT_PORT)
    end.
Proof.
  intros Hl. destruct (two_colons_spec l Hl) as (pos & Hr & Hf). exists pos. split; [done|].
  unfold parse_ip. rewrite Hr. by rewrite bool_decide_false.
Qed.

Lemma parse_ip_one_colon h p : 0x3a ∉ h -> 0x3a ∉ p ->
  parse_ip (h ++ [0x3a] ++ p) =
    if forallb digit_or_dot h then first_addr InvalidIp4Address (to_socket_addrs (h ++ [0x3a] ++ p))
    else parse_other h (Some p).
Proof.
  intros Hh Hp. unfold parse_ip. cbn [app]. rewrite rfind_last, find_first by done.
  rewrite bool_decide_true by done. rewrite take_app_length.
  replace (drop (S (length h)) (h ++ 0x3a :: p)) with p; [done|].
  by rewrite drop_app_ge, Nat.sub_succ_l, Nat.sub_diag by lia.
Qed.
End addresses.

Section roundtrip.
Context `{Network}.

Lemma read_host h port : target_ok (TargetHost h port) ->
  parse_ip (target_text (TargetHost h port)) = Ok (ParsedOther h port).
Proof.
  intros (Hh & Hd & Hp). destruct port as [p|]; cbn [target_text].
  - rewrite parse_ip_one_colon by first [done|apply not_in_dec; [apply Hp|lia]].
    rewrite Hd. unfold parse_other. by rewrite parse_to_dec.
  - unfold parse_ip. rewrite rfind_none by done. by rewrite Hd.
Qed.

Lemma read_socket a : target_ok (TargetSocket a) -> system_reads (TargetSocket a) ->
  parse_ip (socket_text a) = Ok (ParsedAddr a).
Proof.
  intros [Hip Hp] Hs. cbn [system_reads] in Hs. destruct (ip_of_bytes_ok _ Hip) as [Hok Htext].
  assert (forall c, ~ (0x30 <= c <= 0x39) -> c ∉ to_dec (sa_port a)) as Hdec
    by (intros c; apply not_in_dec, Hp).
  unfold socket_text in *. case_bool_decide as H4.
  - destruct Htext as [Hd Hc]. rewrite parse_ip_one_colon by first [done|apply Hdec; lia].
    by rewrite Hd, Hs.
  - set (t := ip_to_string _) in *.
    assert (two_colons (([0x5b] ++ t ++ [0x5d]) ++ [0x3a] ++ to_dec (sa_port a))) as Htwo
      by by apply two_colons_app, two_colons_prefix, two_colons_app.
    destruct (parse_ip_two_colons _ Htwo) as (pos & Hpos & ->).
    change ([0x3a] ++ to_dec (sa_port a)) with (0x3a :: to_dec (sa_port a)) in *.
    rewrite rfind_last in Hpos by (apply Hdec; lia). injection Hpos as <-.
    assert (rfind_char 0x5d (([0x5b] ++ t ++ [0x5d]) ++ 0x3a :: to_dec (sa_port a)) = Some (length (0x5b :: t)))
      as ->.
    { rewrite <- (rfind_last 0x5d (0x5b :: t) (0x3a :: to_dec (sa_port a)))
        by (rewrite not_elem_of_cons; split; [lia|apply Hdec; lia]).
      f_equal. cbn [app]. by rewrite <- app_assoc. }
    rewrite bool_decide_true by (rewrite !length_app; simpl; lia). by rewrite Hs.
Qed.

Lemma read_ip ip : target_ok (TargetIp ip) -> system_reads (TargetIp ip) ->
  parse_ip (ip_to_string (ip_of_bytes ip)) = Ok (ParsedAddr (default_socket ip)).
Proof.
  intros Hip Hs. cbn [system_reads] in Hs. destruct (ip_of_bytes_ok _ Hip) as [Hok Htext].
  case_bool_decide.
  - destruct Htext as [Hd Hc]. unfold parse_ip. rewrite rfind_none by done. by rewrite Hd, Hs.
  - destruct (parse_ip_two_colons _ Htext) as (pos & _ & ->).
    rewrite rfind_none by (apply not_in_text; [done|unfold addr_char; lia]). by rewrite Hs.
Qed.

Lemma read_brackets ip : target_ok (TargetBrackets ip) -> system_reads (TargetBrackets ip) ->
  parse_ip (target_text (TargetBrackets ip)) = Ok (ParsedAddr (default_socket ip)).
Proof.
  intros [Hip Hl] Hs. cbn [system_reads target_text] in *. destruct (ip_of_bytes_ok _ Hip) as [Hok Htext].
  rewrite bool_decide_false in Htext by lia. set (t := ip_to_string _) in *.
  assert (two_colons ([0x5b] ++ t ++ [0x5d])) as Htwo by by apply two_colons_prefix, two_colons_app.
  destruct (parse_ip_two_colons _ Htwo) as (pos & Hpos & ->).
  change ([0x5b] ++ t ++ [0x5d]) with ((0x5b :: t) ++ 0x5d :: []) in *.
  rewrite rfind_last by apply not_elem_of_nil.
  assert ((pos < S (length t))%nat) as Hlt.
  { assert (forall l r i, 0x3a ∉ r -> rfind_char 0x3a (l ++ r) = Some i -> (i < length l)%nat) as Hgen.
    { induction l as [|x l IH]; intros r i Hr; cbn [app rfind_char length]; [by rewrite rfind_none|].
      destruct (rfind_char 0x3a (l ++ r)) as [j|] eqn:Hj.
      - intros [= <-]. specialize (IH r j Hr Hj). lia.
      - destruct (x =? 0x3a); [|done]. intros [= <-]. lia. }
    apply (Hgen (0x5b :: t) [0x5d]); [|done]. apply not_elem_of_cons. split; [done|apply not_elem_of_nil]. }
  rewrite bool_decide_false by (simpl; lia).
  rewrite bool_decide_true by (rewrite length_app; simpl; lia). rewrite bool_decide_true by done. cbn [andb].
  rewrite slice_ok by (rewrite ?length_app; simpl; lia).
  change (drop 1 ((0x5b :: t) ++ [0x5d])) with (t ++ [0x5d]).
  assert (forall (x : Z) (l : list Z), (length (x :: l) - 1)%nat = length l) as -> by (intros; simpl; lia).
  rewrite take_app_length. cbn [res_bind]. by rewrite Hs.
Qed.

(** The text of an address is read back: host names with and without a port, sockets, IPv4
    and IPv6 addresses with the default port, with and without brackets. *)
Theorem parse_ip_roundtrip (t : Target) (Ht : target_ok t) (Hs : system_reads t) :
  parse_ip (target_text t) = Ok (target_result t).
Proof.
  destruct t as [h p|a|ip|ip].
  - by apply read_host.
  - by apply read_socket.
  - by apply read_ip.
  - by apply read_brackets.
Qed.
End roundtrip.

(** * Resolving *)

Section resolve.
Context `{NetworkLaws, Profile, RngLaws}.

Lemma first_addr_returns e l : first_addr e l <> Panic.
Proof. by destruct l as [[|]|]. Qed.

Lemma parse_other_returns h p : parse_other h p <> Panic.
Proof. destruct p as [p|]; [|done]. cbn [parse_other]. by destruct (parse_uint 16 p). Qed.

Lemma rfind_lookup c l i : rfind_char c l = Some i -> l !! i = Some c.
Proof.
  revert i. induction l as [|x l IH]; intros i Hi; [done|]. cbn [rfind_char] in Hi.
  destruct (rfind_char c l) as [j|]; [injection Hi as <-; by apply IH|].
  destruct (Z.eqb_spec x c) as [->|]; [|done]. by injection Hi as <-.
Qed.

Lemma parse_ip_returns l : parse_ip l <> Panic.
Proof.
  unfold parse_ip. destruct (rfind_char 0x3a l) as [pos|]; [|destruct (forallb _ _); [apply first_addr_returns|apply parse_other_returns]].
  case_bool_decide; [destruct (forallb _ _); [apply first_addr_returns|apply parse_other_returns]|].
  destruct (rfind_char 0x5d l) as [b|] eqn:Hb; [|apply first_addr_returns].
  case_bool_decide; [apply first_addr_returns|]. destruct (_ && _) eqn:Hc; [|done].
  apply andb_true_iff in Hc as [Hlen Hhead]. apply bool_decide_eq_true in Hlen, Hhead.
  apply rfind_lookup in Hb. destruct l as [|x l]; [done|]. injection Hhead as ->.
  destruct b as [|b]; [done|]. simpl in Hlen.
  rewrite slice_ok by (simpl; lia). apply first_addr_returns.
Qed.

(** A stream stops early only where a request never gets its answer and where a DNS answer has
    a record that is no SRV record. *)
Definition hangs : Prop :=
  (exists host port, lookup_host host port = Hung) \/ (exists name, nickname_body name = Hung) \/
  (exists d name, srv_lookup d name = Hung) \/ (exists server addr, tsdns_answer server addr = Hung).

Definition unexpected_answer : Prop := exists d name answers, srv_lookup d name = Answer (Some answers) /\ None ∈ answers.

Definition fine {A} (r : item A) : Prop :=
  match r with Answer Panic => unexpected_answer | Hung => hangs | _ => True end.

(** Only requests that hang stop these. *)
Definition calm {A} (r : item A) : Prop :=
  match r with Answer Panic => False | Hung => hangs | _ => True end.

Lemma calm_fine {A} (r : item A) : calm r -> fine r.
Proof. by destruct r as [[]|]. Qed.

Lemma calm_bind {A B} (m : item A) (f : A -> item B) :
  calm m -> (forall a, calm (f a)) -> calm (item_bind m f).
Proof. destruct m as [[]|]; intros Hm Hf; [apply Hf|..]; done. Qed.

Lemma fine_flatten (m : item stream) : fine m -> (forall s, m = Answer (Ok s) -> Forall fine s) -> Forall fine (flatten_once m).
Proof. destruct m as [[s|e|]|]; intros Hm Hs; [by apply Hs|..]; by apply Forall_singleton. Qed.

Lemma fine_and_then {A} (l : list A) (f : A -> item stream) :
  (forall a, fine (f a)) -> (forall a t, f a = Answer (Ok t) -> Forall fine t) -> Forall fine (and_then_flatten (oks l) f).
Proof.
  intros Hf Ht. unfold and_then_flatten. induction l as [|a l IH]; [constructor|].
  cbn [oks fmap list_fmap mjoin list_join]. apply Forall_app. split; [|exact IH].
  apply fine_flatten; [apply Hf|apply Ht].
Qed.

Lemma fine_map (s : stream) f : Forall fine s -> (forall a, calm (f a)) -> Forall fine (and_then s f).
Proof.
  intros Hs Hf. apply Forall_fmap. eapply Forall_impl; [exact Hs|].
  intros [[a|e|]|] Ha; [apply calm_fine, Hf|done..].
Qed.

Lemma oks_fine (l : list SocketAddr) : Forall fine (oks l).
Proof. by apply Forall_fmap, Forall_true. Qed.

Lemma found_calm h p : calm (found (lookup_host h p)) /\
  forall t, found (lookup_host h p) = Answer (Ok t) -> Forall fine t.
Proof.
  destruct (lookup_host h p) as [[l|]|] eqn:Hl; (split; [|try discriminate]); cbn; try done.
  - intros t [= <-]. apply oks_fine.
  - left. by exists h, p.
Qed.

Lemma found_fine h p : Forall fine (flatten_once (found (lookup_host h p))).
Proof. apply fine_flatten; [apply calm_fine|]; apply found_calm. Qed.

Lemma srv_records_weights answers srvs : srv_records answers = Ok srvs ->
  Some <$> srvs = answers.
Proof.
  unfold srv_records. destruct (mapM id answers) as [l|] eqn:Hm; [|done]. intros [= ->].
  apply mapM_Some_1 in Hm. induction Hm as [|a o ? ? Ho _ IH]; [done|].
  rewrite fmap_cons, IH. by f_equal.
Qed.

Lemma srv_records_panics answers : srv_records answers = Panic -> None ∈ answers.
Proof.
  unfold srv_records. destruct (mapM id answers) as [l|] eqn:Hm; [done|]. intros _.
  apply mapM_None_1 in Hm. apply Exists_exists in Hm as (o & Ho & Hid). by destruct o.
Qed.

Lemma resolve_srv_fine d name r : exists s, resolve_srv d name r = Some s /\ Forall fine s.
Proof.
  unfold resolve_srv. destruct (srv_lookup d name) as [[answers|]|] eqn:Hl; cbn [ask ok_or item_bind].
  2: { eexists. split; [done|]. by apply Forall_singleton. }
  2: { eexists. split; [done|]. apply Forall_singleton. right. right. left. by exists d, name. }
  destruct (srv_records answers) as [srvs|e|] eqn:Hr.
  - pose proof (srv_records_weights _ _ Hr) as <-.
    destruct (order_srvs_ok srvs r) as (l & r' & -> & _ & _).
    + pose proof (srv_lookup_size d name _ Hl) as Hs. by rewrite length_fmap in Hs.
    + apply Forall_forall. intros e He. eapply srv_lookup_weight; [exact Hl|].
      by apply list_elem_of_fmap_2.
    + cbn [mbind option_bind item_bind flatten_once]. eexists. split; [done|].
      apply fine_and_then; [intros a; apply calm_fine; apply found_calm|intros a; apply found_calm].
  - eexists. split; [done|]. by apply Forall_singleton.
  - eexists. split; [done|]. apply Forall_singleton. exists d, name, answers.
    split; [done|]. by apply srv_records_panics.
Qed.

Lemma create_resolver_returns : create_resolver <> Panic.
Proof. unfold create_resolver. destruct read_system_conf as [[c o]|]; by destruct (build_resolver _ _). Qed.

Lemma srv_step_fine h r : exists s, srv_step h r = Some s /\ Forall fine s.
Proof.
  unfold srv_step. pose proof create_resolver_returns. destruct create_resolver as [d|e|]; [apply resolve_srv_fine| |done].
  eexists. split; [done|]. by apply Forall_singleton.
Qed.

Lemma resolve_tsdns_calm srv address : calm (resolve_tsdns srv address).
Proof.
  unfold resolve_tsdns. destruct (tsdns_answer srv address) as [[data|]|] eqn:Ht; cbn [ask ok_or item_bind]; [|done|].
  - unfold read_tsdns. destruct (negb _); [done|]. case_bool_decide; [done|]. pose proof (parse_ip_returns data) as Hp.
    by destruct (parse_ip data) as [[|]| |].
  - do 3 right. by exists srv, address.
Qed.

Lemma tsdns_step_fine address h port r : exists s, tsdns_step address h port r = Some s /\ Forall fine s.
Proof.
  unfold tsdns_step. pose proof create_resolver_returns. destruct create_resolver as [d|e|]; [| |done].
  - destruct (resolve_srv_fine d (DNS_PREFIX_TCP ++ tsdns_domain h ++ byte_str ".") r) as (s & -> & Hs).
    eexists. split; [done|]. apply fine_map; [done|]. intros a.
    apply calm_bind; [apply resolve_tsdns_calm|done].
  - eexists. split; [done|]. by apply Forall_singleton.
Qed.

Lemma nickname_addr_calm l : calm (nickname_addr l) /\ forall t, nickname_addr l = Answer (Ok t) -> Forall fine t.
Proof.
  unfold nickname_addr. pose proof (parse_ip_returns l). destruct (parse_ip l) as [[a|h p]|e|]; cbn [item_bind]; try done.
  - split; [done|]. intros t [= <-]. by apply Forall_singleton.
  - apply found_calm.
Qed.

Lemma nickname_step_fine address h port : Forall fine (nickname_step address h port).
Proof.
  unfold nickname_step. destruct (_ && _); [|by apply Forall_singleton]. apply fine_map; [|done].
  unfold resolve_nickname. pose proof (nickname_body_returns address).
  destruct (nickname_body address) as [[body|e|]|] eqn:Hb; cbn [item_bind flatten_once]; [|by apply Forall_singleton|done|].
  - apply fine_and_then; [intros a; apply calm_fine; apply nickname_addr_calm|intros a; apply nickname_addr_calm].
  - apply Forall_singleton. right. left. by exists address.
Qed.

(** An item of which nothing is left to see is passed over; one behind which nothing comes is the last. *)
Definition goes_on (r : item SocketAddr) : Prop := match r with Answer Panic | Hung => False | _ => True end.
Definition success (r : item SocketAddr) : Prop := match r with Answer (Ok _) => True | _ => False end.
#[export] Instance success_dec r : Decision (success r).
Proof. destruct r as [[]|]; apply _. Defined.

Lemma successes_spec (s : stream) : exists before rest, s = before ++ rest /\ Forall goes_on before /\
  successes s = base.filter success before ++ take 1 rest /\ Forall (fun r => ~ goes_on r) (take 1 rest).
Proof.
  induction s as [|r s (before & rest & -> & Hb & Hs & Hr)]; [by exists [], []|].
  assert (goes_on r \/ ~ goes_on r /\ successes (r :: before ++ rest) = [r]) as [Hg|[Hg Hlast]].
  { destruct r as [[a|e|]|]; [by left|by left|by right; split; [intros []|]|by right; split; [intros []|]]. }
  - exists (r :: before), rest. split; [done|]. split; [by constructor|].
    split; [|done]. destruct r as [[a|e|]|]; cbn [successes]; [| |done|done].
    + by rewrite Hs, filter_cons_True.
    + by rewrite Hs, filter_cons_False by tauto.
  - exists [], (r :: before ++ rest). rewrite Hlast. split; [done|]. split; [constructor|]. split; [done|].
    by apply Forall_singleton.
Qed.

(** The port of the results. *)
Lemma overwritten_port p (s : stream) a (f : SocketAddr -> item SocketAddr) :
  (forall x y, f x = Answer (Ok y) -> sa_port y = p) -> Answer (Ok a) ∈ and_then s f -> sa_port a = p.
Proof.
  intros Hf Ha. apply list_elem_of_fmap in Ha as ([[x|e|]|] & Hx & _); [|done..]. by eapply Hf.
Qed.

Lemma step_ports address h p r2 tsdns a : tsdns_step address h (Some p) r2 = Some tsdns ->
  Answer (Ok a) ∈ nickname_step address h (Some p) \/ Answer (Ok a) ∈ tsdns \/ Answer (Ok a) ∈ host_step h (Some p) -> sa_port a = p.
Proof.
  intros Ht [Ha|[Ha|Ha]].
  - unfold nickname_step in Ha. destruct (_ && _); [|by apply list_elem_of_singleton in Ha].
    eapply overwritten_port; [|exact Ha]. by intros x y [= <-].
  - unfold tsdns_step in Ht. destruct create_resolver as [d|e|].
    + destruct (resolve_srv _ _ _) as [s|]; [|done]. injection Ht as <-.
      eapply overwritten_port; [|exact Ha]. intros x y.
      cbn beta. destruct (resolve_tsdns x address) as [[z|e|]|]; cbn [item_bind]; [|discriminate..]. by intros [= <-].
    + injection Ht as <-. by apply list_elem_of_singleton in Ha.
    + injection Ht as <-. by apply list_elem_of_singleton in Ha.
  - unfold host_step in Ha. change (default DEFAULT_PORT (Some p)) with p in Ha.
    destruct (lookup_host h p) as [[l|]|] eqn:Hl; [|by apply list_elem_of_singleton in Ha..].
    cbn [found ask ok_or item_bind flatten_once] in Ha. apply list_elem_of_fmap in Ha as (x & [= ->] & Hx).
    apply lookup_host_port in Hl. by eapply Forall_forall in Hl.
Qed.

(** C40: What waiting for the results of resolving gives.  An address is returned as it is, and a
    text that is no address and no name gives its error.  For every other name it gives the successes
    of the methods in their order (the nickname, the SRV record of the server, the TSDNS server, the
    host), without their errors.  It stops before the end of the methods only at a request to the
    network that never gets its answer, where it waits forever, and at a DNS answer with a record
    that is no SRV record, where it panics.  A port that was given is the port of every result except
    those of the SRV record of the server itself. *)
Theorem resolve_results (address : list Z) (r1 r2 : rng) :
  exists s, resolve address r1 r2 = Some s /\
  match parse_ip address with
  | Ok (ParsedAddr a) => s = [Answer (Ok a)]
  | Ok (ParsedOther h port) => exists srv tsdns before rest,
      srv_step h r1 = Some srv /\ tsdns_step address h port r2 = Some tsdns /\
      nickname_step address h port ++ srv ++ tsdns ++ host_step h port = before ++ rest /\
      Forall goes_on before /\ s = base.filter success before ++ take 1 rest /\
      match rest with
      | [] => True
      | Hung :: _ => hangs
      | Answer Panic :: _ => unexpected_answer
      | Answer _ :: _ => False
      end /\
      forall a p, port = Some p -> Answer (Ok a) ∈ s -> sa_port a = p \/ Answer (Ok a) ∈ srv
  | Err e => s = [Answer (Err e)]
  | Panic => False
  end.
Proof.
  unfold resolve. pose proof (parse_ip_returns address) as Hp.
  destruct (parse_ip address) as [[a|h port]|e|]; [by eexists| |by eexists|done].
  destruct (srv_step_fine h r1) as (srv & Hs & Hcs). rewrite Hs.
  destruct (tsdns_step_fine address h port r2) as (tsdns & Ht & Hct). rewrite Ht.
  cbn [mbind option_bind]. eexists. split; [done|].
  set (steps := nickname_step address h port ++ srv ++ tsdns ++ host_step h port).
  assert (Forall fine steps) as Hfine.
  { unfold steps. rewrite !Forall_app. split; [apply nickname_step_fine|]. split; [done|]. split; [done|apply found_fine]. }
  destruct (successes_spec steps) as (before & rest & Heq & Hb & -> & Hr).
  exists srv, tsdns, before, rest. do 5 (split; [done|]). split.
  - rewrite Heq in Hfine. apply Forall_app in Hfine as [_ Hf].
    destruct rest as [|r rest]; [done|]. apply Forall_cons in Hf as [Hf _].
    apply Forall_cons in Hr as [Hr _]. destruct r as [[]|]; try done; by apply Hr.
  - intros a p -> Ha. assert (Answer (Ok a) ∈ steps) as Hin.
    { rewrite Heq. apply elem_of_app. apply elem_of_app in Ha as [Ha|Ha].
      - left. by apply list_elem_of_filter in Ha as [_ Ha].
      - right. rewrite <- (take_drop 1 rest). apply elem_of_app. by left. }
    unfold steps in Hin. rewrite !elem_of_app in Hin.
    destruct Hin as [Ha'|[Ha'|[Ha'|Ha']]]; [|by right|..]; left; eapply step_ports; eauto.
Qed.
End resolve.

(** * Witnesses *)

Definition sample_ip : list Z := [192; 0; 2; 7].
Definition sample_server : list Z := byte_str "a.example".

Definition sample_srvs : list Srv := [
  {| srv_priority := 2; srv_weight := 5; srv_port := 9001; srv_target := sample_server |};
  {| srv_priority := 1; srv_weight := 0; srv_port := 9002; srv_target := sample_server |};
  {| srv_priority := 1; srv_weight := 3; srv_port := 9003; srv_target := sample_server |};
  {| srv_priority := 1; srv_weight := 4; srv_port := 9004; srv_target := sample_server |}].

(** One host, one answer for SRV records, no TSDNS server. *)
#[local] Instance sample_network : Network := {|
  to_socket_addrs t := if bool_decide (t = byte_str "192.0.2.7:21") then Some [{| sa_ip := sample_ip; sa_port := 21 |}] else None;
  to_socket_addrs_port t p := None;
  lookup_host h p := if bool_decide (h = sample_server) then Answer (Some [{| sa_ip := sample_ip; sa_port := p |}])
    else Answer None;
  NameServer := IpAddr;
  ns_ip n := n;
  Resolver.ResolverOpts := unit;
  read_system_conf := None;
  cloudflare := [];
  default_opts := ();
  DnsResolver := unit;
  build_resolver _ _ := Some ();
  srv_lookup _ n := if bool_decide (n = byte_str "_ts3._udp.a.example.") then Answer (Some (Some <$> sample_srvs))
    else if bool_decide (n = byte_str "_ts3._udp.alias.example.") then Answer (Some [None])
    else if bool_decide (n = byte_str "_ts3._udp.slow.example.") then Hung else Answer None;
  nickname_body _ := Answer (Err NicknameResolve);
  tsdns_answer _ _ := Answer None;
|}.

#[local] Instance sample_network_laws : NetworkLaws.
Proof.
  assert (forall d n l, srv_lookup d n = Answer (Some l) -> l = Some <$> sample_srvs \/ l = [None]) as Hl.
  { intros d n l. cbn. case_bool_decide; [intros [= <-]; by left|].
    case_bool_decide; [intros [= <-]; by right|]. by case_bool_decide. }
  split.
  - intros h p l. cbn. case_bool_decide; [|done]. intros [= <-]. by apply Forall_singleton.
  - done.
  - intros d n l Hd. by destruct (Hl d n l Hd) as [-> | ->].
  - intros d n l e Hd He. destruct (Hl d n l Hd) as [-> | ->].
    + apply list_elem_of_fmap_inj_2 in He; [|apply _].
      eapply (Forall_forall (fun e => is_u16 (srv_weight e))); [|exact He]. by repeat constructor.
    + by apply list_elem_of_singleton in He.
Qed.

#[local] Instance largest : Rng := {| rng := unit; random_range r hi := (hi, r) |}.
#[local] Instance largest_laws : RngLaws.
Proof. split. intros r hi Hhi. simpl. lia. Qed.

Lemma srv_order_witness : exists l r', order_srvs (H0 := release_profile) sample_srvs (() : @rng largest) = Some (Ok (l, r')) /\
  srv_port <$> l = [9004; 9003; 9001].
Proof.
  destruct (srv_order (H := release_profile) sample_srvs (() : @rng largest)) as (l & r' & Hl & _).
  - done.
  - by repeat constructor.
  - exists l, r'. split; [exact Hl|]. vm_compute in Hl. by injection Hl as <-.
Defined.

Lemma parse_ip_roundtrip_witness :
  parse_ip (byte_str "192.0.2.7:21") = Ok (ParsedAddr {| sa_ip := sample_ip; sa_port := 21 |}) /\
  parse_ip (byte_str "a.example:77") = Ok (ParsedOther sample_server (Some 77)).
Proof.
  split.
  - apply (parse_ip_roundtrip (TargetSocket {| sa_ip := sample_ip; sa_port := 21 |})).
    + split; [|done]. split; [by repeat constructor|by left].
    + reflexivity.
  - apply (parse_ip_roundtrip (TargetHost sample_server (Some 77))).
    + split; [|by split]. by apply (bool_decide_unpack _).
    + exact I.
Defined.

(** The port 77 is not applied to the results of the SRV records; a record that is no SRV record ends
    the stream with a panic, and a request without an answer keeps it waiting. *)
Definition shown (s : stream) : list (answer Z) :=
  (fun r => match r with Answer (Ok a) => Answer (sa_port a) | Answer _ => Answer 0 | Hung => Hung end) <$> s.

Lemma resolve_results_witness :
  (exists s, resolve (H0 := release_profile) (byte_str "a.example:77") (() : @rng largest) () = Some s /\
    shown s = [Answer 9004; Answer 9003; Answer 9001; Answer 77]) /\
  (exists s, resolve (H0 := release_profile) (byte_str "alias.example") (() : @rng largest) () = Some s /\ shown s = [Answer 0]) /\
  (exists s, resolve (H0 := release_profile) (byte_str "slow.example") (() : @rng largest) () = Some s /\ shown s = [Hung]).
Proof.
  split; [|split].
  - destruct (resolve_results (H1 := release_profile) (byte_str "a.example:77") (() : @rng largest) ()) as (s & Hs & _).
    exists s. split; [exact Hs|]. vm_compute in Hs. by injection Hs as <-.
  - destruct (resolve_results (H1 := release_profile) (byte_str "alias.example") (() : @rng largest) ()) as (s & Hs & _).
    exists s. split; [exact Hs|]. vm_compute in Hs. by injection Hs as <-.
  - destruct (resolve_results (H1 := release_profile) (byte_str "slow.example") (() : @rng largest) ()) as (s & Hs & _).
    exists s. split; [exact Hs|]. vm_compute in Hs. by injection Hs as <-.
Defined.
