(* ===== verification/IpParse.v ===== *)
(** Reading IP addresses ([FromStr for IpAddr] of the standard library, which
    [ts-bookkeeping/src/data.rs] uses), and the round trip with their text. *)
From stdpp Require Import strings.
From S2P Require Import Prelude Text Packets InitPackets Ip.
#[local] Open Scope Z_scope.

(** The digits at the start of a text: their value, their number and the rest. *)
Fixpoint read_digits (radix : Z) (s : list Z) (acc : Z) (n : nat) : Z * nat * list Z :=
  match s with
  | c :: s' =>
      match to_digit radix c with
      | Some d => read_digits radix s' (acc * radix + d) (S n)
      | None => (acc, n, s)
      end
  | [] => (acc, n, s)
  end.

Definition read_number (radix : Z) (max_digits : nat) (allow_zero_prefix : bool) (w : Z) (s : list Z)
    : option (Z * list Z) :=
  let '(v, n, rest) := read_digits radix s 0 0 in
  if bool_decide (max_digits < n)%nat then None
  else if bool_decide (n = 0%nat) then None
  else if negb allow_zero_prefix && bool_decide (head s = Some 0x30) && bool_decide (1 < n)%nat then None
  else if bool_decide (is_uint w v) then Some (v, rest) else None.

Definition read_separator {A} (sep : Z) (i : nat) (inner : list Z -> option (A * list Z)) (s : list Z)
    : option (A * list Z) :=
  match i, s with
  | O, _ => inner s
  | _, c :: s' => if c =? sep then inner s' else None
  | _, [] => None
  end.

Fixpoint read_octets (k i : nat) (s : list Z) : option (list Z * list Z) :=
  match k with
  | O => Some ([], s)
  | S k =>
      match read_separator 0x2e i (read_number 10 3 false 8) s with
      | Some (o, s) =>
          match read_octets k (S i) s with
          | Some (os, s) => Some (o :: os, s)
          | None => None
          end
      | None => None
      end
  end.

Definition read_ipv4_addr : list Z -> option (list Z * list Z) := read_octets 4 0.

(** Reads at most [k] groups; an IPv4 address takes the place of two. *)
Fixpoint read_groups (k i : nat) (s : list Z) : list Z * bool * list Z :=
  match k with
  | O => ([], false, s)
  | S k' =>
      match (if bool_decide (0 < k')%nat then read_separator 0x3a i read_ipv4_addr s else None) with
      | Some ([a; b; c; d], s) => ([a * 256 + b; c * 256 + d], true, s)
      | _ =>
          match read_separator 0x3a i (read_number 16 4 true 16) s with
          | Some (g, s) => let '(gs, v4, s) := read_groups k' (S i) s in (g :: gs, v4, s)
          | None => ([], false, s)
          end
      end
  end.

Definition read_ipv6_addr (s : list Z) : option (list Z * list Z) :=
  let '(hd, head_ipv4, s) := read_groups 8 0 s in
  if bool_decide (length hd = 8%nat) then Some (hd, s)
  else if (head_ipv4 : bool) then None
  else match s with
       | 0x3a :: 0x3a :: s =>
           let '(tl, _, s) := read_groups (8 - (length hd + 1)) 0 s in
           Some (hd ++ replicate (8 - length hd - length tl) 0 ++ tl, s)
       | _ => None
       end.

Definition parse_ip_addr (s : list Z) : option IpAddr :=
  match read_ipv4_addr s with
  | Some ([a; b; c; d], []) => Some (V4 a b c d)
  | Some _ => None
  | None =>
      match read_ipv6_addr s with
      | Some (l, []) => Some (V6 l)
      | _ => None
      end
  end.

Example parse_v4 : parse_ip_addr (byte_str "192.168.0.21") = Some (V4 192 168 0 21).
Proof. vm_compute. reflexivity. Qed.

Example parse_v4_leading_zero : parse_ip_addr (byte_str "192.168.00.21") = None.
Proof. vm_compute. reflexivity. Qed.

Example parse_v6 : parse_ip_addr (byte_str "2001:db8::1.2.3.4") = Some (V6 [0x2001; 0xdb8; 0; 0; 0; 0; 0x102; 0x304]).
Proof. vm_compute. reflexivity. Qed.

(** * Reading numbers *)

Definition no_digit (radix : Z) (s : list Z) : Prop :=
  match s with
  | [] => True
  | c :: _ => to_digit radix c = None
  end.

Lemma read_digits_app radix ds rest acc n v :
  digits_value radix ds acc = Some v -> no_digit radix rest ->
  read_digits radix (ds ++ rest) acc n = (v, (n + length ds)%nat, rest).
Proof.
  revert acc n. induction ds as [|c ds IH]; intros acc n Hv Hr; simpl in *.
  - injection Hv as <-. destruct rest as [|c rest]; simpl; rewrite ?Nat.add_0_r; [done|].
    simpl in Hr. by rewrite Hr.
  - destruct (to_digit radix c) as [d|]; [|done]. rewrite IH by done. do 2 f_equal. lia.
Qed.

(** What is left does not start inside of the digits. *)
Lemma read_digits_split radix s acc n v m rest :
  read_digits radix s acc n = (v, m, rest) ->
  exists ds, s = ds ++ rest /\ Forall (fun c => to_digit radix c <> None) ds.
Proof.
  revert acc n. induction s as [|c s IH]; intros acc n Hr; simpl in Hr.
  - injection Hr as <- <- <-. by exists [].
  - destruct (to_digit radix c) as [d|] eqn:Hd.
    + apply IH in Hr as (ds & -> & Hds). exists (c :: ds). split; [done|]. constructor; [by rewrite Hd|done].
    + injection Hr as <- <- <-. by exists [].
Qed.

(** The texts of all octets. *)
Definition octet_readable (z : Z) : bool :=
  let t := to_dec z in
  bool_decide (digits_value 10 t 0 = Some z) && bool_decide (length t <= 3)%nat && bool_decide (t <> [])
  && negb (bool_decide (head t = Some 0x30) && bool_decide (1 < length t)%nat).

Lemma seqZ_forallb (f : Z -> bool) n z :
  forallb f (seqZ 0 n) = true -> 0 <= z < n -> f z = true.
Proof.
  rewrite forallb_forall. intros Hf Hz. apply Hf. apply list_elem_of_In, elem_of_seqZ. lia.
Qed.

Lemma octet_readable_ok z : 0 <= z < 256 -> octet_readable z = true.
Proof. apply seqZ_forallb. vm_compute. reflexivity. Qed.

(** The value of hexadecimal digits; leading zeros do not count. *)
Lemma hex_digits_value ds acc : Forall (fun d => 0 <= d < 16) ds ->
  digits_value 16 (map hex_digit ds) acc = Some (foldl (fun a d => a * 16 + d) acc ds).
Proof.
  intros Hds. revert acc. induction Hds as [|d ds Hd _ IH]; intros acc; [done|]. cbn [map digits_value foldl].
  assert (to_digit 16 (hex_digit d) = Some d) as ->; [|apply IH].
  assert (forallb (fun d => bool_decide (to_digit 16 (hex_digit d) = Some d)) (seqZ 0 16) = true) as Hall
    by (vm_compute; reflexivity).
  by apply (seqZ_forallb _ _ d), bool_decide_eq_true in Hall.
Qed.

Lemma strip_zeros_value l : foldl (fun a d => a * 16 + d) 0 (strip_zeros l) = foldl (fun a d => a * 16 + d) 0 l.
Proof. induction l as [|d l IH]; [done|]. destruct d; [|done..]. by destruct l. Qed.

Lemma strip_zeros_length l : (length (strip_zeros l) <= length l)%nat /\ (l <> [] -> strip_zeros l <> []).
Proof.
  induction l as [|d l IH]; [done|]. destruct d; [|done..]. destruct l as [|e l]; [done|].
  destruct IH as [Hl Hn]. split; [simpl in *; lia|]. intros _. by apply Hn.
Qed.

Lemma strip_zeros_forall (P : Z -> Prop) l : Forall P l -> Forall P (strip_zeros l).
Proof. induction 1 as [|d l Hd Hl IH]; [constructor|]. destruct d; [|by constructor..]. destruct l; [by constructor|done]. Qed.

Lemma segment_digits z : 0 <= z < 65536 ->
  digits_value 16 (to_hex16 z) 0 = Some z /\ (length (to_hex16 z) <= 4)%nat /\ to_hex16 z <> [].
Proof.
  intros Hz. unfold to_hex16. set (ds := [z / 4096 mod 16; z / 256 mod 16; z / 16 mod 16; z mod 16]).
  destruct (strip_zeros_length ds) as [Hl Hn]. split_and!.
  - rewrite hex_digits_value, strip_zeros_value.
    + subst ds. cbn [foldl]. f_equal.
      replace (z / 4096) with (z / 16 / 16 / 16) by (by rewrite !Z.div_div by lia).
      replace (z / 256) with (z / 16 / 16) by (by rewrite Z.div_div by lia).
      pose proof (Z.div_mod z 16). pose proof (Z.div_mod (z / 16) 16). pose proof (Z.div_mod (z / 16 / 16) 16).
      assert (0 <= z / 16 / 16 / 16 < 16) by (rewrite !Z.div_div by lia; split; [apply Z.div_pos|apply Z.div_lt_upper_bound]; lia).
      rewrite (Z.mod_small (z / 16 / 16 / 16)) by lia. lia.
    + apply strip_zeros_forall. subst ds. repeat constructor; apply Z.mod_pos_bound; lia.
  - by rewrite length_map.
  - intros He%map_eq_nil. by apply Hn in He.
Qed.

Lemma read_octet z rest :
  0 <= z < 256 -> no_digit 10 rest -> read_number 10 3 false 8 (to_dec z ++ rest) = Some (z, rest).
Proof.
  intros Hz Hr. pose proof (octet_readable_ok z Hz) as Ho. unfold octet_readable in Ho.
  rewrite !andb_true_iff, !bool_decide_eq_true in Ho. destruct Ho as [[[Hv Hl] Hne] Hlead].
  unfold read_number. rewrite (read_digits_app _ _ _ _ _ z) by done. simpl.
  rewrite bool_decide_false by lia.
  rewrite bool_decide_false by (destruct (to_dec z); simpl in *; [done|lia]).
  replace (head (to_dec z ++ rest)) with (head (to_dec z)) by (by destruct (to_dec z)).
  apply negb_true_iff in Hlead. rewrite Hlead. by rewrite bool_decide_true by (unfold is_uint; lia).
Qed.

Lemma read_segment z rest :
  0 <= z < 65536 -> no_digit 16 rest -> read_number 16 4 true 16 (to_hex16 z ++ rest) = Some (z, rest).
Proof.
  intros Hz Hr. destruct (segment_digits z Hz) as (Hv & Hl & Hne).
  unfold read_number. rewrite (read_digits_app _ _ _ _ _ z) by done. simpl.
  rewrite bool_decide_false by lia.
  rewrite bool_decide_false by (destruct (to_hex16 z); simpl in *; [done|lia]).
  by rewrite bool_decide_true by (unfold is_uint; lia).
Qed.

Lemma read_v4 a b c d rest :
  0 <= a < 256 -> 0 <= b < 256 -> 0 <= c < 256 -> 0 <= d < 256 -> no_digit 10 rest ->
  read_ipv4_addr (v4_text a b c d ++ rest) = Some ([a; b; c; d], rest).
Proof.
  intros Ha Hb Hc Hd Hr. unfold v4_text, read_ipv4_addr. cbn [map join].
  change (byte_str ".") with [0x2e]. rewrite <- !app_assoc. cbn [app read_octets read_separator].
  repeat (rewrite read_octet by done; cbn [app read_octets read_separator]; rewrite ?Z.eqb_refl).
  done.
Qed.

(** A text whose part in front of a colon, or whole, has no dot, is no IPv4 address. *)
Lemma read_v4_fails t rest :
  0x2e ∉ t -> match rest with [] => True | c :: _ => c = 0x3a end ->
  read_ipv4_addr (t ++ rest) = None.
Proof.
  intros Ht Hr. unfold read_ipv4_addr. cbn [read_octets read_separator].
  destruct (read_number 10 3 false 8 (t ++ rest)) as [[o s]|] eqn:Ho; [|done].
  assert (exists ds, t ++ rest = ds ++ s /\ Forall (fun c => to_digit 10 c <> None) ds) as (ds & Hs & Hds).
  { unfold read_number in Ho. destruct (read_digits 10 (t ++ rest) 0 0) as [[v n] r] eqn:Hd.
    apply read_digits_split in Hd. clear Hr. repeat case_match; try done. by injection Ho as <- <-. }
  destruct s as [|c s]; [done|]. destruct (Z.eqb_spec c 0x2e) as [->|]; [|done]. exfalso.
  apply app_eq_inv in Hs as [(k & -> & Hk)|(k & -> & Hk)]; destruct k as [|x k]; simpl in Hk.
  - by subst rest.
  - apply Ht, elem_of_app. right. apply elem_of_cons. left. congruence.
  - by subst rest.
  - subst rest. cbn in Hr. subst x. apply Forall_app in Hds as [_ Hds].
    apply Forall_cons_1 in Hds as [Hx _]. by apply Hx.
Qed.

(** * The round trip *)

Definition ip_valid (ip : IpAddr) : Prop :=
  match ip with
  | V4 a b c d => Forall (fun x => 0 <= x < 256) [a; b; c; d]
  | V6 s => length s = 8%nat /\ Forall (fun x => 0 <= x < 65536) s
  end.

(** What follows a group: nothing, or a colon. *)
Definition group_end (s : list Z) : Prop := match s with [] => True | c :: _ => c = 0x3a end.

Lemma group_end_no_digit radix s : group_end s -> no_digit radix s.
Proof.
  destruct s as [|c s]; [done|]. intros ->. unfold no_digit, to_digit. cbn -[Z.ltb]. by rewrite Z.ltb_irrefl.
Qed.

Lemma hex_no_dot z : 0 <= z < 65536 -> 0x2e ∉ to_hex16 z.
Proof.
  intros Hz Hin. destruct (segment_digits z Hz) as (Hv & _ & _). revert Hv. generalize 0.
  induction (to_hex16 z) as [|c l IH]; [by apply elem_of_nil in Hin|]. intros acc. cbn [digits_value].
  apply elem_of_cons in Hin as [<-|Hin]; [done|]. destruct (to_digit 16 c); [|done]. by apply IH.
Qed.

Lemma read_group k i z s :
  0 <= z < 65536 -> group_end s ->
  read_groups (S k) i ((if bool_decide (i = 0%nat) then [] else colon) ++ to_hex16 z ++ s) =
    let '(gs, v4, s) := read_groups k (S i) s in (z :: gs, v4, s).
Proof.
  intros Hz Hs. cbn [read_groups].
  assert (forall A (f : list Z -> option (A * list Z)) t,
    read_separator 0x3a i f ((if bool_decide (i = 0%nat) then [] else colon) ++ t) = f t) as Hsep.
  { intros A f t. destruct i; [done|]. by rewrite bool_decide_false by lia. }
  rewrite !Hsep, read_v4_fails by (done || by apply hex_no_dot).
  rewrite read_segment by (done || by apply group_end_no_digit). by destruct (bool_decide (0 < k)%nat).
Qed.

(** Groups are read up to the end or up to a double colon. *)
Definition groups_end (s : list Z) : Prop := s = [] \/ exists t, s = 0x3a :: 0x3a :: t.

Lemma read_groups_stop k i s : groups_end s -> read_groups k i s = ([], false, s).
Proof.
  destruct k as [|k]; [done|]. intros [->|[t ->]]; cbn [read_groups]; destruct i; by case_bool_decide.
Qed.

Definition groups_text (i : nat) (l : list Z) : list Z :=
  match l with
  | [] => []
  | _ => (if bool_decide (i = 0%nat) then [] else colon) ++ join colon (map to_hex16 l)
  end.

Lemma groups_text_cons i z l :
  groups_text i (z :: l) =
    (if bool_decide (i = 0%nat) then [] else colon) ++ to_hex16 z ++ groups_text (S i) l.
Proof.
  unfold groups_text. f_equal. destruct l as [|y l]; [by rewrite app_nil_r|].
  by rewrite (bool_decide_false (S i = 0%nat)) by lia.
Qed.

Lemma groups_text_end i l s : groups_end s -> i <> 0%nat -> group_end (groups_text i l ++ s).
Proof.
  intros Hs Hi. destruct l as [|z l].
  - destruct Hs as [->|[t ->]]; done.
  - unfold groups_text. by rewrite bool_decide_false.
Qed.

Lemma read_groups_text l : forall k i s,
  Forall (fun x => 0 <= x < 65536) l -> (length l <= k)%nat -> groups_end s ->
  read_groups k i (groups_text i l ++ s) = (l, false, s).
Proof.
  induction l as [|z l IH]; intros k i s Hl Hk Hs; [by apply read_groups_stop|].
  apply Forall_cons_1 in Hl as [Hz Hl]. destruct k as [|k]; [simpl in Hk; lia|].
  rewrite groups_text_cons, <- !app_assoc, read_group; [|done|by apply groups_text_end].
  rewrite IH by (simpl in Hk; by (done || lia)). done.
Qed.

Lemma groups_text_0 l : groups_text 0 l = join colon (map to_hex16 l).
Proof. by destruct l. Qed.

(** The longest run of zeros is one. *)
Definition run_ok (s : list Z) (r : nat * nat) : Prop := forall i, (r.1 <= i < r.1 + r.2)%nat -> s !! i = Some 0.

Lemma zero_runs_ok s0 s i cur longest :
  drop i s0 = s -> run_ok s0 cur -> run_ok s0 longest ->
  (cur.2 <> 0%nat -> cur.1 + cur.2 = i)%nat ->
  run_ok s0 (zero_runs s i cur longest).
Proof.
  revert i cur longest. induction s as [|x s IH]; intros i cur longest Hd Hc Hl Hi; [done|].
  assert (s0 !! i = Some x) as Hx.
  { rewrite <- (Nat.add_0_r i), <- lookup_drop, Hd. done. }
  assert (drop (S i) s0 = s) as Hd' by (by rewrite <- Nat.add_1_r, <- drop_drop, Hd).
  cbn [zero_runs]. destruct (Z.eqb_spec x 0) as [->|].
  - set (c := ((if bool_decide (cur.2 = 0%nat) then i else cur.1), S cur.2)).
    assert (run_ok s0 c /\ (c.1 + c.2 = S i)%nat) as [Hc' Hi'].
    { subst c. case_bool_decide as H0; cbn [fst snd].
      - split; [|lia]. intros j Hj. simpl in Hj. by replace j with i by lia.
      - split; [|lia]. intros j Hj. simpl in Hj. destruct (decide (j = i)) as [->|]; [done|]. apply Hc. lia. }
    apply IH; [done|done| |done]. by case_bool_decide.
  - apply IH; [done| |done|done]. intros j Hj. simpl in Hj. lia.
Qed.

Lemma run_split (s : list Z) start len :
  run_ok s (start, len) -> (0 < len)%nat ->
  (start + len <= length s)%nat /\ s = take start s ++ replicate len 0 ++ drop (start + len) s.
Proof.
  intros Hr Hlen.
  assert (start + len <= length s)%nat as Hle.
  { assert (s !! (start + len - 1)%nat = Some 0) as H0 by (apply Hr; simpl; lia).
    apply lookup_lt_Some in H0. lia. }
  split; [done|]. rewrite <- (take_drop start s) at 1. f_equal.
  rewrite <- (take_drop len (drop start s)) at 1. rewrite drop_drop. f_equal.
  apply list_eq. intros i. destruct (decide (i < len)%nat).
  - rewrite lookup_take_lt, lookup_drop, lookup_replicate_2 by lia. apply Hr. simpl. lia.
  - rewrite !(proj2 (lookup_ge_None _ _)); [done|..]; rewrite ?length_replicate, ?length_take; lia.
Qed.

Lemma read_v4_v6_text l s : Forall (fun x => 0 <= x < 65536) l -> groups_end s ->
  read_ipv4_addr (groups_text 0 l ++ s) = None.
Proof.
  intros Hl Hs. destruct l as [|z l].
  - apply (read_v4_fails [] s); [by apply not_elem_of_nil|]. by destruct Hs as [->|[t ->]].
  - apply Forall_cons_1 in Hl as [Hz Hl]. rewrite groups_text_cons, bool_decide_true, <- !app_assoc by done. cbn [app].
    apply read_v4_fails; [by apply hex_no_dot|]. by apply groups_text_end.
Qed.

Lemma parse_whole_v6 s : length s = 8%nat -> Forall (fun x => 0 <= x < 65536) s ->
  parse_ip_addr (join colon (map to_hex16 s)) = Some (V6 s).
Proof.
  intros Hlen Hs. unfold parse_ip_addr. rewrite <- groups_text_0, <- (app_nil_r (groups_text 0 s)).
  rewrite read_v4_v6_text by (done || by left). unfold read_ipv6_addr.
  rewrite read_groups_text; [|done|lia|by left]. by rewrite bool_decide_true.
Qed.

Lemma parse_run_v6 s start len : length s = 8%nat -> Forall (fun x => 0 <= x < 65536) s ->
  run_ok s (start, len) -> (1 < len)%nat ->
  parse_ip_addr (join colon (map to_hex16 (take start s)) ++ byte_str "::"
                 ++ join colon (map to_hex16 (drop (start + len) s))) = Some (V6 s).
Proof.
  intros Hlen Hs Hr Hn. destruct (run_split s start len Hr) as [Hle Hsplit]; [lia|].
  unfold parse_ip_addr. rewrite <- !groups_text_0.
  change (byte_str "::") with [0x3a; 0x3a].
  assert (groups_end ([0x3a; 0x3a] ++ groups_text 0 (drop (start + len) s))) as He by (right; by eexists).
  rewrite read_v4_v6_text by (by (done || apply Forall_take)). unfold read_ipv6_addr.
  rewrite read_groups_text; [|by apply Forall_take|rewrite length_take; lia|done].
  rewrite bool_decide_false by (rewrite length_take; lia). cbn [app].
  rewrite <- (app_nil_r (groups_text 0 (drop _ _))), read_groups_text;
    [|by apply Forall_drop|rewrite length_drop, length_take; lia|by left].
  do 2 f_equal. etransitivity; [|symmetry; exact Hsplit]. do 3 f_equal.
  rewrite length_take, length_drop. lia.
Qed.

Lemma parse_mapped_v6 g h : 0 <= g < 65536 -> 0 <= h < 65536 ->
  parse_ip_addr (byte_str "::ffff:" ++ v4_text (g / 256) (g mod 256) (h / 256) (h mod 256)) =
    Some (V6 [0; 0; 0; 0; 0; 0xffff; g; h]).
Proof.
  intros Hg Hh. change (byte_str "::ffff:") with ([0x3a; 0x3a] ++ to_hex16 0xffff ++ [0x3a]).
  rewrite <- !app_assoc. set (t := v4_text _ _ _ _).
  assert (read_ipv4_addr t = Some ([g / 256; g mod 256; h / 256; h mod 256], [])) as Ht.
  { subst t. rewrite <- (app_nil_r (v4_text _ _ _ _)).
    apply read_v4; try done; (apply Z.mod_pos_bound || (split; [apply Z.div_pos|apply Z.div_lt_upper_bound])); lia. }
  pose proof (read_v4_fails [] ([0x3a; 0x3a] ++ to_hex16 0xffff ++ [0x3a] ++ t)) as Hf.
  unfold parse_ip_addr. rewrite <- (app_nil_l (_ ++ to_hex16 _ ++ _)), Hf; [|by apply not_elem_of_nil|done].
  clear Hf. cbn [app].
  unfold read_ipv6_addr. rewrite read_groups_stop by (right; by eexists).
  rewrite bool_decide_false by done. cbn [app length Nat.add Nat.sub].
  pose proof (read_group 6 0 0xffff (0x3a :: t)) as Hread. rewrite bool_decide_true in Hread by done. cbn [app] in Hread.
  rewrite Hread by (done || lia). clear Hread. cbn [read_groups read_separator].
  rewrite Z.eqb_refl, Ht. cbn [bool_decide decide]. simpl. do 3 f_equal.
  rewrite (Z.mul_comm (g / 256)), (Z.mul_comm (h / 256)). by rewrite <- !Z.div_mod by lia.
Qed.

Lemma parse_ip_text ip : ip_valid ip -> parse_ip_addr (ip_to_string ip) = Some ip.
Proof.
  destruct ip as [a b c d|s].
  - intros Hip. repeat (apply Forall_cons_1 in Hip as [? Hip]). unfold parse_ip_addr. cbn [ip_to_string].
    rewrite <- (app_nil_r (v4_text a b c d)). by rewrite read_v4.
  - intros [Hlen Hs].
    assert (forall g h, s = [0; 0; 0; 0; 0; 0xffff; g; h] ->
      parse_ip_addr (byte_str "::ffff:" ++ v4_text (g / 256) (g mod 256) (h / 256) (h mod 256)) = Some (V6 s))
      as Hmapped.
    { intros g h ->. do 6 apply Forall_cons_1 in Hs as [_ Hs]. apply Forall_cons_1 in Hs as [Hg Hs].
      apply Forall_cons_1 in Hs as [Hh _]. by apply parse_mapped_v6. }
    assert (parse_ip_addr (let '(start, len) := zero_runs s 0 (0%nat, 0%nat) (0%nat, 0%nat) in
      if bool_decide (1 < len)%nat
      then join colon (map to_hex16 (take start s)) ++ byte_str "::"
           ++ join colon (map to_hex16 (drop (start + len) s))
      else join colon (map to_hex16 s)) = Some (V6 s)) as Hplain.
    { pose proof (zero_runs_ok s s 0 (0%nat, 0%nat) (0%nat, 0%nat) eq_refl) as Hr.
      destruct (zero_runs _ _ _ _) as [start len]. case_bool_decide; [|by apply parse_whole_v6].
      apply parse_run_v6; try done. apply Hr; [intros i Hi; simpl in Hi; lia..|done]. }
    cbn [ip_to_string]. repeat (case_match; subst; try exact Hplain; try (by eapply Hmapped)).
Qed.
