(* ===== verification/Book.v ===== *)
(** The state of a server as the client knows it ([utils/ts-bookkeeping/src/data.rs] with
    [events.rs] and [lib.rs], the types of [utils/tsproto-types/src/lib.rs]).

    Most of the structures and the dispatch of the messages are generated at build time from
    declarations that are not part of the repository.  They are classes here: [Declarations] has the
    types, [Generated] the generated handler.  The structures list the fields that the written code
    uses, the others are in [.._rest].  What is modelled is the written code: the functions behind the
    declarations, the special messages, the order of the channels, the messages to the server. *)
From stdpp Require Import strings gmap.
From S2P Require Import Prelude Text Packets Commands InitPackets Ip IpParse CryptoLib Crypto.
#[local] Open Scope Z_scope.

(** * Data *)

Inductive MaxClients :=
  | Unlimited
  | Inherited
  | Limited (n : Z).

Inductive ChannelType :=
  | Temporary
  | SemiPermanent
  | Permanent.

Inductive ClientType :=
  | NormalClient
  | QueryClient (admin : bool).

Inductive CodecEncryptionMode :=
  | EncryptPerChannel
  | EncryptForcedOff
  | EncryptForcedOn.

Inductive TextMessageTargetMode :=
  | TargetServer
  | TargetChannel
  | TargetClient
  | TargetUnknown.

(** Generated types, of which the written code knows nothing else. *)
Class Declarations := {
  ServerAttrs : Type;
  codec_encryption_mode : ServerAttrs -> CodecEncryptionMode;
  OptionalServerData : Type;
  ConnectionServerData : Type;
  ClientRest : Type;
  OptionalClientData : Type;
  ConnectionClientData : Type;
  with_connected_time : ConnectionClientData -> Z -> ConnectionClientData;
  ChannelRest : Type;
  OptionalChannelData : Type;
  ChannelGroup : Type;
  ServerGroup : Type;
  Codec : Type;
  OpusVoice : Codec;
  LicenseType : Type;
  NoLicense : LicenseType;
  Reason : Type;
  Serverstop : Reason;
  ClientdisconnectServerShutdown : Reason;
  Reason_eq_dec :: EqDecision Reason;
  TsServerError : Type;
  TsServerError_Ok : TsServerError;
  ClientCouldNotValidateIdentity : TsServerError;
  TsServerError_eq_dec :: EqDecision TsServerError;
  OffsetDateTime : Type;
  unix_timestamp : OffsetDateTime -> Z;
  OtherProperty : Type;
  OtherValue : Type;
  OtherMessage : Type;
}.

Inductive MessageTarget :=
  | ToServer
  | ToChannel
  | ToClient (id : Z)
  | ToPoke (id : Z).

Record Invoker := { inv_name : list Z; inv_id : Z; inv_uid : option (list Z) }.

Inductive BookError :=
  | MessageWithoutTargetClientId
  | UnknownTextMessageTargetMode
  | NotFound (what : string) (id : list Z)
  | RemoveNotFound (what : string)
  | InvalidConnectionIp.

(** [Option::is_some] *)
Definition is_some {A} (o : option A) : bool := match o with Some _ => true | None => false end.

(** [Uid::as_avatar] and [Uid::is_server_admin]. *)
Definition as_avatar (uid : list Z) : list Z :=
  flat_map (fun b => [0x61 + Z.shiftr b 4; 0x61 + Z.land b 0xf]) uid.

Definition is_server_admin (uid : list Z) : bool := bool_decide (uid = byte_str "ServerAdmin").

Section book.
Context `{P256} `{Declarations}.

Record TalkPowerRequest := { tpr_time : OffsetDateTime; tpr_message : list Z }.

Record Channel := {
  ch_id : Z;
  ch_parent : Z;
  ch_order : Z;
  ch_channel_type : ChannelType;
  ch_max_clients : option MaxClients;
  ch_max_family_clients : option MaxClients;
  ch_subscribed : bool;
  ch_needed_talk_power : option Z;
  ch_is_unencrypted : option bool;
  ch_optional_data : option OptionalChannelData;
  ch_rest : ChannelRest;
}.

(** The fields of a client about its microphone and speakers. *)
Record Mutes := {
  input_muted : bool;
  output_muted : bool;
  input_hardware_enabled : bool;
  output_hardware_enabled : bool;
  output_only_muted : bool;
}.

Record Client := {
  cl_id : Z;
  cl_name : list Z;
  cl_channel : Z;
  cl_away_message : option (list Z);
  cl_talk_power_request : option TalkPowerRequest;
  cl_mutes : Mutes;
  cl_talk_power : Z;
  cl_talk_power_granted : bool;
  cl_connection_data : option ConnectionClientData;
  cl_optional_data : option OptionalClientData;
  cl_rest : ClientRest;
}.

Record Server := {
  sv_id : Z;
  sv_public_key : EccKeyPubP256;
  sv_ips : list (list Z);
  sv_license : LicenseType;
  sv_optional_data : option OptionalServerData;
  sv_connection_data : option ConnectionServerData;
  sv_attrs : ServerAttrs;
}.

(** [data::Connection] *)
Record Book := {
  own_client : Z;
  server : Server;
  clients : gmap Z Client;
  channels : gmap Z Channel;
  channel_groups : gmap Z ChannelGroup;
  server_groups : gmap Z ServerGroup;
}.

(** * Events *)

(** The variants that the written code uses. *)
Inductive PropertyId :=
  | PropServer
  | PropClient (id : Z)
  | PropClientName (id : Z)
  | PropClientAwayMessage (id : Z)
  | PropClientTalkPowerRequest (id : Z)
  | PropClientInputMuted (id : Z)
  | PropClientOutputMuted (id : Z)
  | PropClientInputHardwareEnabled (id : Z)
  | PropClientOutputHardwareEnabled (id : Z)
  | PropClientOutputOnlyMuted (id : Z)
  | PropChannelOrder (id : Z)
  | PropChannelMaxClients (id : Z)
  | PropChannelMaxFamilyClients (id : Z)
  | PropChannelChannelType (id : Z)
  | PropChannelSubscribed (id : Z)
  | PropOther (p : OtherProperty).

Inductive PropertyValue :=
  | ValString (s : list Z)
  | ValOptionString (s : option (list Z))
  | ValChannelId (id : Z)
  | ValOptionMaxClients (m : option MaxClients)
  | ValChannelType (t : ChannelType)
  | ValOptionTalkPowerRequest (t : option TalkPowerRequest)
  | ValBool (b : bool)
  | ValClient (c : Client)
  | ValOther (v : OtherValue).

(** The field [extra] is its reason. *)
Inductive Event :=
  | PropertyAdded (id : PropertyId) (invoker : option Invoker) (reason : option Reason)
  | PropertyChanged (id : PropertyId) (old : PropertyValue) (invoker : option Invoker)
      (reason : option Reason)
  | PropertyRemoved (id : PropertyId) (old : PropertyValue) (invoker : option Invoker)
      (reason : option Reason)
  | Message (target : MessageTarget) (invoker : Invoker) (message : list Z).

Definition get_invoker (e : Event) : option Invoker :=
  match e with
  | PropertyAdded _ invoker _ | PropertyChanged _ _ invoker _ | PropertyRemoved _ _ invoker _ => invoker
  | Message _ invoker _ => Some invoker
  end.

(** * Computations

    The functions change the book, append to the events, and may fail in between. *)

Definition bk (A : Type) : Type := Book * list Event -> res BookError A * (Book * list Event).

#[global] Instance bk_ret : MRet bk := fun _ a s => (Ok a, s).
#[global] Instance bk_bind : MBind bk := fun _ _ k m s =>
  match m s with
  | (Ok a, s) => k a s
  | (Err e, s) => (Err e, s)
  | (Panic, s) => (Panic, s)
  end.

Definition fail {A} (e : BookError) : bk A := fun s => (Err e, s).
Definition bk_panic {A} : bk A := fun s => (Panic, s).
Definition get_book : bk Book := fun s => (Ok s.1, s).
Definition modify (f : Book -> Book) : bk unit := fun s => (Ok tt, (f s.1, s.2)).
Definition push (e : Event) : bk unit := fun s => (Ok tt, (s.1, s.2 ++ [e])).
Definition from_option_or {A} (o : option A) (e : BookError) : bk A :=
  match o with Some a => mret a | None => fail e end.

(** Fields. *)
Definition set_clients (f : gmap Z Client -> gmap Z Client) (b : Book) : Book := {|
  own_client := own_client b; server := server b; clients := f (clients b); channels := channels b;
  channel_groups := channel_groups b; server_groups := server_groups b |}.
Definition set_channels (f : gmap Z Channel -> gmap Z Channel) (b : Book) : Book := {|
  own_client := own_client b; server := server b; clients := clients b; channels := f (channels b);
  channel_groups := channel_groups b; server_groups := server_groups b |}.
Definition set_channel_groups (f : gmap Z ChannelGroup -> gmap Z ChannelGroup) (b : Book) : Book := {|
  own_client := own_client b; server := server b; clients := clients b; channels := channels b;
  channel_groups := f (channel_groups b); server_groups := server_groups b |}.
Definition set_server_groups (f : gmap Z ServerGroup -> gmap Z ServerGroup) (b : Book) : Book := {|
  own_client := own_client b; server := server b; clients := clients b; channels := channels b;
  channel_groups := channel_groups b; server_groups := f (server_groups b) |}.
Definition set_server (s : Server) (b : Book) : Book := {|
  own_client := own_client b; server := s; clients := clients b; channels := channels b;
  channel_groups := channel_groups b; server_groups := server_groups b |}.

Definition put_client (id : Z) (c : Client) : bk unit := modify (set_clients <[id := c]>).
Definition put_channel (id : Z) (c : Channel) : bk unit := modify (set_channels <[id := c]>).

Definition with_order (c : Channel) (o : Z) : Channel := {|
  ch_id := ch_id c; ch_parent := ch_parent c; ch_order := o; ch_channel_type := ch_channel_type c;
  ch_max_clients := ch_max_clients c; ch_max_family_clients := ch_max_family_clients c;
  ch_subscribed := ch_subscribed c; ch_needed_talk_power := ch_needed_talk_power c;
  ch_is_unencrypted := ch_is_unencrypted c; ch_optional_data := ch_optional_data c; ch_rest := ch_rest c |}.
Definition with_type (c : Channel) (t : ChannelType) : Channel := {|
  ch_id := ch_id c; ch_parent := ch_parent c; ch_order := ch_order c; ch_channel_type := t;
  ch_max_clients := ch_max_clients c; ch_max_family_clients := ch_max_family_clients c;
  ch_subscribed := ch_subscribed c; ch_needed_talk_power := ch_needed_talk_power c;
  ch_is_unencrypted := ch_is_unencrypted c; ch_optional_data := ch_optional_data c; ch_rest := ch_rest c |}.
Definition with_limits (c : Channel) (m f : option MaxClients) : Channel := {|
  ch_id := ch_id c; ch_parent := ch_parent c; ch_order := ch_order c; ch_channel_type := ch_channel_type c;
  ch_max_clients := m; ch_max_family_clients := f;
  ch_subscribed := ch_subscribed c; ch_needed_talk_power := ch_needed_talk_power c;
  ch_is_unencrypted := ch_is_unencrypted c; ch_optional_data := ch_optional_data c; ch_rest := ch_rest c |}.
Definition with_subscribed (c : Channel) (s : bool) : Channel := {|
  ch_id := ch_id c; ch_parent := ch_parent c; ch_order := ch_order c; ch_channel_type := ch_channel_type c;
  ch_max_clients := ch_max_clients c; ch_max_family_clients := ch_max_family_clients c;
  ch_subscribed := s; ch_needed_talk_power := ch_needed_talk_power c;
  ch_is_unencrypted := ch_is_unencrypted c; ch_optional_data := ch_optional_data c; ch_rest := ch_rest c |}.
Definition with_channel_data (c : Channel) (d : option OptionalChannelData) : Channel := {|
  ch_id := ch_id c; ch_parent := ch_parent c; ch_order := ch_order c; ch_channel_type := ch_channel_type c;
  ch_max_clients := ch_max_clients c; ch_max_family_clients := ch_max_family_clients c;
  ch_subscribed := ch_subscribed c; ch_needed_talk_power := ch_needed_talk_power c;
  ch_is_unencrypted := ch_is_unencrypted c; ch_optional_data := d; ch_rest := ch_rest c |}.

Definition with_name (c : Client) (name : list Z) : Client := {|
  cl_id := cl_id c; cl_name := name; cl_channel := cl_channel c; cl_away_message := cl_away_message c;
  cl_talk_power_request := cl_talk_power_request c; cl_mutes := cl_mutes c; cl_talk_power := cl_talk_power c;
  cl_talk_power_granted := cl_talk_power_granted c; cl_connection_data := cl_connection_data c;
  cl_optional_data := cl_optional_data c; cl_rest := cl_rest c |}.
Definition with_away (c : Client) (away : option (list Z)) : Client := {|
  cl_id := cl_id c; cl_name := cl_name c; cl_channel := cl_channel c; cl_away_message := away;
  cl_talk_power_request := cl_talk_power_request c; cl_mutes := cl_mutes c; cl_talk_power := cl_talk_power c;
  cl_talk_power_granted := cl_talk_power_granted c; cl_connection_data := cl_connection_data c;
  cl_optional_data := cl_optional_data c; cl_rest := cl_rest c |}.
Definition with_talk_request (c : Client) (t : option TalkPowerRequest) : Client := {|
  cl_id := cl_id c; cl_name := cl_name c; cl_channel := cl_channel c; cl_away_message := cl_away_message c;
  cl_talk_power_request := t; cl_mutes := cl_mutes c; cl_talk_power := cl_talk_power c;
  cl_talk_power_granted := cl_talk_power_granted c; cl_connection_data := cl_connection_data c;
  cl_optional_data := cl_optional_data c; cl_rest := cl_rest c |}.
Definition with_client_data (c : Client) (d : option ConnectionClientData) (o : option OptionalClientData)
    : Client := {|
  cl_id := cl_id c; cl_name := cl_name c; cl_channel := cl_channel c; cl_away_message := cl_away_message c;
  cl_talk_power_request := cl_talk_power_request c; cl_mutes := cl_mutes c; cl_talk_power := cl_talk_power c;
  cl_talk_power_granted := cl_talk_power_granted c; cl_connection_data := d;
  cl_optional_data := o; cl_rest := cl_rest c |}.
Definition with_mutes (c : Client) (m : Mutes) : Client := {|
  cl_id := cl_id c; cl_name := cl_name c; cl_channel := cl_channel c; cl_away_message := cl_away_message c;
  cl_talk_power_request := cl_talk_power_request c; cl_mutes := m; cl_talk_power := cl_talk_power c;
  cl_talk_power_granted := cl_talk_power_granted c; cl_connection_data := cl_connection_data c;
  cl_optional_data := cl_optional_data c; cl_rest := cl_rest c |}.
Definition with_server_data (s : Server) (o : option OptionalServerData) (d : option ConnectionServerData)
    : Server := {|
  sv_id := sv_id s; sv_public_key := sv_public_key s; sv_ips := sv_ips s; sv_license := sv_license s;
  sv_optional_data := o; sv_connection_data := d; sv_attrs := sv_attrs s |}.

(** * Lookup and replacement *)

Definition not_found (what : string) (id : Z) : BookError := NotFound what (to_dec id).

Definition get_channel_group (group : Z) : bk ChannelGroup :=
  b ← get_book; from_option_or (channel_groups b !! group) (not_found "ChannelGroup" group).

Definition add_channel_group (group : Z) (r : ChannelGroup) : bk (option ChannelGroup) :=
  b ← get_book; modify (set_channel_groups <[group := r]>);; mret (channel_groups b !! group).

Definition get_server_group (group : Z) : bk ServerGroup :=
  b ← get_book; from_option_or (server_groups b !! group) (not_found "ServerGroup" group).

Definition add_server_group (group : Z) (r : ServerGroup) : bk (option ServerGroup) :=
  b ← get_book; modify (set_server_groups <[group := r]>);; mret (server_groups b !! group).

Definition get_optional_server_data : bk (option OptionalServerData) :=
  b ← get_book; mret (sv_optional_data (server b)).

Definition replace_optional_server_data (r : OptionalServerData) : bk (option OptionalServerData) :=
  b ← get_book;
  modify (set_server (with_server_data (server b) (Some r) (sv_connection_data (server b))));;
  mret (sv_optional_data (server b)).

Definition remove_optional_server_data : bk (option OptionalServerData) :=
  b ← get_book;
  modify (set_server (with_server_data (server b) None (sv_connection_data (server b))));;
  mret (sv_optional_data (server b)).

Definition get_connection_server_data : bk (option ConnectionServerData) :=
  b ← get_book; mret (sv_connection_data (server b)).

Definition replace_connection_server_data (r : ConnectionServerData) : bk (option ConnectionServerData) :=
  b ← get_book;
  modify (set_server (with_server_data (server b) (sv_optional_data (server b)) (Some r)));;
  mret (sv_connection_data (server b)).

(** [get_client] and [get_mut_client]; a change through the reference is [put_client]. *)
Definition get_client (client : Z) : bk Client :=
  b ← get_book; from_option_or (clients b !! client) (not_found "Client" client).

Definition add_client (client : Z) (r : Client) : bk (option Client) :=
  b ← get_book; put_client client r;; mret (clients b !! client).

Definition remove_client (client : Z) : bk (option Client) :=
  b ← get_book; modify (set_clients (delete client));; mret (clients b !! client).

Definition get_connection_client_data (client : Z) : bk (option ConnectionClientData) :=
  c ← get_client client; mret (cl_connection_data c).

Definition replace_connection_client_data (client : Z) (r : ConnectionClientData)
    : bk (option ConnectionClientData) :=
  c ← get_client client;
  put_client client (with_client_data c (Some r) (cl_optional_data c));;
  mret (cl_connection_data c).

Definition get_optional_client_data (client : Z) : bk (option OptionalClientData) :=
  c ← get_client client; mret (cl_optional_data c).

Definition replace_optional_client_data (client : Z) (r : OptionalClientData)
    : bk (option OptionalClientData) :=
  c ← get_client client;
  put_client client (with_client_data c (cl_connection_data c) (Some r));;
  mret (cl_optional_data c).

Definition get_channel (channel : Z) : bk Channel :=
  b ← get_book; from_option_or (channels b !! channel) (not_found "Channel" channel).

Definition get_optional_channel_data (channel : Z) : bk (option OptionalChannelData) :=
  c ← get_channel channel; mret (ch_optional_data c).

Definition replace_optional_channel_data (channel : Z) (r : OptionalChannelData)
    : bk (option OptionalChannelData) :=
  c ← get_channel channel; put_channel channel (with_channel_data c (Some r));;
  mret (ch_optional_data c).

Definition remove_optional_channel_data (channel : Z) : bk (option OptionalChannelData) :=
  c ← get_channel channel; put_channel channel (with_channel_data c None);;
  mret (ch_optional_data c).
End book.

(** The order in which a [HashMap] is iterated. *)
Class HashOrder := { iter : forall A : Type, gmap Z A -> list (Z * A) }.
Class HashOrderLaws `{HashOrder} : Prop := {
  iter_entries (A : Type) (m : gmap Z A) : iter A m ≡ₚ map_to_list m;
}.

(** * The order of channels

    The field [order] of a channel is the id of the channel above it, among those with the same
    parent; it is 0 for the first one. *)
Section order.
Context `{P256} `{Declarations} `{HashOrder}.

(** [values_mut().any(..)]: the first channel with the property gets a new order. *)
Definition reorder_first (p : Channel -> bool) (order : Z) : bk unit :=
  b ← get_book;
  match list_find (fun e => p e.2 = true) (iter Channel (channels b)) with
  | Some (_, (k, c)) =>
      push (PropertyChanged (PropChannelOrder (ch_id c)) (ValChannelId (ch_order c)) None None);;
      put_channel k (with_order c order)
  | None => mret tt
  end.

Definition channel_order_remove (channel_id channel_order : Z) : bk unit :=
  reorder_first (fun c => (ch_order c =? channel_id) && negb (ch_id c =? channel_id)) channel_order.

Definition channel_order_insert (channel_id channel_order channel_parent : Z) : bk unit :=
  reorder_first (fun c => (ch_order c =? channel_order) && (ch_parent c =? channel_parent)
                          && negb (ch_id c =? channel_id)) channel_id.

Definition add_channel (channel : Z) (r : Channel) : bk (option Channel) :=
  channel_order_insert (ch_id r) (ch_order r) (ch_parent r);;
  b ← get_book;
  put_channel channel r;;
  mret (channels b !! channel).

Definition remove_channel (channel : Z) : bk (option Channel) :=
  b ← get_book;
  modify (set_channels (delete channel));;
  match channels b !! channel with
  | Some ch => channel_order_remove (ch_id ch) (ch_order ch);; mret (Some ch)
  | None => mret None
  end.

Definition channel_order_move_fun (channel_id : Z) (new_order parent : option Z) : bk unit :=
  if is_some new_order || is_some parent then
    channel ← get_channel channel_id;
    match new_order with
    | Some order =>
        push (PropertyChanged (PropChannelOrder (ch_id channel)) (ValChannelId (ch_order channel)) None None);;
        put_channel channel_id (with_order channel order)
    | None => mret tt
    end;;
    channel_order_remove channel_id (ch_order channel);;
    channel_order_insert channel_id (default (ch_order channel) new_order) (default (ch_parent channel) parent)
  else mret tt.
End order.

(** * The messages of the server *)
Section messages.
Context `{P256} `{Declarations} `{HashOrder}.

(** The limits of a channel as they are sent, each part optional. *)
Record ClientLimits := {
  lim_max_clients : option Z;
  lim_is_max_clients_unlimited : option bool;
  lim_max_family_clients : option Z;
  lim_is_max_family_clients_unlimited : option bool;
  lim_inherits_max_family_clients : option bool;
}.

Record InChannelCreatedPart := {
  icc_channel_id : Z;
  icc_parent_id : Z;
  icc_order : Z;
  icc_limits : ClientLimits;
  icc_is_permanent : option bool;
  icc_is_semi_permanent : option bool;
  icc_codec : option Codec;
}.

Record InChannelEditedPart := {
  ice_order : option Z;
  ice_parent_id : option Z;
  ice_limits : ClientLimits;
  ice_is_permanent : option bool;
  ice_is_semi_permanent : option bool;
  ice_reason : Reason;
  ice_invoker : option Invoker;
}.

Record InChannelListPart := {
  icl_max_clients : Z;
  icl_is_max_clients_unlimited : bool;
  icl_max_family_clients : Z;
  icl_is_max_family_clients_unlimited : bool;
  icl_inherits_max_family_clients : bool;
  icl_is_permanent : bool;
  icl_is_semi_permanent : bool;
}.

Record InChannelMovedPart := { icm_order : Z; icm_parent_id : Z }.

Record InClientEnterViewPart := {
  cev_uid : list Z;
  cev_client_type : ClientType;
  cev_is_away : bool;
  cev_away_message : list Z;
  cev_talk_power_request_time : OffsetDateTime;
  cev_talk_power_request_message : list Z;
}.

Record InClientUpdatedPart := {
  cu_client_id : Z;
  cu_name : option (list Z);
  cu_is_away : option bool;
  cu_away_message : option (list Z);
  cu_talk_power_request_time : option OffsetDateTime;
  cu_talk_power_request_message : option (list Z);
  cu_invoker : option Invoker;
}.

Record InClientMovedPart := { cm_client_id : Z; cm_target_channel_id : Z }.

Record InClientConnectionInfoPart := {
  cci_client_id : Z;
  cci_connected_time : option Z;
  cci_ip : option (list Z);
  cci_port : option Z;
}.

(** ** Limits, types and codecs of channels *)

Definition is_true (o : option bool) : bool := default false o.
Definition fits_u16 (i : Z) : bool := (0 <=? i) && (i <=? 0xffff).

(** The macro [max_clients!]. *)
Definition max_clients (msg : ClientLimits) : option MaxClients :=
  if is_true (lim_is_max_clients_unlimited msg) then Some Unlimited
  else match lim_max_clients msg with
       | Some i => if fits_u16 i then Some (Limited i) else None
       | None => None
       end.

(** The same lines are in both functions. *)
Definition max_family_clients (msg : ClientLimits) : option MaxClients :=
  if is_true (lim_is_max_family_clients_unlimited msg) then Some Unlimited
  else if is_true (lim_inherits_max_family_clients msg) then Some Inherited
  else match lim_max_family_clients msg with
       | Some i => if fits_u16 i then Some (Limited i) else None
       | None => None
       end.

Definition max_clients_cc_fun (msg : InChannelCreatedPart)
    : bk (option MaxClients * option MaxClients) :=
  mret (max_clients (icc_limits msg), max_family_clients (icc_limits msg)).

Definition max_clients_ce_fun (channel_id : Z) (msg : InChannelEditedPart) : bk unit :=
  channel ← get_channel channel_id;
  channel ← match max_clients (ice_limits msg) with
    | Some ch =>
        push (PropertyChanged (PropChannelMaxClients channel_id) (ValOptionMaxClients (ch_max_clients channel))
               (ice_invoker msg) (Some (ice_reason msg)));;
        let channel := with_limits channel (Some ch) (ch_max_family_clients channel) in
        put_channel channel_id channel;; mret channel
    | None => mret channel
    end;
  match max_family_clients (ice_limits msg) with
  | Some ch_fam =>
      push (PropertyChanged (PropChannelMaxFamilyClients channel_id)
             (ValOptionMaxClients (ch_max_family_clients channel)) (ice_invoker msg) (Some (ice_reason msg)));;
      put_channel channel_id (with_limits channel (ch_max_clients channel) (Some ch_fam))
  | None => mret tt
  end.

Definition max_clients_cl_fun (msg : InChannelListPart) : bk (option MaxClients * option MaxClients) :=
  let ch :=
    if icl_is_max_clients_unlimited msg then Some Unlimited
    else if fits_u16 (icl_max_clients msg) then Some (Limited (icl_max_clients msg))
    else None in
  let ch_fam :=
    if icl_is_max_family_clients_unlimited msg then Some Unlimited
    else if icl_inherits_max_family_clients msg then Some Inherited
    else if fits_u16 (icl_max_family_clients msg) then Some (Limited (icl_max_family_clients msg))
    else Some Unlimited in
  mret (ch, ch_fam).

Definition channel_flags_to_type (perm semi : option bool) : ChannelType :=
  match is_true perm, is_true semi with
  | true, _ => Permanent
  | _, true => SemiPermanent
  | false, false => Temporary
  end.

Definition channel_type_cc_fun (msg : InChannelCreatedPart) : bk ChannelType :=
  mret (channel_flags_to_type (icc_is_permanent msg) (icc_is_semi_permanent msg)).

Definition channel_type_ce_fun (channel_id : Z) (msg : InChannelEditedPart) : bk unit :=
  channel ← get_channel channel_id;
  if negb (is_some (ice_is_permanent msg)) && negb (is_some (ice_is_semi_permanent msg)) then mret tt
  else
    let typ := channel_flags_to_type (ice_is_permanent msg) (ice_is_semi_permanent msg) in
    push (PropertyChanged (PropChannelChannelType channel_id) (ValChannelType (ch_channel_type channel))
           (ice_invoker msg) (Some (ice_reason msg)));;
    put_channel channel_id (with_type channel typ).

Definition channel_type_cl_fun (msg : InChannelListPart) : bk ChannelType :=
  mret (channel_flags_to_type (Some (icl_is_permanent msg)) (Some (icl_is_semi_permanent msg))).

Definition channel_codec_cc_fun (msg : InChannelCreatedPart) : bk Codec :=
  mret (default OpusVoice (icc_codec msg)).

Definition channel_order_cc_fun (msg : InChannelCreatedPart) : bk Z :=
  channel_order_insert (icc_channel_id msg) (icc_order msg) (icc_parent_id msg);;
  mret (icc_order msg).

Definition channel_order_ce_fun (channel_id : Z) (msg : InChannelEditedPart) : bk unit :=
  channel_order_move_fun channel_id (ice_order msg) (ice_parent_id msg).

Definition channel_order_cm_fun (channel_id : Z) (msg : InChannelMovedPart) : bk unit :=
  channel_order_move_fun channel_id (Some (icm_order msg)) (Some (icm_parent_id msg)).

(** ** Clients *)

Definition away_cev_fun (msg : InClientEnterViewPart) : bk (option (list Z)) :=
  mret (if cev_is_away msg then Some (cev_away_message msg) else None).

Definition client_type_cev_fun (msg : InClientEnterViewPart) : bk ClientType :=
  mret (if is_server_admin (cev_uid msg) then
          match cev_client_type msg with
          | QueryClient _ => QueryClient true
          | t => t
          end
        else cev_client_type msg).

Definition set_away (client_id : Z) (client : Client) (invoker : option Invoker) (away : option (list Z))
    : bk unit :=
  push (PropertyChanged (PropClientAwayMessage client_id) (ValOptionString (cl_away_message client))
         invoker None);;
  put_client client_id (with_away client away).

Definition away_cu_fun (client_id : Z) (msg : InClientUpdatedPart) : bk unit :=
  client ← get_client client_id;
  match cu_is_away msg with
  | Some is_away =>
      if negb (Bool.eqb is_away (is_some (cl_away_message client))) then
        let away := if is_away then Some (default [] (cu_away_message msg)) else None in
        set_away client_id client (cu_invoker msg) away
      else mret tt
  | None =>
      match cu_away_message msg, cl_away_message client with
      | Some away_message, Some cur_msg =>
          if bool_decide (away_message = cur_msg) then mret tt
          else set_away client_id client (cu_invoker msg) (Some away_message)
      | _, _ => mret tt
      end
  end.

Definition talk_power_cev_fun (msg : InClientEnterViewPart) : bk (option TalkPowerRequest) :=
  mret (if 0 <? unix_timestamp (cev_talk_power_request_time msg)
        then Some {| tpr_time := cev_talk_power_request_time msg;
                     tpr_message := cev_talk_power_request_message msg |}
        else None).

Definition talk_power_cu_fun (client_id : Z) (msg : InClientUpdatedPart) : bk unit :=
  match cu_talk_power_request_time msg with
  | Some time =>
      client ← get_client client_id;
      let talk_request :=
        if 0 <? unix_timestamp time
        then Some {| tpr_time := time; tpr_message := default [] (cu_talk_power_request_message msg) |}
        else None in
      push (PropertyChanged (PropClientTalkPowerRequest client_id)
             (ValOptionTalkPowerRequest (cl_talk_power_request client)) (cu_invoker msg) None);;
      put_client client_id (with_talk_request client talk_request)
  | None => mret tt
  end.

(** [trim_matches(&['[', ']'])] *)
Definition is_bracket (c : Z) : bool := (c =? 0x5b) || (c =? 0x5d).

Fixpoint trim_start (p : Z -> bool) (l : list Z) : list Z :=
  match l with
  | c :: l' => if p c then trim_start p l' else l
  | [] => []
  end.

Definition trim_matches (p : Z -> bool) (l : list Z) : list Z :=
  rev (trim_start p (rev (trim_start p l))).

Definition address_fun (msg : InClientConnectionInfoPart) : bk (option (option (IpAddr * Z))) :=
  match cci_ip msg, cci_port msg with
  | Some ip, Some port =>
      if bool_decide (ip = []) then mret (Some None)
      else
        ip ← from_option_or (parse_ip_addr (trim_matches is_bracket ip)) InvalidConnectionIp;
        mret (Some (Some (ip, port)))
  | _, _ => mret (Some None)
  end.

(** ** Subscriptions *)

Definition set_subscribed (channel_id : Z) (channel : Channel) (s : bool) : bk unit :=
  push (PropertyChanged (PropChannelSubscribed channel_id) (ValBool (ch_subscribed channel)) None None);;
  put_channel channel_id (with_subscribed channel s).

Definition channel_subscribe_fun (channel_id : Z) : bk unit :=
  channel ← get_channel channel_id;
  set_subscribed channel_id channel true.

(** The clients of the loop are gone from the book afterwards; [unwrap] panics. *)
Fixpoint remove_clients (ids : list Z) : bk unit :=
  match ids with
  | [] => mret tt
  | id :: ids =>
      b ← get_book;
      modify (set_clients (delete id));;
      match clients b !! id with
      | Some c => push (PropertyRemoved (PropClient id) (ValClient c) None None);; remove_clients ids
      | None => bk_panic
      end
  end.

Definition channel_unsubscribe_fun (channel_id : Z) : bk unit :=
  channel ← get_channel channel_id;
  set_subscribed channel_id channel false;;
  b ← get_book;
  remove_clients (cl_id <$> base.filter (fun c => cl_channel c = channel_id) (iter Client (clients b)).*2).

Definition subscribe_channel_fun (client_id : Z) (msg : InClientMovedPart) : bk unit :=
  b ← get_book;
  if (client_id =? own_client b) && negb (cm_target_channel_id msg =? 0) then
    channel ← get_channel (cm_target_channel_id msg);
    set_subscribed (cm_target_channel_id msg) channel true
  else mret tt.

(** ** Handling a message *)

Record InTextMessagePart := {
  tm_target : TextMessageTargetMode;
  tm_target_client_id : option Z;
  tm_invoker_name : list Z;
  tm_invoker_id : Z;
  tm_invoker_uid : option (list Z);
  tm_message : list Z;
}.

Record InClientPokePart := {
  pk_invoker_name : list Z;
  pk_invoker_id : Z;
  pk_invoker_uid : option (list Z);
  pk_message : list Z;
}.

Record InInitServerPart := {
  iis_client_id : Z;
  iis_virtual_server_id : Z;
  iis_ips : option (list (list Z));
  iis_attrs : ServerAttrs;
}.

Record InCommandErrorPart := {
  ce_id : TsServerError;
  ce_return_code : option (list Z);
  ce_missing_permission_id : option Z;
  ce_extra_message : option (list Z);
}.

(** A download has a size, an upload a position. *)
Record InFiletransferPart := {
  ft_client_filetransfer_id : Z;
  ft_ip : option IpAddr;
  ft_port : Z;
  ft_filetransfer_key : list Z;
  ft_size_or_position : Z;
}.

Record InFiletransferStatusPart := { fs_client_filetransfer_id : Z; fs_status : TsServerError }.

Record InClientLeftViewPart := { clv_client_id : Z; clv_reason : option Reason }.

Inductive InMessage :=
  | TextMessage (parts : list InTextMessagePart)
  | ClientPoke (parts : list InClientPokePart)
  | CommandError (parts : list InCommandErrorPart)
  | FileDownload (parts : list InFiletransferPart)
  | FileUpload (parts : list InFiletransferPart)
  | FiletransferStatus (parts : list InFiletransferStatusPart)
  | ClientConnectionInfoUpdateRequest
  | ClientConnectionInfo (parts : list InClientConnectionInfoPart)
  | ChannelCreated (parts : list InChannelCreatedPart)
  | ClientLeftView (parts : list InClientLeftViewPart)
  | ClientMoved (parts : list InClientMovedPart)
  | ClientUpdated (parts : list InClientUpdatedPart)
  | InitServer (parts : list InInitServerPart)
  | OtherInMessage (m : OtherMessage).

(** [handle_command_generated] returns if it handled the message, and the events. *)
Class Generated := {
  handle_command_generated : InMessage -> Book -> res BookError (bool * list Event) * Book;
}.

Definition text_message_target (msg : InTextMessagePart) : res BookError MessageTarget :=
  match tm_target msg with
  | TargetServer => Ok ToServer
  | TargetChannel => Ok ToChannel
  | TargetClient =>
      match tm_target_client_id msg with
      | Some client => Ok (ToClient client)
      | None => Err MessageWithoutTargetClientId
      end
  | TargetUnknown => Err UnknownTextMessageTargetMode
  end.

Definition text_message_event (target : MessageTarget) (msg : InTextMessagePart) : Event :=
  Message target {| inv_name := tm_invoker_name msg; inv_id := tm_invoker_id msg;
                    inv_uid := tm_invoker_uid msg |} (tm_message msg).

Definition poke_event (msg : InClientPokePart) : Event :=
  Message (ToPoke (pk_invoker_id msg))
    {| inv_name := pk_invoker_name msg; inv_id := pk_invoker_id msg; inv_uid := pk_invoker_uid msg |}
    (pk_message msg).

Fixpoint text_messages (parts : list InTextMessagePart) (handled : bool) : bk bool :=
  match parts with
  | [] => mret handled
  | msg :: parts =>
      match text_message_target msg with
      | Ok target => push (text_message_event target msg);; text_messages parts true
      | Err e => fail e
      | Panic => bk_panic
      end
  end.

Fixpoint pokes (parts : list InClientPokePart) (handled : bool) : bk bool :=
  match parts with
  | [] => mret handled
  | msg :: parts => push (poke_event msg);; pokes parts true
  end.

(** The end of [handle_command]: the first event knows the name of its invoker. *)
Definition adjust_name : bk unit := fun s =>
  match head s.2 ≫= get_invoker with
  | Some invoker =>
      match clients s.1 !! inv_id invoker with
      | Some client =>
          if bool_decide (cl_name client = inv_name invoker) then (Ok tt, s)
          else (push (PropertyChanged (PropClientName (cl_id client)) (ValString (cl_name client)) None None);;
                put_client (inv_id invoker) (with_name client (inv_name invoker))) s
      | None => (Ok tt, s)
      end
  | None => (Ok tt, s)
  end.

Context `{Generated}.

Definition special_message (msg : InMessage) (handled : bool) : bk bool :=
  match msg with
  | TextMessage parts => text_messages parts handled
  | ClientPoke parts => pokes parts handled
  | CommandError _ => mret true
  | _ => mret handled
  end.

(** On an error the events are lost, but not the changes. *)
Definition book_handle_command (msg : InMessage) (b : Book) : res BookError (list Event * bool) * Book :=
  match handle_command_generated msg b with
  | (Ok (handled, events), b) =>
      let '(r, (b, events)) := (handled ← special_message msg handled; adjust_name;; mret handled) (b, events) in
      (match r with Ok handled => Ok (events, handled) | Err e => Err e | Panic => Panic end, b)
  | (Err e, b) => (Err e, b)
  | (Panic, b) => (Panic, b)
  end.

(** ** A new book *)

(** The attributes that [copy_attrs!] copies are [iis_attrs]. *)
Definition Book_new (public_key : EccKeyPubP256) (msg : list InInitServerPart) : res BookError Book :=
  let? packet := unwrap (head msg) in
  Ok {| own_client := iis_client_id packet;
        server := {| sv_id := iis_virtual_server_id packet; sv_public_key := public_key;
                     sv_ips := default [] (iis_ips packet); sv_license := NoLicense;
                     sv_optional_data := None; sv_connection_data := None; sv_attrs := iis_attrs packet |};
        clients := ∅; channels := ∅; channel_groups := ∅; server_groups := ∅ |}.
End messages.
