(* ===== verification/BookSpec.v ===== *)
(** The order of channels refines lists: for every parent the field [order] links its channels to a
    list, and adding, removing and moving a channel insert into and remove from these lists. *)
From stdpp Require Import strings gmap.
From S2P Require Import Prelude Text Packets Commands InitPackets Ip IpParse CryptoLib Crypto Book.
#[local] Open Scope Z_scope.

(** * Specification *)

(** Every element of the list has its predecessor as order, the first one [prev]. *)
Fixpoint links (ord : Z -> option Z) (prev : Z) (l : list Z) : Prop :=
  match l with
  | [] => True
  | x :: l => ord x = Some prev /\ links ord x l
  end.

Fixpoint insert_after (o x prev : Z) (l : list Z) : list Z :=
  if o =? prev then x :: l
  else match l with
       | [] => []
       | y :: l => y :: insert_after o x y l
       end.

Definition remove_id (x : Z) (l : list Z) : list Z := base.filter (fun y => y <> x) l.

Definition set_at (L : Z -> list Z) (q : Z) (l : list Z) : Z -> list Z :=
  fun q' => if decide (q' = q) then l else L q'.

(** Channels with their order and parent, and the lists of the channels of each parent. *)
Record arranged (L : Z -> list Z) (f : Z -> option (Z * Z)) : Prop := {
  arr_members x q : x ∈ L q <-> exists o, f x = Some (o, q);
  arr_nodup q : NoDup (0 :: L q);
  arr_linked q : links (fun x => fst <$> f x) 0 (L q);
}.

Definition unlink (x o : Z) (f : Z -> option (Z * Z)) : Z -> option (Z * Z) := fun y =>
  if decide (y = x) then None
  else (fun '(o', q) => (if o' =? x then o else o', q)) <$> f y.

Definition link (x o q : Z) (f : Z -> option (Z * Z)) : Z -> option (Z * Z) := fun y =>
  if decide (y = x) then Some (o, q)
  else (fun '(o', q') => (if (o' =? o) && (q' =? q) then x else o', q')) <$> f y.

(** * Linked lists *)

Lemma links_ext ord ord' prev l :
  links ord prev l -> (forall y, y ∈ l -> ord' y = ord y) -> links ord' prev l.
Proof.
  revert prev. induction l as [|x l IH]; [done|]. intros prev [Hx Hl] Ho. split; [by rewrite Ho by left|].
  apply IH; [done|]. intros y Hy. apply Ho. by right.
Qed.

(** The order of an element is an element or the start. *)
Lemma links_pred ord prev l y o : links ord prev l -> y ∈ l -> ord y = Some o -> o ∈ prev :: l.
Proof.
  revert prev. induction l as [|x l IH]; intros prev Hl Hy Ho; [by apply elem_of_nil in Hy|].
  destruct Hl as [Hx Hl]. apply elem_of_cons in Hy as [->|Hy].
  - rewrite Hx in Ho. injection Ho as <-. left.
  - right. by apply (IH x).
Qed.

Lemma links_inj ord prev l y z :
  links ord prev l -> NoDup (prev :: l) -> y ∈ l -> z ∈ l -> ord y = ord z -> y = z.
Proof.
  revert prev. induction l as [|x l IH]; intros prev Hl Hd Hy Hz Ho; [by apply elem_of_nil in Hy|].
  destruct Hl as [Hx Hl].   apply NoDup_cons in Hd as [Hp Hd].
  assert (forall w, w ∈ l -> ord w <> Some prev) as Hne.
  { intros w Hw Hw'. apply Hp. by apply (links_pred ord x l w). }
  apply elem_of_cons in Hy as [->|Hy], Hz as [->|Hz]; [done|..|by apply (IH x)]; exfalso.
  - apply (Hne z Hz). congruence.
  - apply (Hne y Hy). congruence.
Qed.

(** A list behind another element. *)
Lemma links_rehead ord ord' a b l :
  links ord a l -> NoDup (a :: l) ->
  (forall y, y ∈ l -> ord' y = if decide (ord y = Some a) then Some b else ord y) -> links ord' b l.
Proof.
  destruct l as [|x l]; [done|]. intros [Hx Hl] Hd Ho. split; [by rewrite Ho, decide_True by (done || left)|].
  apply (links_ext ord); [done|]. intros y Hy. rewrite Ho by (by right). apply decide_False.
  intros Hya. apply NoDup_cons in Hd as [Ha _]. apply Ha. by apply (links_pred ord x l y).
Qed.

Lemma links_insert ord ord' prev l x o :
  links ord prev l -> NoDup (prev :: l) -> o ∈ prev :: l -> ord' x = Some o ->
  (forall y, y ∈ l -> ord' y = if decide (ord y = Some o) then Some x else ord y) ->
  links ord' prev (insert_after o x prev l).
Proof.
  revert prev. induction l as [|y l IH]; intros prev Hl Hd Ho Hx Hy; cbn [insert_after].
  - apply list_elem_of_singleton in Ho as ->. rewrite Z.eqb_refl. by split.
  - destruct (Z.eqb_spec o prev) as [->|Hne].
    + split; [done|]. by apply (links_rehead ord ord' prev).
    + destruct Hl as [Hyp Hl]. apply NoDup_cons in Hd as [Hp Hd].
      apply elem_of_cons in Ho as [Ho|Ho]; [done|]. split.
      * rewrite Hy by left. rewrite decide_False; [done|]. congruence.
      * apply IH; try done. intros z Hz. apply Hy. by right.
Qed.

Lemma remove_id_notin x l : x ∉ l -> remove_id x l = l.
Proof.
  unfold remove_id. induction l as [|y l IH]; [done|]. rewrite not_elem_of_cons. intros [Hy Hl].
  rewrite filter_cons_True by congruence. by rewrite IH.
Qed.

Lemma links_remove ord ord' prev l x o :
  links ord prev l -> NoDup (prev :: l) -> x ∈ l -> ord x = Some o ->
  (forall y, y ∈ l -> y <> x -> ord' y = if decide (ord y = Some x) then Some o else ord y) ->
  links ord' prev (remove_id x l).
Proof.
  unfold remove_id. revert prev. induction l as [|y l IH]; intros prev Hl Hd Hx Ho Hy;
    [by apply elem_of_nil in Hx|].
  destruct Hl as [Hyp Hl]. apply NoDup_cons in Hd as [Hp Hd].
  destruct (decide (y = x)) as [->|Hne].
  - rewrite filter_cons_False by tauto. apply NoDup_cons in Hd as Hd'. destruct Hd' as [Hxl _].
    fold (remove_id x l). rewrite remove_id_notin by done.
    assert (o = prev) as -> by congruence. apply (links_rehead ord ord' x); [done|done|].
    intros z Hz. apply Hy; [by right|]. intros ->. by apply Hxl.
  - rewrite filter_cons_True by done. apply elem_of_cons in Hx as [->|Hx]; [done|]. split.
    + rewrite Hy by (done || left). rewrite decide_False; [done|]. rewrite Hyp. intros [= ->].
      apply Hp. by right.
    + apply (IH y); try done. intros z Hz. apply Hy. by right.
Qed.

Lemma elem_of_insert_after o x prev l y :
  o ∈ prev :: l -> y ∈ insert_after o x prev l <-> y = x \/ y ∈ l.
Proof.
  revert prev. induction l as [|z l IH]; intros prev Ho; cbn [insert_after].
  - apply list_elem_of_singleton in Ho as ->. by rewrite Z.eqb_refl, elem_of_cons.
  - destruct (Z.eqb_spec o prev) as [->|Hne]; [by rewrite elem_of_cons|].
    apply elem_of_cons in Ho as [Ho|Ho]; [done|]. rewrite !elem_of_cons, IH by done. tauto.
Qed.

Lemma NoDup_insert_after o x prev l :
  o ∈ prev :: l -> NoDup l -> x ∉ l -> NoDup (insert_after o x prev l).
Proof.
  revert prev. induction l as [|z l IH]; intros prev Ho Hd Hx; cbn [insert_after].
  - apply list_elem_of_singleton in Ho as ->. rewrite Z.eqb_refl. by constructor.
  - destruct (Z.eqb_spec o prev) as [->|Hne]; [by constructor|].
    apply elem_of_cons in Ho as [Ho|Ho]; [done|]. apply NoDup_cons in Hd as [Hz Hd].
    rewrite not_elem_of_cons in Hx. destruct Hx as [Hxz Hx]. constructor; [|by apply IH].
    rewrite elem_of_insert_after by done. intros [->|Hin]; done.
Qed.

(** * Arrangements *)

Lemma arranged_parent L f x q q' : arranged L f -> x ∈ L q -> x ∈ L q' -> q = q'.
Proof. intros Ha [o Hq]%(arr_members _ _ Ha) [o' Hq']%(arr_members _ _ Ha). congruence. Qed.

Lemma arranged_order L f y o q : arranged L f -> f y = Some (o, q) -> o ∈ 0 :: L q.
Proof.
  intros Ha Hy. apply (links_pred (fun x => fst <$> f x) 0 (L q) y); [apply (arr_linked _ _ Ha)| |].
  - apply (arr_members _ _ Ha). by exists o.
  - by rewrite Hy.
Qed.

Lemma arranged_nonzero L f x o q : arranged L f -> f x = Some (o, q) -> x <> 0.
Proof.
  intros Ha Hx ->. pose proof (arr_nodup _ _ Ha q) as Hd. apply NoDup_cons in Hd as [Hd _]. apply Hd.
  apply (arr_members _ _ Ha). by exists o.
Qed.

(** The channel above is unique, and so is the one below. *)
Lemma arranged_unique L f y z o q :
  arranged L f -> f y = Some (o, q) -> f z = Some (o, q) -> y = z.
Proof.
  intros Ha Hy Hz. apply (links_inj (fun x => fst <$> f x) 0 (L q)).
  - apply (arr_linked _ _ Ha).
  - apply (arr_nodup _ _ Ha).
  - apply (arr_members _ _ Ha). by exists o.
  - apply (arr_members _ _ Ha). by exists o.
  - by rewrite Hy, Hz.
Qed.

Lemma arranged_below L f x o p y q :
  arranged L f -> f x = Some (o, p) -> f y = Some (x, q) -> q = p.
Proof.
  intros Ha Hx Hy. pose proof (arranged_order L f y x q Ha Hy) as Hin.
  apply elem_of_cons in Hin as [->|Hin]; [by apply (arranged_nonzero _ _ _ _ _ Ha) in Hx|].
  apply (arranged_parent L f x q p Ha Hin). apply (arr_members _ _ Ha). by exists o.
Qed.

Lemma unlink_arranged L f x o p :
  arranged L f -> f x = Some (o, p) -> arranged (set_at L p (remove_id x (L p))) (unlink x o f).
Proof.
  intros Ha Hx.
  assert (Hmem : forall y q, y ∈ L q -> y <> x ->
    (fst <$> unlink x o f y) = if decide ((fst <$> f y) = Some x) then Some o else fst <$> f y).
  { intros y q [o' Hy]%(arr_members _ _ Ha) Hne. unfold unlink. rewrite decide_False by done. rewrite Hy. simpl.
    destruct (Z.eqb_spec o' x) as [->|]; [by rewrite decide_True|]. rewrite decide_False; [done|]. congruence. }
  split.
  - intros y q. unfold set_at, unlink. destruct (decide (q = p)) as [->|Hq].
    + unfold remove_id. rewrite list_elem_of_filter, (arr_members _ _ Ha). destruct (decide (y = x)) as [->|Hne].
      { split; [tauto|]. by intros [? ?]. }
      split.
      * intros [_ [o' Hy]]. rewrite Hy. by eexists.
      * intros [o' Hy]. split; [done|]. destruct (f y) as [[o'' q'']|]; [|done]. simpl in Hy.
        injection Hy as _ ->. by eexists.
    + rewrite (arr_members _ _ Ha). destruct (decide (y = x)) as [->|Hne].
      { split; intros [o' Hy]; congruence. }
      split; intros [o' Hy]; [rewrite Hy; by eexists|].
      destruct (f y) as [[o'' q'']|]; [|done]. simpl in Hy. injection Hy as _ ->. by eexists.
  - intros q. unfold set_at. destruct (decide (q = p)) as [->|Hq]; [|apply (arr_nodup _ _ Ha)].
    pose proof (arr_nodup _ _ Ha p) as Hd. apply NoDup_cons in Hd as [H0 Hd]. unfold remove_id. constructor.
    + rewrite list_elem_of_filter. tauto.
    + by apply NoDup_filter.
  - intros q. unfold set_at. destruct (decide (q = p)) as [->|Hq].
    + apply (links_remove (fun x => fst <$> f x) _ 0 (L p) x o).
      * apply (arr_linked _ _ Ha).
      * apply (arr_nodup _ _ Ha).
      * apply (arr_members _ _ Ha). by exists o.
      * by rewrite Hx.
      * intros y Hy Hne. by apply (Hmem y p).
    + apply (links_ext (fun x => fst <$> f x)); [apply (arr_linked _ _ Ha)|]. intros y Hy.
      assert (y <> x) as Hne.
      { intros ->. apply Hq. apply (arranged_parent L f x q p Ha Hy). apply (arr_members _ _ Ha). by exists o. }
      rewrite (Hmem y q) by done. apply decide_False. intros Hyx.
      apply (arr_members _ _ Ha) in Hy as [o' Hy]. rewrite Hy in Hyx. simpl in Hyx. injection Hyx as ->.
      apply Hq. by apply (arranged_below L f x o p y q).
Qed.

Lemma link_arranged L f x o q :
  arranged L f -> f x = None -> x <> 0 -> o ∈ 0 :: L q ->
  arranged (set_at L q (insert_after o x 0 (L q))) (link x o q f).
Proof.
  intros Ha Hx Hx0 Ho.
  assert (Hxl : forall q', x ∉ L q') by (intros q' [o' Hx']%(arr_members _ _ Ha); congruence).
  split.
  - intros y q'. unfold set_at, link. destruct (decide (q' = q)) as [->|Hq].
    + rewrite elem_of_insert_after, (arr_members _ _ Ha) by done. destruct (decide (y = x)) as [->|Hne].
      { split; [by eexists|]. tauto. }
      split.
      * intros [->|[o' Hy]]; [done|]. rewrite Hy. by eexists.
      * intros [o' Hy]. right. destruct (f y) as [[o'' q'']|]; [|done]. simpl in Hy.
        injection Hy as _ ->. by eexists.
    + rewrite (arr_members _ _ Ha). destruct (decide (y = x)) as [->|Hne].
      { split; intros [o' Hy]; congruence. }
      split; intros [o' Hy]; [rewrite Hy; by eexists|].
      destruct (f y) as [[o'' q'']|]; [|done]. simpl in Hy. injection Hy as _ ->. by eexists.
  - intros q'. unfold set_at. destruct (decide (q' = q)) as [->|Hq]; [|apply (arr_nodup _ _ Ha)].
    pose proof (arr_nodup _ _ Ha q) as Hd. apply NoDup_cons in Hd as [H0 Hd]. constructor.
    + rewrite elem_of_insert_after by done. intros [?|?]; [congruence|done].
    + by apply NoDup_insert_after.
  - intros q'. unfold set_at. destruct (decide (q' = q)) as [->|Hq].
    + apply (links_insert (fun x => fst <$> f x)); [apply (arr_linked _ _ Ha)|apply (arr_nodup _ _ Ha)|done|..].
      * unfold link. by rewrite decide_True.
      * intros y [o' Hy]%(arr_members _ _ Ha). unfold link. rewrite decide_False by congruence. rewrite Hy. simpl.
        rewrite Z.eqb_refl, andb_true_r. destruct (Z.eqb_spec o' o) as [->|]; [by rewrite decide_True|].
        rewrite decide_False; [done|]. congruence.
    + apply (links_ext (fun x => fst <$> f x)); [apply (arr_linked _ _ Ha)|]. intros y Hy.
      assert (y <> x) by (intros ->; by apply (Hxl q')).
      apply (arr_members _ _ Ha) in Hy as [o' Hy]. unfold link. rewrite decide_False by done. rewrite Hy. simpl.
      destruct (Z.eqb_spec q' q); [done|]. by rewrite andb_false_r.
Qed.

(** * Books *)

(** Runs a computation on a book and its events. *)
Ltac run := unfold mbind, mret, bk_bind, bk_ret, get_book, modify, push, put_channel, put_client; cbn beta iota zeta delta [fst snd].

Section books.
Context `{P256} `{Declarations} `{HashOrderLaws}.
Implicit Types b : Book.

Definition channel_view b (x : Z) : option (Z * Z) := (fun c => (ch_order c, ch_parent c)) <$> channels b !! x.

Lemma bk_bind_ok {A B} (m : bk A) (k : A -> bk B) s a s' : m s = (Ok a, s') -> (m ≫= k) s = k a s'.
Proof. intros Hm. run. by rewrite Hm. Qed.

(** Every channel is filed under its id. *)
Definition keyed (m : gmap Z Channel) : Prop := forall x c, m !! x = Some c -> ch_id c = x.

Definition book_ok (L : Z -> list Z) b : Prop := keyed (channels b) /\ arranged L (channel_view b).

(** The new parent, which the generated handler sets after [channel_order_move_fun]. *)
Definition with_parent (c : Channel) (q : Z) : Channel := {|
  ch_id := ch_id c; ch_parent := q; ch_order := ch_order c; ch_channel_type := ch_channel_type c;
  ch_max_clients := ch_max_clients c; ch_max_family_clients := ch_max_family_clients c;
  ch_subscribed := ch_subscribed c; ch_needed_talk_power := ch_needed_talk_power c;
  ch_is_unencrypted := ch_is_unencrypted c; ch_optional_data := ch_optional_data c; ch_rest := ch_rest c |}.

Lemma elem_of_iter {A} (m : gmap Z A) k x : (k, x) ∈ iter A m <-> m !! k = Some x.
Proof. by rewrite iter_entries, elem_of_map_to_list. Qed.

Definition reorder (p : Channel -> bool) (n : Z) (c : Channel) : Channel := if p c then with_order c n else c.

Lemma reorder_id (p : Channel -> bool) n (m : gmap Z Channel) :
  (forall x c, m !! x = Some c -> p c = false) -> reorder p n <$> m = m.
Proof.
  intros Hp. apply map_eq. intros x. rewrite lookup_fmap. destruct (m !! x) as [c|] eqn:Hx; [|done].
  simpl. unfold reorder. by rewrite (Hp x c).
Qed.

(** If at most one channel matches, the order of iteration does not matter. *)
Lemma reorder_first_spec p n b events :
  keyed (channels b) ->
  (forall x y c d, channels b !! x = Some c -> channels b !! y = Some d -> p c = true -> p d = true -> x = y) ->
  exists events', reorder_first p n (b, events) = (Ok tt, (set_channels (fmap (reorder p n)) b, events')).
Proof.
  intros Hk Hu. unfold reorder_first. run.
  destruct (list_find (fun e : Z * Channel => p e.2 = true) (iter Channel (channels b))) as [[i [k c]]|] eqn:Hf.
  - apply list_find_Some in Hf as (Hi & Hp & _). apply list_elem_of_lookup_2, elem_of_iter in Hi.
    simpl in Hp.
    assert (<[k := with_order c n]> (channels b) = reorder p n <$> channels b) as Hm.
    { apply map_eq. intros y. rewrite lookup_fmap. destruct (decide (y = k)) as [->|Hne].
      - rewrite lookup_insert_eq, Hi. simpl. unfold reorder. by rewrite Hp.
      - rewrite lookup_insert_ne by done. destruct (channels b !! y) as [d|] eqn:Hy; [|done]. simpl.
        unfold reorder. destruct (p d) eqn:Hd; [|done]. exfalso. apply Hne. by apply (Hu y k d c). }
    eexists. run. unfold set_channels. by rewrite Hm.
  - apply list_find_None in Hf. rewrite Forall_forall in Hf. eexists. unfold set_channels.
    rewrite reorder_id; [by destruct b|]. intros x c Hx. specialize (Hf (x, c)). cbn in Hf.
    destruct (p c); [|done]. exfalso. apply Hf; [|done]. by apply elem_of_iter.
Qed.


(** [b'] differs from [b] in channels other than [x]; the others have the view [f]. *)
Definition relinked (x : Z) (f : Z -> option (Z * Z)) b b' : Prop :=
  keyed (channels b') /\ channels b' !! x = channels b !! x /\
  (forall y, y <> x -> channel_view b' y = f y) /\ b' = set_channels (fun _ => channels b') b.

Lemma reorder_relinked p n x f g b :
  keyed (channels b) -> (forall y, y <> x -> channel_view b y = f y) ->
  (forall c, ch_id c = x -> p c = false) ->
  (forall y c, y <> x -> channels b !! y = Some c ->
    g y = Some ((if p c then n else ch_order c), ch_parent c)) ->
  (forall y, y <> x -> f y = None -> g y = None) ->
  relinked x g b (set_channels (fmap (reorder p n)) b).
Proof.
  intros Hk Hv Hx Hg Hn. unfold relinked, channel_view, set_channels. cbn. split_and!; [..|done].
  - intros y c Hy. rewrite lookup_fmap in Hy. destruct (channels b !! y) as [d|] eqn:Hd; [|done].
    injection Hy as <-. unfold reorder. destruct (p d); by apply (Hk y d).
  - rewrite lookup_fmap. destruct (channels b !! x) as [c|] eqn:Hc; [|done]. simpl. unfold reorder.
    by rewrite Hx by (by apply Hk).
  - intros y Hy. rewrite lookup_fmap. destruct (channels b !! y) as [c|] eqn:Hc; simpl.
    + rewrite (Hg y c) by done. unfold reorder. by destruct (p c).
    + symmetry. apply Hn; [done|]. rewrite <- Hv by done. unfold channel_view. by rewrite Hc.
Qed.

Lemma channel_order_insert_spec L f x o q b events :
  keyed (channels b) -> arranged L f -> (forall y, y <> x -> channel_view b y = f y) ->
  exists b' events', channel_order_insert x o q (b, events) = (Ok tt, (b', events')) /\
    relinked x (link x o q f) b b'.
Proof.
  intros Hk Ha Hv. unfold channel_order_insert.
  set (p := fun c => (ch_order c =? o) && (ch_parent c =? q) && negb (ch_id c =? x)).
  assert (forall y c, channels b !! y = Some c -> p c = true -> f y = Some (o, q) /\ y <> x) as Hp.
  { intros y c Hy. subst p. simpl. rewrite !andb_true_iff, negb_true_iff, !Z.eqb_eq, Z.eqb_neq, (Hk y c) by done.
    intros [[Ho Hq] Hne]. split; [|done]. rewrite <- Hv by done. unfold channel_view. rewrite Hy. simpl. congruence. }
  destruct (reorder_first_spec p x b events) as [events' He]; [done| |].
  { intros y z c d Hy Hz [Hy' _]%(Hp y) [Hz' _]%(Hp z); try done. by apply (arranged_unique L f y z o q). }
  exists (set_channels (fmap (reorder p x)) b), events'. split; [done|].
  apply (reorder_relinked p x x f); [done|done|..].
  - intros c Hc. subst p. simpl. by rewrite Hc, Z.eqb_refl, andb_false_r.
  - intros y c Hne Hy. unfold link. rewrite decide_False, <- Hv by done. unfold channel_view. rewrite Hy. subst p. simpl.
    rewrite (Hk y c) by done. rewrite (proj2 (Z.eqb_neq y x)) by done. by rewrite andb_true_r.
  - intros y Hne Hy. unfold link. by rewrite decide_False, Hy by done.
Qed.

Lemma channel_order_remove_spec L f x o p o' b events :
  keyed (channels b) -> arranged L f -> f x = Some (o, p) -> (forall y, y <> x -> channel_view b y = f y) ->
  exists b' events', channel_order_remove x o' (b, events) = (Ok tt, (b', events')) /\
    relinked x (unlink x o' f) b b'.
Proof.
  intros Hk Ha Hx Hv. unfold channel_order_remove.
  set (r := fun c => (ch_order c =? x) && negb (ch_id c =? x)).
  assert (forall y c, channels b !! y = Some c -> r c = true -> f y = Some (x, p)) as Hp.
  { intros y c Hy. subst r. simpl. rewrite andb_true_iff, negb_true_iff, Z.eqb_eq, Z.eqb_neq, (Hk y c) by done.
    intros [Ho Hne]. assert (f y = Some (x, ch_parent c)) as Hf.
    { rewrite <- Hv by done. unfold channel_view. rewrite Hy. simpl. congruence. }
    rewrite Hf. do 2 f_equal. by apply (arranged_below L f x o p y). }
  destruct (reorder_first_spec r o' b events) as [events' He]; [done| |].
  { intros y z c d Hy Hz Hy'%(Hp y) Hz'%(Hp z); try done. by apply (arranged_unique L f y z x p). }
  exists (set_channels (fmap (reorder r o')) b), events'. split; [done|].
  apply (reorder_relinked r o' x f); [done|done|..].
  - intros c Hc. subst r. simpl. by rewrite Hc, Z.eqb_refl, andb_false_r.
  - intros y c Hne Hy. unfold unlink. rewrite decide_False, <- Hv by done. unfold channel_view. rewrite Hy. subst r. simpl.
    rewrite (Hk y c) by done. rewrite (proj2 (Z.eqb_neq y x)) by done. by rewrite andb_true_r.
  - intros y Hne Hy. unfold unlink. by rewrite decide_False, Hy by done.
Qed.

(** Filling in the entry of [x] completes an arrangement. *)
Lemma relinked_ok L f x c b b' :
  relinked x f b b' -> arranged L f -> f x = Some (ch_order c, ch_parent c) -> ch_id c = x ->
  book_ok L (set_channels <[x := c]> b').
Proof.
  intros (Hk & _ & Hv & _) Ha Hx Hid. split.
  - intros y d. cbn. rewrite lookup_insert_Some. intros [[<- <-]|[_ Hy]]; [done|by apply Hk].
  - destruct Ha as [Hm Hd Hl].
    assert (forall y, channel_view (set_channels <[x := c]> b') y = f y) as Heq.
    { intros y. unfold channel_view. cbn. destruct (decide (y = x)) as [->|Hne].
      - by rewrite lookup_insert_eq.
      - rewrite lookup_insert_ne by done. by apply Hv. }
    split; [|done|].
    + intros y q. rewrite Hm. by setoid_rewrite Heq.
    + intros q. eapply links_ext; [apply Hl|]. intros y _. simpl. by rewrite Heq.
Qed.

(** The lists after a channel is removed, and after one is added. *)
Definition list_remove (L : Z -> list Z) (p x : Z) := set_at L p (remove_id x (L p)).
Definition list_insert (L : Z -> list Z) (q o x : Z) := set_at L q (insert_after o x 0 (L q)).

Lemma add_channel_ok L b events r :
  book_ok L b -> ch_id r <> 0 -> channels b !! ch_id r = None -> ch_order r ∈ 0 :: L (ch_parent r) ->
  exists b' events', add_channel (ch_id r) r (b, events) = (Ok None, (b', events')) /\
    book_ok (list_insert L (ch_parent r) (ch_order r) (ch_id r)) b' /\
    b' = set_channels (fun _ => channels b') b.
Proof.
  intros [Hk Ha] Hz Hn Ho. unfold add_channel.
  destruct (channel_order_insert_spec L (channel_view b) (ch_id r) (ch_order r) (ch_parent r) b events)
    as (b1 & events1 & He & Hr); [done..|].
  eexists (set_channels <[ch_id r := r]> b1), events1. run. rewrite He. run. split_and!.
  - destruct Hr as (_ & -> & _). by rewrite Hn.
  - eapply relinked_ok; [exact Hr|apply link_arranged|..]; try done.
    + unfold channel_view. by rewrite Hn.
    + unfold link. by rewrite decide_True.
  - destruct Hr as (_ & _ & _ & ->). done.
Qed.

Lemma remove_channel_ok L b events x c :
  book_ok L b -> channels b !! x = Some c ->
  exists b' events', remove_channel x (b, events) = (Ok (Some c), (b', events')) /\
    book_ok (list_remove L (ch_parent c) x) b' /\ channels b' !! x = None /\
    b' = set_channels (fun _ => channels b') b.
Proof.
  intros [Hk Ha] Hx. assert (channel_view b x = Some (ch_order c, ch_parent c)) as Hv.
  { unfold channel_view. by rewrite Hx. }
  unfold remove_channel. run. rewrite Hx, (Hk x c) by done. run.
  destruct (channel_order_remove_spec L (channel_view b) x (ch_order c) (ch_parent c) (ch_order c)
    (set_channels (delete x) b) events) as (b1 & events1 & He & Hk1 & Hx1 & Hv1 & Hb1); try done.
  { intros y d Hy. cbn in Hy. apply lookup_delete_Some in Hy as [_ Hy]. by apply Hk. }
  { intros y Hne. unfold channel_view. cbn. by rewrite lookup_delete_ne. }
  assert (channels b1 !! x = None) as Hn by (rewrite Hx1; apply lookup_delete_eq).
  exists b1, events1. rewrite He. run. split_and!; [done| |done|by rewrite Hb1 at 1].
  split; [done|]. destruct (unlink_arranged L (channel_view b) x (ch_order c) (ch_parent c) Ha Hv) as [Hm Hd Hl].
  assert (forall y, channel_view b1 y = unlink x (ch_order c) (channel_view b) y) as Heq.
  { intros y. destruct (decide (y = x)) as [->|Hne]; [|by apply Hv1]. unfold channel_view at 1, unlink.
    by rewrite Hn, decide_True. }
  split; [|done|].
  - intros y q. unfold list_remove. rewrite Hm. by setoid_rewrite Heq.
  - intros q. eapply links_ext; [apply Hl|]. intros y _. simpl. by rewrite Heq.
Qed.

Lemma channel_order_move_ok L b events x c new_order parent :
  let o := default (ch_order c) new_order in
  let q := default (ch_parent c) parent in
  book_ok L b -> channels b !! x = Some c -> is_some new_order || is_some parent = true ->
  o ∈ 0 :: list_remove L (ch_parent c) x q ->
  exists b' events' c', channel_order_move_fun x new_order parent (b, events) = (Ok tt, (b', events')) /\
    channels b' !! x = Some c' /\ c' = with_order c o /\
    book_ok (list_insert (list_remove L (ch_parent c) x) q o x) (set_channels <[x := with_parent c' q]> b') /\
    b' = set_channels (fun _ => channels b') b.
Proof.
  intros o q [Hk Ha] Hx Hsome Ho. assert (channel_view b x = Some (ch_order c, ch_parent c)) as Hv.
  { unfold channel_view. by rewrite Hx. }
  set (c' := with_order c o). set (b1 := set_channels <[x := c']> b).
  assert (Hk1 : keyed (channels b1)).
  { intros y d. cbn. rewrite lookup_insert_Some. intros [[<- <-]|[_ Hy]]; [by apply (Hk x c)|by apply Hk]. }
  assert (Hv1 : forall y, y <> x -> channel_view b1 y = channel_view b y).
  { intros y Hne. unfold channel_view. cbn. by rewrite lookup_insert_ne. }
  assert (exists events1, (match new_order with
    | Some order => push (PropertyChanged (PropChannelOrder (ch_id c)) (ValChannelId (ch_order c)) None None);;
                    put_channel x (with_order c order)
    | None => mret tt end) (b, events) = (Ok tt, (b1, events1))) as [events1 He1].
  { subst b1 c' o. destruct new_order as [order|]; run; eexists; [done|]. destruct c, b. cbn in *.
    unfold with_order, set_channels. cbn. by rewrite insert_id. }
  destruct (channel_order_remove_spec L (channel_view b) x (ch_order c) (ch_parent c) (ch_order c) b1 events1)
    as (b2 & events2 & He2 & Hk2 & Hx2 & Hv2 & Hb2); [done..|].
  pose proof (unlink_arranged L (channel_view b) x (ch_order c) (ch_parent c) Ha Hv) as Ha2.
  destruct (channel_order_insert_spec _ _ x o q b2 events2 Hk2 Ha2 Hv2)
    as (b3 & events3 & He3 & Hr3).
  assert (channels b3 !! x = Some c') as Hx3.
  { destruct Hr3 as (_ & -> & _). rewrite Hx2. cbn. apply lookup_insert_eq. }
  exists b3, events3, c'. split_and!; [| |done|..].
  - unfold channel_order_move_fun. rewrite Hsome.
    assert (get_channel x (b, events) = (Ok c, (b, events))) as Hget.
    { unfold get_channel, from_option_or. run. by rewrite Hx. }
    by rewrite (bk_bind_ok _ _ _ _ _ Hget), (bk_bind_ok _ _ _ _ _ He1), (bk_bind_ok _ _ _ _ _ He2).
  - done.
  - eapply relinked_ok; [exact Hr3|apply link_arranged|..]; try done.
    + unfold unlink. by rewrite decide_True.
    + by apply (arranged_nonzero L (channel_view b) x (ch_order c) (ch_parent c)).
    + unfold link. by rewrite decide_True.
    + by apply (Hk x c).
  - destruct Hr3 as (_ & _ & _ & Hb3). rewrite Hb3 at 1. rewrite Hb2. done.
Qed.

(** An insertion that is done has no effect when it is repeated. *)
Lemma channel_order_insert_again L f x o q b events :
  keyed (channels b) -> arranged L f -> f x = None -> x <> 0 -> o ∈ 0 :: L q ->
  (forall y, y <> x -> channel_view b y = link x o q f y) ->
  exists events', channel_order_insert x o q (b, events) = (Ok tt, (b, events')).
Proof.
  intros Hk Ha Hx Hx0 Ho Hv. unfold channel_order_insert.
  set (p := fun c => (ch_order c =? o) && (ch_parent c =? q) && negb (ch_id c =? x)).
  assert (o <> x) as Hox.
  { intros ->. apply elem_of_cons in Ho as [?|[o' Ho]%(arr_members _ _ Ha)]; congruence. }
  assert (forall y c, channels b !! y = Some c -> p c = false) as Hp.
  { intros y c Hy. apply not_true_is_false. subst p. simpl.
    rewrite !andb_true_iff, negb_true_iff, !Z.eqb_eq, Z.eqb_neq, (Hk y c) by done. intros [[Hco Hcq] Hne].
    specialize (Hv y Hne). unfold channel_view, link in Hv. rewrite Hy, decide_False in Hv by done. simpl in Hv.
    destruct (f y) as [[o' q']|]; [|done]. simpl in Hv. injection Hv as Ho' Hq'.
    destruct (Z.eqb_spec o' o), (Z.eqb_spec q' q); simpl in Ho'; congruence. }
  destruct (reorder_first_spec p x b events) as [events' He]; [done| |].
  { intros y z c d Hy _ Hc. by rewrite (Hp y c) in Hc. }
  exists events'. rewrite He. unfold set_channels. rewrite reorder_id by done. by destruct b.
Qed.

(** A created channel: the order is inserted by the function behind the declaration and again when
    the channel is added. *)
Lemma channel_created_ok L b events r msg :
  icc_channel_id msg = ch_id r -> icc_order msg = ch_order r -> icc_parent_id msg = ch_parent r ->
  book_ok L b -> ch_id r <> 0 -> channels b !! ch_id r = None -> ch_order r ∈ 0 :: L (ch_parent r) ->
  exists b' events', (channel_order_cc_fun msg ≫= fun _ => add_channel (ch_id r) r) (b, events) = (Ok None, (b', events')) /\
    book_ok (list_insert L (ch_parent r) (ch_order r) (ch_id r)) b'.
Proof.
  intros Hi Hmo Hp [Hk Ha] Hz Hn Ho.
  assert (channel_view b (ch_id r) = None) as Hvn by (unfold channel_view; by rewrite Hn).
  destruct (channel_order_insert_spec L (channel_view b) (ch_id r) (ch_order r) (ch_parent r) b events)
    as (b1 & events1 & He & Hr); [done..|].
  destruct (channel_order_insert_again L (channel_view b) (ch_id r) (ch_order r) (ch_parent r) b1 events1)
    as [events2 He2]; [apply Hr|done..|apply Hr|].
  eexists (set_channels <[ch_id r := r]> b1), events2. split.
  - unfold channel_order_cc_fun, add_channel. rewrite Hi, Hmo, Hp. run. rewrite He. run. rewrite He2. run.
    destruct Hr as (_ & -> & _). by rewrite Hn.
  - eapply relinked_ok; [exact Hr|by apply link_arranged|..]; [|done].
    unfold link. by rewrite decide_True.
Qed.

(** ** A list of channels *)

Fixpoint add_all (rs : list Channel) : bk unit :=
  match rs with
  | [] => mret tt
  | r :: rs => add_channel (ch_id r) r;; add_all rs
  end.

Definition place (r : Channel) : Z * Z := (ch_order r, ch_parent r).

Lemma channel_order_insert_free x o q b events :
  (forall y c, channels b !! y = Some c -> place c <> (o, q)) ->
  channel_order_insert x o q (b, events) = (Ok tt, (b, events)).
Proof.
  intros Hf. unfold channel_order_insert, reorder_first. run.
  match goal with |- context [list_find ?P ?l] => destruct (list_find P l) as [[i [k c]]|] eqn:He end; [|done].
  exfalso. apply list_find_Some in He as (Hi & Hp & _). apply list_elem_of_lookup_2, elem_of_iter in Hi.
  cbn in Hp. rewrite !andb_true_iff, !Z.eqb_eq in Hp. destruct Hp as [[<- <-] _]. by apply (Hf k c).
Qed.

Lemma add_all_spec rs b events :
  NoDup (ch_id <$> rs) -> NoDup (place <$> rs) ->
  (forall r y c, r ∈ rs -> channels b !! y = Some c -> y <> ch_id r /\ place c <> place r) ->
  exists b', add_all rs (b, events) = (Ok tt, (b', events)) /\
    forall x c, channels b' !! x = Some c <-> channels b !! x = Some c \/ (c ∈ rs /\ x = ch_id c).
Proof.
  revert b. induction rs as [|r rs IH]; intros b Hi Hp Hf.
  - exists b. split; [done|]. intros x c. rewrite elem_of_nil. tauto.
  - cbn [fmap list_fmap] in Hi, Hp. apply NoDup_cons in Hi as [Hri Hi], Hp as [Hrp Hp].
    assert (add_channel (ch_id r) r (b, events) = (Ok (channels b !! ch_id r), (set_channels <[ch_id r := r]> b, events))) as Ha.
    { unfold add_channel. run. rewrite channel_order_insert_free; [done|]. intros y c Hy.
      by apply (Hf r y c); [left|]. }
    destruct (IH (set_channels <[ch_id r := r]> b)) as (b' & Hb' & Hc); [done..| |].
    { intros s y c Hs. cbn. rewrite lookup_insert_Some. intros [[<- <-]|[_ Hy]].
      - split; intros Heq; [apply Hri|apply Hrp]; rewrite Heq; by apply list_elem_of_fmap_2.
      - apply (Hf s y c); [by right|done]. }
    exists b'. cbn [add_all]. rewrite (bk_bind_ok _ _ _ _ _ Ha). split; [done|]. intros x c. rewrite Hc. cbn.
    rewrite lookup_insert_Some, elem_of_cons. destruct (decide (ch_id r = x)) as [<-|Hne].
    + split.
      * intros [[[_ <-]|[? ?]]|[Hin ?]]; [right; split; [by left|done]|done|]. right. split; [by right|done].
      * intros [Hb|[[->|Hin] Hid]].
        { exfalso. destruct (Hf r (ch_id r) c) as [Hn _]; [by left|done..]. }
        { left. by left. }
        { right. done. }
    + split; [|intros [Hb|[[->|Hin] Hid]]]; [|by left; right|congruence|by right].
      intros [[[? _]|[_ Hb]]|[Hin Hid]]; [done|by left|right; split; [by right|done]].
Qed.
End books.

Section theorems.
Context `{P256} `{Declarations} `{HashOrderLaws}.

(** C35.  The field [order] refines lists: if it links the channels of every parent to a list, then
    adding a channel inserts it behind its order, removing one removes it, and moving one removes it
    and inserts it at the new place, whatever the order of iteration; nothing but channels changes.
    A created channel, for which the order is inserted twice, is inserted once. *)
Theorem channel_order_refines (L : Z -> list Z) (b : Book) (events : list Event) (Hb : book_ok L b) :
  (forall r, ch_id r <> 0 -> channels b !! ch_id r = None -> ch_order r ∈ 0 :: L (ch_parent r) ->
    exists b' events', add_channel (ch_id r) r (b, events) = (Ok None, (b', events')) /\
      book_ok (list_insert L (ch_parent r) (ch_order r) (ch_id r)) b' /\
      b' = set_channels (fun _ => channels b') b) /\
  (forall x c, channels b !! x = Some c ->
    exists b' events', remove_channel x (b, events) = (Ok (Some c), (b', events')) /\
      book_ok (list_remove L (ch_parent c) x) b' /\ channels b' !! x = None /\
      b' = set_channels (fun _ => channels b') b) /\
  (forall x c new_order parent, let o := default (ch_order c) new_order in let q := default (ch_parent c) parent in
    channels b !! x = Some c -> is_some new_order || is_some parent = true ->
    o ∈ 0 :: list_remove L (ch_parent c) x q ->
    exists b' events' c', channel_order_move_fun x new_order parent (b, events) = (Ok tt, (b', events')) /\
      channels b' !! x = Some c' /\ c' = with_order c o /\
      book_ok (list_insert (list_remove L (ch_parent c) x) q o x) (set_channels <[x := with_parent c' q]> b') /\
      b' = set_channels (fun _ => channels b') b) /\
  (forall r msg, icc_channel_id msg = ch_id r -> icc_order msg = ch_order r -> icc_parent_id msg = ch_parent r ->
    ch_id r <> 0 -> channels b !! ch_id r = None -> ch_order r ∈ 0 :: L (ch_parent r) ->
    exists b' events',
      (channel_order_cc_fun msg ≫= fun _ => add_channel (ch_id r) r) (b, events) = (Ok None, (b', events')) /\
      book_ok (list_insert L (ch_parent r) (ch_order r) (ch_id r)) b').
Proof.
  split_and!.
  - intros r. by apply add_channel_ok.
  - intros x c. by apply remove_channel_ok.
  - intros x c new_order parent o q. by apply channel_order_move_ok.
  - intros r msg Hi Ho Hp. by apply channel_created_ok.
Qed.

(** The list of channels that a server sends may come in any order: if no two channels have the
    same id or the same place, the book has exactly the channels of the list, unchanged. *)
Theorem channel_list_any_order (rs : list Channel) (b : Book) (events : list Event)
    (Hempty : channels b = ∅) (Hid : NoDup (ch_id <$> rs)) (Hplace : NoDup (place <$> rs)) :
  exists b', add_all rs (b, events) = (Ok tt, (b', events)) /\
    forall x c, channels b' !! x = Some c <-> c ∈ rs /\ x = ch_id c.
Proof.
  destruct (add_all_spec rs b events) as (b' & He & Hc); [done..| |].
  - intros r y c _. by rewrite Hempty, lookup_empty.
  - exists b'. split; [done|]. intros x c. rewrite Hc, Hempty, lookup_empty. split; [|by right].
    by intros [?|?].
Qed.
End theorems.

(** * Instances and witnesses *)

#[export] Instance plain_declarations : Declarations := {|
  ServerAttrs := unit; codec_encryption_mode _ := EncryptPerChannel; OptionalServerData := unit; ConnectionServerData := unit; ClientRest := unit;
  OptionalClientData := unit; ConnectionClientData := unit;
  with_connected_time d _ := d; ChannelRest := unit; OptionalChannelData := unit;
  ChannelGroup := unit; ServerGroup := unit; Codec := Z; OpusVoice := 4; LicenseType := unit; NoLicense := tt;
  Reason := Z; Serverstop := 11; ClientdisconnectServerShutdown := 12; TsServerError := Z; TsServerError_Ok := 0;
  ClientCouldNotValidateIdentity := 3329; OffsetDateTime := Z; unix_timestamp := id; OtherProperty := unit; OtherValue := unit;
  OtherMessage := unit |}.

#[export] Instance key_order : HashOrder := {| iter := fun A m => map_to_list m |}.
#[export] Instance key_order_laws : HashOrderLaws.
Proof. by split. Qed.

Definition plain_channel (id parent order : Z) : Channel := {|
  ch_id := id; ch_parent := parent; ch_order := order; ch_channel_type := Permanent; ch_max_clients := None;
  ch_max_family_clients := None; ch_subscribed := false; ch_needed_talk_power := None; ch_is_unencrypted := None; ch_optional_data := None; ch_rest := tt |}.

Definition plain_book (cs : list Channel) : Book := {|
  own_client := 1;
  server := {| sv_id := 1; sv_public_key := true; sv_ips := []; sv_license := NoLicense;
               sv_optional_data := None; sv_connection_data := None; sv_attrs := tt |};
  clients := ∅; channels := list_to_map ((fun c => (ch_id c, c)) <$> cs); channel_groups := ∅; server_groups := ∅ |}.

(** Two channels at the top, and one below the first of them. *)
Definition three_channels : list Channel := [plain_channel 7 0 0; plain_channel 5 0 7; plain_channel 6 7 0].

Definition three_lists (q : Z) : list Z := if q =? 0 then [7; 5] else if q =? 7 then [6] else [].

Lemma three_channels_lookup x : channels (plain_book three_channels) !! x =
  if decide (x = 7) then Some (plain_channel 7 0 0) else if decide (x = 5) then Some (plain_channel 5 0 7)
  else if decide (x = 6) then Some (plain_channel 6 7 0) else None.
Proof.
  cbn -[insert decide]. destruct (decide (x = 7)) as [->|]; [done|]. rewrite lookup_insert_ne by done.
  destruct (decide (x = 5)) as [->|]; [done|]. rewrite lookup_insert_ne by done.
  destruct (decide (x = 6)) as [->|]; [done|]. by rewrite lookup_insert_ne by done.
Qed.

Lemma three_lists_ok : book_ok three_lists (plain_book three_channels).
Proof.
  split; [|split].
  - intros x c. rewrite three_channels_lookup. repeat case_decide; by intros [= <-].
  - intros x q. unfold channel_view. rewrite three_channels_lookup. unfold three_lists.
    destruct (Z.eqb_spec q 0) as [->|Hq0]; [|destruct (Z.eqb_spec q 7) as [->|Hq7]];
      rewrite ?elem_of_cons, elem_of_nil; (split; [intros Hx|intros [o Ho]]);
      repeat case_decide; subst; simpl in *; try congruence; try tauto; try (by destruct_or?; congruence);
      eexists; reflexivity.
  - intros q. unfold three_lists. destruct (q =? 0); [|destruct (q =? 7)]; by apply (bool_decide_unpack _).
  - intros q. unfold three_lists. destruct (q =? 0); [|destruct (q =? 7)]; by vm_compute.
Qed.

(** Channel 5 moves to the front of the channels below channel 7. *)
Lemma channel_order_refines_witness :
  exists b' events' c', channel_order_move_fun 5 (Some 0) (Some 7) (plain_book three_channels, []) = (Ok tt, (b', events')) /\
    channels b' !! 5 = Some c' /\ c' = plain_channel 5 0 0 /\
    book_ok (list_insert (list_remove three_lists 0 5) 7 0 5) (set_channels <[5 := with_parent c' 7]> b') /\
    b' = set_channels (fun _ => channels b') (plain_book three_channels).
Proof.
  destruct (channel_order_refines three_lists (plain_book three_channels) [] three_lists_ok) as (_ & _ & Hmove & _).
  apply (Hmove 5 (plain_channel 5 0 7) (Some 0) (Some 7)); [reflexivity|reflexivity|left].
Defined.

Lemma channel_list_any_order_witness :
  exists b', add_all (rev three_channels) (plain_book [], []) = (Ok tt, (b', [])) /\
    forall x c, channels b' !! x = Some c <-> c ∈ rev three_channels /\ x = ch_id c.
Proof.
  apply (channel_list_any_order (rev three_channels) (plain_book []) []); [reflexivity|..];
    apply (bool_decide_unpack _); vm_compute; exact I.
Defined.
