(* ===== verification/BookSend.v ===== *)
(** The messages that the book builds for the server ([utils/ts-bookkeeping/src/data.rs]): text
    messages and pokes, subscriptions, the options of a new channel, and the values that a change of
    the book sends; the options to connect and disconnect ([utils/ts-bookkeeping/src/lib.rs]).

    The structures of the messages and their encoding are generated; the messages are their parts. *)
From stdpp Require Import strings gmap.
From S2P Require Import Prelude Text Packets Commands InitPackets Ip IpParse CryptoLib Crypto Connection Book.
#[local] Open Scope Z_scope.

Section send.
Context `{Base64Enc} `{Sha1} `{P256} `{Declarations}.

Record OutChannelCreatePart := {
  occ_name : list Z;
  occ_description : option (list Z);
  occ_parent_id : option Z;
  occ_codec : option Codec;
  occ_codec_quality : option Z;
  occ_delete_delay : option Z;
  occ_has_password : option bool;
  occ_is_default : option bool;
  occ_inherits_max_family_clients : option bool;
  occ_is_max_family_clients_unlimited : option bool;
  occ_is_max_clients_unlimited : option bool;
  occ_is_permanent : option bool;
  occ_is_semi_permanent : option bool;
  occ_max_family_clients : option Z;
  occ_max_clients : option Z;
  occ_is_unencrypted : option bool;
  occ_order : option Z;
  occ_password : option (list Z);
  occ_phonetic_name : option (list Z);
  occ_topic : option (list Z);
}.

Inductive OutMessage :=
  | OutSendTextMessage (target : TextMessageTargetMode) (target_client_id : option Z) (message : list Z)
  | OutClientPokeRequest (client_id : Z) (message : list Z)
  | OutChannelSubscribe (channel_id : Z)
  | OutChannelUnsubscribe (channel_id : Z)
  | OutChannelSubscribeAll
  | OutChannelUnsubscribeAll
  | OutChannelCreate (part : OutChannelCreatePart)
  | OutDisconnect (reason : option Reason) (reason_message : option (list Z)).

(** * Values of the book in messages *)

Definition away_fun_b2m (msg : option (list Z)) : bool * list Z :=
  match msg with Some msg => (true, msg) | None => (false, []) end.

Definition Client_password_b2m (password : list Z) : list Z := encode_password password.

Definition Channel_password_b2m (password : list Z) : list Z := encode_password password.

Definition password_flagged_b2m (password : option (list Z)) : bool * list Z :=
  match password with Some password => (true, encode_password password) | None => (false, []) end.

Definition Server_password_b2m (password : option (list Z)) : list Z :=
  match password with Some password => encode_password password | None => [] end.

Definition channel_type_fun_b2m (channel_type : ChannelType) : bool * bool :=
  match channel_type with
  | Temporary => (false, false)
  | SemiPermanent => (true, false)
  | Permanent => (false, true)
  end.

Definition max_clients_fun_b2m (max_clients : MaxClients) : Z * bool :=
  match max_clients with
  | Inherited => (0, false)
  | Unlimited => (0, true)
  | Limited num => (num, false)
  end.

Definition max_family_clients_fun_b2m (max_clients : MaxClients) : Z * bool * bool :=
  match max_clients with
  | Inherited => (0, false, true)
  | Unlimited => (0, true, false)
  | Limited num => (num, false, false)
  end.

(** * Messages *)

Definition Client_send_textmessage (c : Client) (message : list Z) : OutMessage :=
  OutSendTextMessage TargetClient (Some (cl_id c)) message.

Definition Client_poke (c : Client) (message : list Z) : OutMessage := OutClientPokeRequest (cl_id c) message.

Definition Channel_set_subscribed (c : Channel) (subscribed : bool) : OutMessage :=
  if subscribed then OutChannelSubscribe (ch_id c) else OutChannelUnsubscribe (ch_id c).

Definition Server_send_textmessage (message : list Z) : OutMessage :=
  OutSendTextMessage TargetServer None message.

Definition Server_set_subscribed (subscribed : bool) : OutMessage :=
  if subscribed then OutChannelSubscribeAll else OutChannelUnsubscribeAll.

Definition send_message (target : MessageTarget) (message : list Z) : OutMessage :=
  match target with
  | ToServer => OutSendTextMessage TargetServer None message
  | ToChannel => OutSendTextMessage TargetChannel None message
  | ToClient id => OutSendTextMessage TargetClient (Some id) message
  | ToPoke id => OutClientPokeRequest id message
  end.

Record DisconnectOptions := { do_reason : option Reason; do_message : option (list Z) }.

Definition DisconnectOptions_new : DisconnectOptions := {| do_reason := None; do_message := None |}.
Definition DisconnectOptions_reason (r : Reason) (o : DisconnectOptions) : DisconnectOptions :=
  {| do_reason := Some r; do_message := do_message o |}.
Definition DisconnectOptions_message (m : list Z) (o : DisconnectOptions) : DisconnectOptions :=
  {| do_reason := do_reason o; do_message := Some m |}.

Definition disconnect (options : DisconnectOptions) : OutMessage :=
  OutDisconnect (do_reason options) (do_message options).

(** * New channels *)

Record ChannelOptions := {
  co_name : list Z;
  co_description : option (list Z);
  co_parent_id : option Z;
  co_codec : option Codec;
  co_codec_quality : option Z;
  co_delete_delay : option Z;
  co_password : option (list Z);
  co_is_default : bool;
  co_max_clients : option MaxClients;
  co_max_family_clients : option MaxClients;
  co_channel_type : option ChannelType;
  co_is_unencrypted : option bool;
  co_order : option Z;
  co_phonetic_name : option (list Z);
  co_topic : option (list Z);
}.

Definition ChannelOptions_new (name : list Z) : ChannelOptions := {|
  co_name := name; co_description := None; co_parent_id := None; co_codec := None; co_codec_quality := None;
  co_delete_delay := None; co_password := None; co_is_default := false; co_max_clients := None;
  co_max_family_clients := None; co_channel_type := None; co_is_unencrypted := None; co_order := None;
  co_phonetic_name := None; co_topic := None |}.

Definition ChannelOptions_description (v : list Z) (o : ChannelOptions) : ChannelOptions := {|
  co_name := co_name o; co_description := Some v; co_parent_id := co_parent_id o;
  co_codec := co_codec o; co_codec_quality := co_codec_quality o;
  co_delete_delay := co_delete_delay o; co_password := co_password o;
  co_is_default := co_is_default o; co_max_clients := co_max_clients o;
  co_max_family_clients := co_max_family_clients o; co_channel_type := co_channel_type o;
  co_is_unencrypted := co_is_unencrypted o; co_order := co_order o;
  co_phonetic_name := co_phonetic_name o; co_topic := co_topic o |}.

Definition ChannelOptions_parent_id (v : Z) (o : ChannelOptions) : ChannelOptions := {|
  co_name := co_name o; co_description := co_description o; co_parent_id := Some v;
  co_codec := co_codec o; co_codec_quality := co_codec_quality o;
  co_delete_delay := co_delete_delay o; co_password := co_password o;
  co_is_default := co_is_default o; co_max_clients := co_max_clients o;
  co_max_family_clients := co_max_family_clients o; co_channel_type := co_channel_type o;
  co_is_unencrypted := co_is_unencrypted o; co_order := co_order o;
  co_phonetic_name := co_phonetic_name o; co_topic := co_topic o |}.

Definition ChannelOptions_codec (v : Codec) (o : ChannelOptions) : ChannelOptions := {|
  co_name := co_name o; co_description := co_description o; co_parent_id := co_parent_id o;
  co_codec := Some v; co_codec_quality := co_codec_quality o; co_delete_delay := co_delete_delay o;
  co_password := co_password o; co_is_default := co_is_default o;
  co_max_clients := co_max_clients o; co_max_family_clients := co_max_family_clients o;
  co_channel_type := co_channel_type o; co_is_unencrypted := co_is_unencrypted o;
  co_order := co_order o; co_phonetic_name := co_phonetic_name o; co_topic := co_topic o |}.

Definition ChannelOptions_codec_quality (v : Z) (o : ChannelOptions) : ChannelOptions := {|
  co_name := co_name o; co_description := co_description o; co_parent_id := co_parent_id o;
  co_codec := co_codec o; co_codec_quality := Some v; co_delete_delay := co_delete_delay o;
  co_password := co_password o; co_is_default := co_is_default o;
  co_max_clients := co_max_clients o; co_max_family_clients := co_max_family_clients o;
  co_channel_type := co_channel_type o; co_is_unencrypted := co_is_unencrypted o;
  co_order := co_order o; co_phonetic_name := co_phonetic_name o; co_topic := co_topic o |}.

Definition ChannelOptions_delete_delay (v : Z) (o : ChannelOptions) : ChannelOptions := {|
  co_name := co_name o; co_description := co_description o; co_parent_id := co_parent_id o;
  co_codec := co_codec o; co_codec_quality := co_codec_quality o; co_delete_delay := Some v;
  co_password := co_password o; co_is_default := co_is_default o;
  co_max_clients := co_max_clients o; co_max_family_clients := co_max_family_clients o;
  co_channel_type := co_channel_type o; co_is_unencrypted := co_is_unencrypted o;
  co_order := co_order o; co_phonetic_name := co_phonetic_name o; co_topic := co_topic o |}.

Definition ChannelOptions_password (v : list Z) (o : ChannelOptions) : ChannelOptions := {|
  co_name := co_name o; co_description := co_description o; co_parent_id := co_parent_id o;
  co_codec := co_codec o; co_codec_quality := co_codec_quality o;
  co_delete_delay := co_delete_delay o; co_password := Some v; co_is_default := co_is_default o;
  co_max_clients := co_max_clients o; co_max_family_clients := co_max_family_clients o;
  co_channel_type := co_channel_type o; co_is_unencrypted := co_is_unencrypted o;
  co_order := co_order o; co_phonetic_name := co_phonetic_name o; co_topic := co_topic o |}.

Definition ChannelOptions_default (o : ChannelOptions) : ChannelOptions := {|
  co_name := co_name o; co_description := co_description o; co_parent_id := co_parent_id o;
  co_codec := co_codec o; co_codec_quality := co_codec_quality o;
  co_delete_delay := co_delete_delay o; co_password := co_password o; co_is_default := true;
  co_max_clients := co_max_clients o; co_max_family_clients := co_max_family_clients o;
  co_channel_type := co_channel_type o; co_is_unencrypted := co_is_unencrypted o;
  co_order := co_order o; co_phonetic_name := co_phonetic_name o; co_topic := co_topic o |}.

Definition ChannelOptions_max_clients (v : MaxClients) (o : ChannelOptions) : ChannelOptions := {|
  co_name := co_name o; co_description := co_description o; co_parent_id := co_parent_id o;
  co_codec := co_codec o; co_codec_quality := co_codec_quality o;
  co_delete_delay := co_delete_delay o; co_password := co_password o;
  co_is_default := co_is_default o; co_max_clients := Some v;
  co_max_family_clients := co_max_family_clients o; co_channel_type := co_channel_type o;
  co_is_unencrypted := co_is_unencrypted o; co_order := co_order o;
  co_phonetic_name := co_phonetic_name o; co_topic := co_topic o |}.

Definition ChannelOptions_max_family_clients (v : MaxClients) (o : ChannelOptions) : ChannelOptions := {|
  co_name := co_name o; co_description := co_description o; co_parent_id := co_parent_id o;
  co_codec := co_codec o; co_codec_quality := co_codec_quality o;
  co_delete_delay := co_delete_delay o; co_password := co_password o;
  co_is_default := co_is_default o; co_max_clients := co_max_clients o;
  co_max_family_clients := Some v; co_channel_type := co_channel_type o;
  co_is_unencrypted := co_is_unencrypted o; co_order := co_order o;
  co_phonetic_name := co_phonetic_name o; co_topic := co_topic o |}.

Definition ChannelOptions_channel_type (v : ChannelType) (o : ChannelOptions) : ChannelOptions := {|
  co_name := co_name o; co_description := co_description o; co_parent_id := co_parent_id o;
  co_codec := co_codec o; co_codec_quality := co_codec_quality o;
  co_delete_delay := co_delete_delay o; co_password := co_password o;
  co_is_default := co_is_default o; co_max_clients := co_max_clients o;
  co_max_family_clients := co_max_family_clients o; co_channel_type := Some v;
  co_is_unencrypted := co_is_unencrypted o; co_order := co_order o;
  co_phonetic_name := co_phonetic_name o; co_topic := co_topic o |}.

Definition ChannelOptions_is_unencrypted (v : bool) (o : ChannelOptions) : ChannelOptions := {|
  co_name := co_name o; co_description := co_description o; co_parent_id := co_parent_id o;
  co_codec := co_codec o; co_codec_quality := co_codec_quality o;
  co_delete_delay := co_delete_delay o; co_password := co_password o;
  co_is_default := co_is_default o; co_max_clients := co_max_clients o;
  co_max_family_clients := co_max_family_clients o; co_channel_type := co_channel_type o;
  co_is_unencrypted := Some v; co_order := co_order o; co_phonetic_name := co_phonetic_name o;
  co_topic := co_topic o |}.

Definition ChannelOptions_order (v : Z) (o : ChannelOptions) : ChannelOptions := {|
  co_name := co_name o; co_description := co_description o; co_parent_id := co_parent_id o;
  co_codec := co_codec o; co_codec_quality := co_codec_quality o;
  co_delete_delay := co_delete_delay o; co_password := co_password o;
  co_is_default := co_is_default o; co_max_clients := co_max_clients o;
  co_max_family_clients := co_max_family_clients o; co_channel_type := co_channel_type o;
  co_is_unencrypted := co_is_unencrypted o; co_order := Some v;
  co_phonetic_name := co_phonetic_name o; co_topic := co_topic o |}.

Definition ChannelOptions_phonetic_name (v : list Z) (o : ChannelOptions) : ChannelOptions := {|
  co_name := co_name o; co_description := co_description o; co_parent_id := co_parent_id o;
  co_codec := co_codec o; co_codec_quality := co_codec_quality o;
  co_delete_delay := co_delete_delay o; co_password := co_password o;
  co_is_default := co_is_default o; co_max_clients := co_max_clients o;
  co_max_family_clients := co_max_family_clients o; co_channel_type := co_channel_type o;
  co_is_unencrypted := co_is_unencrypted o; co_order := co_order o; co_phonetic_name := Some v;
  co_topic := co_topic o |}.

Definition ChannelOptions_topic (v : list Z) (o : ChannelOptions) : ChannelOptions := {|
  co_name := co_name o; co_description := co_description o; co_parent_id := co_parent_id o;
  co_codec := co_codec o; co_codec_quality := co_codec_quality o;
  co_delete_delay := co_delete_delay o; co_password := co_password o;
  co_is_default := co_is_default o; co_max_clients := co_max_clients o;
  co_max_family_clients := co_max_family_clients o; co_channel_type := co_channel_type o;
  co_is_unencrypted := co_is_unencrypted o; co_order := co_order o;
  co_phonetic_name := co_phonetic_name o; co_topic := Some v |}.

(** [Duration] is in seconds here. *)
Definition Server_add_channel (options : ChannelOptions) : OutMessage :=
  let inherits_max_family_clients :=
    m ← co_max_family_clients options; match m with Inherited => Some true | _ => None end in
  let is_max_family_clients_unlimited :=
    m ← co_max_family_clients options; match m with Unlimited => Some true | _ => None end in
  let max_family_clients :=
    m ← co_max_family_clients options; match m with Limited n => Some n | _ => None end in
  let is_max_clients_unlimited :=
    m ← co_max_clients options; match m with Unlimited => Some true | _ => None end in
  let max_clients :=
    m ← co_max_clients options; match m with Limited n => Some n | _ => None end in
  let is_permanent :=
    t ← co_channel_type options; match t with Permanent => Some true | _ => None end in
  let is_semi_permanent :=
    t ← co_channel_type options; match t with SemiPermanent => Some true | _ => None end in
  OutChannelCreate {|
    occ_name := co_name options;
    occ_description := co_description options;
    occ_parent_id := co_parent_id options;
    occ_codec := co_codec options;
    occ_codec_quality := co_codec_quality options;
    occ_delete_delay := co_delete_delay options;
    occ_has_password := if is_some (co_password options) then Some true else None;
    occ_is_default := if co_is_default options then Some true else None;
    occ_inherits_max_family_clients := inherits_max_family_clients;
    occ_is_max_family_clients_unlimited := is_max_family_clients_unlimited;
    occ_is_max_clients_unlimited := is_max_clients_unlimited;
    occ_is_permanent := is_permanent;
    occ_is_semi_permanent := is_semi_permanent;
    occ_max_family_clients := max_family_clients;
    occ_max_clients := max_clients;
    occ_is_unencrypted := co_is_unencrypted options;
    occ_order := co_order options;
    occ_password := encode_password <$> co_password options;
    occ_phonetic_name := co_phonetic_name options;
    occ_topic := co_topic options |}.
End send.
