(* ===== verification/BookMessages.v ===== *)
(** What the messages of the server do to the book: the special messages and the names of invokers,
    subscriptions, the limits of channels, addresses. *)
From stdpp Require Import strings gmap.
From S2P Require Import Prelude Text Packets Commands InitPackets Ip IpParse CryptoLib Crypto Connection Book BookSpec BookSend.
#[local] Open Scope Z_scope.

(** * Special messages *)
Section messages.
Context {p256 : P256} {decls : Declarations} {gen : Generated}.
Implicit Types b : Book.

(** The events of a message, or the error of the first part that has one. *)
Definition message_events (msg : InMessage) : res BookError (list Event) :=
  match msg with
  | TextMessage parts => res_mapM (fun p => let? t := text_message_target p in Ok (text_message_event t p)) parts
  | ClientPoke parts => Ok (map poke_event parts)
  | _ => Ok []
  end.

(** Whether the written code handles the message. *)
Definition is_special (msg : InMessage) : bool :=
  match msg with
  | TextMessage (_ :: _) | ClientPoke (_ :: _) | CommandError _ => true
  | _ => false
  end.

Lemma text_messages_spec parts handled b events :
  match message_events (TextMessage parts) with
  | Ok l => text_messages parts handled (b, events) = (Ok (handled || is_special (TextMessage parts)), (b, events ++ l))
  | Err e => exists l, text_messages parts handled (b, events) = (Err e, (b, l))
  | Panic => False
  end.
Proof.
  revert handled events. induction parts as [|p parts IH]; intros handled events.
  - cbn. by rewrite orb_false_r, app_nil_r.
  - cbn [message_events res_mapM text_messages is_special] in *. destruct (text_message_target p) as [t|e|] eqn:Ht.
    + cbn [res_bind]. rewrite orb_true_r. specialize (IH true (events ++ [text_message_event t p])).
      destruct (res_mapM _ parts) as [l|e|]; cbn [res_bind]; run; [|exact IH|exact IH].
      rewrite IH. cbn. by rewrite <- app_assoc.
    + by exists events.
    + unfold text_message_target in Ht. by repeat case_match.
Qed.

Lemma pokes_spec parts handled b events :
  pokes parts handled (b, events) = (Ok (handled || is_special (ClientPoke parts)), (b, events ++ map poke_event parts)).
Proof.
  revert handled events. induction parts as [|p parts IH]; intros handled events.
  - cbn. by rewrite orb_false_r, app_nil_r.
  - cbn [pokes map is_special]. run. rewrite IH. cbn. by rewrite orb_true_r, <- app_assoc.
Qed.

Lemma special_message_spec msg handled b events :
  match message_events msg with
  | Ok l => special_message msg handled (b, events) = (Ok (handled || is_special msg), (b, events ++ l))
  | Err e => exists l, special_message msg handled (b, events) = (Err e, (b, l))
  | Panic => False
  end.
Proof.
  destruct msg; [apply text_messages_spec|apply pokes_spec|..]; cbn; by rewrite ?orb_true_r, ?orb_false_r, app_nil_r.
Qed.

(** The invoker that the first event names, if its client is known under another name. *)
Definition renamed (events : list Event) b : option (Invoker * Client) :=
  invoker ← head events ≫= get_invoker;
  client ← clients b !! inv_id invoker;
  if bool_decide (cl_name client = inv_name invoker) then None else Some (invoker, client).

Lemma adjust_name_spec b events :
  adjust_name (b, events) =
    match renamed events b with
    | Some (i, c) =>
        (Ok tt, (set_clients <[inv_id i := with_name c (inv_name i)]> b,
                 events ++ [PropertyChanged (PropClientName (cl_id c)) (ValString (cl_name c)) None None]))
    | None => (Ok tt, (b, events))
    end.
Proof.
  unfold adjust_name, renamed. cbn [fst snd]. destruct (head events ≫= get_invoker) as [i|]; [|done].
  cbn [mbind option_bind]. destruct (clients b !! inv_id i) as [c|]; [|done]. cbn [mbind option_bind].
  by case_bool_decide.
Qed.

(** A message first goes to the generated handler.  Its events are followed by one event per
    text message or poke; a text message without target, or with an unknown one, is an error, after
    which the book is that of the generated handler.  At last, if the first event names an invoker
    whose client is known under another name, this client gets the name and an event tells the old
    one.  Nothing panics. *)
Theorem special_messages (msg : InMessage) (b b1 : Book) (h : bool) (l1 : list Event)
    (Hg : handle_command_generated msg b = (Ok (h, l1), b1)) :
  match message_events msg with
  | Ok l =>
      book_handle_command msg b =
        match renamed (l1 ++ l) b1 with
        | Some (i, c) =>
            (Ok ((l1 ++ l) ++ [PropertyChanged (PropClientName (cl_id c)) (ValString (cl_name c)) None None],
                 h || is_special msg),
             set_clients <[inv_id i := with_name c (inv_name i)]> b1)
        | None => (Ok (l1 ++ l, h || is_special msg), b1)
        end
  | Err e => book_handle_command msg b = (Err e, b1)
  | Panic => False
  end.
Proof.
  unfold book_handle_command. rewrite Hg. pose proof (special_message_spec msg h b1 l1) as Hs.
  destruct (message_events msg) as [l|e|]; [|destruct Hs as [l Hs]|done].
  - rewrite (bk_bind_ok _ _ _ _ _ Hs). unfold mbind, bk_bind. rewrite adjust_name_spec.
    by destruct (renamed _ _) as [[i c]|].
  - unfold mbind, bk_bind. by rewrite Hs.
Qed.
End messages.

(** * Subscriptions *)
Section subscriptions.
Context `{P256} `{Declarations} `{HashOrderLaws}.
Implicit Types b : Book.

Definition removed_event (c : Client) : Event := PropertyRemoved (PropClient (cl_id c)) (ValClient c) None None.

Lemma remove_clients_spec cs b events :
  NoDup (cl_id <$> cs) -> (forall c, c ∈ cs -> clients b !! cl_id c = Some c) ->
  exists b', remove_clients (cl_id <$> cs) (b, events) = (Ok tt, (b', events ++ (removed_event <$> cs))) /\
    b' = set_clients (fun _ => clients b') b /\
    forall x, clients b' !! x = if decide (x ∈ cl_id <$> cs) then None else clients b !! x.
Proof.
  revert b events. induction cs as [|c cs IH]; intros b events Hd Hc.
  - exists b. cbn. rewrite app_nil_r. split_and!; [done|by destruct b|done].
  - cbn [fmap list_fmap] in *. apply NoDup_cons in Hd as [Hn Hd].
    destruct (IH (set_clients (delete (cl_id c)) b) (events ++ [removed_event c])) as (b' & He & Hb & Hl).
    { done. }
    { intros d Hd'. cbn. rewrite lookup_delete_ne; [apply Hc; by right|]. intros Heq. apply Hn. rewrite Heq.
      by apply list_elem_of_fmap_2. }
    exists b'. split_and!.
    + cbn [remove_clients]. run. rewrite Hc by left. run. fold (removed_event c). rewrite He.
      by rewrite <- app_assoc.
    + rewrite Hb at 1. done.
    + intros x. rewrite Hl. cbn. destruct (decide (x = cl_id c)) as [->|Hne].
      * rewrite lookup_delete_eq, (decide_True (P := cl_id c ∈ cl_id c :: _)) by left. by case_decide.
      * rewrite lookup_delete_ne by done. destruct (decide (x ∈ cl_id <$> cs)).
        { rewrite decide_True; [done|]. by right. }
        { rewrite decide_False; [done|]. by rewrite not_elem_of_cons. }
Qed.

(** Unsubscribing a channel that is known always succeeds: the channel is not subscribed
    anymore, exactly its clients are removed, each with one event that holds the removed client, and
    nothing else changes. *)
Theorem unsubscribe_removes_clients (b : Book) (events : list Event) (id : Z) (c : Channel)
    (Hk : forall x d, clients b !! x = Some d -> cl_id d = x) (Hc : channels b !! id = Some c) :
  exists b' removed,
    channel_unsubscribe_fun id (b, events) =
      (Ok tt, (b', events ++ PropertyChanged (PropChannelSubscribed id) (ValBool (ch_subscribed c)) None None
                     :: (removed_event <$> removed))) /\
    channels b' = <[id := with_subscribed c false]> (channels b) /\
    b' = set_clients (fun _ => clients b') (set_channels (fun _ => channels b') b) /\
    NoDup removed /\
    (forall d, d ∈ removed <-> cl_channel d = id /\ exists x, clients b !! x = Some d) /\
    (forall x d, clients b' !! x = Some d <-> clients b !! x = Some d /\ cl_channel d <> id).
Proof.
  set (b1 := set_channels <[id := with_subscribed c false]> b).
  set (removed := base.filter (fun d => cl_channel d = id) (iter Client (clients b)).*2).
  assert (Hin : forall d, d ∈ removed <-> cl_channel d = id /\ exists x, clients b !! x = Some d).
  { intros d. unfold removed. rewrite list_elem_of_filter, list_elem_of_fmap. f_equiv. split.
    - intros ([x d'] & -> & Hx%elem_of_iter). by exists x.
    - intros [x Hx]. exists (x, d). split; [done|]. by apply elem_of_iter. }
  assert (Hd : NoDup (cl_id <$> removed)).
  { assert (NoDup (cl_id <$> (iter Client (clients b)).*2)) as Hall.
    { assert (cl_id <$> (iter Client (clients b)).*2 = (iter Client (clients b)).*1) as ->.
      - rewrite <- list_fmap_compose. apply list_fmap_ext. intros i [x d] Hi. simpl. apply Hk.
        by apply elem_of_iter, list_elem_of_lookup_2 with i.
      - rewrite iter_entries. apply NoDup_fst_map_to_list. }
    eapply sublist_NoDup; [exact Hall|]. apply fmap_sublist, sublist_filter. }
  destruct (remove_clients_spec removed b1 (events ++ [PropertyChanged (PropChannelSubscribed id)
    (ValBool (ch_subscribed c)) None None])) as (b' & He & Hb & Hl); [done| |].
  { intros d [_ [x Hx]]%Hin. subst b1. cbn. by rewrite (Hk x d). }
  exists b', removed. split_and!; [| | | |done|].
  - unfold channel_unsubscribe_fun, get_channel, from_option_or, set_subscribed. run. rewrite Hc. run.
    rewrite <- app_assoc in He. exact He.
  - by rewrite Hb.
  - replace (channels b') with (channels b1) by (by rewrite Hb). exact Hb.
  - by apply (NoDup_fmap_1 cl_id).
  - intros x d. rewrite Hl. cbn. case_decide as Hx.
    + split; [done|]. intros [Hx' Hne]. apply list_elem_of_fmap in Hx as (d' & -> & [Hd' [y Hy]]%Hin). exfalso.
      apply Hne. rewrite (Hk y d') in Hx' by done. congruence.
    + split; [|by intros [? _]]. intros Hx'. split; [done|]. intros Hd'. apply Hx. rewrite <- (Hk x d Hx').
      apply list_elem_of_fmap_2, Hin. split; [done|]. by exists x.
Qed.
End subscriptions.

(** * Limits, types and addresses *)
Section values.
Context `{Base64Enc} `{Sha1} `{P256} `{Declarations}.

(** A message with limits as the book sends and as it reads them. *)
Definition part_limits (p : OutChannelCreatePart) : ClientLimits := {|
  lim_max_clients := occ_max_clients p;
  lim_is_max_clients_unlimited := occ_is_max_clients_unlimited p;
  lim_max_family_clients := occ_max_family_clients p;
  lim_is_max_family_clients_unlimited := occ_is_max_family_clients_unlimited p;
  lim_inherits_max_family_clients := occ_inherits_max_family_clients p |}.

Definition b2m_limits (m f : MaxClients) : ClientLimits :=
  let '(n, u) := max_clients_fun_b2m m in
  let '(fn, fu, fi) := max_family_clients_fun_b2m f in {|
  lim_max_clients := Some n; lim_is_max_clients_unlimited := Some u;
  lim_max_family_clients := Some fn; lim_is_max_family_clients_unlimited := Some fu;
  lim_inherits_max_family_clients := Some fi |}.

Definition limit_ok (m : MaxClients) : Prop := match m with Limited n => is_u16 n | _ => True end.

Lemma fits_u16_true n : is_u16 n -> fits_u16 n = true.
Proof. unfold is_uint, fits_u16. change (2 ^ 16) with 65536. intros Hn. lia. Qed.

(** What the book sends about the limits and the type of a channel is read back as it was meant,
    for new channels and for changes: except that a channel that should inherit its own limit gets
    none when it is created, and a limit of zero clients when it is changed. *)
Theorem limits_roundtrip (o : ChannelOptions) (part : OutChannelCreatePart) (m f : MaxClients) (t : ChannelType)
    (Hm : limit_ok m) (Hf : limit_ok f) (Hpart : Server_add_channel o = OutChannelCreate part)
    (Hom : forall l, co_max_clients o = Some l -> limit_ok l)
    (Hof : forall l, co_max_family_clients o = Some l -> limit_ok l) :
  max_clients (part_limits part) =
    match co_max_clients o with Some Inherited => None | l => l end /\
  max_family_clients (part_limits part) = co_max_family_clients o /\
  channel_flags_to_type (occ_is_permanent part) (occ_is_semi_permanent part) = default Temporary (co_channel_type o) /\
  max_clients (b2m_limits m f) = Some (match m with Inherited => Limited 0 | _ => m end) /\
  max_family_clients (b2m_limits m f) = Some f /\
  (let '(semi, perm) := channel_type_fun_b2m t in channel_flags_to_type (Some perm) (Some semi) = t).
Proof.
  injection Hpart as <-. unfold max_clients, max_family_clients, channel_flags_to_type. cbn. split_and!.
  - destruct (co_max_clients o) as [[]|]; cbn; try done. by rewrite fits_u16_true by (by apply (Hom (Limited n))).
  - destruct (co_max_family_clients o) as [[]|]; cbn; try done. by rewrite fits_u16_true by (by apply (Hof (Limited n))).
  - by destruct (co_channel_type o) as [[]|].
  - destruct m, f; cbn; try done; by rewrite fits_u16_true by done.
  - destruct m, f; cbn; try done; by rewrite fits_u16_true by done.
  - by destruct t.
Qed.
End values.

Lemma no_bracket_addr c : addr_char c -> is_bracket c = false.
Proof. unfold addr_char, is_bracket. intros Hc. lia. Qed.

Lemma trim_start_brackets p l k : Forall (fun c => p c = true) l -> trim_start p (l ++ k) = trim_start p k.
Proof. induction 1 as [|c l Hc _ IH]; [done|]. simpl. by rewrite Hc. Qed.

Lemma trim_start_none p l : Forall (fun c => p c = false) l -> trim_start p l = l.
Proof. intros [|c k Hc _]; [done|]. simpl. by rewrite Hc. Qed.

Lemma trim_matches_spec p a l b :
  Forall (fun c => p c = true) a -> Forall (fun c => p c = true) b -> Forall (fun c => p c = false) l -> l <> [] ->
  trim_matches p (a ++ l ++ b) = l.
Proof.
  intros Ha Hb Hl Hn. unfold trim_matches. rewrite trim_start_brackets by done.
  assert (trim_start p (l ++ b) = l ++ b) as ->.
  { destruct Hl as [|c k Hc _]; [done|]. simpl. by rewrite Hc. }
  rewrite rev_app_distr, trim_start_brackets by (by apply Forall_rev).
  rewrite trim_start_none by (by apply Forall_rev). apply rev_involutive.
Qed.

(** The address of a client connection is read from every text of an IP address, with and
    without square brackets; without an address or a port there is none. *)
Theorem address_read `{P256} `{Declarations} (ip : IpAddr) (port : Z) (brackets : bool) (id : Z) (t : option Z) (s : Book * list Event)
    (Hip : ip_valid ip) :
  let text := if brackets then byte_str "[" ++ ip_to_string ip ++ byte_str "]" else ip_to_string ip in
  address_fun {| cci_client_id := id; cci_connected_time := t; cci_ip := Some text; cci_port := Some port |} s = (Ok (Some (Some (ip, port))), s) /\
  address_fun {| cci_client_id := id; cci_connected_time := t; cci_ip := Some text; cci_port := None |} s = (Ok (Some None), s) /\
  address_fun {| cci_client_id := id; cci_connected_time := t; cci_ip := Some []; cci_port := Some port |} s = (Ok (Some None), s).
Proof.
  assert (Hne : ip_to_string ip <> []) by (intros He; pose proof (parse_ip_text ip Hip) as Hp; by rewrite He in Hp).
  intros text. split_and!; [|done..]. unfold address_fun. cbn [cci_ip cci_port].
  assert (text <> []) as Hn by (subst text; by destruct brackets).
  rewrite bool_decide_false by done.
  assert (trim_matches is_bracket text = ip_to_string ip) as ->.
  { assert (Forall (fun c => is_bracket c = false) (ip_to_string ip)) as Hc.
    { eapply Forall_impl; [apply ip_text_chars|apply no_bracket_addr]. destruct ip as [a b c d|l].
      - repeat (apply Forall_cons_1 in Hip as [? Hip]). simpl. lia.
      - destruct Hip as [_ Hip]. eapply Forall_impl; [exact Hip|]. simpl. lia. }
    subst text. destruct brackets; [by apply trim_matches_spec; [repeat constructor..| |]|].
    rewrite <- (app_nil_r (ip_to_string ip)) at 1. by apply (trim_matches_spec _ []). }
  rewrite parse_ip_text by done. done.
Qed.

(** * Witnesses *)

#[export] Instance no_declarations : Generated := {| handle_command_generated m b := (Ok (false, []), b) |}.

Definition plain_client (id channel : Z) (name : list Z) : Client := {|
  cl_id := id; cl_name := name; cl_channel := channel; cl_away_message := None; cl_talk_power_request := None;
  cl_mutes := {| input_muted := false; output_muted := false; input_hardware_enabled := true;
                 output_hardware_enabled := true; output_only_muted := false |};
  cl_talk_power := 0; cl_talk_power_granted := false;
  cl_connection_data := None; cl_optional_data := None; cl_rest := tt |}.

Definition client_book : Book := set_clients
  (fun _ => {[2 := plain_client 2 7 (byte_str "old"); 3 := plain_client 3 5 (byte_str "other")]})
  (plain_book three_channels).

Definition hello : InMessage := TextMessage [{|
  tm_target := TargetChannel; tm_target_client_id := None; tm_invoker_name := byte_str "new"; tm_invoker_id := 2;
  tm_invoker_uid := None; tm_message := byte_str "hello" |}].

Definition new_name : Invoker := {| inv_name := byte_str "new"; inv_id := 2; inv_uid := None |}.

Lemma special_messages_witness :
  book_handle_command hello client_book =
    (Ok ([Message ToChannel new_name (byte_str "hello");
          PropertyChanged (PropClientName 2) (ValString (byte_str "old")) None None], true),
     set_clients <[2 := plain_client 2 7 (byte_str "new")]> client_book).
Proof. exact (special_messages hello client_book client_book false [] eq_refl). Defined.

Lemma unsubscribe_removes_clients_witness :
  exists b' removed,
    channel_unsubscribe_fun 7 (client_book, []) =
      (Ok tt, (b', [] ++ PropertyChanged (PropChannelSubscribed 7) (ValBool false) None None
                     :: (removed_event <$> removed))) /\
    channels b' = <[7 := with_subscribed (plain_channel 7 0 0) false]> (channels client_book) /\
    b' = set_clients (fun _ => clients b') (set_channels (fun _ => channels b') client_book) /\
    NoDup removed /\
    (forall d, d ∈ removed <-> cl_channel d = 7 /\ exists x, clients client_book !! x = Some d) /\
    (forall x d, clients b' !! x = Some d <-> clients client_book !! x = Some d /\ cl_channel d <> 7).
Proof.
  apply (unsubscribe_removes_clients client_book [] 7 (plain_channel 7 0 0)); [|reflexivity].
  intros x d. cbn. rewrite lookup_insert_Some, lookup_singleton_Some. intros [[<- <-]|[_ [<- <-]]]; reflexivity.
Defined.

Definition large_room : ChannelOptions :=
  ChannelOptions_max_clients (Limited 100) (ChannelOptions_channel_type SemiPermanent (ChannelOptions_new (byte_str "room"))).

Lemma limits_roundtrip_witness : exists part, Server_add_channel large_room = OutChannelCreate part /\
  max_clients (part_limits part) = Some (Limited 100) /\
  max_clients (b2m_limits Inherited (Limited 5)) = Some (Limited 0).
Proof.
  eexists. split; [reflexivity|].
  epose proof (limits_roundtrip large_room _ Inherited (Limited 5) Permanent I ltac:(done) eq_refl) as Hr.
  destruct Hr as (H1 & _ & _ & H4 & _); [by intros l [= <-]|done|]. by split.
Defined.

Lemma address_read_witness :
  address_fun {| cci_client_id := 3; cci_connected_time := None; cci_ip := Some (byte_str "[::1]"); cci_port := Some 9987 |} (client_book, []) =
    (Ok (Some (Some (V6 [0; 0; 0; 0; 0; 0; 0; 1], 9987))), (client_book, [])).
Proof.
  destruct (address_read (V6 [0; 0; 0; 0; 0; 0; 0; 1]) 9987 true 3 None (client_book, [])) as [Hr _].
  { split; [reflexivity|]. repeat constructor; lia. }
  exact Hr.
Defined.
