(* ===== verification/Options.v ===== *)
(** The options of a connection ([ConnectOptions] in [tsclientlib/src/lib.rs]). *)
From stdpp Require Import strings.
From S2P Require Import Prelude Text Packets InitPackets Commands Connection Ip CryptoLib License Crypto Identity.
#[local] Open Scope Z_scope.

(** The versions of clients are generated: their name, platform and signature. *)
Class Versions := {
  Version : Type;
  Windows_3_X_X__1 : Version;
  get_version_string : Version -> list Z;
  get_platform : Version -> list Z;
  get_signature : Version -> list Z;
}.

(** [ts_bookkeeping::ServerAddress] *)
Inductive ServerAddress :=
  | SocketAddress (a : SocketAddr)
  | OtherAddress (s : list Z).

Section options.
Context `{Versions} `{P256}.

Record ConnectOptions := {
  opt_address : ServerAddress;
  opt_local_address : option SocketAddr;
  opt_identity : option Identity;
  opt_server_uid : option (list Z);
  opt_name : list Z;
  opt_version : Version;
  opt_hardware_id : list Z;
  opt_channel : option (list Z);
  opt_channel_password : option (list Z);
  opt_password : option (list Z);
  opt_input_muted : bool;
  opt_output_muted : bool;
  opt_input_hardware_enabled : bool;
  opt_output_hardware_enabled : bool;
  opt_away : option (list Z);
  opt_log_commands : bool;
  opt_log_packets : bool;
  opt_log_udp_packets : bool;
}.

(** [Connection::build] *)
Definition build (address : ServerAddress) : ConnectOptions := {|
  opt_address := address; opt_local_address := None; opt_identity := None; opt_server_uid := None;
  opt_name := byte_str "TeamSpeakUser"; opt_version := Windows_3_X_X__1;
  opt_hardware_id := byte_str "923f136fb1e22ae6ce95e60255529c00,d13231b1bc33edfecfb9169cc7a63bcc";
  opt_channel := None; opt_channel_password := None; opt_password := None;
  opt_input_muted := false; opt_output_muted := false;
  opt_input_hardware_enabled := true; opt_output_hardware_enabled := true;
  opt_away := None; opt_log_commands := false; opt_log_packets := false; opt_log_udp_packets := false |}.

(** * Setting options

    The fields that are options are set from their whole value; the methods of the source set [Some]
    value. *)

Definition opt_set_local_address (v : option SocketAddr) (o : ConnectOptions) : ConnectOptions := {|
  opt_address := opt_address o; opt_local_address := v; opt_identity := opt_identity o;
  opt_server_uid := opt_server_uid o; opt_name := opt_name o; opt_version := opt_version o;
  opt_hardware_id := opt_hardware_id o; opt_channel := opt_channel o;
  opt_channel_password := opt_channel_password o; opt_password := opt_password o;
  opt_input_muted := opt_input_muted o; opt_output_muted := opt_output_muted o;
  opt_input_hardware_enabled := opt_input_hardware_enabled o;
  opt_output_hardware_enabled := opt_output_hardware_enabled o; opt_away := opt_away o;
  opt_log_commands := opt_log_commands o; opt_log_packets := opt_log_packets o;
  opt_log_udp_packets := opt_log_udp_packets o |}.

Definition opt_set_identity (v : option Identity) (o : ConnectOptions) : ConnectOptions := {|
  opt_address := opt_address o; opt_local_address := opt_local_address o; opt_identity := v;
  opt_server_uid := opt_server_uid o; opt_name := opt_name o; opt_version := opt_version o;
  opt_hardware_id := opt_hardware_id o; opt_channel := opt_channel o;
  opt_channel_password := opt_channel_password o; opt_password := opt_password o;
  opt_input_muted := opt_input_muted o; opt_output_muted := opt_output_muted o;
  opt_input_hardware_enabled := opt_input_hardware_enabled o;
  opt_output_hardware_enabled := opt_output_hardware_enabled o; opt_away := opt_away o;
  opt_log_commands := opt_log_commands o; opt_log_packets := opt_log_packets o;
  opt_log_udp_packets := opt_log_udp_packets o |}.

Definition opt_set_server_uid (v : option (list Z)) (o : ConnectOptions) : ConnectOptions := {|
  opt_address := opt_address o; opt_local_address := opt_local_address o; opt_identity := opt_identity o;
  opt_server_uid := v; opt_name := opt_name o; opt_version := opt_version o;
  opt_hardware_id := opt_hardware_id o; opt_channel := opt_channel o;
  opt_channel_password := opt_channel_password o; opt_password := opt_password o;
  opt_input_muted := opt_input_muted o; opt_output_muted := opt_output_muted o;
  opt_input_hardware_enabled := opt_input_hardware_enabled o;
  opt_output_hardware_enabled := opt_output_hardware_enabled o; opt_away := opt_away o;
  opt_log_commands := opt_log_commands o; opt_log_packets := opt_log_packets o;
  opt_log_udp_packets := opt_log_udp_packets o |}.

Definition opt_set_name (v : list Z) (o : ConnectOptions) : ConnectOptions := {|
  opt_address := opt_address o; opt_local_address := opt_local_address o; opt_identity := opt_identity o;
  opt_server_uid := opt_server_uid o; opt_name := v; opt_version := opt_version o;
  opt_hardware_id := opt_hardware_id o; opt_channel := opt_channel o;
  opt_channel_password := opt_channel_password o; opt_password := opt_password o;
  opt_input_muted := opt_input_muted o; opt_output_muted := opt_output_muted o;
  opt_input_hardware_enabled := opt_input_hardware_enabled o;
  opt_output_hardware_enabled := opt_output_hardware_enabled o; opt_away := opt_away o;
  opt_log_commands := opt_log_commands o; opt_log_packets := opt_log_packets o;
  opt_log_udp_packets := opt_log_udp_packets o |}.

Definition opt_set_version (v : Version) (o : ConnectOptions) : ConnectOptions := {|
  opt_address := opt_address o; opt_local_address := opt_local_address o; opt_identity := opt_identity o;
  opt_server_uid := opt_server_uid o; opt_name := opt_name o; opt_version := v;
  opt_hardware_id := opt_hardware_id o; opt_channel := opt_channel o;
  opt_channel_password := opt_channel_password o; opt_password := opt_password o;
  opt_input_muted := opt_input_muted o; opt_output_muted := opt_output_muted o;
  opt_input_hardware_enabled := opt_input_hardware_enabled o;
  opt_output_hardware_enabled := opt_output_hardware_enabled o; opt_away := opt_away o;
  opt_log_commands := opt_log_commands o; opt_log_packets := opt_log_packets o;
  opt_log_udp_packets := opt_log_udp_packets o |}.

Definition opt_set_hardware_id (v : list Z) (o : ConnectOptions) : ConnectOptions := {|
  opt_address := opt_address o; opt_local_address := opt_local_address o; opt_identity := opt_identity o;
  opt_server_uid := opt_server_uid o; opt_name := opt_name o; opt_version := opt_version o;
  opt_hardware_id := v; opt_channel := opt_channel o; opt_channel_password := opt_channel_password o;
  opt_password := opt_password o; opt_input_muted := opt_input_muted o;
  opt_output_muted := opt_output_muted o; opt_input_hardware_enabled := opt_input_hardware_enabled o;
  opt_output_hardware_enabled := opt_output_hardware_enabled o; opt_away := opt_away o;
  opt_log_commands := opt_log_commands o; opt_log_packets := opt_log_packets o;
  opt_log_udp_packets := opt_log_udp_packets o |}.

Definition opt_set_channel (v : option (list Z)) (o : ConnectOptions) : ConnectOptions := {|
  opt_address := opt_address o; opt_local_address := opt_local_address o; opt_identity := opt_identity o;
  opt_server_uid := opt_server_uid o; opt_name := opt_name o; opt_version := opt_version o;
  opt_hardware_id := opt_hardware_id o; opt_channel := v; opt_channel_password := opt_channel_password o;
  opt_password := opt_password o; opt_input_muted := opt_input_muted o;
  opt_output_muted := opt_output_muted o; opt_input_hardware_enabled := opt_input_hardware_enabled o;
  opt_output_hardware_enabled := opt_output_hardware_enabled o; opt_away := opt_away o;
  opt_log_commands := opt_log_commands o; opt_log_packets := opt_log_packets o;
  opt_log_udp_packets := opt_log_udp_packets o |}.

Definition opt_set_channel_password (v : option (list Z)) (o : ConnectOptions) : ConnectOptions := {|
  opt_address := opt_address o; opt_local_address := opt_local_address o; opt_identity := opt_identity o;
  opt_server_uid := opt_server_uid o; opt_name := opt_name o; opt_version := opt_version o;
  opt_hardware_id := opt_hardware_id o; opt_channel := opt_channel o; opt_channel_password := v;
  opt_password := opt_password o; opt_input_muted := opt_input_muted o;
  opt_output_muted := opt_output_muted o; opt_input_hardware_enabled := opt_input_hardware_enabled o;
  opt_output_hardware_enabled := opt_output_hardware_enabled o; opt_away := opt_away o;
  opt_log_commands := opt_log_commands o; opt_log_packets := opt_log_packets o;
  opt_log_udp_packets := opt_log_udp_packets o |}.

Definition opt_set_password (v : option (list Z)) (o : ConnectOptions) : ConnectOptions := {|
  opt_address := opt_address o; opt_local_address := opt_local_address o; opt_identity := opt_identity o;
  opt_server_uid := opt_server_uid o; opt_name := opt_name o; opt_version := opt_version o;
  opt_hardware_id := opt_hardware_id o; opt_channel := opt_channel o;
  opt_channel_password := opt_channel_password o; opt_password := v; opt_input_muted := opt_input_muted o;
  opt_output_muted := opt_output_muted o; opt_input_hardware_enabled := opt_input_hardware_enabled o;
  opt_output_hardware_enabled := opt_output_hardware_enabled o; opt_away := opt_away o;
  opt_log_commands := opt_log_commands o; opt_log_packets := opt_log_packets o;
  opt_log_udp_packets := opt_log_udp_packets o |}.

Definition opt_set_input_muted (v : bool) (o : ConnectOptions) : ConnectOptions := {|
  opt_address := opt_address o; opt_local_address := opt_local_address o; opt_identity := opt_identity o;
  opt_server_uid := opt_server_uid o; opt_name := opt_name o; opt_version := opt_version o;
  opt_hardware_id := opt_hardware_id o; opt_channel := opt_channel o;
  opt_channel_password := opt_channel_password o; opt_password := opt_password o; opt_input_muted := v;
  opt_output_muted := opt_output_muted o; opt_input_hardware_enabled := opt_input_hardware_enabled o;
  opt_output_hardware_enabled := opt_output_hardware_enabled o; opt_away := opt_away o;
  opt_log_commands := opt_log_commands o; opt_log_packets := opt_log_packets o;
  opt_log_udp_packets := opt_log_udp_packets o |}.

Definition opt_set_output_muted (v : bool) (o : ConnectOptions) : ConnectOptions := {|
  opt_address := opt_address o; opt_local_address := opt_local_address o; opt_identity := opt_identity o;
  opt_server_uid := opt_server_uid o; opt_name := opt_name o; opt_version := opt_version o;
  opt_hardware_id := opt_hardware_id o; opt_channel := opt_channel o;
  opt_channel_password := opt_channel_password o; opt_password := opt_password o;
  opt_input_muted := opt_input_muted o; opt_output_muted := v;
  opt_input_hardware_enabled := opt_input_hardware_enabled o;
  opt_output_hardware_enabled := opt_output_hardware_enabled o; opt_away := opt_away o;
  opt_log_commands := opt_log_commands o; opt_log_packets := opt_log_packets o;
  opt_log_udp_packets := opt_log_udp_packets o |}.

Definition opt_set_input_hardware_enabled (v : bool) (o : ConnectOptions) : ConnectOptions := {|
  opt_address := opt_address o; opt_local_address := opt_local_address o; opt_identity := opt_identity o;
  opt_server_uid := opt_server_uid o; opt_name := opt_name o; opt_version := opt_version o;
  opt_hardware_id := opt_hardware_id o; opt_channel := opt_channel o;
  opt_channel_password := opt_channel_password o; opt_password := opt_password o;
  opt_input_muted := opt_input_muted o; opt_output_muted := opt_output_muted o;
  opt_input_hardware_enabled := v; opt_output_hardware_enabled := opt_output_hardware_enabled o;
  opt_away := opt_away o; opt_log_commands := opt_log_commands o; opt_log_packets := opt_log_packets o;
  opt_log_udp_packets := opt_log_udp_packets o |}.

Definition opt_set_output_hardware_enabled (v : bool) (o : ConnectOptions) : ConnectOptions := {|
  opt_address := opt_address o; opt_local_address := opt_local_address o; opt_identity := opt_identity o;
  opt_server_uid := opt_server_uid o; opt_name := opt_name o; opt_version := opt_version o;
  opt_hardware_id := opt_hardware_id o; opt_channel := opt_channel o;
  opt_channel_password := opt_channel_password o; opt_password := opt_password o;
  opt_input_muted := opt_input_muted o; opt_output_muted := opt_output_muted o;
  opt_input_hardware_enabled := opt_input_hardware_enabled o; opt_output_hardware_enabled := v;
  opt_away := opt_away o; opt_log_commands := opt_log_commands o; opt_log_packets := opt_log_packets o;
  opt_log_udp_packets := opt_log_udp_packets o |}.

Definition opt_set_away (v : option (list Z)) (o : ConnectOptions) : ConnectOptions := {|
  opt_address := opt_address o; opt_local_address := opt_local_address o; opt_identity := opt_identity o;
  opt_server_uid := opt_server_uid o; opt_name := opt_name o; opt_version := opt_version o;
  opt_hardware_id := opt_hardware_id o; opt_channel := opt_channel o;
  opt_channel_password := opt_channel_password o; opt_password := opt_password o;
  opt_input_muted := opt_input_muted o; opt_output_muted := opt_output_muted o;
  opt_input_hardware_enabled := opt_input_hardware_enabled o;
  opt_output_hardware_enabled := opt_output_hardware_enabled o; opt_away := v;
  opt_log_commands := opt_log_commands o; opt_log_packets := opt_log_packets o;
  opt_log_udp_packets := opt_log_udp_packets o |}.

Definition opt_set_log_commands (v : bool) (o : ConnectOptions) : ConnectOptions := {|
  opt_address := opt_address o; opt_local_address := opt_local_address o; opt_identity := opt_identity o;
  opt_server_uid := opt_server_uid o; opt_name := opt_name o; opt_version := opt_version o;
  opt_hardware_id := opt_hardware_id o; opt_channel := opt_channel o;
  opt_channel_password := opt_channel_password o; opt_password := opt_password o;
  opt_input_muted := opt_input_muted o; opt_output_muted := opt_output_muted o;
  opt_input_hardware_enabled := opt_input_hardware_enabled o;
  opt_output_hardware_enabled := opt_output_hardware_enabled o; opt_away := opt_away o;
  opt_log_commands := v; opt_log_packets := opt_log_packets o;
  opt_log_udp_packets := opt_log_udp_packets o |}.

Definition opt_set_log_packets (v : bool) (o : ConnectOptions) : ConnectOptions := {|
  opt_address := opt_address o; opt_local_address := opt_local_address o; opt_identity := opt_identity o;
  opt_server_uid := opt_server_uid o; opt_name := opt_name o; opt_version := opt_version o;
  opt_hardware_id := opt_hardware_id o; opt_channel := opt_channel o;
  opt_channel_password := opt_channel_password o; opt_password := opt_password o;
  opt_input_muted := opt_input_muted o; opt_output_muted := opt_output_muted o;
  opt_input_hardware_enabled := opt_input_hardware_enabled o;
  opt_output_hardware_enabled := opt_output_hardware_enabled o; opt_away := opt_away o;
  opt_log_commands := opt_log_commands o; opt_log_packets := v;
  opt_log_udp_packets := opt_log_udp_packets o |}.

Definition opt_set_log_udp_packets (v : bool) (o : ConnectOptions) : ConnectOptions := {|
  opt_address := opt_address o; opt_local_address := opt_local_address o; opt_identity := opt_identity o;
  opt_server_uid := opt_server_uid o; opt_name := opt_name o; opt_version := opt_version o;
  opt_hardware_id := opt_hardware_id o; opt_channel := opt_channel o;
  opt_channel_password := opt_channel_password o; opt_password := opt_password o;
  opt_input_muted := opt_input_muted o; opt_output_muted := opt_output_muted o;
  opt_input_hardware_enabled := opt_input_hardware_enabled o;
  opt_output_hardware_enabled := opt_output_hardware_enabled o; opt_away := opt_away o;
  opt_log_commands := opt_log_commands o; opt_log_packets := opt_log_packets o; opt_log_udp_packets := v |}.

End options.

(** The methods of the source. *)
Module With.
Section with_options.
Context `{Versions} `{P256}.

Definition local_address (a : SocketAddr) := opt_set_local_address (Some a).
Definition identity (i : Identity) := opt_set_identity (Some i).
Definition server (uid : list Z) := opt_set_server_uid (Some uid).
Definition name (n : list Z) := opt_set_name n.
Definition version (v : Version) := opt_set_version v.
Definition hardware_id (h : list Z) := opt_set_hardware_id h.
Definition channel (path : list Z) := opt_set_channel (Some path).
Definition channel_id (id : Z) := opt_set_channel (Some (byte_str "/" ++ to_dec id)).
Definition channel_password (pwd : list Z) := opt_set_channel_password (Some pwd).
Definition password (pwd : list Z) := opt_set_password (Some pwd).
Definition input_muted (b : bool) := opt_set_input_muted b.
Definition output_muted (b : bool) := opt_set_output_muted b.
Definition input_hardware_enabled (b : bool) := opt_set_input_hardware_enabled b.
Definition output_hardware_enabled (b : bool) := opt_set_output_hardware_enabled b.
Definition away (message : list Z) := opt_set_away (Some message).
Definition log_commands (b : bool) := opt_set_log_commands b.
Definition log_packets (b : bool) := opt_set_log_packets b.
Definition log_udp_packets (b : bool) := opt_set_log_udp_packets b.
End with_options.
End With.
