(* ===== verification/Library.v ===== *)
(** The connection of the library ([tsclientlib/src/lib.rs]): a state machine around the client and
    the book.  It connects, with another identity level if the server wants one, handles commands,
    tells the user about audio, and reconnects.

    The client is an interface, [ClientApi]: what is ready when it is polled is part of its state.
    The asynchronous functions [connect] and [connect_to] are functions of the answers that they
    wait for; a future that is polled is its arguments and the progress that the state machine can
    observe.  The messages are generated: [Messages]. *)
From stdpp Require Import strings gmap.
From S2P Require Import Prelude Text Packets InitPackets AudioData Commands PacketId Algorithms Connection Resend.
From S2P Require Import Stats Ip CryptoLib License Crypto Identity Client Resolver Book BookSend Options.
#[local] Open Scope Z_scope.

Definition INITSERVER_TIMEOUT : Z := 5.

Inductive TemporaryDisconnectReason :=
  | TimeoutReason (what : string)
  | ServerstopReason.

Inductive AudioEvent :=
  | CanSendAudio (b : bool)
  | CanReceiveAudio (b : bool).

(** * Errors and items *)
Section items.
Context {p256 : P256} {decls : Declarations} {versions : Versions}.

Record CommandErr := { cmd_error : TsServerError; missing_permission : option Z }.

(** The errors of sockets are dropped. *)
Inductive LibError :=
  | ErrCommand (e : CommandErr)
  | ErrConnect (e : ClientError)
  | ConnectFailed (address : ServerAddress) (errors : list LibError)
  | ConnectionFailed (e : ClientError)
  | ConnectionGone
  | ConnectTs (e : TsServerError)
  | FiletransferIo
  | IdentityLevel (needed : Z)
  | IdentityLevelCorrupted (needed have : Z)
  | IdentityLevelIncreaseFailedThread
  | InitserverParamsMissing
  | InitserverTimeout
  | InitserverWait (e : ClientError)
  | Io
  | NotConnected
  | ResolveAddress (e : ResolveError)
  | SendClientinit (e : ClientError)
  | SendPacket (e : ClientError)
  | ServerUidMismatch (uid : list Z).

(** [poll_next] of the client. *)
Inductive ClientPoll :=
  | ClientPending
  | ClientEnd
  | ClientFailed (e : ClientError)
  | ClientItem (i : Connection.StreamItem).

Class ClientApi := {
  client : Type;
  client_poll : client -> ClientPoll * client;
  client_send : client -> OutPacket -> res ClientError unit * client;
  client_state : client -> ResenderState;
  client_address : client -> SocketAddr;
  client_key : client -> option EccKeyPubP256;
  client_stats : client -> ConnectionStats;
  client_rtt : client -> Z;
  client_rtt_dev : client -> Z;
  TcpStream : Type;
}.

(** What a poll of the connection relies on: a client has finitely many items ready, and sending does
    not make more ready. *)
Class ClientApiLaws `{ClientApi} := {
  client_ready : client -> nat;
  client_poll_ready c i c' : client_poll c = (ClientItem i, c') -> (client_ready c' < client_ready c)%nat;
  client_poll_rest c : (client_ready (client_poll c).2 <= client_ready c)%nat;
  client_send_ready c p : (client_ready (client_send c p).2 <= client_ready c)%nat;
}.

Context {api : ClientApi}.

Inductive LibItem :=
  | BookEvents (l : list Event)
  | MessageEvent (m : InMessage)
  | AudioItem (data : list Z) (audio : AudioData)
  | IdentityLevelIncreasing (needed : Z)
  | IdentityLevelIncreased
  | DisconnectedTemporarily (reason : TemporaryDisconnectReason)
  | MessageResult (handle : Z) (r : option CommandErr)
  | FileDownloaded (handle size : Z) (stream : TcpStream)
  | FileUploaded (handle seek_position : Z) (stream : TcpStream)
  | FiletransferFailed (handle : Z) (e : LibError)
  | NetworkStatsUpdated
  | AudioChange (e : AudioEvent).

(** ** Messages to the server *)

(** The fields that are always empty are left out. *)
Record OutClientInitPart := {
  ci_name : list Z;
  ci_version : list Z;
  ci_platform : list Z;
  ci_input_muted : option bool;
  ci_output_muted : option bool;
  ci_input_hardware_enabled : bool;
  ci_output_hardware_enabled : bool;
  ci_is_away : option bool;
  ci_away_message : option (list Z);
  ci_default_channel : list Z;
  ci_default_channel_password : list Z;
  ci_password : list Z;
  ci_version_sign : list Z;
  ci_client_key_offset : Z;
  ci_hardware_id : list Z;
}.

Record OutInitDownloadPart := {
  dl_client_filetransfer_id : Z;
  dl_name : list Z;
  dl_channel_id : Z;
  dl_channel_password : list Z;
  dl_seek_position : Z;
  dl_protocol : Z;
}.

Record OutInitUploadPart := {
  ul_client_filetransfer_id : Z;
  ul_name : list Z;
  ul_channel_id : Z;
  ul_channel_password : list Z;
  ul_overwrite : bool;
  ul_resume : bool;
  ul_size : Z;
  ul_protocol : Z;
}.

(** Durations in nanoseconds; the rates of lost packets by numerator and denominator. *)
Record OutSetConnectionInfoPart := {
  si_ping : Z;
  si_ping_deviation : Z;
  si_packets_sent_speech : Z;
  si_packets_sent_keepalive : Z;
  si_packets_sent_control : Z;
  si_bytes_sent_speech : Z;
  si_bytes_sent_keepalive : Z;
  si_bytes_sent_control : Z;
  si_packets_received_speech : Z;
  si_packets_received_keepalive : Z;
  si_packets_received_control : Z;
  si_bytes_received_speech : Z;
  si_bytes_received_keepalive : Z;
  si_bytes_received_control : Z;
  si_packetloss_speech : option (Z * Z);
  si_packetloss_keepalive : option (Z * Z);
  si_packetloss_control : option (Z * Z);
  si_packetloss_total : option (Z * Z);
  si_sent_last_second_speech : Z;
  si_sent_last_second_keepalive : Z;
  si_sent_last_second_control : Z;
  si_sent_last_minute_speech : Z;
  si_sent_last_minute_keepalive : Z;
  si_sent_last_minute_control : Z;
  si_received_last_second_speech : Z;
  si_received_last_second_keepalive : Z;
  si_received_last_second_control : Z;
  si_received_last_minute_speech : Z;
  si_received_last_minute_keepalive : Z;
  si_received_last_minute_control : Z;
}.

Inductive LibMessage :=
  | BookMessage (m : OutMessage)
  | OutChannelsSubscribe (ids : list Z)
  | OutClientInit (part : OutClientInitPart)
  | OutInitDownload (part : OutInitDownloadPart)
  | OutInitUpload (part : OutInitUploadPart)
  | OutSetConnectionInfo (part : OutSetConnectionInfoPart).

(** The generated encoder and parser; the errors of the parser are only logged. *)
Class Messages := {
  encode_message : LibMessage -> OutPacket;
  parse_message : list Z -> option InMessage;
}.

(** * The state *)

(** A file transfer that opens its stream. *)
Record Transfer := {
  tr_id : Z;
  tr_ip : IpAddr;
  tr_port : Z;
  tr_key : list Z;
  tr_upload : bool;
  tr_size_or_position : Z;
}.

Record ConnectedConnection := {
  cc_client : client;
  cur_return_code : Z;
  cur_filetransfer_id : Z;
  subscribed : bool;
  filetransfers : list Transfer;
  connection_time : Z;
}.

(** The future of [connect]: with [is_reconnect] it sleeps first, so its first poll is not ready;
    polling it again when it is done panics. *)
Record ConnectFuture := {
  cf_options : ConnectOptions;
  cf_is_reconnect : bool;
  cf_polled : bool;
  cf_done : bool;
}.

Inductive ConnectionState :=
  | StConnecting (fut : ConnectFuture) (reconnect : bool)
  | StIdentityLevelIncreasing (identity : Identity) (needed : Z) (canceled : bool)
  | StConnected (con : ConnectedConnection) (book : Book).

Definition LibQueue : Type := list (res LibError LibItem).

Record TsConnection := {
  tc_state : ConnectionState;
  tc_options : ConnectOptions;
  tc_items : LibQueue;
}.

Definition set_state (c : TsConnection) (s : ConnectionState) : TsConnection :=
  {| tc_state := s; tc_options := tc_options c; tc_items := tc_items c |}.
Definition set_options (c : TsConnection) (o : ConnectOptions) : TsConnection :=
  {| tc_state := tc_state c; tc_options := o; tc_items := tc_items c |}.
Definition push_items (c : TsConnection) (l : LibQueue) : TsConnection :=
  {| tc_state := tc_state c; tc_options := tc_options c; tc_items := tc_items c ++ l |}.

Definition set_client (c : ConnectedConnection) (cl : client) : ConnectedConnection := {|
  cc_client := cl; cur_return_code := cur_return_code c; cur_filetransfer_id := cur_filetransfer_id c;
  subscribed := subscribed c; filetransfers := filetransfers c; connection_time := connection_time c |}.
Definition set_lib_subscribed (c : ConnectedConnection) (s : bool) : ConnectedConnection := {|
  cc_client := cc_client c; cur_return_code := cur_return_code c; cur_filetransfer_id := cur_filetransfer_id c;
  subscribed := s; filetransfers := filetransfers c; connection_time := connection_time c |}.
Definition set_codes (c : ConnectedConnection) (code ft : Z) : ConnectedConnection := {|
  cc_client := cc_client c; cur_return_code := code; cur_filetransfer_id := ft;
  subscribed := subscribed c; filetransfers := filetransfers c; connection_time := connection_time c |}.
Definition set_transfers (c : ConnectedConnection) (l : list Transfer) : ConnectedConnection := {|
  cc_client := cc_client c; cur_return_code := cur_return_code c; cur_filetransfer_id := cur_filetransfer_id c;
  subscribed := subscribed c; filetransfers := l; connection_time := connection_time c |}.

(** An operation of packets or keys that fails only by panicking. *)
Definition lib_op {E A} (m : res E A) : res LibError A := match m with Ok a => Ok a | _ => Panic end.

(** * Audio *)

Definition intern_can_send_audio (book : Book) (options : ConnectOptions) : bool :=
  match clients book !! own_client book with
  | Some own_client =>
      let m := cl_mutes own_client in
      if input_muted m || negb (input_hardware_enabled m) || is_some (cl_away_message own_client)
         || output_muted m || negb (output_hardware_enabled m)
      then false
      else match channels book !! cl_channel own_client with
           | Some own_channel =>
               match ch_needed_talk_power own_channel with
               | Some needed_talk_power =>
                   cl_talk_power_granted own_client || (needed_talk_power <=? cl_talk_power own_client)
               | None => true
               end
           | None => true
           end
  | None =>
      negb (opt_input_muted options) && opt_input_hardware_enabled options && negb (is_some (opt_away options))
      && negb (opt_output_muted options) && opt_output_hardware_enabled options
  end.

Definition intern_can_receive_audio (book : Book) (options : ConnectOptions) : bool :=
  match clients book !! own_client book with
  | Some own_client =>
      let m := cl_mutes own_client in
      negb (output_muted m) && negb (output_only_muted m) && output_hardware_enabled m
  | None => negb (opt_output_muted options) && opt_output_hardware_enabled options
  end.

Definition intern_can_receive_unencrypted_audio (book : Book) (whisper : bool) : bool :=
  match codec_encryption_mode (sv_attrs (Book.server book)) with
  | EncryptForcedOn => false
  | EncryptForcedOff => true
  | EncryptPerChannel =>
      if whisper then true
      else match clients book !! own_client book with
           | Some own_client =>
               match channels book !! cl_channel own_client with
               | Some own_channel => default true (ch_is_unencrypted own_channel)
               | None => true
               end
           | None => true
           end
  end.

Definition can_send_audio (c : TsConnection) : bool :=
  match tc_state c with StConnected _ book => intern_can_send_audio book (tc_options c) | _ => false end.

Definition can_receive_audio (c : TsConnection) : bool :=
  match tc_state c with StConnected _ book => intern_can_receive_audio book (tc_options c) | _ => false end.

(** The events for what changed between two states. *)
Definition audio_changes (prev_send prev_receive new_send new_receive : bool) : LibQueue :=
  (if negb (Bool.eqb new_send prev_send) then [Ok (AudioChange (CanSendAudio new_send))] else []) ++
  (if negb (Bool.eqb new_receive prev_receive) then [Ok (AudioChange (CanReceiveAudio new_receive))] else []).
End items.

(** * Connecting *)
Section connecting.
Context {prof : Profile} {b64 : Base64Enc} {sha : Sha1} {asn : Asn1} {bigio : BigIntIo} {p256 : P256} {decls : Declarations} {versions : Versions} {api : ClientApi} {msgs : Messages}.

(** What [connect_to] waits for: binding the socket, the handshake, and the commands that arrive
    before the timeout for initserver, each with the client at that time. *)
Record ConnectNet := {
  cn_bind : SocketAddr -> bool;
  cn_connect : SocketAddr -> SocketAddr -> EccKeyPrivP256 -> res ClientError client;
  cn_commands : client -> list (res ClientError (list Z * client));
}.

Definition default_local (addr : SocketAddr) : SocketAddr :=
  if bool_decide (length (sa_ip addr) = 4%nat) then {| sa_ip := [0; 0; 0; 0]; sa_port := 0 |}
  else {| sa_ip := replicate 16 0; sa_port := 0 |}.

(** The loop ends with the list: then the timeout is over. *)
Fixpoint wait_initserver (cmds : list (res ClientError (list Z * client))) : res LibError (client * Book) :=
  match cmds with
  | [] => Err InitserverTimeout
  | Panic :: _ => Panic
  | Err e :: _ => Err (InitserverWait e)
  | Ok (cmd, cl) :: cmds =>
      match parse_message cmd with
      | Some (CommandError parts) =>
          match head parts with
          | None => Panic
          | Some e =>
              if bool_decide (ce_id e = ClientCouldNotValidateIdentity) then
                match ce_extra_message e ≫= parse_uint 8 with
                | Some needed => Err (IdentityLevel needed)
                | None => Err (ConnectTs (ce_id e))
                end
              else Err (ConnectTs (ce_id e))
          end
      | Some (InitServer initserver) =>
          match client_key cl with
          | None => Err InitserverParamsMissing
          | Some public_key => let? data := lib_op (Book_new public_key initserver) in Ok (cl, data)
          end
      | _ => wait_initserver cmds
      end
  end.

Definition opt_true (b : bool) : option bool := if b then Some true else None.
Definition hashed (p : option (list Z)) : list Z := default [] (encode_password <$> p).

Definition client_init (options : ConnectOptions) (counter : Z) : OutClientInitPart := {|
  ci_name := opt_name options;
  ci_version := get_version_string (opt_version options);
  ci_platform := get_platform (opt_version options);
  ci_input_muted := opt_true (opt_input_muted options);
  ci_output_muted := opt_true (opt_output_muted options);
  ci_input_hardware_enabled := opt_input_hardware_enabled options;
  ci_output_hardware_enabled := opt_output_hardware_enabled options;
  ci_is_away := opt_true (is_some (opt_away options));
  ci_away_message := opt_away options;
  ci_default_channel := default [] (opt_channel options);
  ci_default_channel_password := hashed (opt_channel_password options);
  ci_password := hashed (opt_password options);
  ci_version_sign := base64_encode (get_signature (opt_version options));
  ci_client_key_offset := counter;
  ci_hardware_id := opt_hardware_id options |}.

Definition check_server (options : ConnectOptions) (cl : client) : res LibError unit :=
  match opt_server_uid options with
  | None => Ok tt
  | Some server_uid =>
      match client_key cl with
      | None => Err InitserverParamsMissing
      | Some k =>
          let? real_uid := lib_op (get_uid_no_base64 k) in
          if bool_decide (real_uid = server_uid) then Ok tt else Err (ServerUidMismatch real_uid)
      end
  end.

Definition connect_to (net : ConnectNet) (options : ConnectOptions) (addr : SocketAddr)
    : res LibError (client * Book) :=
  let? identity := unwrap (opt_identity options) in
  let counter := counter identity in
  let local := default (default_local addr) (opt_local_address options) in
  if negb (cn_bind net local) then Err Io else
  let? cl := map_err ErrConnect (cn_connect net addr local (id_key identity)) in
  let? _ := check_server options cl in
  match client_send cl (encode_message (OutClientInit (client_init options counter))) with
  | (Ok _, cl) => wait_initserver (cn_commands net cl)
  | (Err e, _) => Err (SendClientinit e)
  | (Panic, _) => Panic
  end.

(** The loop over the resolved addresses; [None] when it waits for the resolver forever. *)
Fixpoint connect_loop (net : ConnectNet) (options : ConnectOptions) (resolved : stream) (errors : list LibError)
    : option (res LibError (client * Book)) :=
  match resolved with
  | [] => Some (Err (ConnectFailed (opt_address options) errors))
  | Hung :: _ => None
  | Answer Panic :: _ => Some Panic
  | Answer (Err e) :: _ => Some (Err (ResolveAddress e))
  | Answer (Ok addr) :: resolved =>
      match connect_to net options addr with
      | Err (IdentityLevel needed) => Some (Err (IdentityLevel needed))
      | Err (ConnectTs e) => Some (Err (ConnectTs e))
      | Err error => connect_loop net options resolved (errors ++ [error])
      | r => Some r
      end
  end.

(** [Connection::connect] without the sleep; [None] when it waits for the resolver forever. *)
Definition connect `{Network} `{Rng} (net : ConnectNet) (r1 r2 : rng) (options : ConnectOptions)
    : option (res LibError (client * Book)) :=
  match opt_address options with
  | SocketAddress a => connect_loop net options [Answer (Ok a)] []
  | OtherAddress s =>
      resolved ← resolve s r1 r2;
      connect_loop net options resolved []
  end.

Definition connect_future (options : ConnectOptions) (is_reconnect : bool) : ConnectFuture :=
  {| cf_options := options; cf_is_reconnect := is_reconnect; cf_polled := false; cf_done := false |}.

(** [ConnectOptions::connect]; [create] is a new identity. *)
Definition options_connect (create : Identity) (options : ConnectOptions) : TsConnection :=
  match opt_identity options with
  | Some _ =>
      {| tc_state := StConnecting (connect_future options false) false; tc_options := options; tc_items := [] |}
  | None =>
      let options := opt_set_identity (Some create) options in
      {| tc_state := StConnecting (connect_future options false) false; tc_options := options;
         tc_items := [Ok IdentityLevelIncreased] |}
  end.

Definition increase_identity_level (c : TsConnection) (needed : Z) : res LibError TsConnection :=
  if 20 <? needed then Err (IdentityLevel needed)
  else
    let? identity := unwrap (opt_identity (tc_options c)) in
    let? level := lib_op (Identity_level identity) in
    if needed <=? level then Err (IdentityLevelCorrupted needed level)
    else Ok (set_state c (StIdentityLevelIncreasing identity needed false)).

Definition cancel_identity_level_increase (c : TsConnection) : TsConnection :=
  match tc_state c with
  | StIdentityLevelIncreasing identity needed _ => set_state c (StIdentityLevelIncreasing identity needed true)
  | _ => c
  end.
End connecting.

(** * Outgoing commands *)
Section outgoing.
Context {prof : Profile} {b64 : Base64Enc} {sha : Sha1} {p256 : P256} {decls : Declarations} {versions : Versions} {api : ClientApi} {msgs : Messages}.

Definition set_input_muted (b : bool) (m : Mutes) : Mutes := {|
  input_muted := b; output_muted := output_muted m; input_hardware_enabled := input_hardware_enabled m;
  output_hardware_enabled := output_hardware_enabled m; output_only_muted := output_only_muted m |}.
Definition set_output_muted (b : bool) (m : Mutes) : Mutes := {|
  input_muted := input_muted m; output_muted := b; input_hardware_enabled := input_hardware_enabled m;
  output_hardware_enabled := output_hardware_enabled m; output_only_muted := output_only_muted m |}.
Definition set_input_hardware_enabled (b : bool) (m : Mutes) : Mutes := {|
  input_muted := input_muted m; output_muted := output_muted m; input_hardware_enabled := b;
  output_hardware_enabled := output_hardware_enabled m; output_only_muted := output_only_muted m |}.
Definition set_output_hardware_enabled (b : bool) (m : Mutes) : Mutes := {|
  input_muted := input_muted m; output_muted := output_muted m; input_hardware_enabled := input_hardware_enabled m;
  output_hardware_enabled := b; output_only_muted := output_only_muted m |}.
Definition set_output_only_muted (b : bool) (m : Mutes) : Mutes := {|
  input_muted := input_muted m; output_muted := output_muted m; input_hardware_enabled := input_hardware_enabled m;
  output_hardware_enabled := output_hardware_enabled m; output_only_muted := b |}.

(** The variables of the loop over the arguments of clientupdate. *)
Record UpdateState := {
  us_options : ConnectOptions;
  us_own_client : option Client;
  us_has_away_message : bool;
  us_has_is_away : bool;
  us_events : list Event;
}.

(** The macro [set_prop!]. *)
Definition set_prop (get : Mutes -> bool) (set : bool -> Mutes -> Mutes)
    (set_opt : bool -> ConnectOptions -> ConnectOptions) (prop : Z -> PropertyId) (v : bool) (u : UpdateState)
    : UpdateState :=
  let options := set_opt v (us_options u) in
  match us_own_client u with
  | Some own_client =>
      let old := get (cl_mutes own_client) in
      if Bool.eqb old v then
        {| us_options := options; us_own_client := Some own_client; us_has_away_message := us_has_away_message u;
           us_has_is_away := us_has_is_away u; us_events := us_events u |}
      else
        {| us_options := options; us_own_client := Some (with_mutes own_client (set v (cl_mutes own_client)));
           us_has_away_message := us_has_away_message u; us_has_is_away := us_has_is_away u;
           us_events := us_events u ++ [PropertyChanged (prop (cl_id own_client)) (ValBool old) None None] |}
  | None =>
      {| us_options := options; us_own_client := None; us_has_away_message := us_has_away_message u;
         us_has_is_away := us_has_is_away u; us_events := us_events u |}
  end.

Definition set_us_away (u : UpdateState) (away : option (list Z)) (has_away_message has_is_away : bool) : UpdateState :=
  {| us_options := opt_set_away away (us_options u); us_own_client := us_own_client u;
     us_has_away_message := has_away_message; us_has_is_away := has_is_away; us_events := us_events u |}.

(** After every argument the away message of the client follows the options. *)
Definition sync_away (u : UpdateState) : UpdateState :=
  match us_own_client u with
  | Some own_client =>
      if bool_decide (cl_away_message own_client = opt_away (us_options u)) then u
      else {| us_options := us_options u; us_own_client := Some (with_away own_client (opt_away (us_options u)));
              us_has_away_message := us_has_away_message u; us_has_is_away := us_has_is_away u;
              us_events := us_events u ++ [PropertyChanged (PropClientAwayMessage (cl_id own_client))
                                             (ValOptionString (cl_away_message own_client)) None None] |}
  | None => u
  end.

Definition update_argument (arg : CommandArgument) (u : UpdateState) : res LibError UpdateState :=
  let v := bool_decide (cv_raw (ca_value arg) = byte_str "1") in
  let? u :=
    if arg_is arg "client_input_muted"
    then Ok (set_prop input_muted set_input_muted opt_set_input_muted PropClientInputMuted v u)
    else if arg_is arg "client_output_muted"
    then Ok (set_prop output_muted set_output_muted opt_set_output_muted PropClientOutputMuted v u)
    else if arg_is arg "client_away" then
      let away := if v then (if us_has_away_message u then opt_away (us_options u) else Some []) else None in
      Ok (set_us_away u away (us_has_away_message u) true)
    else if arg_is arg "client_away_message" then
      if us_has_is_away u && is_some (opt_away (us_options u)) then
        match CommandArgumentValue_get_str (ca_value arg) with
        | Ok r => Ok (set_us_away u (Some r) true (us_has_is_away u))
        | Err _ => Ok (set_us_away u (opt_away (us_options u)) true (us_has_is_away u))
        | Panic => Panic
        end
      else Ok u
    else if arg_is arg "client_input_hardware"
    then Ok (set_prop input_hardware_enabled set_input_hardware_enabled opt_set_input_hardware_enabled
               PropClientInputHardwareEnabled v u)
    else if arg_is arg "client_output_hardware"
    then Ok (set_prop output_hardware_enabled set_output_hardware_enabled opt_set_output_hardware_enabled
               PropClientOutputHardwareEnabled v u)
    else Ok u in
  Ok (sync_away u).

Fixpoint update_arguments (items : list CommandItem) (u : UpdateState) : res LibError UpdateState :=
  match items with
  | [] => Ok u
  | NextCommand :: items => update_arguments items u
  | Argument arg :: items => let? u := update_argument arg u in update_arguments items u
  end.

Definition set_own_client (book : Book) (c : option Client) : Book :=
  match c with
  | Some c => set_clients <[own_client book := c]> book
  | None => book
  end.

(** The name and the arguments of a command that is sent. *)
Definition parse_outgoing (cmd : OutPacket) : res LibError (list Z * list CommandItem) :=
  let? content := lib_op (OutPacket_content cmd) in
  let? '(name, p) := lib_op (CommandParser_new content) in
  match CommandParser_collect (S (length content)) p with
  | Some items => let? items := lib_op items in Ok (name, items)
  | None => Panic
  end.

Definition update_on_outgoing_command (c : TsConnection) (cmd : OutPacket) : res LibError TsConnection :=
  match tc_state c with
  | StConnected con book =>
      let? '(cmd_name, items) := parse_outgoing cmd in
      if bool_decide (cmd_name = byte_str "channelsubscribeall")
      then Ok (set_state c (StConnected (set_lib_subscribed con true) book))
      else if bool_decide (cmd_name = byte_str "channelunsubscribeall")
      then Ok (set_state c (StConnected (set_lib_subscribed con false) book))
      else if bool_decide (cmd_name = byte_str "clientupdate") then
        let prev_can_send := intern_can_send_audio book (tc_options c) in
        let prev_can_receive := intern_can_receive_audio book (tc_options c) in
        let? u := update_arguments items {| us_options := tc_options c; us_own_client := clients book !! own_client book;
          us_has_away_message := false; us_has_is_away := false; us_events := [] |} in
        let book := set_own_client book (us_own_client u) in
        let c := set_options (set_state c (StConnected con book)) (us_options u) in
        let c := match us_events u with [] => c | events => push_items c [Ok (BookEvents events)] end in
        Ok (push_items c (audio_changes prev_can_send prev_can_receive
              (intern_can_send_audio book (us_options u)) (intern_can_receive_audio book (us_options u))))
      else Ok c
  | _ => Ok c
  end.

(** [ConnectedConnection::send_command] and [send_command_with_result] *)
Definition cc_send_command (con : ConnectedConnection) (packet : OutPacket) : res LibError unit * ConnectedConnection :=
  let '(r, cl) := client_send (cc_client con) packet in
  (map_err SendPacket r, set_client con cl).

Definition cc_send_command_with_result (con : ConnectedConnection) (packet : OutPacket)
    : res LibError Z * ConnectedConnection :=
  let code := cur_return_code con in
  match arith (E := LibError) 16 (code + 1) with
  | Ok next =>
      let con := set_codes con next (cur_filetransfer_id con) in
      match lib_op (OutCommand_write_arg packet (byte_str "return_code") [to_dec code]) with
      | Ok packet =>
          let '(r, con) := cc_send_command con packet in
          ((let? _ := r in Ok code), con)
      | _ => (Panic, con)
      end
  | _ => (Panic, con)
  end.

(** A request for a file transfer takes the next id. *)
Definition cc_transfer (con : ConnectedConnection) (message : Z -> LibMessage)
    : res LibError Z * ConnectedConnection :=
  let ft_id := cur_filetransfer_id con in
  match arith (E := LibError) 16 (ft_id + 1) with
  | Ok next =>
      let con := set_codes con (cur_return_code con) next in
      let '(r, con) := cc_send_command_with_result con (encode_message (message ft_id)) in
      ((let? _ := r in Ok ft_id), con)
  | _ => (Panic, con)
  end.

Definition cc_download_file (con : ConnectedConnection) (channel_id : Z) (path : list Z)
    (channel_password : option (list Z)) (seek_position : option Z) : res LibError Z * ConnectedConnection :=
  cc_transfer con (fun ft_id => OutInitDownload {|
    dl_client_filetransfer_id := ft_id; dl_name := path; dl_channel_id := channel_id;
    dl_channel_password := hashed channel_password; dl_seek_position := default 0 seek_position;
    dl_protocol := 1 |}).

Definition cc_upload_file (con : ConnectedConnection) (channel_id : Z) (path : list Z)
    (channel_password : option (list Z)) (size : Z) (overwrite resume : bool) : res LibError Z * ConnectedConnection :=
  cc_transfer con (fun ft_id => OutInitUpload {|
    ul_client_filetransfer_id := ft_id; ul_name := path; ul_channel_id := channel_id;
    ul_channel_password := hashed channel_password; ul_overwrite := overwrite; ul_resume := resume;
    ul_size := size; ul_protocol := 1 |}).

(** An operation of the connected state; in the others it fails. *)
Definition when_connected {A} (c : TsConnection)
    (f : ConnectedConnection -> res LibError A * ConnectedConnection) : res LibError A * TsConnection :=
  match tc_state c with
  | StConnected con book => let '(r, con) := f con in (r, set_state c (StConnected con book))
  | _ => (Err NotConnected, c)
  end.

Definition send_command (c : TsConnection) (packet : OutPacket) : res LibError unit * TsConnection :=
  match update_on_outgoing_command c packet with
  | Ok c => when_connected c (fun con => cc_send_command con packet)
  | _ => (Panic, c)
  end.

Definition send_command_with_result (c : TsConnection) (packet : OutPacket) : res LibError Z * TsConnection :=
  match update_on_outgoing_command c packet with
  | Ok c => when_connected c (fun con => cc_send_command_with_result con packet)
  | _ => (Panic, c)
  end.

Definition download_file (c : TsConnection) (channel_id : Z) (path : list Z)
    (channel_password : option (list Z)) (seek_position : option Z) : res LibError Z * TsConnection :=
  when_connected c (fun con => cc_download_file con channel_id path channel_password seek_position).

Definition upload_file (c : TsConnection) (channel_id : Z) (path : list Z) (channel_password : option (list Z))
    (size : Z) (overwrite resume : bool) : res LibError Z * TsConnection :=
  when_connected c (fun con => cc_upload_file con channel_id path channel_password size overwrite resume).

(** Disconnecting is fine when there is no connection. *)
Definition lib_disconnect (c : TsConnection) (options : DisconnectOptions) : res LibError unit * TsConnection :=
  match tc_state c with
  | StConnected con book => when_connected c (fun con =>
      cc_send_command con (encode_message (BookMessage (disconnect options))))
  | _ => (Ok tt, c)
  end.

Definition send_audio (c : TsConnection) (packet : OutPacket) : res LibError unit * TsConnection :=
  match lib_op (let? h := OutPacket_header packet in InHeader_packet_type h) with
  | Ok t =>
      if PacketType_is_voice t then when_connected c (fun con => cc_send_command con packet) else (Panic, c)
  | _ => (Panic, c)
  end.

Definition get_state (c : TsConnection) : res LibError Book :=
  match tc_state c with StConnected _ book => Ok book | _ => Err NotConnected end.
End outgoing.

(** * Incoming commands *)
Section incoming.
Context {prof : Profile} {p256 : P256} {decls : Declarations} {versions : Versions} {api : ClientApi} {msgs : Messages} {gen : Generated}.

(** Results of commands; [handled] is lost at a part without a return code. *)
Fixpoint command_results (parts : list InCommandErrorPart) (handled : bool) : LibQueue * bool :=
  match parts with
  | [] => ([], handled)
  | msg :: parts =>
      match ce_return_code msg ≫= parse_uint 16 with
      | Some ret_code =>
          let r := if bool_decide (ce_id msg = TsServerError_Ok) then None
            else Some {| cmd_error := ce_id msg; missing_permission := ce_missing_permission_id msg |} in
          let '(l, handled) := command_results parts handled in
          (Ok (MessageResult ret_code r) :: l, handled)
      | None => command_results parts false
      end
  end.

Definition transfer_of (con : ConnectedConnection) (upload : bool) (msg : InFiletransferPart) : Transfer := {|
  tr_id := ft_client_filetransfer_id msg;
  tr_ip := default (ip_of_bytes (sa_ip (client_address (cc_client con)))) (ft_ip msg);
  tr_port := ft_port msg;
  tr_key := ft_filetransfer_key msg;
  tr_upload := upload;
  tr_size_or_position := ft_size_or_position msg |}.

Definition add_transfers (con : ConnectedConnection) (upload : bool) (parts : list InFiletransferPart)
    : ConnectedConnection :=
  set_transfers con (filetransfers con ++ map (transfer_of con upload) parts).

Definition status_item (msg : InFiletransferStatusPart) : res LibError LibItem :=
  Ok (FiletransferFailed (fs_client_filetransfer_id msg)
        (ErrCommand {| cmd_error := fs_status msg; missing_permission := None |})).

(** The own connection time is not sent by the server. *)
Fixpoint own_connection_info (parts : list InClientConnectionInfoPart) (since : Z) (book : Book) : Book :=
  match parts with
  | [] => book
  | msg :: parts =>
      let book :=
        if (cci_client_id msg =? own_client book) && negb (is_some (cci_connected_time msg)) then
          match clients book !! own_client book with
          | Some c =>
              match cl_connection_data c with
              | Some d =>
                  set_clients <[own_client book :=
                    with_client_data c (Some (with_connected_time d since)) (cl_optional_data c)]> book
              | None => book
              end
          | None => book
          end
        else book in
      own_connection_info parts since book
  end.

(** The closure of [retain]: mute changes of the own client that come from the server are taken
    back and dropped.  Returns whether the event stays. *)
Definition reset_own (own_id : Z) (e : Event) (own_client : Client) : bool * Client :=
  match e with
  | PropertyChanged id old _ _ =>
      let reset (set : bool -> Mutes -> Mutes) : bool * Client :=
        (false, match old with ValBool b => with_mutes own_client (set b (cl_mutes own_client)) | _ => own_client end) in
      match id with
      | PropClientInputMuted i => if i =? own_id then reset set_input_muted else (true, own_client)
      | PropClientOutputMuted i => if i =? own_id then reset set_output_muted else (true, own_client)
      | PropClientInputHardwareEnabled i =>
          if i =? own_id then reset set_input_hardware_enabled else (true, own_client)
      | PropClientOutputHardwareEnabled i =>
          if i =? own_id then reset set_output_hardware_enabled else (true, own_client)
      | PropClientOutputOnlyMuted i => if i =? own_id then reset set_output_only_muted else (true, own_client)
      | PropClientAwayMessage i =>
          if i =? own_id
          then (false, match old with ValOptionString s => with_away own_client s | _ => own_client end)
          else (true, own_client)
      | _ => (true, own_client)
      end
  | _ => (true, own_client)
  end.

Fixpoint retain_events (own_id : Z) (events : list Event) (own_client : Client) : list Event * Client :=
  match events with
  | [] => ([], own_client)
  | e :: events =>
      let '(keep, own_client) := reset_own own_id e own_client in
      let '(l, own_client) := retain_events own_id events own_client in
      ((if keep then e :: l else l), own_client)
  end.

(** A message for the book. *)
Definition handle_book_message (book : Book) (msg : InMessage) (since : Z) : res LibError (LibQueue * bool * Book) :=
  let? '(events, book_handled, book) :=
    match book_handle_command msg book with
    | (Ok (events, handled), book) => Ok (events, handled, book)
    | (Err _, book) => Ok ([], false, book)
    | (Panic, _) => Panic
    end in
  let book := match msg with ClientConnectionInfo parts => own_connection_info parts since book | _ => book end in
  match events with
  | [] => Ok ([], book_handled, book)
  | _ =>
      match clients book !! own_client book with
      | Some c =>
          let '(events, c) := retain_events (own_client book) events c in
          Ok ([Ok (BookEvents events)], book_handled, set_own_client book (Some c))
      | None => Ok ([Ok (BookEvents events)], book_handled, book)
      end
  end.

(** A send whose error is dropped. *)
Definition send_ignored (con : ConnectedConnection) (m : LibMessage) : res LibError ConnectedConnection :=
  match client_send (cc_client con) (encode_message m) with
  | (Panic, _) => Panic
  | (_, cl) => Ok (set_client con cl)
  end.

Definition is_serverstop (own : Z) (msg : InClientLeftViewPart) : bool :=
  (clv_client_id msg =? own) &&
  bool_decide (clv_reason msg = Some Serverstop \/ clv_reason msg = Some ClientdisconnectServerShutdown).

Definition moved_channel (own : Z) (parts : list InClientMovedPart) (options : ConnectOptions) : ConnectOptions :=
  match list_find (fun m => cm_client_id m = own /\ cm_target_channel_id m <> 0) parts with
  | Some (_, m) => opt_set_channel (Some (byte_str "/" ++ to_dec (cm_target_channel_id m))) options
  | None => options
  end.

Fixpoint updated_name (own : Z) (parts : list InClientUpdatedPart) (options : ConnectOptions) : ConnectOptions :=
  match parts with
  | [] => options
  | m :: parts =>
      updated_name own parts
        (if cu_client_id m =? own then match cu_name m with Some n => opt_set_name n options | None => options end
         else options)
  end.

(** The answer of [handle_command]: what it changed, and a reason to reconnect. *)
Record Handled := {
  hd_con : ConnectedConnection;
  hd_book : Book;
  hd_items : LibQueue;
  hd_options : ConnectOptions;
  hd_reason : option TemporaryDisconnectReason;
}.

(** A duration of whole seconds that fit 63 bits, or a second. *)
Definition message_duration (d : Z) : Z := if d / 10 ^ 9 <=? 2 ^ 63 - 1 then d else 10 ^ 9.

Definition stat_at (l : list Z) (s : PacketStat) : res LibError Z := lib_op (E := PacketError) (index l (PacketStat_index s)).

(** The statistics for the server. *)
Definition connection_info (cl : client) : res LibError OutSetConnectionInfoPart :=
  let stats := client_stats cl in
  let? second := lib_op (get_last_second_bytes stats) in
  let? minute := lib_op (get_last_minute_bytes stats) in
  let? packets_sent_speech := stat_at (total_packets stats) OutSpeech in
  let? packets_sent_keepalive := stat_at (total_packets stats) OutKeepalive in
  let? packets_sent_control := stat_at (total_packets stats) OutControl in
  let? bytes_sent_speech := stat_at (total_bytes stats) OutSpeech in
  let? bytes_sent_keepalive := stat_at (total_bytes stats) OutKeepalive in
  let? bytes_sent_control := stat_at (total_bytes stats) OutControl in
  let? packets_received_speech := stat_at (total_packets stats) InSpeech in
  let? packets_received_keepalive := stat_at (total_packets stats) InKeepalive in
  let? packets_received_control := stat_at (total_packets stats) InControl in
  let? bytes_received_speech := stat_at (total_bytes stats) InSpeech in
  let? bytes_received_keepalive := stat_at (total_bytes stats) InKeepalive in
  let? bytes_received_control := stat_at (total_bytes stats) InControl in
  let? loss_speech := lib_op (get_packetloss_s2c_speech stats) in
  let? loss_keepalive := lib_op (get_packetloss_s2c_keepalive stats) in
  let? loss_control := lib_op (get_packetloss_s2c_control stats) in
  let? loss_total := lib_op (get_packetloss_s2c_total stats) in
  let? second_out_speech := stat_at second OutSpeech in
  let? second_out_keepalive := stat_at second OutKeepalive in
  let? second_out_control := stat_at second OutControl in
  let? minute_out_speech := stat_at minute OutSpeech in
  let? minute_out_keepalive := stat_at minute OutKeepalive in
  let? minute_out_control := stat_at minute OutControl in
  let? second_in_speech := stat_at second InSpeech in
  let? second_in_keepalive := stat_at second InKeepalive in
  let? second_in_control := stat_at second InControl in
  let? minute_in_speech := stat_at minute InSpeech in
  let? minute_in_keepalive := stat_at minute InKeepalive in
  let? minute_in_control := stat_at minute InControl in
  Ok {|
    si_ping := message_duration (client_rtt cl);
    si_ping_deviation := message_duration (client_rtt_dev cl);
    si_packets_sent_speech := packets_sent_speech;
    si_packets_sent_keepalive := packets_sent_keepalive;
    si_packets_sent_control := packets_sent_control;
    si_bytes_sent_speech := bytes_sent_speech;
    si_bytes_sent_keepalive := bytes_sent_keepalive;
    si_bytes_sent_control := bytes_sent_control;
    si_packets_received_speech := packets_received_speech;
    si_packets_received_keepalive := packets_received_keepalive;
    si_packets_received_control := packets_received_control;
    si_bytes_received_speech := bytes_received_speech;
    si_bytes_received_keepalive := bytes_received_keepalive;
    si_bytes_received_control := bytes_received_control;
    si_packetloss_speech := loss_speech;
    si_packetloss_keepalive := loss_keepalive;
    si_packetloss_control := loss_control;
    si_packetloss_total := loss_total;
    si_sent_last_second_speech := second_out_speech;
    si_sent_last_second_keepalive := second_out_keepalive;
    si_sent_last_second_control := second_out_control;
    si_sent_last_minute_speech := minute_out_speech / 60;
    si_sent_last_minute_keepalive := minute_out_keepalive / 60;
    si_sent_last_minute_control := minute_out_control / 60;
    si_received_last_second_speech := second_in_speech;
    si_received_last_second_keepalive := second_in_keepalive;
    si_received_last_second_control := second_in_control;
    si_received_last_minute_speech := minute_in_speech / 60;
    si_received_last_minute_keepalive := minute_in_keepalive / 60;
    si_received_last_minute_control := minute_in_control / 60 |}.

(** The first half: what depends on the kind of message. *)
Definition handle_kind (con : ConnectedConnection) (book : Book) (msg : InMessage) (now : Z)
    : res LibError (LibQueue * bool * ConnectedConnection * Book) :=
  match msg with
  | CommandError parts => let '(l, handled) := command_results parts true in Ok (l, handled, con, book)
  | FileDownload parts => Ok ([], true, add_transfers con false parts, book)
  | FileUpload parts => Ok ([], true, add_transfers con true parts, book)
  | FiletransferStatus parts => Ok (map status_item parts, true, con, book)
  | ClientConnectionInfoUpdateRequest =>
      let? part := connection_info (cc_client con) in
      match client_send (cc_client con) (encode_message (OutSetConnectionInfo part)) with
      | (Ok _, cl) => Ok ([], true, set_client con cl, book)
      | (Err e, cl) => Ok ([Err (SendPacket e)], true, set_client con cl, book)
      | (Panic, _) => Panic
      end
  | _ =>
      let? '(l, handled, book) := handle_book_message book msg (now - connection_time con) in
      Ok (l, handled, con, book)
  end.

Definition cc_handle_command (con : ConnectedConnection) (book : Book) (items : LibQueue)
    (options : ConnectOptions) (data : list Z) (now : Z) : res LibError Handled :=
  match parse_message data with
  | None => Ok {| hd_con := con; hd_book := book; hd_items := items; hd_options := options; hd_reason := None |}
  | Some msg =>
      let? '(l, handled, con, book) := handle_kind con book msg now in
      let? con :=
        match msg with
        | ChannelCreated parts =>
            if subscribed con then send_ignored con (OutChannelsSubscribe (map icc_channel_id parts)) else Ok con
        | _ => Ok con
        end in
      let options :=
        match msg with
        | ClientMoved parts => moved_channel (own_client book) parts options
        | ClientUpdated parts => updated_name (own_client book) parts options
        | _ => options
        end in
      let stop :=
        match msg with ClientLeftView parts => existsb (is_serverstop (own_client book)) parts | _ => false end in
      if stop then
        Ok {| hd_con := con; hd_book := book; hd_items := items ++ l; hd_options := options;
              hd_reason := Some ServerstopReason |}
      else
        Ok {| hd_con := con; hd_book := book;
              hd_items := items ++ l ++ (if handled then [] else [Ok (MessageEvent msg)]);
              hd_options := options; hd_reason := None |}
  end.
End incoming.

(** * Polling *)
Section polling.
Context {prof : Profile} {b64 : Base64Enc} {sha : Sha1} {asn : Asn1} {bigio : BigIntIo} {p256 : P256} {decls : Declarations} {versions : Versions} {api : ClientApi}.
Context {msgs : Messages} {gen : Generated}.

(** What is ready at a poll: the answers of [connect], of the thread that improves an identity
    ([Some None]: it died) and of the connection of a file transfer, and the time. *)
Record PollEnv := {
  pe_connect : ConnectOptions -> option (res LibError (client * Book));
  pe_identity : Identity -> Z -> option (option Identity);
  pe_transfer : Transfer -> option (option TcpStream);
  pe_now : Z;
}.

Inductive LibPoll :=
  | LibPending
  | LibEnd
  | LibReady (item : res LibError LibItem).

Definition poll_connect (env : PollEnv) (f : ConnectFuture)
    : res LibError (option (res LibError (client * Book)) * ConnectFuture) :=
  if cf_done f then Panic
  else if cf_is_reconnect f && negb (cf_polled f) then
    Ok (None, {| cf_options := cf_options f; cf_is_reconnect := true; cf_polled := true; cf_done := false |})
  else
    let r := pe_connect env (cf_options f) in
    Ok (r, {| cf_options := cf_options f; cf_is_reconnect := cf_is_reconnect f; cf_polled := true;
              cf_done := is_some r |}).

(** An error of [connect] after which another attempt is made. *)
Definition timed_out (e : LibError) : bool :=
  match e with
  | ConnectFailed _ errors =>
      existsb (fun e => match e with ErrConnect (TsProto (Timeout _)) => true | _ => false end) errors
  | _ => false
  end.

(** A new attempt sleeps first: it is pending. *)
Definition reconnecting (c : TsConnection) : TsConnection :=
  set_state c (StConnecting (connect_future (tc_options c) true) true).

Definition poll_connecting (env : PollEnv) (c : TsConnection) (f : ConnectFuture) (reconnect : bool)
    : res LibError (LibPoll * TsConnection) :=
  let? '(r, f) := poll_connect env f in
  let c := set_state c (StConnecting f reconnect) in
  match r with
  | None => Ok (LibPending, c)
  | Some Panic => Panic
  | Some (Err (IdentityLevel level)) =>
      match increase_identity_level c level with
      | Ok c => Ok (LibReady (Ok (IdentityLevelIncreasing level)), c)
      | Err e => Ok (LibReady (Err e), c)
      | Panic => Panic
      end
  | Some (Err e) =>
      if reconnect && timed_out e then
        let? '(_, f) := poll_connect env (connect_future (tc_options c) true) in
        Ok (LibPending, set_state c (StConnecting f true))
      else Ok (LibReady (Err e), c)
  | Some (Ok (cl, book)) =>
      let con := {| cc_client := cl; cur_return_code := 0; cur_filetransfer_id := 0; subscribed := false;
                    filetransfers := []; connection_time := pe_now env |} in
      let c := push_items c (audio_changes false false
                 (intern_can_send_audio book (tc_options c)) (intern_can_receive_audio book (tc_options c))) in
      Ok (LibReady (Ok (BookEvents [PropertyAdded PropServer None None])), set_state c (StConnected con book))
  end.

Definition poll_identity (env : PollEnv) (c : TsConnection) (identity : Identity) (needed : Z)
    : res LibError (LibPoll * TsConnection) :=
  match pe_identity env identity needed with
  | None => Ok (LibPending, c)
  | Some None => Ok (LibReady (Err IdentityLevelIncreaseFailedThread), c)
  | Some (Some identity) =>
      let c := set_options c (opt_set_identity (Some identity) (tc_options c)) in
      Ok (LibReady (Ok IdentityLevelIncreased),
          set_state c (StConnecting (connect_future (tc_options c) false) false))
  end.

(** The first file transfer that is ready, and the others. *)
Fixpoint find_transfer (env : PollEnv) (before l : list Transfer) : option (LibItem * list Transfer) :=
  match l with
  | [] => None
  | t :: l =>
      match pe_transfer env t with
      | None => find_transfer env (before ++ [t]) l
      | Some r =>
          Some (match r with
                | Some stream =>
                    if tr_upload t then FileUploaded (tr_id t) (tr_size_or_position t) stream
                    else FileDownloaded (tr_id t) (tr_size_or_position t) stream
                | None => FiletransferFailed (tr_id t) FiletransferIo
                end, before ++ l)
      end
  end.

(** An audio packet is handed on unless the output is muted or it is not encrypted as it should. *)
Definition audio_accepted (book : Book) (options : ConnectOptions) (data : list Z) : res LibError bool :=
  if negb (intern_can_receive_audio book options) then Ok false
  else
    let? h := lib_op (InHeader_new S2C data) in
    let? flags := lib_op (InHeader_flags h) in
    let? t := lib_op (InHeader_packet_type h) in
    Ok (negb (Flags_contains flags UNENCRYPTED)
        || intern_can_receive_unencrypted_audio book (bool_decide (t = VoiceWhisper))).

(** The loop over the items of the client; [None] when out of fuel. *)
Fixpoint connected_loop (fuel : nat) (env : PollEnv) (c : TsConnection) (con : ConnectedConnection) (book : Book)
    : option (res LibError (LibPoll * TsConnection)) :=
  match fuel with
  | O => None
  | S fuel =>
      let '(r, cl) := client_poll (cc_client con) in
      let con := set_client con cl in
      let c := set_state c (StConnected con book) in
      match r with
      | ClientPending =>
          match find_transfer env [] (filetransfers con) with
          | Some (item, l) => Some (Ok (LibReady (Ok item), set_state c (StConnected (set_transfers con l) book)))
          | None => Some (Ok (LibPending, c))
          end
      | ClientEnd => Some (Ok (LibEnd, c))
      | ClientFailed e =>
          if bool_decide (client_state cl = Disconnected \/ client_state cl = Disconnecting)
          then Some (Ok (LibEnd, c))
          else match e with
               | TsProto (Timeout reason) =>
                   Some (Ok (LibReady (Ok (DisconnectedTemporarily (TimeoutReason reason))), reconnecting c))
               | _ => Some (Ok (LibReady (Err (ConnectionFailed e)), c))
               end
      | ClientItem (Item_Audio data audio) =>
          match audio_accepted book (tc_options c) data with
          | Ok true => Some (Ok (LibReady (Ok (AudioItem data audio)), c))
          | Ok false => connected_loop fuel env c con book
          | _ => Some Panic
          end
      | ClientItem (Item_Command data) =>
          let prev_can_send := intern_can_send_audio book (tc_options c) in
          let prev_can_receive := intern_can_receive_audio book (tc_options c) in
          match cc_handle_command con book (tc_items c) (tc_options c) data (pe_now env) with
          | Ok h =>
              match hd_reason h with
              | Some reason =>
                  let c := {| tc_state := tc_state c; tc_options := hd_options h; tc_items := hd_items h |} in
                  let c := push_items (reconnecting c)
                    (audio_changes prev_can_send prev_can_receive false false
                     ++ [Ok (DisconnectedTemporarily reason)]) in
                  match tc_items c with
                  | item :: items =>
                      Some (Ok (LibReady item,
                                {| tc_state := tc_state c; tc_options := tc_options c; tc_items := items |}))
                  | [] => Some Panic
                  end
              | None =>
                  let book := hd_book h in
                  let con := hd_con h in
                  let c := {| tc_state := StConnected con book; tc_options := hd_options h; tc_items := hd_items h |} in
                  let c := push_items c (audio_changes prev_can_send prev_can_receive
                    (intern_can_send_audio book (tc_options c)) (intern_can_receive_audio book (tc_options c))) in
                  match tc_items c with
                  | item :: items =>
                      Some (Ok (LibReady item,
                                {| tc_state := tc_state c; tc_options := tc_options c; tc_items := items |}))
                  | [] => connected_loop fuel env c con book
                  end
              end
          | _ => Some Panic
          end
      | ClientItem Item_NetworkStatsUpdated => Some (Ok (LibReady (Ok NetworkStatsUpdated), c))
      | ClientItem _ => connected_loop fuel env c con book
      end
  end.

(** [Connection::poll_next] *)
Definition lib_poll_next (fuel : nat) (env : PollEnv) (c : TsConnection)
    : option (res LibError (LibPoll * TsConnection)) :=
  match tc_items c with
  | item :: items =>
      Some (Ok (LibReady item, {| tc_state := tc_state c; tc_options := tc_options c; tc_items := items |}))
  | [] =>
      match tc_state c with
      | StConnecting f reconnect => Some (poll_connecting env c f reconnect)
      | StIdentityLevelIncreasing identity needed _ => Some (poll_identity env c identity needed)
      | StConnected con book => connected_loop fuel env c con book
      end
  end.
End polling.
