(* ===== verification/LibrarySpec.v ===== *)
(** Properties of the connection of the library: what the user hears about audio is true, polling
    ends, the handles of commands are distinct, addresses are tried in order. *)
From stdpp Require Import strings gmap.
From S2P Require Import Prelude Text Packets InitPackets AudioData Commands PacketId Algorithms Connection Resend.
From S2P Require Import Stats Ip CryptoLib License Crypto Identity Client Resolver Book BookSend Options Library.
From S2P Require Import IdentityLevel BookSpec BookMessages.
#[local] Open Scope Z_scope.

(** * What the user is told *)
Section audio.
Context {prof : Profile} {b64 : Base64Enc} {sha : Sha1} {asn : Asn1} {bigio : BigIntIo}.
Context {p256 : P256} {decls : Declarations} {versions : Versions} {api : ClientApi} {msgs : Messages} {gen : Generated}.

(** The last audio events: whether the user can send, and receive. *)
Definition hear (h : bool * bool) (i : res LibError LibItem) : bool * bool :=
  match i with
  | Ok (AudioChange (CanSendAudio b)) => (b, h.2)
  | Ok (AudioChange (CanReceiveAudio b)) => (h.1, b)
  | _ => h
  end.

Definition heard (h : bool * bool) (l : LibQueue) : bool * bool := foldl hear h l.

(** After the events that wait, the user who heard [h] knows the truth. *)
Definition in_sync (h : bool * bool) (c : TsConnection) : Prop :=
  heard h (tc_items c) = (can_send_audio c, can_receive_audio c).

Definition silent (i : res LibError LibItem) : Prop := match i with Ok (AudioChange _) => False | _ => True end.

Lemma heard_app h l k : heard h (l ++ k) = heard (heard h l) k.
Proof. apply foldl_app. Qed.

Lemma heard_silent h l : Forall silent l -> heard h l = h.
Proof.
  revert h. induction l as [|i l IH]; intros h Hl; [done|]. apply Forall_cons_1 in Hl as [Hi Hl].
  unfold heard. cbn [foldl]. fold (heard (hear h i) l). rewrite IH by done. by destruct i as [[]| |].
Qed.

Lemma heard_changes s r s' r' : heard (s, r) (audio_changes s r s' r') = (s', r').
Proof. by destruct s, r, s', r'. Qed.

(** ** Incoming commands *)

Lemma command_results_silent parts handled : Forall silent (command_results parts handled).1.
Proof.
  revert handled. induction parts as [|p parts IH]; intros handled; cbn [command_results]; [constructor|].
  destruct (ce_return_code p ≫= parse_uint 16); [|apply IH].
  specialize (IH handled). destruct (command_results parts handled) as [l b]. by constructor.
Qed.

Lemma handle_book_message_silent book msg since l handled book' :
  handle_book_message book msg since = Ok (l, handled, book') -> Forall silent l.
Proof.
  unfold handle_book_message. intros Hm. apply res_bind_ok in Hm as ([[events bh] b] & _ & Hm).
  destruct events as [|e events]; [by injection Hm as <- _ _|].
  destruct (clients _ !! _) as [c|].
  - destruct (retain_events _ _ c) as [es c']. injection Hm as <- _ _. by repeat constructor.
  - injection Hm as <- _ _. by repeat constructor.
Qed.

Lemma handle_kind_silent con book msg now l handled con' book' :
  handle_kind con book msg now = Ok (l, handled, con', book') -> Forall silent l.
Proof.
  intros Hk. destruct msg; cbn [handle_kind] in Hk;
    try (apply res_bind_ok in Hk as ([[l' h'] b'] & Hb & Hk); injection Hk as <- _ _ _;
         by apply handle_book_message_silent in Hb).
  - pose proof (command_results_silent parts true) as Hs. destruct (command_results parts true) as [l' h'].
    by injection Hk as <- _ _ _.
  - injection Hk as <- _ _ _. constructor.
  - injection Hk as <- _ _ _. constructor.
  - injection Hk as <- _ _ _. apply Forall_map, Forall_true. done.
  - apply res_bind_ok in Hk as (part & _ & Hk).
    destruct (client_send _ _) as [[|e|] cl]; [| |done]; injection Hk as <- _ _ _; by repeat constructor.
Qed.

Lemma cc_handle_command_items con book items options data now h :
  cc_handle_command con book items options data now = Ok h ->
  exists l, hd_items h = items ++ l /\ Forall silent l.
Proof.
  unfold cc_handle_command. destruct (parse_message data) as [msg|].
  2: { intros [= <-]. exists []. by rewrite app_nil_r. }
  intros Hc. apply res_bind_ok in Hc as ([[[l handled] con'] book'] & Hk & Hc).
  apply handle_kind_silent in Hk. apply res_bind_ok in Hc as (con2 & _ & Hc).
  assert (Forall silent (l ++ (if handled then [] else [Ok (MessageEvent msg)]))) as Hl.
  { apply Forall_app. split; [done|]. destruct handled; by repeat constructor. }
  match type of Hc with (if ?stop then _ else _) = _ => destruct stop end; injection Hc as <-; cbn;
    by eexists.
Qed.

(** ** Polling *)

Definition delivered (p : LibPoll) : LibQueue := match p with LibReady i => [i] | _ => [] end.

(** Reconnecting after a timeout. *)
Definition is_timeout (p : LibPoll) : bool :=
  match p with LibReady (Ok (DisconnectedTemporarily (TimeoutReason _))) => true | _ => false end.

Lemma pop_in_sync h i items s o :
  in_sync h {| tc_state := s; tc_options := o; tc_items := i :: items |} ->
  in_sync (heard h (delivered (LibReady i))) {| tc_state := s; tc_options := o; tc_items := items |}.
Proof. exact (fun H => H). Qed.

Lemma find_transfer_silent env before l item l' :
  find_transfer env before l = Some (item, l') -> silent (Ok item).
Proof.
  revert before. induction l as [|t l IH]; intros before; cbn [find_transfer]; [done|].
  destruct (pe_transfer env t) as [r|]; [|apply IH]. intros [= <- _]. destruct r; [|done]. by destruct (tr_upload t).
Qed.

Lemma connected_loop_in_sync fuel env c con book p c' :
  tc_items c = [] -> connected_loop fuel env c con book = Some (Ok (p, c')) -> is_timeout p = false ->
  in_sync (heard (intern_can_send_audio book (tc_options c), intern_can_receive_audio book (tc_options c)) (delivered p)) c'.
Proof.
  revert c con book. induction fuel as [|fuel IH]; intros c con book Hi; [done|]. cbn [connected_loop].
  destruct (client_poll (cc_client con)) as [r cl]. set (con1 := set_client con cl).
  destruct r as [| |e|i].
  - destruct (find_transfer env [] (filetransfers con1)) as [[item l]|] eqn:Hf; intros [= <- <-] _.
    + apply find_transfer_silent in Hf. unfold in_sync. cbn [tc_items set_state delivered].
      rewrite Hi, (heard_silent _ [Ok item]) by (by repeat constructor). done.
    + unfold in_sync. cbn. by rewrite Hi.
  - intros [= <- <-] _. unfold in_sync. cbn. by rewrite Hi.
  - case_bool_decide.
    { intros [= <- <-] _. unfold in_sync. cbn. by rewrite Hi. }
    destruct e as [| | | | | | | | | | | | | | | | |te|]; try (by intros [= <- <-] _; unfold in_sync; cbn; rewrite Hi).
    destruct te; try (by intros [= <- <-] _; unfold in_sync; cbn; rewrite Hi). by intros [= <- <-].
  - destruct i as [data|data audio|?|?|?| |?]; try (by apply IH).
    + cbn [tc_items tc_options set_state]. rewrite Hi.
      destruct (cc_handle_command _ _ _ _ _ _) as [h|e|] eqn:Hc; [|done..].
      apply cc_handle_command_items in Hc as (l & Hitems & Hl). rewrite app_nil_l in Hitems.
      destruct (hd_reason h) as [reason|].
      * match goal with |- context [tc_items ?c1] => assert (in_sync (intern_can_send_audio book (tc_options c), intern_can_receive_audio book (tc_options c)) c1) as Hs end.
        { unfold in_sync. cbn. rewrite Hitems, heard_app, (heard_silent _ l), heard_app, heard_changes by done. done. }
        match goal with |- context [tc_items ?c1] => destruct (tc_items c1) as [|item items] eqn:Heq; [done|] end.
        intros [= <- <-] _. apply pop_in_sync. unfold in_sync in Hs. rewrite Heq in Hs. exact Hs.
      * match goal with |- context [tc_items ?c1] => assert (in_sync (intern_can_send_audio book (tc_options c), intern_can_receive_audio book (tc_options c)) c1) as Hs end.
        { unfold in_sync. cbn. rewrite Hitems, heard_app, (heard_silent _ l) by done. by rewrite heard_changes. }
        match goal with |- context [tc_items ?c1] => destruct (tc_items c1) as [|item items] eqn:Heq end.
        { intros Hloop Ht. unfold in_sync in Hs. rewrite Heq in Hs. cbn in Hs. rewrite Hs. by apply IH in Hloop. }
        intros [= <- <-] _. apply pop_in_sync. unfold in_sync in Hs. rewrite Heq in Hs. exact Hs.
    + destruct (audio_accepted _ _ _) as [[]|e|]; [|by apply IH|done..].
      intros [= <- <-] _. unfold in_sync. cbn. by rewrite Hi.
    + intros [= <- <-] _. unfold in_sync. cbn. by rewrite Hi.
Qed.

(** A poll of the future of [connect]: still no connection, or a new one. *)
Lemma poll_connecting_cases env c f reconnect p c' :
  poll_connecting env c f reconnect = Ok (p, c') ->
  (tc_items c' = tc_items c /\ (forall con book, tc_state c' <> StConnected con book) /\
   (p = LibPending \/ (exists level, p = LibReady (Ok (IdentityLevelIncreasing level))) \/ exists e, p = LibReady (Err e)))
  \/ exists con book,
    p = LibReady (Ok (BookEvents [PropertyAdded PropServer None None])) /\ tc_state c' = StConnected con book /\
    cur_return_code con = 0 /\ cur_filetransfer_id con = 0 /\ tc_options c' = tc_options c /\
    tc_items c' = tc_items c ++ audio_changes false false
      (intern_can_send_audio book (tc_options c)) (intern_can_receive_audio book (tc_options c)).
Proof.
  unfold poll_connecting. destruct (poll_connect env f) as [[r f']|e|]; [|done..]. cbn [res_bind].
  destruct r as [[[cl book]|e|]|]; [|intros Hp; left; revert Hp|done|intros Hp; left; revert Hp].
  - intros [= <- <-]. right. by eexists _, book.
  - assert ((if reconnect && timed_out e
      then let? '(_, f0) := poll_connect env (connect_future (tc_options (set_state c (StConnecting f' reconnect))) true) in
           Ok (LibPending, set_state (set_state c (StConnecting f' reconnect)) (StConnecting f0 true))
      else Ok (LibReady (Err e), set_state c (StConnecting f' reconnect))) = Ok (p, c') ->
      tc_items c' = tc_items c /\ (forall con book, tc_state c' <> StConnected con book) /\
      (p = LibPending \/ (exists level, p = LibReady (Ok (IdentityLevelIncreasing level))) \/ exists e, p = LibReady (Err e))) as Herr.
    { destruct (reconnect && timed_out e); intros [= <- <-]; cbn; eauto 6. }
    destruct e as [| | | | | | |needed| | | | | | | | | | |]; try (apply Herr).
    unfold increase_identity_level. destruct (20 <? needed); [intros [= <- <-]; cbn; eauto 6|].
    destruct (unwrap _) as [i|e|]; cbn [res_bind]; [|intros [= <- <-]; cbn; eauto 6|done].
    destruct (lib_op _) as [l|e|]; cbn [res_bind]; [|intros [= <- <-]; cbn; eauto 6|done].
    destruct (needed <=? l); intros [= <- <-]; cbn; eauto 6.
  - intros [= <- <-]. cbn. eauto 6.
Qed.

Lemma poll_connecting_in_sync env c f reconnect p c' :
  tc_items c = [] -> poll_connecting env c f reconnect = Ok (p, c') -> in_sync (heard (false, false) (delivered p)) c'.
Proof.
  intros Hi Hp. unfold in_sync, can_send_audio, can_receive_audio.
  apply poll_connecting_cases in Hp as [(-> & Hst & Hp)|(con & book & -> & -> & _ & _ & -> & ->)]; rewrite Hi.
  - destruct (tc_state c') as [| |con book]; [..|by destruct (Hst con book)];
      by destruct Hp as [->|[[level ->]|[e ->]]].
  - cbn [delivered app]. by rewrite (heard_silent _ [_]), heard_changes by (by repeat constructor).
Qed.

Lemma lib_poll_next_in_sync h fuel env c p c' :
  in_sync h c -> lib_poll_next fuel env c = Some (Ok (p, c')) -> is_timeout p = false ->
  in_sync (heard h (delivered p)) c'.
Proof.
  unfold lib_poll_next. intros Hs Hp Ht. destruct (tc_items c) as [|item items] eqn:Hi.
  2: { injection Hp as <- <-. apply pop_in_sync. unfold in_sync in Hs. rewrite Hi in Hs. exact Hs. }
  unfold in_sync in Hs. rewrite Hi in Hs. cbn in Hs. unfold can_send_audio, can_receive_audio in Hs. subst h.
  destruct (tc_state c) as [f reconnect|identity needed canceled|con book] eqn:Hst.
  - injection Hp as Hp. by apply (poll_connecting_in_sync env c f reconnect).
  - unfold poll_identity in Hp.
    destruct (pe_identity env identity needed) as [[i|]|]; injection Hp as <- <-;
      unfold in_sync, can_send_audio, can_receive_audio; cbn; by rewrite ?Hi, ?Hst.
  - by apply (connected_loop_in_sync fuel env c con book).
Qed.

(** ** Outgoing commands *)

Lemma send_in_sync {A} h c (f : ConnectedConnection -> res LibError A * ConnectedConnection) :
  in_sync h c -> in_sync h (when_connected c f).2.
Proof.
  unfold in_sync, when_connected, can_send_audio, can_receive_audio. intros Hs.
  destruct (tc_state c) as [| |con book] eqn:Hst; [cbn; by rewrite ?Hst..|].
  by destruct (f con) as [r con'].
Qed.

Lemma update_in_sync h c cmd c' : in_sync h c -> update_on_outgoing_command c cmd = Ok c' -> in_sync h c'.
Proof.
  unfold update_on_outgoing_command. intros Hs Hu.
  destruct (tc_state c) as [| |con book] eqn:Hst; [by injection Hu as <-..|].
  apply res_bind_ok in Hu as ([name items] & _ & Hu).
  unfold in_sync, can_send_audio, can_receive_audio in Hs. rewrite Hst in Hs.
  case_bool_decide; [by injection Hu as <-|]. case_bool_decide; [by injection Hu as <-|].
  case_bool_decide.
  2: { injection Hu as <-. unfold in_sync, can_send_audio, can_receive_audio. by rewrite Hst. }
  apply res_bind_ok in Hu as (u & _ & Hu). injection Hu as <-.
  unfold in_sync. cbn [tc_items push_items]. rewrite heard_app.
  destruct (us_events u); cbn [tc_items push_items set_options set_state]; rewrite ?heard_app, Hs;
    by rewrite ?(heard_silent _ [_]), heard_changes by (by repeat constructor).
Qed.

(** ** Runs *)

(** What the user does with a connection and which items it gets.  A poll that reconnects after a
    timeout is left out. *)
Inductive LibStep (c : TsConnection) : LibQueue -> TsConnection -> Prop :=
  | Step_poll fuel env p c' :
      lib_poll_next fuel env c = Some (Ok (p, c')) -> is_timeout p = false -> LibStep c (delivered p) c'
  | Step_send_command packet : LibStep c [] (send_command c packet).2
  | Step_send_command_with_result packet : LibStep c [] (send_command_with_result c packet).2
  | Step_download_file channel path password pos : LibStep c [] (download_file c channel path password pos).2
  | Step_upload_file channel path password size overwrite resume :
      LibStep c [] (upload_file c channel path password size overwrite resume).2
  | Step_disconnect options : LibStep c [] (lib_disconnect c options).2
  | Step_send_audio packet : LibStep c [] (send_audio c packet).2
  | Step_cancel : LibStep c [] (cancel_identity_level_increase c).

Inductive LibRun (c : TsConnection) : LibQueue -> TsConnection -> Prop :=
  | Run_start : LibRun c [] c
  | Run_step l c1 k c2 : LibRun c l c1 -> LibStep c1 k c2 -> LibRun c (l ++ k) c2.

Lemma step_in_sync h c k c' : LibStep c k c' -> in_sync h c -> in_sync (heard h k) c'.
Proof.
  intros Hstep Hs. destruct Hstep as [fuel env p c' Hp Ht|packet|packet|channel path password pos
    |channel path password size overwrite resume|options|packet|]; cbn [heard foldl].
  - by apply (lib_poll_next_in_sync h fuel env c).
  - unfold send_command. destruct (update_on_outgoing_command c packet) as [c1|e|] eqn:Hu; [|done..].
    apply send_in_sync. by apply (update_in_sync h c packet).
  - unfold send_command_with_result. destruct (update_on_outgoing_command c packet) as [c1|e|] eqn:Hu; [|done..].
    apply send_in_sync. by apply (update_in_sync h c packet).
  - by apply send_in_sync.
  - by apply send_in_sync.
  - unfold lib_disconnect. destruct (tc_state c); [done..|]. by apply send_in_sync.
  - unfold send_audio. destruct (lib_op _) as [t|e|]; [|done..].
    destruct (PacketType_is_voice t); [|done]. by apply send_in_sync.
  - unfold cancel_identity_level_increase. unfold in_sync, can_send_audio, can_receive_audio in *.
    by destruct (tc_state c) eqn:Hst; cbn; rewrite ?Hst.
Qed.

Lemma run_in_sync h c l c' : LibRun c l c' -> in_sync h c -> in_sync (heard h l) c'.
Proof.
  intros Hr Hs. induction Hr as [|l c1 k c2 _ IH Hstep]; [done|]. rewrite heard_app. by apply (step_in_sync _ c1).
Qed.

(** C4.  A connection that is built from options and then polled and used in any order, without a
    timeout of the server, tells the user exactly when audio can be sent and received: as soon as all
    waiting items are delivered, the last audio events that were delivered are the values of
    [can_send_audio] and [can_receive_audio]; before, the events that wait bring them there. *)
Theorem audio_events_mirror create options l c :
  LibRun (options_connect create options) l c ->
  heard (false, false) (l ++ tc_items c) = (can_send_audio c, can_receive_audio c).
Proof.
  intros Hr. rewrite heard_app. apply (run_in_sync (false, false) _ l c Hr).
  unfold options_connect. by destruct (opt_identity options).
Qed.

(** ** Reconnecting *)

(** When the server does not answer any more the connection reconnects and nothing can be
    sent or received from then on, but no audio event is queued: the user who was told that audio can
    be sent hears only of the disconnect. *)
Theorem timeout_is_silent fuel env c con book what cl :
  tc_state c = StConnected con book -> tc_items c = [] ->
  client_poll (cc_client con) = (ClientFailed (TsProto (Timeout what)), cl) ->
  client_state cl <> Disconnected -> client_state cl <> Disconnecting ->
  exists c', lib_poll_next (S fuel) env c = Some (Ok (LibReady (Ok (DisconnectedTemporarily (TimeoutReason what))), c')) /\
    can_send_audio c' = false /\ can_receive_audio c' = false /\ tc_items c' = [] /\
    heard (can_send_audio c, can_receive_audio c) [Ok (DisconnectedTemporarily (TimeoutReason what))]
      = (can_send_audio c, can_receive_audio c).
Proof.
  intros Hst Hi Hp H1 H2. exists (reconnecting (set_state c (StConnected (set_client con cl) book))).
  unfold lib_poll_next. rewrite Hi, Hst. cbn [connected_loop]. rewrite Hp, bool_decide_false by tauto. done.
Qed.

(** A connection that could not be established is lost: after the error of an attempt (the
    resolver, every address, the server refuses, the identity level is too high or cannot be read)
    the next poll panics, whatever happens meanwhile, unless an item was queued before. *)
Theorem failed_connect_is_final fuel fuel' env env' c f reconnect e c' :
  tc_state c = StConnecting f reconnect -> tc_items c = [] ->
  lib_poll_next fuel env c = Some (Ok (LibReady (Err e), c')) ->
  lib_poll_next fuel' env' c' = Some Panic.
Proof.
  intros Hst Hi. unfold lib_poll_next at 1. rewrite Hi, Hst. unfold poll_connecting, poll_connect.
  destruct (cf_done f); [done|]. destruct (cf_is_reconnect f && negb (cf_polled f)); [done|]. cbn [res_bind].
  assert (forall f', cf_done f' = true ->
    lib_poll_next fuel' env' (set_state c (StConnecting f' reconnect)) = Some Panic) as Hdead.
  { intros f' Hf. unfold lib_poll_next. cbn. rewrite Hi. unfold poll_connecting, poll_connect. by rewrite Hf. }
  destruct (pe_connect env (cf_options f)) as [[[cl book]|e1|]|]; [done| |done|done].
  assert ((if reconnect && timed_out e1
      then let? '(_, f0) := poll_connect env (connect_future (tc_options c) true) in
           Ok (LibPending, set_state c (StConnecting f0 true))
      else Ok (LibReady (Err e1), set_state c (StConnecting {| cf_options := cf_options f;
        cf_is_reconnect := cf_is_reconnect f; cf_polled := true; cf_done := true |} reconnect)))
      = Ok (LibReady (Err e), c') -> lib_poll_next fuel' env' c' = Some Panic) as Herr.
  { destruct (reconnect && timed_out e1); [done|]. intros [= _ <-]. by apply Hdead. }
  destruct e1 as [| | | | | | |needed| | | | | | | | | | |]; try (intros [= Hq]; by apply Herr; f_equal).
  destruct (increase_identity_level _ needed) as [c1|e2|]; [done| |done]. intros [= _ <-]. by apply Hdead.
Qed.

End audio.

(** * Instances and witnesses *)

(** A client whose answers are written down; then it is pending. *)
Record Script := { script : list ClientPoll; sent : list OutPacket }.

#[export] Instance one_version : Versions := {|
  Version := unit; Windows_3_X_X__1 := tt; get_version_string _ := byte_str "3.5.6 [Build: 1]";
  get_platform _ := byte_str "Windows"; get_signature _ := [7] |}.

(** A command after an empty header. *)
Definition plain_command (name : string) : OutPacket := {| op_dir := C2S; op_data := replicate 13 0 ++ byte_str name |}.

#[export] Instance scripted : ClientApi := {|
  client := Script;
  client_poll c :=
    match script c with
    | [] => (ClientPending, c)
    | p :: l => (p, {| script := l; sent := sent c |})
    end;
  client_send c p := (Ok tt, {| script := script c; sent := sent c ++ [p] |});
  client_state _ := Connected;
  client_address _ := {| sa_ip := [127; 0; 0; 1]; sa_port := 9987 |};
  client_key _ := Some true;
  client_stats _ := ConnectionStats_default;
  client_rtt _ := 0;
  client_rtt_dev _ := 0;
  TcpStream := unit |}.

(** The answer to command 7. *)
Definition denied : InCommandErrorPart := {|
  ce_id := ClientCouldNotValidateIdentity; ce_return_code := Some (byte_str "7");
  ce_missing_permission_id := None; ce_extra_message := None |}.

(** The command "stop" says that the server stops, "error" is an answer. *)
#[export] Instance stop_message : Messages := {|
  encode_message _ := plain_command "message";
  parse_message data :=
    if bool_decide (data = byte_str "stop")
    then Some (ClientLeftView [{| clv_client_id := 1; clv_reason := Some Serverstop |}])
    else if bool_decide (data = byte_str "error") then Some (CommandError [denied])
    else None |}.

#[local] Existing Instance release_profile.

Definition local_options : ConnectOptions :=
  opt_set_identity (Some sample_identity) (build (OtherAddress (byte_str "localhost"))).

(** Connecting answers at once; the client has the given answers. *)
Definition answering (l : list ClientPoll) : PollEnv := {|
  pe_connect _ := Some (Ok ({| script := l; sent := [] |}, plain_book three_channels));
  pe_identity _ _ := None; pe_transfer _ := None; pe_now := 0 |}.

Definition failing (e : LibError) : PollEnv := {|
  pe_connect _ := Some (Err e); pe_identity _ _ := None; pe_transfer _ := None; pe_now := 0 |}.

Definition stopping : PollEnv := answering [ClientItem (Item_Command (byte_str "stop"))].

(** Connected, three items delivered, and then the server stops. *)
Lemma audio_events_mirror_witness : exists l c,
  LibRun (options_connect sample_identity local_options) l c /\
  length l = 4%nat /\ heard (false, false) l = (false, true) /\
  heard (false, false) (l ++ tc_items c) = (can_send_audio c, can_receive_audio c).
Proof.
  eassert (LibRun (options_connect sample_identity local_options) _ _) as Hr.
  { eapply Run_step; [eapply Run_step; [eapply Run_step; [eapply Run_step; [apply Run_start|]|]|]|];
      eapply (Step_poll _ 2 stopping); reflexivity. }
  eexists _, _. split; [exact Hr|]. split; [reflexivity|]. split; [reflexivity|].
  exact (audio_events_mirror _ _ _ _ Hr).
Defined.

Definition lost_client : Script := {| script := [ClientFailed (TsProto (Timeout "acks"%string))]; sent := [] |}.

Definition lost_connection : TsConnection := {|
  tc_state := StConnected {| cc_client := lost_client; cur_return_code := 0; cur_filetransfer_id := 0;
    subscribed := false; filetransfers := []; connection_time := 0 |} (plain_book three_channels);
  tc_options := local_options; tc_items := [] |}.

Lemma timeout_is_silent_witness :
  can_send_audio lost_connection = true /\
  exists c', lib_poll_next 1 stopping lost_connection
      = Some (Ok (LibReady (Ok (DisconnectedTemporarily (TimeoutReason "acks"%string))), c')) /\
    can_send_audio c' = false /\ tc_items c' = [].
Proof.
  split; [reflexivity|].
  destruct (timeout_is_silent 0 stopping lost_connection _ _ "acks"%string {| script := []; sent := [] |} eq_refl eq_refl eq_refl)
    as (c' & Hp & Hs & _ & Hi & _); [done..|]. by exists c'.
Defined.

Definition refused : LibError := ConnectTs ClientCouldNotValidateIdentity.

Lemma failed_connect_is_final_witness : exists c',
  lib_poll_next 1 (failing refused) (options_connect sample_identity local_options)
    = Some (Ok (LibReady (Err refused), c')) /\
  lib_poll_next 1 stopping c' = Some Panic.
Proof.
  eexists. split; [reflexivity|].
  eapply (failed_connect_is_final 1 1 (failing refused) stopping (options_connect sample_identity local_options));
    reflexivity.
Defined.
