(* ===== verification/LibraryCommands.v ===== *)
(** Properties of the operations of a connection: which handles commands and file transfers get, which
    answers are delivered, which address is connected, and what happens to the state of the own
    client.  A poll ends if the client does. *)
From stdpp Require Import strings gmap.
From S2P Require Import Prelude Text Packets InitPackets AudioData Commands PacketId Algorithms Connection Resend.
From S2P Require Import Ip CryptoLib License Crypto Identity Client Resolver Book BookSend Options Library.
From S2P Require Import IdentityLevel BookSpec BookMessages LibrarySpec.
#[local] Open Scope Z_scope.

Section commands.
Context {prof : Profile} {b64 : Base64Enc} {sha : Sha1} {asn : Asn1} {bigio : BigIntIo}.
Context {p256 : P256} {decls : Declarations} {versions : Versions} {api : ClientApi} {msgs : Messages} {gen : Generated}.

(** * Handles *)

(** The operations that use a return code; a file transfer uses a transfer id, too. *)
Inductive Request :=
  | RqCommand (packet : OutPacket)
  | RqDownload (channel_id : Z) (path : list Z) (password : option (list Z)) (seek_position : option Z)
  | RqUpload (channel_id : Z) (path : list Z) (password : option (list Z)) (size : Z) (overwrite resume : bool).

Definition request (c : TsConnection) (r : Request) : res LibError Z * TsConnection :=
  match r with
  | RqCommand packet => send_command_with_result c packet
  | RqDownload channel_id path password seek_position => download_file c channel_id path password seek_position
  | RqUpload channel_id path password size overwrite resume =>
      upload_file c channel_id path password size overwrite resume
  end.

Definition is_transfer (r : Request) : bool := match r with RqCommand _ => false | _ => true end.

Fixpoint requests (c : TsConnection) (l : list Request) : list (res LibError Z) * TsConnection :=
  match l with
  | [] => ([], c)
  | r :: l =>
      let '(x, c) := request c r in
      let '(xs, c) := requests c l in
      (x :: xs, c)
  end.

(** Connected, with these numbers for the next command and transfer. *)
Definition next_codes (c : TsConnection) (code ft : Z) : Prop :=
  exists con book, tc_state c = StConnected con book /\ cur_return_code con = code /\ cur_filetransfer_id con = ft.

Lemma update_codes c packet c' code ft :
  update_on_outgoing_command c packet = Ok c' -> next_codes c code ft -> next_codes c' code ft.
Proof.
  intros Hu (con & book & Hst & Hc & Hf). unfold update_on_outgoing_command in Hu. rewrite Hst in Hu.
  apply res_bind_ok in Hu as ([name items] & _ & Hu).
  case_bool_decide; [injection Hu as <-; by eexists _, _|].
  case_bool_decide; [injection Hu as <-; by eexists _, _|].
  case_bool_decide; [|injection Hu as <-; by eexists _, _].
  apply res_bind_ok in Hu as (u & _ & Hu). injection Hu as <-.
  destruct (us_events u); by eexists _, _.
Qed.

Lemma arith_next w z n : arith (E := LibError) w z = Ok n -> n = z mod 2 ^ w /\ (overflow_checks = true -> is_uint w z).
Proof.
  unfold arith, wrap. case_bool_decide as Hu.
  - intros [= <-]. split; [|done]. symmetry. apply Z.mod_small. exact Hu.
  - destruct overflow_checks; [done|]. by intros [= <-].
Qed.

Lemma cc_send_command_codes con packet r con' : cc_send_command con packet = (r, con') ->
  cur_return_code con' = cur_return_code con /\ cur_filetransfer_id con' = cur_filetransfer_id con.
Proof. unfold cc_send_command. destruct (client_send _ _) as [x cl]. by intros [= _ <-]. Qed.

Lemma cc_result_codes con packet r con' :
  cc_send_command_with_result con packet = (r, con') -> r <> Panic ->
  cur_return_code con' = (cur_return_code con + 1) mod 2 ^ 16 /\
  cur_filetransfer_id con' = cur_filetransfer_id con /\
  (overflow_checks = true -> is_uint 16 (cur_return_code con + 1)) /\
  (forall h, r = Ok h -> h = cur_return_code con).
Proof.
  unfold cc_send_command_with_result. destruct (arith 16 _) as [n|e|] eqn:Ha; [|by intros [= <- _]..].
  apply arith_next in Ha as [-> Hr].
  destruct (lib_op _) as [packet'|e|]; [|by intros [= <- _]..].
  destruct (cc_send_command _ packet') as [x con1] eqn:Hs. apply cc_send_command_codes in Hs as [H1 H2].
  intros [= <- <-] _. split_and!; [done..|]. intros h. destruct x; [|done..]. by intros [= <-].
Qed.

Lemma cc_transfer_codes con message r con' :
  cc_transfer con message = (r, con') -> r <> Panic ->
  cur_return_code con' = (cur_return_code con + 1) mod 2 ^ 16 /\
  cur_filetransfer_id con' = (cur_filetransfer_id con + 1) mod 2 ^ 16 /\
  (overflow_checks = true -> is_uint 16 (cur_return_code con + 1)) /\
  (forall h, r = Ok h -> h = cur_filetransfer_id con).
Proof.
  unfold cc_transfer. destruct (arith 16 _) as [n|e|] eqn:Ha; [|by intros [= <- _]..].
  apply arith_next in Ha as [-> _].
  destruct (cc_send_command_with_result _ _) as [x con1] eqn:Hs. intros [= <- <-] Hp.
  apply cc_result_codes in Hs as (H1 & H2 & H3 & _); [|by destruct x].
  split_and!; [done..|]. intros h. destruct x; [|done..]. by intros [= <-].
Qed.

Lemma request_codes c r x c' code ft :
  next_codes c code ft -> request c r = (x, c') -> x <> Panic ->
  next_codes c' ((code + 1) mod 2 ^ 16) (if is_transfer r then (ft + 1) mod 2 ^ 16 else ft) /\
  (overflow_checks = true -> is_uint 16 (code + 1)) /\
  (forall h, x = Ok h -> h = if is_transfer r then ft else code).
Proof.
  intros Hn Hr Hx. destruct r as [packet|id path pw pos|id path pw size ow re]; cbn [request is_transfer] in *.
  - unfold send_command_with_result in Hr. destruct (update_on_outgoing_command c packet) as [c1|e|] eqn:Hu; [|by injection Hr as <- _..].
    apply (update_codes _ _ _ code ft) in Hu as (con & book & Hst & <- & <-); [|done].
    unfold when_connected in Hr. rewrite Hst in Hr.
    destruct (cc_send_command_with_result con packet) as [y con'] eqn:Hs. injection Hr as <- <-.
    apply cc_result_codes in Hs as (H1 & H2 & H3 & H4); [|done].
    split; [|done]. by eexists con', book.
  - destruct Hn as (con & book & Hst & <- & <-). unfold download_file, when_connected in Hr. rewrite Hst in Hr.
    destruct (cc_download_file _ _ _ _ _) as [y con'] eqn:Hs. injection Hr as <- <-.
    apply cc_transfer_codes in Hs as (H1 & H2 & H3 & H4); [|done].
    split; [|done]. by eexists con', book.
  - destruct Hn as (con & book & Hst & <- & <-). unfold upload_file, when_connected in Hr. rewrite Hst in Hr.
    destruct (cc_upload_file _ _ _ _ _ _ _) as [y con'] eqn:Hs. injection Hr as <- <-.
    apply cc_transfer_codes in Hs as (H1 & H2 & H3 & H4); [|done].
    split; [|done]. by eexists con', book.
Qed.

(** The handle of the request at position [i]. *)
Definition handle_at (code ft : Z) (l : list Request) (i : nat) (r : Request) : Z :=
  if is_transfer r then (ft + Z.of_nat (length (filter (fun r => is_transfer r = true) (take i l)))) mod 2 ^ 16
  else (code + Z.of_nat i) mod 2 ^ 16.

Lemma requests_handles c l code ft xs c' :
  next_codes c code ft -> is_uint 16 code -> is_uint 16 ft -> requests c l = (xs, c') -> Panic ∉ xs ->
  forall i r h, l !! i = Some r -> xs !! i = Some (Ok h) -> h = handle_at code ft l i r.
Proof.
  revert c code ft xs c'. induction l as [|r0 l IH]; intros c code ft xs c' Hn Hc Hf Hr Hp i r h Hl Hx; [done|].
  cbn [requests] in Hr. destruct (request c r0) as [x c1] eqn:Hq. destruct (requests c1 l) as [xs1 c2] eqn:Hrs.
  injection Hr as <- <-. apply not_elem_of_cons in Hp as [Hp Hps].
  destruct (request_codes c r0 x c1 code ft Hn Hq ltac:(done)) as (Hn1 & _ & Hh).
  assert (forall z, is_uint 16 (z mod 2 ^ 16)) as Hmod by (intros z; apply Z.mod_pos_bound; lia).
  destruct i as [|i].
  - injection Hl as ->. injection Hx as ->. rewrite (Hh h eq_refl). unfold handle_at. cbn [take filter length].
    destruct (is_transfer r); rewrite Z.add_0_r, Z.mod_small; done.
  - assert (is_uint 16 (if is_transfer r0 then (ft + 1) mod 2 ^ 16 else ft)) as Hf1 by (by destruct (is_transfer r0)).
    rewrite (IH c1 _ _ xs1 c2 Hn1 (Hmod _) Hf1 Hrs Hps i r h Hl Hx). unfold handle_at. cbn [take].
    rewrite filter_cons. destruct (is_transfer r), (is_transfer r0); cbn [length];
      rewrite ?decide_True, ?decide_False by done; cbn [length]; rewrite ?Z.add_mod_idemp_l by lia; f_equal; lia.
Qed.

Lemma requests_overflow c l code ft xs c' :
  next_codes c code ft -> is_uint 16 code -> requests c l = (xs, c') -> Panic ∉ xs -> overflow_checks = true ->
  code + Z.of_nat (length l) < 2 ^ 16.
Proof.
  revert c code ft xs c'. induction l as [|r0 l IH]; intros c code ft xs c' Hn Hc Hr Hp Ho.
  { cbn. unfold is_uint in Hc. lia. }
  cbn [requests] in Hr. destruct (request c r0) as [x c1] eqn:Hq. destruct (requests c1 l) as [xs1 c2] eqn:Hrs.
  injection Hr as <- <-. apply not_elem_of_cons in Hp as [Hp Hps].
  destruct (request_codes c r0 x c1 code ft Hn Hq ltac:(done)) as (Hn1 & Hu & _). specialize (Hu Ho).
  rewrite Z.mod_small in Hn1 by exact Hu.
  pose proof (IH c1 _ _ xs1 c2 Hn1 Hu Hrs Hps Ho). cbn [length]. lia.
Qed.

(** C15.  The handles that commands and file transfers get.  Every request takes the next return
    code, every file transfer the next transfer id, starting from those of the connection and modulo
    65536; so two commands get the same handle only if there were at least 65536 requests between
    them.  With overflow checks it does not come to that: the request that takes return code 65535
    panics. *)
Theorem handles_in_order c l code ft xs c' :
  next_codes c code ft -> is_uint 16 code -> is_uint 16 ft -> requests c l = (xs, c') -> Panic ∉ xs ->
  (forall i r h, l !! i = Some r -> xs !! i = Some (Ok h) -> h = handle_at code ft l i r) /\
  (forall i j r s h, (i < j)%nat -> l !! i = Some r -> l !! j = Some s -> is_transfer r = false ->
     is_transfer s = false -> xs !! i = Some (Ok h) -> xs !! j = Some (Ok h) -> 2 ^ 16 <= Z.of_nat j - Z.of_nat i) /\
  (overflow_checks = true -> code + Z.of_nat (length l) < 2 ^ 16).
Proof.
  intros Hn Hc Hf Hr Hp. pose proof (requests_handles c l code ft xs c' Hn Hc Hf Hr Hp) as Hh.
  split_and!; [done| |by apply (requests_overflow c l code ft xs c')].
  intros i j r s h Hij Hi Hj Hri Hsj Hxi Hxj.
  pose proof (Hh i r h Hi Hxi) as H1. pose proof (Hh j s h Hj Hxj) as H2.
  unfold handle_at in H1, H2. rewrite Hri in H1. rewrite Hsj in H2.
  destruct (Z.le_gt_cases (2 ^ 16) (Z.of_nat j - Z.of_nat i)) as [|Hlt]; [done|]. exfalso.
  assert ((Z.of_nat j - Z.of_nat i) mod 2 ^ 16 = 0) as H0.
  { replace (Z.of_nat j - Z.of_nat i) with ((code + Z.of_nat j) - (code + Z.of_nat i)) by lia. by rewrite Zminus_mod, <- H1, <- H2, Z.sub_diag. }
  rewrite Z.mod_small in H0; lia.
Qed.

(** * Answers *)

Definition result_of (msg : InCommandErrorPart) : option LibItem :=
  code ← ce_return_code msg ≫= parse_uint 16;
  Some (MessageResult code
    (if bool_decide (ce_id msg = TsServerError_Ok) then None
     else Some {| cmd_error := ce_id msg; missing_permission := ce_missing_permission_id msg |})).

Lemma command_results_spec parts handled : command_results parts handled =
  (map Ok (omap result_of parts), handled && forallb (fun p => is_some (result_of p)) parts).
Proof.
  revert handled. induction parts as [|p parts IH]; intros handled; [cbn; by rewrite andb_true_r|].
  cbn [command_results omap list_omap forallb]. rewrite !IH.
  destruct (result_of p) as [r|] eqn:Hr; unfold result_of in Hr;
    destruct (ce_return_code p ≫= parse_uint 16); try done; cbn; [|by rewrite andb_false_r].
  by injection Hr as <-.
Qed.

(** C16.  The answers to commands: a message of the server with error parts queues a result for each
    part that has a readable return code, in order and with the error of the part, and changes
    nothing else; only if a part has none the message itself is handed to the user, too.  A part that
    carries the return code of a handle is the result of that handle. *)
Theorem answers_delivered con book items options data now parts :
  parse_message data = Some (CommandError parts) ->
  cc_handle_command con book items options data now = Ok {|
    hd_con := con; hd_book := book; hd_options := options; hd_reason := None;
    hd_items := items ++ map Ok (omap result_of parts)
      ++ (if forallb (fun p => is_some (result_of p)) parts then [] else [Ok (MessageEvent (CommandError parts))]) |} /\
  (forall p h, is_uint 16 h -> ce_return_code p = Some (to_dec h) ->
     exists r, result_of p = Some (MessageResult h r) /\ (r = None <-> ce_id p = TsServerError_Ok)).
Proof.
  intros Hp. split.
  - unfold cc_handle_command. rewrite Hp. cbn [handle_kind]. by rewrite command_results_spec.
  - intros p h Hh Hc. unfold result_of. rewrite Hc. cbn [option_bind mbind]. rewrite parse_to_dec by done.
    eexists. split; [done|]. by case_bool_decide.
Qed.

(** * The order of addresses *)

(** An outcome after which no other address is tried. *)
Definition decisive {A} (r : res LibError A) : bool :=
  match r with Err (IdentityLevel _) | Err (ConnectTs _) => true | Err _ => false | _ => true end.

Definition error_of {A} (r : res LibError A) : option LibError := match r with Err e => Some e | _ => None end.

(** The reference: the outcome of the first address that is decisive. *)
Definition first_decisive (net : ConnectNet) (options : ConnectOptions) (addrs : list SocketAddr) (errors : list LibError)
    : res LibError (client * Book) :=
  match list_find (fun a => decisive (connect_to net options a) = true) addrs with
  | Some (_, a) => connect_to net options a
  | None => Err (ConnectFailed (opt_address options) (errors ++ omap (fun a => error_of (connect_to net options a)) addrs))
  end.

Lemma connect_loop_app net options addrs errors rest :
  connect_loop net options (oks addrs ++ rest) errors =
  match list_find (fun a => decisive (connect_to net options a) = true) addrs with
  | Some (_, a) => Some (connect_to net options a)
  | None => connect_loop net options rest (errors ++ omap (fun a => error_of (connect_to net options a)) addrs)
  end.
Proof.
  revert errors. induction addrs as [|a addrs IH]; intros errors; cbn; [by rewrite app_nil_r|].
  destruct (connect_to net options a) as [x|e|] eqn:Hc; cbn; rewrite ?Hc;
    [by rewrite decide_True, Hc| |by rewrite decide_True, Hc].
  assert (decisive (A := client * Book) (Err e) = false ->
    connect_loop net options (oks addrs ++ rest) (errors ++ [e]) =
    match (if decide (decisive (A := client * Book) (Err e) = true) then Some (0%nat, a)
      else prod_map S id <$> list_find (fun a => decisive (connect_to net options a) = true) addrs) with
    | Some (_, a) => Some (connect_to net options a)
    | None => connect_loop net options rest
        (errors ++ e :: omap (fun a => error_of (connect_to net options a)) addrs)
    end) as Hnext.
  { intros Hd. rewrite decide_False by (by rewrite Hd). rewrite IH, <- app_assoc.
    by destruct (list_find _ addrs) as [[i b]|]. }
  destruct e; try (apply Hnext; reflexivity); by rewrite decide_True, Hc.
Qed.

Lemma existsb_find {A} (f : A -> bool) l : existsb f l = is_some (list_find (fun x => f x = true) l).
Proof.
  induction l as [|x l IH]; [done|]. cbn. destruct (f x); [done|]. cbn. rewrite IH.
  by destruct (list_find _ l) as [[]|].
Qed.

(** C17.  Connecting tries the addresses in order: the result is that of the first address where it
    succeeds, panics, or where the server refuses or wants another identity level; if there is none
    it is the list of all errors.  The addresses after the first decisive one are never tried, nor is
    the answer of the resolver looked at: whatever follows, even an error or a request that never
    gets its answer, the result is the same.  An error of the resolver before that ends the attempt,
    and such a request before that keeps it waiting. *)
Theorem addresses_in_order net options addrs e rest :
  connect_loop net options (oks addrs) [] = Some (first_decisive net options addrs []) /\
  connect_loop net options (oks addrs ++ Answer (Err e) :: rest) [] =
    Some (if existsb (fun a => decisive (connect_to net options a)) addrs
      then first_decisive net options addrs [] else Err (ResolveAddress e)) /\
  connect_loop net options (oks addrs ++ Hung :: rest) [] =
    (if existsb (fun a => decisive (connect_to net options a)) addrs
     then Some (first_decisive net options addrs []) else None).
Proof.
  rewrite <- (app_nil_r (oks addrs)) at 1. rewrite !connect_loop_app, !existsb_find. unfold first_decisive.
  by destruct (list_find _ addrs) as [[i a]|].
Qed.

(** * The own client *)

(** A change of the server to a property of the own client that the library keeps to itself. *)
Inductive OwnChange :=
  | OwnInputMuted (b : bool)
  | OwnOutputMuted (b : bool)
  | OwnInputHardware (b : bool)
  | OwnOutputHardware (b : bool)
  | OwnOutputOnlyMuted (b : bool)
  | OwnAway (s : option (list Z)).

Definition set_own (ch : OwnChange) (c : Client) : Client :=
  match ch with
  | OwnInputMuted b => with_mutes c (set_input_muted b (cl_mutes c))
  | OwnOutputMuted b => with_mutes c (set_output_muted b (cl_mutes c))
  | OwnInputHardware b => with_mutes c (set_input_hardware_enabled b (cl_mutes c))
  | OwnOutputHardware b => with_mutes c (set_output_hardware_enabled b (cl_mutes c))
  | OwnOutputOnlyMuted b => with_mutes c (set_output_only_muted b (cl_mutes c))
  | OwnAway s => with_away c s
  end.

(** The same property with the value it has. *)
Definition old_own (ch : OwnChange) (c : Client) : OwnChange :=
  let m := cl_mutes c in
  match ch with
  | OwnInputMuted _ => OwnInputMuted (input_muted m)
  | OwnOutputMuted _ => OwnOutputMuted (output_muted m)
  | OwnInputHardware _ => OwnInputHardware (input_hardware_enabled m)
  | OwnOutputHardware _ => OwnOutputHardware (output_hardware_enabled m)
  | OwnOutputOnlyMuted _ => OwnOutputOnlyMuted (output_only_muted m)
  | OwnAway _ => OwnAway (cl_away_message c)
  end.

(** The event of the book for a change from this value. *)
Definition own_event (own_id : Z) (old : OwnChange) : Event :=
  match old with
  | OwnInputMuted b => PropertyChanged (PropClientInputMuted own_id) (ValBool b) None None
  | OwnOutputMuted b => PropertyChanged (PropClientOutputMuted own_id) (ValBool b) None None
  | OwnInputHardware b => PropertyChanged (PropClientInputHardwareEnabled own_id) (ValBool b) None None
  | OwnOutputHardware b => PropertyChanged (PropClientOutputHardwareEnabled own_id) (ValBool b) None None
  | OwnOutputOnlyMuted b => PropertyChanged (PropClientOutputOnlyMuted own_id) (ValBool b) None None
  | OwnAway s => PropertyChanged (PropClientAwayMessage own_id) (ValOptionString s) None None
  end.

Definition own_key (ch : OwnChange) : nat :=
  match ch with
  | OwnInputMuted _ => 0
  | OwnOutputMuted _ => 1
  | OwnInputHardware _ => 2
  | OwnOutputHardware _ => 3
  | OwnOutputOnlyMuted _ => 4
  | OwnAway _ => 5
  end.

(** A command of the server changes such properties and has other events. *)
Inductive BookUpdate :=
  | Own (ch : OwnChange)
  | Foreign (e : Event).

Definition foreign (own_id : Z) (u : BookUpdate) : Prop :=
  match u with Own _ => True | Foreign e => forall c, reset_own own_id e c = (true, c) end.

Fixpoint book_updates (own_id : Z) (l : list BookUpdate) (c : Client) : list Event * Client :=
  match l with
  | [] => ([], c)
  | Own ch :: l => let '(es, c') := book_updates own_id l (set_own ch c) in (own_event own_id (old_own ch c) :: es, c')
  | Foreign e :: l => let '(es, c') := book_updates own_id l c in (e :: es, c')
  end.

Definition foreign_event (u : BookUpdate) : option Event := match u with Own _ => None | Foreign e => Some e end.
Definition update_key (u : BookUpdate) : option nat := match u with Own ch => Some (own_key ch) | Foreign _ => None end.

Lemma reset_own_event own_id old c : reset_own own_id (own_event own_id old) c = (false, set_own old c).
Proof. destruct old; cbn; by rewrite Z.eqb_refl. Qed.

Lemma set_old_own ch c : set_own (old_own ch c) (set_own ch c) = c.
Proof. by destruct c as [????? [] ?????], ch. Qed.

Lemma set_own_comm a b c : own_key a <> own_key b -> set_own a (set_own b c) = set_own b (set_own a c).
Proof. by destruct c as [????? [] ?????], a, b. Qed.

Lemma old_own_other a b c : own_key a <> own_key b -> old_own a (set_own b c) = old_own a c.
Proof. by destruct c as [????? [] ?????], a, b. Qed.

Lemma own_key_old ch c : own_key (old_own ch c) = own_key ch.
Proof. by destruct ch. Qed.

(** An update of another property does not see the change, and commutes with it. *)
Lemma book_updates_set own_id ch l c : own_key ch ∉ omap update_key l ->
  book_updates own_id l (set_own ch c) = ((book_updates own_id l c).1, set_own ch (book_updates own_id l c).2).
Proof.
  revert c. induction l as [|[ch'|e] l IH]; intros c Hk; [done| |]; cbn [omap list_omap update_key book_updates] in *.
  - apply not_elem_of_cons in Hk as [Hk Hks]. rewrite set_own_comm, IH by done.
    rewrite old_own_other by done. by destruct (book_updates own_id l (set_own ch' c)).
  - rewrite IH by done. by destruct (book_updates own_id l c).
Qed.

(** What the server says about the mutes and the away message of the own client is taken back:
    if a command changes each of these properties at most once, the client is as before, and the user
    gets exactly the other events, in order.  If it changes one twice, the first new value stays. *)
Theorem own_state_kept own_id l c :
  Forall (foreign own_id) l ->
  (NoDup (omap update_key l) ->
     retain_events own_id (book_updates own_id l c).1 (book_updates own_id l c).2 = (omap foreign_event l, c)) /\
  (forall a b, own_key a = own_key b ->
     retain_events own_id (book_updates own_id [Own a; Own b] c).1 (book_updates own_id [Own a; Own b] c).2
       = ([], set_own a c)).
Proof.
  intros Hf. split.
  - intros Hn. revert c. induction l as [|[ch|e] l IH]; intros c; [done| |]; apply Forall_cons_1 in Hf as [He Hf];
      cbn [omap list_omap update_key foreign_event book_updates] in *.
    + apply NoDup_cons in Hn as [Hk Hn]. rewrite book_updates_set by done. cbn [fst snd retain_events].
      destruct (book_updates own_id l c) as [es c'] eqn:Hb. cbn [fst snd]. rewrite reset_own_event.
      replace (set_own (old_own ch c) (set_own ch c')) with c'; [|].
      { specialize (IH Hf Hn c). rewrite Hb in IH. cbn [fst snd] in IH. by rewrite IH. }
      pose proof (book_updates_set own_id (old_own ch c) l (set_own ch c)) as Hold.
      rewrite own_key_old, set_old_own, book_updates_set, Hb in Hold by done. by injection (Hold Hk).
    + specialize (IH Hf Hn c). destruct (book_updates own_id l c) as [es c'].
      cbn [fst snd retain_events] in *. by rewrite He, IH.
  - intros a b Hk. cbn [book_updates fst snd retain_events]. rewrite !reset_own_event. f_equal.
    by destruct c as [????? [] ?????], a, b.
Qed.

(** The away message of a command of the user: the message has to follow the away flag.  In
    the other order the message is lost and the user is away without a message. *)
Theorem away_message_order away message text u :
  ca_name away = byte_str "client_away" -> cv_raw (ca_value away) = byte_str "1" ->
  ca_name message = byte_str "client_away_message" -> CommandArgumentValue_get_str (ca_value message) = Ok text ->
  us_has_away_message u = false -> us_has_is_away u = false ->
  exists u1 u2,
    update_arguments [Argument away; Argument message] u = Ok u1 /\ opt_away (us_options u1) = Some text /\
    update_arguments [Argument message; Argument away] u = Ok u2 /\ opt_away (us_options u2) = Some [].
Proof.
  intros Hn1 Hv1 Hn2 Hv2 H1 H2.
  assert (forall v, opt_away (us_options (sync_away v)) = opt_away (us_options v) /\
    us_has_is_away (sync_away v) = us_has_is_away v /\ us_has_away_message (sync_away v) = us_has_away_message v) as Hsync.
  { intros v. unfold sync_away. destruct (us_own_client v); [|done]. by case_bool_decide. }
  assert (forall v, us_has_away_message v = false ->
    update_argument away v = Ok (sync_away (set_us_away v (Some []) false true))) as Haway.
  { intros v Hv. by unfold update_argument, arg_is; rewrite Hn1, Hv1, Hv. }
  assert (forall v, update_argument message v = Ok (sync_away
    (if us_has_is_away v && is_some (opt_away (us_options v)) then set_us_away v (Some text) true (us_has_is_away v) else v))) as Hmessage.
  { intros v. unfold update_argument, arg_is. rewrite Hn2, Hv2. cbn.
    by destruct (us_has_is_away v && _). }
  destruct (Hsync u) as (_ & _ & Hu).
  destruct (Hsync (set_us_away u (Some []) false true)) as (Ho & Hi & _).
  eexists _, _. cbn [update_arguments]. split.
  { rewrite Haway by done. cbn [res_bind]. rewrite Hmessage, Hi, Ho. reflexivity. }
  split; [by apply Hsync|]. split.
  { rewrite Hmessage, H2. cbn [andb res_bind]. rewrite Haway by (by rewrite Hu). reflexivity. }
  by apply Hsync.
Qed.

(** * Polling *)

Lemma handle_kind_ready {laws : ClientApiLaws} con book msg now l handled con' book' :
  handle_kind con book msg now = Ok (l, handled, con', book') -> (client_ready (cc_client con') <= client_ready (cc_client con))%nat.
Proof.
  intros Hk. destruct msg; cbn [handle_kind] in Hk;
    try (apply res_bind_ok in Hk as ([[l' h'] b'] & _ & Hk); by injection Hk as _ _ <- _).
  - destruct (command_results parts true). by injection Hk as _ _ <- _.
  - by injection Hk as _ _ <- _.
  - by injection Hk as _ _ <- _.
  - by injection Hk as _ _ <- _.
  - apply res_bind_ok in Hk as (part & _ & Hk).
    pose proof (client_send_ready (cc_client con) (encode_message (OutSetConnectionInfo part))) as Hr.
    destruct (client_send _ _) as [[|e|] cl]; [| |done]; by injection Hk as _ _ <- _.
Qed.

Lemma cc_handle_command_ready {laws : ClientApiLaws} con book items options data now h :
  cc_handle_command con book items options data now = Ok h ->
  (client_ready (cc_client (hd_con h)) <= client_ready (cc_client con))%nat.
Proof.
  unfold cc_handle_command. destruct (parse_message data) as [msg|]; [|by intros [= <-]].
  intros Hc. apply res_bind_ok in Hc as ([[[l handled] con1] book'] & Hk & Hc). apply handle_kind_ready in Hk.
  apply res_bind_ok in Hc as (con2 & H2 & Hc).
  assert (client_ready (cc_client con2) <= client_ready (cc_client con1))%nat as Hle.
  { destruct msg; try by injection H2 as <-. destruct (subscribed con1); [|by injection H2 as <-].
    revert H2. unfold send_ignored. pose proof (client_send_ready (cc_client con1)) as Hs. intros H2.
    match type of H2 with context [client_send ?c ?p] => specialize (Hs p); destruct (client_send c p) as [[|e|] cl] end;
      [..|done]; by injection H2 as <-. }
  match type of Hc with (if ?stop then _ else _) = _ => destruct stop end; injection Hc as <-; cbn; lia.
Qed.

Lemma connected_loop_returns {laws : ClientApiLaws} fuel env c con book :
  (client_ready (cc_client con) < fuel)%nat -> is_Some (connected_loop fuel env c con book).
Proof.
  revert c con book. induction fuel as [|fuel IH]; intros c con book Hf; [lia|]. cbn [connected_loop].
  destruct (client_poll (cc_client con)) as [r cl] eqn:Hp. destruct r as [| |e|i].
  - by destruct (find_transfer _ _ _) as [[]|].
  - done.
  - case_bool_decide; [done|]. destruct e as [| | | | | | | | | | | | | | | | |te|]; try done. by destruct te.
  - apply client_poll_ready in Hp. destruct i; try done; try (apply IH; cbn; lia).
    + destruct (cc_handle_command _ _ _ _ _ _) as [h|e|] eqn:Hc; [|done..].
      apply cc_handle_command_ready in Hc. cbn in Hc. destruct (hd_reason h); case_match; try done.
      apply IH. lia.
    + destruct (audio_accepted _ _ _) as [[]|e|]; try done. apply IH. cbn. lia.
Qed.

(** A poll of a connection ends: it returns after at most as many turns as the client has items
    ready, whatever commands arrive and whatever is sent as an answer. *)
Theorem lib_poll_returns {laws : ClientApiLaws} env c fuel :
  (match tc_state c with StConnected con _ => client_ready (cc_client con) | _ => 0 end < fuel)%nat ->
  is_Some (lib_poll_next fuel env c).
Proof.
  intros Hf. unfold lib_poll_next. destruct (tc_items c); [|done].
  destruct (tc_state c); [done..|]. by apply connected_loop_returns.
Qed.
End commands.

(** * Witnesses *)
#[local] Existing Instance release_profile.

#[export] Instance scripted_laws : ClientApiLaws.
Proof.
  refine {| client_ready := fun c => length (script c) |}.
  - intros [l s] i c'. destruct l as [|p l]; cbn; [done|]. intros [= -> <-]. cbn. lia.
  - intros [[|p l] s]; cbn; lia.
  - done.
Defined.

Definition idle_client (l : list ClientPoll) : ConnectedConnection := {|
  cc_client := {| script := l; sent := [] |}; cur_return_code := 0; cur_filetransfer_id := 0;
  subscribed := false; filetransfers := []; connection_time := 0 |}.

Definition idle_connection (l : list ClientPoll) : TsConnection := {|
  tc_state := StConnected (idle_client l) (plain_book three_channels); tc_options := local_options; tc_items := [] |}.

Definition chat : OutPacket := plain_command "sendtextmessage".

(** The connection after 65535 commands. *)
Definition last_code : TsConnection :=
  set_state (idle_connection []) (StConnected (set_codes (idle_client []) 65535 0) (plain_book three_channels)).

Lemma handles_in_order_witness : exists xs c',
  requests last_code [RqCommand chat; RqUpload 1 (byte_str "/f") None 8 true false; RqCommand chat] = (xs, c') /\
  xs !! 2%nat = Some (Ok 1) /\ xs !! 1%nat = Some (Ok 0) /\
  (forall h, xs !! 0%nat = Some (Ok h) -> h = 65535).
Proof.
  eexists _, _. split; [vm_compute; reflexivity|]. split; [reflexivity|]. split; [reflexivity|]. intros h Hh.
  destruct (handles_in_order last_code [RqCommand chat; RqUpload 1 (byte_str "/f") None 8 true false; RqCommand chat] 65535 0
    [Ok 65535; Ok 0; Ok 1] _ ltac:(by eexists _, _) ltac:(done) ltac:(done) ltac:(vm_compute; reflexivity)
    ltac:(by rewrite !not_elem_of_cons; split_and!; try done; apply not_elem_of_nil)) as (Hhandle & _).
  exact (Hhandle 0%nat _ h eq_refl Hh).
Defined.

Lemma answers_delivered_witness :
  cc_handle_command (idle_client []) (plain_book three_channels) [] local_options (byte_str "error") 0 = Ok {|
    hd_con := idle_client []; hd_book := plain_book three_channels; hd_options := local_options; hd_reason := None;
    hd_items := [Ok (MessageResult 7 (Some {| cmd_error := ClientCouldNotValidateIdentity; missing_permission := None |}))] |}
  /\ exists r, result_of denied = Some (MessageResult 7 r) /\ (r = None <-> ce_id denied = TsServerError_Ok).
Proof.
  destruct (answers_delivered (msgs := stop_message) (idle_client []) (plain_book three_channels) [] local_options (byte_str "error") 0 [denied]
    eq_refl) as [Hc Hr].
  split; [exact Hc|]. apply (Hr denied 7); [done|reflexivity].
Defined.

Lemma own_state_kept_witness :
  retain_events 1
    [own_event 1 (OwnInputMuted false); PropertyAdded PropServer None None; own_event 1 (OwnAway None)]
    (set_own (OwnAway (Some [])) (set_own (OwnInputMuted true) (plain_client 1 7 [])))
  = ([PropertyAdded PropServer None None], plain_client 1 7 []).
Proof.
  eapply (own_state_kept 1 [Own (OwnInputMuted true); Foreign (PropertyAdded PropServer None None); Own (OwnAway (Some []))]).
  - by repeat constructor.
  - apply NoDup_cons. split; [by intros ?%list_elem_of_singleton|]. apply NoDup_singleton.
Defined.

Definition away_argument : CommandArgument :=
  {| ca_name := byte_str "client_away"; ca_value := {| cv_raw := byte_str "1"; cv_escapes := 0 |} |}.
Definition message_argument : CommandArgument :=
  {| ca_name := byte_str "client_away_message"; ca_value := {| cv_raw := byte_str "lunch"; cv_escapes := 0 |} |}.
Definition no_update : UpdateState := {|
  us_options := local_options; us_own_client := None; us_has_away_message := false; us_has_is_away := false;
  us_events := [] |}.

Lemma away_message_order_witness : exists u1 u2,
  update_arguments [Argument away_argument; Argument message_argument] no_update = Ok u1 /\
  opt_away (us_options u1) = Some (byte_str "lunch") /\
  update_arguments [Argument message_argument; Argument away_argument] no_update = Ok u2 /\
  opt_away (us_options u2) = Some [].
Proof. apply (away_message_order away_argument message_argument (byte_str "lunch") no_update); reflexivity. Defined.

Lemma lib_poll_returns_witness :
  is_Some (lib_poll_next 3 stopping (idle_connection [ClientItem Item_NetworkStatsUpdated; ClientItem (Item_Command (byte_str "stop"))])).
Proof. apply lib_poll_returns. cbn. lia. Defined.
