(* ===== verification/Sync.v ===== *)
(** The connection that is used through handles ([tsclientlib/src/sync.rs]).  A request comes with the
    sender of a oneshot channel, here a promise; the connection keeps it until the answer arrives.
    The answers that were sent are logged; a sender that is dropped gives its receiver the error that
    the connection is gone.  The connection itself holds a sender of the channel of requests, so
    that channel never ends; the requests that are ready are an argument of the poll. *)
From stdpp Require Import strings gmap.
From S2P Require Import Prelude Packets InitPackets AudioData Commands Connection Text.
From S2P Require Import CryptoLib Crypto Identity License Client Resolver Book BookSend Options Library.
#[local] Open Scope Z_scope.

Section sync.
Context {prof : Profile} {b64 : Base64Enc} {sha : Sha1} {asn : Asn1} {bigio : BigIntIo}.
Context {p256 : P256} {decls : Declarations} {versions : Versions} {api : ClientApi} {msgs : Messages} {gen : Generated}.

Inductive SyncStreamItem :=
  | SyncBookEvents (l : list Event)
  | SyncMessageEvent (m : InMessage)
  | SyncAudio (data : list Z) (audio : AudioData)
  | SyncIdentityLevelIncreasing (needed : Z)
  | SyncIdentityLevelIncreased
  | SyncDisconnectedTemporarily (reason : TemporaryDisconnectReason)
  | SyncNetworkStatsUpdated
  | SyncAudioChange (e : AudioEvent).

(** What a receiver gets. *)
Inductive Answer :=
  | AnsUnit (r : res LibError unit)
  | AnsDownload (r : res LibError (Z * TcpStream))
  | AnsUpload (r : res LibError (Z * TcpStream))
  | AnsGone.

Record SyncConnection := {
  sy_con : TsConnection;
  sy_commands : gmap Z Z;
  sy_connects : list Z;
  sy_disconnects : list Z;
  sy_downloads : gmap Z Z;
  sy_uploads : gmap Z Z;
  sy_answers : list (Z * Answer);
}.

Inductive SyncConMessage :=
  | RunFn (f : SyncConnection -> SyncConnection)
  | SendCommand (arg : OutPacket) (send : Z)
  | WaitConnected (send : Z)
  | Disconnect (arg : DisconnectOptions) (send : Z)
  | DownloadFile (channel_id : Z) (path : list Z) (channel_password : option (list Z))
      (seek_position : option Z) (send : Z)
  | UploadFile (channel_id : Z) (path : list Z) (channel_password : option (list Z)) (size : Z)
      (overwrite resume : bool) (send : Z).

(** [From<Connection>] *)
Definition sync_from (con : TsConnection) : SyncConnection := {|
  sy_con := con; sy_commands := ∅; sy_connects := []; sy_disconnects := [];
  sy_downloads := ∅; sy_uploads := ∅; sy_answers := [] |}.

Definition sy_set_con (s : SyncConnection) (con : TsConnection) : SyncConnection := {|
  sy_con := con; sy_commands := sy_commands s; sy_connects := sy_connects s; sy_disconnects := sy_disconnects s;
  sy_downloads := sy_downloads s; sy_uploads := sy_uploads s; sy_answers := sy_answers s |}.
Definition sy_set_commands (s : SyncConnection) (m : gmap Z Z) : SyncConnection := {|
  sy_con := sy_con s; sy_commands := m; sy_connects := sy_connects s; sy_disconnects := sy_disconnects s;
  sy_downloads := sy_downloads s; sy_uploads := sy_uploads s; sy_answers := sy_answers s |}.
Definition sy_set_connects (s : SyncConnection) (l : list Z) : SyncConnection := {|
  sy_con := sy_con s; sy_commands := sy_commands s; sy_connects := l; sy_disconnects := sy_disconnects s;
  sy_downloads := sy_downloads s; sy_uploads := sy_uploads s; sy_answers := sy_answers s |}.
Definition sy_set_disconnects (s : SyncConnection) (l : list Z) : SyncConnection := {|
  sy_con := sy_con s; sy_commands := sy_commands s; sy_connects := sy_connects s; sy_disconnects := l;
  sy_downloads := sy_downloads s; sy_uploads := sy_uploads s; sy_answers := sy_answers s |}.
Definition sy_set_downloads (s : SyncConnection) (m : gmap Z Z) : SyncConnection := {|
  sy_con := sy_con s; sy_commands := sy_commands s; sy_connects := sy_connects s; sy_disconnects := sy_disconnects s;
  sy_downloads := m; sy_uploads := sy_uploads s; sy_answers := sy_answers s |}.
Definition sy_set_uploads (s : SyncConnection) (m : gmap Z Z) : SyncConnection := {|
  sy_con := sy_con s; sy_commands := sy_commands s; sy_connects := sy_connects s; sy_disconnects := sy_disconnects s;
  sy_downloads := sy_downloads s; sy_uploads := m; sy_answers := sy_answers s |}.

Definition sy_answer (s : SyncConnection) (send : Z) (a : Answer) : SyncConnection := {|
  sy_con := sy_con s; sy_commands := sy_commands s; sy_connects := sy_connects s; sy_disconnects := sy_disconnects s;
  sy_downloads := sy_downloads s; sy_uploads := sy_uploads s; sy_answers := sy_answers s ++ [(send, a)] |}.

Definition sy_answer_all (s : SyncConnection) (l : list Z) (a : Answer) : SyncConnection :=
  foldl (fun s send => sy_answer s send a) s l.

(** An insert drops the sender that was there. *)
Definition dropped (s : SyncConnection) (old : option Z) : SyncConnection :=
  match old with Some send => sy_answer s send AnsGone | None => s end.

Definition insert_command (s : SyncConnection) (handle send : Z) : SyncConnection :=
  dropped (sy_set_commands s (<[handle := send]> (sy_commands s))) (sy_commands s !! handle).
Definition insert_download (s : SyncConnection) (handle send : Z) : SyncConnection :=
  dropped (sy_set_downloads s (<[handle := send]> (sy_downloads s))) (sy_downloads s !! handle).
Definition insert_upload (s : SyncConnection) (handle send : Z) : SyncConnection :=
  dropped (sy_set_uploads s (<[handle := send]> (sy_uploads s))) (sy_uploads s !! handle).

(** The handle of a request is kept with its promise; an error is the answer. *)
Definition track {A} (s : SyncConnection) (r : res LibError A) (keep : A -> SyncConnection)
    (failed : LibError -> SyncConnection) : res LibError SyncConnection :=
  match r with
  | Ok handle => Ok (keep handle)
  | Err e => Ok (failed e)
  | Panic => Panic
  end.

(** ** Requests *)
Definition handle_sync_message (m : SyncConMessage) (s : SyncConnection) : res LibError SyncConnection :=
  match m with
  | RunFn f => Ok (f s)
  | SendCommand arg send =>
      let '(r, con) := send_command_with_result (sy_con s) arg in
      let s := sy_set_con s con in
      track s r (fun handle => insert_command s handle send) (fun e => sy_answer s send (AnsUnit (Err e)))
  | WaitConnected send =>
      match get_state (sy_con s) with
      | Ok _ => Ok (sy_answer s send (AnsUnit (Ok tt)))
      | _ => Ok (sy_set_connects s (sy_connects s ++ [send]))
      end
  | Disconnect arg send =>
      let '(r, con) := lib_disconnect (sy_con s) arg in
      let s := sy_set_con s con in
      track s r (fun _ => sy_set_disconnects s (sy_disconnects s ++ [send]))
        (fun e => sy_answer s send (AnsUnit (Err e)))
  | DownloadFile channel_id path channel_password seek_position send =>
      let '(r, con) := download_file (sy_con s) channel_id path channel_password seek_position in
      let s := sy_set_con s con in
      track s r (fun handle => insert_download s handle send) (fun e => sy_answer s send (AnsDownload (Err e)))
  | UploadFile channel_id path channel_password size overwrite resume send =>
      let '(r, con) := upload_file (sy_con s) channel_id path channel_password size overwrite resume in
      let s := sy_set_con s con in
      track s r (fun handle => insert_upload s handle send) (fun e => sy_answer s send (AnsUpload (Err e)))
  end.

Fixpoint handle_sync_messages (l : list SyncConMessage) (s : SyncConnection) : res LibError SyncConnection :=
  match l with
  | [] => Ok s
  | m :: l => let? s := handle_sync_message m s in handle_sync_messages l s
  end.

(** ** Items *)

(** An item of the connection: the item for the user, or [None] when the loop continues. *)
Definition sync_item (i : LibItem) (s : SyncConnection) : option SyncStreamItem * SyncConnection :=
  match i with
  | BookEvents l =>
      (Some (SyncBookEvents l), sy_answer_all (sy_set_connects s []) (sy_connects s) (AnsUnit (Ok tt)))
  | MessageEvent m => (Some (SyncMessageEvent m), s)
  | AudioItem data audio => (Some (SyncAudio data audio), s)
  | IdentityLevelIncreasing needed => (Some (SyncIdentityLevelIncreasing needed), s)
  | IdentityLevelIncreased => (Some SyncIdentityLevelIncreased, s)
  | DisconnectedTemporarily reason => (Some (SyncDisconnectedTemporarily reason), s)
  | MessageResult handle r =>
      (None, match sy_commands s !! handle with
             | Some send =>
                 sy_answer (sy_set_commands s (delete handle (sy_commands s))) send
                   (AnsUnit (match r with Some e => Err (ErrCommand e) | None => Ok tt end))
             | None => s
             end)
  | FileDownloaded handle size stream =>
      (None, match sy_downloads s !! handle with
             | Some send =>
                 sy_answer (sy_set_downloads s (delete handle (sy_downloads s))) send (AnsDownload (Ok (size, stream)))
             | None => s
             end)
  | FileUploaded handle seek_position stream =>
      (None, match sy_uploads s !! handle with
             | Some send =>
                 sy_answer (sy_set_uploads s (delete handle (sy_uploads s))) send (AnsUpload (Ok (seek_position, stream)))
             | None => s
             end)
  | FiletransferFailed handle e =>
      (None, match sy_downloads s !! handle with
             | Some send =>
                 sy_answer (sy_set_downloads s (delete handle (sy_downloads s))) send (AnsDownload (Err e))
             | None =>
                 match sy_uploads s !! handle with
                 | Some send =>
                     sy_answer (sy_set_uploads s (delete handle (sy_uploads s))) send (AnsUpload (Err e))
                 | None => s
                 end
             end)
  | NetworkStatsUpdated => (Some SyncNetworkStatsUpdated, s)
  | AudioChange e => (Some (SyncAudioChange e), s)
  end.

Inductive SyncPoll :=
  | SyncPending
  | SyncEnd
  | SyncReady (r : res LibError SyncStreamItem).

(** The second loop; [None] when out of fuel. *)
Fixpoint sync_loop (fuel : nat) (env : PollEnv) (s : SyncConnection) : option (res LibError (SyncPoll * SyncConnection)) :=
  match fuel with
  | O => None
  | S fuel' =>
      match lib_poll_next fuel env (sy_con s) with
      | None => None
      | Some (Ok (p, con)) =>
          let s := sy_set_con s con in
          match p with
          | LibPending => Some (Ok (SyncPending, s))
          | LibEnd => Some (Ok (SyncEnd, sy_answer_all (sy_set_disconnects s []) (sy_disconnects s) (AnsUnit (Ok tt))))
          | LibReady (Ok i) =>
              match sync_item i s with
              | (Some i, s) => Some (Ok (SyncReady (Ok i), s))
              | (None, s) => sync_loop fuel' env s
              end
          | LibReady (Err e) => Some (Ok (SyncReady (Err e), s))
          | LibReady Panic => Some Panic
          end
      | Some _ => Some Panic
      end
  end.

(** [SyncConnection::poll_next] with the requests that are ready. *)
Definition sync_poll_next (fuel : nat) (env : PollEnv) (received : list SyncConMessage) (s : SyncConnection)
    : option (res LibError (SyncPoll * SyncConnection)) :=
  match handle_sync_messages received s with
  | Ok s => sync_loop fuel env s
  | _ => Some Panic
  end.
End sync.
