(* ===== verification/SyncSpec.v ===== *)
(** Properties of the connection with handles: no promise is lost or answered twice, who waits for the
    connection is told when it is there, a poll ends; and which answers of the server do not find their
    promise. *)
From stdpp Require Import strings gmap.
From Stdlib Require Import Permutation.
From S2P Require Import Prelude Packets InitPackets AudioData Commands Connection Text Resend.
From S2P Require Import CryptoLib Crypto Identity License Client Resolver Book BookSend Options Library Sync.
From S2P Require Import IdentityLevel BookSpec BookMessages LibrarySpec LibraryCommands.
#[local] Open Scope Z_scope.

(** * Promises *)

(** The promises that a map holds. *)
Definition held (m : gmap Z Z) : list Z := (map_to_list m).*2.

Lemma held_lookup m k x : m !! k = Some x -> Permutation (held m) (x :: held (delete k m)).
Proof. intros Hk. unfold held. by rewrite <- (map_to_list_delete m k x Hk). Qed.

Lemma held_insert m k x : Permutation (held (<[k := x]> m)) (x :: held (delete k m)).
Proof.
  unfold held. rewrite <- insert_delete_eq, map_to_list_insert by apply lookup_delete_eq. done.
Qed.

Lemma held_delete_none (m : gmap Z Z) k : m !! k = None -> delete k m = m.
Proof. apply delete_id. Qed.

Definition cnt (x : Z) (l : list Z) : nat := count_occ Z.eq_dec l x.

Lemma cnt_app x l k : cnt x (l ++ k) = (cnt x l + cnt x k)%nat.
Proof. apply count_occ_app. Qed.

Lemma cnt_held_insert x m k v :
  cnt x (held (<[k := v]> m)) = (cnt x [v] + cnt x (held (delete k m)))%nat.
Proof.
  unfold cnt. rewrite <- count_occ_app. cbn [app]. revert x. apply Permutation_count_occ, held_insert.
Qed.

Lemma cnt_held_lookup x m k v : m !! k = Some v -> cnt x (held m) = (cnt x [v] + cnt x (held (delete k m)))%nat.
Proof.
  intros Hk. unfold cnt. rewrite <- count_occ_app. cbn [app]. revert x.
  by apply Permutation_count_occ, held_lookup.
Qed.

Section promises.
Context {prof : Profile} {b64 : Base64Enc} {sha : Sha1} {asn : Asn1} {bigio : BigIntIo}.
Context {p256 : P256} {decls : Declarations} {versions : Versions} {api : ClientApi} {msgs : Messages} {gen : Generated}.

Definition pending (s : SyncConnection) : list Z :=
  held (sy_commands s) ++ sy_connects s ++ sy_disconnects s ++ held (sy_downloads s) ++ held (sy_uploads s).

Definition answered (s : SyncConnection) : list Z := (sy_answers s).*1.

Definition promise_of (m : SyncConMessage) : option Z :=
  match m with
  | RunFn _ => None
  | SendCommand _ send | WaitConnected send | Disconnect _ send | DownloadFile _ _ _ _ send
  | UploadFile _ _ _ _ _ _ send => Some send
  end.

(** A function that is run on the connection does not touch the promises. *)
Definition keeps_promises (m : SyncConMessage) : Prop :=
  match m with
  | RunFn f => forall s, pending (f s) ++ answered (f s) = pending s ++ answered s
  | _ => True
  end.

(** Read the fields of a changed connection. *)
Ltac sync_fields :=
  unfold answered;
  cbn [sy_con sy_commands sy_connects sy_disconnects sy_downloads sy_uploads sy_answers sy_answer sy_set_con
    sy_set_commands sy_set_connects sy_set_disconnects sy_set_downloads sy_set_uploads];
  rewrite ?fmap_app, ?cnt_app.

(** How often a promise is pending or answered. *)
Definition owned (x : Z) (s : SyncConnection) : nat := cnt x (pending s ++ answered s).

Lemma owned_eq x s : owned x s =
  (cnt x (held (sy_commands s)) + cnt x (sy_connects s) + cnt x (sy_disconnects s)
   + cnt x (held (sy_downloads s)) + cnt x (held (sy_uploads s)) + cnt x (answered s))%nat.
Proof. unfold owned, pending. rewrite !cnt_app. lia. Qed.

Lemma owned_answer x s send a : owned x (sy_answer s send a) = (owned x s + cnt x [send])%nat.
Proof. rewrite !owned_eq. sync_fields. cbn. lia. Qed.

Lemma owned_answer_all x s l a : owned x (sy_answer_all s l a) = (owned x s + cnt x l)%nat.
Proof.
  unfold sy_answer_all. revert s. induction l as [|y l IH]; intros s; [cbn; lia|].
  cbn [foldl]. rewrite IH, owned_answer. change (y :: l) with ([y] ++ l). rewrite (cnt_app x [y] l). lia.
Qed.

Lemma owned_con x s con : owned x (sy_set_con s con) = owned x s.
Proof. by rewrite !owned_eq. Qed.

(** An insert into one of the maps. *)
Ltac owned_insert :=
  intros; rewrite !owned_eq; unfold insert_command, insert_download, insert_upload, dropped;
  match goal with |- context [?m !! ?k] => destruct (m !! k) as [old|] eqn:? end;
  sync_fields; rewrite cnt_held_insert;
  [match goal with H : _ !! _ = Some _ |- _ => rewrite (cnt_held_lookup _ _ _ _ H) end; cbn; lia
  |rewrite held_delete_none by done; lia].

Lemma owned_insert_command x s k v : owned x (insert_command s k v) = (owned x s + cnt x [v])%nat.
Proof. owned_insert. Qed.
Lemma owned_insert_download x s k v : owned x (insert_download s k v) = (owned x s + cnt x [v])%nat.
Proof. owned_insert. Qed.
Lemma owned_insert_upload x s k v : owned x (insert_upload s k v) = (owned x s + cnt x [v])%nat.
Proof. owned_insert. Qed.

Lemma track_owned {A} x s0 send (r : res LibError A) keep failed s s' :
  (forall a, owned x (keep a) = (owned x s0 + cnt x [send])%nat) ->
  (forall e, owned x (failed e) = (owned x s0 + cnt x [send])%nat) ->
  track s r keep failed = Ok s' -> owned x s' = (owned x s0 + cnt x [send])%nat.
Proof. intros Hk Hf. destruct r; cbn; by intros [= <-]. Qed.

Lemma handle_sync_message_owned x m s s' :
  keeps_promises m -> handle_sync_message m s = Ok s' ->
  owned x s' = (owned x s + match promise_of m with Some p => cnt x [p] | None => 0 end)%nat.
Proof.
  intros Hm. destruct m as [f|arg send|send|arg send|id path pw pos send|id path pw size ow re send]; cbn [handle_sync_message promise_of].
  - intros [= <-]. unfold owned. rewrite (Hm s). lia.
  - destruct (send_command_with_result _ _) as [r con].
    apply track_owned; intros; by rewrite ?owned_insert_command, ?owned_answer, owned_con.
  - destruct (get_state _); intros [= <-]; [apply owned_answer|..];
      rewrite !owned_eq; sync_fields; lia.
  - destruct (lib_disconnect _ _) as [r con]. apply track_owned; intros.
    + rewrite !owned_eq. sync_fields. lia.
    + by rewrite owned_answer, owned_con.
  - destruct (download_file _ _ _ _ _) as [r con].
    apply track_owned; intros; by rewrite ?owned_insert_download, ?owned_answer, owned_con.
  - destruct (upload_file _ _ _ _ _ _ _) as [r con].
    apply track_owned; intros; by rewrite ?owned_insert_upload, ?owned_answer, owned_con.
Qed.

Lemma handle_sync_messages_owned x l s s' :
  Forall keeps_promises l -> handle_sync_messages l s = Ok s' ->
  owned x s' = (owned x s + cnt x (omap promise_of l))%nat.
Proof.
  revert s. induction l as [|m l IH]; intros s Hl; cbn [handle_sync_messages].
  { intros [= <-]. cbn. lia. }
  apply Forall_cons_1 in Hl as [Hm Hl]. intros Hs. apply res_bind_ok in Hs as (s1 & H1 & Hs).
  rewrite (IH s1 Hl Hs), (handle_sync_message_owned x m s s1 Hm H1). cbn [omap list_omap].
  destruct (promise_of m) as [p|]; [|lia]. change (p :: omap promise_of l) with ([p] ++ omap promise_of l).
  rewrite (cnt_app x [p]). lia.
Qed.

Lemma sync_item_owned x i s : owned x (sync_item i s).2 = owned x s.
Proof.
  destruct i; cbn [sync_item snd]; try done.
  - rewrite owned_answer_all, !owned_eq. sync_fields. cbn. lia.
  - destruct (sy_commands s !! _) as [v|] eqn:Hk; [|done].
    rewrite owned_answer, !owned_eq, (cnt_held_lookup x _ _ _ Hk). sync_fields. lia.
  - destruct (sy_downloads s !! _) as [v|] eqn:Hk; [|done].
    rewrite owned_answer, !owned_eq, (cnt_held_lookup x (sy_downloads s) _ _ Hk). sync_fields. lia.
  - destruct (sy_uploads s !! _) as [v|] eqn:Hk; [|done].
    rewrite owned_answer, !owned_eq, (cnt_held_lookup x (sy_uploads s) _ _ Hk). sync_fields. lia.
  - destruct (sy_downloads s !! _) as [v|] eqn:Hk.
    { rewrite owned_answer, !owned_eq, (cnt_held_lookup x (sy_downloads s) _ _ Hk). sync_fields. lia. }
    destruct (sy_uploads s !! _) as [v|] eqn:Hu; [|done].
    rewrite owned_answer, !owned_eq, (cnt_held_lookup x (sy_uploads s) _ _ Hu). sync_fields. lia.
Qed.

Lemma sync_loop_owned x fuel env s p s' : sync_loop fuel env s = Some (Ok (p, s')) -> owned x s' = owned x s.
Proof.
  revert s. induction fuel as [|fuel IH]; intros s; [done|]. cbn [sync_loop].
  destruct (lib_poll_next _ _ _) as [[[q con]|e|]|]; [|done..]. destruct q as [| |[i|e|]].
  - intros [= <- <-]. apply owned_con.
  - intros [= <- <-]. rewrite owned_answer_all, !owned_eq. sync_fields. cbn. lia.
  - pose proof (sync_item_owned x i (sy_set_con s con)) as Hi. rewrite owned_con in Hi.
    destruct (sync_item i _) as [[j|] s1]; cbn [snd] in Hi.
    + by intros [= <- <-].
    + intros Hl. by rewrite (IH s1 Hl), Hi.
  - intros [= <- <-]. apply owned_con.
  - done.
Qed.

(** C5.  No promise is lost and none is answered twice: after a poll the promises that wait and those
    that were answered are together the ones from before and those of the requests that were taken in,
    each as often as it was there.  In particular a new promise is then either kept, with a handle or
    in one of the lists, or answered. *)
Theorem promises_kept fuel env received s p s' :
  Forall keeps_promises received ->
  sync_poll_next fuel env received s = Some (Ok (p, s')) ->
  Permutation (pending s' ++ answered s') (omap promise_of received ++ pending s ++ answered s).
Proof.
  intros Hf Hp. unfold sync_poll_next in Hp. apply (Permutation_count_occ Z.eq_dec). intros x.
  destruct (handle_sync_messages received s) as [s1|e|] eqn:Hs; [|done..].
  apply (handle_sync_messages_owned x) in Hs; [|done]. apply (sync_loop_owned x) in Hp.
  change (owned x s' = cnt x (omap promise_of received ++ (pending s ++ answered s))).
  rewrite cnt_app. change (cnt x (pending s ++ answered s)) with (owned x s). lia.
Qed.
End promises.

(** * Waiting for the connection *)
Section waiting.
Context {prof : Profile} {b64 : Base64Enc} {sha : Sha1} {asn : Asn1} {bigio : BigIntIo}.
Context {p256 : P256} {decls : Declarations} {versions : Versions} {api : ClientApi} {msgs : Messages} {gen : Generated}.

Definition connected (c : TsConnection) : bool := match tc_state c with StConnected _ _ => true | _ => false end.

Definition no_book (i : res LibError LibItem) : Prop := match i with Ok (BookEvents _) => False | _ => True end.

(** Without a connection no events of the book wait. *)
Definition lib_inv (c : TsConnection) : Prop := connected c = false -> Forall no_book (tc_items c).

Definition is_book (p : LibPoll) : bool := match p with LibReady (Ok (BookEvents _)) => true | _ => false end.

Lemma audio_changes_no_book s r s' r' : Forall no_book (audio_changes s r s' r').
Proof. destruct s, r, s', r'; by repeat constructor. Qed.

Lemma handle_book_message_items book msg since l handled book' :
  handle_book_message book msg since = Ok (l, handled, book') -> l = [] \/ exists es, l = [Ok (BookEvents es)].
Proof.
  unfold handle_book_message. intros Hm. apply res_bind_ok in Hm as ([[events bh] b] & _ & Hm).
  destruct events as [|e events]; [injection Hm as <- _ _; by left|]. right.
  destruct (clients _ !! _) as [c|].
  - destruct (retain_events _ _ c) as [es c']. injection Hm as <- _ _. by eexists.
  - injection Hm as <- _ _. by eexists.
Qed.

(** When the server stops the events of the book come first, and at most once. *)
Lemma stop_items con book options data now h reason :
  cc_handle_command con book [] options data now = Ok h -> hd_reason h = Some reason ->
  hd_items h = [] \/ exists es, hd_items h = [Ok (BookEvents es)].
Proof.
  unfold cc_handle_command. destruct (parse_message data) as [msg|]; [|by intros [= <-]].
  intros Hc Hr. apply res_bind_ok in Hc as ([[[l handled] con1] book'] & Hk & Hc).
  apply res_bind_ok in Hc as (con2 & _ & Hc).
  destruct msg; try (by injection Hc as <-). destruct (existsb _ parts); injection Hc as <-; [|done].
  cbn [handle_kind] in Hk. apply res_bind_ok in Hk as ([[l' h'] b'] & Hb & Hk). injection Hk as <- _ _ _.
  cbn. by apply handle_book_message_items in Hb.
Qed.

Lemma connected_loop_inv fuel env c con book p c' :
  tc_items c = [] -> connected_loop fuel env c con book = Some (Ok (p, c')) -> lib_inv c'.
Proof.
  revert c con book. induction fuel as [|fuel IH]; intros c con book Hi; [done|]. cbn [connected_loop].
  destruct (client_poll (cc_client con)) as [r cl]. destruct r as [| |e|i].
  - destruct (find_transfer _ _ _) as [[item l]|]; by intros [= <- <-].
  - by intros [= <- <-].
  - case_bool_decide; [by intros [= <- <-]|].
    destruct e as [| | | | | | | | | | | | | | | | |te|]; try (by intros [= <- <-]).
    destruct te; try (by intros [= <- <-]). intros [= <- <-] _. cbn. by rewrite Hi.
  - destruct i; try (by apply IH).
    + cbn [tc_items tc_options set_state]. rewrite Hi.
      destruct (cc_handle_command _ _ _ _ _ _) as [h|e|] eqn:Hc; [|done..].
      destruct (hd_reason h) as [reason|] eqn:Hreason.
      * pose proof (stop_items _ _ _ _ _ _ _ Hc Hreason) as Hitems.
        pose proof (audio_changes_no_book (intern_can_send_audio book (tc_options c))
          (intern_can_receive_audio book (tc_options c)) false false) as Ha.
        match goal with |- context [tc_items ?c1] => destruct (tc_items c1) as [|item items] eqn:Heq; [done|] end.
        intros [= <- <-] _. cbn in Heq |- *.
        assert (Forall no_book (audio_changes (intern_can_send_audio book (tc_options c))
          (intern_can_receive_audio book (tc_options c)) false false ++ [Ok (DisconnectedTemporarily reason)])) as Hall.
        { apply Forall_app. by repeat constructor. }
        destruct Hitems as [Hn|[es Hn]]; rewrite Hn in Heq; cbn in Heq.
        -- rewrite Heq in Hall. by apply Forall_cons_1 in Hall as [_ Hall].
        -- by injection Heq as _ <-.
      * match goal with |- context [tc_items ?c1] => destruct (tc_items c1) as [|item items] eqn:Heq end;
          [by apply IH|by intros [= <- <-]].
    + destruct (audio_accepted _ _ _) as [[]|e|]; [by intros [= <- <-]|by apply IH|done..].
    + by intros [= <- <-].
Qed.

Lemma lib_poll_inv fuel env c p c' :
  lib_inv c -> lib_poll_next fuel env c = Some (Ok (p, c')) ->
  lib_inv c' /\ (connected c = false -> connected c' = is_book p).
Proof.
  unfold lib_poll_next, lib_inv. intros Hinv Hp. destruct (tc_items c) as [|item items] eqn:Hi.
  2: { injection Hp as <- <-. unfold connected in *. cbn [tc_state tc_items]. split.
       - intros Hn. specialize (Hinv Hn). by apply Forall_cons_1 in Hinv as [_ ?].
       - intros Hn. specialize (Hinv Hn). apply Forall_cons_1 in Hinv as [Hitem _]. rewrite Hn.
         by destruct item as [[]| |]. }
  destruct (tc_state c) as [f reconnect|identity needed canceled|con book] eqn:Hst.
  - injection Hp as Hp. unfold connected. rewrite Hst.
    apply poll_connecting_cases in Hp as [(-> & Hn & Hp)|(con & book & -> & -> & _)]; rewrite ?Hi; [|done].
    split; [done|]. intros _. destruct (tc_state c') as [| |con book]; [..|by destruct (Hn con book)];
      by destruct Hp as [->|[[level ->]|[e ->]]].
  - unfold poll_identity in Hp. unfold connected.
    destruct (pe_identity env identity needed) as [[i|]|]; injection Hp as <- <-; cbn; rewrite ?Hi, ?Hst; done.
  - pose proof (connected_loop_inv fuel env c con book p c' Hi Hp) as Hc. split; [done|].
    unfold connected at 1. by rewrite Hst.
Qed.

(** While connected nobody waits for the connection. *)
Definition sync_inv (s : SyncConnection) : Prop :=
  lib_inv (sy_con s) /\ (connected (sy_con s) = true -> sy_connects s = []).

(** A change of the library connection that neither connects nor disconnects. *)
Definition same_connection (c c' : TsConnection) : Prop :=
  connected c' = connected c /\ (connected c = false -> tc_items c' = tc_items c).

(** A function that is run on the connection sends something. *)
Definition only_sends (m : SyncConMessage) : Prop :=
  match m with
  | RunFn f => forall s, exists con, f s = sy_set_con s con /\ same_connection (sy_con s) con
  | _ => True
  end.

Lemma same_connection_inv c c' : same_connection c c' -> lib_inv c -> lib_inv c'.
Proof. unfold same_connection, lib_inv. intros [-> Hi] Hl Hn. rewrite Hi by done. by apply Hl. Qed.

Lemma when_connected_same {A} c (f : ConnectedConnection -> res LibError A * ConnectedConnection) :
  same_connection c (when_connected c f).2.
Proof.
  unfold same_connection, when_connected, connected. destruct (tc_state c) as [| |con book] eqn:Hst; cbn; rewrite ?Hst; [done..|].
  by destruct (f con).
Qed.

Lemma update_same c cmd c' : update_on_outgoing_command c cmd = Ok c' -> same_connection c c'.
Proof.
  unfold update_on_outgoing_command, same_connection, connected. intros Hu.
  destruct (tc_state c) as [| |con book] eqn:Hst; [injection Hu as <-; by rewrite ?Hst..|].
  split; [|done]. apply res_bind_ok in Hu as ([name items] & _ & Hu).
  case_bool_decide; [by injection Hu as <-|]. case_bool_decide; [by injection Hu as <-|].
  case_bool_decide; [|injection Hu as <-; by rewrite ?Hst].
  apply res_bind_ok in Hu as (u & _ & Hu). injection Hu as <-. by destruct (us_events u).
Qed.

Lemma send_with_result_same c packet : same_connection c (send_command_with_result c packet).2.
Proof.
  unfold send_command_with_result. destruct (update_on_outgoing_command c packet) as [c1|e|] eqn:Hu; [|done..].
  apply update_same in Hu as [H1 H2].
  destruct (when_connected_same c1 (fun con => cc_send_command_with_result con packet)) as [H3 H4].
  unfold same_connection. rewrite H3, H1. split; [done|]. intros Hn. rewrite H4, H2; [done..|]. by rewrite H1.
Qed.

Lemma lib_disconnect_same c options : same_connection c (lib_disconnect c options).2.
Proof. unfold lib_disconnect. destruct (tc_state c); [done..|]. apply when_connected_same. Qed.

Lemma insert_command_fields s con h p :
  sy_con (insert_command (sy_set_con s con) h p) = con /\
  sy_connects (insert_command (sy_set_con s con) h p) = sy_connects s.
Proof. unfold insert_command, dropped. by destruct (_ !! h). Qed.

Lemma insert_download_fields s con h p :
  sy_con (insert_download (sy_set_con s con) h p) = con /\
  sy_connects (insert_download (sy_set_con s con) h p) = sy_connects s.
Proof. unfold insert_download, dropped. by destruct (_ !! h). Qed.

Lemma insert_upload_fields s con h p :
  sy_con (insert_upload (sy_set_con s con) h p) = con /\
  sy_connects (insert_upload (sy_set_con s con) h p) = sy_connects s.
Proof. unfold insert_upload, dropped. by destruct (_ !! h). Qed.

(** Everything but the request to wait leaves the list of the waiting as it is. *)
Lemma tracked_same {A} s con (r : res LibError A) keep failed s' :
  same_connection (sy_con s) con ->
  (forall a, sy_con (keep a) = con /\ sy_connects (keep a) = sy_connects s) ->
  (forall e, sy_con (failed e) = con /\ sy_connects (failed e) = sy_connects s) ->
  track s r keep failed = Ok s' ->
  same_connection (sy_con s) (sy_con s') /\ sy_connects s' = sy_connects s.
Proof.
  intros Hs Hk Hf. destruct r as [a|e|]; cbn; [..|done]; intros [= <-].
  - by destruct (Hk a) as [-> ->].
  - by destruct (Hf e) as [-> ->].
Qed.

Lemma handle_sync_message_waiting m s s' :
  only_sends m -> handle_sync_message m s = Ok s' ->
  same_connection (sy_con s) (sy_con s') /\
  (sy_connects s' = sy_connects s \/
   connected (sy_con s) = false /\ exists p, sy_connects s' = sy_connects s ++ [p]).
Proof.
  intros Hm Hs.
  assert (forall A con (r : res LibError A) keep failed,
    same_connection (sy_con s) con ->
    (forall a, sy_con (keep a) = con /\ sy_connects (keep a) = sy_connects s) ->
    (forall e, sy_con (failed e) = con /\ sy_connects (failed e) = sy_connects s) ->
    track (sy_set_con s con) r keep failed = Ok s' ->
    same_connection (sy_con s) (sy_con s') /\ (sy_connects s' = sy_connects s \/
      connected (sy_con s) = false /\ exists p, sy_connects s' = sy_connects s ++ [p])) as Htrack.
  { intros A con r keep failed Hcon Hk Hf Ht.
    destruct (tracked_same s con r keep failed s' Hcon Hk Hf Ht) as [H1 H2]. by split; [|left]. }
  destruct m as [f|arg send|send|arg send|id path pw pos send|id path pw size ow re send]; cbn [handle_sync_message] in Hs.
  - injection Hs as <-. destruct (Hm s) as (con & -> & Hcon). by split; [|left].
  - pose proof (send_with_result_same (sy_con s) arg) as Hcon.
    destruct (send_command_with_result _ _) as [r con]. revert Hs. apply Htrack; [done|intros; apply insert_command_fields|done].
  - unfold get_state in Hs. destruct (tc_state (sy_con s)) eqn:Hst; injection Hs as <-;
      (split; [done|]); [right; unfold connected; rewrite Hst; split; [done|by eexists]..|by left].
  - pose proof (lib_disconnect_same (sy_con s) arg) as Hcon.
    destruct (lib_disconnect _ _) as [r con]. revert Hs. by apply Htrack.
  - pose proof (when_connected_same (sy_con s) (fun con => cc_download_file con id path pw pos)) as Hcon.
    unfold download_file in Hs. destruct (when_connected _ _) as [r con]. revert Hs. apply Htrack; [done|intros; apply insert_download_fields|done].
  - pose proof (when_connected_same (sy_con s) (fun con => cc_upload_file con id path pw size ow re)) as Hcon.
    unfold upload_file in Hs. destruct (when_connected _ _) as [r con]. revert Hs. apply Htrack; [done|intros; apply insert_upload_fields|done].
Qed.

Lemma handle_sync_messages_waiting l s s' :
  Forall only_sends l -> handle_sync_messages l s = Ok s' -> sync_inv s ->
  sync_inv s' /\ connected (sy_con s') = connected (sy_con s) /\
  (connected (sy_con s) = true -> sy_connects s' = []) /\ (forall p, p ∈ sy_connects s -> p ∈ sy_connects s').
Proof.
  revert s. induction l as [|m l IH]; intros s Hl Hs Hinv; cbn [handle_sync_messages] in Hs.
  { injection Hs as <-. split_and!; try done. apply Hinv. }
  apply Forall_cons_1 in Hl as [Hm Hl]. apply res_bind_ok in Hs as (s1 & H1 & Hs).
  apply handle_sync_message_waiting in H1 as [Hcon Hw]; [|done]. destruct Hinv as [Hi Hc].
  assert (sync_inv s1) as Hinv1.
  { split; [by apply (same_connection_inv (sy_con s))|]. destruct Hcon as [-> _]. intros Hn.
    destruct Hw as [->|[Hw _]]; [by apply Hc|by rewrite Hw in Hn]. }
  destruct (IH s1 Hl Hs Hinv1) as (H2 & H3 & H4 & H5). destruct Hcon as [Heq _]. rewrite Heq in H3, H4.
  split_and!; [done..|]. intros p Hp. apply H5. destruct Hw as [->|[_ [q ->]]]; [done|]. apply elem_of_app. by left.
Qed.

Lemma sy_answer_all_answers s l a p : p ∈ l -> (p, a) ∈ sy_answers (sy_answer_all s l a).
Proof.
  unfold sy_answer_all. revert s.
  assert (forall l s q, q ∈ sy_answers s -> q ∈ sy_answers (foldl (fun s send => sy_answer s send a) s l)) as Hmono.
  { clear. induction l as [|x l IH]; intros s q Hq; [done|]. apply IH. cbn. apply elem_of_app. by left. }
  induction l as [|x l IH]; intros s Hp; [by apply not_elem_of_nil in Hp|].
  apply elem_of_cons in Hp as [->|Hp]; [|by apply IH]. cbn [foldl]. apply Hmono. cbn. apply elem_of_app. right. by left.
Qed.

Lemma sy_answer_all_fields s l a :
  sy_con (sy_answer_all s l a) = sy_con s /\ sy_connects (sy_answer_all s l a) = sy_connects s.
Proof. unfold sy_answer_all. revert s. induction l as [|x l IH]; intros s; [done|]. by destruct (IH (sy_answer s x a)). Qed.

(** Who waited is told, or waits on. *)
Definition told (s s' : SyncConnection) : Prop :=
  forall p, p ∈ sy_connects s ->
    if connected (sy_con s') then (p, AnsUnit (Ok tt)) ∈ sy_answers s' else p ∈ sy_connects s'.

Lemma sync_item_waiting i s s1 :
  sync_item i s = (None, s1) -> sy_con s1 = sy_con s /\ sy_connects s1 = sy_connects s /\ is_book (LibReady (Ok i)) = false.
Proof. destruct i; try done; intros [= <-]; repeat case_match; done. Qed.

Lemma sync_loop_waiting fuel env s p s' :
  sync_inv s -> sync_loop fuel env s = Some (Ok (p, s')) -> sync_inv s' /\ told s s'.
Proof.
  revert s. induction fuel as [|fuel IH]; intros s [Hi Hc]; [done|]. cbn [sync_loop].
  destruct (lib_poll_next _ _ _) as [[[q con]|e|]|] eqn:Hp; [|done..].
  destruct (lib_poll_inv _ _ _ _ _ Hi Hp) as [Hi' Hq].
  assert (forall s1, sy_con s1 = con -> sy_connects s1 = sy_connects s -> is_book q = false -> sync_inv s1 /\ told s s1) as Hquiet.
  { intros s1 H1 H2 Hb. unfold sync_inv, told. rewrite H1, H2. rewrite Hb in Hq.
    destruct (connected (sy_con s)) eqn:Hn.
    - rewrite (Hc eq_refl). split; [done|]. intros x Hx. by apply not_elem_of_nil in Hx.
    - rewrite (Hq eq_refl). done. }
  destruct q as [| |[i|e|]].
  - intros [= <- <-]. by apply Hquiet.
  - intros [= <- <-]. destruct (sy_answer_all_fields (sy_set_disconnects (sy_set_con s con) []) (sy_disconnects s) (AnsUnit (Ok tt))).
    by apply Hquiet.
  - destruct (sync_item i (sy_set_con s con)) as [[j|] s1] eqn:Hitem.
    + intros [= <- <-]. destruct i; cbn [sync_item] in Hitem; try (injection Hitem as _ <-; by apply Hquiet); try done.
      injection Hitem as _ <-. pose proof (sy_answer_all_fields (sy_set_connects (sy_set_con s con) []) (sy_connects s) (AnsUnit (Ok tt))) as [H1 H2].
      unfold sync_inv, told. cbn [sy_connects sy_set_con] in *. rewrite H1, H2. split; [done|]. intros x Hx.
      destruct (connected (sy_con s)) eqn:Hn; [rewrite (Hc eq_refl) in Hx; by apply not_elem_of_nil in Hx|].
      cbn [sy_con sy_set_connects sy_set_con]. rewrite (Hq eq_refl). by apply sy_answer_all_answers.
    + apply sync_item_waiting in Hitem as (H1 & H2 & Hb). intros Hl.
      destruct (Hquiet s1 H1 H2 Hb) as [Hinv1 _]. destruct (IH s1 Hinv1 Hl) as [H3 H4].
      split; [done|]. intros x Hx. apply H4. by rewrite H2.
  - intros [= <- <-]. by apply Hquiet.
  - done.
Qed.

(** C13.  Waiting for the connection.  From the start nobody waits while there is a connection, and
    every poll keeps that; who waits when a poll starts is told that there is a connection if there is
    one when the poll ends, and waits on otherwise, whatever requests and commands arrive in between
    and however often the connection was lost. *)
Theorem waiting_is_told create options fuel env received s p s' :
  sync_inv (sync_from (options_connect create options)) /\
  (Forall only_sends received -> sync_inv s -> sync_poll_next fuel env received s = Some (Ok (p, s')) ->
   sync_inv s' /\ told s s').
Proof.
  split.
  { unfold sync_inv, lib_inv, options_connect. destruct (opt_identity options); split; try done; by repeat constructor. }
  intros Hf Hinv Hp. unfold sync_poll_next in Hp.
  destruct (handle_sync_messages received s) as [s1|e|] eqn:Hs; [|done..].
  destruct (handle_sync_messages_waiting received s s1 Hf Hs Hinv) as (Hinv1 & _ & _ & Hsub).
  destruct (sync_loop_waiting _ _ _ _ _ Hinv1 Hp) as [H1 H2]. split; [done|]. intros x Hx. by apply H2, Hsub.
Qed.
End waiting.

(** * Polls end *)
Section returns.
Context {prof : Profile} {b64 : Base64Enc} {sha : Sha1} {asn : Asn1} {bigio : BigIntIo}.
Context {p256 : P256} {decls : Declarations} {versions : Versions} {api : ClientApi} {msgs : Messages} {gen : Generated}.

Lemma connected_loop_more fuel fuel' env c con book r :
  connected_loop fuel env c con book = Some r -> (fuel <= fuel')%nat -> connected_loop fuel' env c con book = Some r.
Proof.
  revert fuel' c con book. induction fuel as [|fuel IH]; intros [|fuel'] c con book; [done|done|lia|].
  intros Hl Hf. assert (fuel <= fuel')%nat as Hf' by lia. cbn [connected_loop] in Hl |- *.
  destruct (client_poll (cc_client con)) as [[| |e|i] cl]; try done.
  destruct i; try done; try (by apply IH).
  - destruct (cc_handle_command _ _ _ _ _ _) as [h|e|]; [|done..]. destruct (hd_reason h); [done|].
    case_match; [by apply IH|done].
  - destruct (audio_accepted _ _ _) as [[]|e|]; [done|by apply IH|done..].
Qed.

Lemma lib_poll_more fuel fuel' env c r :
  lib_poll_next fuel env c = Some r -> (fuel <= fuel')%nat -> lib_poll_next fuel' env c = Some r.
Proof.
  unfold lib_poll_next. destruct (tc_items c); [|done]. destruct (tc_state c); [done..|]. apply connected_loop_more.
Qed.

Lemma sync_loop_more fuel fuel' env s r :
  sync_loop fuel env s = Some r -> (fuel <= fuel')%nat -> sync_loop fuel' env s = Some r.
Proof.
  revert fuel' s. induction fuel as [|fuel IH]; intros [|fuel'] s; [done|done|lia|].
  intros Hl Hf. cbn [sync_loop] in Hl |- *.
  destruct (lib_poll_next (S fuel) env (sy_con s)) as [r1|] eqn:Hp; [|done].
  rewrite (lib_poll_more _ (S fuel') _ _ _ Hp Hf). destruct r1 as [[q con]|e|]; [|done..].
  destruct q as [| |[i|e|]]; try done. destruct (sync_item i _) as [[j|] s1]; [done|]. apply IH; [done|lia].
Qed.

Context {laws : ClientApiLaws}.

(** The items and the transfers that may end a poll without a new command. *)
Definition waiting_items (c : TsConnection) : nat :=
  (length (tc_items c) + match tc_state c with StConnected con _ => length (filetransfers con) | _ => 0 end)%nat.

Definition items_ready (c : TsConnection) : nat :=
  match tc_state c with StConnected con _ => client_ready (cc_client con) | _ => 0%nat end.

(** The loop of the poll continues after these. *)
Definition continues (i : LibItem) : Prop := forall s, (sync_item i s).1 = None.

Lemma find_transfer_length env before l item l' :
  find_transfer env before l = Some (item, l') -> (length l' < length before + length l)%nat.
Proof.
  revert before. induction l as [|t l IH]; intros before; cbn [find_transfer]; [done|].
  destruct (pe_transfer env t).
  - intros [= _ <-]. rewrite length_app. cbn. lia.
  - intros Hf. apply IH in Hf. rewrite length_app in Hf. cbn in *. lia.
Qed.

Lemma connected_loop_decreases fuel env c con book i c' :
  tc_items c = [] -> connected_loop fuel env c con book = Some (Ok (LibReady (Ok i), c')) -> continues i ->
  connected c' = true ->
  (items_ready c' < client_ready (cc_client con))%nat \/
  (items_ready c' <= client_ready (cc_client con))%nat /\ (waiting_items c' < length (filetransfers con))%nat.
Proof.
  revert c con book. induction fuel as [|fuel IH]; intros c con book Hi; [done|]. cbn [connected_loop].
  intros Hl Hcont Hc.
  pose proof (client_poll_rest (cc_client con)) as Hrest.
  destruct (client_poll (cc_client con)) as [[| |e|item] cl] eqn:Hp; cbn [snd] in Hrest.
  - destruct (find_transfer _ _ _) as [[x l]|] eqn:Hf; [|done]. injection Hl as -> <-.
    right. cbn. split; [done|]. rewrite Hi. apply find_transfer_length in Hf. cbn in *. lia.
  - done.
  - case_bool_decide; [done|]. destruct e as [| | | | | | | | | | | | | | | | |te|]; try done. destruct te; try done.
    by injection Hl as _ <-.
  - apply client_poll_ready in Hp.
    assert (forall c1 con1 book1, tc_items c1 = [] -> (client_ready (cc_client con1) < client_ready (cc_client con))%nat ->
      connected_loop fuel env c1 con1 book1 = Some (Ok (LibReady (Ok i), c')) ->
      (items_ready c' < client_ready (cc_client con))%nat) as Hloop.
    { intros c1 con1 book1 H1 H2 H3. destruct (IH c1 con1 book1 H1 H3 Hcont Hc); lia. }
    left. destruct item; try (revert Hl; by apply Hloop).
    + cbn [tc_items tc_options set_state] in Hl. rewrite Hi in Hl.
      destruct (cc_handle_command _ _ _ _ _ _) as [h|e|] eqn:Hh; [|done..].
      apply cc_handle_command_ready in Hh. cbn in Hh. destruct (hd_reason h).
      { match type of Hl with context [tc_items ?c1] => destruct (tc_items c1) end; [done|]. by injection Hl as _ <-. }
      match type of Hl with context [tc_items ?c1] => destruct (tc_items c1) eqn:Heq end.
      * revert Hl. apply Hloop; [done|]. lia.
      * injection Hl as _ <-. cbn. lia.
    + destruct (audio_accepted _ _ _) as [[]|e|]; [by injection Hl as _ <-|revert Hl; by apply Hloop|done..].
    + by injection Hl as _ <-.
Qed.

(** After a poll with which the loop continues less can follow. *)
Lemma lib_poll_decreases fuel env c i c' :
  lib_poll_next fuel env c = Some (Ok (LibReady (Ok i), c')) -> continues i ->
  if connected c' then connected c = true /\
    ((items_ready c' < items_ready c)%nat \/ (items_ready c' <= items_ready c)%nat /\ (waiting_items c' < waiting_items c)%nat)
  else connected c = true \/ (waiting_items c' < waiting_items c)%nat.
Proof.
  unfold lib_poll_next. intros Hp Hc. destruct (tc_items c) as [|item items] eqn:Hi.
  2: { injection Hp as -> <-. unfold connected, items_ready, waiting_items. cbn. rewrite Hi.
       destruct (tc_state c); cbn; [right; lia..|]. split; [done|]. right. lia. }
  unfold connected at 2 3, items_ready, waiting_items. rewrite Hi.
  destruct (tc_state c) as [f reconnect|identity needed canceled|con book] eqn:Hst.
  - injection Hp as Hp. exfalso. specialize (Hc (sync_from c)).
    apply poll_connecting_cases in Hp as [(_ & _ & [?|[[level Hp]|[e ?]]])|(con & book & Hp & _)]; try done; by injection Hp as ->.
  - exfalso. specialize (Hc (sync_from c)). unfold poll_identity in Hp.
    destruct (pe_identity env identity needed) as [[j|]|]; [by injection Hp as <- _|done..].
  - destruct (connected c') eqn:Hcon; [|by left]. split; [done|].
    apply (connected_loop_decreases _ _ _ _ _ _ _ Hi Hp Hc Hcon).
Qed.

Lemma sync_loop_step env s :
  (forall i con, (exists fuel, lib_poll_next fuel env (sy_con s) = Some (Ok (LibReady (Ok i), con))) -> continues i ->
     forall s1, sy_con s1 = con -> exists fuel, is_Some (sync_loop fuel env s1)) ->
  exists fuel, is_Some (sync_loop fuel env s).
Proof.
  intros Hnext.
  assert (exists r, lib_poll_next (S (items_ready (sy_con s))) env (sy_con s) = Some r) as [r Hr].
  { unfold lib_poll_next, items_ready. destruct (tc_items (sy_con s)); [|by eexists].
    destruct (tc_state (sy_con s)); [by eexists..|]. apply connected_loop_returns. lia. }
  set (fuel := items_ready (sy_con s)) in *.
  destruct r as [[q con]|e|]; try (exists (S fuel); cbn [sync_loop]; by rewrite Hr).
  destruct q as [| |[i|e|]]; try (exists (S fuel); cbn [sync_loop]; by rewrite Hr).
  destruct (sync_item i (sy_set_con s con)) as [[j|] s1] eqn:Hi.
  { exists (S fuel). cbn [sync_loop]. by rewrite Hr, Hi. }
  assert (continues i) as Hc by (by destruct i).
  destruct (Hnext i con (ex_intro _ _ Hr) Hc s1) as [fuel' [r Hf]].
  { by apply sync_item_waiting in Hi as (-> & _). }
  exists (S (fuel `max` fuel')). cbn [sync_loop].
  rewrite (lib_poll_more _ (S (fuel `max` fuel')) _ _ _ Hr) by lia. rewrite Hi.
  by rewrite (sync_loop_more _ (fuel `max` fuel') _ _ _ Hf) by lia.
Qed.

Lemma sync_loop_returns_idle n env s :
  connected (sy_con s) = false -> (waiting_items (sy_con s) <= n)%nat -> exists fuel, is_Some (sync_loop fuel env s).
Proof.
  revert s. induction n as [|n IH]; intros s Hs Hn; apply sync_loop_step; intros i con [fuel Hp] Hc s1 H1;
    pose proof (lib_poll_decreases _ _ _ _ _ Hp Hc) as Hd; rewrite Hs in Hd;
    (destruct (connected con) eqn:Hcon; [by destruct Hd|]); destruct Hd as [|Hd]; try done; [lia|].
  apply IH; rewrite H1; [done|lia].
Qed.

Lemma sync_loop_returns env r n s :
  (items_ready (sy_con s) <= r)%nat -> (waiting_items (sy_con s) <= n)%nat -> exists fuel, is_Some (sync_loop fuel env s).
Proof.
  revert n s. induction r as [r IHr] using lt_wf_ind. induction n as [n IHn] using lt_wf_ind. intros s Hr Hn.
  apply sync_loop_step. intros i con [fuel Hp] Hc s1 H1.
  pose proof (lib_poll_decreases _ _ _ _ _ Hp Hc) as Hd. rewrite <- H1 in Hd. destruct (connected (sy_con s1)) eqn:Hcon.
  - destruct Hd as [_ [Hd|[Hle Hd]]].
    + apply (IHr (items_ready (sy_con s1))) with (n := waiting_items (sy_con s1)); lia.
    + apply (IHn (waiting_items (sy_con s1))); lia.
  - by apply (sync_loop_returns_idle (waiting_items (sy_con s1))).
Qed.

(** C14.  A poll of the connection with handles ends: whatever results and transfers it hands to
    promises without returning, whatever commands arrive, at last it is pending, returns an item or
    panics. *)
Theorem sync_poll_returns env received s :
  exists fuel, is_Some (sync_poll_next fuel env received s).
Proof.
  unfold sync_poll_next. destruct (handle_sync_messages received s) as [s1|e|]; [|by exists 0%nat..].
  by apply (sync_loop_returns env (items_ready (sy_con s1)) (waiting_items (sy_con s1))).
Qed.
End returns.

(** * Answers that do not find their promise *)
Section answers.
Context {prof : Profile} {b64 : Base64Enc} {sha : Sha1} {asn : Asn1} {bigio : BigIntIo}.
Context {p256 : P256} {decls : Declarations} {versions : Versions} {api : ClientApi} {msgs : Messages} {gen : Generated}.

Definition unit_answer (r : option CommandErr) : Answer :=
  AnsUnit (match r with Some e => Err (ErrCommand e) | None => Ok tt end).

Lemma sync_item_result handle r s :
  sync_item (MessageResult handle r) s =
    (None, match sy_commands s !! handle with
           | Some send => sy_answer (sy_set_commands s (delete handle (sy_commands s))) send (unit_answer r)
           | None => s
           end).
Proof. done. Qed.

(** A download that was sent waits under its transfer id. *)
Lemma download_waits id path pw pos send s s1 code ft :
  next_codes (sy_con s) code ft ->
  handle_sync_message (DownloadFile id path pw pos send) s = Ok s1 -> sy_answers s1 = sy_answers s ->
  sy_downloads s1 !! ft = Some send /\ sy_commands s1 = sy_commands s.
Proof.
  intros Hn Hs Ha. cbn [handle_sync_message] in Hs.
  destruct (download_file (sy_con s) id path pw pos) as [r con] eqn:Hd.
  destruct r as [h|e|]; cbn [track] in Hs; [..|done]; injection Hs as <-.
  - destruct (request_codes (sy_con s) (RqDownload id path pw pos) _ _ _ _ Hn Hd ltac:(done)) as (_ & _ & Hh).
    cbn [is_transfer] in Hh. rewrite (Hh h eq_refl) in *. unfold insert_download, dropped in *.
    destruct (_ !! ft); cbn in *; by rewrite lookup_insert_eq.
  - exfalso. cbn in Ha. revert Ha. generalize (sy_answers s). intros l Hl.
    apply (f_equal length) in Hl. rewrite length_app in Hl. cbn in Hl. lia.
Qed.

(** The server answers the request of a download with the return code that the request took, but
    the promise of the download is kept under the transfer id.  So an error, for example of a missing
    permission, never reaches the promise: it is dropped, the promise waits on.  And if an old command
    waits under that code, which happens when the connection was lost before it was answered, that
    command gets the answer of the download. *)
Theorem download_error_unheard id path pw pos send s s1 code ft r :
  next_codes (sy_con s) code ft ->
  handle_sync_message (DownloadFile id path pw pos send) s = Ok s1 -> sy_answers s1 = sy_answers s ->
  let s2 := (sync_item (MessageResult code r) s1).2 in
  sy_downloads s2 !! ft = Some send /\
  (forall i, sy_downloads s2 !! i = sy_downloads s1 !! i) /\
  sy_answers s2 = sy_answers s ++ match sy_commands s !! code with
    | Some old => [(old, unit_answer r)]
    | None => []
    end.
Proof.
  intros Hn Hs Ha. destruct (download_waits _ _ _ _ _ _ _ _ _ Hn Hs Ha) as [Hd Hc].
  rewrite sync_item_result, Hc. cbn [snd]. destruct (sy_commands s !! code); cbn; [by rewrite Ha|].
  by rewrite app_nil_r.
Qed.

(** Reconnecting starts the return codes from zero again, but the promises of the commands that
    were not answered stay: after a new connection is made, the first command takes the handle of the
    first command of the old connection, whose receiver is told that the connection is gone. *)
Theorem reconnect_reuses_handles s fuel env p con old arg send s1 :
  connected (sy_con s) = false -> lib_inv (sy_con s) ->
  lib_poll_next fuel env (sy_con s) = Some (Ok (p, con)) -> connected con = true ->
  sy_commands s !! 0 = Some old ->
  next_codes con 0 0 /\
  (handle_sync_message (SendCommand arg send) (sy_set_con s con) = Ok s1 -> send <> old ->
   sy_commands s1 !! 0 = Some send /\ sy_answers s1 = sy_answers s ++ [(old, AnsGone)] \/
   exists e, sy_answers s1 = sy_answers s ++ [(send, AnsUnit (Err e))]).
Proof.
  intros Hc Hinv Hp Hc' Hold.
  assert (next_codes con 0 0) as Hn.
  { unfold connected in Hc, Hc'. unfold lib_poll_next in Hp. destruct (tc_items (sy_con s)) as [|item items].
    2: { injection Hp as _ <-. cbn in Hc'. by rewrite Hc in Hc'. }
    destruct (tc_state (sy_con s)) as [f reconnect|identity needed canceled|con0 book] eqn:Hst; [| |done].
    - injection Hp as Hp. apply poll_connecting_cases in Hp as [(_ & Hn & _)|(con1 & book & _ & Hs & H1 & H2 & _)].
      + destruct (tc_state con) as [| |con1 book]; [done..|by destruct (Hn con1 book)].
      + by exists con1, book.
    - exfalso. unfold poll_identity in Hp. destruct (pe_identity env identity needed) as [[i|]|];
        injection Hp as _ <-; cbn in Hc'; by rewrite ?Hst in Hc'. }
  split; [done|]. cbn [handle_sync_message sy_con sy_set_con].
  destruct (send_command_with_result con arg) as [r con'] eqn:Hr.
  destruct r as [h|e|]; cbn [track]; [..|done]; intros [= <-] Hne.
  - left. destruct (request_codes con (RqCommand arg) _ _ _ _ Hn Hr ltac:(done)) as (_ & _ & Hh).
    cbn [is_transfer] in Hh. rewrite (Hh h eq_refl). unfold insert_command. cbn [sy_commands sy_set_con].
    rewrite Hold. cbn. by rewrite lookup_insert_eq.
  - right. by exists e.
Qed.
End answers.

(** * Witnesses *)
#[local] Existing Instance release_profile.

Definition fresh_sync : SyncConnection := sync_from (options_connect sample_identity local_options).

(** Connected, with the answer to command 7 to come. *)
Definition answering_sync : SyncConnection :=
  sy_set_commands (sync_from (set_state (idle_connection [])
    (StConnected (set_codes (idle_client [ClientItem (Item_Command (byte_str "error"))]) 7 0) (plain_book three_channels)))) ∅.

(** The state after a poll. *)
Definition polled (received : list SyncConMessage) (s : SyncConnection) : SyncConnection :=
  match sync_poll_next 3 stopping received s with Some (Ok (_, s')) => s' | _ => s end.

Definition three_requests : list SyncConMessage :=
  [SendCommand chat 100; WaitConnected 101; DownloadFile 1 (byte_str "/f") None None 102].

Lemma promises_kept_witness :
  let s' := polled three_requests answering_sync in
  sync_poll_next 3 stopping three_requests answering_sync = Some (Ok (SyncPending, s')) /\
  sy_answers s' = [(101, AnsUnit (Ok tt));
    (100, AnsUnit (Err (ErrCommand {| cmd_error := ClientCouldNotValidateIdentity; missing_permission := None |})))] /\
  Permutation (pending s' ++ answered s') ([100; 101; 102] ++ pending answering_sync ++ answered answering_sync).
Proof.
  assert (sync_poll_next 3 stopping three_requests answering_sync
    = Some (Ok (SyncPending, polled three_requests answering_sync))) as Hp by (vm_compute; reflexivity).
  split; [exact Hp|]. split; [vm_compute; reflexivity|].
  eapply (promises_kept 3 stopping three_requests answering_sync); [by repeat constructor|exact Hp].
Defined.

Lemma waiting_is_told_witness :
  let s' := polled [WaitConnected 101] fresh_sync in
  sync_poll_next 3 stopping [WaitConnected 101] fresh_sync
    = Some (Ok (SyncReady (Ok (SyncBookEvents [PropertyAdded PropServer None None])), s')) /\
  sync_inv s' /\ sy_answers s' = [(101, AnsUnit (Ok tt))].
Proof.
  assert (sync_poll_next 3 stopping [WaitConnected 101] fresh_sync
    = Some (Ok (SyncReady (Ok (SyncBookEvents [PropertyAdded PropServer None None])), polled [WaitConnected 101] fresh_sync)))
    as Hp by (vm_compute; reflexivity).
  split; [exact Hp|]. split; [|vm_compute; reflexivity].
  destruct (waiting_is_told sample_identity local_options 3 stopping [WaitConnected 101] fresh_sync
    (SyncReady (Ok (SyncBookEvents [PropertyAdded PropServer None None]))) (polled [WaitConnected 101] fresh_sync)) as [Hi Hw].
  apply (Hw ltac:(by repeat constructor) Hi Hp).
Defined.

Lemma sync_poll_returns_witness : exists fuel, is_Some (sync_poll_next fuel stopping three_requests answering_sync).
Proof. exact (sync_poll_returns stopping three_requests answering_sync). Defined.

(** Command 7 waits since the old connection, and a download takes code 7. *)
Definition stale_sync : SyncConnection := sy_set_commands answering_sync {[7 := 55]}.

Definition download_102 : SyncConnection :=
  match handle_sync_message (DownloadFile 1 (byte_str "/f") None None 102) stale_sync with Ok s => s | _ => stale_sync end.

Lemma download_error_unheard_witness :
  let s2 := (sync_item (MessageResult 7 None) download_102).2 in
  sy_downloads s2 !! 0 = Some 102 /\ sy_answers s2 = [(55, AnsUnit (Ok tt))].
Proof.
  assert (handle_sync_message (DownloadFile 1 (byte_str "/f") None None 102) stale_sync = Ok download_102) as Hs
    by (vm_compute; reflexivity).
  destruct (download_error_unheard 1 (byte_str "/f") None None 102 stale_sync download_102 7 0 None
    ltac:(by eexists _, _) Hs eq_refl) as (H1 & _ & H2).
  split; [exact H1|exact H2].
Defined.

(** Command 0 waits, and the connection is made anew. *)
Definition lost_sync : SyncConnection := sy_set_commands fresh_sync {[0 := 55]}.

Definition new_connection : TsConnection :=
  match lib_poll_next 1 stopping (sy_con lost_sync) with Some (Ok (_, c)) => c | _ => sy_con lost_sync end.

Definition sent_again : SyncConnection :=
  match handle_sync_message (SendCommand chat 100) (sy_set_con lost_sync new_connection) with Ok s => s | _ => lost_sync end.

Lemma reconnect_reuses_handles_witness :
  next_codes new_connection 0 0 /\ sy_answers sent_again = [(55, AnsGone)].
Proof.
  destruct (reconnect_reuses_handles lost_sync 1 stopping (LibReady (Ok (BookEvents [PropertyAdded PropServer None None])))
    new_connection 55 chat 100 sent_again) as [Hn Hs]; try (vm_compute; reflexivity).
  - intros _. constructor.
  - split; [exact Hn|]. destruct Hs as [[_ Ha]|[e Ha]]; [vm_compute; reflexivity|done|exact Ha|].
    revert Ha. vm_compute. done.
Defined.
