(* ===== verification/Strings.v ===== *)
(** The methods of [str] that the declarations and the generated messages use, on the bytes of a
    string: prefixes, suffixes, slices at character boundaries, trimming, splitting and replacing. *)
From stdpp Require Import strings.
From S2P Require Import Prelude Text.
#[local] Open Scope Z_scope.

(** * Prefixes and suffixes *)

Fixpoint strip_prefix (p s : list Z) : option (list Z) :=
  match p, s with
  | [], _ => Some s
  | a :: p, b :: s => if a =? b then strip_prefix p s else None
  | _ :: _, [] => None
  end.

Definition strip_suffix (p s : list Z) : option (list Z) := @rev Z <$> strip_prefix (rev p) (rev s).

Definition starts_with (p s : list Z) : bool := bool_decide (is_Some (strip_prefix p s)).
Definition ends_with (p s : list Z) : bool := bool_decide (is_Some (strip_suffix p s)).

(** [s.contains(p)] of a string and of a character. *)
Fixpoint contains (p s : list Z) : bool :=
  starts_with p s || match s with [] => false | _ :: s => contains p s end.

Definition contains_char (c : Z) (s : list Z) : bool := bool_decide (c ∈ s).

(** [s.find(c)] for an ASCII character. *)
Definition find_char (c : Z) (s : list Z) : option nat := fst <$> list_find (fun b => b = c) s.

(** * Slices *)

Definition is_char_boundary (s : list Z) (i : nat) : bool :=
  bool_decide (i = length s) || match s !! i with Some b => negb (continuation b) | None => false end.

(** [&s[i..j]] panics out of range and inside of a character. *)
Definition str_slice {E} (s : list Z) (i j : nat) : res E (list Z) :=
  if bool_decide (i <= j)%nat && bool_decide (j <= length s)%nat && is_char_boundary s i && is_char_boundary s j
  then Ok (take (j - i) (drop i s)) else Panic.

(** * White space *)

Definition ws1 (a : Z) : bool := ((0x09 <=? a) && (a <=? 0x0d)) || (a =? 0x20).
Definition ws2 (a b : Z) : bool := (a =? 0xc2) && ((b =? 0x85) || (b =? 0xa0)).
Definition ws3 (a b c : Z) : bool :=
  ((a =? 0xe1) && (b =? 0x9a) && (c =? 0x80)) ||
  ((a =? 0xe2) && (b =? 0x80) &&
     (((0x80 <=? c) && (c <=? 0x8a)) || (c =? 0xa8) || (c =? 0xa9) || (c =? 0xaf))) ||
  ((a =? 0xe2) && (b =? 0x81) && (c =? 0x9f)) ||
  ((a =? 0xe3) && (b =? 0x80) && (c =? 0x80)).

(** Drops the white space at the front; the characters have at most three bytes, which [w2] and
    [w3] recognise in the order of the list. *)
Fixpoint drop_white (w2 : Z -> Z -> bool) (w3 : Z -> Z -> Z -> bool) (s : list Z) : list Z :=
  match s with
  | [] => []
  | a :: s1 =>
      if ws1 a then drop_white w2 w3 s1 else
      match s1 with
      | [] => s
      | b :: s2 =>
          if w2 a b then drop_white w2 w3 s2 else
          match s2 with
          | [] => s
          | c :: s3 => if w3 a b c then drop_white w2 w3 s3 else s
          end
      end
  end.

Definition trim_start (s : list Z) : list Z := drop_white ws2 ws3 s.
Definition trim_end (s : list Z) : list Z :=
  rev (drop_white (fun a b => ws2 b a) (fun a b c => ws3 c b a) (rev s)).
Definition trim (s : list Z) : list Z := trim_end (trim_start s).

(** * Pieces *)

(** [s.split(c)]: there is always at least one piece. *)
Fixpoint split (c : Z) (s : list Z) : list (list Z) :=
  match s with
  | [] => [[]]
  | a :: s =>
      match split c s with
      | [] => []
      | p :: ps => if a =? c then [] :: p :: ps else (a :: p) :: ps
      end
  end.

(** [s.lines()]: without the line ends, which are a newline after an optional carriage return. *)
Definition strip_cr (line : list Z) : list Z :=
  match strip_suffix [0x0d] line with Some l => l | None => line end.

(** The last piece has no newline after it: it keeps its carriage return and is no line when it
    is empty. *)
Fixpoint to_lines (pieces : list (list Z)) : list (list Z) :=
  match pieces with
  | [] => []
  | [p] => if bool_decide (p = []) then [] else [p]
  | p :: ps => strip_cr p :: to_lines ps
  end.

Definition lines (s : list Z) : list (list Z) := to_lines (split 0x0a s).

(** [s.replace(p, r)] takes the matches from the left, without overlap; [skip] bytes belong to the
    last match.  An empty pattern matches at every character boundary. *)
Fixpoint replace_from (p r : list Z) (skip : nat) (s : list Z) : list Z :=
  match s, skip with
  | [], _ => []
  | _ :: s, S skip => replace_from p r skip s
  | c :: s', O =>
      if starts_with p s then r ++ replace_from p r (length p - 1) s' else c :: replace_from p r 0 s'
  end.

Definition replace (p r s : list Z) : list Z :=
  if bool_decide (p = [])
  then flat_map (fun c => if continuation c then [c] else r ++ [c]) s ++ r
  else replace_from p r 0 s.

(** * Facts *)

Lemma strip_prefix_app p s : strip_prefix p (p ++ s) = Some s.
Proof. induction p as [|a p IH]; [done|]. cbn. by rewrite Z.eqb_refl. Qed.

Lemma strip_prefix_some p s r : strip_prefix p s = Some r -> s = p ++ r.
Proof.
  revert s. induction p as [|a p IH]; intros s Hs.
  - by injection Hs as ->.
  - destruct s as [|b s]; [done|]. cbn in Hs.
    destruct (Z.eqb_spec a b) as [->|]; [|done]. cbn. f_equal. by apply IH.
Qed.

Lemma strip_suffix_app p s : strip_suffix p (s ++ p) = Some s.
Proof. unfold strip_suffix. rewrite rev_app_distr, strip_prefix_app. cbn. by rewrite rev_involutive. Qed.

Lemma strip_suffix_some p s r : strip_suffix p s = Some r -> s = r ++ p.
Proof.
  unfold strip_suffix. destruct (strip_prefix (rev p) (rev s)) as [k|] eqn:Hk; [|done]. intros [= <-].
  apply strip_prefix_some in Hk. apply (f_equal (@rev Z)) in Hk.
  by rewrite rev_involutive, rev_app_distr, rev_involutive in Hk.
Qed.

Lemma starts_with_iff p s : starts_with p s = true <-> exists r, s = p ++ r.
Proof.
  unfold starts_with. rewrite bool_decide_eq_true. split.
  - intros [r Hr]. exists r. by apply strip_prefix_some.
  - intros [r ->]. rewrite strip_prefix_app. by eexists.
Qed.

Lemma ends_with_iff p s : ends_with p s = true <-> exists r, s = r ++ p.
Proof.
  unfold ends_with. rewrite bool_decide_eq_true. split.
  - intros [r Hr]. exists r. by apply strip_suffix_some.
  - intros [r ->]. rewrite strip_suffix_app. by eexists.
Qed.

(** A suffix is decided by the last character. *)
Lemma strip_suffix_last c d p s : c <> d -> strip_suffix (p ++ [c]) (s ++ [d]) = None.
Proof.
  intros Hcd. unfold strip_suffix. rewrite !rev_app_distr. cbn. by destruct (Z.eqb_spec c d).
Qed.

Lemma ends_with_last c d p s : c <> d -> ends_with (p ++ [c]) (s ++ [d]) = false.
Proof. intros Hcd. unfold ends_with. rewrite strip_suffix_last by done. apply bool_decide_false. by intros [? ?]. Qed.

Lemma str_slice_ascii {E} s i j : ascii s -> (i <= j)%nat -> (j <= length s)%nat ->
  str_slice (E := E) s i j = Ok (take (j - i) (drop i s)).
Proof.
  intros Hs Hij Hj.
  assert (Hb : forall k, (k <= length s)%nat -> is_char_boundary s k = true).
  { intros k Hk. unfold is_char_boundary. case_bool_decide; [done|].
    destruct (lookup_lt_is_Some_2 s k) as [b Hb]; [lia|]. rewrite Hb. cbn.
    apply (Forall_lookup_1 _ _ _ _ Hs) in Hb. unfold continuation, is_uint in *.
    apply negb_true_iff, andb_false_iff. left. apply Z.leb_gt. lia. }
  unfold str_slice. rewrite !bool_decide_true by lia. by rewrite !Hb by lia.
Qed.

Lemma find_char_app c a b : c ∉ a -> find_char c (a ++ c :: b) = Some (length a).
Proof.
  intros Ha. unfold find_char.
  assert (list_find (fun b => b = c) (a ++ c :: b) = Some (length a, c)) as ->; [|done].
  apply list_find_Some. split_and!; [by apply list_lookup_middle|done|].
  intros j y Hj Hl ->. rewrite lookup_app_l in Hj by done. by apply Ha, (list_elem_of_lookup_2 _ j).
Qed.

Lemma split_not_nil c s : split c s <> [].
Proof. induction s as [|a s IH]; cbn; [done|]. destruct (split c s); [done|]. by destruct (a =? c). Qed.

Lemma split_no_char c s : Forall (fun p => c ∉ p) (split c s).
Proof.
  induction s as [|a s IH]; cbn; [repeat constructor; apply not_elem_of_nil|].
  destruct (split c s) as [|p ps]; [done|]. apply Forall_cons in IH as [Hp Hps].
  destruct (Z.eqb_spec a c) as [->|Ha]; repeat (constructor; try done); [apply not_elem_of_nil|].
  apply not_elem_of_cons. by split.
Qed.

(** Pieces without the character are split where they were joined. *)
Lemma split_none c p : c ∉ p -> split c p = [p].
Proof.
  induction p as [|a p IH]; cbn; [done|]. intros [Ha Hp]%not_elem_of_cons. rewrite IH by done.
  by destruct (Z.eqb_spec a c).
Qed.

Lemma split_app c p s : c ∉ p -> split c (p ++ c :: s) = p :: split c s.
Proof.
  induction p as [|a p IH]; cbn.
  - intros _. pose proof (split_not_nil c s) as Hn. destruct (split c s); [done|]. by rewrite Z.eqb_refl.
  - intros [Ha Hp]%not_elem_of_cons. rewrite IH by done. by destruct (Z.eqb_spec a c).
Qed.

Lemma lines_no_newline s : Forall (fun l => 0x0a ∉ l) (lines s).
Proof.
  unfold lines. pose proof (split_no_char 0x0a s) as Hp. induction Hp as [|p ps Hp _ IH]; [done|].
  cbn [to_lines]. destruct ps as [|q ps].
  - case_bool_decide; [done|]. by repeat constructor.
  - constructor; [|done]. unfold strip_cr. destruct (strip_suffix [0x0d] p) as [l|] eqn:Hl; [|done].
    apply strip_suffix_some in Hl as ->. intros Hin. apply Hp, elem_of_app. by left.
Qed.

(** One step of dropping white space. *)
Lemma drop_white_cons w2 w3 a s1 : drop_white w2 w3 (a :: s1) =
  if ws1 a then drop_white w2 w3 s1 else
  match s1 with
  | [] => a :: s1
  | b :: s2 =>
      if w2 a b then drop_white w2 w3 s2 else
      match s2 with
      | [] => a :: s1
      | c :: s3 => if w3 a b c then drop_white w2 w3 s3 else a :: s1
      end
  end.
Proof. reflexivity. Qed.

(** * Pieces of valid UTF-8 *)

Definition at_boundary (q : list Z) : Prop := match q with [] => True | b :: _ => continuation b = false end.

(** A valid string that is cut at a character boundary has two valid halves. *)
Lemma utf8_cut n : forall p q, (length p <= n)%nat -> utf8_valid (p ++ q) = true -> at_boundary q ->
  utf8_valid p = true /\ utf8_valid q = true.
Proof.
  induction n as [|n IH]; intros p q Hn Hv Hq; [by destruct p; [|cbn in Hn; lia]|].
  destruct p as [|b0 p]; [done|]. cbn [app utf8_valid length] in *.
  destruct (b0 <? 0x80); [apply IH; [lia|done..]|].
  destruct p as [|b1 p]; [destruct q as [|b1 q]; [done|]; exfalso; cbn in Hq, Hv|].
  { unfold continuation in *. repeat case_match; try done; lia. }
  cbn [app length] in *.
  destruct ((0xc2 <=? b0) && (b0 <=? 0xdf)).
  { apply andb_true_iff in Hv as [-> Hv]. apply (IH p q); [lia|done..]. }
  destruct p as [|b2 p]; [destruct q as [|b2 q]; [done|]; exfalso; cbn in Hq, Hv|].
  { unfold continuation in *. repeat case_match; try done; lia. }
  cbn [app length] in *.
  destruct ((0xe0 <=? b0) && (b0 <=? 0xef)).
  { rewrite !andb_true_iff in Hv. destruct Hv as [[[-> ->] ->] Hv]. apply (IH p q); [lia|done..]. }
  destruct p as [|b3 p]; [destruct q as [|b3 q]; [done|]; exfalso; cbn in Hq, Hv|].
  { unfold continuation in *. lia. }
  cbn [app length] in *.
  rewrite !andb_true_iff in Hv. destruct Hv as [[[[[[-> ->] ->] ->] ->] ->] Hv]. apply (IH p q); [lia|done..].
Qed.

Lemma utf8_tail p q : utf8_valid (p ++ q) = true -> at_boundary q -> utf8_valid q = true.
Proof. intros Hv Hq. by destruct (utf8_cut (length p) p q). Qed.

Lemma utf8_head p q : utf8_valid (p ++ q) = true -> at_boundary q -> utf8_valid p = true.
Proof. intros Hv Hq. by destruct (utf8_cut (length p) p q). Qed.

Lemma ws1_range a : ws1 a = true -> 0 <= a < 0x80.
Proof. unfold ws1. lia. Qed.

(** The rule for the three widths of white space. *)
Lemma drop_white_ind (w2 : Z -> Z -> bool) (w3 : Z -> Z -> Z -> bool) (P : list Z -> Prop) :
  (forall a s, ws1 a = true -> P (a :: s) -> P s) ->
  (forall a b s, w2 a b = true -> P (a :: b :: s) -> P s) ->
  (forall a b c s, w3 a b c = true -> P (a :: b :: c :: s) -> P s) ->
  forall s, P s -> P (drop_white w2 w3 s).
Proof.
  intros H1 H2 H3 s. induction s as [s IH] using (induction_ltof1 _ (@length Z)). unfold ltof in IH. intros Hs.
  destruct s as [|a s1]; [done|]. rewrite drop_white_cons.
  destruct (ws1 a) eqn:Ha; [apply IH; [cbn; lia|by eapply H1]|].
  destruct s1 as [|b s2]; [done|]. destruct (w2 a b) eqn:Hb; [apply IH; [cbn; lia|by eapply H2]|].
  destruct s2 as [|c s3]; [done|]. destruct (w3 a b c) eqn:Hc; [apply IH; [cbn; lia|by eapply H3]|done].
Qed.

Lemma trim_start_utf8 s : utf8_valid s = true -> utf8_valid (trim_start s) = true.
Proof.
  apply (drop_white_ind ws2 ws3 (fun s => utf8_valid s = true)).
  - intros a t Ha%ws1_range Hv. cbn in Hv. destruct (Z.ltb_spec a 0x80); [done|lia].
  - intros a b t Hab Hv. unfold ws2 in Hab. apply andb_true_iff in Hab as [->%Z.eqb_eq _]. cbn in Hv.
    by apply andb_true_iff in Hv as [_ ?].
  - intros a b c t Habc Hv. assert (a = 0xe1 \/ a = 0xe2 \/ a = 0xe3) as Ha by (unfold ws3 in Habc; lia).
    destruct Ha as [->|[->| ->]]; cbn in Hv; by apply andb_true_iff in Hv as [_ ?].
Qed.

Lemma trim_end_utf8 s : utf8_valid s = true -> utf8_valid (trim_end s) = true.
Proof.
  intros Hs. unfold trim_end.
  apply (drop_white_ind (fun a b => ws2 b a) (fun a b c => ws3 c b a) (fun s => utf8_valid (rev s) = true)).
  - intros a t Ha%ws1_range Hv. cbn [rev] in Hv. eapply utf8_head; [exact Hv|]. cbn. unfold continuation. lia.
  - intros a b t Hab Hv. cbn [rev] in Hv. rewrite <- app_assoc in Hv. eapply utf8_head; [exact Hv|]. cbn.
    unfold ws2 in Hab. unfold continuation. lia.
  - intros a b c t Habc Hv. cbn [rev] in Hv. rewrite <- !app_assoc in Hv. eapply utf8_head; [exact Hv|]. cbn.
    unfold ws3 in Habc. unfold continuation. lia.
  - by rewrite rev_involutive.
Qed.

Lemma trim_utf8 s : utf8_valid s = true -> utf8_valid (trim s) = true.
Proof. intros Hs. by apply trim_end_utf8, trim_start_utf8. Qed.

Lemma trim_forall (P : Z -> Prop) s : Forall P s -> Forall P (trim s).
Proof.
  intros Hs. unfold trim, trim_end. apply Forall_rev.
  apply (drop_white_ind _ _ (Forall P)); try (intros; by repeat match goal with H : Forall _ (_ :: _) |- _ => apply Forall_cons_1 in H as [_ H] end).
  apply Forall_rev. unfold trim_start.
  apply (drop_white_ind _ _ (Forall P)); [..|done]; intros; by repeat match goal with H : Forall _ (_ :: _) |- _ => apply Forall_cons_1 in H as [_ H] end.
Qed.

Lemma split_join c s : exists p ps, split c s = p :: ps /\ s = p ++ flat_map (fun p => c :: p) ps.
Proof.
  induction s as [|a s (p & ps & Hs & ->)]; [by exists [], []|]. cbn. rewrite Hs.
  destruct (Z.eqb_spec a c) as [->|]; [by exists [], (p :: ps)|by exists (a :: p), ps].
Qed.

Lemma split_forall (P : Z -> Prop) c s : Forall P s -> Forall (Forall P) (split c s).
Proof.
  induction 1 as [|a s Ha Hs IH]; cbn; [by repeat constructor|]. destruct (split c s) as [|p ps]; [done|].
  apply Forall_cons in IH as [Hp Hps]. destruct (a =? c); by repeat constructor.
Qed.

(** The pieces between ASCII characters are valid. *)
Lemma split_utf8 c s : 0 <= c < 0x80 -> utf8_valid s = true -> Forall (fun p => utf8_valid p = true) (split c s).
Proof.
  intros Hc. destruct (split_join c s) as (p & ps & -> & ->).
  assert (forall q, at_boundary (c :: q)) as Hb by (intros q; cbn; unfold continuation; lia).
  revert p. induction ps as [|q ps IH]; intros p Hv; cbn [flat_map] in Hv.
  - rewrite app_nil_r in Hv. by repeat constructor.
  - cbn [app] in Hv. constructor; [by eapply utf8_head|]. apply IH. apply utf8_tail in Hv; [|done].
    cbn in Hv. destruct (Z.ltb_spec c 0x80); [done|lia].
Qed.
