(* ===== verification/Types.v ===== *)
(** The Rust types that the declaration files name ([tsproto-structs/src/lib.rs]): reading and
    printing them, references, lifetimes, and the layout of generated code.  The conversion of
    identifiers ([heck]) is a parameter. *)
From stdpp Require Import strings.
From S2P Require Import Prelude Text InitPackets Strings.
#[local] Open Scope Z_scope.

(** [heck]: the case of identifiers. *)
Class Heck := {
  to_snake_case : list Z -> list Z;
  to_upper_camel_case : list Z -> list Z;
}.

(** [fmt::Error] *)
Inductive FmtError := FmtErr.

(** [Set_] is [Set] of the source. *)
Inductive InnerRustType :=
  | Primitive (s : list Z)
  | Struct (s : list Z)
  | Ref (i : InnerRustType)
  | Option (i : InnerRustType)
  | Map (k v : InnerRustType)
  | Set_ (i : InnerRustType)
  | Vec (i : InnerRustType)
  | Cow (i : InnerRustType).

#[global] Instance InnerRustType_eq_dec : EqDecision InnerRustType.
Proof. solve_decision. Defined.

Record RustType := { inner : InnerRustType; lifetime : bool }.

Definition is_str (s : list Z) (text : string) : bool := bool_decide (s = byte_str text).

(** * Printing *)

Fixpoint InnerRustType_fmt (t : InnerRustType) (lifetime is_ref : bool) : list Z :=
  let lifetime_str := if lifetime then byte_str "'a " else [] in
  match t with
  | Struct s =>
      if is_str s "str" then (if is_ref then byte_str "str" else byte_str "String") else s
  | Primitive s => s
  | Ref i => byte_str "&" ++ lifetime_str ++ InnerRustType_fmt i lifetime true
  | Option i => byte_str "Option<" ++ InnerRustType_fmt i lifetime false ++ byte_str ">"
  | Map k v => byte_str "HashMap<" ++ InnerRustType_fmt k lifetime false ++ byte_str ", " ++ InnerRustType_fmt v lifetime false ++ byte_str ">"
  | Set_ i => byte_str "HashSet<" ++ InnerRustType_fmt i lifetime false ++ byte_str ">"
  | Vec i =>
      if is_ref then byte_str "[" ++ InnerRustType_fmt i lifetime false ++ byte_str "]"
      else byte_str "Vec<" ++ InnerRustType_fmt i lifetime false ++ byte_str ">"
  | Cow i => byte_str "Cow<" ++ trim lifetime_str ++ byte_str ", " ++ InnerRustType_fmt i false true ++ byte_str ">"
  end.

Fixpoint InnerRustType_to_ref (t : InnerRustType) : InnerRustType :=
  match t with
  | Struct s =>
      if is_str s "UidBuf" then Ref (Struct (byte_str "Uid"))
      else if is_str s "String" then Ref (Struct (byte_str "str"))
      else Ref t
  | Map _ _ | Set_ _ | Vec _ => Ref t
  | Primitive _ | Ref _ | Cow _ => t
  | Option i => Option (InnerRustType_to_ref i)
  end.

Fixpoint InnerRustType_to_cow (t : InnerRustType) : InnerRustType :=
  match t with
  | Struct s =>
      if is_str s "UidBuf" then Cow (Struct (byte_str "Uid"))
      else if is_str s "String" then Cow (Struct (byte_str "str"))
      else Cow t
  | Map _ _ | Set_ _ | Vec _ => Cow t
  | Primitive _ | Ref _ | Cow _ => t
  | Option i => Option (InnerRustType_to_cow i)
  end.

(** [inner.starts_with('&') && &inner[1..] == name] *)
Definition is_ref_of (code name : list Z) : bool := bool_decide (strip_prefix (byte_str "&") code = Some name).

Fixpoint InnerRustType_code_as_ref (t : InnerRustType) (name : list Z) : list Z :=
  let as_ref := name ++ byte_str ".as_ref()" in
  match t with
  | Struct s =>
      if is_str s "UidBuf" || is_str s "str" then as_ref
      else if is_str s "String" then name ++ byte_str ".as_str()"
      else if is_str s "str" then name
      else byte_str "&" ++ name
  | Map _ _ | Set_ _ | Vec _ | Cow _ => as_ref
  | Primitive _ => name
  | Ref i =>
      let inner := InnerRustType_code_as_ref i name in
      if bool_decide (inner = name) then byte_str "*" ++ name
      else if is_ref_of inner name then name
      else inner
  | Option i =>
      if bool_decide (i = Struct (byte_str "String")) then name ++ byte_str ".as_deref()" else
      let inner := InnerRustType_code_as_ref i name in
      if bool_decide (inner = name) then inner
      else if is_ref_of inner name then as_ref
      else name ++ byte_str ".as_ref().map(|" ++ name ++ byte_str "| " ++ inner ++ byte_str ")"
  end.

Fixpoint InnerRustType_uses_lifetime (t : InnerRustType) : bool :=
  match t with
  | Struct s => is_str s "Uid"
  | Ref _ | Cow _ => true
  | Map _ i | Set_ i | Vec i | Option i => InnerRustType_uses_lifetime i
  | Primitive _ => false
  end.

(** * Reading *)

(** The first branches of [InnerRustType_from_str], for the types that have a name of their own. *)
Definition primitive_name (s : list Z) : bool :=
  is_str s "bool"
  || starts_with (byte_str "i") s
  || starts_with (byte_str "u") s
  || starts_with (byte_str "f") s
  || ends_with (byte_str "Id") s
  || ends_with (byte_str "Type") s
  || ends_with (byte_str "Mode") s
  || is_str s "ChannelPermissionHint"
  || is_str s "ClientPermissionHint"
  || is_str s "Codec"
  || is_str s "LogLevel"
  || is_str s "MaxClients"
  || is_str s "IpAddr"
  || is_str s "Reason"
  || is_str s "SocketAddr".

Definition named_type (s : list Z) : option InnerRustType :=
  if is_str s "DateTime" then Some (Primitive (byte_str "OffsetDateTime"))
  else if starts_with (byte_str "Duration") s then Some (Primitive (byte_str "Duration"))
  else if is_str s "PermissionId" then Some (Primitive (byte_str "Permission"))
  else if is_str s "Ts3ErrorCode" then Some (Primitive (byte_str "Error"))
  else if primitive_name s then Some (Primitive s)
  else if is_str s "Uid" then Some (Struct (byte_str "UidBuf"))
  else if is_str s "str" || is_str s "String" then Some (Struct (byte_str "String"))
  else None.

(** [&s[n..s.len() - 1]] *)
Definition between (n : nat) (s : list Z) : res FmtError (list Z) := str_slice s n (length s - 1).

Definition strip_lifetime (rest : list Z) : res FmtError (list Z) :=
  if starts_with (byte_str "'") rest then
    match find_char 0x20 rest with
    | Some i => Ok (drop (i + 1) rest)
    | None => Err FmtErr
    end
  else Ok rest.

(** Every branch reads a shorter text: [InnerRustType_from_str] has fuel for the whole one. *)
Fixpoint parse_type (fuel : nat) (s : list Z) : option (res FmtError InnerRustType) :=
  match fuel with
  | O => None
  | S fuel =>
      let wrap f rest := res_bind rest (fun r => Ok (f r)) in
      let inside f rest :=
        match rest with
        | Ok r => wrap f <$> parse_type fuel r
        | Err e => Some (Err e)
        | Panic => Some Panic
        end in
      match named_type s with Some t => Some (Ok t) | None =>
      match strip_prefix (byte_str "&") s with Some rest => inside Ref (strip_lifetime rest) | None =>
      match strip_suffix (byte_str "?") s with Some rest => inside Option (Ok rest) | None =>
      if starts_with (byte_str "Option<") s then inside Option (between 7 s) else
      match strip_suffix (byte_str "[]") s with Some rest => inside Vec (Ok rest) | None =>
      if starts_with (byte_str "HashMap<") s then
        match between 8 s with
        | Ok rest =>
            match find_char 0x2c rest with
            | None => Some (Err FmtErr)
            | Some i =>
                k ← parse_type fuel (take i rest);
                match k with
                | Ok k => wrap (Map k) <$> parse_type fuel (trim (drop i rest))
                | Err e => Some (Err e)
                | Panic => Some Panic
                end
            end
        | Err e => Some (Err e)
        | Panic => Some Panic
        end
      else if starts_with (byte_str "HashSet<") s then inside Set_ (between 8 s)
      else if starts_with (byte_str "Vec<") s then inside Vec (between 4 s)
      else if starts_with (byte_str "[") s then
        match between 1 s with
        | Ok rest =>
            if contains_char 0x3b rest then Some (Ok (Struct s)) else inside Vec (Ok rest)
        | Err e => Some (Err e)
        | Panic => Some Panic
        end
      else match strip_suffix (byte_str "T") s with Some rest => parse_type fuel rest | None =>
      Some (Ok (Struct s))
      end end end end end
  end.

Definition InnerRustType_from_str (s : list Z) : res FmtError InnerRustType :=
  match parse_type (S (length s)) s with
  | Some r => r
  | None => Panic
  end.


(** * Types with a lifetime *)

Definition RustType_from_str (s : list Z) : res FmtError RustType :=
  let? i := InnerRustType_from_str s in
  Ok {| inner := i; lifetime := contains (byte_str "&'") s |}.

Definition RustType_with_opt (s : list Z) (opt : bool) : res FmtError RustType :=
  let? i := InnerRustType_from_str s in
  let i := if opt then Option i else i in
  Ok {| inner := i; lifetime := contains (byte_str "&'") s |}.

(** [with]: at most one of the modifiers. *)
Definition RustType_with_modifiers (s : list Z) (opt : bool) (map : option (list Z)) (set vec : bool)
    : res FmtError RustType :=
  let active := filter (fun b => b = true) [bool_decide (is_Some map); set; vec] in
  if bool_decide (length active <= 1)%nat then
    let? i := InnerRustType_from_str s in
    let? i :=
      match map with
      | Some key => let? k := InnerRustType_from_str key in Ok (Map k i)
      | None => Ok i
      end in
    let i := if set then Set_ i else i in
    let i := if vec then Vec i else i in
    let i := if opt then Option i else i in
    Ok {| inner := i; lifetime := contains (byte_str "&'") s |}
  else Panic.

Definition RustType_to_opt (t : RustType) (opt : bool) : RustType :=
  if opt then {| inner := Option (inner t); lifetime := lifetime t |} else t.

Definition RustType_to_ref (t : RustType) (as_ref : bool) : RustType :=
  if as_ref then {| inner := InnerRustType_to_ref (inner t); lifetime := lifetime t |} else t.

Definition RustType_to_cow (t : RustType) : RustType := {| inner := InnerRustType_to_cow (inner t); lifetime := lifetime t |}.

Definition RustType_set_lifetime (t : RustType) (l : bool) : RustType := {| inner := inner t; lifetime := l |}.

Definition RustType_wrap_ref (t : RustType) : RustType := {| inner := Ref (inner t); lifetime := lifetime t |}.
Definition RustType_wrap_opt (t : RustType) : RustType := {| inner := Option (inner t); lifetime := lifetime t |}.

Definition RustType_is_opt (t : RustType) : bool := match inner t with Option _ => true | _ => false end.

(** The type below an [Option]. *)
Definition without_opt (t : InnerRustType) : InnerRustType := match t with Option i => i | i => i end.

Definition RustType_is_primitive (t : RustType) : bool :=
  match without_opt (inner t) with Primitive _ => true | _ => false end.

Definition RustType_is_vec (t : RustType) : bool := match inner t with Vec _ => true | _ => false end.

Definition RustType_is_cow (t : RustType) : bool := match without_opt (inner t) with Cow _ => true | _ => false end.

Definition RustType_uses_lifetime (t : RustType) : bool := InnerRustType_uses_lifetime (inner t).

Definition RustType_to_string (t : RustType) : list Z := InnerRustType_fmt (inner t) (lifetime t) false.

Definition RustType_to_name `{Heck} (t : RustType) : list Z :=
  to_upper_camel_case (replace (byte_str ">") [] (replace (byte_str "<") (byte_str "_") (RustType_to_string t))).

Definition RustType_code_as_ref (t : RustType) (name : list Z) : list Z := InnerRustType_code_as_ref (inner t) name.

Definition RustType_from_inner (i : InnerRustType) : RustType := {| inner := i; lifetime := false |}.


(** * The layout of generated code *)

Definition newline : list Z := [0x0a].
Definition tab : list Z := [0x09].

Definition doc_comment (s : list Z) : list Z := flat_map (fun l => byte_str "/// " ++ l ++ newline) (lines s).

Definition indent (s : list Z) (count : nat) : list Z :=
  flat_map (fun l => (if bool_decide (l = []) then [] else replicate count 0x09) ++ l ++ newline) (lines s).

Definition unindent (s : list Z) : list Z :=
  let s := replace (newline ++ tab) newline s in
  match strip_prefix tab s with Some r => r | None => s end.

Definition embrace (s : list Z) : list Z :=
  if bool_decide (s = []) then [] else byte_str "(" ++ s ++ byte_str ")".

Example parse_option : InnerRustType_from_str (byte_str "Option<str>") = Ok (Option (Struct (byte_str "String"))).
Proof. vm_compute. reflexivity. Qed.

Example parse_reference : InnerRustType_from_str (byte_str "&'a [u8]") = Ok (Ref (Vec (Primitive (byte_str "u8")))).
Proof. vm_compute. reflexivity. Qed.

Example parse_slice_panic : InnerRustType_from_str (byte_str "Vec<") = Panic.
Proof. vm_compute. reflexivity. Qed.

(** The name wins over the reference. *)
Example parse_reference_of_id : InnerRustType_from_str (byte_str "&ClientId") = Ok (Primitive (byte_str "&ClientId")).
Proof. vm_compute. reflexivity. Qed.

(** The value type of a map keeps the comma. *)
Example parse_map : InnerRustType_from_str (byte_str "HashMap<u8, Client>") =
  Ok (Map (Primitive (byte_str "u8")) (Struct (byte_str ", Client"))).
Proof. vm_compute. reflexivity. Qed.

Example print_cow : RustType_to_string (RustType_set_lifetime (RustType_to_cow (RustType_from_inner (Struct (byte_str "String")))) true) =
  byte_str "Cow<'a, str>".
Proof. vm_compute. reflexivity. Qed.
