(* ===== verification/TypesSpec.v ===== *)
(** What reading and printing the types of the declarations promise: the reader stops, a printed
    type is read back, a type without lifetimes is printed the same with and without one, and
    indenting is undone. *)
From stdpp Require Import strings.
From S2P Require Import Prelude Text InitPackets Strings Types.
#[local] Open Scope Z_scope.

(** * The reader stops *)

Lemma strip_prefix_length p s r : strip_prefix p s = Some r -> (length s = length p + length r)%nat.
Proof. intros ->%strip_prefix_some. by rewrite length_app. Qed.

Lemma strip_suffix_length p s r : strip_suffix p s = Some r -> (length s = length p + length r)%nat.
Proof. intros ->%strip_suffix_some. rewrite length_app. lia. Qed.

Lemma drop_white_length w2 w3 s : (length (drop_white w2 w3 s) <= length s)%nat.
Proof.
  induction s as [s IH] using (induction_ltof1 _ (@length Z)). unfold ltof in IH.
  destruct s as [|a s1]; [done|]. rewrite drop_white_cons.
  destruct (ws1 a); [etrans; [apply IH|]; cbn; lia|].
  destruct s1 as [|b s2]; [done|]. destruct (w2 a b); [etrans; [apply IH|]; cbn; lia|].
  destruct s2 as [|c s3]; [done|]. destruct (w3 a b c); [etrans; [apply IH|]; cbn; lia|done].
Qed.

Lemma trim_length s : (length (trim s) <= length s)%nat.
Proof.
  unfold trim, trim_end, trim_start. rewrite length_rev. etrans; [apply drop_white_length|].
  rewrite length_rev. apply drop_white_length.
Qed.

Lemma between_length n s r : between n s = Ok r -> (length r <= length s - 1 - n)%nat.
Proof.
  unfold between, str_slice. destruct (_ && _) eqn:Hc; [|done]. intros [= <-]. rewrite length_take. lia.
Qed.

Lemma strip_lifetime_length s r : strip_lifetime s = Ok r -> (length r <= length s)%nat.
Proof.
  unfold strip_lifetime. destruct (starts_with _ s).
  - destruct (find_char _ s); [|done]. intros [= <-]. rewrite length_drop. lia.
  - by intros [= <-].
Qed.

Lemma starts_with_length p s : starts_with p s = true -> (length p <= length s)%nat.
Proof. intros [r ->]%starts_with_iff. rewrite length_app. lia. Qed.

(** The text of a type is read in finitely many steps. *)
Lemma parse_enough fuel : forall s, (length s < fuel)%nat -> is_Some (parse_type fuel s).
Proof.
  induction fuel as [|fuel IH]; intros s Hs; [lia|]. cbn [parse_type].
  destruct (named_type s); [by eexists|].
  destruct (strip_prefix _ s) as [rest|] eqn:Hr.
  { apply strip_prefix_length in Hr. cbn in Hr.
    destruct (strip_lifetime rest) as [r|e|] eqn:Hl; [|by eexists..].
    apply strip_lifetime_length in Hl. destruct (IH r) as [x ->]; [lia|]. by eexists. }
  destruct (strip_suffix (byte_str "?") s) as [rest|] eqn:Hr'.
  { apply strip_suffix_length in Hr'. cbn in Hr'. destruct (IH rest) as [x ->]; [lia|]. by eexists. }
  assert (Hin : forall n f p, starts_with p s = true -> (1 <= length p)%nat -> is_Some (match between n s with
    | Ok r => (fun rest => res_bind rest (fun r => Ok (f r))) <$> parse_type fuel r
    | Err e => Some (Err (E := FmtError) (A := InnerRustType) e) | Panic => Some Panic end)).
  { intros n f p Hp Hl. apply starts_with_length in Hp.
    destruct (between n s) as [r|e|] eqn:Hb; [|by eexists..].
    apply between_length in Hb. destruct (IH r) as [x ->]; [lia|]. by eexists. }
  destruct (starts_with (byte_str "Option<") s) eqn:Ho; [by eapply Hin; [exact Ho|cbn; lia]|].
  destruct (strip_suffix (byte_str "[]") s) as [rest|] eqn:Hv.
  { apply strip_suffix_length in Hv. cbn in Hv. destruct (IH rest) as [x ->]; [lia|]. by eexists. }
  destruct (starts_with (byte_str "HashMap<") s) eqn:Hm.
  { apply starts_with_length in Hm. cbn in Hm.
    destruct (between 8 s) as [r|e|] eqn:Hb; [|by eexists..]. apply between_length in Hb.
    destruct (find_char _ r) as [i|]; [|by eexists].
    destruct (IH (take i r)) as [k ->]; [rewrite length_take; lia|]. cbn.
    destruct k; [|by eexists..].
    destruct (IH (trim (drop i r))) as [v ->]; [|by eexists].
    pose proof (trim_length (drop i r)) as Ht. rewrite length_drop in Ht. lia. }
  destruct (starts_with (byte_str "HashSet<") s) eqn:Hh; [by eapply Hin; [exact Hh|cbn; lia]|].
  destruct (starts_with (byte_str "Vec<") s) eqn:Hvec; [by eapply Hin; [exact Hvec|cbn; lia]|].
  destruct (starts_with (byte_str "[") s) eqn:Hsl.
  { specialize (Hin 1%nat Vec _ Hsl ltac:(cbn; lia)).
    destruct (between 1 s); [|by eexists..]. by destruct (contains_char _ _); [eexists|]. }
  destruct (strip_suffix (byte_str "T") s) as [rest|] eqn:Ht; [|by eexists].
  apply strip_suffix_length in Ht. cbn in Ht. apply IH. lia.
Qed.

(** More fuel does not change the result. *)
Lemma parse_mono fuel : forall fuel' s r, parse_type fuel s = Some r -> (fuel <= fuel')%nat ->
  parse_type fuel' s = Some r.
Proof.
  induction fuel as [|fuel IH]; intros fuel' s r Hp Hf; [done|]. destruct fuel' as [|fuel']; [lia|].
  assert (Hstep : forall s x, parse_type fuel s = Some x -> parse_type fuel' s = Some x) by (intros; apply IH; [done|lia]).
  assert (Hmap : forall (f : res FmtError InnerRustType -> res FmtError InnerRustType) s x,
    f <$> parse_type fuel s = Some x -> f <$> parse_type fuel' s = Some x).
  { intros f s' x (y & Hy & ->)%fmap_Some. by rewrite (Hstep _ _ Hy). }
  revert Hp. cbn [parse_type].
  repeat match goal with
  | |- Some _ = _ -> _ => done
  | |- match ?x with _ => _ end = _ -> _ => destruct x
  | |- (if ?x then _ else _) = _ -> _ => destruct x
  end; try done; try apply Hmap; try apply Hstep.
  intros (k & Hk & Hv)%bind_Some. rewrite (Hstep _ _ Hk). cbn. destruct k; [by apply Hmap|done..].
Qed.

Lemma from_str_eq s r fuel : parse_type fuel s = Some r -> InnerRustType_from_str s = r.
Proof.
  intros Hp. unfold InnerRustType_from_str.
  destruct (parse_enough (S (length s)) s) as [x Hx]; [lia|]. rewrite Hx.
  pose proof (parse_mono _ (fuel + S (length s)) _ _ Hp ltac:(lia)) as H1.
  pose proof (parse_mono _ (fuel + S (length s)) _ _ Hx ltac:(lia)) as H2. congruence.
Qed.

(** * A printed type is read back *)

Definition alnum (c : Z) : bool :=
  ((0x30 <=? c) && (c <=? 0x39)) || ((0x41 <=? c) && (c <=? 0x5a)) || ((0x61 <=? c) && (c <=? 0x7a)) || (c =? 0x5f).

(** An identifier. *)
Definition plain (s : list Z) : bool := negb (bool_decide (s = [])) && forallb alnum s.

Definition name_suffix (s : list Z) : bool :=
  ends_with (byte_str "Id") s || ends_with (byte_str "Type") s || ends_with (byte_str "Mode") s.

(** The text ends with the name of an id, a type or a mode, which the reader takes for the name of
    the whole type. *)
Fixpoint named_end (t : InnerRustType) : bool :=
  match t with
  | Primitive s | Struct s => name_suffix s
  | Ref i => named_end i
  | _ => false
  end.

(** Types that the reader yields, without maps and [Cow]. *)
Fixpoint well_formed (t : InnerRustType) : bool :=
  match t with
  | Primitive s => plain s && bool_decide (named_type s = Some (Primitive s))
  | Struct s =>
      plain s && negb (is_str s "str") &&
      (bool_decide (named_type s = Some (Struct s))
       || bool_decide (named_type s = None) && negb (ends_with (byte_str "T") s))
  | Ref i => well_formed i && negb (named_end i)
  | Option i | Set_ i | Vec i => well_formed i
  | Map _ _ | Cow _ => false
  end.

(** A character that ends the text of a type. *)
Definition closes (c : Z) : Prop := alnum c = true \/ c = 0x3e \/ c = 0x5d.

Lemma alnum_range c : alnum c = true -> 0x30 <= c <= 0x7a /\ c <> 0x3b /\ c <> 0x3e /\ c <> 0x3f /\ c <> 0x5b /\ c <> 0x5d /\ c <> 0x3c.
Proof. unfold alnum. lia. Qed.

Lemma plain_chars s : plain s = true -> Forall (fun c => alnum c = true) s /\ s <> [].
Proof.
  unfold plain. rewrite andb_true_iff, negb_true_iff, bool_decide_eq_false. intros [Hn Hs]. split; [|done].
  by apply Forall_forall; intros x Hx; eapply forallb_forall in Hs; [exact Hs|apply list_elem_of_In].
Qed.

Lemma plain_ascii s : plain s = true -> ascii s.
Proof.
  intros [Hs _]%plain_chars. eapply Forall_impl; [exact Hs|]. intros c Hc%alnum_range. unfold is_uint. lia.
Qed.

(** ASCII without a semicolon. *)
Definition type_char (c : Z) : Prop := is_uint 7 c /\ c <> 0x3b.

Lemma plain_type_chars s : plain s = true -> Forall type_char s /\ exists p c, s = p ++ [c] /\ closes c.
Proof.
  intros [Hs Hne]%plain_chars. split.
  - eapply Forall_impl; [exact Hs|]. intros c Hc%alnum_range. unfold type_char, is_uint. lia.
  - destruct s as [|c p _] using rev_ind; [done|]. exists p, c. split; [done|].
    apply Forall_app in Hs as [_ Hc]. inversion_clear Hc. by left.
Qed.

Lemma wrapped_type_chars a x c : Forall type_char a -> Forall type_char x -> c = 0x3e \/ c = 0x5d ->
  Forall type_char (a ++ x ++ [c]) /\ exists p d, a ++ x ++ [c] = p ++ [d] /\ closes d.
Proof.
  intros Ha Hx Hc. split.
  - repeat (apply Forall_app; split); [done..|]. constructor; [|done]. unfold type_char, is_uint. lia.
  - exists (a ++ x), c. rewrite app_assoc. split; [done|]. right. lia.
Qed.

Lemma type_chars_b l : forallb (fun c => (0 <=? c) && (c <? 0x80) && negb (c =? 0x3b)) l = true -> Forall type_char l.
Proof.
  rewrite forallb_forall. intros Hl. apply Forall_forall. intros c Hc%list_elem_of_In%Hl.
  unfold type_char, is_uint. lia.
Qed.

Ltac type_chars := apply type_chars_b; reflexivity.

Lemma fmt_shape t l r : well_formed t = true ->
  Forall type_char (InnerRustType_fmt t l r) /\ exists p c, InnerRustType_fmt t l r = p ++ [c] /\ closes c.
Proof.
  revert l r. induction t as [s|s|i IH|i IH|k IHk v IHv|i IH|i IH|i IH]; intros l r Hw; cbn [well_formed] in Hw; try done.
  - apply andb_true_iff in Hw as [Hs _]. by apply plain_type_chars.
  - rewrite !andb_true_iff, negb_true_iff in Hw. destruct Hw as [[Hs Hn] _]. cbn [InnerRustType_fmt]. rewrite Hn.
    by apply plain_type_chars.
  - apply andb_true_iff in Hw as [Hw _]. destruct (IH l true Hw) as (Ha & p & c & Hp & Hc). cbn [InnerRustType_fmt]. split.
    + apply Forall_app. split; [type_chars|]. apply Forall_app. split; [destruct l; type_chars|done].
    + exists (byte_str "&" ++ (if l then byte_str "'a " else []) ++ p), c. rewrite Hp. split; [by rewrite !app_assoc|done].
  - apply wrapped_type_chars; [type_chars|by apply IH|by left].
  - apply wrapped_type_chars; [type_chars|by apply IH|by left].
  - cbn [InnerRustType_fmt]. destruct r; (apply wrapped_type_chars; [type_chars|by apply IH|]); [by right|by left].
Qed.

(** * The branches of the reader *)

Lemma is_str_symbol s text c : c ∈ s -> alnum c = false -> forallb alnum (byte_str text) = true -> is_str s text = false.
Proof.
  intros Hc Hn Ht. unfold is_str. apply bool_decide_false. intros ->.
  rewrite forallb_forall in Ht. rewrite Ht in Hn; [done|]. by apply list_elem_of_In.
Qed.

(** A text with a symbol is no name, unless it starts or ends like one. *)
Lemma named_type_symbol a s c : c ∈ a :: s -> alnum c = false -> a ∉ [0x44; 0x69; 0x75; 0x66] ->
  name_suffix (a :: s) = false -> named_type (a :: s) = None.
Proof.
  intros Hc Hn Ha Hs.
  assert (Hstr : forall text, forallb alnum (byte_str text) = true -> is_str (a :: s) text = false)
    by (intros; by eapply is_str_symbol).
  assert (Hst : forall p b, b ∈ [0x44; 0x69; 0x75; 0x66] -> head p = Some b -> starts_with p (a :: s) = false).
  { intros p b Hb Hp. destruct p as [|b' p]; [done|]. injection Hp as ->. unfold starts_with. cbn. destruct (Z.eqb_spec b a) as [->|]; [done|].
    apply bool_decide_false. by intros [? ?]. }
  unfold name_suffix in Hs. rewrite !orb_false_iff in Hs. destruct Hs as [[Hs1 Hs2] Hs3].
  unfold named_type, primitive_name. rewrite !Hstr by done. rewrite Hs1, Hs2, Hs3.
  by rewrite (Hst (byte_str "Duration") 0x44), (Hst (byte_str "i") 0x69), (Hst (byte_str "u") 0x75),
    (Hst (byte_str "f") 0x66) by (repeat constructor; done).
Qed.

Lemma name_suffix_closed p c : c <> 0x64 -> c <> 0x65 -> name_suffix (p ++ [c]) = false.
Proof.
  intros. unfold name_suffix.
  change (byte_str "Id") with ([0x49] ++ [0x64]). change (byte_str "Type") with (byte_str "Typ" ++ [0x65]).
  change (byte_str "Mode") with (byte_str "Mod" ++ [0x65]).
  rewrite (ends_with_last 0x64 c [0x49] p), (ends_with_last 0x65 c (byte_str "Typ") p),
    (ends_with_last 0x65 c (byte_str "Mod") p) by congruence. done.
Qed.

Lemma between_app n a x c : Forall type_char (a ++ x ++ [c]) -> n = length a -> between n (a ++ x ++ [c]) = Ok x.
Proof.
  intros Ha ->. unfold between. rewrite str_slice_ascii.
  - rewrite drop_app_length. f_equal. rewrite take_app_le; [|rewrite !length_app; cbn; lia].
    apply take_ge. rewrite !length_app. cbn. lia.
  - eapply Forall_impl; [exact Ha|]. by intros ? [? _].
  - rewrite !length_app. cbn. lia.
  - lia.
Qed.

Section reads.
Context (fuel : nat) (x : list Z) (t : InnerRustType).
Context (Hx : Forall type_char x) (Hp : parse_type fuel x = Some (Ok t)).

(** A type in angle brackets: [name] is the text up to the opening bracket. *)
Lemma read_angle (name : list Z) (a : Z) :
  head name = Some a -> a ∉ [0x44; 0x69; 0x75; 0x66] -> a <> 0x26 -> Forall type_char name -> 0x3c ∈ name ->
  Forall type_char (name ++ x ++ [0x3e]) /\ named_type (name ++ x ++ [0x3e]) = None /\
  strip_prefix (byte_str "&") (name ++ x ++ [0x3e]) = None /\
  strip_suffix (byte_str "?") (name ++ x ++ [0x3e]) = None /\
  strip_suffix (byte_str "[]") (name ++ x ++ [0x3e]) = None.
Proof.
  intros Ha Hna Hamp Hc Hlt. destruct name as [|a' name]; [done|]. injection Ha as ->.
  split_and!.
  - apply wrapped_type_chars; [done..|by left].
  - cbn [app]. apply (named_type_symbol _ _ 0x3c).
    + change (a :: name ++ x ++ [62]) with ((a :: name) ++ x ++ [62]). apply elem_of_app. by left.
    + done.
    + done.
    + change (a :: name ++ x ++ [62]) with ((a :: name) ++ x ++ [62]). rewrite app_assoc. by apply name_suffix_closed.
  - change (strip_prefix [0x26] (a :: name ++ x ++ [0x3e]) = None). cbn [strip_prefix]. destruct (Z.eqb_spec 0x26 a); [congruence|done].
  - rewrite app_assoc. by apply (strip_suffix_last _ _ []).
  - rewrite app_assoc. by apply (strip_suffix_last _ _ [0x5b]).
Qed.

Ltac angle name a :=
  destruct (read_angle (byte_str name) a) as (Hc & Hn & Ha & Hq & Hv);
    [done|by rewrite !not_elem_of_cons; split_and!; [..|apply not_elem_of_nil]|done|type_chars|
     by apply list_elem_of_In; cbn; tauto|];
  cbn [parse_type]; change (byte_str ">") with [0x3e]; rewrite Hn, Ha, Hq.

Lemma starts_with_other p s : strip_prefix p s = None -> starts_with p s = false.
Proof. intros Hs. unfold starts_with. rewrite Hs. apply bool_decide_false. by intros [? ?]. Qed.

Lemma starts_with_app p s : starts_with p (p ++ s) = true.
Proof. apply starts_with_iff. by eexists. Qed.

Lemma read_option : parse_type (S fuel) (byte_str "Option<" ++ x ++ byte_str ">") = Some (Ok (Option t)).
Proof.
  angle "Option<"%string 0x4f. rewrite starts_with_app.
  rewrite (between_app 7 (byte_str "Option<") x _ Hc) by done. by rewrite Hp.
Qed.

Lemma read_set : parse_type (S fuel) (byte_str "HashSet<" ++ x ++ byte_str ">") = Some (Ok (Set_ t)).
Proof.
  angle "HashSet<"%string 0x48. rewrite starts_with_other by done. rewrite Hv, starts_with_other by done.
  rewrite starts_with_app. rewrite (between_app 8 (byte_str "HashSet<") x _ Hc) by done. by rewrite Hp.
Qed.

Lemma read_vec : parse_type (S fuel) (byte_str "Vec<" ++ x ++ byte_str ">") = Some (Ok (Vec t)).
Proof.
  angle "Vec<"%string 0x56. rewrite starts_with_other by done. rewrite Hv.
  rewrite starts_with_other by done. rewrite starts_with_other by done.
  rewrite starts_with_app. rewrite (between_app 4 (byte_str "Vec<") x _ Hc) by done. by rewrite Hp.
Qed.

(** A slice; the text of an element does not end with an opening bracket. *)
Lemma read_slice : (exists p c, x = p ++ [c] /\ closes c) ->
  parse_type (S fuel) (byte_str "[" ++ x ++ byte_str "]") = Some (Ok (Vec t)).
Proof.
  intros (p & c & Hpc & Hcl). change (byte_str "]") with [0x5d].
  destruct (wrapped_type_chars (byte_str "[") x 0x5d) as [Hc _]; [type_chars|done|by right|].
  cbn [parse_type]. change (named_type (byte_str "[" ++ x ++ [0x5d])) with (named_type (0x5b :: x ++ [0x5d])).
  rewrite (named_type_symbol 0x5b (x ++ [0x5d]) 0x5b); [|by left|done| |].
  - change (strip_prefix (byte_str "&") (byte_str "[" ++ x ++ [0x5d])) with (@None (list Z)).
    rewrite app_assoc, (strip_suffix_last 0x3f 0x5d []) by done. rewrite <- app_assoc.
    rewrite starts_with_other by done.
    assert (strip_suffix (byte_str "[]") (byte_str "[" ++ x ++ [0x5d]) = None) as ->.
    { unfold strip_suffix. rewrite !rev_app_distr, Hpc, rev_app_distr. cbn [rev app byte_str].
      change (rev (byte_str "[]")) with [0x5d; 0x5b]. cbn [strip_prefix].
      destruct (Z.eqb_spec 0x5b c) as [<-|]; [|done]. by destruct Hcl as [|[|]]. }
    rewrite !(starts_with_other _ (byte_str "[" ++ x ++ [0x5d])) by done.
    rewrite starts_with_app, (between_app 1 (byte_str "[") x _ Hc) by done.
    assert (contains_char 0x3b x = false) as ->; [|by rewrite Hp].
    apply bool_decide_false. intros Hin. by eapply Forall_forall in Hx as [_ Hx]; [|exact Hin].
  - by rewrite !not_elem_of_cons; split_and!; [..|apply not_elem_of_nil].
  - change (0x5b :: x ++ [0x5d]) with ((0x5b :: x) ++ [0x5d]). by apply name_suffix_closed.
Qed.

Lemma read_ref (l : bool) :
  name_suffix (byte_str "&" ++ (if l then byte_str "'a " else []) ++ x) = false ->
  (l = false -> head x <> Some 0x27) ->
  parse_type (S fuel) (byte_str "&" ++ (if l then byte_str "'a " else []) ++ x) = Some (Ok (Ref t)).
Proof.
  intros Hs Hh. cbn [parse_type]. change (byte_str "&" ++ ?y) with (0x26 :: y).
  rewrite (named_type_symbol 0x26 ((if l then byte_str "'a " else []) ++ x) 0x26); [|by left|done| |done].
  - change (0x26 :: ?y) with (byte_str "&" ++ y). rewrite strip_prefix_app.
    assert (strip_lifetime ((if l then byte_str "'a " else []) ++ x) = Ok x) as ->; [|by rewrite Hp].
    unfold strip_lifetime. destruct l.
    + change (byte_str "'a " ++ x) with (byte_str "'a" ++ 0x20 :: x). 
      assert (starts_with (byte_str "'") (byte_str "'a" ++ 0x20 :: x) = true) as ->
        by (apply starts_with_iff; by exists (0x61 :: 0x20 :: x)).
      rewrite find_char_app; [done|]. intros Hin%list_elem_of_In. by destruct Hin as [|[|]].
    + rewrite starts_with_other; [done|]. change (byte_str "'") with [0x27]. destruct x as [|c y]; [done|].
      cbn [strip_prefix app]. destruct (Z.eqb_spec 0x27 c) as [<-|]; [|done]. by destruct (Hh eq_refl).
  - by rewrite !not_elem_of_cons; split_and!; [..|apply not_elem_of_nil].
Qed.

End reads.

(** A name does not reach over a symbol. *)
Lemma ends_with_after p z s text : alnum z = false -> forallb alnum (byte_str text) = true ->
  ends_with (byte_str text) s = false -> ends_with (byte_str text) (p ++ [z] ++ s) = false.
Proof.
  intros Hz Ht Hs. apply not_true_is_false. intros [r Hr]%ends_with_iff. rewrite app_assoc in Hr.
  apply not_true_iff_false in Hs. apply Hs, ends_with_iff.
  apply app_eq_inv in Hr as [(k & Hk & Hsuf)|(k & Hk & Hsuf)]; [|by exists k].
  destruct k as [|c k _] using rev_ind; [by exists []|]. exfalso.
  rewrite app_assoc in Hk. apply app_inj_tail in Hk as [_ <-].
  rewrite Hsuf, <- app_assoc, !forallb_app, !andb_true_iff in Ht. cbn in Ht. rewrite Hz in Ht. by destruct Ht as [_ [? _]].
Qed.

Lemma name_suffix_after p z s : alnum z = false -> name_suffix s = false -> name_suffix (p ++ [z] ++ s) = false.
Proof.
  unfold name_suffix. intros Hz. rewrite !orb_false_iff. intros [[H1 H2] H3]. split_and!; by apply ends_with_after.
Qed.

Lemma name_suffix_ref (l : bool) s : name_suffix s = false ->
  name_suffix (byte_str "&" ++ (if l then byte_str "'a " else []) ++ s) = false.
Proof.
  intros Hs. destruct l.
  - apply (name_suffix_after (byte_str "&'a") 0x20); done.
  - apply (name_suffix_after [] 0x26); done.
Qed.

Lemma name_suffix_fmt i l : well_formed i = true -> named_end i = false -> name_suffix (InnerRustType_fmt i l true) = false.
Proof.
  induction i as [s|s|i IH|i IH|k _ v _|i IH|i IH|i IH]; intros Hw He; cbn [well_formed named_end] in *; try done.
  - rewrite !andb_true_iff, negb_true_iff in Hw. destruct Hw as [[_ Hn] _]. cbn [InnerRustType_fmt]. by rewrite Hn.
  - apply andb_true_iff in Hw as [Hw _]. by apply name_suffix_ref, IH.
  - cbn [InnerRustType_fmt]. rewrite app_assoc. by apply name_suffix_closed.
  - cbn [InnerRustType_fmt]. rewrite app_assoc. by apply name_suffix_closed.
  - cbn [InnerRustType_fmt]. rewrite app_assoc. by apply name_suffix_closed.
Qed.

Lemma fmt_head t l r : well_formed t = true -> head (InnerRustType_fmt t l r) <> Some 0x27.
Proof.
  assert (Hplain : forall s, plain s = true -> head s <> Some 0x27).
  { intros [|c s] [Hs Hn]%plain_chars; [done|]. intros [= ->]. by inversion_clear Hs. }
  destruct t as [s|s|i|i|k v|i|i|i]; intros Hw; cbn [well_formed] in Hw; try done.
  - apply andb_true_iff in Hw as [Hs _]. by apply Hplain.
  - rewrite !andb_true_iff, negb_true_iff in Hw. destruct Hw as [[Hs Hn] _]. cbn [InnerRustType_fmt]. rewrite Hn. by apply Hplain.
  - by destruct r.
Qed.

(** A name without a meaning of its own. *)
Lemma read_plain fuel s : plain s = true -> named_type s = None -> ends_with (byte_str "T") s = false ->
  parse_type (S fuel) s = Some (Ok (Struct s)).
Proof.
  intros Hs Hn Ht. pose proof (plain_chars s Hs) as [Hall _].
  assert (Hin : forall c p r, alnum c = false -> s <> p ++ c :: r).
  { intros c p r Hc ->. apply Forall_app in Hall as [_ Hall]. inversion_clear Hall. congruence. }
  assert (Hst : forall q p c r, q = p ++ c :: r -> alnum c = false -> starts_with q s = false).
  { intros q p c r -> Hc. apply not_true_is_false. intros [y Hy]%starts_with_iff. rewrite <- app_assoc in Hy. by eapply Hin. }
  assert (Hsu : forall q c p, q = c :: p -> alnum c = false -> strip_suffix q s = None).
  { intros q c p -> Hc. destruct (strip_suffix (c :: p) s) as [y|] eqn:Hy; [|done].
    apply strip_suffix_some in Hy. by eapply Hin in Hy. }
  cbn [parse_type]. rewrite Hn.
  assert (strip_prefix (byte_str "&") s = None) as ->.
  { destruct (strip_prefix _ s) as [y|] eqn:Hy; [|done]. apply strip_prefix_some in Hy.
    by destruct (Hin 0x26 [] y). }
  rewrite (Hsu (byte_str "?") 0x3f []), (Hst (byte_str "Option<") (byte_str "Option") 0x3c []),
    (Hsu (byte_str "[]") 0x5b [0x5d]), (Hst (byte_str "HashMap<") (byte_str "HashMap") 0x3c []),
    (Hst (byte_str "HashSet<") (byte_str "HashSet") 0x3c []), (Hst (byte_str "Vec<") (byte_str "Vec") 0x3c []),
    (Hst (byte_str "[") [] 0x5b []) by done.
  unfold ends_with in Ht. apply bool_decide_eq_false in Ht.
  destruct (strip_suffix (byte_str "T") s); [|done]. exfalso. apply Ht. by eexists.
Qed.

Lemma parse_fmt t : well_formed t = true -> forall l r, exists fuel, parse_type fuel (InnerRustType_fmt t l r) = Some (Ok t).
Proof.
  induction t as [s|s|i IH|i IH|k _ v _|i IH|i IH|i IH]; intros Hw l r; cbn [well_formed] in Hw; try done.
  - exists 1%nat. apply andb_true_iff in Hw as [_ Hw%bool_decide_eq_true]. cbn. by rewrite Hw.
  - rewrite !andb_true_iff, orb_true_iff, !andb_true_iff, !negb_true_iff, !bool_decide_eq_true in Hw.
    destruct Hw as [[Hs Hn] Hw]. exists 1%nat. cbn [InnerRustType_fmt]. rewrite Hn.
    destruct Hw as [Hw|[Hw Ht]]; [cbn; by rewrite Hw|by apply read_plain].
  - rewrite andb_true_iff, negb_true_iff in Hw. destruct Hw as [Hw He].
    destruct (IH Hw l true) as [fuel Hf]. exists (S fuel). cbn [InnerRustType_fmt].
    apply read_ref; [by apply fmt_shape|done|by apply name_suffix_ref, name_suffix_fmt|]. intros _. by apply fmt_head.
  - destruct (IH Hw l false) as [fuel Hf]. exists (S fuel). apply read_option; [by apply fmt_shape|done].
  - destruct (IH Hw l false) as [fuel Hf]. exists (S fuel). apply read_set; [by apply fmt_shape|done].
  - destruct (IH Hw l false) as [fuel Hf]. exists (S fuel). pose proof (fmt_shape i l false Hw) as [Hc He].
    cbn [InnerRustType_fmt]. destruct r; [by apply read_slice|by apply read_vec].
Qed.



(** * Lifetimes *)

(** The keys of the maps use no lifetime, which [uses_lifetime] does not look at. *)
Fixpoint plain_keys (t : InnerRustType) : bool :=
  match t with
  | Map k v => negb (InnerRustType_uses_lifetime k) && plain_keys k && plain_keys v
  | Ref i | Option i | Set_ i | Vec i | Cow i => plain_keys i
  | Primitive _ | Struct _ => true
  end.

(** A type that uses no lifetime has the same text with and without one. *)
Theorem lifetime_unused (t : InnerRustType) (is_ref : bool) :
  InnerRustType_uses_lifetime t = false -> plain_keys t = true -> InnerRustType_fmt t true is_ref = InnerRustType_fmt t false is_ref.
Proof.
  revert is_ref. induction t as [s|s|i IH|i IH|k IHk v IHv|i IH|i IH|i IH]; intros r Hu Hk;
    cbn [InnerRustType_uses_lifetime plain_keys InnerRustType_fmt] in *; try done.
  - by rewrite IH.
  - rewrite !andb_true_iff, negb_true_iff in Hk. destruct Hk as [[Hk1 Hk2] Hv]. by rewrite IHk, IHv.
  - by rewrite IH.
  - by rewrite IH.
Qed.

Lemma lifetime_unused_witness :
  let t := Map (Primitive (byte_str "u8")) (Vec (Struct (byte_str "Client"))) in
  InnerRustType_fmt t true false = InnerRustType_fmt t false false.
Proof. apply lifetime_unused; reflexivity. Defined.

(** The key of a map prints a lifetime that [uses_lifetime] does not report. *)
Example lifetime_of_key :
  let t := Map (Ref (Struct (byte_str "str"))) (Primitive (byte_str "u8")) in
  InnerRustType_uses_lifetime t = false /\ InnerRustType_fmt t true false = byte_str "HashMap<&'a str, u8>".
Proof. split; reflexivity. Qed.

(** A reference is taken at most once. *)
Theorem to_ref_idempotent (t : InnerRustType) : InnerRustType_to_ref (InnerRustType_to_ref t) = InnerRustType_to_ref t.
Proof.
  induction t as [s|s|i IH|i IH|k IHk v IHv|i IH|i IH|i IH]; cbn [InnerRustType_to_ref]; try done.
  - destruct (is_str s "UidBuf"); [done|]. by destruct (is_str s "String").
  - by rewrite IH.
Qed.

(** * Indentation *)

Definition with_newlines (ls : list (list Z)) : list Z := flat_map (fun l => l ++ newline) ls.

Definition indented (ls : list (list Z)) : list Z :=
  flat_map (fun l => (if bool_decide (l = []) then [] else replicate 1 0x09) ++ l ++ newline) ls.

Lemma replace_skips p c r l s : 0x0a ∉ l -> p = 0x0a :: c -> replace_from p r 0 (l ++ s) = l ++ replace_from p r 0 s.
Proof.
  intros Hl ->. induction l as [|a l IH]; [done|]. apply not_elem_of_cons in Hl as [Ha Hl].
  cbn [app replace_from]. rewrite starts_with_other; [by rewrite IH|]. cbn [strip_prefix].
  by destruct (Z.eqb_spec 10 a).
Qed.

Lemma starts_with_two a b s : starts_with [a; b] (a :: b :: s) = true.
Proof. apply (starts_with_app [a; b]). Qed.

(** The tab after a newline goes, that of the first line stays. *)
Lemma replace_indented ls : Forall (fun l => 0x0a ∉ l) ls ->
  replace_from [0x0a; 0x09] [0x0a] 0 (0x0a :: indented ls) = 0x0a :: with_newlines ls.
Proof.
  induction 1 as [|l ls Hl _ IH]; [done|]. cbn [indented flat_map with_newlines]. fold (indented ls) (with_newlines ls).
  case_bool_decide as Hn.
  - subst l. cbn [app newline] in *. cbn [replace_from]. rewrite starts_with_other by done. by f_equal.
  - cbn [replicate app]. rewrite <- !app_assoc. cbn [replace_from].
    rewrite (starts_with_two 0x0a 0x09). cbn [app length Nat.sub].
    change (replace_from ?p ?r 1 (?a :: ?s)) with (replace_from p r 0 s).
    rewrite (replace_skips _ [0x09]) by done. f_equal. f_equal. exact IH.
Qed.

(** Taking back an indentation by one tab gives the lines of the text. *)
Theorem indent_unindent (s : list Z) : unindent (indent s 1) = with_newlines (lines s).
Proof.
  pose proof (lines_no_newline s) as Hs. unfold indent. fold (indented (lines s)).
  unfold unindent, replace. rewrite bool_decide_false by done.
  change (newline ++ tab) with [0x0a; 0x09]. change newline with [0x0a].
  destruct Hs as [|l ls Hl Hls]; [done|]. cbn [indented flat_map with_newlines]. fold (indented ls) (with_newlines ls).
  case_bool_decide as Hn.
  - subst l. cbn [app newline]. by rewrite replace_indented.
  - rewrite <- !app_assoc. cbn [replicate app].
    change (0x09 :: l ++ newline ++ indented ls) with ((0x09 :: l) ++ 0x0a :: indented ls).
    rewrite (replace_skips _ [0x09]) by (try done; by apply not_elem_of_cons).
    by rewrite replace_indented.
Qed.
