(* ===== verification/Declarations.v ===== *)
(** The declarations of messages and of the book ([tsproto-structs/src/messages.rs] and
    [book.rs]): what the generators read from the declaration files.  The files themselves, a
    submodule, and their parsers ([toml], [csv]) are not part of the model: its input are the
    parsed records. *)
From stdpp Require Import strings.
From S2P Require Import Prelude Text InitPackets Strings Types.
#[local] Open Scope Z_scope.

(** [Result::unwrap] *)
Definition res_unwrap {E F A} (m : res E A) : res F A :=
  match m with
  | Ok a => Ok a
  | _ => Panic
  end.

(** * Messages *)

Record Field := {
  f_map : list Z;
  f_ts : list Z;
  f_pretty : list Z;
  f_type_s : list Z;
  f_modifier : option (list Z);
}.

#[global] Instance Field_eq_dec : EqDecision Field.
Proof. solve_decision. Defined.

Record Message := {
  m_name : list Z;
  m_notify : option (list Z);
  m_attributes : list (list Z);
}.

#[global] Instance Message_eq_dec : EqDecision Message.
Proof. solve_decision. Defined.

Record MessageGroupDefaults := { s2c : bool; c2s : bool; response : bool; low : bool; np : bool }.

Record MessageGroup := { g_default : MessageGroupDefaults; g_msg : list Message }.

Record MessageDeclarations := { fields : list Field; msg_group : list MessageGroup }.

Definition get_message_opt (d : MessageDeclarations) (name : list Z) : option Message :=
  snd <$> list_find (fun m => m_name m = name) (flat_map g_msg (msg_group d)).

Definition get_message (d : MessageDeclarations) (name : list Z) : res FmtError Message :=
  unwrap (get_message_opt d name).

(** A reference to a message of the declarations is its group and its place in the group;
    [ptr::eq] compares references. *)
Definition message_refs (d : MessageDeclarations) : list (nat * nat * MessageGroup) :=
  concat (imap (fun i g => imap (fun j _ => (i, j, g)) (g_msg g)) (msg_group d)).

Definition get_message_group (d : MessageDeclarations) (msg : nat * nat) : res FmtError MessageGroup :=
  unwrap ((fun x => snd (snd x)) <$> list_find (fun r => fst r = msg) (message_refs d)).

Definition get_field (d : MessageDeclarations) (map : list Z) : res FmtError Field :=
  let map := match strip_suffix (byte_str "?") map with Some m => m | None => map end in
  unwrap (snd <$> list_find (fun f => f_map f = map) (fields d)).

Definition Field_is_array (f : Field) : bool := bool_decide (f_modifier f = Some (byte_str "array")).

(** [a] is the attribute, which tells whether the field is optional. *)
Definition Field_get_type (f : Field) (a : list Z) : res FmtError RustType :=
  RustType_with_modifiers (f_type_s f) (ends_with (byte_str "?") a) None false (Field_is_array f).

Definition Field_is_opt (f : Field) (msg : Message) : bool := negb (bool_decide (f_map f ∈ m_attributes msg)).

Definition Field_get_rust_name `{Heck} (f : Field) : list Z := to_snake_case (f_pretty f).

(** [MessageDeclarations::uses_lifetime] stops at the first attribute with a lifetime. *)
Fixpoint attributes_use_lifetime (d : MessageDeclarations) (attributes : list (list Z)) : res FmtError bool :=
  match attributes with
  | [] => Ok false
  | a :: attributes =>
      let? field := get_field d a in
      let? t := res_unwrap (Field_get_type field a) in
      if RustType_uses_lifetime (RustType_to_ref t true) then Ok true
      else attributes_use_lifetime d attributes
  end.

Definition message_uses_lifetime (d : MessageDeclarations) (msg : Message) : res FmtError bool :=
  attributes_use_lifetime d (m_attributes msg).

(** The declarations of one direction ([message_parser.rs]). *)
Definition s2c_declarations (d : MessageDeclarations) : MessageDeclarations :=
  {| fields := fields d; msg_group := filter (fun g => s2c (g_default g) = true) (msg_group d) |}.
Definition c2s_declarations (d : MessageDeclarations) : MessageDeclarations :=
  {| fields := fields d; msg_group := filter (fun g => c2s (g_default g) = true) (msg_group d) |}.

(** * The book *)

Record BookId := { id_struct_name : list Z; id_prop : list Z }.

Record Property := {
  p_name : list Z;
  p_type_s : list Z;
  p_doc : option (list Z);
  p_opt : bool;
  p_modifier : option (list Z);
  p_key : option (list Z);
}.

#[global] Instance Property_eq_dec : EqDecision Property.
Proof. solve_decision. Defined.

Record BookStruct := {
  st_name : list Z;
  st_opt : bool;
  st_id : list BookId;
  st_doc : list Z;
  st_properties : list Property;
}.

Record BookDeclarations := { structs : list BookStruct }.

Definition get_struct (b : BookDeclarations) (name : list Z) : res FmtError BookStruct :=
  unwrap (snd <$> list_find (fun s => st_name s = name) (structs b)).

(** [Id::find_property]: the first property of that name in the structs of that name. *)
Definition find_property (i : BookId) (ss : list BookStruct) : res FmtError Property :=
  let named := filter (fun s => st_name s = id_struct_name i) ss in
  unwrap (snd <$> list_find (fun p => p_name p = id_prop i) (flat_map st_properties named)).

Definition is_modifier (p : Property) (m : string) : bool := bool_decide (p_modifier p = Some (byte_str m)).
Definition Property_is_array (p : Property) : bool := is_modifier p "array".
Definition Property_is_set (p : Property) : bool := is_modifier p "set".
Definition Property_is_map (p : Property) : bool := is_modifier p "map".

Definition Property_get_inner_type (p : Property) : res FmtError RustType :=
  RustType_with_opt (p_type_s p) (p_opt p).

Definition Property_get_type (p : Property) : res FmtError RustType :=
  let? key := (if Property_is_map p then let? k := ok_or (p_key p) FmtErr in Ok (Some k) else Ok None) in
  RustType_with_modifiers (p_type_s p) (p_opt p) key (Property_is_set p) (Property_is_array p).

Definition Property_get_inner_type_as_name `{Heck} (p : Property) : res FmtError (list Z) :=
  let? t := Property_get_inner_type p in
  Ok (RustType_to_name t).

Definition BookStruct_get_type (s : BookStruct) : res FmtError RustType := RustType_with_opt (st_name s) (st_opt s).

(** [if !res.is_empty() { res.push_str(", ") }] before the next part. *)
Definition comma (res : list Z) : list Z := if bool_decide (res = []) then res else res ++ byte_str ", ".

Fixpoint id_types (ss : list BookStruct) (ids : list BookId) (acc : list Z) : res FmtError (list Z) :=
  match ids with
  | [] => Ok acc
  | i :: ids =>
      let? p := find_property i ss in
      let? t := res_unwrap (Property_get_type p) in
      id_types ss ids (comma acc ++ RustType_to_string t)
  end.

Definition BookStruct_get_ids (s : BookStruct) (ss : list BookStruct) : res FmtError (list Z) :=
  let? acc := id_types ss (st_id s) [] in
  Ok (embrace acc).

Definition get_properties (s : BookStruct) (ss : list BookStruct) : list Property :=
  filter (fun p => Forall (fun s => st_name s <> p_type_s p) ss) (st_properties s).

Inductive PropId :=
  | PropId_Prop (p : Property)
  | PropId_Id (i : BookId).

(** Foreign ids come before the properties, which contain the own ids. *)
Definition get_all_properties (s : BookStruct) : list PropId :=
  omap (fun i => if bool_decide (id_struct_name i = st_name s) then None else Some (PropId_Id i)) (st_id s)
  ++ map PropId_Prop (st_properties s).

(** [Property::get_ids]: [ids.remove(0)] and [ids.pop()] take the braces away. *)
Definition Property_get_ids (p : Property) (ss : list BookStruct) (s : BookStruct) : res FmtError (list Z) :=
  let? ids := BookStruct_get_ids s ss in
  let ids := if bool_decide (ids = []) then ids else removelast (tail ids) in
  let? ids :=
    match p_modifier p with
    | None => Ok ids
    | Some m =>
        let ids := comma ids in
        if is_str m "map" then let? k := unwrap (p_key p) in Ok (ids ++ k)
        else if is_str m "array" || is_str m "set" then
          let? t := res_unwrap (Property_get_inner_type p) in Ok (ids ++ RustType_to_string t)
        else Panic
    end in
  Ok (embrace ids).

(** The name without a trailing [s] for the properties with many values. *)
Definition Property_get_name (p : Property) : list Z :=
  match p_modifier p, strip_suffix (byte_str "s") (p_name p) with
  | Some _, Some n => n
  | _, _ => p_name p
  end.

Definition PropId_get_attr_name `{Heck} (i : PropId) (s : BookStruct) : list Z :=
  match i with
  | PropId_Prop p => to_snake_case (p_name p)
  | PropId_Id i =>
      if bool_decide (st_name s = id_struct_name i) then to_snake_case (id_prop i)
      else to_snake_case (id_struct_name i) ++ byte_str "_" ++ to_snake_case (id_prop i)
  end.

Definition PropId_get_doc (i : PropId) : option (list Z) :=
  match i with
  | PropId_Prop p => p_doc p
  | PropId_Id _ => None
  end.

Definition PropId_get_type (i : PropId) (ss : list BookStruct) : res FmtError RustType :=
  match i with
  | PropId_Prop p => Property_get_type p
  | PropId_Id i => let? p := find_property i ss in Property_get_type p
  end.

(** * Rules

    What the rules between messages and the book share ([messages_to_book.rs] and
    [book_to_messages.rs]): their operations and the search for fields, properties and structures. *)

Inductive RuleOp := Add | Remove | Update.

#[global] Instance RuleOp_eq_dec : EqDecision RuleOp.
Proof. solve_decision. Defined.

(** Both modules have the same operations and the same search. *)
Definition RuleOp_from_str (s : list Z) : res FmtError RuleOp :=
  if is_str s "add" then Ok Add
  else if is_str s "remove" then Ok Remove
  else if is_str s "update" then Ok Update
  else Err FmtErr.

(** [find_field]: the first field of the message with that name. *)
Definition find_field (name : list Z) (msg_fields : list Field) : res FmtError Field :=
  unwrap (snd <$> list_find (fun f => f_pretty f = name) msg_fields).

Definition find_prop (name : list Z) (s : BookStruct) : option Property :=
  snd <$> list_find (fun p => p_name p = name) (st_properties s).

Definition find_struct (b : BookDeclarations) (name : list Z) : res FmtError BookStruct :=
  unwrap (snd <$> list_find (fun s => st_name s = name) (structs b)).

(** The structure of a rule is found again under its own name. *)
Lemma struct_again b name s : find_struct b name = Ok s -> get_struct b (st_name s) = Ok s.
Proof.
  unfold find_struct, get_struct. destruct (list_find _ (structs b)) as [[i x]|] eqn:Hf; [|done].
  intros [= ->]. pose proof Hf as Hf'. apply list_find_Some in Hf' as (_ & -> & _). by rewrite Hf.
Qed.
