(* ===== verification/Values.v ===== *)
(** The values in messages: the code that [ts-bookkeeping/build/message_parser.rs] generates to
    read and write a field of a message, as a function of the type of the field.  Floats, times,
    socket addresses and the declared enumerations are parameters. *)
From stdpp Require Import strings.
From S2P Require Import Prelude Text Packets InitPackets CryptoLib Ip IpParse Book Strings Types Declarations.
#[local] Open Scope Z_scope.

(** * Libraries and declared types *)

(** The floating point numbers of a width (32 or 64 bits), up to the payload of a NaN;
    [float_micros] is [(1000.0 * x) as i64], [micros_float] is [x as f32 / 1000.0]. *)
Class Floats := {
  Float : Z -> Type;
  parse_float w : list Z -> option (Float w);
  print_float w : Float w -> list Z;
  float_micros : Float 32 -> Z;
  micros_float : Z -> Float 32;
}.

(** [time::Duration] and [time::OffsetDateTime]. *)
Class Times := {
  Duration : Type;
  seconds : Z -> Duration;
  milliseconds : Z -> Duration;
  microseconds : Z -> Duration;
  whole_seconds : Duration -> Z;
  whole_milliseconds : Duration -> Z;
  whole_microseconds : Duration -> Z;
  DateTime : Type;
  from_unix_timestamp : Z -> option DateTime;
  to_unix_timestamp : DateTime -> Z;
}.

(** What the declaration files say about an enumeration ([enum_values], the numbers of the
    variants) and about a set of flags: its declared bits and the width of its integer. *)
Class DeclaredEnums := {
  enum_values : list Z -> list Z;
  all_bits : list Z -> Z;
  flag_width : list Z -> Z;
}.

Class SocketAddrs := {
  SockAddr : Type;
  parse_socket_addr : list Z -> option SockAddr;
  print_socket_addr : SockAddr -> list Z;
}.

(** * Errors *)

(** [ParseError] of [messages.rs], without the errors of the libraries inside. *)
Inductive ParseError :=
  | PE_ParameterNotFound (arg name : list Z)
  | PE_UnknownCommand (name : list Z)
  | PE_StringParse
  | PE_TsProto (e : PacketError)
  | PE_WrongPacketType (t : PacketType)
  | PE_WrongDirection (d : Direction)
  | PE_ParseInt (arg value : list Z)
  | PE_ParseAddr (arg value : list Z)
  | PE_ParseFloat (arg value : list Z)
  | PE_ParseBool (arg value : list Z)
  | PE_ParseDate (arg value : list Z)
  | PE_InvalidValue (arg value : list Z).

(** * Signed numbers *)

Definition is_int (w z : Z) : Prop := - 2 ^ (w - 1) <= z < 2 ^ (w - 1).

#[global] Instance is_int_dec w z : Decision (is_int w z).
Proof. unfold is_int. apply _. Defined.

(** [FromStr] of a signed [w]-bit integer: a sign and at least one digit. *)
Definition parse_int (w : Z) (s : list Z) : option Z :=
  let '(sign, digits) :=
    match s with
    | 0x2d :: r => (-1, r)
    | 0x2b :: r => (1, r)
    | _ => (1, s)
    end in
  match digits with
  | [] => None
  | _ =>
      match digits_value 10 digits 0 with
      | Some v => if bool_decide (is_int w (sign * v)) then Some (sign * v) else None
      | None => None
      end
  end.

Definition to_dec_signed (z : Z) : list Z := if z <? 0 then 0x2d :: to_dec (- z) else to_dec z.

(** * The types of values *)

(** The cases of [single_value_deserializer]. *)
Inductive scalar :=
  | SInt (w : Z)
  | SUint (w : Z)
  | SFloat (w : Z)
  | SBool
  | SUid
  | SStr
  | SIconId
  | SId (w : Z)
  | SIpAddr
  | SSocketAddr
  | SClientType
  | SEnum (name : list Z)
  | SFlags (name : list Z)
  | SDurationSeconds
  | SDurationMilliseconds
  | SDurationMillisecondsFloat
  | SDateTime.

Definition one_of (s : list Z) (l : list string) : bool := existsb (is_str s) l.

Definition enum_names : list string :=
  ["TextMessageTargetMode"; "HostMessageMode"; "HostBannerMode"; "LicenseType"; "LogLevel"; "Codec";
   "CodecEncryptionMode"; "Reason"; "GroupNamingMode"; "GroupType"; "Permission"; "PermissionType";
   "TokenType"; "PluginTargetMode"; "Error"]%string.

(** [single_value_serializer] has the same cases, and one more for a reference to a uid.  The case
    for a type, which is matched as text; [type_s] is the type of the declaration.  An unknown type is a panic of the generator. *)
Definition duration_scalar (type_s : list Z) : option scalar :=
  if is_str type_s "DurationSeconds" then Some SDurationSeconds
  else if is_str type_s "DurationMilliseconds" then Some SDurationMilliseconds
  else if is_str type_s "DurationMillisecondsFloat" then Some SDurationMillisecondsFloat
  else None.

Definition scalar_of (rust_type type_s : list Z) : option scalar :=
  if is_str rust_type "i8" then Some (SInt 8)
  else if is_str rust_type "u8" then Some (SUint 8)
  else if is_str rust_type "i16" then Some (SInt 16)
  else if is_str rust_type "u16" then Some (SUint 16)
  else if is_str rust_type "i32" then Some (SInt 32)
  else if is_str rust_type "u32" then Some (SUint 32)
  else if is_str rust_type "i64" then Some (SInt 64)
  else if is_str rust_type "u64" then Some (SUint 64)
  else if is_str rust_type "f32" then Some (SFloat 32)
  else if is_str rust_type "f64" then Some (SFloat 64)
  else if is_str rust_type "bool" then Some SBool
  else if is_str rust_type "UidBuf" then Some SUid
  else if is_str rust_type "&str" || is_str rust_type "String" then Some SStr
  else if is_str rust_type "IconId" then Some SIconId
  else if is_str rust_type "ClientId" then Some (SId 16)
  else if one_of rust_type ["ClientDbId"; "ChannelId"; "ServerGroupId"; "ChannelGroupId"]%string then Some (SId 64)
  else if is_str rust_type "IpAddr" then Some SIpAddr
  else if is_str rust_type "SocketAddr" then Some SSocketAddr
  else if is_str rust_type "ClientType" then Some SClientType
  else if one_of rust_type enum_names then Some (SEnum rust_type)
  else if one_of rust_type ["ChannelPermissionHint"; "ClientPermissionHint"]%string then Some (SFlags rust_type)
  else if is_str rust_type "Duration" then duration_scalar type_s
  else if is_str rust_type "OffsetDateTime" then Some SDateTime
  else None.

Section values.
Context `{Floats} `{Times} `{DeclaredEnums} `{SocketAddrs} `{Base64Enc} `{Base64Dec}.

(** The Rust values of a type; an identifier is its number, a variant and flags are their
    numbers. *)
Definition rust_value (s : scalar) : Type :=
  match s with
  | SInt _ | SUint _ | SIconId | SId _ | SEnum _ | SFlags _ => Z
  | SFloat w => Float w
  | SBool => bool
  | SUid | SStr => list Z
  | SIpAddr => IpAddr
  | SSocketAddr => SockAddr
  | SClientType => ClientType
  | SDurationSeconds | SDurationMilliseconds | SDurationMillisecondsFloat => Duration
  | SDateTime => DateTime
  end.

(** [from_u32] of an enumeration; a permission takes every number. *)
Definition from_u32 (name : list Z) (z : Z) : option Z :=
  if is_str name "Permission" then Some z
  else if bool_decide (z ∈ enum_values name) then Some z else None.

(** [from_bits] refuses undeclared bits. *)
Definition from_bits (name : list Z) (z : Z) : option Z :=
  if Z.land z (all_bits name) =? z then Some z else None.

(** * Reading *)

Definition deserialize (s : scalar) (arg val : list Z) : res ParseError (rust_value s) :=
  let parse_int_err {A} (o : option A) := ok_or o (PE_ParseInt arg val) in
  let invalid {A} (o : option A) := ok_or o (PE_InvalidValue arg val) in
  match s return res ParseError (rust_value s) with
  | SInt w => parse_int_err (parse_int w val)
  | SUint w => parse_int_err (parse_uint w val)
  | SFloat w => ok_or (parse_float w val) (PE_ParseFloat arg val)
  | SBool =>
      if is_str val "0" then Ok false
      else if is_str val "1" then Ok true
      else Err (PE_ParseBool arg val)
  | SUid => Ok (match base64_decode val with Some uid => uid | None => val end)
  | SStr => Ok val
  | SIconId =>
      parse_int_err (wrap 32 <$> (if starts_with (byte_str "-") val then parse_int 32 val else parse_uint 64 val))
  | SId w => parse_int_err (parse_uint w val)
  | SIpAddr => ok_or (parse_ip_addr val) (PE_ParseAddr arg val)
  | SSocketAddr => ok_or (parse_socket_addr val) (PE_ParseAddr arg val)
  | SClientType =>
      if is_str val "0" then Ok NormalClient
      else if is_str val "1" then Ok (QueryClient false)
      else Err (PE_InvalidValue arg val)
  | SEnum name =>
      let? z := parse_int_err (parse_uint 32 val) in
      invalid (from_u32 name z)
  | SFlags name =>
      let? z := parse_int_err (parse_uint (flag_width name) val) in
      invalid (from_bits name z)
  | SDurationSeconds =>
      let? z := parse_int_err (parse_int 64 val) in
      if bool_decide (is_int 64 (z * 1000)) then Ok (seconds z) else Err (PE_InvalidValue arg val)
  | SDurationMilliseconds =>
      let? z := parse_int_err (parse_int 64 val) in
      Ok (milliseconds z)
  | SDurationMillisecondsFloat =>
      let? f := ok_or (parse_float 32 val) (PE_ParseFloat arg val) in
      Ok (microseconds (float_micros f))
  | SDateTime =>
      let? z := parse_int_err (parse_int 64 val) in
      ok_or (from_unix_timestamp z) (PE_ParseDate arg val)
  end.

(** A list is separated by commas; the pieces are trimmed and the empty ones left out. *)
Definition vector_items (val : list Z) : list (list Z) :=
  filter (fun p => p <> []) (trim <$> split 0x2c val).

Definition deserialize_vector (s : scalar) (arg val : list Z) : res ParseError (list (rust_value s)) :=
  res_mapM (fun val => deserialize s arg (trim val)) (vector_items val).

(** * Writing *)

(** The text that [Display] of the generated expression writes; [to_u32().unwrap()] of a variant
    is the only panic. *)
Definition serialize (s : scalar) : rust_value s -> res ParseError (list Z) :=
  match s return rust_value s -> res ParseError (list Z) with
  | SInt _ => fun z => Ok (to_dec_signed z)
  | SUint _ | SIconId | SId _ | SFlags _ => fun z => Ok (to_dec z)
  | SFloat w => fun f => Ok (print_float w f)
  | SBool => fun b => Ok (if b : bool then byte_str "1" else byte_str "0")
  | SUid => fun uid => Ok (if is_server_admin uid then byte_str "ServerAdmin" else base64_encode uid)
  | SStr => fun s => Ok s
  | SIpAddr => fun ip => Ok (ip_to_string ip)
  | SSocketAddr => fun a => Ok (print_socket_addr a)
  | SClientType => fun c => Ok (match c with NormalClient => byte_str "0" | QueryClient _ => byte_str "1" end)
  | SEnum _ => fun z => if bool_decide (is_u32 z) then Ok (to_dec z) else Panic
  | SDurationSeconds => fun d => Ok (to_dec_signed (whole_seconds d))
  | SDurationMilliseconds => fun d => Ok (to_dec_signed (whole_milliseconds d))
  | SDurationMillisecondsFloat => fun d => Ok (print_float 32 (micros_float (whole_microseconds d)))
  | SDateTime => fun t => Ok (to_dec_signed (to_unix_timestamp t))
  end.

(** A comma comes before a value when the text so far is not empty. *)
Fixpoint serialize_items (s : scalar) (vs : list (rust_value s)) (acc : list Z) : res ParseError (list Z) :=
  match vs with
  | [] => Ok acc
  | v :: vs =>
      let acc := if bool_decide (acc = []) then acc else acc ++ byte_str "," in
      let? text := serialize s v in
      serialize_items s vs (acc ++ text)
  end.

Definition serialize_vector (s : scalar) (vs : list (rust_value s)) : res ParseError (list Z) :=
  serialize_items s vs [].

(** * Fields *)

(** The value of a field: one or a list of values. *)
Inductive field_value :=
  | One (s : scalar) (v : rust_value s)
  | Many (s : scalar) (vs : list (rust_value s)).

(** The type of a field as the generator sees it: a list or one value; [None] is a panic of the
    generator. *)
Inductive field_type :=
  | TOne (s : scalar)
  | TMany (s : scalar).

Definition field_type_of (f : Field) : option field_type :=
  match Field_get_type f [] with
  | Ok t =>
      match inner t with
      | Vec i => TMany <$> scalar_of (RustType_to_string (RustType_from_inner i)) (f_type_s f)
      | _ => TOne <$> scalar_of (RustType_to_string t) (f_type_s f)
      end
  | _ => None
  end.

(** [generate_deserializer] and [generate_serializer]. *)
Definition read_field (f : Field) (val : list Z) : option (res ParseError field_value) :=
  t ← field_type_of f;
  Some (match t with
        | TOne s => let? v := deserialize s (f_pretty f) val in Ok (One s v)
        | TMany s => let? vs := deserialize_vector s (f_pretty f) val in Ok (Many s vs)
        end).

(** The type of the field decides which writer its value has; the types agree in a program. *)
Definition write_field (v : field_value) : res ParseError (list Z) :=
  match v with
  | One s v => serialize s v
  | Many s vs => serialize_vector s vs
  end.

End values.
