(* ===== verification/ValuesSpec.v ===== *)
(** The values in messages: what is read has the range of its type, and what is written is read
    back. *)
From stdpp Require Import strings.
From S2P Require Import Prelude Text Packets InitPackets CryptoLib Ip IpParse Book Strings Types Declarations Values.
#[local] Open Scope Z_scope.

(** * Signed numbers *)

Lemma digits_head ds c s : Forall (fun c => 0x30 <= c <= 0x39) ds -> ds = c :: s -> c <> 0x2d /\ c <> 0x2b.
Proof. intros Hds ->. inversion_clear Hds. lia. Qed.

Lemma parse_int_digits w ds z : 0 <= z -> is_int w z -> Forall (fun c => 0x30 <= c <= 0x39) ds -> ds <> [] ->
  digits_value 10 ds 0 = Some z -> parse_int w ds = Some z.
Proof.
  intros Hz Hw Hds Hne Hv. destruct ds as [|c s]; [done|].
  destruct (digits_head _ c s Hds eq_refl) as [H1 H2]. unfold parse_int.
  assert ((match c :: s with 0x2d :: r => (-1, r) | 0x2b :: r => (1, r) | _ => (1, c :: s) end) = (1, c :: s)) as ->.
  { destruct c as [|c|c]; try done. do 6 (destruct c as [c|c|]; try done). }
  rewrite Hv, Z.mul_1_l. by rewrite bool_decide_true.
Qed.

Lemma parse_to_dec_signed w z : is_int w z -> parse_int w (to_dec_signed z) = Some z.
Proof.
  intros Hw. unfold to_dec_signed. destruct (Z.ltb_spec z 0) as [Hz|Hz].
  - destruct (to_dec_spec (- z)) as (Hne & _ & Hv); [lia|]. unfold parse_int.
    destruct (to_dec (- z)) as [|c s]; [done|]. rewrite Hv. replace (-1 * - z) with z by lia.
    by rewrite bool_decide_true.
  - destruct (to_dec_spec z) as (Hne & Hds & Hv); [lia|]. by apply parse_int_digits.
Qed.

Lemma parse_int_range w s z : parse_int w s = Some z -> is_int w z.
Proof.
  unfold parse_int. destruct (match s with 0x2d :: r => (-1, r) | 0x2b :: r => (1, r) | _ => (1, s) end) as [sign ds].
  destruct ds; [done|]. destruct (digits_value 10 _ 0); [|done]. case_bool_decide; [|done]. by intros [= <-].
Qed.

(** * Text without white space *)

(** A printable ASCII character. *)
Definition graphic (c : Z) : Prop := 0x21 <= c <= 0x7e.

Lemma graphic_ascii s : Forall graphic s -> ascii s.
Proof. intros Hs. eapply Forall_impl; [exact Hs|]. unfold graphic, is_uint. cbn. lia. Qed.

Lemma drop_white_graphic w2 w3 s :
  (forall a b, graphic a -> graphic b -> w2 a b = false) ->
  (forall a b c, graphic a -> graphic b -> graphic c -> w3 a b c = false) ->
  Forall graphic s -> drop_white w2 w3 s = s.
Proof.
  intros H2 H3 Hs. destruct Hs as [|a s Ha Hs]; [done|]. cbn [drop_white].
  assert (ws1 a = false) as -> by (unfold ws1, graphic in *; lia).
  destruct Hs as [|b s Hb Hs]; [done|]. rewrite H2 by done. destruct Hs as [|c s Hc Hs]; [done|]. by rewrite H3.
Qed.

Lemma trim_graphic s : Forall graphic s -> trim s = s.
Proof.
  intros Hs. unfold trim, trim_start, trim_end.
  assert (forall a b, graphic a -> graphic b -> ws2 a b = false) as H2 by (unfold ws2, graphic; lia).
  assert (forall a b c, graphic a -> graphic b -> graphic c -> ws3 a b c = false) as H3 by (unfold ws3, graphic; lia).
  rewrite (drop_white_graphic ws2 ws3) by done.
  rewrite drop_white_graphic; [apply rev_involutive|auto..|by apply Forall_rev].
Qed.

Lemma digits_graphic s : Forall (fun c => 0x30 <= c <= 0x39) s -> Forall graphic s /\ 0x2c ∉ s.
Proof.
  intros Hs. split.
  - eapply Forall_impl; [exact Hs|]. unfold graphic. cbn. lia.
  - intros Hin. eapply Forall_forall in Hs; [|exact Hin]. lia.
Qed.

(** A text that a list keeps: not empty, printable, without a comma. *)
Definition list_item (s : list Z) : Prop := s <> [] /\ Forall graphic s /\ 0x2c ∉ s.

Lemma to_dec_item z : 0 <= z -> list_item (to_dec z).
Proof. intros Hz. destruct (to_dec_spec z Hz) as (Hne & Hds & _). split; [done|]. by apply digits_graphic. Qed.

Lemma to_dec_signed_item z : list_item (to_dec_signed z).
Proof.
  unfold to_dec_signed. destruct (Z.ltb_spec z 0); [|by apply to_dec_item].
  destruct (to_dec_item (- z)) as (_ & Hg & Hc); [lia|]. split_and!; [done|by constructor; [unfold graphic; lia|]|].
  by apply not_elem_of_cons.
Qed.

(** * IP addresses *)

Lemma read_number_range radix n lead w s v rest : read_number radix n lead w s = Some (v, rest) -> is_uint w v.
Proof.
  unfold read_number. destruct (read_digits radix s 0 0) as [[v' m] r].
  intros Hr. repeat case_match; simplify_eq. by eapply bool_decide_eq_true_1.
Qed.

Lemma read_separator_inner {A} sep i (f : list Z -> option (A * list Z)) s r :
  read_separator sep i f s = Some r -> exists s', f s' = Some r.
Proof.
  unfold read_separator. destruct i; [by eexists|]. destruct s as [|c s]; [done|]. destruct (c =? sep); [by eexists|done].
Qed.

Lemma read_octets_range k : forall i s os rest, read_octets k i s = Some (os, rest) ->
  length os = k /\ Forall (fun x => 0 <= x < 256) os.
Proof.
  induction k as [|k IH]; intros i s os rest Hr; cbn in Hr; [by injection Hr as <- <-|].
  destruct (read_separator _ _ _ s) as [[o s']|] eqn:Ho; [|done].
  destruct (read_octets k (S i) s') as [[os' s2]|] eqn:Hos; [|done]. injection Hr as <- <-.
  apply read_separator_inner in Ho as [s3 Ho%read_number_range]. apply IH in Hos as [<- Hos].
  split; [done|]. constructor; [|done]. unfold is_uint in Ho. lia.
Qed.

Lemma read_groups_range k : forall i s gs v4 rest, read_groups k i s = (gs, v4, rest) ->
  (length gs <= k)%nat /\ Forall (fun x => 0 <= x < 65536) gs.
Proof.
  induction k as [|k IH]; intros i s gs v4 rest Hr; [by injection Hr as <- <- <-|]. cbn [read_groups] in Hr.
  set (ip := if bool_decide (0 < k)%nat then read_separator 0x3a i read_ipv4_addr s else None) in *.
  assert (Hip : forall a b c d s', ip = Some ([a; b; c; d], s') -> (0 < k)%nat /\
    Forall (fun x => 0 <= x < 65536) [a * 256 + b; c * 256 + d]).
  { intros a b c d s' Hs. unfold ip in Hs. case_bool_decide; [|done]. split; [done|].
    apply read_separator_inner in Hs as [s2 [_ Hs]%read_octets_range].
    repeat (apply Forall_cons_1 in Hs as [? Hs]). repeat constructor; lia. }
  assert (Hgroup : (match read_separator 0x3a i (read_number 16 4 true 16) s with
    | Some (g, s) => let '(gs, v4, s) := read_groups k (S i) s in (g :: gs, v4, s)
    | None => ([], false, s) end) = (gs, v4, rest) -> (length gs <= S k)%nat /\ Forall (fun x => 0 <= x < 65536) gs).
  { clear Hr Hip ip. intros Hr. destruct (read_separator 0x3a i (read_number 16 4 true 16) s) as [[g s']|] eqn:Hg.
    - destruct (read_groups k (S i) s') as [[gs' v4'] s2] eqn:Hgs. injection Hr as <- <- <-.
      apply read_separator_inner in Hg as [s3 Hg%read_number_range]. apply IH in Hgs as [Hl Hgs]. cbn.
      split; [lia|]. constructor; [|done]. unfold is_uint in Hg. lia.
    - injection Hr as <- <- <-. split; [cbn; lia|done]. }
  destruct ip as [[[|a [|b [|c [|d [|]]]]] s']|]; try (by apply Hgroup).
  destruct (Hip a b c d s' eq_refl) as [Hk Hall]. injection Hr as <- <- <-. by split; [cbn; lia|].
Qed.

Lemma read_ipv6_range s l rest : read_ipv6_addr s = Some (l, rest) ->
  length l = 8%nat /\ Forall (fun x => 0 <= x < 65536) l.
Proof.
  unfold read_ipv6_addr. destruct (read_groups 8 0 s) as [[hd v4] s'] eqn:Hhd.
  apply read_groups_range in Hhd as [Hl Hhd]. case_bool_decide; [by intros [= <- <-]|].
  destruct v4; [done|]. intros Hv6.
  assert (exists t, s' = 0x3a :: 0x3a :: t) as (t & ->).
  { clear - Hv6. destruct s' as [|c s']; [done|].
    destruct (decide (c = 0x3a)) as [->|]; [|destruct c as [|c|c]; try done; do 6 (destruct c as [c|c|]; try done)].
    destruct s' as [|c s']; [done|]. destruct (decide (c = 0x3a)) as [->|]; [by eexists|].
    destruct c as [|c|c]; try done. do 6 (destruct c as [c|c|]; try done). }
  destruct (read_groups (8 - (length hd + 1)) 0 t) as [[tl v4'] s2] eqn:Htl.
  apply read_groups_range in Htl as [Hl' Htl]. injection Hv6 as <- <-. split.
  + rewrite !length_app, length_replicate. lia.
  + apply Forall_app. split; [done|]. apply Forall_app. split; [|done]. apply Forall_replicate. lia.
Qed.

Lemma parse_ip_range s ip : parse_ip_addr s = Some ip -> ip_valid ip.
Proof.
  unfold parse_ip_addr. destruct (read_ipv4_addr s) as [[os rest]|] eqn:Hv4.
  - unfold read_ipv4_addr in Hv4. apply read_octets_range in Hv4 as [_ Hos].
    destruct os as [|a [|b [|c [|d [|]]]]], rest; try done. by intros [= <-].
  - destruct (read_ipv6_addr s) as [[l [|c rest]]|] eqn:Hv6; try done. intros [= <-].
    by apply read_ipv6_range in Hv6.
Qed.

(** * The laws of the parameters *)

Section spec.
Context `{Floats} `{Times} `{DeclaredEnums} `{SocketAddrs} `{Base64Laws}.

(** The text of a float is the shortest one that is read back as the same number. *)
Class ValueLaws : Prop := {
  float_roundtrip w (f : Float w) : parse_float w (print_float w f) = Some f;
  float_item w (f : Float w) : list_item (print_float w f);
  seconds_whole z : is_int 64 z -> whole_seconds (seconds z) = z;
  milliseconds_whole z : is_int 64 z -> whole_milliseconds (milliseconds z) = z;
  whole_seconds_range d : is_int 64 (whole_seconds d);
  timestamp_range t : is_int 64 (to_unix_timestamp t);
  timestamp_whole z t : from_unix_timestamp z = Some t -> to_unix_timestamp t = z;
  enum_values_range name z : z ∈ enum_values name -> is_u32 z;
  server_admin_no_base64 : base64_decode (byte_str "ServerAdmin") = None;
  all_bits_range name : is_uint (flag_width name) (all_bits name);
  socket_addr_roundtrip a : parse_socket_addr (print_socket_addr a) = Some a;
  socket_addr_item a : list_item (print_socket_addr a);
}.

(** The values of a Rust type, as far as the model's type is wider, and as far as the text of a
    time keeps them. *)
Definition in_range (s : scalar) : rust_value s -> Prop :=
  match s return rust_value s -> Prop with
  | SInt w => fun z => is_int w z
  | SUint w | SId w => fun z => is_uint w z
  | SIconId => fun z => is_u32 z
  | SFloat _ | SBool | SSocketAddr | SClientType | SDurationMillisecondsFloat => fun _ => True
  | SUid => fun uid => bytes uid
  | SStr => fun s => utf8_valid s = true
  | SIpAddr => ip_valid
  | SEnum name => fun z => from_u32 name z = Some z /\ is_u32 z
  | SFlags name => fun z => is_uint (flag_width name) z /\ from_bits name z = Some z
  | SDurationSeconds => fun d => is_int 64 (whole_seconds d * 1000)
  | SDurationMilliseconds => fun d => is_int 64 (whole_milliseconds d)
  | SDateTime => fun t => is_Some (from_unix_timestamp (to_unix_timestamp t))
  end.

(** What is left of a value after it was written: a query client loses its rights, a time what is
    finer than its unit. *)
Definition written (s : scalar) : rust_value s -> rust_value s :=
  match s return rust_value s -> rust_value s with
  | SClientType => fun c => match c with QueryClient _ => QueryClient false | c => c end
  | SDurationSeconds => fun d => seconds (whole_seconds d)
  | SDurationMilliseconds => fun d => milliseconds (whole_milliseconds d)
  | SDurationMillisecondsFloat => fun d => microseconds (float_micros (micros_float (whole_microseconds d)))
  | SDateTime => fun t => default t (from_unix_timestamp (to_unix_timestamp t))
  | _ => fun v => v
  end.

Lemma is_int_thousand z : is_int 64 (z * 1000) -> is_int 64 z.
Proof. unfold is_int. cbn. lia. Qed.

(** * Round trips *)

Lemma item_utf8 s : list_item s -> utf8_valid s = true.
Proof. intros (_ & Hg & _). by apply utf8_valid_ascii, graphic_ascii. Qed.

(** The values whose text can stand in a list. *)
Definition listable (s : scalar) : bool := match s with SUid | SStr => false | _ => true end.

(** Reading an address back tells that its text is not empty. *)
Lemma ip_text_item ip : ip_valid ip -> list_item (ip_to_string ip).
Proof.
  intros Hip. pose proof (parse_ip_text ip Hip) as Hp.
  assert (Forall addr_char (ip_to_string ip)) as Hc.
  { apply ip_text_chars. destruct ip as [a b c d|s]; cbn in Hip |- *.
    - repeat (apply Forall_cons_1 in Hip as [? Hip]). lia.
    - destruct Hip as [_ Hip]. eapply Forall_impl; [exact Hip|]. cbn. lia. }
  split_and!.
  - intros He. by rewrite He in Hp.
  - eapply Forall_impl; [exact Hc|]. unfold addr_char, graphic. lia.
  - intros Hin. eapply Forall_forall in Hc; [|exact Hin]. unfold addr_char in Hc. lia.
Qed.

Context `{!ValueLaws}.

Lemma bit_item z : z = 0x30 \/ z = 0x31 -> list_item [z].
Proof.
  intros Hz. split_and!; [done|repeat constructor; unfold graphic; lia|].
  intros Hin%list_elem_of_singleton. lia.
Qed.

Lemma serialize_item s v : listable s = true -> in_range s v ->
  exists text, serialize s v = Ok text /\ list_item text.
Proof.
  intros Hl Hv. destruct s; try done; cbn [rust_value in_range serialize] in *.
  10: { destruct Hv as [_ Hv]. rewrite bool_decide_true by done. eexists. split; [done|]. apply to_dec_item, Hv. }
  all: eexists; (split; [reflexivity|]).
  - apply to_dec_signed_item.
  - apply to_dec_item, Hv.
  - apply float_item.
  - destruct v; apply bit_item; tauto.
  - apply to_dec_item, Hv.
  - apply to_dec_item, Hv.
  - by apply ip_text_item.
  - apply socket_addr_item.
  - destruct v; apply bit_item; tauto.
  - destruct Hv as [Hv _]. apply to_dec_item, Hv.
  - apply to_dec_signed_item.
  - apply to_dec_signed_item.
  - apply float_item.
  - apply to_dec_signed_item.
Qed.

Lemma serialize_utf8 s v : in_range s v -> exists text, serialize s v = Ok text /\ utf8_valid text = true.
Proof.
  intros Hv. destruct (listable s) eqn:Hl.
  { destruct (serialize_item s v Hl Hv) as (text & Ht & Hi). exists text. split; [done|]. by apply item_utf8. }
  destruct s; try done; cbn [rust_value in_range serialize] in *; eexists; (split; [reflexivity|]); [|done].
  destruct (is_server_admin v); [done|]. apply utf8_valid_ascii, base64_ascii.
Qed.

(** A decimal number that is read as a signed one. *)
Lemma dec_no_minus z : 0 <= z -> starts_with (byte_str "-") (to_dec z) = false.
Proof.
  intros Hz. destruct (to_dec_spec z Hz) as (Hne & Hds & _). destruct (to_dec z) as [|c s]; [done|].
  destruct (digits_head _ c s Hds eq_refl) as [Hc _]. unfold starts_with. apply bool_decide_false.
  change (byte_str "-") with [0x2d]. cbn [strip_prefix]. destruct (Z.eqb_spec 0x2d c); [congruence|]. by intros [? ?].
Qed.

Lemma deserialize_serialize s v arg text :
  in_range s v -> serialize s v = Ok text -> deserialize s arg text = Ok (written s v).
Proof.
  intros Hv. destruct s; cbn [rust_value in_range serialize deserialize written] in *.
  - intros [= <-]. by rewrite parse_to_dec_signed.
  - intros [= <-]. by rewrite parse_to_dec.
  - intros [= <-]. by rewrite float_roundtrip.
  - intros [= <-]. by destruct v.
  - intros [= <-]. unfold is_server_admin. case_bool_decide as Ha; [by rewrite server_admin_no_base64, Ha|].
    by rewrite base64_roundtrip.
  - by intros [= <-].
  - intros [= <-]. rewrite dec_no_minus by apply Hv. rewrite parse_to_dec by (unfold is_uint in *; cbn in *; lia).
    cbn. unfold wrap. by rewrite Z.mod_small.
  - intros [= <-]. by rewrite parse_to_dec.
  - intros [= <-]. by rewrite parse_ip_text.
  - intros [= <-]. by rewrite socket_addr_roundtrip.
  - intros [= <-]. by destruct v.
  - destruct Hv as [Hv Hu]. rewrite bool_decide_true by done. intros [= <-]. rewrite parse_to_dec by done.
    cbn [ok_or res_bind]. by rewrite Hv.
  - destruct Hv as [Hv Hu]. intros [= <-]. rewrite parse_to_dec by done. cbn [ok_or res_bind]. by rewrite Hu.
  - intros [= <-]. rewrite parse_to_dec_signed by apply whole_seconds_range. cbn [ok_or res_bind].
    by rewrite bool_decide_true.
  - intros [= <-]. by rewrite parse_to_dec_signed.
  - intros [= <-]. by rewrite float_roundtrip.
  - destruct Hv as [t Ht]. intros [= <-]. rewrite parse_to_dec_signed by apply timestamp_range.
    cbn [ok_or res_bind]. by rewrite Ht.
Qed.

(** * Lists *)

Definition comma_list (ts : list (list Z)) : list Z :=
  match ts with
  | [] => []
  | t :: ts => t ++ flat_map (fun t => 0x2c :: t) ts
  end.

Lemma serialize_items_spec s vs : listable s = true -> Forall (in_range s) vs ->
  exists ts, Forall2 (fun v t => serialize s v = Ok t /\ list_item t) vs ts /\
    forall acc, serialize_items s vs acc =
      Ok (if bool_decide (acc = []) then comma_list ts else acc ++ flat_map (fun t => 0x2c :: t) ts).
Proof.
  intros Hl. induction 1 as [|v vs Hv _ (ts & Hts & IH)].
  - exists []. split; [constructor|]. intros acc. cbn. case_bool_decide; [by subst|by rewrite app_nil_r].
  - destruct (serialize_item s v Hl Hv) as (t & Ht & Hi). exists (t :: ts). split; [by constructor|].
    intros acc. cbn [serialize_items]. rewrite Ht. cbn [res_bind]. rewrite IH.
    assert (forall l, l ++ t <> []) as Hn by (intros l [_ ?]%app_eq_nil; by destruct Hi).
    rewrite bool_decide_false by apply Hn. f_equal. case_bool_decide; [by subst|].
    rewrite <- !app_assoc. done.
Qed.

Lemma split_comma_list t ts : Forall (fun t => 0x2c ∉ t) (t :: ts) -> split 0x2c (comma_list (t :: ts)) = t :: ts.
Proof.
  revert t. induction ts as [|u ts IH]; intros t Hts; apply Forall_cons in Hts as [Ht Hts]; cbn [comma_list flat_map].
  - rewrite app_nil_r. by apply split_none.
  - cbn [app]. rewrite split_app by done. f_equal. by apply IH.
Qed.

Lemma vector_items_spec ts : Forall list_item ts -> vector_items (comma_list ts) = ts.
Proof.
  intros Hts. destruct ts as [|t ts]; [done|]. unfold vector_items.
  rewrite split_comma_list by (eapply Forall_impl; [exact Hts|by intros ? (_ & _ & ?)]).
  induction Hts as [|u us (Hn & Hg & _) _ IH]; [done|]. cbn [fmap list_fmap].
  rewrite filter_cons_True by (by rewrite trim_graphic). rewrite trim_graphic by done. f_equal. exact IH.
Qed.

Lemma deserialize_items s arg vs ts : Forall (in_range s) vs ->
  Forall2 (fun v t => serialize s v = Ok t /\ list_item t) vs ts ->
  res_mapM (fun val => deserialize s arg (trim val)) ts = Ok (written s <$> vs).
Proof.
  intros Hv Hts. induction Hts as [|v t vs ts (Ht & _ & Hg & _) _ IH]; [done|]. apply Forall_cons in Hv as [Hv Hvs].
  cbn [res_mapM]. rewrite trim_graphic by done. rewrite (deserialize_serialize s v) by done. cbn [res_bind].
  by rewrite IH.
Qed.

Lemma deserialize_serialize_vector s vs : listable s = true -> Forall (in_range s) vs ->
  exists text, serialize_vector s vs = Ok text /\ utf8_valid text = true /\
    forall arg, deserialize_vector s arg text = Ok (written s <$> vs).
Proof.
  intros Hl Hv. destruct (serialize_items_spec s vs Hl Hv) as (ts & Hts & Heq). exists (comma_list ts).
  assert (Forall list_item ts) as Hi by (clear -Hts; induction Hts as [|? ? ? ? [_ ?]]; by constructor).
  split_and!.
  - unfold serialize_vector. rewrite Heq. by rewrite bool_decide_true.
  - apply utf8_valid_ascii, graphic_ascii. assert (Forall (Forall graphic) ts) as Hg
      by (eapply Forall_impl; [exact Hi|by intros ? (_ & ? & _)]).
    destruct Hg as [|t us Ht Hus]; [done|]. cbn. apply Forall_app. split; [done|].
    clear -Hus. induction Hus; cbn; [done|]. constructor; [unfold graphic; lia|]. apply Forall_app. by split.
  - intros arg. unfold deserialize_vector. rewrite vector_items_spec by done. by apply deserialize_items.
Qed.

(** * The values of fields *)

Definition field_in_range (v : field_value) : Prop :=
  match v with
  | One s v => in_range s v
  | Many s vs => listable s = true /\ Forall (in_range s) vs
  end.

Definition field_written (v : field_value) : field_value :=
  match v with
  | One s v => One s (written s v)
  | Many s vs => Many s (written s <$> vs)
  end.

Definition has_type (t : field_type) (v : field_value) : Prop :=
  match t, v with
  | TOne s, One s' _ | TMany s, Many s' _ => s = s'
  | _, _ => False
  end.

Lemma read_write_field f t v : field_type_of f = Some t -> has_type t v -> field_in_range v ->
  exists text, write_field v = Ok text /\ utf8_valid text = true /\ read_field f text = Some (Ok (field_written v)).
Proof.
  intros Ht Hty Hv. unfold read_field. rewrite Ht. cbn.
  destruct t as [s|s], v as [s' v|s' vs]; try done; cbn in Hty; subst s'; cbn [field_in_range write_field field_written] in *.
  - destruct (serialize_utf8 s v Hv) as (text & Hs & Hu). exists text. split_and!; [done..|].
    by rewrite (deserialize_serialize s v).
  - destruct Hv as [Hl Hv]. destruct (deserialize_serialize_vector s vs Hl Hv) as (text & Hs & Hu & Hd).
    exists text. split_and!; [done..|]. by rewrite Hd.
Qed.

(** A field of a message that is written and read again has the value that was written, up to
    the rights of query clients and to the unit of a time; the text is valid UTF-8.  Lists keep
    their values, their length and their order. *)
Theorem field_roundtrip (f : Field) (t : field_type) (v : field_value) :
  field_type_of f = Some t -> has_type t v -> field_in_range v ->
  exists text, write_field v = Ok text /\ utf8_valid text = true /\
    read_field f text = Some (Ok (field_written v)).
Proof. apply read_write_field. Qed.

(** * What is read *)

Lemma deserialize_range s arg val v : bytes val -> utf8_valid val = true ->
  deserialize s arg val = Ok v -> in_range s v.
Proof.
  intros Hb Hu. destruct s; cbn [rust_value deserialize in_range] in *; try done.
  - destruct (parse_int w val) eqn:Hp; [|done]. intros [= <-]. by apply parse_int_range in Hp.
  - destruct (parse_uint w val) eqn:Hp; [|done]. intros [= <-]. by apply parse_uint_range in Hp.
  - intros [= <-]. destruct (base64_decode val) eqn:Hd; [|done]. by apply base64_shrinks in Hd as [_ ?].
  - by intros [= <-].
  - destruct (if starts_with _ val then _ else _) as [z|]; [|done]. intros [= <-].
    unfold is_uint, wrap. apply Z.mod_pos_bound. lia.
  - destruct (parse_uint w val) eqn:Hp; [|done]. intros [= <-]. by apply parse_uint_range in Hp.
  - destruct (parse_ip_addr val) eqn:Hp; [|done]. intros [= <-]. by apply parse_ip_range in Hp.
  - destruct (parse_uint 32 val) as [z|] eqn:Hp; [|done]. cbn [ok_or res_bind]. apply parse_uint_range in Hp.
    destruct (from_u32 name z) as [y|] eqn:Hf; [|done]. intros [= <-]. revert Hf. unfold from_u32.
    destruct (is_str name "Permission"); [by intros [= <-]|]. destruct (bool_decide (z ∈ enum_values name)) eqn:Hin; [|done]. intros [= <-]. by rewrite Hin.
  - destruct (parse_uint _ val) as [z|] eqn:Hp; [|done]. cbn [ok_or res_bind]. apply parse_uint_range in Hp.
    destruct (from_bits name z) as [y|] eqn:Hf; [|done]. intros [= <-]. revert Hf. unfold from_bits.
    destruct (Z.land z (all_bits name) =? z) eqn:Hz; [|done]. intros [= <-]. by rewrite Hz.
  - destruct (parse_int 64 val) as [z|] eqn:Hp; [|done]. cbn [ok_or res_bind]. case_bool_decide; [|done].
    intros [= <-]. rewrite seconds_whole; [done|]. by eapply parse_int_range.
  - destruct (parse_int 64 val) as [z|] eqn:Hp; [|done]. intros [= <-]. apply parse_int_range in Hp.
    by rewrite milliseconds_whole.
  - destruct (parse_int 64 val) as [z|] eqn:Hp; [|done]. cbn [ok_or res_bind].
    destruct (from_unix_timestamp z) as [y|] eqn:Hf; [|done]. intros [= <-].
    rewrite (timestamp_whole z) by done. rewrite Hf. by eexists.
Qed.

Lemma deserialize_no_panic s arg val : deserialize s arg val <> Panic.
Proof.
  intros Hd. destruct s; cbn [deserialize] in Hd; try done; repeat (case_match; try done).
  all: repeat match goal with H : context [ok_or ?o _] |- _ => destruct o; cbn in H; try done end.
  all: by case_bool_decide.
Qed.

(** Every value that is read from a message has the range of its Rust type, whatever the text
    is, and reading never panics: numbers have their width, enumerations and flags only declared
    values. *)
Theorem read_values_typed (s : scalar) (arg val : list Z) :
  bytes val -> utf8_valid val = true ->
  match deserialize s arg val with
  | Ok v => in_range s v
  | Err _ => True
  | Panic => False
  end.
Proof.
  intros Hb Hu. destruct (deserialize s arg val) as [v|e|] eqn:Hd; [by eapply deserialize_range|done|].
  by apply deserialize_no_panic in Hd.
Qed.

End spec.

(** * An instance of the parameters *)

(** Natural numbers as floats and as ports, microseconds, three variants of every enumeration and
    eight flags. *)
Definition clamp (z : Z) : Z := Z.max (- 2 ^ 63) (Z.min (2 ^ 63 - 1) z).

Definition natural_parse (s : list Z) : option N := Z.to_N <$> digits_value 10 s 0.

#[global] Instance natural_floats : Floats := {|
  Float _ := N;
  parse_float _ s := natural_parse s;
  print_float _ f := to_dec (Z.of_N f);
  float_micros f := 1000 * Z.of_N f;
  micros_float z := Z.to_N (z / 1000);
|}.

#[global] Instance micro_times : Times := {|
  Duration := Z;
  seconds z := z * 1000000;
  milliseconds z := z * 1000;
  microseconds z := z;
  whole_seconds d := clamp (Z.quot d 1000000);
  whole_milliseconds d := Z.quot d 1000;
  whole_microseconds d := d;
  DateTime := Z;
  from_unix_timestamp z := if bool_decide (is_int 40 z) then Some z else None;
  to_unix_timestamp := clamp;
|}.

#[global] Instance three_variants : DeclaredEnums := {|
  enum_values _ := [0; 1; 2];
  all_bits _ := 0xff;
  flag_width _ := 64;
|}.

#[global] Instance local_ports : SocketAddrs := {|
  SockAddr := N;
  parse_socket_addr := natural_parse;
  print_socket_addr a := to_dec (Z.of_N a);
|}.

Lemma natural_roundtrip n : natural_parse (to_dec (Z.of_N n)) = Some n.
Proof.
  unfold natural_parse. destruct (to_dec_spec (Z.of_N n)) as (_ & _ & ->); [lia|]. cbn. by rewrite N2Z.id.
Qed.

Lemma clamp_id z : is_int 64 z -> clamp z = z.
Proof. unfold is_int, clamp. cbn. lia. Qed.

Lemma clamp_range z : is_int 64 (clamp z).
Proof. unfold is_int, clamp. cbn. lia. Qed.

#[global] Instance sample_laws : ValueLaws.
Proof.
  split.
  - intros w f. apply natural_roundtrip.
  - intros w f. apply to_dec_item. lia.
  - intros z Hz. cbn. rewrite Z.quot_mul by lia. by apply clamp_id.
  - intros z _. cbn. by rewrite Z.quot_mul by lia.
  - intros d. apply clamp_range.
  - intros t. apply clamp_range.
  - intros z t. cbn. case_bool_decide as Hz; [|done]. intros [= <-]. apply clamp_id.
    unfold is_int in *. cbn in *. lia.
  - intros name z Hz. cbn in Hz. repeat (apply elem_of_cons in Hz as [->|Hz]; [done|]). by apply elem_of_nil in Hz.
  - reflexivity.
  - intros name. done.
  - intros a. apply natural_roundtrip.
  - intros a. apply to_dec_item. lia.
Qed.

Definition ports_field : Field :=
  {| f_map := byte_str "ports"; f_ts := byte_str "ports"; f_pretty := byte_str "Ports";
     f_type_s := byte_str "u16"; f_modifier := Some (byte_str "array") |}.

Lemma field_roundtrip_witness :
  write_field (Many (SUint 16) [9987; 0; 65535]) = Ok (byte_str "9987,0,65535") /\
  read_field ports_field (byte_str "9987,0,65535") = Some (Ok (Many (SUint 16) [9987; 0; 65535])).
Proof.
  destruct (field_roundtrip ports_field (TMany (SUint 16)) (Many (SUint 16) [9987; 0; 65535]))
    as (text & Ht & _ & Hr); [reflexivity|reflexivity| |].
  - split; [reflexivity|]. repeat constructor; done.
  - assert (text = byte_str "9987,0,65535") as -> by (vm_compute in Ht; by injection Ht as <-).
    split; [exact Ht|exact Hr].
Defined.

(** An icon is read modulo 2^32. *)
Lemma read_values_typed_witness :
  deserialize SIconId [] (byte_str "4294967297") = Ok 1 /\ in_range SIconId 1.
Proof.
  assert (deserialize SIconId [] (byte_str "4294967297") = Ok 1) as Hd by reflexivity. split; [exact Hd|].
  pose proof (read_values_typed SIconId [] (byte_str "4294967297")) as Ht. rewrite Hd in Ht.
  apply Ht; [by apply (bool_decide_unpack _)|reflexivity].
Defined.
