(* ===== verification/Messages.v ===== *)
(** The messages: the structures, parsers and writers that the template
    [ts-bookkeeping/build/MessageDeclarations.tt] generates from the declarations of the messages,
    for any declarations.  A message type is a declared message with the fields of its attributes;
    what the generator writes for one type is a function of the type here. *)
From stdpp Require Import strings.
From S2P Require Import Prelude ByteIO Text Packets Commands InitPackets CryptoLib Ip IpParse Book Strings Types Declarations Values.
#[local] Open Scope Z_scope.

(** * Message types *)

Record Attribute := { at_field : Field; at_opt : bool; at_type : field_type }.

Record MessageType := {
  mt_message : Message;
  mt_default : MessageGroupDefaults;
  mt_attributes : list Attribute;
}.

(** An unknown field or type stops the generator. *)
Definition attribute_of (d : MessageDeclarations) (a : list Z) : res FmtError Attribute :=
  let? f := get_field d a in
  let? t := unwrap (field_type_of f) in
  Ok {| at_field := f; at_opt := ends_with (byte_str "?") a; at_type := t |}.

Definition message_type (d : MessageDeclarations) (g : MessageGroup) (m : Message) : res FmtError MessageType :=
  let? attributes := res_mapM (attribute_of d) (m_attributes m) in
  Ok {| mt_message := m; mt_default := g_default g; mt_attributes := attributes |}.

(** All messages, in the order of the declarations. *)
Definition message_types (d : MessageDeclarations) : res FmtError (list MessageType) :=
  res_mapM (fun '(g, m) => message_type d g m) (flat_map (fun g => (fun m => (g, m)) <$> g_msg g) (msg_group d)).

Definition mt_packet_type (t : MessageType) : PacketType := if low (mt_default t) then CommandLow else Command.

Section messages.
Context `{BeIo} `{Floats} `{Times} `{DeclaredEnums} `{SocketAddrs} `{Base64Enc} `{Base64Dec}.

(** A part has a value for every attribute, of those that are not optional always. *)
Definition Part : Type := list (option field_value).

Record InMsg := { im_return_code : option (list Z); im_list : list Part }.

(** * Parsing *)

(** The first attribute with that name, and its place. *)
Definition find_attribute (attributes : list Attribute) (name : list Z) : option (nat * Attribute) :=
  list_find (fun a => f_ts (at_field a) = name) attributes.

(** [v.take().or_else(|| list.first()..)] for every attribute: a missing value is that of the first
    part. *)
Fixpoint build_part (name : list Z) (attributes : list Attribute) (vars first : Part) : res ParseError Part :=
  match attributes with
  | [] => Ok []
  | a :: attributes =>
      let value := match mjoin (head vars) with Some v => Some v | None => mjoin (head first) end in
      if bool_decide (value = None) && negb (at_opt a)
      then Err (PE_ParameterNotFound (f_pretty (at_field a)) name)
      else
        let? part := build_part name attributes (tail vars) (tail first) in
        Ok (value :: part)
  end.

Definition no_values (attributes : list Attribute) : Part := replicate (length attributes) None.

(** The loop over the items of the command; the generator knows the type of a field. *)
Fixpoint parse_items (t : MessageType) (items : list CommandItem) (vars : Part) (return_code : option (list Z))
    (parts : list Part) : res ParseError InMsg :=
  match items with
  | [] => Ok {| im_return_code := return_code; im_list := parts |}
  | NextCommand :: items =>
      let? new := build_part (m_name (mt_message t)) (mt_attributes t) vars (default [] (head parts)) in
      parse_items t items (no_values (mt_attributes t)) return_code (parts ++ [new])
  | Argument arg :: items =>
      match find_attribute (mt_attributes t) (ca_name arg) with
      | Some (i, a) =>
          let? val := map_err PE_TsProto (CommandArgumentValue_get_str (ca_value arg)) in
          let? v := match read_field (at_field a) val with Some v => v | None => Panic end in
          parse_items t items (<[i := Some v]> vars) return_code parts
      | None =>
          if response (mt_default t) && is_str (ca_name arg) "return_code" then
            let? code := map_err PE_TsProto (CommandArgumentValue_get_str (ca_value arg)) in
            parse_items t items vars (Some code) parts
          else parse_items t items vars return_code parts
      end
  end.

(** [In..::new] *)
Definition InMsg_new (t : MessageType) (header : InHeader) (args : CommandParser) : res ParseError InMsg :=
  let? p_type := map_err PE_TsProto (InHeader_packet_type header) in
  if negb (bool_decide (p_type = mt_packet_type t)) then Err (PE_WrongPacketType p_type) else
  if negb (s2c (mt_default t)) && bool_decide (ih_direction header = S2C) then Err (PE_WrongDirection S2C) else
  if negb (c2s (mt_default t)) && bool_decide (ih_direction header = C2S) then Err (PE_WrongDirection C2S) else
  if bool_decide (mt_attributes t = []) then Ok {| im_return_code := None; im_list := [] |} else
  match CommandParser_collect (S (length (cp_data args))) args with
  | Some (Ok items) => parse_items t (items ++ [NextCommand]) (no_values (mt_attributes t)) None []
  | _ => Panic
  end.

(** [InMessage::new]: the messages with a name on the wire, sorted by it; of the types with the
    same name the first that can be parsed. *)
Definition notify_group (types : list MessageType) (name : list Z) : list MessageType :=
  filter (fun t => m_notify (mt_message t) = Some name) types.

Fixpoint try_types (group : list MessageType) (header : InHeader) (args : CommandParser) (name : list Z)
    : res ParseError (MessageType * InMsg) :=
  match group with
  | [] => if utf8_valid name then Err (PE_UnknownCommand name) else Err PE_StringParse
  | [t] => let? m := InMsg_new t header args in Ok (t, m)
  | t :: group =>
      match InMsg_new t header args with
      | Ok m => Ok (t, m)
      | Err _ => try_types group header args name
      | Panic => Panic
      end
  end.

Definition InMessage_new (types : list MessageType) (header : InHeader) (cmd : list Z)
    : res ParseError (MessageType * InMsg) :=
  let? '(name, args) := map_err PE_TsProto (CommandParser_new cmd) in
  try_types (notify_group types name) header args name.

Definition get_command_name (t : MessageType) : list Z :=
  default (m_name (mt_message t)) (m_notify (mt_message t)).

(** * Writing *)

Fixpoint write_part (p : OutPacket) (attributes : list Attribute) (part : Part) : res ParseError OutPacket :=
  match attributes, part with
  | a :: attributes, v :: part =>
      match v with
      | Some v =>
          let? text := write_field v in
          let? p := map_err PE_TsProto (OutCommand_write_arg p (f_ts (at_field a)) [text]) in
          write_part p attributes part
      | None => write_part p attributes part
      end
  | _, _ => Ok p
  end.

Fixpoint write_parts (p : OutPacket) (attributes : list Attribute) (first : bool) (parts : list Part)
    : res ParseError OutPacket :=
  match parts with
  | [] => Ok p
  | part :: parts =>
      let p := if first then p else OutCommand_start_new_part p in
      let? p := write_part p attributes part in
      write_parts p attributes false parts
  end.

(** [Out..Message::new]; the return code is an argument of the messages that have a response. *)
Definition OutMsg_new (t : MessageType) (parts : list Part) (return_code : option (list Z))
    : res ParseError OutPacket :=
  let d := mt_default t in
  let? p := map_err PE_TsProto (OutCommand_new (if s2c d then S2C else C2S) (if np d then NEWPROTOCOL else Flags_empty)
    (mt_packet_type t) (default [] (m_notify (mt_message t)))) in
  let? p :=
    match (if response d then return_code else None) with
    | Some r => map_err PE_TsProto (OutCommand_write_arg p (byte_str "return_code") [r])
    | None => Ok p
    end in
  if bool_decide (mt_attributes t = []) then Ok p else write_parts p (mt_attributes t) true parts.

End messages.
