(* ===== verification/MessagesSpec.v ===== *)
(** The messages: a message that is written is parsed back by the other side, and whatever is
    parsed has the values its type promises. *)
From stdpp Require Import strings.
From S2P Require Import Prelude ByteIO Text Packets Commands InitPackets CryptoLib Ip IpParse Book Strings Types Declarations Values ValuesSpec Messages.
#[local] Open Scope Z_scope.

Section spec.
Context `{BeIoLaws} `{Floats} `{Times} `{DeclaredEnums} `{SocketAddrs} `{Base64Laws} `{!ValueLaws}.

(** * Well-formed types and parts *)

Definition at_ts (a : Attribute) : list Z := f_ts (at_field a).

(** The names on the wire are different, none is that of the return code, and the generator knows
    the types. *)
Record type_ok (t : MessageType) : Prop := {
  type_attributes : mt_attributes t <> [];
  type_names : NoDup (at_ts <$> mt_attributes t);
  type_no_code : byte_str "return_code" ∉ at_ts <$> mt_attributes t;
  type_name_chars : Forall (fun a => forallb name_char (at_ts a) = true /\ at_ts a <> []) (mt_attributes t);
  type_types : Forall (fun a => field_type_of (at_field a) = Some (at_type a)) (mt_attributes t);
}.

(** A value of the right type, which only an optional attribute may lack. *)
Definition value_ok (a : Attribute) (v : option field_value) : Prop :=
  match v with
  | Some v => has_type (at_type a) v /\ field_in_range v
  | None => at_opt a = true
  end.

Definition part_ok (t : MessageType) (part : Part) : Prop := Forall2 value_ok (mt_attributes t) part.

(** * The text of a message *)

Definition field_text (v : field_value) : list Z := match write_field v with Ok text => text | _ => [] end.

Fixpoint part_items (attributes : list Attribute) (part : Part) : list item :=
  match attributes, part with
  | a :: attributes, Some v :: part => Arg (at_ts a) (field_text v) :: part_items attributes part
  | _ :: attributes, None :: part => part_items attributes part
  | _, _ => []
  end.

Fixpoint parts_items (attributes : list Attribute) (parts : list Part) : list item :=
  match parts with
  | [] => []
  | [part] => part_items attributes part
  | part :: parts => part_items attributes part ++ NextPart :: parts_items attributes parts
  end.

Definition code_items (t : MessageType) (return_code : option (list Z)) : list item :=
  match (if response (mt_default t) then return_code else None) with
  | Some r => [Arg (byte_str "return_code") r]
  | None => []
  end.

Definition message_items (t : MessageType) (parts : list Part) (return_code : option (list Z)) : list item :=
  code_items t return_code ++ parts_items (mt_attributes t) parts.

Lemma field_text_ok f ty v : field_type_of f = Some ty -> has_type ty v -> field_in_range v ->
  write_field v = Ok (field_text v) /\ utf8_valid (field_text v) = true /\
  read_field f (field_text v) = Some (Ok (field_written v)).
Proof.
  intros Hf Ht Hv. destruct (read_write_field f ty v Hf Ht Hv) as (text & Hw & Hu & Hr).
  unfold field_text. rewrite Hw. done.
Qed.

Lemma write_arg_item p n v : OutCommand_write_arg p n [v] = write_item p (Arg n v).
Proof.
  rewrite write_arg_bin_arg. change (mjoin [v]) with (v ++ []). by rewrite app_nil_r.
Qed.

(** Writing a message writes its items. *)
Lemma write_items_app p k l :
  write_items p (k ++ l) = let? p := write_items p k in write_items p l.
Proof.
  revert p. induction k as [|i k IH]; intros p; [done|]. cbn [app write_items].
  destruct (write_item p i); [|done..]. cbn [res_bind]. apply IH.
Qed.

Lemma write_part_items p attributes part :
  Forall (fun a => field_type_of (at_field a) = Some (at_type a)) attributes -> Forall2 value_ok attributes part ->
  write_part p attributes part = map_err PE_TsProto (write_items p (part_items attributes part)).
Proof.
  intros Hat Hp. revert p. induction Hp as [|a v attributes part Hv _ IH]; intros p; [done|].
  apply Forall_cons in Hat as [Ha Hat]. cbn [write_part part_items]. destruct v as [v|]; [|by apply IH].
  destruct Hv as [Ht Hv]. destruct (field_text_ok _ _ _ Ha Ht Hv) as (-> & _). cbn [res_bind write_items].
  rewrite write_arg_item. unfold at_ts. destruct (write_item p _) as [q|e|]; [|done..]. by apply IH.
Qed.

Lemma write_parts_items attributes parts : forall p,
  Forall (fun a => field_type_of (at_field a) = Some (at_type a)) attributes ->
  Forall (fun part => Forall2 value_ok attributes part) parts ->
  write_parts p attributes true parts = map_err PE_TsProto (write_items p (parts_items attributes parts)).
Proof.
  assert (Hrest : forall parts p,
    Forall (fun a => field_type_of (at_field a) = Some (at_type a)) attributes ->
    Forall (fun part => Forall2 value_ok attributes part) parts ->
    write_parts p attributes false parts =
      map_err PE_TsProto (write_items p (flat_map (fun part => NextPart :: part_items attributes part) parts))).
  { intros ps. induction ps as [|part ps IH]; intros p Hat Hps; [done|]. apply Forall_cons in Hps as [Hp Hps].
    cbn [write_parts flat_map write_items write_item app]. cbn [res_bind].
    rewrite (write_part_items _ _ _ Hat Hp), write_items_app.
    destruct (write_items (OutCommand_start_new_part p) _); [|done..]. by apply IH. }
  intros p Hat Hps. destruct Hps as [|part ps Hp Hps]; [done|]. cbn [write_parts].
  rewrite (write_part_items _ _ _ Hat Hp).
  assert (parts_items attributes (part :: ps) = part_items attributes part
    ++ flat_map (fun part => NextPart :: part_items attributes part) ps) as ->.
  { clear. revert part. induction ps as [|q ps IH]; intros part; cbn [flat_map parts_items].
    - by rewrite app_nil_r.
    - f_equal. cbn [app]. f_equal. apply IH. }
  rewrite write_items_app. destruct (write_items p _); [|done..]. by apply Hrest.
Qed.

(** * Reading the items *)

Lemma get_str_written v : utf8_valid v = true ->
  CommandArgumentValue_get_str {| cv_raw := escape v; cv_escapes := specials v |} = Ok v.
Proof.
  intros Hv. pose proof (get_escaped v) as Hg. unfold CommandArgumentValue_get_str, CommandArgumentValue_get in *.
  cbn [cv_escapes cv_raw] in *. case_bool_decide.
  - injection Hg as Hg. by rewrite Hg, Hv.
  - rewrite Hg. cbn [res_bind]. by rewrite Hv.
Qed.

Lemma find_attribute_at pre a suf : NoDup (at_ts <$> pre ++ a :: suf) ->
  find_attribute (pre ++ a :: suf) (at_ts a) = Some (length pre, a).
Proof.
  intros Hnd. apply list_find_Some. split_and!; [by apply list_lookup_middle|done|].
  intros j y Hj Hl He. rewrite lookup_app_l in Hj by done. rewrite fmap_app, fmap_cons in Hnd.
  apply NoDup_app in Hnd as (_ & Hnd & _). eapply (Hnd (at_ts y)).
  - apply list_elem_of_fmap. exists y. split; [done|]. by eapply list_elem_of_lookup_2.
  - unfold at_ts. rewrite He. apply elem_of_cons. by left.
Qed.

Lemma find_attribute_none attributes n : n ∉ at_ts <$> attributes -> find_attribute attributes n = None.
Proof.
  intros Hn. apply list_find_None. apply Forall_forall. intros a Ha He. apply Hn.
  apply list_elem_of_fmap. by exists a.
Qed.

(** The value of the first part fills in what is missing. *)
Fixpoint inherit (first part : Part) : Part :=
  match part with
  | [] => []
  | v :: part => (match v with Some v => Some v | None => mjoin (head first) end) :: inherit (tail first) part
  end.

Lemma inherit_nil part : inherit [] part = part.
Proof. induction part as [|v part IH]; [done|]. cbn. rewrite IH. by destruct v. Qed.

Definition part_written (part : Part) : Part := option_map field_written <$> part.

(** The parts as the other side gets them. *)
Definition parts_read (parts : list Part) : list Part :=
  match part_written <$> parts with
  | [] => []
  | first :: parts => first :: (inherit first <$> parts)
  end.

Lemma build_part_ok name attributes first part :
  Forall2 (fun a v => v = None -> at_opt a = true) attributes part ->
  build_part name attributes part first = Ok (inherit first part).
Proof.
  intros Hp. revert first. induction Hp as [|a v attributes part Hv _ IH]; intros first; [done|].
  cbn [build_part inherit head tail mjoin option_join]. rewrite IH. cbn [res_bind].
  destruct v as [v|]; [done|]. rewrite (Hv eq_refl). by rewrite andb_false_r.
Qed.

Lemma set_middle (done : Part) x y k : <[length done := x]> (done ++ y :: k) = done ++ x :: k.
Proof. induction done as [|z done IH]; [done|]. cbn. f_equal. apply IH. Qed.

Section type.
Context (t : MessageType) (Hok : type_ok t).

(** The arguments of one part set the variables. *)
Lemma parse_part suf : forall pre done part rest code parts,
  mt_attributes t = pre ++ suf -> length done = length pre -> Forall2 value_ok suf part ->
  parse_items t ((parsed <$> part_items suf part) ++ rest) (done ++ replicate (length suf) None) code parts =
    parse_items t rest (done ++ part_written part) code parts.
Proof.
  induction suf as [|a suf IH]; intros pre done part rest code parts Hat Hlen Hp.
  { apply Forall2_nil_inv_l in Hp as ->. done. }
  apply Forall2_cons_inv_l in Hp as (v & part' & Hv & Hp & ->).
  assert (mt_attributes t = (pre ++ [a]) ++ suf) as Hat' by (by rewrite <- app_assoc).
  assert (forall x : option field_value, done ++ x :: replicate (length suf) None = (done ++ [x]) ++ replicate (length suf) None)
    as Hcons by (intros x; by rewrite <- app_assoc).
  cbn [part_items length replicate part_written fmap list_fmap].
  destruct v as [v|].
  - destruct Hv as [Hty Hv].
    assert (field_type_of (at_field a) = Some (at_type a)) as Hf.
    { pose proof (type_types t Hok) as Hall. rewrite Hat in Hall. by apply Forall_app in Hall as [_ [? _]%Forall_cons]. }
    destruct (field_text_ok _ _ _ Hf Hty Hv) as (_ & Hu & Hr).
    cbn [fmap list_fmap parsed app parse_items ca_name ca_value].
    pose proof (type_names t Hok) as Hnd. rewrite Hat in Hnd. rewrite Hat at 1.
    rewrite (find_attribute_at pre a suf Hnd), get_str_written by done. cbn [map_err res_bind]. rewrite Hr. cbn [res_bind].
    rewrite <- Hlen, set_middle, Hcons.
    change (list_fmap _ _ parsed ?l) with (parsed <$> l).
    rewrite (IH (pre ++ [a])) by (done || rewrite !length_app; cbn; lia).
    cbn [option_map]. by rewrite <- app_assoc.
  - rewrite Hcons. rewrite (IH (pre ++ [a])) by (done || rewrite !length_app; cbn; lia).
    cbn [option_map]. by rewrite <- app_assoc.
Qed.

Lemma parse_one_part part rest code parts : part_ok t part ->
  parse_items t ((parsed <$> part_items (mt_attributes t) part) ++ NextCommand :: rest)
    (no_values (mt_attributes t)) code parts =
  parse_items t rest (no_values (mt_attributes t)) code (parts ++ [inherit (default [] (head parts)) (part_written part)]).
Proof.
  intros Hp. pose proof (parse_part (mt_attributes t) [] [] part (NextCommand :: rest) code parts) as Hpp.
  cbn [app] in Hpp. unfold no_values at 1. rewrite Hpp by done. cbn [parse_items].
  rewrite build_part_ok; [done|]. unfold part_ok in Hp. unfold part_written.
  apply Forall2_fmap_r. eapply Forall2_impl; [exact Hp|]. intros a v Hv. destruct v; cbn; [done|]. by intros _.
Qed.

(** Every part ends, the last one too. *)
Lemma parse_part_list ps : forall code parts first, Forall (part_ok t) ps -> head parts = Some first ->
  parse_items t (flat_map (fun part => (parsed <$> part_items (mt_attributes t) part) ++ [NextCommand]) ps)
    (no_values (mt_attributes t)) code parts =
  Ok {| im_return_code := code; im_list := parts ++ map (fun part => inherit first (part_written part)) ps |}.
Proof.
  induction ps as [|part ps IH]; intros code parts first Hps Hf; [by rewrite app_nil_r|].
  apply Forall_cons in Hps as [Hp Hps]. cbn [flat_map map]. rewrite <- app_assoc. cbn [app].
  rewrite parse_one_part by done. rewrite Hf. cbn [default from_option].
  rewrite (IH _ _ first) by (done || by destruct parts). by rewrite <- app_assoc.
Qed.

Lemma parts_items_end attributes part ps :
  (parsed <$> parts_items attributes (part :: ps)) ++ [NextCommand] =
    flat_map (fun part => (parsed <$> part_items attributes part) ++ [NextCommand]) (part :: ps).
Proof.
  revert part. induction ps as [|q ps IH]; intros part; cbn [flat_map].
  - by rewrite app_nil_r.
  - change (parts_items attributes (part :: q :: ps)) with
      (part_items attributes part ++ NextPart :: parts_items attributes (q :: ps)).
    rewrite fmap_app, fmap_cons, <- !app_assoc. cbn [app parsed]. f_equal. f_equal. rewrite IH. cbn [flat_map].
    by rewrite <- ?app_assoc.
Qed.

Definition code_ok (return_code : option (list Z)) : Prop :=
  match return_code with Some r => utf8_valid r = true | None => True end.

Lemma parse_message parts return_code : parts <> [] -> Forall (part_ok t) parts -> code_ok return_code ->
  parse_items t ((parsed <$> message_items t parts return_code) ++ [NextCommand]) (no_values (mt_attributes t)) None [] =
  Ok {| im_return_code := if response (mt_default t) then return_code else None; im_list := parts_read parts |}.
Proof.
  intros Hne Hps Hc. destruct parts as [|part ps]; [done|].
  set (code := if response (mt_default t) then return_code else None).
  assert (parse_items t ((parsed <$> message_items t (part :: ps) return_code) ++ [NextCommand])
      (no_values (mt_attributes t)) None [] =
    parse_items t ((parsed <$> parts_items (mt_attributes t) (part :: ps)) ++ [NextCommand])
      (no_values (mt_attributes t)) code []) as ->.
  { unfold message_items, code_items. subst code. destruct (response (mt_default t)) eqn:Hr; [|done].
    destruct return_code as [r|]; [|done]. cbn [app fmap list_fmap parsed parse_items ca_name ca_value].
    rewrite find_attribute_none by apply (type_no_code t Hok). rewrite Hr. cbn [andb is_str].
    unfold is_str. rewrite bool_decide_true by done. by rewrite get_str_written. }
  rewrite parts_items_end. cbn [flat_map]. apply Forall_cons in Hps as [Hp Hps]. rewrite <- app_assoc. cbn [app].
  rewrite parse_one_part by done. cbn [head default from_option app]. rewrite inherit_nil.
  rewrite (parse_part_list _ _ _ (part_written part)) by done. unfold parts_read. cbn [fmap list_fmap app].
  do 3 f_equal. symmetry. apply map_map.
Qed.

End type.

(** * The round trip *)

Lemma part_items_ok t part : type_ok t -> Forall item_ok (part_items (mt_attributes t) part).
Proof.
  intros Hok. pose proof (type_name_chars t Hok) as Hn. revert part.
  induction Hn as [|a attributes [Hc Hne] _ IH]; intros part; [by destruct part|].
  destruct part as [|[v|] part]; [done| |]; cbn [part_items]; [|apply IH].
  constructor; [|apply IH]. split; [done|by left].
Qed.

Lemma message_items_ok t parts code : type_ok t -> Forall item_ok (message_items t parts code).
Proof.
  intros Hok. apply Forall_app. split.
  - unfold code_items. destruct (if response _ then code else None); [|done].
    constructor; [|done]. split; [done|by left].
  - induction parts as [|part parts IH]; [done|]. destruct parts as [|q parts]; [by apply part_items_ok|].
    cbn [parts_items] in *. apply Forall_app. split; [by apply part_items_ok|]. by constructor.
Qed.

Lemma out_items t parts code : type_ok t -> Forall (part_ok t) parts ->
  OutMsg_new t parts code =
    let? p := map_err PE_TsProto (OutCommand_new (if s2c (mt_default t) then S2C else C2S)
      (if np (mt_default t) then NEWPROTOCOL else Flags_empty) (mt_packet_type t) (default [] (m_notify (mt_message t)))) in
    map_err PE_TsProto (write_items p (message_items t parts code)).
Proof.
  intros Hok Hps. unfold OutMsg_new. destruct (map_err PE_TsProto (OutCommand_new _ _ _ _)) as [p| |]; [|done..].
  cbn [res_bind]. rewrite bool_decide_false by apply (type_attributes t Hok).
  unfold message_items. rewrite write_items_app. unfold code_items.
  destruct (if response (mt_default t) then code else None) as [r|]; cbn [write_items res_bind].
  - rewrite write_arg_item. destruct (write_item p _) as [q| |]; [|done..]. cbn [map_err res_bind].
    apply write_parts_items; [apply (type_types t Hok)|done].
  - apply write_parts_items; [apply (type_types t Hok)|done].
Qed.

(** The header of a packet that may carry the message. *)
Definition header_ok (t : MessageType) (header : InHeader) : Prop :=
  InHeader_packet_type header = Ok (mt_packet_type t) /\
  match ih_direction header with
  | S2C => s2c (mt_default t) = true
  | C2S => c2s (mt_default t) = true
  end.

Lemma header_passes t header args : header_ok t header -> type_ok t ->
  InMsg_new t header args =
    match CommandParser_collect (S (length (cp_data args))) args with
    | Some (Ok items) => parse_items t (items ++ [NextCommand]) (no_values (mt_attributes t)) None []
    | _ => Panic
    end.
Proof.
  intros [Ht Hd] Hok. unfold InMsg_new. rewrite Ht. cbn [map_err res_bind]. rewrite bool_decide_true by done. cbn [negb].
  destruct (ih_direction header); rewrite Hd; cbn [negb andb].
  - rewrite (bool_decide_false (S2C = C2S)), andb_false_r by done.
    by rewrite bool_decide_false by apply (type_attributes t Hok).
  - rewrite (bool_decide_false (C2S = S2C)), andb_false_r by done.
    by rewrite bool_decide_false by apply (type_attributes t Hok).
Qed.

(** A message begins with an argument: a name in front of a part separator is not read. *)
Definition begins (t : MessageType) (parts : list Part) (return_code : option (list Z)) : bool :=
  match message_items t parts return_code with
  | NextPart :: _ => false
  | _ => true
  end.

(** The wire carries the parts of a message. *)
Lemma message_wire (types : list MessageType) (t : MessageType) (name : list Z) (header : InHeader)
    (parts : list Part) (return_code : option (list Z)) :
  type_ok t -> m_notify (mt_message t) = Some name -> notify_group types name = [t] ->
  name <> [] -> forallb is_ascii_alphanumeric name = true -> header_ok t header ->
  parts <> [] -> Forall (part_ok t) parts -> code_ok return_code -> begins t parts return_code = true ->
  exists q content,
    OutMsg_new t parts return_code = Ok q /\ OutPacket_content q = Ok content /\
    InMessage_new types header content =
      Ok (t, {| im_return_code := if response (mt_default t) then return_code else None; im_list := parts_read parts |}).
Proof.
  intros Hok Hnot Hgroup Hne Hname Hh Hpne Hps Hcode Hb.
  set (items := message_items t parts return_code).
  assert (command_ok name items) as Hcmd.
  { split_and!; [done..|by apply message_items_ok|]. unfold items. unfold begins in Hb.
    destruct (message_items t parts return_code) as [|[]]; done. }
  assert (is_flags (if np (mt_default t) then NEWPROTOCOL else Flags_empty)) as Hf
    by (destruct (np (mt_default t)); done).
  destruct (command_wire (if s2c (mt_default t) then S2C else C2S) _ (mt_packet_type t) name items Hf Hcmd)
    as (p & q & Hp & Hq & Hcont & Hparse & Hcollect).
  exists q, (name ++ items_text false items). split_and!; [|done|].
  - rewrite out_items, Hnot by done. cbn [default from_option id]. rewrite Hp. cbn [map_err res_bind].
    fold items. by rewrite Hq.
  - unfold InMessage_new. rewrite Hparse. cbn [map_err res_bind]. rewrite Hgroup. cbn [try_types].
    rewrite header_passes by done. cbn [cp_data parser_at]. rewrite Hcollect.
    unfold items. by rewrite parse_message.
Qed.

(** The text keeps the value: all but the admin right of a query client, and times that are finer
    than their unit. *)
Definition kept (v : option field_value) : Prop :=
  match v with Some v => field_written v = v | None => True end.

Lemma part_kept part : Forall kept part -> part_written part = part.
Proof.
  induction 1 as [|v part Hv _ IH]; [done|]. unfold part_written, Part in *. rewrite fmap_cons, IH. f_equal.
  destruct v as [v|]; [|done]. cbn in *. by rewrite Hv.
Qed.

Lemma inherit_full first part : Forall is_Some part -> inherit first part = part.
Proof.
  intros Hp. revert first. induction Hp as [|v part [x ->] _ IH]; intros first; [done|]. cbn. by rewrite IH.
Qed.

(** Parts whose values are kept, and of which all but the first are full, are read as they are. *)
Lemma parts_kept parts : Forall (Forall kept) parts -> Forall (Forall is_Some) (tail parts) ->
  parts_read parts = parts.
Proof.
  intros Hk Hf. unfold parts_read. assert (part_written <$> parts = parts) as ->.
  { clear Hf. induction Hk as [|part parts Hpart _ IH]; [done|]. rewrite fmap_cons, IH. f_equal. by apply part_kept. }
  destruct parts as [|first parts]; [done|]. f_equal. cbn [tail] in Hf. clear Hk.
  induction Hf as [|part parts Hpart _ IH]; [done|]. rewrite fmap_cons, IH. f_equal. by apply inherit_full.
Qed.

(** C2: A message that one side writes is parsed by the other side to a message of the same type,
    with the same return code (where the type has one) and the same parts in their order, as far as
    the text keeps them ([parts_read]): a query client loses its admin right, a time what is finer
    than its unit, and a value that a part leaves out is that of the first part.  Parts of other
    values, of which all but the first leave nothing out, are read as they are.  The type is one that
    the generator accepts, with an alphanumeric name that no other type has; the values have the
    types and the ranges of the attributes, and types that may stand in a list where they do; and
    the message begins with an argument. *)
Theorem message_roundtrip (types : list MessageType) (t : MessageType) (name : list Z) (header : InHeader)
    (parts : list Part) (return_code : option (list Z)) :
  type_ok t -> m_notify (mt_message t) = Some name -> notify_group types name = [t] ->
  name <> [] -> forallb is_ascii_alphanumeric name = true -> header_ok t header ->
  parts <> [] -> Forall (part_ok t) parts -> code_ok return_code -> begins t parts return_code = true ->
  exists q content,
    OutMsg_new t parts return_code = Ok q /\ OutPacket_content q = Ok content /\
    InMessage_new types header content =
      Ok (t, {| im_return_code := if response (mt_default t) then return_code else None; im_list := parts_read parts |}) /\
    (Forall (Forall kept) parts -> Forall (Forall is_Some) (tail parts) -> parts_read parts = parts).
Proof.
  intros Hok Hnot Hgroup Hne Hname Hh Hpne Hps Hcode Hb.
  destruct (message_wire types t name header parts return_code) as (q & content & Hq & Hc & Hm); [done..|].
  exists q, content. split; [exact Hq|]. split; [exact Hc|]. split; [exact Hm|]. apply parts_kept.
Qed.

(** * What is parsed *)

Lemma slice_forall {E} (P : Z -> Prop) l i j s : Forall P l -> slice (E := E) l i j = Ok s -> Forall P s.
Proof.
  intros Hl. unfold slice. case_bool_decide; [|done]. intros [= <-]. by apply Forall_take, Forall_drop.
Qed.

Definition item_bytes (i : CommandItem) : Prop :=
  match i with
  | Argument a => bytes (cv_raw (ca_value a))
  | NextCommand => True
  end.

Lemma next_bytes p o p' : bytes (cp_data p) -> CommandParser_next p = Ok (o, p') ->
  cp_data p' = cp_data p /\ match o with Some i => item_bytes i | None => True end.
Proof.
  intros Hb. unfold CommandParser_next. change (cp_data (CommandParser_skip_space p)) with (cp_data p).
  generalize (cp_index (CommandParser_skip_space p)) as i. intros i.
  case_bool_decide; [by intros [= <- <-]|].
  destruct (index (cp_data p) i) as [cur| |]; [|done..]. cbn [res_bind].
  destruct (cur =? c_pipe); [by intros [= <- <-]|].
  generalize (name_loop (drop i (cp_data p)) i) as j. intros j.
  destruct (if bool_decide _ then _ else _) as [has_value| |]; [|done..]. cbn [res_bind].
  destruct (slice (cp_data p) i j) as [name| |]; [|done..]. cbn [res_bind].
  destruct (negb has_value); [intros [= <- <-]; split; [done|constructor]|].
  destruct (value_loop _ _ _) as [k e].
  destruct (slice (cp_data p) (S j) k) as [raw| |] eqn:Hraw; [|done..]. intros [= <- <-].
  split; [done|]. cbn. by eapply slice_forall.
Qed.

Lemma collect_bytes fuel : forall p items, bytes (cp_data p) ->
  CommandParser_collect fuel p = Some (Ok items) -> Forall item_bytes items.
Proof.
  induction fuel as [|fuel IH]; intros p items Hb Hc; [done|]. cbn [CommandParser_collect] in Hc.
  destruct (CommandParser_next p) as [[[i|] p']| |] eqn:Hn; try done; [|by injection Hc as <-].
  apply next_bytes in Hn as [Hd Hi]; [|done].
  destruct (CommandParser_collect fuel p') as [[items'| |]|] eqn:Hc'; try done. injection Hc as <-.
  constructor; [done|]. apply (IH p'); [by rewrite Hd|done].
Qed.

Lemma unescape_bytes n : forall raw, (length raw <= n)%nat -> bytes raw -> bytes (unescape_loop raw).
Proof.
  induction n as [|n IH]; intros raw Hn Hb; [by destruct raw; [|cbn in Hn; lia]|].
  destruct Hb as [|c raw Hc Hb]; [done|]. cbn in Hn |- *. destruct (c =? c_backslash).
  - destruct Hb as [|d raw Hd Hb]; [done|]. constructor; [|apply IH; [cbn in Hn; lia|done]].
    unfold unescape_char. repeat (case_match; [done|]). done.
  - constructor; [done|]. apply IH; [lia|done].
Qed.

Lemma get_str_bytes v s : bytes (cv_raw v) -> CommandArgumentValue_get_str v = Ok s -> bytes s /\ utf8_valid s = true.
Proof.
  intros Hb. unfold CommandArgumentValue_get_str, CommandArgumentValue_unescape. case_bool_decide.
  - destruct (utf8_valid (cv_raw v)) eqn:Hu; [|done]. by intros [= <-].
  - case_bool_decide; [|done]. cbn [res_bind]. destruct (utf8_valid _) eqn:Hu; [|done]. intros [= <-].
    split; [by eapply unescape_bytes|done].
Qed.

Lemma get_str_safe v : no_panic (CommandArgumentValue_get v) = true -> CommandArgumentValue_get_str v <> Panic.
Proof.
  unfold CommandArgumentValue_get_str, CommandArgumentValue_get. case_bool_decide; [by destruct (utf8_valid _)|].
  destruct (CommandArgumentValue_unescape v); [|done..]. cbn [res_bind]. by destruct (utf8_valid _).
Qed.

(** The values of a Rust type, in lists too. *)
Definition field_typed (v : field_value) : Prop :=
  match v with
  | One s v => in_range s v
  | Many s vs => Forall (in_range s) vs
  end.

Definition value_typed (a : Attribute) (v : option field_value) : Prop :=
  match v with
  | Some v => has_type (at_type a) v /\ field_typed v
  | None => at_opt a = true
  end.

(** A variable is empty or has a value of its type. *)
Definition var_typed (a : Attribute) (v : option field_value) : Prop :=
  match v with
  | Some v => has_type (at_type a) v /\ field_typed v
  | None => True
  end.

Definition message_typed (t : MessageType) (m : InMsg) : Prop :=
  Forall (fun part => Forall2 value_typed (mt_attributes t) part) (im_list m) /\
  (mt_attributes t <> [] -> im_list m <> []).

Definition outcome_ok {A} (P : A -> Prop) (r : res ParseError A) : Prop :=
  match r with
  | Ok a => P a
  | Err _ => True
  | Panic => False
  end.

Lemma deserialize_outcome s arg val : bytes val -> utf8_valid val = true -> outcome_ok (in_range s) (deserialize s arg val).
Proof.
  intros Hb Hu. destruct (deserialize s arg val) as [v|e|] eqn:Hd; [by eapply deserialize_range|done|].
  by apply deserialize_no_panic in Hd.
Qed.

Lemma res_mapM_outcome {A B} (f : A -> res ParseError B) (P : B -> Prop) l :
  (forall x, x ∈ l -> outcome_ok P (f x)) -> outcome_ok (Forall P) (res_mapM f l).
Proof.
  intros Hf. induction l as [|x l IH]; [by constructor|]. cbn [res_mapM].
  pose proof (Hf x ltac:(by left)) as Hx. destruct (f x) as [y| |]; [|done..]. cbn [res_bind].
  destruct (res_mapM f l) as [ys| |]; [|done|]; cbn [res_bind].
  - constructor; [done|]. apply IH. intros z Hz. apply Hf. by right.
  - apply IH. intros z Hz. apply Hf. by right.
Qed.

Lemma read_field_outcome a val : field_type_of (at_field a) = Some (at_type a) ->
  bytes val -> utf8_valid val = true ->
  exists r, read_field (at_field a) val = Some r /\ outcome_ok (fun v => has_type (at_type a) v /\ field_typed v) r.
Proof.
  intros Hf Hb Hu. unfold read_field. rewrite Hf. cbn. destruct (at_type a) as [s|s]; eexists; (split; [reflexivity|]).
  - pose proof (deserialize_outcome s (f_pretty (at_field a)) val Hb Hu) as Hd. by destruct (deserialize s _ val).
  - assert (outcome_ok (Forall (in_range s)) (deserialize_vector s (f_pretty (at_field a)) val)) as Hd.
    { apply res_mapM_outcome. intros p Hp. unfold vector_items in Hp. apply list_elem_of_filter in Hp as [_ Hp].
      apply list_elem_of_fmap in Hp as (q & -> & Hq).
      pose proof (split_forall _ 0x2c val Hb) as Hqb. pose proof (split_utf8 0x2c val ltac:(lia) Hu) as Hqu.
      eapply Forall_forall in Hqb; [|exact Hq]. eapply Forall_forall in Hqu; [|exact Hq].
      apply deserialize_outcome; [by do 2 apply trim_forall|by do 2 apply trim_utf8]. }
    by destruct (deserialize_vector s _ val).
Qed.

Lemma build_part_outcome name attributes : forall vars first,
  Forall2 var_typed attributes vars -> first = [] \/ Forall2 value_typed attributes first ->
  outcome_ok (Forall2 value_typed attributes) (build_part name attributes vars first).
Proof.
  induction attributes as [|a attributes IH]; intros vars first Hv Hf; [by constructor|].
  apply Forall2_cons_inv_l in Hv as (v & vars' & Hv & Hvs & ->). cbn [build_part head tail].
  assert (exists x first', (first = [] /\ x = None /\ first' = [] \/ first = x :: first' /\ value_typed a x) /\
    mjoin (head first) = x /\ tail first = first' /\ (first' = [] \/ Forall2 value_typed attributes first'))
    as (x & first' & Hx & -> & -> & Hf').
  { destruct Hf as [->|Hf]; [by exists None, []; auto|].
    apply Forall2_cons_inv_l in Hf as (x & first' & Hx & Hf & ->). exists x, first'. by destruct x; auto 10. }
  specialize (IH vars' first' Hvs Hf').
  set (value := match mjoin (Some v) with Some v => Some v | None => x end).
  assert (value <> None -> value_typed a value) as Hval.
  { subst value. destruct v as [v|]; cbn; [done|]. destruct x as [x|]; [|done].
    by destruct Hx as [(_ & ? & _)|[_ Hx]]. }
  case_bool_decide as Hn; cbn [andb].
  - destruct (at_opt a) eqn:Ho; [|done]. cbn [negb].
    destruct (build_part name attributes vars' first'); [|done..]. cbn. constructor; [by rewrite Hn|done].
  - destruct (build_part name attributes vars' first'); [|done..]. cbn. constructor; [by apply Hval|done].
Qed.

Lemma no_values_typed attributes : Forall2 var_typed attributes (no_values attributes).
Proof. unfold no_values. induction attributes; by constructor. Qed.

(** Every [NextCommand] ends a part. *)
Fixpoint next_commands (items : list CommandItem) : nat :=
  match items with
  | [] => 0
  | NextCommand :: items => S (next_commands items)
  | Argument _ :: items => next_commands items
  end.

Lemma parse_items_outcome t items :
  Forall (fun a => field_type_of (at_field a) = Some (at_type a)) (mt_attributes t) ->
  Forall item_bytes items -> Forall (fun i => no_panic (read_item i) = true) items ->
  forall vars code parts, Forall2 var_typed (mt_attributes t) vars ->
  Forall (fun part => Forall2 value_typed (mt_attributes t) part) parts ->
  outcome_ok (fun m => Forall (fun part => Forall2 value_typed (mt_attributes t) part) (im_list m) /\
    (length parts + next_commands items = length (im_list m))%nat)
    (parse_items t items vars code parts).
Proof.
  intros Hat Hb Hr. induction Hb as [|i items Hi Hb IH]; intros vars code parts Hv Hps.
  { cbn. split; [done|apply Nat.add_0_r]. }
  apply Forall_cons in Hr as [Hri Hr]. specialize (IH Hr). destruct i as [arg|]; cbn [parse_items next_commands].
  - assert (Hget : match map_err PE_TsProto (CommandArgumentValue_get_str (ca_value arg)) with
      | Ok s => bytes s /\ utf8_valid s = true | Err _ => True | Panic => False end).
    { destruct (CommandArgumentValue_get_str (ca_value arg)) as [s| |] eqn:Hg; cbn; [by eapply get_str_bytes|done|].
      revert Hg. apply get_str_safe. cbn in Hri. by destruct (CommandArgumentValue_get _). }
    destruct (find_attribute _ _) as [[i a]|] eqn:Hfind.
    + destruct (map_err _ _) as [val| |]; [|done..]. cbn [res_bind]. destruct Hget as [Hvb Hvu].
      apply list_find_Some in Hfind as (Hia & _ & _).
      assert (field_type_of (at_field a) = Some (at_type a)) as Hf by (by apply (Forall_lookup_1 _ _ _ _ Hat Hia)).
      destruct (read_field_outcome a val Hf Hvb Hvu) as (r & -> & Hout).
      destruct r as [v| |]; [|done..]. cbn [res_bind]. apply IH; [|done].
      rewrite <- (list_insert_id (mt_attributes t) i a Hia). by apply Forall2_insert.
    + destruct (response (mt_default t) && _); [|by apply IH].
      destruct (map_err _ _); [|done..]. cbn [res_bind]. by apply IH.
  - pose proof (build_part_outcome (m_name (mt_message t)) (mt_attributes t) vars (default [] (head parts)) Hv) as Hbuild.
    destruct (build_part _ _ _ _) as [new| |].
    + cbn [res_bind]. specialize (IH (no_values (mt_attributes t)) code (parts ++ [new]) (no_values_typed _)).
      rewrite length_app, <- Nat.add_assoc in IH. apply IH.
      apply Forall_app. split; [done|]. constructor; [|done]. apply Hbuild.
      destruct Hps; [by left|by right].
    + done.
    + apply Hbuild. destruct Hps; [by left|by right].
Qed.

(** The types that the generator yields know their fields. *)
Lemma message_types_known d types : message_types d = Ok types ->
  Forall (fun t => Forall (fun a => field_type_of (at_field a) = Some (at_type a)) (mt_attributes t)) types.
Proof.
  unfold message_types. generalize (flat_map (fun g => (fun m => (g, m)) <$> g_msg g) (msg_group d)) as l.
  intros l. revert types. induction l as [|[g m] l IH]; intros types; cbn [res_mapM]; [by intros [= <-]|].
  destruct (message_type d g m) as [t| |] eqn:Ht; [|done..]. cbn [res_bind].
  destruct (res_mapM _ l) as [ts| |]; [|done..]. cbn [res_bind]. intros [= <-]. constructor; [|by apply IH].
  unfold message_type in Ht. destruct (res_mapM (attribute_of d) (m_attributes m)) as [attributes| |] eqn:Ha; [|done..].
  injection Ht as <-. cbn [mt_attributes]. revert attributes Ha.
  induction (m_attributes m) as [|a names IH2]; intros attributes; cbn [res_mapM]; [by intros [= <-]|].
  unfold attribute_of at 1. destruct (get_field d a) as [f| |]; [|done..]. cbn [res_bind].
  destruct (field_type_of f) as [ft|] eqn:Hf; [|done]. cbn [unwrap res_bind].
  destruct (res_mapM (attribute_of d) names) as [rest| |]; [|done..]. cbn [res_bind]. intros [= <-].
  constructor; [done|]. by apply IH2.
Qed.

Lemma InMsg_new_outcome t header args : 
  Forall (fun a => field_type_of (at_field a) = Some (at_type a)) (mt_attributes t) ->
  bytes (cp_data args) -> parser_ok args -> no_panic (InHeader_packet_type header) = true ->
  outcome_ok (message_typed t) (InMsg_new t header args).
Proof.
  intros Hat Hb Hp Hh. unfold InMsg_new. destruct (InHeader_packet_type header) as [ty| |]; [|done..]. cbn [map_err res_bind].
  destruct (negb (bool_decide (ty = _))); [done|].
  destruct (negb (s2c _) && _); [done|]. destruct (negb (c2s _) && _); [done|].
  case_bool_decide as Hn; [by split|].
  destruct (collect_total (S (length (cp_data args))) args Hp) as (items & Hc & Hr & _); [lia|]. rewrite Hc.
  pose proof (parse_items_outcome t (items ++ [NextCommand]) Hat) as Hout.
  assert (outcome_ok (fun m => Forall (fun part => Forall2 value_typed (mt_attributes t) part) (im_list m) /\
    (0 + next_commands (items ++ [NextCommand]) = length (im_list m))%nat)
    (parse_items t (items ++ [NextCommand]) (no_values (mt_attributes t)) None [])) as Hres.
  { apply (Hout ltac:(apply Forall_app; split; [by eapply collect_bytes|by repeat constructor])
      ltac:(apply Forall_app; split; [exact Hr|by repeat constructor])); [apply no_values_typed|done]. }
  destruct (parse_items _ _ _ _ _) as [m| |]; [|done..]. destruct Hres as [Hm Hl]. split; [done|].
  intros _ He. rewrite He in Hl. clear -Hl. induction items as [|[a|] items IH]; cbn in *; [lia|by apply IH|lia].
Qed.

Lemma try_types_outcome group header args name :
  Forall (fun t => Forall (fun a => field_type_of (at_field a) = Some (at_type a)) (mt_attributes t)) group ->
  bytes (cp_data args) -> parser_ok args -> no_panic (InHeader_packet_type header) = true ->
  outcome_ok (fun '(t, m) => t ∈ group /\ message_typed t m) (try_types group header args name).
Proof.
  intros Hg Hb Hp Hh. induction Hg as [|t group Ht Hg IH]; cbn [try_types]; [by destruct (utf8_valid name)|].
  pose proof (InMsg_new_outcome t header args Ht Hb Hp Hh) as Hout.
  assert (outcome_ok (fun '(t', m) => t' ∈ t :: group /\ message_typed t' m)
    (let? m := InMsg_new t header args in Ok (t, m))) as Hone.
  { destruct (InMsg_new t header args); [|done..]. split; [by left|done]. }
  assert (outcome_ok (fun '(t', m) => t' ∈ t :: group /\ message_typed t' m) (try_types group header args name)) as Hrest.
  { destruct (try_types group header args name) as [[t' m]| |]; [|done..]. destruct IH as [Hin Hm]. split; [by right|done]. }
  destruct group as [|u group]; [exact Hone|]. destruct (InMsg_new t header args) as [m|e|]; done.
Qed.

(** The outcome of parsing, for the types that the generator yields. *)
Lemma InMessage_new_outcome (d : MessageDeclarations) (types : list MessageType) (header : InHeader) (cmd : list Z) :
  message_types d = Ok types -> bytes cmd -> no_panic (InHeader_packet_type header) = true ->
  outcome_ok (fun '(t, m) => t ∈ types /\ message_typed t m) (InMessage_new types header cmd).
Proof.
  intros Ht%message_types_known Hb Hh. unfold InMessage_new, CommandParser_new.
  pose proof (command_name_end_le cmd 0) as Hle. rewrite slice_to_ok by (cbn in Hle; lia). cbn [map_err res_bind].
  set (name := take _ cmd).
  assert (Forall (fun t => Forall (fun a => field_type_of (at_field a) = Some (at_type a)) (mt_attributes t))
    (notify_group types name)) as Hgroup.
  { apply Forall_forall. intros t [_ Hin]%list_elem_of_filter. eapply Forall_forall in Ht; [exact Ht|done]. }
  pose proof (try_types_outcome (notify_group types name) header
    {| cp_data := cmd; cp_index := command_name_end cmd 0 |} name) as Hout.
  destruct (try_types _ _ _ _) as [[t m]| |].
  - destruct Hout as [Hin Hm]; [exact Hgroup|done|cbn in Hle; unfold parser_ok; cbn; lia|done|].
    split; [|done]. by apply list_elem_of_filter in Hin as [_ Hin].
  - done.
  - apply Hout; [exact Hgroup|done|cbn in Hle; unfold parser_ok; cbn; lia|done].
Qed.

(** C7: Whatever bytes a peer sends as a command, parsing them as a message of any declared type does
    not panic, and a message that is returned is one of the declared types: it has at least one
    part if the type has attributes, every attribute that is not optional has a value in every
    part, and every value has the Rust type of its field. *)
Theorem parsed_messages_typed (d : MessageDeclarations) (types : list MessageType) (header : InHeader) (cmd : list Z) :
  message_types d = Ok types -> bytes cmd -> no_panic (InHeader_packet_type header) = true ->
  match InMessage_new types header cmd with
  | Ok (t, m) => t ∈ types /\ message_typed t m
  | Err _ => True
  | Panic => False
  end.
Proof.
  intros Ht Hb Hh. pose proof (InMessage_new_outcome d types header cmd Ht Hb Hh) as Hout.
  by destruct (InMessage_new types header cmd) as [[t m]| |].
Qed.

End spec.

(** * A declared message *)

Definition sample_field (map ts pretty ty : string) (modifier : option string) : Field :=
  {| f_map := byte_str map; f_ts := byte_str ts; f_pretty := byte_str pretty; f_type_s := byte_str ty;
     f_modifier := byte_str <$> modifier |}.

Definition sample_declarations : MessageDeclarations := {|
  fields := [sample_field "clid" "clid" "ClientId" "ClientId" None;
             sample_field "name" "client_nickname" "Name" "str" None;
             sample_field "groups" "client_servergroups" "ServerGroups" "ServerGroupId" (Some "array"%string)];
  msg_group := [{|
    g_default := {| s2c := true; c2s := false; response := false; low := false; np := true |};
    g_msg := [{| m_name := byte_str "ClientEnterView"; m_notify := Some (byte_str "notifycliententerview");
                 m_attributes := [byte_str "clid"; byte_str "name?"; byte_str "groups?"] |}] |}];
|}.

Definition sample_type : MessageType := Eval vm_compute in
  match message_types sample_declarations with
  | Ok [t] => t
  | _ => {| mt_message := {| m_name := []; m_notify := None; m_attributes := [] |};
            mt_default := {| s2c := true; c2s := false; response := false; low := false; np := true |};
            mt_attributes := [] |}
  end.

Definition sample_header : InHeader := {| ih_direction := S2C; ih_data := replicate 10 0 ++ [2] |}.

Definition sample_parts : list Part :=
  [[Some (One (SId 16) 5); Some (One SStr (byte_str "Bob")); Some (Many (SId 64) [7; 8])];
   [Some (One (SId 16) 6); None; None]].

Lemma sample_types : message_types sample_declarations = Ok [sample_type].
Proof. vm_compute. reflexivity. Qed.

Lemma sample_type_ok : type_ok sample_type.
Proof.
  split.
  - done.
  - by apply (bool_decide_unpack _).
  - by apply (bool_decide_unpack _).
  - repeat constructor; done.
  - repeat constructor.
Qed.

(** The second client of the message gets the name and the groups of the first one. *)
Lemma message_roundtrip_witness : exists q,
  OutMsg_new sample_type sample_parts None = Ok q /\
  OutPacket_content q = Ok (byte_str "notifycliententerview clid=5 client_nickname=Bob client_servergroups=7,8|clid=6") /\
  InMessage_new [sample_type] sample_header
    (byte_str "notifycliententerview clid=5 client_nickname=Bob client_servergroups=7,8|clid=6") =
    Ok (sample_type, {| im_return_code := None; im_list :=
      [[Some (One (SId 16) 5); Some (One SStr (byte_str "Bob")); Some (Many (SId 64) [7; 8])];
       [Some (One (SId 16) 6); Some (One SStr (byte_str "Bob")); Some (Many (SId 64) [7; 8])]] |}).
Proof.
  destruct (message_roundtrip [sample_type] sample_type (byte_str "notifycliententerview") sample_header sample_parts None)
    as (q & content & Hq & Hc & Hm & _).
  - exact sample_type_ok.
  - reflexivity.
  - reflexivity.
  - done.
  - reflexivity.
  - by split.
  - done.
  - repeat constructor; done.
  - done.
  - reflexivity.
  - exists q. assert (content = byte_str "notifycliententerview clid=5 client_nickname=Bob client_servergroups=7,8|clid=6") as ->.
    { vm_compute in Hq. injection Hq as <-. vm_compute in Hc. by injection Hc as <-. }
    split; [exact Hq|]. split; [exact Hc|exact Hm].
Defined.

Lemma parsed_messages_typed_witness : exists m,
  InMessage_new [sample_type] sample_header (byte_str "notifycliententerview clid=9") = Ok (sample_type, m) /\
  message_typed sample_type m.
Proof.
  assert (InMessage_new [sample_type] sample_header (byte_str "notifycliententerview clid=9") =
    Ok (sample_type, {| im_return_code := None; im_list := [[Some (One (SId 16) 9); None; None]] |})) as Hm by reflexivity.
  eexists. split; [exact Hm|].
  pose proof (parsed_messages_typed sample_declarations [sample_type] sample_header
    (byte_str "notifycliententerview clid=9") sample_types) as Ht.
  rewrite Hm in Ht. apply Ht; [by apply (bool_decide_unpack _)|reflexivity].
Defined.
