(* ===== verification/MessagesToBook.v ===== *)
(** From messages to the book ([tsproto-structs/src/messages_to_book.rs] with the helper of
    [ts-bookkeeping/build/messages_to_book_parser.rs]): what the declared rules, and the fields that
    have the name of a property, make of a message.  The rules come from the declaration files,
    which are not part of the model; a declaration that does not fit is a panic. *)
From stdpp Require Import strings.
From S2P Require Import Prelude Text InitPackets Strings Types Declarations.
#[local] Open Scope Z_scope.

Record RuleProperty := {
  rp_from : option (list Z);
  rp_to : option (list Z);
  rp_operation : option (list Z);
  rp_function : option (list Z);
  rp_tolist : option (list (list Z));
}.

Record Rule := {
  r_id : list (list Z);
  r_from : list Z;
  r_to : list Z;
  r_operation : list Z;
  r_properties : list RuleProperty;
}.

Inductive RuleKind :=
  | MapRule (from : Field) (to : Property) (op : RuleOp)
  | FunctionRule (name : list Z) (to : list Property).

Record Event := {
  ev_op : RuleOp;
  ev_id : list Field;
  ev_msg : Message;
  ev_book_struct : BookStruct;
  ev_rules : list RuleKind;
}.

Definition is_function (r : RuleKind) : bool := match r with FunctionRule _ _ => true | MapRule _ _ _ => false end.

Definition none {A} (o : option A) : bool := match o with None => true | Some _ => false end.

Definition is_valid (p : RuleProperty) : bool :=
  if negb (none (rp_from p))
  then negb (none (rp_to p)) && none (rp_function p) && none (rp_tolist p)
  else none (rp_from p) && none (rp_to p) && none (rp_operation p)
       && negb (none (rp_function p)) && negb (none (rp_tolist p)).

Definition rule_kind (s : BookStruct) (msg_fields : list Field) (p : RuleProperty) : res FmtError RuleKind :=
  if negb (is_valid p) then Panic else
  match rp_function p with
  | Some name =>
      let? names := unwrap (rp_tolist p) in
      let? to := res_mapM (fun name => unwrap (find_prop name s)) names in
      Ok (FunctionRule name to)
  | None =>
      let? from := unwrap (rp_from p) in
      let? from := find_field from msg_fields in
      let? to := unwrap (rp_to p) in
      let? to := unwrap (find_prop to s) in
      let? op := match rp_operation p with Some o => res_unwrap (RuleOp_from_str o) | None => Ok Update end in
      Ok (MapRule from to op)
  end.

(** The fields of the written rules, and the properties that their functions set. *)
Definition used_flds (rules : list RuleKind) : list Field :=
  omap (fun r => match r with MapRule from _ _ => Some from | FunctionRule _ _ => None end) rules.
Definition used_props (rules : list RuleKind) : list (list Z) :=
  flat_map (fun r => match r with FunctionRule _ to => p_name <$> to | MapRule _ _ _ => [] end) rules.

(** The loop over the fields of the message that adds the rules for the same names. *)
Fixpoint add_same_names (s : BookStruct) (flds : list Field) (props : list (list Z)) (msg_fields : list Field)
    (rules : list RuleKind) : list RuleKind :=
  match msg_fields with
  | [] => rules
  | fld :: msg_fields =>
      if bool_decide (fld ∈ flds) then add_same_names s flds props msg_fields rules else
      match find_prop (f_pretty fld) s with
      | Some prop =>
          if bool_decide (p_name prop ∈ props) then add_same_names s flds props msg_fields rules
          else add_same_names s flds props msg_fields (rules ++ [MapRule fld prop Update])
      | None => add_same_names s flds props msg_fields rules
      end
  end.

Definition event_of (b : BookDeclarations) (m : MessageDeclarations) (r : Rule) : res FmtError Event :=
  let? msg := get_message m (r_from r) in
  let? msg_fields := res_mapM (get_field m) (m_attributes msg) in
  let? book_struct := find_struct b (r_to r) in
  let? op := res_unwrap (RuleOp_from_str (r_operation r)) in
  let? id := res_mapM (fun s => find_field s msg_fields) (r_id r) in
  let? rules := res_mapM (rule_kind book_struct msg_fields) (r_properties r) in
  let? same := get_struct b (st_name book_struct) in
  Ok {| ev_op := op; ev_id := id; ev_msg := msg; ev_book_struct := book_struct;
        ev_rules := add_same_names same (used_flds rules) (used_props rules) msg_fields rules |}.

(** [DATA]: the message [InitServer] is handled by hand. *)
Definition declarations (b : BookDeclarations) (m : MessageDeclarations) (rules : list Rule)
    : res FmtError (list Event) :=
  let? decls := res_mapM (event_of b m) rules in
  Ok (filter (fun e => m_name (ev_msg e) <> byte_str "InitServer") decls).

(** [get_id_args]: the arguments of an id, taken from the message [msg]. *)
Fixpoint id_args `{Heck} (ids : list Field) (msg acc : list Z) : res FmtError (list Z) :=
  match ids with
  | [] => Ok acc
  | f :: ids =>
      let? t := res_unwrap (Field_get_type f []) in
      let amp := if RustType_is_primitive t then [] else byte_str "&" in
      id_args ids msg (comma acc ++ amp ++ msg ++ byte_str "." ++ Field_get_rust_name f)
  end.

Definition get_id_args `{Heck} (e : Event) (msg : list Z) : res FmtError (list Z) := id_args (ev_id e) msg [].

Definition get_property_id `{Heck} (e : Event) (p : Property) (from : Field) (msg : list Z) : res FmtError (list Z) :=
  let? ids := get_id_args e msg in
  let? ids :=
    match p_modifier p with
    | None => Ok ids
    | Some m =>
        if is_str m "map" || is_str m "array" || is_str m "set"
        then Ok (comma ids ++ msg ++ byte_str "." ++ Field_get_rust_name from)
        else Panic
    end in
  Ok (byte_str "PropertyId::" ++ st_name (ev_book_struct e) ++ Property_get_name p ++ embrace ids).

Definition get_property `{Heck} (p : Property) (name : list Z) : res FmtError (list Z) :=
  let? n := res_unwrap (Property_get_inner_type_as_name p) in
  Ok (byte_str "PropertyValue::" ++ n ++ byte_str "(" ++ name ++ byte_str ")").
