(* ===== verification/BookToMessages.v ===== *)
(** From the book to messages ([tsproto-structs/src/book_to_messages.rs] with the helpers of
    [ts-bookkeeping/build/book_to_messages_parser.rs] and of the template
    [ts-bookkeeping/build/BookToMessages.tt]): which argument, property or function every field of
    a message is set from.  The rules come from the declaration files, which are not part of the
    model; a declaration that does not fit is a panic. *)
From stdpp Require Import strings.
From S2P Require Import Prelude Text InitPackets Strings Types Declarations.
#[local] Open Scope Z_scope.

Record RuleProperty := {
  rp_from : option (list Z);
  rp_to : option (list Z);
  rp_type_s : option (list Z);
  rp_function : option (list Z);
  rp_tolist : option (list (list Z));
}.

Record Rule := {
  r_from : list Z;
  r_to : list Z;
  r_operation : list Z;
  r_ids : list RuleProperty;
  r_properties : list RuleProperty;
}.

Inductive RuleKind :=
  | MapRule (from : Property) (to : Field)
  | ArgumentMap (from : list Z) (to : Field)
  | FunctionRule (from : option Property) (name : list Z) (to : list Field)
  | ArgumentFunction (from type_s name : list Z) (to : list Field).

Record Event := {
  ev_op : RuleOp;
  ev_msg : Message;
  ev_book_struct : BookStruct;
  ev_ids : list RuleKind;
  ev_rules : list RuleKind;
}.

(** * The kinds of rules *)

(** [from_name] panics for a function without a property. *)
Definition from_name (r : RuleKind) : res FmtError (list Z) :=
  match r with
  | MapRule from _ => Ok (p_name from)
  | ArgumentMap from _ => Ok from
  | FunctionRule from _ _ => let? p := unwrap from in Ok (p_name p)
  | ArgumentFunction from _ _ _ => Ok from
  end.

Definition from_name_singular (r : RuleKind) : res FmtError (list Z) :=
  let? name := from_name r in
  Ok (default name (strip_suffix (byte_str "s") name)).

Definition from_property (r : RuleKind) : res FmtError Property :=
  match r with
  | MapRule from _ => Ok from
  | FunctionRule from _ _ => unwrap from
  | ArgumentMap _ _ | ArgumentFunction _ _ _ _ => Panic
  end.

Definition is_function (r : RuleKind) : bool :=
  match r with FunctionRule _ _ _ | ArgumentFunction _ _ _ _ => true | _ => false end.

Definition get_type (r : RuleKind) : res FmtError RustType :=
  match r with
  | MapRule _ _ | FunctionRule _ _ _ => let? p := from_property r in res_unwrap (Property_get_type p)
  | ArgumentMap _ to => res_unwrap (Field_get_type to [])
  | ArgumentFunction _ type_s _ _ => res_unwrap (RustType_from_str type_s)
  end.

Definition without_option (p : Property) : Property :=
  {| p_name := p_name p; p_type_s := p_type_s p; p_doc := p_doc p; p_opt := false;
     p_modifier := p_modifier p; p_key := p_key p |}.

Definition get_type_no_option (r : RuleKind) : res FmtError RustType :=
  match r with
  | MapRule from _ => res_unwrap (Property_get_type (without_option from))
  | _ => get_type r
  end.

Definition argument `{Heck} (r : RuleKind) (t : res FmtError RustType) : res FmtError (list Z) :=
  let? name := from_name r in
  let? t := t in
  Ok (to_snake_case name ++ byte_str ": " ++ RustType_to_string (RustType_to_ref t true)).

Definition get_argument `{Heck} (r : RuleKind) : res FmtError (list Z) := argument r (get_type r).
Definition get_argument_no_option `{Heck} (r : RuleKind) : res FmtError (list Z) := argument r (get_type_no_option r).

(** The rule sets the field. *)
Definition rule_has_to (r : RuleKind) (f : Field) : bool :=
  match r with
  | MapRule _ to | ArgumentMap _ to => bool_decide (to = f)
  | FunctionRule _ _ to | ArgumentFunction _ _ _ to => bool_decide (f ∈ to)
  end.

(** * Reading the rules *)

Definition none {A} (o : option A) : bool := match o with None => true | Some _ => false end.

(** [assert_valid] *)
Definition is_valid (p : RuleProperty) : bool :=
  match rp_to p, rp_function p with
  | Some _, f => negb (none (rp_from p)) && none f && none (rp_tolist p) && none (rp_type_s p)
  | None, Some _ => negb (none (rp_tolist p)) && (none (rp_type_s p) || negb (none (rp_from p)))
  | None, None => false
  end.

Definition to_rule_kind (s : BookStruct) (msg_fields : list Field) (p : RuleProperty) : res FmtError RuleKind :=
  if negb (is_valid p) then Panic else
  match rp_function p with
  | Some name =>
      let? names := unwrap (rp_tolist p) in
      match rp_type_s p with
      | Some type_s =>
          let? from := unwrap (rp_from p) in
          let? to := res_mapM (fun n => find_field n msg_fields) names in
          Ok (ArgumentFunction from type_s name to)
      | None =>
          let? from := match rp_from p with
                       | Some n => let? p := unwrap (find_prop n s) in Ok (Some p)
                       | None => Ok None
                       end in
          let? to := res_mapM (fun n => find_field n msg_fields) names in
          Ok (FunctionRule from name to)
      end
  | None =>
      let? from := unwrap (rp_from p) in
      let? to := unwrap (rp_to p) in
      let? to := find_field to msg_fields in
      Ok (match find_prop from s with
          | Some prop => MapRule prop to
          | None => ArgumentMap from to
          end)
  end.

(** The required fields that no id sets are set from the property of the same name, if there is
    one that always has a value. *)
Fixpoint add_ids (s : BookStruct) (flds : list Field) (ids : list RuleKind) : list RuleKind :=
  match flds with
  | [] => ids
  | f :: flds =>
      if existsb (fun r => rule_has_to r f) ids then add_ids s flds ids else
      match snd <$> list_find (fun p => p_opt p = false /\ p_name p = f_pretty f) (st_properties s) with
      | Some prop => add_ids s flds (ids ++ [MapRule prop f])
      | None => add_ids s flds ids
      end
  end.

(** [any(|i| i.from_name() == name)] stops at the first match. *)
Fixpoint any_from (name : list Z) (rules : list RuleKind) : res FmtError bool :=
  match rules with
  | [] => Ok false
  | r :: rules =>
      let? n := from_name r in
      if bool_decide (n = name) then Ok true else any_from name rules
  end.

(** The optional fields that nothing sets get a rule, unless another field is set from the
    property. *)
Fixpoint add_rules (s : BookStruct) (flds : list Field) (ids rules : list RuleKind) : res FmtError (list RuleKind) :=
  match flds with
  | [] => Ok rules
  | f :: flds =>
      if existsb (fun r => rule_has_to r f) (ids ++ rules) then add_rules s flds ids rules else
      match find_prop (f_pretty f) s with
      | Some prop =>
          let? used := any_from (p_name prop) (ids ++ rules) in
          if (used : bool) then add_rules s flds ids rules
          else add_rules s flds ids (rules ++ [MapRule prop f])
      | None => add_rules s flds ids rules
      end
  end.

Definition required_fields (msg : Message) (msg_fields : list Field) : list Field :=
  filter (fun f => Field_is_opt f msg = false) msg_fields.
Definition optional_fields (msg : Message) (msg_fields : list Field) : list Field :=
  filter (fun f => Field_is_opt f msg = true) msg_fields.

Definition event_of (b : BookDeclarations) (m : MessageDeclarations) (r : Rule) : res FmtError Event :=
  let? msg := get_message m (r_to r) in
  let? msg_fields := res_mapM (get_field m) (m_attributes msg) in
  let? book_struct := find_struct b (r_from r) in
  let? op := res_unwrap (RuleOp_from_str (r_operation r)) in
  let? ids := res_mapM (to_rule_kind book_struct msg_fields) (r_ids r) in
  let? rules := res_mapM (to_rule_kind book_struct msg_fields) (r_properties r) in
  let? same := get_struct b (st_name book_struct) in
  let ids := add_ids same (required_fields msg msg_fields) ids in
  let? rules := add_rules same (optional_fields msg msg_fields) ids rules in
  Ok {| ev_op := op; ev_msg := msg; ev_book_struct := book_struct; ev_ids := ids; ev_rules := rules |}.

Definition declarations (b : BookDeclarations) (m : MessageDeclarations) (rules : list Rule)
    : res FmtError (list Event) := res_mapM (event_of b m) rules.

(** * Names and lists for the templates *)

(** The name without the own structure and [Request]; it may be a keyword. *)
Definition get_small_name (e : Event) : list Z :=
  replace (byte_str "Request") [] (replace (st_name (ev_book_struct e)) [] (m_name (ev_msg e))).

Definition get_change_name (e : Event) : list Z :=
  let small := get_small_name e in
  if is_str small "Move" then m_name (ev_msg e) else small.

Fixpoint join_names `{Heck} (first : bool) (to : list Field) : list Z :=
  match to with
  | [] => []
  | t :: to => (if first then [] else byte_str ", ") ++ Field_get_rust_name t ++ join_names false to
  end.

Definition get_to_list `{Heck} (to : list Field) : list Z :=
  let many := bool_decide (1 < length to)%nat in
  (if many then byte_str "(" else []) ++ join_names true to ++ (if many then byte_str ")" else []).

(** [find_rule]: the given rule, or the first id that sets the field; the flag tells that it is the
    given rule. *)
Definition find_rule (e : Event) (r : option RuleKind) (f : Field) : bool * option RuleKind :=
  match r with
  | Some r =>
      if rule_has_to r f then (true, Some r)
      else (false, snd <$> list_find (fun r => rule_has_to r f = true) (ev_ids e))
  | None => (false, snd <$> list_find (fun r => rule_has_to r f = true) (ev_ids e))
  end.
