(* ===== verification/Versions.v ===== *)
(** The declared versions and enumerations ([tsproto-structs/src/versions.rs] and [enums.rs]): the
    names of the versions, of which equal ones are numbered, and the width of a set of flags. *)
From stdpp Require Import strings gmap.
From S2P Require Import Prelude Text InitPackets CryptoLib Ip Strings Types.
#[local] Open Scope Z_scope.

(** * Versions *)

Record Version := {
  version : list Z;
  platform : list Z;
  hash : list Z;
  count : Z;
}.

(** [split(c).next().unwrap()]: there is always a first piece. *)
Definition first_piece (c : Z) (s : list Z) : list Z := default [] (head (split c s)).

(** The version in front of a space, and the platform. *)
Definition VersionKey : Type := list Z * list Z.
Definition VersionKey_new (v : Version) : VersionKey := (first_piece 0x20 (version v), platform v).

(** [*counts.entry(key).or_default() += 1] for every version. *)
Definition count_keys (vs : list Version) : gmap VersionKey Z :=
  foldl (fun counts v => <[VersionKey_new v := default 0 (counts !! VersionKey_new v) + 1]> counts) ∅ vs.

(** The loop that numbers the versions, from the last one; only keys that occur again have a
    count. *)
Fixpoint number_rev (counts : gmap VersionKey Z) (vs : list Version) : list Version :=
  match vs with
  | [] => []
  | v :: vs =>
      match counts !! VersionKey_new v with
      | Some c =>
          {| version := version v; platform := platform v; hash := hash v; count := c |}
          :: number_rev (<[VersionKey_new v := c - 1]> counts) vs
      | None => v :: number_rev counts vs
      end
  end.

Definition number_versions (vs : list Version) : list Version :=
  let counts := filter (fun kc => 1 < kc.2) (count_keys vs) in
  rev (number_rev counts (rev vs)).

(** [get_enum_name] *)
Definition version_parts (ver : list Z) : list Z :=
  flat_map (fun num => 0x5f :: (if is_str num "?" then byte_str "X" else num)) (split 0x2e ver).

Definition replace_chars (cs : list Z) (r s : list Z) : list Z := flat_map (fun c => if bool_decide (c ∈ cs) then r else [c]) s.

Definition get_enum_name (v : Version) : list Z :=
  let ver := replace_chars [0x2d] (byte_str "_") (first_piece 0x20 (version v)) in
  replace_chars [0x20; 0x2e] (byte_str "_") (platform v) ++ version_parts ver
  ++ (if count v =? 0 then [] else byte_str "__" ++ to_dec (count v)).

(** [{:#x}] of a byte. *)
Definition hex_byte (b : Z) : list Z := byte_str "0x" ++ (if b <? 16 then [hex_digit b] else [hex_digit (b / 16); hex_digit (b mod 16)]).

Definition get_sign_array `{Base64Dec} (v : Version) : res FmtError (list Z) :=
  let? bytes := unwrap (base64_decode (hash v)) in
  Ok (match bytes with
      | [] => []
      | b :: bytes => hex_byte b ++ flat_map (fun b => byte_str ", " ++ hex_byte b) bytes
      end).

(** * Enumerations *)

Record Variant := { v_name : list Z; v_doc : list Z; v_value : option Z }.

(** [u64::leading_zeros] *)
Definition leading_zeros (z : Z) : Z := if z =? 0 then 64 else 63 - Z.log2 z.

(** The smallest power of two that is not below [z]. *)
Definition next_power_of_two (z : Z) : Z := 2 ^ Z.log2_up z.

Section bitwidth.
Context `{Profile}.

Fixpoint bitwidth_loop (variants : list Variant) (zeros value : Z) : res FmtError Z :=
  match variants with
  | [] => Ok (Z.min zeros (leading_zeros value))
  | v :: variants =>
      match v_value v with
      | Some n => bitwidth_loop variants (Z.min zeros (leading_zeros value)) n
      | None => let? value := arith 64 (value + 1) in bitwidth_loop variants zeros value
      end
  end.

Definition bitwidth (variants : list Variant) : res FmtError Z :=
  let? zeros := bitwidth_loop variants 0 0 in
  Ok (next_power_of_two (64 - zeros)).

End bitwidth.

Example enum_name_1 :
  get_enum_name {| version := byte_str "3.?.? [Build: 5680278000]"; platform := byte_str "Windows"; hash := []; count := 0 |}
  = byte_str "Windows_3_X_X".
Proof. vm_compute. reflexivity. Qed.

(** * Numbering *)

Definition occurrences (k : VersionKey) (vs : list Version) : Z :=
  Z.of_nat (length (filter (fun v => VersionKey_new v = k) vs)).

Definition with_count (v : Version) (c : Z) : Version :=
  {| version := version v; platform := platform v; hash := hash v; count := c |}.

Lemma occurrences_app k a b : occurrences k (a ++ b) = occurrences k a + occurrences k b.
Proof. unfold occurrences. rewrite filter_app, length_app. lia. Qed.

Lemma occurrences_one k v : occurrences k [v] = if bool_decide (VersionKey_new v = k) then 1 else 0.
Proof.
  unfold occurrences. case_bool_decide; [by rewrite filter_cons_True|by rewrite filter_cons_False].
Qed.

Lemma occurrences_pos k vs : 0 <= occurrences k vs.
Proof. unfold occurrences. lia. Qed.

Lemma occurrences_elem v vs : v ∈ vs -> 1 <= occurrences (VersionKey_new v) vs.
Proof.
  intros Hv. unfold occurrences.
  destruct (filter _ vs) as [|w l] eqn:Hf; [|cbn; lia].
  assert (v ∈ filter (fun w => VersionKey_new w = VersionKey_new v) vs) as Hin by (by apply list_elem_of_filter).
  rewrite Hf in Hin. by apply elem_of_nil in Hin.
Qed.

Lemma count_keys_spec vs k : default 0 (count_keys vs !! k) = occurrences k vs /\
  (occurrences k vs = 0 -> count_keys vs !! k = None).
Proof.
  unfold count_keys. induction vs as [|v vs IH] using rev_ind; [by split|].
  rewrite foldl_app. cbn [foldl]. set (counts := foldl _ ∅ vs) in *. rewrite occurrences_app, occurrences_one.
  pose proof (occurrences_pos k vs). case_bool_decide as Hk.
  - subst k. rewrite lookup_insert_eq. cbn. split; [by rewrite (proj1 IH)|lia].
  - rewrite lookup_insert_ne by done. rewrite Z.add_0_r. exact IH.
Qed.

(** The number of a version among those with its key. *)
Definition numbered (many : VersionKey -> bool) (vs : list Version) : list Version :=
  imap (fun i v => if many (VersionKey_new v)
                   then with_count v (occurrences (VersionKey_new v) (take (S i) vs)) else v) vs.

Lemma numbered_snoc many vs v : numbered many (vs ++ [v]) =
  numbered many vs ++ [if many (VersionKey_new v) then with_count v (occurrences (VersionKey_new v) (vs ++ [v])) else v].
Proof.
  unfold numbered. rewrite imap_app. f_equal.
  - apply imap_ext. intros i w Hw. apply lookup_lt_Some in Hw. by rewrite take_app_le by lia.
  - cbn. f_equal. rewrite take_ge; [done|]. rewrite length_app. cbn. lia.
Qed.

Lemma number_rev_spec (many : VersionKey -> bool) (vs : list Version) : forall counts : gmap VersionKey Z,
  (forall v, v ∈ vs -> counts !! VersionKey_new v =
    if many (VersionKey_new v) then Some (occurrences (VersionKey_new v) vs) else None) ->
  rev (number_rev counts (rev vs)) = numbered many vs.
Proof.
  induction vs as [|v vs IH] using rev_ind; intros counts Hc; [done|].
  rewrite rev_app_distr, numbered_snoc. cbn [rev app number_rev].
  rewrite (Hc v) by (apply elem_of_app; right; by left).
  assert (Hrest : forall w, w ∈ vs -> VersionKey_new w <> VersionKey_new v ->
    counts !! VersionKey_new w = if many (VersionKey_new w) then Some (occurrences (VersionKey_new w) vs) else None).
  { intros w Hw Hne. rewrite Hc by (apply elem_of_app; by left).
    rewrite occurrences_app, occurrences_one, bool_decide_false by congruence. by rewrite Z.add_0_r. }
  destruct (many (VersionKey_new v)) eqn:Hm; cbn [rev]; f_equal.
  - apply IH. intros w Hw. destruct (decide (VersionKey_new w = VersionKey_new v)) as [He|Hne].
    + rewrite He, lookup_insert_eq, Hm. f_equal. rewrite occurrences_app, occurrences_one, bool_decide_true by done. lia.
    + rewrite lookup_insert_ne by congruence. by apply Hrest.
  - apply IH. intros w Hw. destruct (decide (VersionKey_new w = VersionKey_new v)) as [He|Hne]; [|by apply Hrest].
    rewrite Hc by (apply elem_of_app; by left). by rewrite He, Hm.
Qed.

(** The versions keep their order and their data; a version whose version and platform occur
    again gets its number among the equal ones, from one on, and the others keep their count. *)
Theorem versions_numbered (vs : list Version) :
  number_versions vs = numbered (fun k => bool_decide (1 < occurrences k vs)) vs.
Proof.
  unfold number_versions. apply number_rev_spec. intros v Hv.
  destruct (count_keys_spec vs (VersionKey_new v)) as [Hd _].
  pose proof (occurrences_elem v vs Hv) as Hpos.
  destruct (count_keys vs !! VersionKey_new v) as [n|] eqn:Hn; cbn in Hd; [|lia]. subst n.
  case_bool_decide as Hb.
  - apply map_lookup_filter_Some. by split.
  - apply map_lookup_filter_None. right. intros c Hc. rewrite Hn in Hc. injection Hc as <-. cbn. lia.
Qed.

(** Equal versions have different numbers. *)
Theorem numbers_distinct (vs : list Version) (i j : nat) (v w : Version) :
  (i < j)%nat -> vs !! i = Some v -> vs !! j = Some w -> VersionKey_new v = VersionKey_new w ->
  exists v' w', number_versions vs !! i = Some v' /\ number_versions vs !! j = Some w' /\ count v' < count w'.
Proof.
  intros Hij Hi Hj Hk. rewrite versions_numbered. unfold numbered. rewrite !list_lookup_imap, Hi, Hj. cbn [fmap option_fmap option_map].
  set (k := VersionKey_new w) in *.
  assert (Hn : forall n x, vs !! n = Some x -> VersionKey_new x = k ->
    occurrences k (take (S n) vs) = occurrences k (take n vs) + 1).
  { intros n x Hx Hxk. rewrite (take_S_r _ _ x) by done. rewrite occurrences_app, occurrences_one.
    by rewrite bool_decide_true. }
  assert (occurrences k (take (S i) vs) <= occurrences k (take j vs)) as Hle.
  { rewrite <- (take_drop (S i) (take j vs)), take_take, Nat.min_l, occurrences_app by lia.
    pose proof (occurrences_pos k (drop (S i) (take j vs))). lia. }
  assert (1 < occurrences k vs) as Hmany.
  { rewrite <- (take_drop (S j) vs) at 1. rewrite occurrences_app, (Hn j w) by done.
    pose proof (occurrences_pos k (drop (S j) vs)). pose proof (Hn i v Hi Hk).
    pose proof (occurrences_pos k (take i vs)). lia. }
  rewrite Hk, bool_decide_true by done. eexists _, _. split; [done|]. split; [done|]. cbn.
  rewrite (Hn j w) by done. lia.
Qed.

(** * The width of flags *)

Lemma bitwidth_loop_zero `{Profile} variants : forall zeros value w, zeros <= 0 -> 0 <= value < 2 ^ 64 ->
  Forall (fun v => match v_value v with Some n => is_u64 n | None => True end) variants ->
  bitwidth_loop variants zeros value = Ok w -> w = zeros.
Proof.
  assert (Hlz : forall value, 0 <= value < 2 ^ 64 -> 0 <= leading_zeros value).
  { intros value Hv. unfold leading_zeros. destruct (Z.eqb_spec value 0); [lia|].
    assert (Z.log2 value < 64) by (apply Z.log2_lt_pow2; lia). lia. }
  induction variants as [|v variants IH]; intros zeros value w Hz Hv Hall Hr; cbn [bitwidth_loop] in Hr.
  - injection Hr as <-. specialize (Hlz value Hv). lia.
  - apply Forall_cons in Hall as [Hn Hall]. specialize (Hlz value Hv). destruct (v_value v) as [n|].
    + assert (Z.min zeros (leading_zeros value) = zeros) as He by lia. rewrite He in Hr. by apply (IH zeros n w).
    + destruct (arith 64 (value + 1)) as [value'| |] eqn:Ha; [|done..]. apply (IH zeros value' w); try done.
      unfold arith in Ha. case_bool_decide as Hu; [by injection Ha as <-|]. destruct overflow_checks; [done|].
      injection Ha as <-. unfold wrap. apply Z.mod_pos_bound. lia.
Qed.

(** The width of every set of flags is 64 bits, however few variants it has: the number of leading
    zeros starts at zero and only gets smaller. *)
Theorem bitwidth_is_64 `{Profile} (variants : list Variant) (w : Z) :
  Forall (fun v => match v_value v with Some n => is_u64 n | None => True end) variants ->
  bitwidth variants = Ok w -> w = 64.
Proof.
  intros Hall. unfold bitwidth. destruct (bitwidth_loop variants 0 0) as [z| |] eqn:Hl; [|done..].
  apply bitwidth_loop_zero in Hl as ->; [|lia|lia|done]. by intros [= <-].
Qed.

Lemma bitwidth_is_64_witness :
  let flags := [{| v_name := byte_str "Join"; v_doc := []; v_value := Some 1 |};
                {| v_name := byte_str "Modify"; v_doc := []; v_value := Some 2 |}] in
  bitwidth (H := debug_profile) flags = Ok 64.
Proof.
  intros flags. destruct (bitwidth (H := debug_profile) flags) as [w| |] eqn:Hw; [|vm_compute in Hw; done..].
  f_equal. apply (@bitwidth_is_64 debug_profile flags w); [by repeat constructor|exact Hw].
Defined.
