(* ===== verification/BookToMessagesSpec.v ===== *)
(** From the book to messages: which rules are added to the written ones, and from how many places a
    field of a message is set. *)
From stdpp Require Import strings.
From S2P Require Import Prelude Text InitPackets Strings Types Declarations BookToMessages.
#[local] Open Scope Z_scope.

(** The rules that set a field. *)
Definition setters (f : Field) (rules : list RuleKind) : list RuleKind := filter (fun r => rule_has_to r f = true) rules.

Lemma setters_app f k l : setters f (k ++ l) = setters f k ++ setters f l.
Proof. apply filter_app. Qed.

Lemma setters_nil f rules : existsb (fun r => rule_has_to r f) rules = false <-> setters f rules = [].
Proof.
  induction rules as [|r rules IH]; [done|]. cbn [existsb]. unfold setters in *.
  destruct (rule_has_to r f) eqn:Hr; cbn [orb].
  - rewrite filter_cons_True by done. done.
  - rewrite filter_cons_False by (by rewrite Hr). done.
Qed.

(** The property for a required field. *)
Definition required_prop (s : BookStruct) (f : Field) : option Property :=
  snd <$> list_find (fun p => p_opt p = false /\ p_name p = f_pretty f) (st_properties s).

Lemma setters_one_ne f g p : f <> g -> setters f [MapRule p g] = [].
Proof. intros Hf. unfold setters. rewrite filter_cons_False; [done|]. cbn. by rewrite bool_decide_false. Qed.

Lemma setters_one g p : setters g [MapRule p g] = [MapRule p g].
Proof. unfold setters. rewrite filter_cons_True; [done|]. cbn. by apply bool_decide_true. Qed.

(** A rule that sets a field from the property of its name. *)
Definition by_name (s : BookStruct) (flds : list Field) (r : RuleKind) : Prop :=
  exists p f, r = MapRule p f /\ f ∈ flds /\ p ∈ st_properties s /\ p_name p = f_pretty f.

Lemma by_name_cons s g flds l : Forall (by_name s flds) l -> Forall (by_name s (g :: flds)) l.
Proof.
  intros Hl. eapply Forall_impl; [exact Hl|]. intros r (p & f & -> & Hf & Hp). exists p, f. split; [done|]. split; [by right|done].
Qed.

Lemma required_prop_name s f p : required_prop s f = Some p -> p ∈ st_properties s /\ p_name p = f_pretty f.
Proof.
  unfold required_prop. destruct (list_find _ _) as [[i q]|] eqn:Hf; [|done]. intros [= <-].
  apply list_find_Some in Hf as (Hi & [_ Hn] & _). split; [by eapply list_elem_of_lookup_2|done].
Qed.

Lemma find_prop_name s n p : find_prop n s = Some p -> p ∈ st_properties s /\ p_name p = n.
Proof.
  unfold find_prop. destruct (list_find _ _) as [[i q]|] eqn:Hf; [|done]. intros [= <-].
  apply list_find_Some in Hf as (Hi & Hn & _). split; [by eapply list_elem_of_lookup_2|done].
Qed.

Lemma any_from_app n a b : any_from n a = Ok true -> any_from n (a ++ b) = Ok true.
Proof.
  induction a as [|r a IH]; [done|]. cbn [any_from app]. destruct (from_name r); [|done..]. cbn [res_bind].
  case_bool_decide; [done|exact IH].
Qed.

(** The ids grow by one rule for every required field that nothing sets and that has a
    property. *)
Lemma add_ids_spec s flds : forall ids, NoDup flds ->
  exists new, add_ids s flds ids = ids ++ new /\ Forall (by_name s flds) new /\
    (forall f, f ∉ flds -> setters f new = []) /\
    (forall f, f ∈ flds -> setters f (ids ++ new) =
      if bool_decide (setters f ids = []) then match required_prop s f with Some p => [MapRule p f] | None => [] end
      else setters f ids).
Proof.
  induction flds as [|g flds IH]; intros ids Hnd.
  { exists []. rewrite app_nil_r. split_and!; [done..|]. intros f Hf. by apply elem_of_nil in Hf. }
  apply NoDup_cons in Hnd as [Hg Hnd]. cbn [add_ids]. fold (required_prop s g).
  destruct (existsb _ ids) eqn:He; [|destruct (required_prop s g) as [p|] eqn:Hp].
  - destruct (IH ids Hnd) as (new & Hnew & Hby & Hout & Hin). exists new. split_and!; [done|by apply by_name_cons| |].
    + intros f [_ Hf]%not_elem_of_cons. by apply Hout.
    + intros f [->|Hf]%elem_of_cons; [|by apply Hin]. rewrite setters_app, (Hout g Hg), app_nil_r.
      rewrite bool_decide_false; [done|]. intros Hn%setters_nil. congruence.
  - destruct (IH (ids ++ [MapRule p g]) Hnd) as (new & Hnew & Hby & Hout & Hin). exists (MapRule p g :: new).
    rewrite <- app_assoc in Hnew. split_and!; [done| | |].
    + constructor; [|by apply by_name_cons]. exists p, g. split; [done|]. split; [by left|by apply required_prop_name].
    + intros f [Hf Hf']%not_elem_of_cons. change (MapRule p g :: new) with ([MapRule p g] ++ new).
      by rewrite setters_app, setters_one_ne, Hout.
    + apply setters_nil in He. intros f [->|Hf]%elem_of_cons.
      * change (MapRule p g :: new) with ([MapRule p g] ++ new).
        rewrite !setters_app, He, setters_one, (Hout g Hg), Hp. by rewrite bool_decide_true.
      * assert (f <> g) as Hfg by (by intros ->). specialize (Hin f Hf). rewrite <- app_assoc in Hin. cbn [app] in Hin.
        rewrite Hin, setters_app, setters_one_ne, app_nil_r by done. done.
  - destruct (IH ids Hnd) as (new & Hnew & Hby & Hout & Hin). exists new. split_and!; [done|by apply by_name_cons| |].
    + intros f [_ Hf]%not_elem_of_cons. by apply Hout.
    + apply setters_nil in He. intros f [->|Hf]%elem_of_cons; [|by apply Hin].
      rewrite setters_app, (Hout g Hg), He, Hp. by rewrite bool_decide_true.
Qed.

(** What is added for an optional field to the rules: nothing if it is set already or if the structure
    has no property of its name, else the property, unless a rule reads a property of this name. *)
Definition added_rule (s : BookStruct) (f : Field) (set : bool) (all new : list RuleKind) : Prop :=
  match find_prop (f_pretty f) s with
  | Some p =>
      if set then new = [] else new = [MapRule p f] \/ new = [] /\ any_from (p_name p) all = Ok true
  | None => new = []
  end.

Lemma added_rule_nil s f all : added_rule s f true all [].
Proof. unfold added_rule. by destruct (find_prop _ _). Qed.

Lemma add_rules_spec s flds : forall ids rules rules', NoDup flds -> add_rules s flds ids rules = Ok rules' ->
  exists new, rules' = rules ++ new /\ Forall (by_name s flds) new /\
    (forall f, f ∉ flds -> setters f new = []) /\
    (forall f, f ∈ flds ->
      added_rule s f (negb (bool_decide (setters f (ids ++ rules) = []))) (ids ++ rules') (setters f new)).
Proof.
  induction flds as [|g flds IH]; intros ids rules rules' Hnd Hr; cbn [add_rules] in Hr.
  { injection Hr as <-. exists []. rewrite app_nil_r. split_and!; [done..|]. intros f Hf. by apply elem_of_nil in Hf. }
  apply NoDup_cons in Hnd as [Hg Hnd].
  assert (Hsame : add_rules s flds ids rules = Ok rules' ->
    (forall more, added_rule s g (negb (bool_decide (setters g (ids ++ rules) = []))) (ids ++ rules ++ more) []) ->
    exists new, rules' = rules ++ new /\ Forall (by_name s (g :: flds)) new /\
    (forall f, f ∉ g :: flds -> setters f new = []) /\
    (forall f, f ∈ g :: flds ->
      added_rule s f (negb (bool_decide (setters f (ids ++ rules) = []))) (ids ++ rules') (setters f new))).
  { intros Hr' Hadd. destruct (IH _ _ _ Hnd Hr') as (new & -> & Hby & Hout & Hin). exists new.
    split_and!; [done|by apply by_name_cons| |].
    - intros f [_ Hf]%not_elem_of_cons. by apply Hout.
    - intros f [->|Hf]%elem_of_cons; [|by apply Hin]. rewrite (Hout g Hg). apply Hadd. }
  destruct (existsb _ (ids ++ rules)) eqn:He.
  { apply Hsame; [done|]. intros more. rewrite bool_decide_false; [apply added_rule_nil|].
    intros Hn%setters_nil. congruence. }
  destruct (find_prop _ s) as [p|] eqn:Hp.
  2: { apply Hsame; [done|]. intros more. unfold added_rule. by rewrite Hp. }
  destruct (any_from _ _) as [[]| |] eqn:Hany; try done; cbn [res_bind] in Hr.
  { apply Hsame; [done|]. intros more. unfold added_rule. rewrite Hp. apply setters_nil in He.
    rewrite bool_decide_true by done. right. split; [done|]. rewrite app_assoc. by apply any_from_app. }
  destruct (IH _ _ _ Hnd Hr) as (new & -> & Hby & Hout & Hin). exists (MapRule p g :: new).
  rewrite <- app_assoc in Hin |- *. apply setters_nil in He. split_and!; [done| | |].
  - constructor; [|by apply by_name_cons]. exists p, g. split; [done|]. split; [by left|by apply find_prop_name].
  - intros f [Hf Hf']%not_elem_of_cons. change (MapRule p g :: new) with ([MapRule p g] ++ new).
    by rewrite setters_app, setters_one_ne, Hout.
  - intros f [->|Hf]%elem_of_cons; change (MapRule p g :: new) with ([MapRule p g] ++ new); rewrite (setters_app _ [_]).
    + rewrite setters_one, (Hout g Hg), He, bool_decide_true by done. unfold added_rule. rewrite Hp. by left.
    + assert (f <> g) as Hfg by (by intros ->). rewrite setters_one_ne by done.
      specialize (Hin f Hf). rewrite app_assoc, setters_app, setters_one_ne, app_nil_r in Hin by done. exact Hin.
Qed.


(** * A declared change *)

Definition sample_field (map pretty ty : string) : Field :=
  {| f_map := byte_str map; f_ts := byte_str map; f_pretty := byte_str pretty; f_type_s := byte_str ty; f_modifier := None |}.
Definition sample_property (name ty : string) (opt : bool) : Property :=
  {| p_name := byte_str name; p_type_s := byte_str ty; p_doc := None; p_opt := opt; p_modifier := None; p_key := None |}.

Definition sample_book : BookDeclarations := {| structs := [{|
  st_name := byte_str "Channel"; st_opt := false; st_id := []; st_doc := [];
  st_properties := [sample_property "Id" "ChannelId" false; sample_property "Name" "str" false;
                    sample_property "Topic" "str" true] |}] |}.

Definition sample_messages : MessageDeclarations := {|
  fields := [sample_field "cid" "Id" "ChannelId"; sample_field "name" "Name" "str"; sample_field "topic" "Topic" "str"];
  msg_group := [{|
    g_default := {| s2c := false; c2s := true; response := true; low := false; np := true |};
    g_msg := [{| m_name := byte_str "ChannelEditRequest"; m_notify := Some (byte_str "channeledit");
                 m_attributes := [byte_str "cid"; byte_str "name?"; byte_str "topic?"] |}] |}];
|}.

Definition sample_rule : Rule := {|
  r_from := byte_str "Channel"; r_to := byte_str "ChannelEditRequest"; r_operation := byte_str "update";
  r_ids := []; r_properties := [];
|}.

