(* ===== verification/MessagesToBookSpec.v ===== *)
(** From messages to the book: which rules a declaration has for every field of its message. *)
From stdpp Require Import strings.
From S2P Require Import Prelude Text InitPackets Strings Types Declarations MessagesToBook.
#[local] Open Scope Z_scope.

(** The rule that a field gets for its name. *)
Definition same_name_rule (s : BookStruct) (written : list RuleKind) (f : Field) : option RuleKind :=
  if bool_decide (f ∈ used_flds written) then None else
  match find_prop (f_pretty f) s with
  | Some p => if bool_decide (p_name p ∈ used_props written) then None else Some (MapRule f p Update)
  | None => None
  end.

Lemma add_same_names_spec s written fields : forall rules,
  add_same_names s (used_flds written) (used_props written) fields rules =
    rules ++ omap (same_name_rule s written) fields.
Proof.
  induction fields as [|f fields IH]; intros rules; cbn [add_same_names omap list_omap]; [by rewrite app_nil_r|].
  unfold same_name_rule at 1. case_bool_decide; [by rewrite IH|].
  destruct (find_prop (f_pretty f) s) as [p|]; [|by rewrite IH]. case_bool_decide; [by rewrite IH|].
  by rewrite IH, <- app_assoc.
Qed.

(** The rules that read a field. *)
Definition reads (f : Field) (r : RuleKind) : bool :=
  match r with
  | MapRule from _ _ => bool_decide (from = f)
  | FunctionRule _ _ => false
  end.
Definition readers (f : Field) (rules : list RuleKind) : list RuleKind := filter (fun r => reads f r = true) rules.

Lemma readers_used f rules : f ∉ used_flds rules -> readers f rules = [].
Proof.
  induction rules as [|r rules IH]; [done|]. intros Hf. unfold readers. destruct r as [from to op|name to].
  - cbn in Hf. apply not_elem_of_cons in Hf as [Hff Hf]. rewrite filter_cons_False; [by apply IH|].
    cbn. by rewrite bool_decide_false.
  - rewrite filter_cons_False by done. by apply IH.
Qed.

Lemma same_name_reads s written f g r : same_name_rule s written g = Some r -> reads f r = bool_decide (g = f).
Proof.
  unfold same_name_rule. case_bool_decide; [done|]. destruct (find_prop _ s); [|done]. case_bool_decide; [done|].
  by intros [= <-].
Qed.

Lemma readers_same_names s written f fields : NoDup fields -> f ∈ fields ->
  readers f (omap (same_name_rule s written) fields) =
    match same_name_rule s written f with Some r => [r] | None => [] end.
Proof.
  assert (Hnone : forall fields, f ∉ fields -> readers f (omap (same_name_rule s written) fields) = []).
  { intros fs. induction fs as [|g fs IH]; [done|]. intros [Hg Hf]%not_elem_of_cons. cbn.
    destruct (same_name_rule s written g) as [r|] eqn:Hr; [|by apply IH].
    unfold readers. rewrite filter_cons_False; [by apply IH|]. rewrite (same_name_reads _ _ f _ _ Hr).
    by rewrite bool_decide_false. }
  induction 1 as [|g fields Hg _ IH]; [by intros ?%elem_of_nil|]. intros [->|Hf]%elem_of_cons; cbn.
  - destruct (same_name_rule s written g) as [r|] eqn:Hr; [|by apply Hnone].
    unfold readers. rewrite filter_cons_True; [|rewrite (same_name_reads _ _ g _ _ Hr); by apply bool_decide_true].
    f_equal. by apply Hnone.
  - assert (g <> f) as Hgf by (by intros ->).
    destruct (same_name_rule s written g) as [r|] eqn:Hr; [|by apply IH].
    unfold readers. rewrite filter_cons_False; [by apply IH|]. rewrite (same_name_reads _ _ f _ _ Hr).
    by rewrite bool_decide_false.
Qed.

(** C38: A declaration keeps its written rules.  A field of the message that none of them reads is
    mapped to the property of its name, unless there is none or a function sets it, and a field
    that is read is read by the written rules alone. *)
Theorem same_names_mapped (b : BookDeclarations) (m : MessageDeclarations) (r : Rule) (e : Event) (fields : list Field) :
  event_of b m r = Ok e -> res_mapM (get_field m) (m_attributes (ev_msg e)) = Ok fields -> NoDup fields ->
  exists written,
    res_mapM (rule_kind (ev_book_struct e) fields) (r_properties r) = Ok written /\
    written `prefix_of` ev_rules e /\
    forall f, f ∈ fields -> readers f (ev_rules e) =
      if bool_decide (f ∈ used_flds written) then readers f written
      else match find_prop (f_pretty f) (ev_book_struct e) with
           | Some p => if bool_decide (p_name p ∈ used_props written) then [] else [MapRule f p Update]
           | None => []
           end.
Proof.
  unfold event_of. intros He Hfields Hnd.
  destruct (get_message m (r_from r)) as [msg| |]; [|done..]. cbn [res_bind] in He.
  destruct (res_mapM (get_field m) (m_attributes msg)) as [fs| |] eqn:Hfs; [|done..]. cbn [res_bind] in He.
  destruct (find_struct b (r_to r)) as [s| |] eqn:Hs; [|done..]. cbn [res_bind] in He.
  destruct (res_unwrap _) as [op| |]; [|done..]. cbn [res_bind] in He.
  destruct (res_mapM _ (r_id r)) as [ids| |]; [|done..]. cbn [res_bind] in He.
  destruct (res_mapM _ (r_properties r)) as [written| |] eqn:Hrules; [|done..]. cbn [res_bind] in He.
  rewrite (struct_again b _ s Hs) in He. cbn [res_bind] in He. injection He as <-.
  cbn [ev_msg ev_rules ev_book_struct] in *. rewrite Hfs in Hfields. injection Hfields as ->.
  rewrite add_same_names_spec. exists written. split_and!; [done|by eexists|]. intros f Hf.
  unfold readers at 1. rewrite filter_app. fold (readers f written) (readers f (omap (same_name_rule s written) fields)).
  rewrite readers_same_names by done. unfold same_name_rule. case_bool_decide as Hu; [by rewrite app_nil_r|].
  rewrite readers_used by done. destruct (find_prop _ s); [|done]. by case_bool_decide.
Qed.

(** * A declared event *)

Definition sample_field (map pretty : string) : Field :=
  {| f_map := byte_str map; f_ts := byte_str map; f_pretty := byte_str pretty; f_type_s := byte_str "str"; f_modifier := None |}.
Definition sample_property (name : string) : Property :=
  {| p_name := byte_str name; p_type_s := byte_str "str"; p_doc := None; p_opt := false; p_modifier := None; p_key := None |}.

Definition sample_book : BookDeclarations := {| structs := [{|
  st_name := byte_str "Client"; st_opt := false; st_id := []; st_doc := [];
  st_properties := [sample_property "Name"; sample_property "Description"; sample_property "Channel"] |}] |}.

Definition sample_messages : MessageDeclarations := {|
  fields := [sample_field "name" "Name"; sample_field "desc" "Description"; sample_field "target" "Channel"];
  msg_group := [{|
    g_default := {| s2c := true; c2s := false; response := false; low := false; np := true |};
    g_msg := [{| m_name := byte_str "ClientUpdated"; m_notify := Some (byte_str "notifyclientupdated");
                 m_attributes := [byte_str "name"; byte_str "desc?"; byte_str "target?"] |}] |}];
|}.

(** A function sets the channel. *)
Definition sample_rule : Rule := {|
  r_id := []; r_from := byte_str "ClientUpdated"; r_to := byte_str "Client"; r_operation := byte_str "update";
  r_properties := [{| rp_from := None; rp_to := None; rp_operation := None; rp_function := Some (byte_str "move");
                      rp_tolist := Some [byte_str "Channel"] |}];
|}.

Lemma same_names_mapped_witness : exists e,
  event_of sample_book sample_messages sample_rule = Ok e /\
  readers (sample_field "desc" "Description") (ev_rules e) =
    [MapRule (sample_field "desc" "Description") (sample_property "Description") Update] /\
  readers (sample_field "target" "Channel") (ev_rules e) = [].
Proof.
  destruct (event_of sample_book sample_messages sample_rule) as [e| |] eqn:He; [|vm_compute in He; done..].
  exists e. split; [done|].
  assert (m_attributes (ev_msg e) = [byte_str "name"; byte_str "desc?"; byte_str "target?"] /\
    ev_book_struct e = hd (ev_book_struct e) (structs sample_book)) as (Hm & Hs)
    by (vm_compute in He; injection He as <-; done).
  destruct (same_names_mapped sample_book sample_messages sample_rule e (fields sample_messages) He)
    as (written & Hw & _ & Hread).
  - rewrite Hm. reflexivity.
  - by apply (bool_decide_unpack _).
  - rewrite Hs in Hw, Hread. cbn in Hw. injection Hw as <-. split.
    + apply (Hread (sample_field "desc" "Description")). right. by left.
    + apply (Hread (sample_field "target" "Channel")). right. right. by left.
Defined.
