(* ===== verification/SyncHandle.v ===== *)
(** The handles of a connection that is shared between tasks ([SyncConnectionHandle] of
    [tsclientlib/src/sync.rs]): every method sends a request with a fresh promise and waits for its
    answer.  The channel of requests is a queue; that a full channel makes the sender wait is not
    modelled. *)
From stdpp Require Import strings gmap.
From S2P Require Import Prelude Packets InitPackets AudioData Commands Connection Text.
From S2P Require Import CryptoLib Crypto Identity License Client Resolver Book BookSend Options Library Sync.
#[local] Open Scope Z_scope.

Section handle.
Context {prof : Profile} {b64 : Base64Enc} {sha : Sha1} {asn : Asn1} {bigio : BigIntIo}.
Context {p256 : P256} {decls : Declarations} {versions : Versions} {api : ClientApi} {msgs : Messages} {gen : Generated}.

(** The channel behind the handles: whether the connection still has its receiver, the requests
    that wait, and the next promise ([oneshot::channel]). *)
Record Requests := {
  rq_open : bool;
  rq_queue : list SyncConMessage;
  rq_next : Z;
}.

(** [self.send.send(..).await]: the promise of the request, or the error when the receiver is
    gone. *)
Definition send_request (make : Z -> SyncConMessage) (q : Requests) : res LibError Z * Requests :=
  let send := rq_next q in
  let q' := {| rq_open := rq_open q; rq_queue := rq_queue q; rq_next := send + 1 |} in
  if rq_open q
  then (Ok send, {| rq_open := true; rq_queue := rq_queue q ++ [make send]; rq_next := send + 1 |})
  else (Err ConnectionGone, q').

(** [recv.await.map_err(..)?] of the three kinds of promises; an answer of another kind is not
    possible in the program. *)
Definition receive_unit (a : Answer) : res LibError unit :=
  match a with
  | AnsUnit r => r
  | _ => Err ConnectionGone
  end.
Definition receive_download (a : Answer) : res LibError (Z * TcpStream) :=
  match a with
  | AnsDownload r => r
  | _ => Err ConnectionGone
  end.
Definition receive_upload (a : Answer) : res LibError (Z * TcpStream) :=
  match a with
  | AnsUpload r => r
  | _ => Err ConnectionGone
  end.

(** The methods up to their second [await].  [with_connection] puts the result of [f] into its own
    promise, which is no part of the connection. *)
Definition handle_with_connection (f : SyncConnection -> SyncConnection) : Requests -> res LibError Z * Requests :=
  send_request (fun _ => RunFn f).
Definition handle_send_command (arg : OutPacket) : Requests -> res LibError Z * Requests :=
  send_request (SendCommand arg).
Definition wait_until_connected : Requests -> res LibError Z * Requests := send_request WaitConnected.
Definition handle_disconnect (arg : DisconnectOptions) : Requests -> res LibError Z * Requests :=
  send_request (Disconnect arg).
Definition handle_download_file (channel_id : Z) (path : list Z) (channel_password : option (list Z))
    (seek_position : option Z) : Requests -> res LibError Z * Requests :=
  send_request (DownloadFile channel_id path channel_password seek_position).
Definition handle_upload_file (channel_id : Z) (path : list Z) (channel_password : option (list Z)) (size : Z)
    (overwrite resume : bool) : Requests -> res LibError Z * Requests :=
  send_request (UploadFile channel_id path channel_password size overwrite resume).

(** The promise of a request. *)
Definition promise_of (m : SyncConMessage) : option Z :=
  match m with
  | RunFn _ => None
  | SendCommand _ send | WaitConnected send | Disconnect _ send | DownloadFile _ _ _ _ send
  | UploadFile _ _ _ _ _ _ send => Some send
  end.

(** The promises that wait are different, and older than the next one. *)
Definition promises_fresh (q : Requests) : Prop :=
  NoDup (omap promise_of (rq_queue q)) /\ Forall (fun p => p < rq_next q) (omap promise_of (rq_queue q)).

Lemma send_request_fresh make q : (forall p, promise_of (make p) = Some p \/ promise_of (make p) = None) ->
  promises_fresh q -> promises_fresh (snd (send_request make q)).
Proof.
  intros Hm [Hnd Hlt]. unfold send_request, promises_fresh.
  assert (Forall (fun p => p < rq_next q + 1) (omap promise_of (rq_queue q))) as Hlt'
    by (eapply Forall_impl; [exact Hlt|cbn; lia]).
  destruct (rq_open q); cbn [snd rq_queue rq_next]; [|done]. rewrite omap_app. cbn [omap list_omap].
  destruct (Hm (rq_next q)) as [-> | ->]; [|by rewrite app_nil_r]. split.
  - apply NoDup_app. split_and!; [done| |by apply NoDup_singleton]. intros p Hp ->%list_elem_of_singleton.
    eapply Forall_forall in Hlt; [|exact Hp]. cbn in Hlt. lia.
  - apply Forall_app. split; [done|]. repeat constructor. lia.
Qed.

(** Every method keeps the promises apart, whether the connection is there or not. *)
Theorem requests_fresh (q : Requests) (arg : OutPacket) (options : DisconnectOptions) (f : SyncConnection -> SyncConnection)
    (id size : Z) (path : list Z) (password : option (list Z)) (seek : option Z) (overwrite resume : bool) :
  promises_fresh q ->
  Forall (fun r => promises_fresh (snd (r q)))
    [handle_with_connection f; handle_send_command arg; wait_until_connected; handle_disconnect options;
     handle_download_file id path password seek; handle_upload_file id path password size overwrite resume].
Proof. intros Hq. repeat constructor; apply send_request_fresh; cbn; auto. Qed.

(** A request on a connection that is gone fails without being queued; otherwise it is queued last. *)
Theorem request_queued (make : Z -> SyncConMessage) (q : Requests) :
  send_request make q =
    (if rq_open q then Ok (rq_next q) else Err ConnectionGone,
     {| rq_open := rq_open q; rq_queue := rq_queue q ++ (if rq_open q then [make (rq_next q)] else []);
        rq_next := rq_next q + 1 |}).
Proof. unfold send_request. destruct (rq_open q) eqn:Ho; [done|]. by rewrite app_nil_r. Qed.

End handle.
