(* ===== verification/ClientAsync.v ===== *)
(** The asynchronous functions of the client ([tsproto/src/client.rs]) as they are written: the
    loops that wait for an item which a filter accepts, and [connect] as a sequence of such waits.
    A list of polls drives them, as in [Client]; a function that still waits when the polls are used
    up tells where.  The theorem says that the state machine [connect_run] is this function. *)
From stdpp Require Import strings.
From S2P Require Import Prelude ByteIO Text Packets InitPackets AudioData Commands PacketId Algorithms Codec.
From S2P Require Import Encode BTree Resend Stats Connection Poll Frames Ip CryptoLib License Crypto Identity Client.
#[local] Open Scope Z_scope.

Section async.
Context `{BeIo, Quicklz, EaxCipher, Sha256, Cubic, Profile}.
Context `{Base64Enc, Base64Dec, Sha1, Asn1, BigIntIo, P256}.
Context `{Calendar, Ed25519, LicenseTypes, ModPow, BuildVersion}.

(** * Waiting for an item *)

(** A loop returned a value during the poll [e], which leaves datagrams and later polls, or it
    still waits. *)
Inductive Waiting (T : Type) :=
  | Got (t : T) (cl : Client) (waiting : list RecvResult) (e : PollEvent) (events : list PollEvent)
  | StillWaiting (cl : Client).
Arguments Got {T} t cl waiting e events.
Arguments StillWaiting {T} cl.

(** The result of an asynchronous function; there is none when a poll does not end. *)
Definition Async (T : Type) : Type := option (res ClientError T).

Definition async_lift {A B} (m : res ClientError A) (k : A -> Async B) : Async B :=
  match m with
  | Ok a => k a
  | Err e => Some (Err e)
  | Panic => Some Panic
  end.

Definition async_bind {A B} (m : Async A) (k : A -> Async B) : Async B :=
  match m with
  | None => None
  | Some m => async_lift m k
  end.

Definition filter_items {T} (filter : PollEvent -> Client -> StreamItem -> res ClientError (option T * Client)) :
    Client -> list RecvResult -> list PollEvent -> Async (Waiting T) :=
  fix loop cl waiting events :=
    match events with
    | [] => Some (Ok (StillWaiting cl))
    | e :: events =>
        async_bind (Client_poll_next cl (waiting ++ ev_recvs e) (ev_now e)) (fun '(item, cl, waiting) =>
          match item with
          | PolledEnd => Some (Err ConnectionEnd)
          | PolledPending => loop cl waiting events
          | PolledItem i =>
              async_lift (filter e cl i) (fun '(r, cl) =>
                match r with
                | Some r => Some (Ok (Got r cl waiting e events))
                | None => loop cl waiting events
                end)
          end)
    end.

(** [filter_commands] drops everything but commands itself. *)
Definition filter_commands {T} (filter : PollEvent -> Client -> list Z -> res ClientError (option T * Client)) :
    Client -> list RecvResult -> list PollEvent -> Async (Waiting T) :=
  fix loop cl waiting events :=
    match events with
    | [] => Some (Ok (StillWaiting cl))
    | e :: events =>
        async_bind (Client_poll_next cl (waiting ++ ev_recvs e) (ev_now e)) (fun '(item, cl, waiting) =>
          match item with
          | PolledEnd => Some (Err ConnectionEnd)
          | PolledPending => loop cl waiting events
          | PolledItem (Item_Command packet) =>
              async_lift (filter e cl packet) (fun '(r, cl) =>
                match r with
                | Some r => Some (Ok (Got r cl waiting e events))
                | None => loop cl waiting events
                end)
          | PolledItem (Item_Error _ | Item_AckPacket _ | Item_S2CInit _ _ | Item_C2SInit _ _ | Item_Audio _ _
                       | Item_NetworkStatsUpdated) => loop cl waiting events
          end)
    end.

Definition get_init (init_steps : list Z) : Client -> list RecvResult -> list PollEvent -> Async (Waiting S2CInitData) :=
  filter_items (fun _ cl i => Ok (wanted_init init_steps i, cl)).

Definition get_command : Client -> list RecvResult -> list PollEvent -> Async (Waiting (list Z)) :=
  filter_items (fun _ cl i => Ok (match i with Item_Command packet => Some packet | _ => None end, cl)).

Definition await_ack (id : PacketId) : Client -> list RecvResult -> list PollEvent -> Async (Waiting unit) :=
  filter_items (fun _ cl i => Ok (if wait_for_ack id i then Some tt else None, cl)).

(** [wait_until_can_send]; [None] when there is nothing to wait for. *)
Definition await_can_send (cl : Client) (now : Z) (waiting : list RecvResult) (events : list PollEvent)
    : Async (option (Waiting unit)) :=
  if negb (is_send_queue_full (con cl) now) then Some (Ok None) else
  async_bind (filter_items (fun e cl i => Ok (if wait_until_can_send (con cl) i (ev_now e) then Some tt else None, cl))
      cl waiting events) (fun w => Some (Ok (Some w))).

(** * Connecting *)

(** [m.await]: go on with the value, or stay where [st] says. *)
Definition await {T} (st : ConnectState) (m : Async (Waiting T))
    (k : T -> Client -> list RecvResult -> PollEvent -> list PollEvent -> Async (ConnectState * Client))
    : Async (ConnectState * Client) :=
  async_bind m (fun w =>
    match w with
    | Got t cl waiting e events => k t cl waiting e events
    | StillWaiting cl => Some (Ok (st, cl))
    end).

(** The part of [connect] after its loop. *)
Definition connect_finish (d : Drawn) (cl : Client) (waiting : list RecvResult) (events : list PollEvent)
    : Async (ConnectState * Client) :=
  await WaitInitivexpand2 (get_command cl waiting events) (fun command cl waiting e events =>
  async_lift (read_command (con cl) command) (fun '(name, args) =>
  if negb (bool_decide (name = byte_str "initivexpand2")) then Some (Err (UnexpectedPacket "initivexpand2")) else
  async_lift (handle_initivexpand2 d cl args (ev_today e) (ev_now e)) (fun '(clientek_id, cl) =>
  await (WaitAck clientek_id) (await_ack clientek_id cl waiting events) (fun _ cl _ _ _ =>
  Some (Ok (ConnectDone, cl)))))).

(** The loop of [connect], which starts again when the server asks for it; every round uses polls
    up. *)
Fixpoint connect_loop (fuel : nat) (d : Drawn) (cl : Client) (now : Z) (waiting : list RecvResult)
    (events : list PollEvent) : Async (ConnectState * Client) :=
  match fuel with
  | O => None
  | S fuel =>
      async_lift (send_init0 d (con cl) now) (fun c =>
      await WaitInit1 (get_init [1] (with_con cl c) waiting events) (fun init1 cl waiting e events =>
      match init1 with
      | Init1 random1 random0_r =>
          async_lift (init_version d) (fun version =>
          async_lift (send_init (con cl) (OutC2SInit2_new version random1 random0_r) (ev_now e)) (fun c =>
          await WaitInit3 (get_init [3; 127] (with_con cl c) waiting events) (fun init3 cl waiting e events =>
          if S2CInitData_get_step init3 =? 127 then connect_loop fuel d cl (ev_now e) waiting events else
          match init3 with
          | Init3 x n level random2 =>
              async_lift (handle_init3 d cl x n level random2 (ev_now e)) (fun cl =>
              connect_finish d cl waiting events)
          | _ => Some (Err (UnexpectedPacket "Init3"))
          end)))
      | _ => Some (Err (UnexpectedPacket "Init1"))
      end))
  end.

Definition connect (d : Drawn) (cl : Client) (now : Z) (events : list PollEvent) : Async (ConnectState * Client) :=
  connect_loop (S (length events)) d cl now [] events.

(** * The state machine *)

Lemma filter_items_shorter {T} (f : PollEvent -> Client -> StreamItem -> res ClientError (option T * Client))
    (events : list PollEvent) : forall cl waiting t cl' waiting' e rest,
  filter_items f cl waiting events = Some (Ok (Got t cl' waiting' e rest)) -> (length rest < length events)%nat.
Proof.
  induction events as [|e0 events IH]; intros cl waiting t cl' waiting' e rest; cbn [filter_items]; [discriminate|].
  destruct (Client_poll_next _ _ _) as [[[[item cl1] w]|er|]|]; cbn [async_bind async_lift]; try discriminate.
  destruct item as [|i|]; [discriminate| |intros Hr%IH; cbn; lia].
  destruct (f e0 cl1 i) as [[[r|] cl2]|er|]; cbn [async_lift]; try discriminate; [|intros Hr%IH; cbn; lia].
  intros [= _ _ _ _ <-]. cbn. lia.
Qed.

(** A state of the machine waits with a filter when an item makes the same step. *)
Definition waits_with {T} (d : Drawn) (st : ConnectState)
    (f : PollEvent -> Client -> StreamItem -> res ClientError (option T * Client))
    (k : T -> Client -> PollEvent -> res ClientError (ConnectState * Client)) : Prop :=
  st <> ConnectDone /\
  forall e cl i, connect_item d st cl i (ev_today e) (ev_now e) =
    let? '(r, cl') := f e cl i in
    match r with
    | Some t => k t cl' e
    | None => Ok (st, cl')
    end.

Lemma connect_run_waits {T} d st (f : PollEvent -> Client -> StreamItem -> res ClientError (option T * Client)) k :
  waits_with d st f k -> forall events cl waiting,
  connect_run d st cl waiting events =
    await st (filter_items f cl waiting events) (fun t cl waiting e events =>
      async_lift (k t cl e) (fun '(st, cl) => connect_run d st cl waiting events)).
Proof.
  intros [Hst Hi] events. induction events as [|e events IH]; intros cl waiting.
  - by destruct st.
  - transitivity (async_bind (Client_poll_next cl (waiting ++ ev_recvs e) (ev_now e)) (fun '(item, cl, waiting) =>
      match item with
      | PolledEnd => Some (Err ConnectionEnd)
      | PolledPending => connect_run d st cl waiting events
      | PolledItem i => async_lift (connect_item d st cl i (ev_today e) (ev_now e))
          (fun '(st, cl) => connect_run d st cl waiting events)
      end)).
    { destruct st; try done; cbn [connect_run];
        destruct (Client_poll_next _ _ _) as [[[[[|i|] cl1] w]|er|]|]; cbn [async_bind async_lift]; try done;
        destruct (connect_item _ _ _ _ _ _) as [[st' cl']|er|]; done. }
    cbn [filter_items]. unfold await at 1.
    destruct (Client_poll_next _ _ _) as [[[[[|i|] cl1] w]|er|]|]; cbn [async_bind async_lift]; try done.
    rewrite Hi. destruct (f e cl1 i) as [[[t|] cl2]|er|]; cbn [res_bind async_lift async_bind]; [done| |done..].
    by rewrite IH.
Qed.

Lemma waits_init1 d : waits_with d WaitInit1 (fun _ cl i => Ok (wanted_init [1] i, cl)) (fun t cl e =>
  match t with
  | Init1 random1 random0_r =>
      let? version := init_version d in
      let? c := send_init (con cl) (OutC2SInit2_new version random1 random0_r) (ev_now e) in
      Ok (WaitInit3, with_con cl c)
  | _ => Err (UnexpectedPacket "Init1")
  end).
Proof. split; [done|]. intros e cl i. cbn [connect_item res_bind]. by destruct (wanted_init [1] i) as [[]|]. Qed.

Lemma waits_init3 d : waits_with d WaitInit3 (fun _ cl i => Ok (wanted_init [3; 127] i, cl)) (fun t cl e =>
  match t with
  | Init127 => connect_start d cl (ev_now e)
  | Init3 x n level random2 =>
      let? cl := handle_init3 d cl x n level random2 (ev_now e) in
      Ok (WaitInitivexpand2, cl)
  | _ => Err (UnexpectedPacket "Init3")
  end).
Proof. split; [done|]. intros e cl i. cbn [connect_item res_bind]. by destruct (wanted_init [3; 127] i) as [[]|]. Qed.

Lemma waits_initivexpand2 d : waits_with d WaitInitivexpand2
  (fun _ cl i => Ok (match i with Item_Command packet => Some packet | _ => None end, cl)) (fun data cl e =>
  let? '(name, items) := read_command (con cl) data in
  if negb (bool_decide (name = byte_str "initivexpand2")) then Err (UnexpectedPacket "initivexpand2") else
  let? '(id, cl) := handle_initivexpand2 d cl items (ev_today e) (ev_now e) in
  Ok (WaitAck id, cl)).
Proof. split; [done|]. intros e cl i. by destruct i. Qed.

Lemma waits_ack d id : waits_with d (WaitAck id)
  (fun _ cl i => Ok (if wait_for_ack id i then Some tt else None, cl)) (fun _ cl _ => Ok (ConnectDone, cl)).
Proof. split; [done|]. intros e cl i. cbn [connect_item res_bind]. by destruct (wait_for_ack id i). Qed.

Lemma async_lift_bind {A B C} (m : res ClientError A) (f : A -> res ClientError B) (k : B -> Async C) :
  async_lift (res_bind m f) k = async_lift m (fun a => async_lift (f a) k).
Proof. by destruct m. Qed.

Lemma await_ext {T} st (m : Async (Waiting T)) k k' :
  (forall t cl waiting e events, m = Some (Ok (Got t cl waiting e events)) ->
    k t cl waiting e events = k' t cl waiting e events) ->
  await st m k = await st m k'.
Proof. intros Hk. unfold await. destruct m as [[[t cl w e es|cl]|er|]|]; cbn [async_bind async_lift]; auto. Qed.

Lemma async_lift_ext {A B} (m : res ClientError A) (k k' : A -> Async B) :
  (forall a, m = Ok a -> k a = k' a) -> async_lift m k = async_lift m k'.
Proof. destruct m; cbn; auto. Qed.

Lemma connect_finish_run d cl waiting events :
  connect_run d WaitInitivexpand2 cl waiting events = connect_finish d cl waiting events.
Proof.
  rewrite (connect_run_waits _ _ _ _ (waits_initivexpand2 d)). apply await_ext.
  intros data cl1 w e es _. rewrite async_lift_bind. apply async_lift_ext. intros [name items] _.
  destruct (negb _); [done|]. rewrite async_lift_bind. apply async_lift_ext. intros [id cl2] _. cbn [async_lift].
  rewrite (connect_run_waits _ _ _ _ (waits_ack d id)). apply await_ext. intros t cl3 w' e' es' _.
  cbn [async_lift]. by destruct es'.
Qed.

Lemma connect_loop_run d (n : nat) : forall cl now waiting events, (length events < n)%nat ->
  async_lift (connect_start d cl now) (fun '(st, cl) => connect_run d st cl waiting events) =
  connect_loop n d cl now waiting events.
Proof.
  induction n as [|n IH]; intros cl now waiting events Hn; [lia|]. unfold connect_start. cbn [connect_loop].
  rewrite async_lift_bind. apply async_lift_ext. intros c _. cbn [async_lift].
  rewrite (connect_run_waits _ _ _ _ (waits_init1 d)). apply await_ext. intros t cl1 w e es Hes%filter_items_shorter.
  destruct t; try done. rewrite async_lift_bind. apply async_lift_ext. intros version _.
  rewrite async_lift_bind. apply async_lift_ext. intros c' _. cbn [async_lift].
  rewrite (connect_run_waits _ _ _ _ (waits_init3 d)). apply await_ext. intros t cl2 w' e' es' Hes'%filter_items_shorter.
  destruct t; cbn [S2CInitData_get_step]; try done.
  - cbn. rewrite async_lift_bind. apply async_lift_ext. intros cl3 _. apply connect_finish_run.
  - apply IH. lia.
Qed.

(** C10: The state machine of the handshake is [connect] as it is written: on every sequence of polls
    it waits at the same place with the same connection, fails with the same error, or is done. *)
Theorem connect_is_sequential (d : Drawn) (cl : Client) (now : Z) (events : list PollEvent) :
  async_lift (connect_start d cl now) (fun '(st, cl) => connect_run d st cl [] events) = connect d cl now events.
Proof. apply connect_loop_run. lia. Qed.

(** Filtering commands is filtering items with a filter that drops the others. *)
Lemma filter_commands_items {T} (f : PollEvent -> Client -> list Z -> res ClientError (option T * Client))
    (cl : Client) (waiting : list RecvResult) (events : list PollEvent) :
  filter_commands f cl waiting events =
  filter_items (fun e cl i => match i with Item_Command packet => f e cl packet | _ => Ok (None, cl) end)
    cl waiting events.
Proof.
  revert cl waiting. induction events as [|e events IH]; intros cl waiting; [done|].
  cbn [filter_commands filter_items]. destruct (Client_poll_next _ _ _) as [[[[[|i|] cl1] w]|er|]|]; cbn [async_bind async_lift]; try done; try apply IH.
  destruct i; try apply IH. destruct (f e cl1 data) as [[[r|] cl2]|er|]; try done. apply IH.
Qed.

End async.
