(* ===== verification/Hex.v ===== *)
(** Hexadecimal dumps: writing them ([HexSlice] in [utils/tsproto-packets/src/lib.rs]) and reading
    them in the four formats of [read_hex] ([tsproto/src/utils.rs]). *)
From stdpp Require Import strings.
From S2P Require Import Prelude Text InitPackets Ip IpParse Strings.
#[local] Open Scope Z_scope.

(** [Error::InvalidHex] *)
Inductive HexError := InvalidHex.

(** * Writing *)

(** [{:02x}] *)
Definition hex_byte (b : Z) : list Z := [hex_digit (b / 16); hex_digit (b mod 16)].

Definition HexSlice_fmt (bs : list Z) : list Z :=
  byte_str "Hex[" ++
  (match last bs with
   | Some l => flat_map (fun b => hex_byte b ++ byte_str " ") (removelast bs) ++ hex_byte l
   | None => []
   end) ++ byte_str "]".

(** * Reading *)

(** [s.chars().nth(2) == Some(c)] for an ASCII character. *)
Fixpoint drop_continuation (s : list Z) : list Z :=
  match s with
  | b :: r => if continuation b then drop_continuation r else s
  | [] => []
  end.
Definition drop_char (s : list Z) : list Z := drop_continuation (tail s).
Definition third_char_is (c : Z) (s : list Z) : bool := bool_decide (head (drop_char (drop_char s)) = Some c).

(** [s.chars().filter(|c| !c.is_whitespace()).collect()] *)
Fixpoint remove_white (s : list Z) : list Z :=
  match s with
  | [] => []
  | a :: s1 =>
      if ws1 a then remove_white s1 else
      match s1 with
      | [] => s
      | b :: s2 =>
          if ws2 a b then remove_white s2 else
          match s2 with
          | c :: s3 => if ws3 a b c then remove_white s3 else a :: remove_white s1
          | [] => a :: remove_white s1
          end
      end
  end.

(** [s.trim_start_matches("0x")] *)
Fixpoint trim_0x (s : list Z) : list Z :=
  match s with
  | 0x30 :: 0x78 :: r => trim_0x r
  | _ => s
  end.

(** [s.chunks(2)] *)
Fixpoint chunks2 (s : list Z) : list (list Z) :=
  match s with
  | a :: b :: s => [a; b] :: chunks2 s
  | [a] => [[a]]
  | [] => []
  end.

(** [u8::from_str_radix(s, 16)] *)
Definition parse_byte (s : list Z) : res HexError Z := ok_or (from_str_radix 16 8 s) InvalidHex.

(** [from_utf8(s).unwrap()]: a pair of bytes can cut a character. *)
Definition parse_chunk (s : list Z) : res HexError Z := if utf8_valid s then parse_byte s else Panic.

Definition read_hex (s : list Z) : res HexError (list Z) :=
  if third_char_is 0x3a s then res_mapM parse_byte (split 0x3a s)
  else if third_char_is 0x20 s then res_mapM parse_byte (split 0x20 s)
  else if starts_with (byte_str "0x") s then
    res_mapM (fun s => parse_byte (trim_0x s)) (split 0x2c (drop 2 (remove_white s)))
  else res_mapM parse_chunk (chunks2 (remove_white s)).

Example read_wireshark : read_hex (byte_str "0a:fF:10") = Ok [0x0a; 0xff; 0x10].
Proof. vm_compute. reflexivity. Qed.

Example read_own_dump : read_hex (byte_str "0x1, 0xa2,0x03") = Ok [0x01; 0xa2; 0x03].
Proof. vm_compute. reflexivity. Qed.

(** A sign is accepted in front of a digit, and a half byte at the end. *)
Example read_sign : read_hex (byte_str "+123f") = Ok [0x01; 0x23; 0x0f].
Proof. vm_compute. reflexivity. Qed.

(** A character that two chunks share is a panic: [f], [e] with an acute accent. *)
Example read_panic : read_hex [0x66; 0xc3; 0xa9] = Panic.
Proof. vm_compute. reflexivity. Qed.

(** * What is written is read *)

Definition hex_char (c : Z) : bool := ((0x30 <=? c) && (c <=? 0x39)) || ((0x61 <=? c) && (c <=? 0x66)).

Lemma hex_digit_char d : 0 <= d < 16 -> hex_char (hex_digit d) = true.
Proof. intros Hd. unfold hex_char, hex_digit. destruct (Z.ltb_spec d 10); lia. Qed.

(** A digit is no separator, no continuation byte and no white space. *)
Lemma hex_char_plain c : hex_char c = true ->
  continuation c = false /\ ws1 c = false /\ c <> 0x20 /\ c <> 0x3a /\ c <> 0x78 /\ (forall b, ws2 c b = false) /\
  (forall b d, ws3 c b d = false) /\ is_uint 7 c.
Proof.
  unfold hex_char. intros Hc. assert (0x30 <= c <= 0x66) as Hr by lia. unfold continuation, ws1, ws2, ws3, is_uint.
  repeat split; intros; try lia.
Qed.

Lemma byte_digits b : is_u8 b -> 0 <= b / 16 < 16 /\ 0 <= b mod 16 < 16.
Proof.
  unfold is_u8, is_uint. intros Hb. split; [|apply Z.mod_pos_bound; lia].
  split; [apply Z.div_pos; lia|apply Z.div_lt_upper_bound; lia].
Qed.

Lemma hex_byte_chars b : is_u8 b -> Forall (fun c => hex_char c = true) (hex_byte b).
Proof. intros [H1 H2]%byte_digits. repeat constructor; by apply hex_digit_char. Qed.

Definition hex_byte_readable (b : Z) : bool := bool_decide (from_str_radix 16 8 (hex_byte b) = Some b).

Lemma parse_hex_byte b : is_u8 b -> parse_byte (hex_byte b) = Ok b.
Proof.
  intros Hb. assert (hex_byte_readable b = true) as Hd.
  { apply (seqZ_forallb _ 256); [vm_compute; reflexivity|exact Hb]. }
  unfold parse_byte. by rewrite (bool_decide_eq_true_1 _ Hd).
Qed.

(** The text of bytes with a separator between them. *)
Fixpoint with_sep (sep : list Z) (bs : list Z) : list Z :=
  match bs with
  | [] => []
  | [b] => hex_byte b
  | b :: bs => hex_byte b ++ sep ++ with_sep sep bs
  end.

Lemma hex_slice_sep bs : HexSlice_fmt bs = byte_str "Hex[" ++ with_sep [0x20] bs ++ byte_str "]".
Proof.
  unfold HexSlice_fmt. f_equal. f_equal. induction bs as [|b bs IH]; [done|]. destruct bs as [|b' bs]; [done|].
  transitivity (hex_byte b ++ [0x20] ++ match last (b' :: bs) with
    | Some l => flat_map (fun b => hex_byte b ++ byte_str " ") (removelast (b' :: bs)) ++ hex_byte l
    | None => [] end); [|by rewrite IH].
  cbn [last]. destruct (last (b' :: bs)) as [l|] eqn:Hl; [done|]. by apply last_None in Hl.
Qed.

Lemma res_mapM_bytes (f : list Z -> res HexError Z) bs : Forall (fun b => f (hex_byte b) = Ok b) bs ->
  res_mapM f (hex_byte <$> bs) = Ok bs.
Proof. induction 1 as [|b bs Hb _ IH]; [done|]. cbn [fmap list_fmap res_mapM]. by rewrite Hb, IH. Qed.

Lemma split_sep c bs : bs <> [] -> bytes bs -> (forall b, is_u8 b -> c ∉ hex_byte b) ->
  split c (with_sep [c] bs) = hex_byte <$> bs.
Proof.
  intros Hne Hb Hc. induction Hb as [|b bs Hb Hbs IH]; [done|]. destruct bs as [|b' bs].
  - apply split_none, Hc, Hb.
  - change (with_sep [c] (b :: b' :: bs)) with (hex_byte b ++ c :: with_sep [c] (b' :: bs)).
    rewrite split_app by (apply Hc, Hb). by rewrite IH.
Qed.

Lemma sep_not_hex c b : is_u8 b -> hex_char c = false -> c ∉ hex_byte b.
Proof. intros Hb Hc Hin. pose proof (hex_byte_chars b Hb) as Hf. eapply Forall_forall in Hf; [|exact Hin]. cbn in Hf. congruence. Qed.

(** The first two characters of a dump are digits. *)
Lemma third_char b rest c : is_u8 b -> third_char_is c (hex_byte b ++ rest) = bool_decide (head (drop_continuation rest) = Some c).
Proof.
  intros [H1 H2]%byte_digits. unfold third_char_is, drop_char, hex_byte. cbn [app tail drop_continuation].
  destruct (hex_char_plain _ (hex_digit_char _ H2)) as [-> _]. by cbn [tail].
Qed.

Lemma remove_white_hex s : Forall (fun c => hex_char c = true) s -> remove_white s = s.
Proof.
  induction 1 as [|c s Hc Hs IH]; [done|]. destruct (hex_char_plain c Hc) as (_ & Hw & _ & _ & _ & Hw2 & Hw3 & _).
  cbn [remove_white]. rewrite Hw. destruct s as [|c2 s]; [done|]. rewrite Hw2. destruct s as [|c3 s]; [by rewrite IH|].
  by rewrite Hw3, IH.
Qed.

Lemma flat_hex_chars bs : bytes bs -> Forall (fun c => hex_char c = true) (flat_map hex_byte bs).
Proof. induction 1 as [|b bs Hb _ IH]; [done|]. cbn [flat_map]. apply Forall_app. split; [by apply hex_byte_chars|done]. Qed.

Lemma chunks_hex bs : chunks2 (flat_map hex_byte bs) = hex_byte <$> bs.
Proof. induction bs as [|b bs IH]; [done|]. cbn. by rewrite IH. Qed.

Lemma parse_chunk_hex b : is_u8 b -> parse_chunk (hex_byte b) = Ok b.
Proof.
  intros Hb. unfold parse_chunk. rewrite utf8_valid_ascii; [by apply parse_hex_byte|].
  eapply Forall_impl; [by apply hex_byte_chars|]. cbn. intros c Hc. destruct (hex_char_plain c Hc) as (_ & _ & _ & _ & _ & _ & _ & Hu). exact Hu.
Qed.

(** A dump without separators does not look like the other formats. *)
Lemma plain_format bs : bytes bs -> let s := flat_map hex_byte bs in
  third_char_is 0x3a s = false /\ third_char_is 0x20 s = false /\ starts_with (byte_str "0x") s = false.
Proof.
  intros Hb s. subst s. destruct Hb as [|b bs Hb Hbs]; [done|]. cbn [flat_map]. rewrite !third_char by done.
  assert (Hh : forall c, hex_char c = false -> bool_decide (head (drop_continuation (flat_map hex_byte bs)) = Some c) = false).
  { intros c Hc. apply bool_decide_eq_false. pose proof (flat_hex_chars bs Hbs) as Hf.
    destruct (flat_map hex_byte bs) as [|x s]; [done|]. apply Forall_cons in Hf as [Hx _].
    cbn [drop_continuation]. destruct (hex_char_plain x Hx) as [-> _]. cbn. intros [= ->]. congruence. }
  rewrite !Hh by done. split_and!; [done..|]. unfold starts_with. apply bool_decide_eq_false. intros [r Hr].
  apply strip_prefix_some in Hr. apply byte_digits in Hb as [_ H2]. unfold hex_byte in Hr. cbn in Hr.
  injection Hr as _ Hx _. destruct (hex_char_plain _ (hex_digit_char _ H2)) as (_ & _ & _ & _ & Hne & _). done.
Qed.

(** Every dump that [HexSlice] writes is read back from between its brackets, and the bytes of a
    dump are read as well without separators and, from two bytes on, with colons. *)
Theorem hex_roundtrip (bs : list Z) :
  bytes bs ->
  (exists text, HexSlice_fmt bs = byte_str "Hex[" ++ text ++ byte_str "]" /\ read_hex text = Ok bs) /\
  read_hex (flat_map hex_byte bs) = Ok bs /\
  ((2 <= length bs)%nat -> read_hex (with_sep [0x3a] bs) = Ok bs).
Proof.
  intros Hb.
  assert (Hplain : read_hex (flat_map hex_byte bs) = Ok bs).
  { unfold read_hex. destruct (plain_format bs Hb) as (-> & -> & ->).
    rewrite remove_white_hex by (by apply flat_hex_chars). rewrite chunks_hex. apply res_mapM_bytes.
    eapply Forall_impl; [exact Hb|]. apply parse_chunk_hex. }
  assert (Hsep : forall c, c = 0x3a \/ c = 0x20 -> (2 <= length bs)%nat -> read_hex (with_sep [c] bs) = Ok bs).
  { intros c Hc Hlen. assert (split c (with_sep [c] bs) = hex_byte <$> bs) as Hs.
    { apply split_sep; [intros ->; cbn in Hlen; lia|done|]. intros b Hu. apply sep_not_hex; [done|]. by destruct Hc as [-> | ->]. }
    assert (res_mapM parse_byte (hex_byte <$> bs) = Ok bs) as Hm.
    { apply res_mapM_bytes. eapply Forall_impl; [exact Hb|]. apply parse_hex_byte. }
    assert (third_char_is c (with_sep [c] bs) = true /\ (c = 0x20 -> third_char_is 0x3a (with_sep [c] bs) = false)) as [Ht Ht'].
    { destruct bs as [|b [|b' bs]]; [cbn in Hlen; lia..|]. apply Forall_cons in Hb as [Hb _].
      change (with_sep [c] (b :: b' :: bs)) with (hex_byte b ++ [c] ++ with_sep [c] (b' :: bs)).
      rewrite !third_char by done. by destruct Hc as [-> | ->]. }
    unfold read_hex. destruct Hc as [-> | ->]; [by rewrite Ht, Hs|]. by rewrite Ht', Ht, Hs. }
  split_and!; [|done|intros Hlen; by apply Hsep; [left|]].
  exists (with_sep [0x20] bs). split; [apply hex_slice_sep|].
  destruct bs as [|b [|b' bs]]; [done| |apply Hsep; [by right|cbn; lia]].
  cbn [flat_map] in Hplain. by rewrite app_nil_r in Hplain.
Qed.

Lemma hex_roundtrip_witness :
  (exists text, HexSlice_fmt [0x0a; 0xff] = byte_str "Hex[" ++ text ++ byte_str "]" /\ read_hex text = Ok [0x0a; 0xff]) /\
  read_hex (flat_map hex_byte [0x0a; 0xff]) = Ok [0x0a; 0xff] /\
  ((2 <= length [0x0a; 0xff])%nat -> read_hex (with_sep [0x3a] [0x0a; 0xff]) = Ok [0x0a; 0xff]).
Proof. apply (hex_roundtrip [0x0a; 0xff]). repeat constructor; done. Defined.
