(* ===== verification/BookHandler.v ===== *)
(** The handler of the book that the template [ts-bookkeeping/build/MessagesToBook.tt] generates:
    what it does for a message, for any declarations.  The objects of the book map the names of
    their attributes to values with their types at run time.  The functions that look objects up,
    and those that rules name, are written by hand; here they are the interface [BookStore], and
    [BookStores] has them.  Code that the compiler would refuse for its types is a panic;
    [BookHandlerSpec] gives a check of the declarations that excludes it. *)
From stdpp Require Import strings gmap.
From S2P Require Import Prelude Text Packets Commands InitPackets CryptoLib Ip Book Strings Types Declarations Values Messages MessagesToBook.
#[local] Open Scope Z_scope.

#[global] Instance scalar_eq_dec : EqDecision scalar.
Proof. solve_decision. Defined.

(** Equality of the values of libraries. *)
Class ValueEq `{Floats} `{Times} `{SocketAddrs} := {
  Float_eq_dec w :: EqDecision (Float w);
  Duration_eq_dec :: EqDecision Duration;
  DateTime_eq_dec :: EqDecision DateTime;
  SockAddr_eq_dec :: EqDecision SockAddr;
}.

(** [Error] of the crate: the template's own error and those of the written functions. *)
Inductive HandlerError (StoreErr : Type) :=
  | HandlerRemoveNotFound (name : list Z)
  | HandlerStore (e : StoreErr).
Arguments HandlerRemoveNotFound {StoreErr} name.
Arguments HandlerStore {StoreErr} e.

(** The values that only written functions make, with their Rust types. *)
Class OpaqueValues := { Opaque : Type; opaque_type : Opaque -> list Z }.

Section values.
Context `{Floats} `{Times} `{SocketAddrs} `{!ValueEq} `{OpaqueValues}.

#[global] Instance rust_value_eq_dec s : EqDecision (rust_value s).
Proof. destruct s; cbn [rust_value]; try apply _; solve_decision. Defined.

(** * Values *)

(** A value of a field or an element of a list. *)
Definition Item : Type := {s : scalar & rust_value s}.

#[global] Instance Item_eq_dec : EqDecision Item.
Proof.
  intros [s v] [s' v']. destruct (decide (s = s')) as [->|Hs]; [|by right; intros [=]].
  destruct (decide (v = v')) as [->|Hv]; [by left|]. right. intros Heq.
  apply Eqdep_dec.inj_pair2_eq_dec in Heq; [done|]. intros x y. destruct (decide (x = y)); auto.
Defined.

Inductive Value :=
  | VOne (i : Item)
  | VVec (l : list Item)
  | VSet (l : list Item)
  | VOpaque (type_s : list Z) (o : Opaque)
  | VNone
  | VSome (v : Value).

(** The name of every attribute of a structure with its value. *)
Definition Obj : Type := gmap (list Z) Value.

(** [HashSet]: a set is the list of its elements in their order of iteration, which collecting and
    inserting decide. *)
Class HashSets := { collect_set : list Item -> list Item }.

Context `{HashSets}.

Definition set_insert (i : Item) (l : list Item) : list Item :=
  if bool_decide (i ∈ l) then l else collect_set (i :: l).
Definition set_remove (i : Item) (l : list Item) : list Item := filter (fun j => j <> i) l.
(** [a.difference(&b)], and [filter(|n| !b.contains(n))] of a list. *)
Definition not_in (b a : list Item) : list Item := filter (fun i => i ∉ b) a.

(** * Events *)

(** [PropertyId]: the name of the variant and its arguments. *)
Record GPropertyId := { pid_name : list Z; pid_args : list Value }.

(** [PropertyValue] of a structure, which may be optional, or of an attribute. *)
Inductive OldValue :=
  | OldObj (o : Obj)
  | OldOptObj (o : option Obj)
  | OldValue_ (v : Value).

Record GInvoker := { gi_id : Value; gi_name : Value; gi_uid : Value }.

Inductive GEvent :=
  | GAdded (id : GPropertyId) (invoker : option GInvoker) (reason : Value)
  | GChanged (id : GPropertyId) (old : OldValue) (invoker : option GInvoker) (reason : Value)
  | GRemoved (id : GPropertyId) (old : OldValue) (invoker : option GInvoker) (reason : Value).

(** * Fields of the message *)

Context `{Heck}.

Definition as_value (v : field_value) : Value :=
  match v with
  | One s v => VOne (existT s v)
  | Many s vs => VVec (existT s <$> vs)
  end.

(** The value of an attribute in the part. *)
Definition attribute_value {E} (a : Attribute) (v : option field_value) : res E Value :=
  match v, at_opt a with
  | Some v, false => Ok (as_value v)
  | Some v, true => Ok (VSome (as_value v))
  | None, true => Ok VNone
  | None, false => Panic
  end.

(** [m.field] *)
Definition m_attribute {E} (p : Attribute -> Prop) `{forall a, Decision (p a)} (t : MessageType) (part : Part)
    : res E Value :=
  match list_find p (mt_attributes t) with
  | Some (i, a) => attribute_value a (mjoin (part !! i))
  | None => Panic
  end.

Definition m_field {E} (t : MessageType) (part : Part) (f : Field) : res E Value :=
  m_attribute (fun a => at_field a = f) t part.

(** The attribute that the templates write by its name in Rust. *)
Definition m_named {E} (t : MessageType) (part : Part) (name : string) : res E Value :=
  m_attribute (fun a => Field_get_rust_name (at_field a) = byte_str name) t part.

Definition is_option (v : Value) : bool := match v with VNone | VSome _ => true | _ => false end.

(** [get_invoker] of a part ([MessageDeclarations.tt]): the message has one if it has the three
    fields; with an optional id, both the id and the name must have a value. *)
Definition has_ts (t : MessageType) (ts : string) : bool :=
  existsb (fun a => bool_decide (f_ts (at_field a) = byte_str ts)) (mt_attributes t).

Definition has_invoker (t : MessageType) : bool :=
  has_ts t "invokerid" && has_ts t "invokername" && has_ts t "invokeruid".

Definition invoker_optional (t : MessageType) : bool :=
  match last (filter (fun a => f_ts (at_field a) = byte_str "invokerid") (mt_attributes t)) with
  | Some a => at_opt a
  | None => true
  end.

Definition part_invoker {E} (t : MessageType) (part : Part) : res E (option GInvoker) :=
  if negb (has_invoker t) then Ok None else
  let? id := m_named t part "invoker_id" in
  let? name := m_named t part "invoker_name" in
  let? uid := m_named t part "invoker_uid" in
  if negb (is_option uid) then Panic else
  if invoker_optional t then
    if negb (is_option id && is_option name) then Panic else
    match id, name with
    | VSome id, VSome name => Ok (Some {| gi_id := id; gi_name := name; gi_uid := uid |})
    | _, _ => Ok None
    end
  else if is_option id || is_option name then Panic
  else Ok (Some {| gi_id := id; gi_name := name; gi_uid := uid |}).

(** The reason, as an option. *)
Definition part_reason {E} (t : MessageType) (part : Part) : res E Value :=
  if bool_decide (byte_str "reasonid" ∈ m_attributes (mt_message t)) then
    let? r := m_named t part "reason" in
    if is_option r then Panic else Ok (VSome r)
  else if bool_decide (byte_str "reasonid?" ∈ m_attributes (mt_message t)) then
    let? r := m_named t part "reason" in
    if is_option r then Ok r else Panic
  else Ok VNone.

(** * The written functions *)

(** [get_mut_x] gives a reference to the object, [put] writes through it.  The functions that a
    rule names are called with the message, with [&mut self] and the events: for an update only for
    their effect, for a new object for its attributes. *)
Class BookStore := {
  GBook : Type;
  StoreErr : Type;
  get_mut : list Z -> list Value -> GBook -> res (HandlerError StoreErr) Obj;
  put : list Z -> list Value -> Obj -> GBook -> GBook;
  store_add : list Z -> list Value -> Obj -> GBook * list GEvent ->
    res (HandlerError StoreErr) (option Obj) * (GBook * list GEvent);
  store_remove : list Z -> list Value -> GBook * list GEvent ->
    res (HandlerError StoreErr) (option Obj) * (GBook * list GEvent);
  store_replace : list Z -> list Value -> Obj -> GBook * list GEvent ->
    res (HandlerError StoreErr) (option Obj) * (GBook * list GEvent);
  update_fun : MessageType -> list Z -> list Value -> Part -> GBook * list GEvent ->
    res (HandlerError StoreErr) unit * (GBook * list GEvent);
  create_fun : MessageType -> list Z -> Part -> GBook * list GEvent ->
    res (HandlerError StoreErr) (list Value) * (GBook * list GEvent);
}.

Context `{BookStore}.

(** A computation changes the book, appends to the events, and may fail in between. *)
Definition gh (A : Type) : Type := GBook * list GEvent -> res (HandlerError StoreErr) A * (GBook * list GEvent).

#[global] Instance gh_ret : MRet gh := fun _ a s => (Ok a, s).
#[global] Instance gh_bind : MBind gh := fun _ _ k m s =>
  match m s with
  | (Ok a, s) => k a s
  | (Err e, s) => (Err e, s)
  | (Panic, s) => (Panic, s)
  end.

Definition gh_lift {A} (m : res (HandlerError StoreErr) A) : gh A := fun s => (m, s).
Definition gh_push (e : GEvent) : gh unit := fun s => (Ok tt, (s.1, s.2 ++ [e])).

(** [.iter().cloned().collect()] of a list for a set. *)
Definition to_set (v : Value) : res (HandlerError StoreErr) Value :=
  match v with
  | VVec l => Ok (VSet (collect_set l))
  | _ => Panic
  end.
Definition transform (to : Property) (v : Value) : res (HandlerError StoreErr) Value :=
  if Property_is_set to then to_set v else Ok v.

(** * Updating an object *)

Definition attr_name (p : Property) : list Z := to_snake_case (p_name p).

(** [get_id_args] and [get_property_id] as values. *)
Definition event_ids (t : MessageType) (e : Event) (part : Part) : res (HandlerError StoreErr) (list Value) :=
  res_mapM (m_field t part) (ev_id e).

Definition property_id (t : MessageType) (e : Event) (part : Part) (p : Property) (from : Field)
    : res (HandlerError StoreErr) GPropertyId :=
  let? ids := event_ids t e part in
  let? ids := match p_modifier p with
              | None => Ok ids
              | Some _ => let? v := m_field t part from in Ok (ids ++ [v])
              end in
  Ok {| pid_name := st_name (ev_book_struct e) ++ Property_get_name p; pid_args := ids |}.

(** [mem::replace(&mut r.attr, new)] *)
Definition replace_attr (r : Obj) (name : list Z) (new : Value) : res (HandlerError StoreErr) (Value * Obj) :=
  let? old := unwrap (r !! name) in
  Ok (old, <[name := new]> r).

Section event.
Context (t : MessageType) (e : Event) (part : Part) (invoker : option GInvoker) (reason : Value).

(** [diff]: the difference between two lists or sets. *)
Definition diff_events (p : Property) (from : Field) (old new : Value) : res (HandlerError StoreErr) (list GEvent) :=
  let? ids := event_ids t e part in
  let id i := {| pid_name := st_name (ev_book_struct e) ++ Property_get_name p; pid_args := ids ++ [VOne i] |} in
  let events old new :=
    ((fun i => GAdded (id i) invoker reason) <$> not_in old new)
    ++ ((fun i => GRemoved (id i) (OldValue_ (VOne i)) invoker reason) <$> not_in new old) in
  match f_modifier from, old, new with
  | Some m, VVec old, VVec new => if is_str m "array" then Ok (events old new) else Panic
  | Some m, VSet old, VSet new => if is_str m "set" then Ok (events old new) else Panic
  | _, _, _ => Panic
  end.

Definition changed_event (p : Property) (from : Field) (old : Value) : res (HandlerError StoreErr) (list GEvent) :=
  let? id := property_id t e part p from in
  Ok [GChanged id (OldValue_ old) invoker reason].

Definition has_diff (from : Field) : bool :=
  match f_modifier from with
  | Some m => is_str m "array" || is_str m "set"
  | None => false
  end.

(** One rule for an object: the object and the events. *)
Definition rule_update (from : Field) (to : Property) (r : Obj) : res (HandlerError StoreErr) (Obj * list GEvent) :=
  let name := attr_name to in
  let from_opt := Field_is_opt from (ev_msg e) in
  let? m := m_field t part from in
  if p_opt to && negb from_opt then
    let? '(old, r) := replace_attr r name (VSome m) in
    let? events := changed_event to from old in
    Ok (r, events)
  else if from_opt then
    match m with
    | VNone => Ok (r, [])
    | VSome val =>
        let? val := transform to val in
        let new := if p_opt to then VSome val else val in
        let? '(old, r) := replace_attr r name new in
        let? events := (if has_diff from then diff_events to from old new else changed_event to from old) in
        Ok (r, events)
    | _ => Panic
    end
  else
    let? '(old, r) := replace_attr r name m in
    let? events := changed_event to from old in
    Ok (r, events).

Definition rule_add (from : Field) (to : Property) (r : Obj) : res (HandlerError StoreErr) (Obj * list GEvent) :=
  let name := attr_name to in
  let? m := m_field t part from in
  let? r :=
    match m, r !! name with
    | VOne i, Some (VSet l) => if Property_is_set to then Ok (<[name := VSet (set_insert i l)]> r) else Panic
    | VOne i, Some (VVec l) => if Property_is_set to then Panic else Ok (<[name := VVec (l ++ [i])]> r)
    | _, _ => Panic
    end in
  let? id := property_id t e part to from in
  Ok (r, [GAdded id invoker reason]).

(** Removes the first element of a list that is equal. *)
Definition vec_remove (i : Item) (l : list Item) : list Item :=
  match list_find (fun j => j = i) l with
  | Some (n, _) => take n l ++ drop (S n) l
  | None => l
  end.

Definition rule_remove (from : Field) (to : Property) (r : Obj) : res (HandlerError StoreErr) (Obj * list GEvent) :=
  let name := attr_name to in
  let? m := m_field t part from in
  match m, r !! name with
  | VOne i, Some (VSet l) =>
      if negb (Property_is_set to) then Panic else
      if bool_decide (i ∈ l) then
        let? id := property_id t e part to from in
        Ok (<[name := VSet (set_remove i l)]> r, [GRemoved id (OldValue_ m) invoker reason])
      else Ok (r, [])
  | VOne i, Some (VVec l) =>
      if Property_is_set to then Panic else
      if bool_decide (i ∈ l) then
        let? id := property_id t e part to from in
        Ok (<[name := VVec (vec_remove i l)]> r, [GRemoved id (OldValue_ m) invoker reason])
      else Ok (r, [])
  | _, _ => Panic
  end.

Definition apply_rule (rule : RuleKind) (r : Obj) : res (HandlerError StoreErr) (Obj * list GEvent) :=
  match rule with
  | FunctionRule _ _ => Ok (r, [])
  | MapRule from to Update => rule_update from to r
  | MapRule from to Add => rule_add from to r
  | MapRule from to Remove => rule_remove from to r
  end.

Fixpoint apply_rules (rules : list RuleKind) (r : Obj) (events : list GEvent)
    : res (HandlerError StoreErr) (Obj * list GEvent) :=
  match rules with
  | [] => Ok (r, events)
  | rule :: rules =>
      let? '(r, new) := apply_rule rule r in
      apply_rules rules r (events ++ new)
  end.

(** The functions first; the object is looked up when there are other rules. *)
Fixpoint update_functions (rules : list RuleKind) (ids : list Value) : gh unit :=
  match rules with
  | [] => mret tt
  | FunctionRule name _ :: rules => update_fun t name ids part;; update_functions rules ids
  | MapRule _ _ _ :: rules => update_functions rules ids
  end.

(** The rules write through the reference [r]. *)
Definition update_reference (struct : list Z) (ids : list Value) : gh unit := fun s =>
  match (let? r := get_mut struct ids s.1 in apply_rules (ev_rules e) r s.2) with
  | Ok (r, events) => (Ok tt, (put struct ids r s.1, events))
  | Err err => (Err err, s)
  | Panic => (Panic, s)
  end.

Definition update_object : gh unit :=
  ids ← gh_lift (event_ids t e part);
  update_functions (ev_rules e) ids;;
  if forallb is_function (ev_rules e) then mret tt else update_reference (st_name (ev_book_struct e)) ids.

(** * New objects *)

(** The results of the functions, in the order of their rules. *)
Fixpoint create_functions (rules : list RuleKind) : gh (list (Property * Value)) :=
  match rules with
  | [] => mret []
  | FunctionRule name to :: rules =>
      values ← create_fun t name part;
      if bool_decide (length values = length to) then
        rest ← create_functions rules;
        mret (combine to values ++ rest)
      else gh_lift Panic
  | MapRule _ _ _ :: rules => create_functions rules
  end.

(** The ids of the structure and the fields that have their values. *)
Definition id_entries : res (HandlerError StoreErr) (list (list Z * Value)) :=
  res_mapM (fun '(id, fld) =>
    let? v := m_field t part fld in
    Ok (PropId_get_attr_name (PropId_Id id) (ev_book_struct e), v)) (combine (st_id (ev_book_struct e)) (ev_id e)).

(** The value of a rule for a new object; another operation than an update stops the generator. *)
Definition new_value (from : Field) (to : Property) (op : RuleOp) : res (HandlerError StoreErr) Value :=
  if negb (bool_decide (op = Update)) then Panic else
  let? m := m_field t part from in
  let from_opt := Field_is_opt from (ev_msg e) in
  let? m := (if from_opt && Property_is_set to then Panic else transform to m) in
  Ok (if p_opt to && negb from_opt then VSome m else m).

Fixpoint map_entries (rules : list RuleKind) : res (HandlerError StoreErr) (list (list Z * Value)) :=
  match rules with
  | [] => Ok []
  | FunctionRule _ _ :: rules => map_entries rules
  | MapRule from to op :: rules =>
      let? v := new_value from to op in
      let? rest := map_entries rules in
      Ok ((attr_name to, v) :: rest)
  end.

Definition named (l : list (Property * Value)) : list (list Z * Value) := (fun '(p, v) => (attr_name p, v)) <$> l.

Definition struct_id (ids : list Value) : GPropertyId :=
  {| pid_name := st_name (ev_book_struct e); pid_args := ids |}.

Definition add_object : gh unit :=
  let struct := st_name (ev_book_struct e) in
  values ← create_functions (ev_rules e);
  ids ← gh_lift (event_ids t e part);
  entries ← gh_lift id_entries;
  rest ← gh_lift (map_entries (ev_rules e));
  store_add struct ids (list_to_map (entries ++ named values ++ rest));;
  gh_push (GAdded (struct_id ids) invoker reason).

(** A rule of an optional structure whose value must be there: from an optional field to an
    attribute that always has one. *)
Definition must_have (from : Field) (to : Property) : bool := Field_is_opt from (ev_msg e) && negb (p_opt to).

(** [if let (Some(a), ..) = (..)]: [None] when a value is missing. *)
Definition some_value (v : Value) : res (HandlerError StoreErr) (option Value) :=
  match v with
  | VSome v => Ok (Some v)
  | VNone => Ok None
  | _ => Panic
  end.

Fixpoint some_values (l : list (list Z * Value)) : res (HandlerError StoreErr) (option (list (list Z * Value))) :=
  match l with
  | [] => Ok (Some [])
  | (name, v) :: l =>
      let? v := some_value v in
      let? rest := some_values l in
      Ok (match v, rest with
          | Some v, Some rest => Some ((name, v) :: rest)
          | _, _ => None
          end)
  end.

Definition replace_object : gh unit :=
  let struct := st_name (ev_book_struct e) in
  let opt r := match r with MapRule from to _ => must_have from to | FunctionRule _ _ => false end in
  values ← create_functions (ev_rules e);
  ids ← gh_lift (event_ids t e part);
  opt_entries ← gh_lift (map_entries (filter (fun r => opt r = true) (ev_rules e)));
  opt_values ← gh_lift (some_values (named values ++ opt_entries));
  match opt_values with
  | None => mret tt
  | Some opt_values =>
      entries ← gh_lift id_entries;
      rest ← gh_lift (map_entries (filter (fun r => opt r = false) (ev_rules e)));
      old ← store_replace struct ids (list_to_map (entries ++ opt_values ++ rest));
      gh_push (GChanged (struct_id ids) (OldOptObj old) invoker reason)
  end.

Definition remove_object : gh unit :=
  let struct := st_name (ev_book_struct e) in
  ids ← gh_lift (event_ids t e part);
  old ← store_remove struct ids;
  if st_opt (ev_book_struct e) then gh_push (GRemoved (struct_id ids) (OldOptObj old) invoker reason)
  else
    match old with
    | Some old => gh_push (GRemoved (struct_id ids) (OldObj old) invoker reason)
    | None => gh_lift (Err (HandlerRemoveNotFound struct))
    end.

Definition handle_event : gh unit :=
  match ev_op e with
  | Remove => remove_object
  | Update => if st_opt (ev_book_struct e) then replace_object else update_object
  | Add => add_object
  end.

End event.

(** * Messages *)

Fixpoint handle_events (t : MessageType) (part : Part) (invoker : option GInvoker) (reason : Value)
    (group : list Event) : gh unit :=
  match group with
  | [] => mret tt
  | e :: group => handle_event t e part invoker reason;; handle_events t part invoker reason group
  end.

Fixpoint handle_parts (t : MessageType) (group : list Event) (parts : list Part) : gh unit :=
  match parts with
  | [] => mret tt
  | part :: parts =>
      invoker ← gh_lift (part_invoker t part);
      reason ← gh_lift (part_reason t part);
      handle_events t part invoker reason group;;
      handle_parts t group parts
  end.

(** The events of the declarations for that message, in their order. *)
Definition message_group (decls : list Event) (t : MessageType) : list Event :=
  filter (fun e => m_name (ev_msg e) = m_name (mt_message t)) decls.

(** [handle_command_generated]: if it handled the message, and the events. *)
Definition generated_handler (decls : list Event) (t : MessageType) (m : InMsg) (b : GBook)
    : res (HandlerError StoreErr) (bool * list GEvent) * GBook :=
  match message_group decls t with
  | [] => (Ok (false, []), b)
  | group =>
      match handle_parts t group (im_list m) (b, []) with
      | (Ok _, (b, events)) => (Ok (true, events), b)
      | (Err err, (b, _)) => (Err err, b)
      | (Panic, (b, _)) => (Panic, b)
      end
  end.

End values.
