(* ===== verification/BookTypes.v ===== *)
(** The types of the generated handler of the book: which declarations the compiler accepts, as a
    check of them, and which values, objects and books have their declared types. *)
From stdpp Require Import strings gmap.
From S2P Require Import Prelude Text Packets Commands InitPackets CryptoLib Ip Book Strings Types Declarations Values ValuesSpec Messages MessagesSpec MessagesToBook BookHandler.
#[local] Open Scope Z_scope.

(** * Types

    A Rust type is its text, as the compiler compares it after the aliases are gone. *)

Inductive Shape :=
  | ShOne (ty : list Z)
  | ShVec (ty : list Z)
  | ShSet (ty : list Z).

#[global] Instance Shape_eq_dec : EqDecision Shape.
Proof. solve_decision. Defined.

Record PType := { pt_opt : bool; pt_shape : Shape }.

#[global] Instance PType_eq_dec : EqDecision PType.
Proof. solve_decision. Defined.

Definition type_text (t : RustType) (i : InnerRustType) : list Z := RustType_to_string {| inner := i; lifetime := lifetime t |}.

(** The type of a field without the option of its attribute. *)
Definition field_shape (f : Field) : option Shape :=
  match Field_get_type f [] with
  | Ok t =>
      match inner t with
      | Vec i => Some (ShVec (RustType_to_string (RustType_from_inner i)))
      | _ => Some (ShOne (RustType_to_string t))
      end
  | _ => None
  end.

(** The type of a property; maps are not set by rules. *)
Definition prop_ptype (p : Property) : option PType :=
  match Property_get_type p with
  | Ok t =>
      let i := match inner t with Option i => if p_opt p then i else inner t | i => i end in
      match i with
      | Map _ _ => None
      | Set_ i => Some {| pt_opt := p_opt p; pt_shape := ShSet (type_text t i) |}
      | Vec i => Some {| pt_opt := p_opt p; pt_shape := ShVec (type_text t i) |}
      | i => Some {| pt_opt := p_opt p; pt_shape := ShOne (type_text t i) |}
      end
  | _ => None
  end.

Definition propid_ptype (b : BookDeclarations) (i : PropId) : option PType :=
  match i with
  | PropId_Prop p => prop_ptype p
  | PropId_Id i => match find_property i (structs b) with Ok p => prop_ptype p | _ => None end
  end.

(** * The check of a declaration *)

Definition attribute_for (t : MessageType) (f : Field) : option Attribute :=
  snd <$> list_find (fun a => at_field a = f) (mt_attributes t).

Definition is_set_shape (s : Shape) : bool := match s with ShSet _ => true | _ => false end.

(** What [iter().cloned().collect()] makes of a type. *)
Definition transform_shape (to : Property) (s : Shape) : option Shape :=
  if Property_is_set to then match s with ShVec ty => Some (ShSet ty) | _ => None end else Some s.

(** The lists of which [diff] computes the difference. *)
Definition diff_shape (from : Field) (s : Shape) : bool :=
  match f_modifier from, s with
  | Some m, ShVec _ => is_str m "array"
  | Some m, ShSet _ => is_str m "set"
  | _, _ => false
  end.

Definition update_ok (e : Event) (from : Field) (to : Property) (fs : Shape) (pt : PType) : bool :=
  let from_opt := Field_is_opt from (ev_msg e) in
  let changed := bool_decide (p_modifier to = None) in
  if p_opt to && negb from_opt then bool_decide (fs = pt_shape pt) && changed
  else if from_opt then
    bool_decide (transform_shape to fs = Some (pt_shape pt))
    && (if has_diff from then negb (p_opt to) && diff_shape from (pt_shape pt) else changed)
  else bool_decide (fs = pt_shape pt) && changed.

(** Adding an element to a list or a set, and removing it. *)
Definition element_ok (e : Event) (from : Field) (to : Property) (fs : Shape) (pt : PType) : bool :=
  negb (p_opt to) && negb (Field_is_opt from (ev_msg e))
  && bool_decide (Property_is_set to = is_set_shape (pt_shape pt))
  && match fs, pt_shape pt with
     | ShOne ty, ShVec ty' | ShOne ty, ShSet ty' => bool_decide (ty = ty')
     | _, _ => false
     end.

Definition op_ok (e : Event) (from : Field) (to : Property) (op : RuleOp) (fs : Shape) (pt : PType) : bool :=
  match op with
  | Update => update_ok e from to fs pt
  | Add | Remove => element_ok e from to fs pt
  end.

Definition field_ok (t : MessageType) (e : Event) (f : Field) : bool :=
  match attribute_for t f with
  | Some a => bool_decide (at_opt a = Field_is_opt f (ev_msg e))
  | None => false
  end.

Definition rule_ok (t : MessageType) (e : Event) (r : RuleKind) : bool :=
  match r with
  | FunctionRule _ _ => true
  | MapRule from to op =>
      match field_shape from, prop_ptype to with
      | Some fs, Some pt =>
          field_ok t e from && bool_decide (to ∈ st_properties (ev_book_struct e)) && op_ok e from to op fs pt
      | _, _ => false
      end
  end.

Section check.
Context `{Heck}.

(** The attributes of a new object with their types: [None] when the generator stops or a type
    does not exist. *)
Definition id_type (t : MessageType) (s : BookStruct) (i : BookId) (f : Field) : option (list Z * PType) :=
  a ← attribute_for t f;
  fs ← field_shape f;
  Some (PropId_get_attr_name (PropId_Id i) s, {| pt_opt := at_opt a; pt_shape := fs |}).

Definition id_types (t : MessageType) (e : Event) : option (list (list Z * PType)) :=
  mapM (fun '(i, f) => id_type t (ev_book_struct e) i f) (combine (st_id (ev_book_struct e)) (ev_id e)).

Definition map_type (t : MessageType) (e : Event) (from : Field) (to : Property) (op : RuleOp) : option (list Z * PType) :=
  fs ← field_shape from;
  s ← transform_shape to fs;
  let from_opt := Field_is_opt from (ev_msg e) in
  if field_ok t e from && bool_decide (op = Update) && negb (from_opt && Property_is_set to)
  then Some (attr_name to, {| pt_opt := from_opt || p_opt to; pt_shape := s |})
  else None.

Fixpoint map_types (t : MessageType) (e : Event) (rules : list RuleKind) : option (list (list Z * PType)) :=
  match rules with
  | [] => Some []
  | FunctionRule _ _ :: rules => map_types t e rules
  | MapRule from to op :: rules =>
      ty ← map_type t e from to op;
      rest ← map_types t e rules;
      Some (ty :: rest)
  end.

Definition function_type (p : Property) : option (list Z * PType) :=
  pt ← prop_ptype p;
  Some (attr_name p, pt).

Definition function_targets (rules : list RuleKind) : list Property :=
  flat_map (fun r => match r with FunctionRule _ to => to | MapRule _ _ _ => [] end) rules.

Definition function_types (rules : list RuleKind) : option (list (list Z * PType)) :=
  mapM function_type (function_targets rules).

(** An unwrapped option. *)
Definition some_type (x : list Z * PType) : option (list Z * PType) :=
  if pt_opt (snd x) then Some (fst x, {| pt_opt := false; pt_shape := pt_shape (snd x) |}) else None.

(** Every attribute of the structure is given once, with its type. *)
Definition complete (b : BookDeclarations) (s : BookStruct) (l : list (list Z * PType)) : bool :=
  bool_decide (NoDup (fst <$> l))
  && forallb (fun i => match propid_ptype b i with
                       | Some pt => bool_decide ((PropId_get_attr_name i s, pt) ∈ l)
                       | None => true
                       end) (get_all_properties s).

Definition new_object_ok (b : BookDeclarations) (t : MessageType) (e : Event) : bool :=
  match id_types t e, function_types (ev_rules e), map_types t e (ev_rules e) with
  | Some ids, Some funs, Some maps => complete b (ev_book_struct e) (ids ++ funs ++ maps)
  | _, _, _ => false
  end.

Definition is_must_have (e : Event) (r : RuleKind) : bool :=
  match r with MapRule from to _ => must_have e from to | FunctionRule _ _ => false end.

Definition replace_object_ok (b : BookDeclarations) (t : MessageType) (e : Event) : bool :=
  match id_types t e, function_types (ev_rules e),
    map_types t e (filter (fun r => is_must_have e r = true) (ev_rules e)) ≫= mapM some_type,
    map_types t e (filter (fun r => is_must_have e r = false) (ev_rules e)) with
  | Some ids, Some funs, Some must, Some maps => complete b (ev_book_struct e) (ids ++ funs ++ must ++ maps)
  | _, _, _, _ => false
  end.

Definition event_ok (b : BookDeclarations) (t : MessageType) (e : Event) : bool :=
  forallb (fun f => bool_decide (is_Some (attribute_for t f))) (ev_id e)
  && match ev_op e with
     | Remove => true
     | Update => if st_opt (ev_book_struct e) then replace_object_ok b t e else forallb (rule_ok t e) (ev_rules e)
     | Add => new_object_ok b t e
     end.

(** The fields that every part is asked for: if the attribute of that name is an option. *)
Definition named_opt (t : MessageType) (name : string) : option bool :=
  at_opt ∘ snd <$> list_find (fun a => Field_get_rust_name (at_field a) = byte_str name) (mt_attributes t).

Definition invoker_ok (t : MessageType) : bool :=
  negb (has_invoker t)
  || bool_decide (named_opt t "invoker_id" = Some (invoker_optional t))
     && bool_decide (named_opt t "invoker_name" = Some (invoker_optional t))
     && bool_decide (named_opt t "invoker_uid" = Some true).

Definition reason_ok (t : MessageType) : bool :=
  let attributes := m_attributes (mt_message t) in
  if bool_decide (byte_str "reasonid" ∈ attributes) then bool_decide (named_opt t "reason" = Some false)
  else if bool_decide (byte_str "reasonid?" ∈ attributes) then bool_decide (named_opt t "reason" = Some true)
  else true.

(** The attributes of a structure have different names. *)
Definition struct_ok (s : BookStruct) : bool :=
  bool_decide (NoDup ((fun i => PropId_get_attr_name i s) <$> get_all_properties s)).

Definition declarations_ok (b : BookDeclarations) (types : list MessageType) (decls : list Event) : bool :=
  forallb (fun t => invoker_ok t && reason_ok t && forallb (event_ok b t) (message_group decls t)) types
  && forallb (fun e => struct_ok (ev_book_struct e)) decls.

End check.

(** * Values with their types *)

Section typed.
Context `{Floats} `{Times} `{SocketAddrs} `{!ValueEq} `{OpaqueValues} `{DeclaredEnums} `{Base64Laws} `{Heck}.

(** A single value has the type [ty], and its range. *)
Definition item_typed (ty : list Z) (i : Item) : Prop :=
  (exists type_s, scalar_of ty type_s = Some (projT1 i)) /\ in_range (projT1 i) (projT2 i).

Definition shape_typed (s : Shape) (v : Value) : Prop :=
  match s, v with
  | ShOne ty, VOne i => item_typed ty i
  | ShOne ty, VOpaque ty' o => ty = ty' /\ opaque_type o = ty
  | ShVec ty, VVec l => Forall (item_typed ty) l
  | ShSet ty, VSet l => Forall (item_typed ty) l /\ NoDup l
  | _, _ => False
  end.

Definition ptype_typed (pt : PType) (v : Value) : Prop :=
  if pt_opt pt
  then match v with
       | VNone => True
       | VSome v => shape_typed (pt_shape pt) v
       | _ => False
       end
  else shape_typed (pt_shape pt) v.

(** An object has every attribute of its structure, with its type. *)
Definition obj_typed (b : BookDeclarations) (s : BookStruct) (o : Obj) : Prop :=
  forall i pt, i ∈ get_all_properties s -> propid_ptype b i = Some pt ->
  exists v, o !! PropId_get_attr_name i s = Some v /\ ptype_typed pt v.

Lemma shape_typed_none s v : shape_typed s v -> v <> VNone /\ forall w, v <> VSome w.
Proof. by destruct s, v. Qed.

(** The value of an attribute of the message has the type of the field. *)
Lemma field_shape_type f ft v : field_type_of f = Some ft -> has_type ft v -> field_typed v ->
  exists s, field_shape f = Some s /\ shape_typed s (as_value v).
Proof.
  unfold field_type_of, field_shape. destruct (Field_get_type f []) as [ty| |]; [|done..].
  intros Hft Hty Hv.
  assert (Hone : forall txt s v', scalar_of txt (f_type_s f) = Some s -> in_range s v' -> item_typed txt (existT s v'))
    by (intros txt s v' Hs Hr; split; [by exists (f_type_s f)|done]).
  destruct (inner ty) as [s|s|i|i|k w|i|i|i];
    try (destruct (scalar_of _ _) as [sc|] eqn:Hsc; [|done]; injection Hft as <-; destruct v as [s' v|s' vs]; [|done];
         cbn in Hty; subst s'; eexists; split; [reflexivity|]; cbn; by apply Hone).
  destruct (scalar_of _ _) as [sc|] eqn:Hsc; [|done]. injection Hft as <-. destruct v as [s' v|s' vs]; [done|].
  cbn in Hty. subst s'. eexists. split; [reflexivity|]. cbn in Hv |- *. apply Forall_fmap.
  eapply Forall_impl; [exact Hv|]. intros v Hr. by apply Hone.
Qed.

Context `{!BookStore}.

Lemma attribute_value_typed {E} a v :
  field_type_of (at_field a) = Some (at_type a) -> value_typed a v ->
  exists s, field_shape (at_field a) = Some s /\
    safe (E := E) (ptype_typed {| pt_opt := at_opt a; pt_shape := s |}) (attribute_value a v).
Proof.
  intros Hft Hv. unfold attribute_value. destruct v as [v|]; cbn in Hv.
  - destruct Hv as [Hty Hv]. destruct (field_shape_type _ _ _ Hft Hty Hv) as (s & Hs & Ht). exists s.
    split; [done|]. by destruct (at_opt a).
  - rewrite Hv. unfold field_type_of, field_shape in *. destruct (Field_get_type _ _) as [ty| |]; [|done..].
    destruct (inner ty); eexists; (split; [reflexivity|done]).
Qed.

(** The attributes of a message know their types, and the parts have values for them. *)
Definition known (t : MessageType) : Prop :=
  Forall (fun a => field_type_of (at_field a) = Some (at_type a)) (mt_attributes t).
Definition part_typed (t : MessageType) (part : Part) : Prop := Forall2 value_typed (mt_attributes t) part.

Lemma m_attribute_typed {E} (p : Attribute -> Prop) `{forall a, Decision (p a)} t part i a :
  known t -> part_typed t part -> list_find p (mt_attributes t) = Some (i, a) ->
  exists s, field_shape (at_field a) = Some s /\
    safe (E := E) (ptype_typed {| pt_opt := at_opt a; pt_shape := s |}) (m_attribute p t part).
Proof.
  intros Hk Hp Hf. unfold m_attribute. rewrite Hf. apply list_find_Some in Hf as (Ha & _ & _).
  destruct (Forall2_lookup_l _ _ _ _ _ Hp Ha) as (v & Hv & Hty).
  assert (part !! i = Some v) as -> by exact Hv. cbn [mjoin option_join].
  apply attribute_value_typed; [|done]. eapply Forall_forall in Hk; [exact Hk|]. by eapply list_elem_of_lookup_2.
Qed.

Lemma m_field_typed {E} t part f a : known t -> part_typed t part -> attribute_for t f = Some a ->
  exists s, field_shape f = Some s /\ safe (E := E) (ptype_typed {| pt_opt := at_opt a; pt_shape := s |}) (m_field t part f).
Proof.
  intros Hk Hp Ha. unfold attribute_for in Ha. destruct (list_find _ (mt_attributes t)) as [[i a']|] eqn:Hf; [|done].
  injection Ha as ->. pose proof Hf as Hf'. apply list_find_Some in Hf' as (_ & <- & _).
  by eapply (m_attribute_typed (fun a' => at_field a' = at_field a)).
Qed.

(** Messages have no values of other types. *)
Lemma m_field_no_opaque {E} t part f ty o : m_field (E := E) t part f <> Ok (VOpaque ty o).
Proof.
  unfold m_field, m_attribute. destruct (list_find _ _) as [[i a]|]; [|done]. unfold attribute_value, as_value.
  by destruct (mjoin _) as [[]|], (at_opt a).
Qed.

Lemma message_parts_typed t m : message_typed t m -> Forall (part_typed t) (im_list m).
Proof. by intros [Hp _]. Qed.

(** * Objects *)

Lemma obj_insert_eq (r : Obj) name v : <[name := v]> r !! name = Some v.
Proof. exact (lookup_insert_eq (M := gmap (list Z)) r name v). Qed.

Lemma obj_insert_ne (r : Obj) name name' v : name' <> name -> <[name := v]> r !! name' = r !! name'.
Proof. intros Hn. exact (lookup_insert_ne (M := gmap (list Z)) r name name' v (not_eq_sym Hn)). Qed.

Lemma struct_ok_name s i j : struct_ok s = true -> i ∈ get_all_properties s -> j ∈ get_all_properties s ->
  PropId_get_attr_name i s = PropId_get_attr_name j s -> i = j.
Proof.
  unfold struct_ok. rewrite bool_decide_eq_true. intros Hnd Hi Hj He.
  apply list_elem_of_lookup in Hi as [n Hi], Hj as [k Hj].
  assert (n = k) as ->; [|congruence].
  apply (NoDup_lookup _ n k (PropId_get_attr_name i s) Hnd); rewrite list_lookup_fmap; [by rewrite Hi|by rewrite Hj, He].
Qed.

Lemma property_in_all s p : p ∈ st_properties s -> PropId_Prop p ∈ get_all_properties s.
Proof. intros Hp. unfold get_all_properties. apply elem_of_app. right. by apply list_elem_of_fmap_2. Qed.

(** Replacing an attribute by a value of its type gives the old one and a typed object. *)
Lemma replace_attr_typed b s r to pt v : struct_ok s = true -> obj_typed b s r -> to ∈ st_properties s ->
  prop_ptype to = Some pt -> ptype_typed pt v ->
  exists old, r !! attr_name to = Some old /\ ptype_typed pt old /\ obj_typed b s (<[attr_name to := v]> r).
Proof.
  intros Hs Hr Hto Hpt Hv. apply property_in_all in Hto.
  destruct (Hr _ _ Hto Hpt) as (old & Hold & Hty). exists old. split_and!; [done|done|].
  intros i pt' Hi Hpt'. destruct (decide (PropId_get_attr_name i s = attr_name to)) as [He|Hne].
  - assert (i = PropId_Prop to) as -> by (by eapply struct_ok_name). cbn in Hpt'. rewrite Hpt in Hpt'. injection Hpt' as <-.
    exists v. split; [apply obj_insert_eq|done].
  - rewrite obj_insert_ne by done. by apply Hr.
Qed.

(** A complete list of typed attributes is a typed object. *)
Definition entry_typed (x : list Z * Value) (ty : list Z * PType) : Prop := fst x = fst ty /\ ptype_typed (snd ty) (snd x).

Lemma complete_typed b s entries tys : complete b s tys = true -> Forall2 entry_typed entries tys ->
  obj_typed b s (list_to_map entries).
Proof.
  unfold complete. rewrite andb_true_iff, bool_decide_eq_true, forallb_forall. intros [Hnd Hall] Hes i pt Hi Hpt.
  apply list_elem_of_In in Hi. specialize (Hall i Hi). rewrite Hpt, bool_decide_eq_true in Hall.
  apply list_elem_of_lookup in Hall as [n Hn]. destruct (Forall2_lookup_r _ _ _ _ _ Hes Hn) as ([name v] & Hx & Hname & Hv).
  cbn in Hname, Hv. subst name. exists v. split; [|done]. apply (elem_of_list_to_map_1 (M := gmap (list Z))).
  - assert (fst <$> entries = fst <$> tys) as ->; [|done]. clear - Hes.
    induction Hes as [|x ty xs tys [Hf _] _ IH]; [done|]. cbn. congruence.
  - by eapply list_elem_of_lookup_2.
Qed.

End typed.
