(* ===== verification/BookHandlerSpec.v ===== *)
(** The generated handler of the book, over a store of structures that keeps the interface
    [BookStoreLaws]: declarations that pass the check never panic, and messages with their declared
    types keep the book typed. *)
From stdpp Require Import strings gmap.
From S2P Require Import Prelude Text Packets Commands InitPackets CryptoLib Ip Book Strings Types Declarations Values ValuesSpec Messages MessagesSpec MessagesToBook BookHandler BookTypes.
#[local] Open Scope Z_scope.

Section spec.
Context `{Floats} `{Times} `{SocketAddrs} `{!ValueEq} `{OpaqueValues} `{DeclaredEnums} `{Base64Laws} `{!ValueLaws} `{Heck}.
Context `{!HashSets} `{!BookStore}.

(** A set has the elements that were collected, each of them once. *)
Class HashSetsLaws : Prop := {
  collect_set_elem i l : i ∈ collect_set l <-> i ∈ l;
  collect_set_nodup l : NoDup (collect_set l);
}.

(** * What the written functions promise

    [store_ok] is the invariant of the book; a computation keeps it, whether it fails or not. *)
Definition keeps (store_ok : GBook -> Prop) {A} (P : A -> Prop) (m : gh A) : Prop :=
  forall s, store_ok (fst s) -> let '(r, s') := m s in store_ok (fst s') /\ safe P r.

(** Results of a function for the properties [to] of a new object; for an optional structure they
    are options. *)
Definition result_typed (opt : bool) (p : Property) (v : Value) : Prop :=
  forall pt, prop_ptype p = Some pt ->
  if opt then v = VNone \/ exists w, v = VSome w /\ ptype_typed pt w else ptype_typed pt v.

(** A part of a message for which the event is declared, with the ids that it has. *)
Record heard (types : list MessageType) (decls : list Event) (t : MessageType) (e : Event) (part : Part)
    (ids : list Value) : Prop := {
  heard_type : t ∈ types;
  heard_event : e ∈ decls;
  heard_name : m_name (ev_msg e) = m_name (mt_message t);
  heard_known : known t;
  heard_part : part_typed t part;
  heard_ids : event_ids t e part = Ok ids;
}.

(** The object has the ids. *)
Definition has_ids (e : Event) (ids : list Value) (r : Obj) : Prop :=
  Forall (fun x => r !! PropId_get_attr_name (PropId_Id (fst x)) (ev_book_struct e) = Some (snd x))
    (combine (st_id (ev_book_struct e)) ids).

(** An update of an object, and a message that makes a new one. *)
Definition updates (e : Event) : bool := bool_decide (ev_op e = Update) && negb (st_opt (ev_book_struct e)).
Definition replaces (e : Event) : bool := bool_decide (ev_op e = Update) && st_opt (ev_book_struct e).
Definition makes (e : Event) : bool := bool_decide (ev_op e = Add) || replaces e.

(** The properties that the rules change. *)
Definition targets (rules : list RuleKind) : list Property :=
  omap (fun r => match r with MapRule _ to _ => Some to | FunctionRule _ _ => None end) rules.

(** The interface of the store to the handler: [BookStoreSpec] proves it for the written functions. *)
Class BookStoreLaws (b : BookDeclarations) (types : list MessageType) (decls : list Event) := {
  store_ok : GBook -> Prop;
  get_mut_typed t e part ids k : heard types decls t e part ids -> updates e = true ->
    forallb is_function (ev_rules e) = false -> store_ok k ->
    safe (obj_typed b (ev_book_struct e)) (get_mut (st_name (ev_book_struct e)) ids k);
  put_typed t e part ids k r r' : heard types decls t e part ids -> updates e = true ->
    forallb is_function (ev_rules e) = false -> store_ok k -> get_mut (st_name (ev_book_struct e)) ids k = Ok r ->
    obj_typed b (ev_book_struct e) r' -> (forall name, name ∉ attr_name <$> targets (ev_rules e) -> r' !! name = r !! name) ->
    store_ok (put (st_name (ev_book_struct e)) ids r' k);
  store_add_keeps t e part ids r : heard types decls t e part ids -> ev_op e = Add ->
    obj_typed b (ev_book_struct e) r -> has_ids e ids r ->
    keeps store_ok (fun _ => True) (store_add (st_name (ev_book_struct e)) ids r);
  store_replace_keeps t e part ids r : heard types decls t e part ids -> replaces e = true ->
    obj_typed b (ev_book_struct e) r ->
    keeps store_ok (fun _ => True) (store_replace (st_name (ev_book_struct e)) ids r);
  store_remove_keeps t e part ids : heard types decls t e part ids -> ev_op e = Remove ->
    keeps store_ok (fun _ => True) (store_remove (st_name (ev_book_struct e)) ids);
  update_fun_keeps t e part ids name to : heard types decls t e part ids -> updates e = true ->
    FunctionRule name to ∈ ev_rules e -> keeps store_ok (fun _ => True) (update_fun t name ids part);
  create_fun_keeps t e part ids name to : heard types decls t e part ids -> makes e = true ->
    FunctionRule name to ∈ ev_rules e ->
    keeps store_ok (Forall2 (result_typed (replaces e)) to) (create_fun t name part);
}.

(** * Computations *)

Section computations.
Context (ok : GBook -> Prop).

Lemma keeps_lift {A} (P : A -> Prop) m : safe P m -> keeps ok P (gh_lift m).
Proof. intros Hm s Hs. by split. Qed.

Lemma keeps_ret {A} (P : A -> Prop) a : P a -> keeps ok P (mret a).
Proof. intros Ha s Hs. by split. Qed.

Lemma keeps_push e : keeps ok (fun _ => True) (gh_push e).
Proof. intros s Hs. by split. Qed.

Lemma keeps_bind {A B} (P : A -> Prop) (Q : B -> Prop) (m : gh A) (k : A -> gh B) :
  keeps ok P m -> (forall a, P a -> keeps ok Q (k a)) -> keeps ok Q (m ≫= k).
Proof.
  intros Hm Hk s Hs. unfold mbind, gh_bind. specialize (Hm s Hs). destruct (m s) as [[a|err|] s'].
  - destruct Hm as [Hs' Ha]. apply (Hk a Ha s' Hs').
  - destruct Hm as [Hs' _]. by split.
  - by destruct Hm.
Qed.

Lemma keeps_weaken {A} (P Q : A -> Prop) m : keeps ok P m -> (forall a, P a -> Q a) -> keeps ok Q m.
Proof.
  intros Hm HPQ s Hs. specialize (Hm s Hs). destruct (m s) as [r s']. destruct Hm as [Hs' Hr]. split; [done|].
  by eapply safe_weaken.
Qed.

End computations.

(** * Rules *)

Section rules.
Context (b : BookDeclarations) (t : MessageType) (e : Event) (part : Part) (invoker : option GInvoker) (reason : Value).
Context (Hknown : known t) (Hpart : part_typed t part) (Hstruct : struct_ok (ev_book_struct e) = true).

Lemma m_field_safe {E} f : is_Some (attribute_for t f) -> safe (E := E) (fun _ => True) (m_field t part f).
Proof.
  intros [a Ha]. destruct (m_field_typed (E := E) t part f a Hknown Hpart Ha) as (s & _ & Hm).
  by eapply safe_weaken.
Qed.

Lemma field_ok_typed {E} f s : field_ok t e f = true -> field_shape f = Some s ->
  safe (E := E) (ptype_typed {| pt_opt := Field_is_opt f (ev_msg e); pt_shape := s |}) (m_field t part f).
Proof.
  unfold field_ok. destruct (attribute_for t f) as [a|] eqn:Ha; [|done]. rewrite bool_decide_eq_true. intros <- Hs.
  destruct (m_field_typed (E := E) t part f a Hknown Hpart Ha) as (s' & Hs' & Hm). rewrite Hs in Hs'. by injection Hs' as <-.
Qed.

(** An attribute has a value, or the code does not compile. *)
Lemma m_field_some {E} f : is_Some (attribute_for t f) -> exists v, m_field (E := E) t part f = Ok v.
Proof using Hknown Hpart.
  intros Hf. pose proof (m_field_safe (E := E) f Hf) as Hs. unfold m_field, m_attribute in *.
  destruct (list_find _ _) as [[i a]|]; [|done]. unfold attribute_value in *.
  destruct (mjoin (part !! i)), (at_opt a); by eauto.
Qed.

Context (Hids : forallb (fun f => bool_decide (is_Some (attribute_for t f))) (ev_id e) = true).

Lemma event_ids_ok : exists ids, event_ids t e part = Ok ids.
Proof using Hids Hknown Hpart.
  unfold event_ids. induction (ev_id e) as [|f fs IH]; [by exists []|]. cbn in Hids.
  apply andb_true_iff in Hids as [Hf%bool_decide_eq_true Hfs]. cbn [res_mapM].
  destruct (m_field_some (E := HandlerError StoreErr) f Hf) as [v ->], (IH Hfs) as [ids ->]. by exists (v :: ids).
Qed.

Lemma event_ids_safe : safe (fun ids => event_ids t e part = Ok ids) (event_ids t e part).
Proof using Hids Hknown Hpart. by destruct event_ids_ok as [ids ->]. Qed.

Lemma field_ok_some f : field_ok t e f = true -> is_Some (attribute_for t f).
Proof. unfold field_ok. by destruct (attribute_for t f). Qed.

Lemma property_id_safe p from : field_ok t e from = true -> safe (fun _ => True) (property_id t e part p from).
Proof using Hids Hknown Hpart.
  intros Hf. unfold property_id. eapply safe_bind; [apply event_ids_safe|]. intros ids _.
  eapply (safe_bind (fun _ => True)); [|done]. destruct (p_modifier p); [|done].
  eapply safe_bind; [by apply m_field_safe, field_ok_some|]. done.
Qed.

Lemma changed_event_safe p from old : field_ok t e from = true ->
  safe (fun _ => True) (changed_event t e part invoker reason p from old).
Proof using Hids Hknown Hpart. intros Hf. eapply safe_bind; [by apply property_id_safe|]. done. Qed.

Context {Hsets : HashSetsLaws}.

Lemma transform_typed to s s' v : transform_shape to s = Some s' -> shape_typed s v -> safe (shape_typed s') (transform to v).
Proof.
  unfold transform_shape, transform. destruct (Property_is_set to); [|by intros [= <-]].
  destruct s as [ty|ty|ty]; [done| |done]. intros [= <-] Hv. destruct v; try done. cbn in Hv |- *. split.
  - apply Forall_forall. intros i Hi. exact (proj1 (Forall_forall _ _) Hv i (proj1 (collect_set_elem i l) Hi)).
  - apply collect_set_nodup.
Qed.

Lemma diff_safe from to pt old new : has_diff from = true -> negb (p_opt to) && diff_shape from (pt_shape pt) = true ->
  pt_opt pt = p_opt to -> ptype_typed pt old -> shape_typed (pt_shape pt) new ->
  safe (fun _ => True) (diff_events t e part invoker reason to from old new).
Proof using Hids Hknown Hpart.
  unfold diff_shape, ptype_typed. intros _ [Ho Hd]%andb_true_iff Hpt Hold Hnew. apply negb_true_iff in Ho.
  rewrite Hpt, Ho in Hold. unfold diff_events. eapply safe_bind; [apply event_ids_safe|]. intros ids _.
  destruct (f_modifier from) as [m|]; [|by destruct (pt_shape pt)].
  by destruct (pt_shape pt), old, new; try done; rewrite Hd.
Qed.

Lemma prop_ptype_opt p pt : prop_ptype p = Some pt -> pt_opt pt = p_opt p.
Proof.
  unfold prop_ptype. destruct (Property_get_type p) as [ty| |]; [|done..].
  destruct (match inner ty with Option i => if p_opt p then i else inner ty | i => i end); by intros [= <-].
Qed.

(** The new value of an attribute is stored, and the event that tells of the old one is made. *)
Lemma store_typed from to pt r v (f : Value -> res (HandlerError StoreErr) (list GEvent)) :
  obj_typed b (ev_book_struct e) r -> to ∈ st_properties (ev_book_struct e) -> prop_ptype to = Some pt ->
  ptype_typed pt v -> (forall old, ptype_typed pt old -> safe (fun _ => True) (f old)) ->
  field_ok t e from = true ->
  safe (fun x => obj_typed b (ev_book_struct e) (fst x))
    (let? '(old, r) := replace_attr r (attr_name to) v in let? events := f old in Ok (r, events)).
Proof using Hstruct.
  intros Hr Hto Hpt Hv Hf _. destruct (replace_attr_typed b _ r to pt v Hstruct Hr Hto Hpt Hv) as (old & Hold & Hty & Hr').
  unfold replace_attr. rewrite Hold. cbn [unwrap res_bind]. eapply safe_bind; [by apply Hf|]. done.
Qed.

Lemma rule_update_typed from to fs pt r : field_ok t e from = true -> field_shape from = Some fs ->
  to ∈ st_properties (ev_book_struct e) -> prop_ptype to = Some pt -> update_ok e from to fs pt = true ->
  obj_typed b (ev_book_struct e) r ->
  safe (fun x => obj_typed b (ev_book_struct e) (fst x)) (rule_update t e part invoker reason from to r).
Proof using All.
  intros Hf Hfs Hto Hpt Hok Hr. unfold rule_update. eapply safe_bind; [by apply field_ok_typed|]. intros m Hm.
  pose proof (prop_ptype_opt to pt Hpt) as Hopt. unfold update_ok, ptype_typed in *. cbn [pt_opt pt_shape] in Hm.
  assert (Hch : forall old, safe (fun _ => True) (changed_event t e part invoker reason to from old))
    by (intros old; by apply changed_event_safe).
  destruct (p_opt to) eqn:Hpo, (Field_is_opt from (ev_msg e)) eqn:Hfo; cbn [negb andb] in *.
  - apply andb_true_iff in Hok as [Htr Hd]. apply bool_decide_eq_true in Htr. destruct m as [| | | | |val]; try done.
    eapply safe_bind; [by eapply transform_typed|]. intros val' Hval'.
    eapply (store_typed from to pt r (VSome val') (fun old => if has_diff from then _ else _)); try done.
    + by unfold ptype_typed; rewrite Hopt.
    + intros old Hold. destruct (has_diff from); [done|]. apply Hch.
  - apply andb_true_iff in Hok as [Heq%bool_decide_eq_true _].
    eapply (store_typed from to pt r (VSome m) (changed_event t e part invoker reason to from)); try done.
    unfold ptype_typed. by rewrite Hopt, <- Heq.
  - apply andb_true_iff in Hok as [Htr Hd]. apply bool_decide_eq_true in Htr. destruct m as [| | | | |val]; try done.
    eapply safe_bind; [by eapply transform_typed|]. intros val' Hval'.
    eapply (store_typed from to pt r val' (fun old => if has_diff from then _ else _)); try done.
    + by unfold ptype_typed; rewrite Hopt.
    + intros old Hold. destruct (has_diff from) eqn:Hdiff; [|apply Hch].
      eapply diff_safe; [done| |by rewrite Hpo|done|done]. by rewrite Hpo.
  - apply andb_true_iff in Hok as [Heq%bool_decide_eq_true _].
    eapply (store_typed from to pt r m (changed_event t e part invoker reason to from)); try done.
    unfold ptype_typed. by rewrite Hopt, <- Heq.
Qed.

(** The element that is added or removed, and the list or set of its type. *)
Lemma element_typed from to fs pt r : field_ok t e from = true -> field_shape from = Some fs ->
  to ∈ st_properties (ev_book_struct e) -> prop_ptype to = Some pt -> element_ok e from to fs pt = true ->
  obj_typed b (ev_book_struct e) r ->
  exists ty l, safe (E := HandlerError StoreErr) (fun m => exists i, m = VOne i /\ item_typed ty i) (m_field t part from) /\ Forall (item_typed ty) l /\
    (Property_is_set to = false /\ r !! attr_name to = Some (VVec l) /\
       (forall l', Forall (item_typed ty) l' -> obj_typed b (ev_book_struct e) (<[attr_name to := VVec l']> r)) \/
     Property_is_set to = true /\ r !! attr_name to = Some (VSet l) /\ NoDup l /\
       (forall l', Forall (item_typed ty) l' -> NoDup l' -> obj_typed b (ev_book_struct e) (<[attr_name to := VSet l']> r))).
Proof using Hknown Hpart Hstruct.
  intros Hf Hfs Hto Hpt Hok Hr. pose proof (field_ok_typed (E := HandlerError StoreErr) from fs Hf Hfs) as Hm. unfold element_ok in Hok.
  rewrite !andb_true_iff, !negb_true_iff, bool_decide_eq_true in Hok. destruct Hok as [[[Hpo Hfo] Hset] Hty].
  rewrite Hfo in Hm. pose proof (prop_ptype_opt to pt Hpt) as Hopt.
  assert (Hst : forall v, shape_typed (pt_shape pt) v -> exists old, r !! attr_name to = Some old /\
    shape_typed (pt_shape pt) old /\ obj_typed b (ev_book_struct e) (<[attr_name to := v]> r)).
  { intros v Hv. destruct (replace_attr_typed b _ r to pt v Hstruct Hr Hto Hpt) as (old & Ho1 & Ho2 & Ho3).
    - unfold ptype_typed. by rewrite Hopt, Hpo.
    - exists old. unfold ptype_typed in Ho2. rewrite Hopt, Hpo in Ho2. done. }
  destruct fs as [ty|ty|ty]; [|done..].
  assert (Hone : safe (E := HandlerError StoreErr) (fun m => exists i, m = VOne i /\ item_typed ty i) (m_field t part from)).
  { pose proof (m_field_no_opaque (E := HandlerError StoreErr) t part from) as Hno. destruct (m_field t part from) as [m| |]; [|done..].
    cbn in Hm |- *. destruct m as [i| | |ty' o| |]; [by exists i|done|done| |done..]. by destruct (Hno ty' o). }
  exists ty. destruct (pt_shape pt) as [ty'|ty'|ty'] eqn:Hps; [done| |]; apply bool_decide_eq_true in Hty as <-.
  - destruct (Hst (VVec []) (Forall_nil_2 _)) as (old & Hold & Hl & _). destruct old as [|l| | | |]; try done.
    exists l. split_and!; [done|done|]. left. split_and!; [done|done|]. intros l' Hl'.
    destruct (Hst (VVec l') Hl') as (_ & _ & _ & Hr'). exact Hr'.
  - destruct (Hst (VSet []) (conj (Forall_nil_2 _) (NoDup_nil_2))) as (old & Hold & Hl & _).
    destruct old as [| |l| | |]; try done. destruct Hl as [Hl Hnd].
    exists l. split_and!; [done|done|]. right. split_and!; [done|done|done|]. intros l' Hl' Hnd'.
    destruct (Hst (VSet l') (conj Hl' Hnd')) as (_ & _ & _ & Hr'). exact Hr'.
Qed.

Lemma rule_add_typed from to fs pt r : field_ok t e from = true -> field_shape from = Some fs ->
  to ∈ st_properties (ev_book_struct e) -> prop_ptype to = Some pt -> element_ok e from to fs pt = true ->
  obj_typed b (ev_book_struct e) r ->
  safe (fun x => obj_typed b (ev_book_struct e) (fst x)) (rule_add t e part invoker reason from to r).
Proof using All.
  intros Hf Hfs Hto Hpt Hok Hr. destruct (element_typed from to fs pt r) as (ty & l & Hm & Hl & Hcase); try done.
  unfold rule_add. eapply safe_bind; [exact Hm|]. intros m (i & -> & Hi).
  destruct Hcase as [(Hset & Hlook & Hst)|(Hset & Hlook & Hnd & Hst)]; rewrite Hlook, Hset; cbn [res_bind].
  - eapply safe_bind; [by apply property_id_safe|]. intros id _. cbn [safe fst]. apply Hst, Forall_app_2; [done|by apply Forall_singleton].
  - eapply safe_bind; [by apply property_id_safe|]. intros id _. cbn [safe fst]. unfold set_insert. case_bool_decide; [by apply Hst|].
    apply Hst; [|apply collect_set_nodup]. apply Forall_forall. intros j Hj. apply (proj1 (collect_set_elem j _)) in Hj.
    apply elem_of_cons in Hj as [->|Hj]; [done|]. exact (proj1 (Forall_forall _ _) Hl j Hj).
Qed.

Lemma vec_remove_sublist i l : sublist (vec_remove i l) l.
Proof.
  unfold vec_remove. destruct (list_find _ l) as [[n j]|]; [|done].
  rewrite <- (take_drop n l) at 3. apply sublist_app; [done|].
  rewrite <- Nat.add_1_r, <- drop_drop. apply sublist_drop.
Qed.

Lemma rule_remove_typed from to fs pt r : field_ok t e from = true -> field_shape from = Some fs ->
  to ∈ st_properties (ev_book_struct e) -> prop_ptype to = Some pt -> element_ok e from to fs pt = true ->
  obj_typed b (ev_book_struct e) r ->
  safe (fun x => obj_typed b (ev_book_struct e) (fst x)) (rule_remove t e part invoker reason from to r).
Proof using All.
  intros Hf Hfs Hto Hpt Hok Hr. destruct (element_typed from to fs pt r) as (ty & l & Hm & Hl & Hcase); try done.
  unfold rule_remove. eapply safe_bind; [exact Hm|]. intros m (i & -> & Hi).
  destruct Hcase as [(Hset & Hlook & Hst)|(Hset & Hlook & Hnd & Hst)]; rewrite Hlook, Hset; cbn [negb];
    (case_bool_decide; [|done]); (eapply safe_bind; [by apply property_id_safe|]); intros id _; cbn [safe fst].
  - apply Hst, Forall_forall. intros j Hj. apply (proj1 (Forall_forall _ _) Hl).
    by eapply elem_of_sublist, vec_remove_sublist.
  - apply Hst; [|by apply NoDup_filter]. apply Forall_forall. intros j Hj%list_elem_of_filter.
    exact (proj1 (Forall_forall _ _) Hl j (proj2 Hj)).
Qed.

Lemma apply_rule_typed rule r : rule_ok t e rule = true -> obj_typed b (ev_book_struct e) r ->
  safe (fun x => obj_typed b (ev_book_struct e) (fst x)) (apply_rule t e part invoker reason rule r).
Proof using All.
  intros Hok Hr. destruct rule as [from to op|name to]; [|done]. cbn [rule_ok] in Hok.
  destruct (field_shape from) as [fs|] eqn:Hfs; [|done]. destruct (prop_ptype to) as [pt|] eqn:Hpt; [|done].
  rewrite !andb_true_iff, bool_decide_eq_true in Hok. destruct Hok as [[Hf Hto] Hop]. cbn [apply_rule].
  destruct op; cbn [op_ok] in Hop.
  - by eapply rule_add_typed.
  - by eapply rule_remove_typed.
  - by eapply rule_update_typed.
Qed.

Lemma apply_rules_typed rules : forall r events, forallb (rule_ok t e) rules = true -> obj_typed b (ev_book_struct e) r ->
  safe (fun x => obj_typed b (ev_book_struct e) (fst x)) (apply_rules t e part invoker reason rules r events).
Proof using All.
  induction rules as [|rule rules IH]; intros r events Hok Hr; [done|]. cbn in Hok.
  apply andb_true_iff in Hok as [Hrule Hok]. cbn [apply_rules].
  eapply safe_bind; [by apply apply_rule_typed|]. intros [r' new] Hr'. by apply IH.
Qed.

(** * Events of the book *)

Context (types : list MessageType) (decls : list Event) `{!BookStoreLaws b types decls}.
Context (He : e ∈ decls) (Ht : t ∈ types) (Hname : m_name (ev_msg e) = m_name (mt_message t)).

Lemma heard_now ids : event_ids t e part = Ok ids -> heard types decls t e part ids.
Proof using He Hknown Hname Hpart Ht. by constructor. Qed.

Lemma update_functions_keeps rules ids : updates e = true -> event_ids t e part = Ok ids ->
  (forall r, r ∈ rules -> r ∈ ev_rules e) ->
  keeps store_ok (fun _ => True) (update_functions t part rules ids).
Proof using He Hname Hpart Hknown Ht.
  intros Hup Hi. induction rules as [|r rules IH]; intros Hin; [by apply keeps_ret|].
  assert (keeps store_ok (fun _ => True) (update_functions t part rules ids)) as Hrest
    by (apply IH; intros r' Hr'; by apply Hin, elem_of_cons; right).
  destruct r as [from to op|name to]; cbn [update_functions]; [done|].
  eapply keeps_bind; [eapply update_fun_keeps; [by apply heard_now|done|apply Hin; by left]|]. done.
Qed.

(** Only the targets of the rules change. *)
Lemma replace_attr_other r name v old r' : replace_attr r name v = Ok (old, r') ->
  forall name', name' <> name -> r' !! name' = r !! name'.
Proof.
  unfold replace_attr. destruct (r !! name); [|done]. intros [= _ <-] name' Hn. by apply obj_insert_ne.
Qed.

(** One case of [rule_update]: the attribute is replaced, and the events follow. *)
Lemma replaced_other r name v (k : Value -> res (HandlerError StoreErr) (list GEvent)) x :
  (let? '(old, r) := replace_attr r name v in let? events := k old in Ok (r, events)) = Ok x ->
  forall name', name' <> name -> fst x !! name' = r !! name'.
Proof.
  destruct (replace_attr r name v) as [[old r']| |] eqn:Hr; [|done..]. cbn [res_bind].
  destruct (k old); [|done..]. intros [= <-]. by eapply replace_attr_other.
Qed.

Lemma rule_update_other from to r x : rule_update t e part invoker reason from to r = Ok x ->
  forall name, name <> attr_name to -> fst x !! name = r !! name.
Proof.
  unfold rule_update. destruct (m_field t part from) as [m| |]; [|done..]. cbn [res_bind].
  destruct (p_opt to && _); [apply replaced_other|]. destruct (Field_is_opt _ _); [|apply replaced_other].
  destruct m; try done; [by intros [= <-]|]. destruct (transform _ _); [|done..]. cbn [res_bind].
  apply (replaced_other _ _ _ (fun old => if has_diff from then _ else _)).
Qed.

Lemma apply_rule_other rule r x : apply_rule t e part invoker reason rule r = Ok x ->
  forall name, name ∉ attr_name <$> targets [rule] -> fst x !! name = r !! name.
Proof.
  destruct rule as [from to op|name' tos]; [|by intros [= <-]]. cbn [apply_rule targets omap].
  intros Hx name Hn. change (name ∉ [attr_name to]) in Hn. apply not_elem_of_cons in Hn as [Hn _].
  destruct op; cbn [apply_rule] in Hx.
  - unfold rule_add in Hx. destruct (m_field t part from) as [m| |]; [|done..]. cbn [res_bind] in Hx.
    destruct m as [i| | | | |]; try done. destruct (r !! attr_name to) as [[]|]; try done;
      destruct (Property_is_set to); try done; cbn [res_bind] in Hx; destruct (property_id _ _ _ _ _); try done;
      injection Hx as <-; by apply obj_insert_ne.
  - unfold rule_remove in Hx. destruct (m_field t part from) as [m| |]; [|done..]. cbn [res_bind] in Hx.
    destruct m as [i| | | | |]; try done. destruct (r !! attr_name to) as [[]|]; try done;
      destruct (Property_is_set to); try done; cbn [negb] in Hx; (case_bool_decide; [|by injection Hx as <-]);
      destruct (property_id _ _ _ _ _); try done; injection Hx as <-; by apply obj_insert_ne.
  - by eapply rule_update_other.
Qed.

Lemma apply_rules_other rules : forall r acc x, apply_rules t e part invoker reason rules r acc = Ok x ->
  forall name, name ∉ attr_name <$> targets rules -> fst x !! name = r !! name.
Proof.
  induction rules as [|rule rules IH]; intros r acc x; cbn [apply_rules]; [by intros [= <-]|].
  destruct (apply_rule t e part invoker reason rule r) as [[r1 evs]| |] eqn:Hr; [|done..]. cbn [res_bind].
  intros Hx name Hn. change (rule :: rules) with ([rule] ++ rules) in Hn. unfold targets in Hn.
  rewrite omap_app, fmap_app, not_elem_of_app in Hn. destruct Hn as [Hn Hn'].
  rewrite (IH r1 _ x Hx name Hn'). exact (apply_rule_other rule r (r1, evs) Hr name Hn).
Qed.

Lemma update_object_keeps : updates e = true -> forallb (rule_ok t e) (ev_rules e) = true ->
  keeps store_ok (fun _ => True) (update_object t e part invoker reason).
Proof using All.
  intros Hup Hok. unfold update_object. eapply keeps_bind; [apply keeps_lift, event_ids_safe|]. intros ids Hi.
  eapply keeps_bind; [by apply update_functions_keeps|]. intros _ _.
  destruct (forallb is_function (ev_rules e)) eqn:Hfun; [by apply keeps_ret|].
  intros s Hs. unfold update_reference. pose proof (heard_now ids Hi) as Hh.
  pose proof (get_mut_typed t e part ids (fst s) Hh Hup Hfun Hs) as Hget.
  destruct (get_mut _ ids (fst s)) as [r| |] eqn:Hg; cbn [res_bind]; [|by split|done].
  pose proof (apply_rules_typed (ev_rules e) r (snd s) Hok Hget) as Hr.
  destruct (apply_rules _ _ _ _ _ _ _ _) as [[r' events]| |] eqn:Ha; [|by split|done].
  split; [|done]. eapply put_typed; try done. exact (apply_rules_other _ _ _ _ Ha).
Qed.

(** ** New objects *)

Lemma create_functions_keeps rules : makes e = true -> (forall r, r ∈ rules -> r ∈ ev_rules e) ->
  keeps store_ok (fun l => fst <$> l = function_targets rules /\
      Forall (fun x => result_typed (replaces e) (fst x) (snd x)) l)
    (create_functions t part rules).
Proof using He Hids Hknown Hname Hpart Ht.
  intros Hmk. destruct event_ids_ok as [ids Hi]. induction rules as [|r rules IH]; intros Hin; [apply keeps_ret; by split|].
  assert (Hin' : forall r', r' ∈ rules -> r' ∈ ev_rules e) by (intros r' Hr'; by apply Hin, elem_of_cons; right).
  destruct r as [from to op|name to]; cbn [create_functions]; [by apply IH|].
  eapply keeps_bind; [eapply create_fun_keeps; [by apply heard_now|done|apply Hin; by left]|]. intros values Hv.
  pose proof (Forall2_length _ _ _ Hv) as Hlen.
  rewrite (bool_decide_true (length values = length to)) by done.
  eapply keeps_bind; [by apply IH|]. intros rest [Hrest Hty]. apply keeps_ret. split.
  - rewrite fmap_app, Hrest. cbn [function_targets flat_map]. f_equal. clear - Hlen. revert values Hlen.
    induction to as [|p to IH]; intros [|v values] Hlen; try done. cbn. f_equal. apply IH. by injection Hlen.
  - apply Forall_app. split; [|done]. clear - Hv. induction Hv as [|p v to values Hv _ IH]; by constructor.
Qed.

Lemma id_entries_typed ids : id_types t e = Some ids -> safe (fun l => Forall2 entry_typed l ids) (id_entries t e part).
Proof using Hknown Hpart.
  unfold id_types, id_entries. revert ids. induction (combine _ _) as [|[i f] l IH]; intros ids.
  - cbn. intros [= <-]. constructor.
  - cbn [mapM res_mapM]. destruct (id_type t (ev_book_struct e) i f) as [ty|] eqn:Hty; [|done]. cbn.
    destruct (mapM _ l) as [tys|]; [|done]. cbn. intros [= <-].
    unfold id_type in Hty. destruct (attribute_for t f) as [a|] eqn:Ha; [|done]. cbn in Hty.
    destruct (field_shape f) as [fs|] eqn:Hfs; [|done]. cbn in Hty. injection Hty as <-.
    destruct (m_field_typed (E := HandlerError StoreErr) t part f a Hknown Hpart Ha) as (s & Hs & Hm). rewrite Hfs in Hs. injection Hs as <-.
    eapply (safe_bind (fun x => entry_typed x
      (PropId_get_attr_name (PropId_Id i) (ev_book_struct e), {| pt_opt := at_opt a; pt_shape := fs |}))).
    + eapply safe_bind; [exact Hm|]. intros v Hv. by split.
    + intros x Hx. eapply safe_bind; [by apply IH|]. intros rest Hrest. by constructor.
Qed.

Lemma map_entries_typed rules : forall tys, map_types t e rules = Some tys ->
  safe (fun l => Forall2 entry_typed l tys) (map_entries t e part rules).
Proof using Hknown Hpart Hsets.
  induction rules as [|[from to op|name to] rules IH]; intros tys; cbn [map_types map_entries].
  - intros [= <-]. constructor.
  - destruct (map_type t e from to op) as [ty|] eqn:Hty; [|done]. cbn.
    destruct (map_types t e rules) as [rest|]; [|done]. cbn. intros [= <-].
    unfold map_type in Hty. destruct (field_shape from) as [fs|] eqn:Hfs; [|done]. cbn in Hty.
    destruct (transform_shape to fs) as [s|] eqn:Hs; [|done]. cbn in Hty.
    destruct (field_ok t e from) eqn:Hf; [|done]. cbn [andb] in Hty.
    case_bool_decide as Hop; [|done]. subst op. cbn [andb] in Hty.
    destruct (Field_is_opt from (ev_msg e) && Property_is_set to) eqn:Hset; [done|]. cbn in Hty. injection Hty as <-.
    eapply (safe_bind (ptype_typed {| pt_opt := Field_is_opt from (ev_msg e) || p_opt to; pt_shape := s |})).
    + unfold new_value. cbn [negb bool_decide]. rewrite bool_decide_true by done. cbn [negb].
      eapply safe_bind; [by apply field_ok_typed|]. intros m Hm. rewrite Hset.
      unfold ptype_typed in Hm |- *. cbn [pt_opt pt_shape] in *.
      destruct (Field_is_opt from (ev_msg e)) eqn:Hfo; cbn [andb orb negb] in *.
      * unfold transform_shape, transform in *. rewrite Hset in Hs |- *. injection Hs as <-. cbn [res_bind safe].
        by rewrite andb_false_r.
      * eapply safe_bind; [by eapply transform_typed|]. intros v Hv. rewrite andb_true_r. cbn. by destruct (p_opt to).
    + intros v Hv. eapply safe_bind; [by apply IH|]. intros l Hl. cbn. constructor; [by split|done].
  - by apply IH.
Qed.

(** The results of the functions as attributes. *)
Lemma named_typed (l : list (Property * Value)) tys (R : list Z * Value -> list Z * PType -> Prop) (P : Property -> Value -> Prop) :
  (forall p v pt, P p v -> prop_ptype p = Some pt -> R (attr_name p, v) (attr_name p, pt)) ->
  Forall (fun x => P (fst x) (snd x)) l -> mapM function_type (fst <$> l) = Some tys -> Forall2 R (named l) tys.
Proof.
  intros HP Hl. revert tys. induction Hl as [|[p v] l Hv _ IH]; intros tys; cbn.
  - intros [= <-]. constructor.
  - destruct (function_type p) as [ty|] eqn:Hty; [|done]. cbn.
    destruct (mapM function_type (fst <$> l)) as [rest|]; [|done]. cbn. intros [= <-].
    unfold function_type in Hty. destruct (prop_ptype p) as [pt|] eqn:Hpt; [|done]. injection Hty as <-.
    constructor; [by apply HP|by apply IH].
Qed.

(** The ids among the attributes are those of the event. *)
Lemma id_entries_ids ids entries : event_ids t e part = Ok ids -> id_entries t e part = Ok entries ->
  entries = (fun x => (PropId_get_attr_name (PropId_Id (fst x)) (ev_book_struct e), snd x)) <$> combine (st_id (ev_book_struct e)) ids.
Proof.
  unfold event_ids, id_entries. revert ids entries. generalize (ev_id e) as fs.
  induction (st_id (ev_book_struct e)) as [|i l IH]; intros fs ids entries; [by intros _ [= <-]|].
  destruct fs as [|f fs]; cbn [combine res_mapM]; [by intros [= <-] [= <-]|].
  destruct (m_field t part f) as [v| |]; [|done..]. cbn [res_bind].
  destruct (res_mapM (m_field t part) fs) as [vs| |] eqn:Hvs; [|done..]. cbn [res_bind]. intros [= <-].
  destruct (res_mapM _ (combine l fs)) as [rest| |] eqn:Hrest; [|done..]. cbn [res_bind]. intros [= <-].
  cbn [combine fmap list_fmap fst snd]. f_equal. by eapply IH.
Qed.

Lemma entries_has_ids ids entries rest : event_ids t e part = Ok ids -> id_entries t e part = Ok entries ->
  NoDup (fst <$> (entries ++ rest)) -> has_ids e ids (list_to_map (entries ++ rest)).
Proof.
  intros Hi He' Hnd. apply Forall_forall. intros x Hx. apply (elem_of_list_to_map_1 (M := gmap (list Z))); [done|].
  apply elem_of_app. left. rewrite (id_entries_ids ids entries Hi He'). apply list_elem_of_fmap. by exists x.
Qed.

Lemma entries_names l tys : Forall2 entry_typed l tys -> fst <$> l = fst <$> tys.
Proof. induction 1 as [|x ty l tys [Hf _] _ IH]; [done|]. cbn. congruence. Qed.

Lemma makes_add : ev_op e = Add -> makes e = true /\ replaces e = false.
Proof. intros Hop. unfold makes, replaces. by rewrite Hop. Qed.

Lemma makes_replace : replaces e = true -> makes e = true.
Proof. intros Hr. unfold makes. rewrite Hr. apply orb_true_r. Qed.

Lemma add_object_keeps : ev_op e = Add -> new_object_ok b t e = true ->
  keeps store_ok (fun _ => True) (add_object t e part invoker reason).
Proof using Hids Hknown Hpart Hsets He Hname Ht.
  intros Hop Hok. destruct (makes_add Hop) as [Hmk Hrep].
  unfold new_object_ok in Hok. destruct (id_types t e) as [ids|] eqn:Hi; [|done].
  destruct (function_types (ev_rules e)) as [funs|] eqn:Hf; [|done].
  destruct (map_types t e (ev_rules e)) as [maps|] eqn:Hm; [|done].
  unfold add_object. eapply keeps_bind; [by apply create_functions_keeps|]. intros values [Hvals Hty].
  rewrite Hrep in Hty.
  eapply keeps_bind; [apply keeps_lift, event_ids_safe|]. intros args Hargs.
  pose proof (id_entries_typed ids Hi) as Hids'.
  eapply (keeps_bind _ (fun l => id_entries t e part = Ok l /\ Forall2 entry_typed l ids)).
  { apply keeps_lift. by destruct (id_entries t e part). }
  intros entries [Hent Hentries].
  eapply keeps_bind; [by eapply keeps_lift, map_entries_typed|]. intros rest Hrest.
  assert (Forall2 entry_typed (entries ++ named values ++ rest) (ids ++ funs ++ maps)) as Hall.
  { apply Forall2_app; [done|]. apply Forall2_app; [|done].
    unfold function_types in Hf. rewrite <- Hvals in Hf. eapply named_typed; [|exact Hty|exact Hf].
    intros p v pt Hv Hpt. split; [done|]. by apply Hv. }
  eapply keeps_bind; [|intros _ _; apply keeps_push]. eapply store_add_keeps; [by apply heard_now|done| |].
  - by eapply complete_typed.
  - apply entries_has_ids; [done|done|]. rewrite (entries_names _ _ Hall). unfold complete in Hok.
    by apply andb_true_iff in Hok as [Hnd%bool_decide_eq_true _].
Qed.

(** A value that may be missing. *)
Definition option_typed (x : list Z * Value) (ty : list Z * PType) : Prop :=
  fst x = fst ty /\ (snd x = VNone \/ exists w, snd x = VSome w /\ ptype_typed (snd ty) w).

Lemma some_values_typed l tys : Forall2 option_typed l tys ->
  safe (fun o => forall vs, o = Some vs -> Forall2 entry_typed vs tys) (some_values l).
Proof.
  induction 1 as [|[name v] ty l tys [Hn Hv] _ IH]; [intros vs [= <-]; constructor|]. cbn [some_values]. cbn in Hn, Hv.
  destruct Hv as [->|(w & -> & Hw)]; cbn [some_value res_bind].
  - eapply safe_bind; [exact IH|]. done.
  - eapply safe_bind; [exact IH|]. intros [rest|] Hrest; [|done]. intros vs [= <-]. constructor; [by split|by apply Hrest].
Qed.

Lemma must_have_typed l tys must : Forall2 entry_typed l tys -> mapM some_type tys = Some must -> Forall2 option_typed l must.
Proof.
  intros Hl. revert must. induction Hl as [|[name v] [name' pt] l tys [Hn Hv] _ IH]; intros must; cbn.
  - intros [= <-]. constructor.
  - cbn in Hn, Hv. subst name'. destruct (some_type (name, pt)) as [ty|] eqn:Hty; [|done]. cbn.
    destruct (mapM some_type tys) as [rest|]; [|done]. cbn. intros [= <-]. constructor; [|by apply IH].
    unfold some_type in Hty. cbn [fst snd] in Hty. destruct (pt_opt pt) eqn:Ho; [|done]. injection Hty as <-. split; [done|]. cbn. unfold ptype_typed in Hv. rewrite Ho in Hv. destruct v as [| | | | |w]; try done; [by left|].
    right. by exists w.
Qed.

Lemma replace_object_keeps : replaces e = true -> replace_object_ok b t e = true ->
  keeps store_ok (fun _ => True) (replace_object t e part invoker reason).
Proof using Hids Hknown Hpart Hsets He Hname Ht.
  intros Hop Hok. pose proof (makes_replace Hop) as Hmk. unfold replace_object_ok in Hok. destruct (id_types t e) as [ids|] eqn:Hi; [|done].
  destruct (function_types (ev_rules e)) as [funs|] eqn:Hf; [|done].
  destruct (map_types t e (filter (fun r => is_must_have e r = true) (ev_rules e))) as [opts|] eqn:Ho; [|done].
  cbn [mbind option_bind] in Hok. destruct (mapM some_type opts) as [must|] eqn:Hmust; [|done].
  destruct (map_types t e (filter (fun r => is_must_have e r = false) (ev_rules e))) as [maps|] eqn:Hm; [|done].
  unfold replace_object. fold (is_must_have e).
  eapply keeps_bind; [by apply create_functions_keeps|]. intros values [Hvals Hty].
  rewrite Hop in Hty.
  eapply keeps_bind; [apply keeps_lift, event_ids_safe|]. intros args Hargs.
  eapply keeps_bind; [by eapply keeps_lift, map_entries_typed|]. intros opt_entries Hopt.
  eapply keeps_bind; [apply keeps_lift, (some_values_typed _ (funs ++ must))|].
  { apply Forall2_app; [|eapply must_have_typed; [exact Hopt|exact Hmust]]. unfold function_types in Hf. rewrite <- Hvals in Hf.
    eapply named_typed; [|exact Hty|exact Hf]. intros p v pt Hv Hpt. split; [done|]. by apply Hv. }
  intros [vs|] Hvs; [|by apply keeps_ret]. specialize (Hvs vs eq_refl).
  eapply keeps_bind; [by apply keeps_lift, id_entries_typed|]. intros entries Hentries.
  eapply keeps_bind; [by eapply keeps_lift, map_entries_typed|]. intros rest Hrest.
  eapply keeps_bind; [|intros old _; apply keeps_push]. eapply store_replace_keeps; [by apply heard_now|done|].
  eapply complete_typed; [exact Hok|]. rewrite (app_assoc funs) in *. apply Forall2_app; [done|]. by apply Forall2_app.
Qed.

Lemma remove_object_keeps : ev_op e = Remove -> keeps store_ok (fun _ => True) (remove_object t e part invoker reason).
Proof using Hids Hknown Hpart He Hname Ht.
  intros Hop. unfold remove_object. eapply keeps_bind; [apply keeps_lift, event_ids_safe|]. intros args Hargs.
  eapply keeps_bind; [by eapply store_remove_keeps; [apply heard_now|]|]. intros old _.
  destruct (st_opt (ev_book_struct e)); [apply keeps_push|]. destruct old; [apply keeps_push|by apply keeps_lift].
Qed.

End rules.

(** * Messages *)

Lemma handle_event_keeps b types decls t e part invoker reason {Hs : HashSetsLaws} {Hl : BookStoreLaws b types decls} :
  known t -> part_typed t part -> struct_ok (ev_book_struct e) = true -> event_ok b t e = true -> e ∈ decls -> t ∈ types ->
  m_name (ev_msg e) = m_name (mt_message t) -> keeps store_ok (fun _ => True) (handle_event t e part invoker reason).
Proof.
  intros Hk Hp Hstr Hok He Ht Hn. unfold event_ok in Hok. apply andb_true_iff in Hok as [Hids Hok]. unfold handle_event.
  destruct (ev_op e) eqn:Hop.
  - by eapply add_object_keeps.
  - by eapply remove_object_keeps.
  - destruct (st_opt (ev_book_struct e)) eqn:Hopt.
    + eapply replace_object_keeps; try done. unfold replaces. by rewrite Hop, Hopt.
    + eapply update_object_keeps; try done. unfold updates. by rewrite Hop, Hopt.
Qed.

Lemma handle_events_keeps b types decls t part invoker reason {Hs : HashSetsLaws} {Hl : BookStoreLaws b types decls} group :
  known t -> part_typed t part -> t ∈ types ->
  Forall (fun e => struct_ok (ev_book_struct e) = true /\ event_ok b t e = true /\ e ∈ decls /\
    m_name (ev_msg e) = m_name (mt_message t)) group ->
  keeps store_ok (fun _ => True) (handle_events t part invoker reason group).
Proof.
  intros Hk Hp Ht. induction 1 as [|e group (Hstr & Hok & He & Hn) _ IH]; [by apply keeps_ret|]. cbn [handle_events].
  eapply keeps_bind; [by eapply handle_event_keeps|]. done.
Qed.

(** A field that the template asks for by its name: an option exactly if its attribute is one. *)
Lemma m_named_safe {E} t part name opt : known t -> part_typed t part -> named_opt t name = Some opt ->
  safe (E := E) (fun v => is_option v = opt) (m_named t part name).
Proof.
  intros Hk Hp. unfold named_opt. destruct (list_find _ (mt_attributes t)) as [[i a]|] eqn:Hf; [|done]. intros [= <-].
  destruct (m_attribute_typed (E := E) _ t part i a Hk Hp Hf) as (s & _ & Hm). eapply safe_weaken; [exact Hm|].
  unfold ptype_typed. cbn [pt_opt pt_shape]. intros v Hv. destruct (at_opt a); [by destruct v|].
  by destruct s, v.
Qed.

Lemma part_invoker_safe {E} t part : known t -> part_typed t part -> invoker_ok t = true ->
  safe (E := E) (fun _ => True) (part_invoker t part).
Proof.
  intros Hk Hp. unfold invoker_ok, part_invoker. destruct (has_invoker t); [|done]. cbn [negb orb].
  rewrite !andb_true_iff, !bool_decide_eq_true. intros [[Hid Hname] Huid].
  eapply safe_bind; [by apply m_named_safe|]. intros id Hvid.
  eapply safe_bind; [by apply m_named_safe|]. intros name Hvname.
  eapply safe_bind; [by apply m_named_safe|]. intros uid Hvuid.
  rewrite Hvid, Hvname, Hvuid. destruct (invoker_optional t); cbn [negb andb orb]; [by destruct id, name|done].
Qed.

Lemma part_reason_safe {E} t part : known t -> part_typed t part -> reason_ok t = true ->
  safe (E := E) (fun _ => True) (part_reason t part).
Proof.
  intros Hk Hp. unfold part_reason, reason_ok.
  destruct (bool_decide (byte_str "reasonid" ∈ _)); [|destruct (bool_decide (byte_str "reasonid?" ∈ _)); [|done]];
    rewrite bool_decide_eq_true; intros Hr; (eapply safe_bind; [by apply m_named_safe|]); by intros v ->.
Qed.

Lemma handle_parts_keeps b types decls t {Hs : HashSetsLaws} {Hl : BookStoreLaws b types decls} group parts :
  known t -> t ∈ types -> invoker_ok t = true -> reason_ok t = true -> Forall (part_typed t) parts ->
  Forall (fun e => struct_ok (ev_book_struct e) = true /\ event_ok b t e = true /\ e ∈ decls /\
    m_name (ev_msg e) = m_name (mt_message t)) group ->
  keeps store_ok (fun _ => True) (handle_parts t group parts).
Proof.
  intros Hk Ht Hi Hr Hparts Hgroup. induction Hparts as [|part parts Hp _ IH]; [by apply keeps_ret|]. cbn [handle_parts].
  eapply keeps_bind; [by apply keeps_lift, part_invoker_safe|]. intros invoker _.
  eapply keeps_bind; [by apply keeps_lift, part_reason_safe|]. intros reason _.
  eapply keeps_bind; [by eapply handle_events_keeps|]. done.
Qed.

(** What the check of the declarations says of a message. *)
Lemma declarations_ok_group b types decls t : declarations_ok b types decls = true -> t ∈ types ->
  invoker_ok t = true /\ reason_ok t = true /\
  Forall (fun e => struct_ok (ev_book_struct e) = true /\ event_ok b t e = true /\ e ∈ decls /\
    m_name (ev_msg e) = m_name (mt_message t)) (message_group decls t).
Proof.
  unfold declarations_ok. rewrite andb_true_iff, !forallb_forall. intros [Hall Hstr] Ht%list_elem_of_In.
  specialize (Hall t Ht). rewrite !andb_true_iff, forallb_forall in Hall. destruct Hall as [[Hi Hr] Hev].
  split_and!; [done|done|]. apply Forall_forall. intros e He. pose proof He as [Hn Hd]%list_elem_of_filter.
  split_and!; [by apply Hstr, list_elem_of_In|by apply Hev, list_elem_of_In|done|done].
Qed.

Lemma generated_handler_typed b types decls t m book {Hs : HashSetsLaws} {Hl : BookStoreLaws b types decls} :
  declarations_ok b types decls = true -> t ∈ types -> known t -> message_typed t m -> store_ok book ->
  let '(r, book') := generated_handler decls t m book in no_panic r = true /\ store_ok book'.
Proof.
  intros Hok Ht Hk Hm Hbook. destruct (declarations_ok_group b types decls t Hok Ht) as (Hi & Hr & Hg).
  pose proof (handle_parts_keeps b types decls t (message_group decls t) (im_list m) Hk Ht Hi Hr
    (message_parts_typed t m Hm) Hg (book, []) Hbook) as Hkeep.
  unfold generated_handler. destruct (message_group decls t) as [|e group]; [done|].
  destruct (handle_parts _ _ _ _) as [r [book' events]]. destruct Hkeep as [Hbook' Hsafe]. by destruct r.
Qed.

End spec.
