(* ===== verification/BookEvents.v ===== *)
(** The events of an update tell the change: from the object after the message and the events, the
    object before the message can be told, attribute by attribute. *)
From stdpp Require Import strings gmap.
From S2P Require Import Prelude Text Packets Commands InitPackets CryptoLib Ip Book Strings Types Declarations Values ValuesSpec Messages MessagesSpec MessagesToBook BookHandler BookTypes BookHandlerSpec.
#[local] Open Scope Z_scope.

Section spec.
Context `{Floats} `{Times} `{SocketAddrs} `{!ValueEq} `{OpaqueValues} `{DeclaredEnums} `{Base64Laws} `{Heck}.
Context `{!HashSets} `{!BookStore}.

(** * Undoing events *)

(** The value of an attribute before the event. *)
Definition undo_event (ev : GEvent) (v : Value) : Value :=
  match ev with
  | GChanged _ (OldValue_ old) _ _ => old
  | GAdded id _ _ =>
      match last (pid_args id), v with
      | Some (VOne i), VVec l => VVec (vec_remove i l)
      | Some (VOne i), VSet l => VSet (set_remove i l)
      | _, _ => v
      end
  | GRemoved _ (OldValue_ (VOne i)) _ _ =>
      match v with
      | VVec l => VVec (i :: l)
      | VSet l => VSet (i :: l)
      | _ => v
      end
  | _ => v
  end.

Definition event_name (ev : GEvent) : list Z :=
  match ev with GAdded id _ _ | GChanged id _ _ _ | GRemoved id _ _ _ => pid_name id end.

(** All events of one property, the last one first. *)
Definition undo (name : list Z) (events : list GEvent) (v : Value) : Value :=
  foldr (fun ev v => if bool_decide (event_name ev = name) then undo_event ev v else v) v events.

(** Lists and sets with the same elements are the same to a listener. *)
Definition same_value (v w : Value) : Prop :=
  match v, w with
  | VVec l, VVec l' | VSet l, VSet l' => forall i, i ∈ l <-> i ∈ l'
  | _, _ => v = w
  end.

#[local] Instance same_value_refl : Reflexive same_value.
Proof. by intros []. Qed.

(** ** Lists *)

Lemma vec_remove_perm i l : i ∈ l -> i :: vec_remove i l ≡ₚ l.
Proof.
  intros Hi. unfold vec_remove. destruct (list_find_elem_of (fun j => j = i) l i Hi eq_refl) as [[n j] Hf].
  rewrite Hf. apply list_find_Some in Hf as (Hn & -> & _). rewrite <- (take_drop_middle l n i Hn) at 3.
  apply Permutation_middle.
Qed.

Lemma vec_remove_app i l l' : l ≡ₚ i :: l' -> vec_remove i l ≡ₚ l'.
Proof.
  intros Hl. apply (Permutation_cons_inv (a := i)). rewrite vec_remove_perm; [done|]. rewrite Hl. by left.
Qed.

Lemma undo_app name events events' v : undo name (events ++ events') v = undo name events (undo name events' v).
Proof. apply foldr_app. Qed.

Lemma undo_this name ev events v : event_name ev = name -> undo name (ev :: events) v = undo_event ev (undo name events v).
Proof. intros Hev. cbn. by rewrite bool_decide_true. Qed.

Lemma undo_other name events v : Forall (fun ev => event_name ev <> name) events -> undo name events v = v.
Proof. induction 1 as [|ev events Hev _ IH]; [done|]. cbn. by rewrite bool_decide_false. Qed.

Section event.
Context (t : MessageType) (e : Event) (part : Part) (invoker : option GInvoker) (reason : Value).

Definition full_name (p : Property) : list Z := st_name (ev_book_struct e) ++ Property_get_name p.

Lemma full_name_eq p q : full_name p = full_name q -> Property_get_name p = Property_get_name q.
Proof. apply app_inv_head. Qed.

(** The events of a difference. *)
Lemma undo_removed name ids l v : 
  let ev i := GRemoved {| pid_name := name; pid_args := ids ++ [VOne i] |} (OldValue_ (VOne i)) invoker reason in
  (forall l', v = VVec l' -> undo name (ev <$> l) v = VVec (l ++ l')) /\
  (forall l', v = VSet l' -> undo name (ev <$> l) v = VSet (l ++ l')).
Proof.
  cbn zeta. split; intros l' ->; induction l as [|i l IH]; [done| |done|];
    rewrite fmap_cons, undo_this by done; by rewrite IH.
Qed.

Lemma undo_added_vec name ids l rest l' : l' ≡ₚ l ++ rest ->
  exists r, undo name ((fun i => GAdded {| pid_name := name; pid_args := ids ++ [VOne i] |} invoker reason) <$> l) (VVec l') = VVec r
    /\ r ≡ₚ rest.
Proof.
  revert rest. induction l as [|i l IH]; intros rest Hl; [by exists l'|].
  destruct (IH (i :: rest)) as (r & Hr & Hp); [by rewrite Hl, <- Permutation_middle|].
  rewrite fmap_cons, undo_this by done. rewrite Hr. cbn [undo_event pid_args].
  rewrite last_snoc. exists (vec_remove i r). split; [done|]. by apply vec_remove_app.
Qed.

Lemma undo_added_set name ids l l' :
  exists r, undo name ((fun i => GAdded {| pid_name := name; pid_args := ids ++ [VOne i] |} invoker reason) <$> l) (VSet l') = VSet r
    /\ forall i, i ∈ r <-> i ∈ l' /\ i ∉ l.
Proof.
  induction l as [|i l (r & Hr & IH)]; [exists l'; split; [done|]; intros i; pose proof (not_elem_of_nil i); tauto|].
  rewrite fmap_cons, undo_this by done. rewrite Hr. cbn [undo_event pid_args].
  rewrite last_snoc. exists (set_remove i r). split; [done|]. intros j. unfold set_remove.
  rewrite list_elem_of_filter, IH, not_elem_of_cons. tauto.
Qed.

Lemma not_in_elem i a b : i ∈ not_in b a <-> i ∈ a /\ i ∉ b.
Proof. unfold not_in. rewrite list_elem_of_filter. tauto. Qed.

Lemma not_in_split a b : b ≡ₚ not_in a b ++ filter (fun i => i ∈ a) b.
Proof.
  unfold not_in. induction b as [|i b IH]; [done|]. rewrite !filter_cons. destruct (decide (i ∈ a)) as [Hi|Hi].
  - rewrite decide_False by tauto. rewrite <- Permutation_middle. by constructor.
  - rewrite decide_True by done. cbn. by constructor.
Qed.

Lemma diff_events_told to from old new events :
  diff_events t e part invoker reason to from old new = Ok events ->
  Forall (fun ev => event_name ev = full_name to) events /\ same_value old (undo (full_name to) events new).
Proof.
  unfold diff_events. destruct (event_ids t e part) as [ids| |]; [|done..]. cbn [res_bind].
  destruct (f_modifier from) as [m|]; [|done].
  destruct old as [|l|l| | |], new as [|l'|l'| | |]; try done; (destruct (is_str m _); [|done]); intros [= <-];
    (split; [apply Forall_app; split; by apply Forall_fmap, Forall_true|]); rewrite undo_app;
    destruct (undo_removed (full_name to) ids (not_in l' l) (VVec l')) as [Hv _];
    destruct (undo_removed (full_name to) ids (not_in l' l) (VSet l')) as [_ Hs]; unfold full_name in *.
  - rewrite (Hv l' eq_refl).
    edestruct (undo_added_vec (st_name (ev_book_struct e) ++ Property_get_name to) ids (not_in l l')) as (r & Hr & Hp);
      [|rewrite Hr]; [rewrite (not_in_split l l') at 2; rewrite Permutation_app_comm, <- app_assoc; done|].
    intros i. rewrite Hp, elem_of_app, not_in_elem, list_elem_of_filter. destruct (decide (i ∈ l')); tauto.
  - rewrite (Hs l' eq_refl).
    destruct (undo_added_set (st_name (ev_book_struct e) ++ Property_get_name to) ids (not_in l l') (not_in l' l ++ l'))
      as (r & Hr & Hp). rewrite Hr.
    intros i. rewrite Hp, elem_of_app, !not_in_elem. destruct (decide (i ∈ l')), (decide (i ∈ l)); tauto.
Qed.

(** ** Rules *)

(** What a rule does to an object: only the attribute of its property changes, and the events of
    that property undo the change. *)
Definition told (to : Property) (r r' : Obj) (events : list GEvent) : Prop :=
  Forall (fun ev => event_name ev = full_name to) events /\
  (forall name, name <> attr_name to -> r' !! name = r !! name) /\
  exists old new, r !! attr_name to = Some old /\ r' !! attr_name to = Some new /\
    same_value old (undo (full_name to) events new).

Lemma told_id to r v : r !! attr_name to = Some v -> told to r r [].
Proof. intros Hv. split; [done|]. split; [done|]. by exists v, v. Qed.

Lemma told_insert to r old new events : r !! attr_name to = Some old ->
  Forall (fun ev => event_name ev = full_name to) events -> same_value old (undo (full_name to) events new) ->
  told to r (<[attr_name to := new]> r) events.
Proof.
  intros Hold Hev Hsame. split; [done|]. split; [intros name Hn; by apply obj_insert_ne|].
  exists old, new. by rewrite obj_insert_eq.
Qed.

Lemma property_id_name p from id : property_id t e part p from = Ok id -> pid_name id = full_name p.
Proof.
  unfold property_id. destruct (event_ids t e part) as [ids| |]; [|done..]. cbn [res_bind].
  destruct (match p_modifier p with Some _ => _ | None => _ end) as [ids'| |]; [|done..]. by intros [= <-].
Qed.

(** The id of an element ends with it. *)
Lemma property_id_last p from id v : p_modifier p <> None -> m_field (E := HandlerError StoreErr) t part from = Ok v ->
  property_id t e part p from = Ok id -> last (pid_args id) = Some v.
Proof.
  intros Hp Hv. unfold property_id. destruct (event_ids t e part) as [ids| |]; [|done..]. cbn [res_bind].
  destruct (p_modifier p); [|done]. rewrite Hv. intros [= <-]. apply last_snoc.
Qed.

Lemma changed_event_told to from r old new events : r !! attr_name to = Some old ->
  changed_event t e part invoker reason to from old = Ok events -> told to r (<[attr_name to := new]> r) events.
Proof.
  intros Hold. unfold changed_event. destruct (property_id t e part to from) as [id| |] eqn:Hid; [|done..].
  intros [= <-]. apply property_id_name in Hid. apply (told_insert to r old); [done|by repeat constructor|].
  by rewrite undo_this.
Qed.

Lemma replace_attr_ok r name new old r' : replace_attr r name new = Ok (old, r') ->
  r !! name = Some old /\ r' = <[name := new]> r.
Proof. unfold replace_attr. destruct (r !! name) as [v|]; [|done]. by intros [= -> <-]. Qed.

Lemma rule_update_told from to r r' events v : r !! attr_name to = Some v ->
  rule_update t e part invoker reason from to r = Ok (r', events) -> told to r r' events.
Proof.
  intros Hr. unfold rule_update. destruct (m_field t part from) as [m| |]; [|done..]. cbn [res_bind].
  assert (forall new, (let? '(old, r1) := replace_attr r (attr_name to) new in
    let? events := changed_event t e part invoker reason to from old in Ok (r1, events)) = Ok (r', events) ->
    told to r r' events) as Hchanged.
  { intros new. destruct (replace_attr _ _ _) as [[old r1]| |] eqn:Hrep; [|done..].
    apply replace_attr_ok in Hrep as [Hold ->]. cbn [res_bind].
    destruct (changed_event _ _ _ _ _ _ _ _) as [evs| |] eqn:Hch; [|done..]. intros [= <- <-]. by eapply changed_event_told. }
  destruct (p_opt to && negb (Field_is_opt from (ev_msg e))); [apply Hchanged|].
  destruct (Field_is_opt from (ev_msg e)); [|apply Hchanged].
  destruct m as [| | | | |val]; try done; [by intros [= <- <-]; eapply told_id|].
  destruct (transform to val) as [val'| |]; [|done..]. cbn [res_bind].
  destruct (has_diff from); [|apply Hchanged].
  destruct (replace_attr _ _ _) as [[old r1]| |] eqn:Hrep; [|done..]. apply replace_attr_ok in Hrep as [Hold ->]. cbn [res_bind].
  destruct (diff_events _ _ _ _ _ _ _ _ _) as [evs| |] eqn:Hd; [|done..]. intros [= <- <-].
  apply diff_events_told in Hd as [Hname Hsame]. by eapply told_insert.
Qed.

(** An element is added that the set does not have, and the event names it. *)
Definition fresh (r : Obj) (rule : RuleKind) : Prop :=
  match rule with
  | MapRule from to Add => p_modifier to <> None /\
      forall i l, m_field (E := HandlerError StoreErr) t part from = Ok (VOne i) -> r !! attr_name to = Some (VSet l) -> i ∉ l
  | _ => True
  end.

Context {Hsets : HashSetsLaws}.

Lemma rule_add_told from to r r' events : fresh r (MapRule from to Add) ->
  rule_add t e part invoker reason from to r = Ok (r', events) -> told to r r' events.
Proof.
  intros [Hmod Hfresh]. unfold rule_add. destruct (m_field t part from) as [m| |] eqn:Hm; [|done..]. cbn [res_bind].
  destruct m as [i| | | | |]; try done.
  destruct (r !! attr_name to) as [[|l|l| | |]|] eqn:Hr; try done; (destruct (Property_is_set to); [|]); try done; cbn [res_bind];
    (destruct (property_id t e part to from) as [id| |] eqn:Hid; [|done..]); intros [= <- <-];
    (eapply told_insert; [exact Hr|by repeat constructor; apply property_id_name in Hid|]);
    rewrite undo_this by (by apply property_id_name in Hid); cbn [undo foldr undo_event];
    rewrite (property_id_last _ _ _ _ Hmod Hm Hid); intros j.
  - rewrite (vec_remove_app i (l ++ [i]) l); [done|]. by rewrite Permutation_app_comm.
  - specialize (Hfresh i l eq_refl eq_refl). unfold set_remove, set_insert. rewrite bool_decide_false by done.
    rewrite list_elem_of_filter, collect_set_elem, elem_of_cons. split; [|tauto]. intros Hj. split; [by intros ->|by right].
Qed.

Lemma rule_remove_told from to r r' events :
  rule_remove t e part invoker reason from to r = Ok (r', events) -> told to r r' events.
Proof.
  unfold rule_remove. destruct (m_field t part from) as [m| |] eqn:Hm; [|done..]. cbn [res_bind].
  destruct m as [i| | | | |]; try done.
  destruct (r !! attr_name to) as [[|l|l| | |]|] eqn:Hr; try done; (destruct (Property_is_set to); [|]); try done; cbn [negb];
    (case_bool_decide as Hi; [|by intros [= <- <-]; eapply told_id]);
    (destruct (property_id t e part to from) as [id| |] eqn:Hid; [|done..]); intros [= <- <-];
    (eapply told_insert; [exact Hr|by repeat constructor; apply property_id_name in Hid|]);
    rewrite undo_this by (by apply property_id_name in Hid); cbn [undo foldr undo_event]; intros j.
  - by rewrite (vec_remove_perm i l Hi).
  - unfold set_remove. rewrite elem_of_cons, list_elem_of_filter. destruct (decide (j = i)) as [->|]; tauto.
Qed.

Lemma apply_rule_told from to op r r' events v : r !! attr_name to = Some v -> fresh r (MapRule from to op) ->
  apply_rule t e part invoker reason (MapRule from to op) r = Ok (r', events) -> told to r r' events.
Proof.
  intros Hv Hf. destruct op; cbn [apply_rule]; [by apply rule_add_told|by apply rule_remove_told|by eapply rule_update_told].
Qed.

(** What the rules [rules] do to [r]. *)
Definition all_told (tos : list Property) (r r' : Obj) (events : list GEvent) : Prop :=
  Forall (fun ev => event_name ev ∈ full_name <$> tos) events /\
  (forall name, name ∉ attr_name <$> tos -> r' !! name = r !! name) /\
  forall to, to ∈ tos -> exists old new, r !! attr_name to = Some old /\ r' !! attr_name to = Some new /\
    same_value old (undo (full_name to) events new).

Lemma other_target {A} (f : Property -> A) to to' (tos : list Property) : f to ∉ f <$> tos -> to' ∈ tos -> f to' <> f to.
Proof. intros Hf Hto' He. apply Hf. rewrite <- He. by apply list_elem_of_fmap_2. Qed.

Lemma all_told_cons to tos r r1 r' events events' :
  attr_name to ∉ attr_name <$> tos -> full_name to ∉ full_name <$> tos ->
  told to r r1 events -> all_told tos r1 r' events' -> all_told (to :: tos) r r' (events ++ events').
Proof.
  intros Ha Hn (Hev & Hkeep & old & new & Hold & Hnew & Hsame) (Hev' & Hkeep' & Hall). split_and!.
  - apply Forall_app. split; (eapply Forall_impl; [eassumption|]); cbn; intros ev; [intros ->; by left|by right].
  - intros name Hname. rewrite fmap_cons, not_elem_of_cons in Hname. destruct Hname as [Hne Hname].
    rewrite (Hkeep' name Hname). by apply Hkeep.
  - intros to' [->|Hto']%elem_of_cons.
    + exists old, new. rewrite undo_app, (undo_other _ events'), (Hkeep' _ Ha); [done|].
      eapply Forall_impl; [exact Hev'|]. intros ev Hin Heq. apply Hn. by rewrite <- Heq.
    + destruct (Hall to' Hto') as (old' & new' & Hold' & Hnew' & Hsame'). exists old', new'.
      rewrite undo_app, (undo_other _ events), <- (Hkeep (attr_name to')); [done|by eapply other_target|].
      eapply Forall_impl; [exact Hev|]. intros ev -> Heq. by eapply (other_target full_name).
Qed.

Lemma fresh_told to tos r r' events rules : told to r r' events -> tos = targets rules ->
  attr_name to ∉ attr_name <$> tos -> Forall (fresh r) rules -> Forall (fresh r') rules.
Proof.
  intros (_ & Hkeep & _) -> Ha Hf. rewrite Forall_forall in Hf |- *. intros rule Hrule. specialize (Hf rule Hrule).
  destruct rule as [from to' op|]; [|done]. destruct op; try done. destruct Hf as [Hm Hf]. split; [done|].
  assert (to' ∈ targets rules) as Hto' by (unfold targets; apply list_elem_of_omap; by exists (MapRule from to' Add)).
  intros i l Hi. rewrite Hkeep; [by apply Hf|]. by eapply (other_target attr_name).
Qed.

Lemma apply_rules_told rules : forall r r' acc events,
  Forall (fun to => is_Some (r !! attr_name to)) (targets rules) ->
  NoDup (attr_name <$> targets rules) -> NoDup (full_name <$> targets rules) -> Forall (fresh r) rules ->
  apply_rules t e part invoker reason rules r acc = Ok (r', events) ->
  exists new, events = acc ++ new /\ all_told (targets rules) r r' new.
Proof.
  induction rules as [|rule rules IH]; intros r r' acc events Hsome Hna Hnn Hf; cbn [apply_rules].
  { intros [= <- <-]. exists []. rewrite app_nil_r. split; [done|]. split; [done|]. split; [done|]. by intros to ?%elem_of_nil. }
  apply Forall_cons in Hf as [Hfr Hf]. destruct rule as [from to op|name tos].
  - change (targets (_ :: rules)) with (to :: targets rules) in *. apply Forall_cons in Hsome as [[v Hv] Hsome].
    apply NoDup_cons in Hna as [Ha Hna]. apply NoDup_cons in Hnn as [Hn Hnn].
    destruct (apply_rule _ _ _ _ _ _ r) as [[r1 evs]| |] eqn:Hrule; [|done..]. cbn [res_bind].
    pose proof (apply_rule_told from to op r r1 evs v Hv Hfr Hrule) as Htold. intros Happly.
    destruct (IH r1 r' (acc ++ evs) events) as (new & -> & Hall); try done.
    + rewrite Forall_forall in Hsome |- *. intros to' Hto'. destruct Htold as (_ & Hkeep & _). rewrite Hkeep; [by apply Hsome|].
      by eapply (other_target attr_name).
    + by eapply fresh_told.
    + exists (evs ++ new). rewrite app_assoc. split; [done|]. by eapply all_told_cons.
  - cbn [apply_rule res_bind]. rewrite app_nil_r. by apply IH.
Qed.

(** C36: When a message updates an object by the rules of its event that map fields to properties
    (written functions are not part of it), the attributes that no such rule names stay as they are,
    and the events that a listener gets tell every change: undoing the events of a property, the last
    one first, turns its new value into the old one - up to the order and the repetition of elements
    in lists and sets.  Assumed are: the object has the properties; different rules change different
    properties, with different names for the attributes and in the events; and a set does not have an
    element yet that a rule adds to it (the event of such an addition would tell a change that is
    none, [group_added_again]). *)
Theorem update_told (r r' : Obj) (events : list GEvent) :
  Forall (fun to => is_Some (r !! attr_name to)) (targets (ev_rules e)) ->
  NoDup (attr_name <$> targets (ev_rules e)) -> NoDup (Property_get_name <$> targets (ev_rules e)) ->
  Forall (fresh r) (ev_rules e) ->
  apply_rules t e part invoker reason (ev_rules e) r [] = Ok (r', events) ->
  (forall name, name ∉ attr_name <$> targets (ev_rules e) -> r' !! name = r !! name) /\
  (forall to, to ∈ targets (ev_rules e) -> exists old new, r !! attr_name to = Some old /\ r' !! attr_name to = Some new /\
    same_value old (undo (full_name to) events new)).
Proof using Hsets.
  intros Hsome Ha Hn Hf Happly.
  assert (NoDup (full_name <$> targets (ev_rules e))) as Hn'.
  { rewrite (list_fmap_compose Property_get_name (app (st_name (ev_book_struct e)))). by apply NoDup_fmap_2; [apply _|]. }
  destruct (apply_rules_told (ev_rules e) r r' [] events Hsome Ha Hn' Hf Happly) as (new & -> & _ & Hall). exact Hall.
Qed.

End event.
End spec.
