(* ===== verification/BookStores.v ===== *)
(** The written functions of [ts-bookkeeping/src/data.rs] as the store of the generated handler: the
    functions of [Book] that look objects up, and those that rules name, called with the fields of
    the message that they read.  The handler's events are those of [Book].

    The objects of the handler are structures of the book: the attributes that the written code uses
    are fields of the records of [Book], all others stay a map.  A view says how the values of a Rust
    type are values of the handler, and a structure is read from an object with the declared types
    and written back unchanged. *)
From stdpp Require Import strings gmap.
From S2P Require Import Prelude Text Packets Commands InitPackets CryptoLib Crypto Ip Book Strings Types Declarations Values ValuesSpec Messages MessagesSpec MessagesToBook BookHandler BookTypes BookHandlerSpec.
#[local] Open Scope Z_scope.

#[global] Instance BookId_eq_dec : EqDecision BookId.
Proof. solve_decision. Defined.
#[global] Instance BookStruct_eq_dec : EqDecision BookStruct.
Proof. solve_decision. Defined.

(** * The types of the book *)

(** Values of the types that only written functions make. *)
Inductive BookOpaque `{Times} `{P256} :=
  | OpaqueMaxClients (m : MaxClients)
  | OpaqueChannelType (t : ChannelType)
  | OpaqueTalkPowerRequest (time : DateTime) (message : list Z)
  | OpaqueKey (k : EccKeyPubP256).

#[export] Instance book_opaque `{Times} `{P256} : OpaqueValues := {|
  Opaque := BookOpaque;
  opaque_type o := byte_str match o with
    | OpaqueMaxClients _ => "MaxClients"
    | OpaqueChannelType _ => "ChannelType"
    | OpaqueTalkPowerRequest _ _ => "TalkPowerRequest"
    | OpaqueKey _ => "EccKeyPubP256"
    end;
|}.

(** What the generated enumerations and structures have beside their types: the numbers of some
    variants, an attribute of the server, the setter of a duration, and [SocketAddr::new]. *)
Class GeneratedItems `{Floats} `{Times} `{SocketAddrs} `{P256} := {
  opus_voice : Z;
  no_license : Z;
  serverstop : Z;
  server_shutdown : Z;
  error_ok : Z;
  error_identity : Z;
  encryption_mode : Obj -> CodecEncryptionMode;
  connected_time : Obj -> Z -> Obj;
  socket_addr : IpAddr -> Z -> SockAddr;
}.

(** [Codec::OpusVoice] is a variant of the declared enumeration. *)
Class GeneratedItemsLaws `{GeneratedItems} `{DeclaredEnums} : Prop := {
  opus_voice_declared : from_u32 (byte_str "Codec") opus_voice = Some opus_voice /\ is_u32 opus_voice;
}.

Section objects.
Context `{Floats} `{Times} `{SocketAddrs} `{!ValueEq} `{DeclaredEnums} `{Base64Laws} `{Heck} `{P256} `{!GeneratedItems}.

(** Generated structures are objects, variants their numbers. *)
#[export] Instance object_declarations : Declarations := {|
  ServerAttrs := Obj; codec_encryption_mode := encryption_mode;
  OptionalServerData := Obj; ConnectionServerData := Obj;
  ClientRest := Obj; OptionalClientData := Obj; ConnectionClientData := Obj;
  with_connected_time := connected_time;
  ChannelRest := Obj; OptionalChannelData := Obj; ChannelGroup := Obj; ServerGroup := Obj;
  Codec := Z; OpusVoice := opus_voice; LicenseType := Z; NoLicense := no_license;
  Reason := Z; Serverstop := serverstop; ClientdisconnectServerShutdown := server_shutdown;
  TsServerError := Z; TsServerError_Ok := error_ok; ClientCouldNotValidateIdentity := error_identity;
  OffsetDateTime := DateTime; unix_timestamp := to_unix_timestamp;
  OtherProperty := Empty_set; OtherValue := Empty_set; OtherMessage := Empty_set;
|}.

(** * Views *)

Record View (A : Type) := {
  view_type : PType;
  to_value : A -> Value;
  of_value : Value -> option A;
}.
#[global] Arguments view_type {A} v.
#[global] Arguments to_value {A} v a.
#[global] Arguments of_value {A} v x.

(** A value of the type is read, and written as it was. *)
Class IsView {A} (V : View A) : Prop :=
  view_reads v : ptype_typed (view_type V) v -> exists a, of_value V v = Some a /\ to_value V a = v.

Definition item_as (s : scalar) (i : Item) : option (rust_value s) :=
  let 'existT s' v := i in
  match decide (s' = s) with left e => Some (eq_rect s' rust_value v s e) | right _ => None end.

Definition one_view (ty : string) (s : scalar) : View (rust_value s) := {|
  view_type := {| pt_opt := false; pt_shape := ShOne (byte_str ty) |};
  to_value v := VOne (existT s v);
  of_value v := match v with VOne i => item_as s i | _ => None end;
|}.

Definition vec_view (ty : string) (s : scalar) : View (list (rust_value s)) := {|
  view_type := {| pt_opt := false; pt_shape := ShVec (byte_str ty) |};
  to_value l := VVec (existT s <$> l);
  of_value v := match v with VVec l => mapM (item_as s) l | _ => None end;
|}.

Definition opaque_view {A} (ty : string) (into : A -> Opaque) (from : Opaque -> option A) : View A := {|
  view_type := {| pt_opt := false; pt_shape := ShOne (byte_str ty) |};
  to_value a := VOpaque (byte_str ty) (into a);
  of_value v := match v with VOpaque _ o => from o | _ => None end;
|}.

Definition opt_view {A} (V : View A) : View (option A) := {|
  view_type := {| pt_opt := true; pt_shape := pt_shape (view_type V) |};
  to_value o := match o with Some a => VSome (to_value V a) | None => VNone end;
  of_value v := match v with VNone => Some None | VSome v => Some <$> of_value V v | _ => None end;
|}.

(** The optional structures in a structure are kept beside its object, where they are [None]. *)
Definition beside_view {A} (ty : string) : View (option A) := {|
  view_type := {| pt_opt := true; pt_shape := ShOne (byte_str ty) |};
  to_value _ := VNone;
  of_value v := match v with VNone => Some None | _ => None end;
|}.

Definition is_type (ty : string) (s : scalar) : Prop :=
  (forall type_s s', scalar_of (byte_str ty) type_s = Some s' -> s' = s) /\ forall o : Opaque, opaque_type o <> byte_str ty.

Lemma item_as_typed ty s i : is_type ty s -> item_typed (byte_str ty) i ->
  exists v, item_as s i = Some v /\ i = existT s v.
Proof.
  intros [Hs _] [[type_s Hi] _]. destruct i as [s' v]. cbn in Hi. pose proof (Hs type_s s' Hi) as ->. cbn.
  rewrite (decide_True_pi (P := s = s) eq_refl). by exists v.
Qed.

Lemma one_is_view ty s : is_type ty s -> IsView (one_view ty s).
Proof.
  intros Hty v Hv. unfold ptype_typed in Hv. cbn in Hv. destruct v as [i| | |ty' o| |]; try done.
  - destruct (item_as_typed ty s i Hty Hv) as (v & Hi & ->). by exists v.
  - destruct Hty as [_ Ho]. by destruct Hv as [_ Hv%Ho].
Qed.

Lemma vec_is_view ty s : is_type ty s -> IsView (vec_view ty s).
Proof.
  intros Hty v Hv. unfold ptype_typed in Hv. cbn in Hv. destruct v as [|l| | | |]; try done. cbn.
  induction Hv as [|i l Hi _ (vs & Hvs & Hl)]; [by exists []|].
  destruct (item_as_typed ty s i Hty Hi) as (v & Hi' & ->). exists (v :: vs). cbn [mapM].
  rewrite Hi', Hvs. split; [done|]. cbn. by injection Hl as ->.
Qed.

Lemma opaque_is_view {A} ty into (from : Opaque -> option A) :
  (forall type_s, scalar_of (byte_str ty) type_s = None) ->
  (forall o, opaque_type o = byte_str ty -> exists a, from o = Some a /\ into a = o) -> IsView (opaque_view ty into from).
Proof.
  intros Hs Ho v Hv. unfold ptype_typed in Hv. cbn in Hv. destruct v as [i| | |ty' o| |]; try done.
  - destruct Hv as [[type_s Hi] _]. by rewrite Hs in Hi.
  - destruct Hv as [<- Ht]. destruct (Ho o Ht) as (a & Ha & <-). by exists a.
Qed.

(** No option itself. *)
Class PlainView {A} (V : View A) : Prop := plain_view : pt_opt (view_type V) = false.

#[local] Hint Extern 0 (PlainView _) => reflexivity : typeclass_instances.

#[export] Instance opt_is_view {A} (V : View A) : IsView V -> PlainView V -> IsView (opt_view V).
Proof.
  intros HV Hopt v Hv. unfold ptype_typed in Hv. cbn in Hv. destruct v as [| | | | |v]; try done; [by exists None|].
  destruct (HV v) as (a & Ha & <-); [by unfold ptype_typed; rewrite (plain_view (V := V))|]. exists (Some a). cbn. by rewrite Ha.
Qed.

Lemma beside_is_view {A} ty : (forall type_s, scalar_of (byte_str ty) type_s = None) ->
  (forall o : Opaque, opaque_type o <> byte_str ty) -> IsView (@beside_view A ty).
Proof.
  intros Hs Ho v Hv. unfold ptype_typed in Hv. cbn in Hv. destruct v as [| | | | |v]; try done; [by exists None|].
  destruct v as [i| | |ty' o| |]; try done.
  - destruct Hv as [[type_s Hi] _]. by rewrite Hs in Hi.
  - by destruct Hv as [_ Hv%Ho].
Qed.

(** ** The types of the written code *)

Definition client_id_view : View Z := one_view "ClientId" (SId 16).
Definition channel_id_view : View Z := one_view "ChannelId" (SId 64).
Definition channel_group_view : View Z := one_view "ChannelGroupId" (SId 64).
Definition server_group_view : View Z := one_view "ServerGroupId" (SId 64).
Definition string_view : View (list Z) := one_view "String" SStr.
Definition uid_view : View (list Z) := one_view "UidBuf" SUid.
Definition bool_view : View bool := one_view "bool" SBool.
Definition i32_view : View Z := one_view "i32" (SInt 32).
Definition u16_view : View Z := one_view "u16" (SUint 16).
Definition u64_view : View Z := one_view "u64" (SUint 64).
Definition client_type_view : View ClientType := one_view "ClientType" SClientType.
Definition time_view : View DateTime := one_view "OffsetDateTime" SDateTime.
Definition codec_view : View Z := one_view "Codec" (SEnum (byte_str "Codec")).
Definition reason_view : View Z := one_view "Reason" (SEnum (byte_str "Reason")).
Definition license_view : View Z := one_view "LicenseType" (SEnum (byte_str "LicenseType")).
Definition socket_addr_view : View SockAddr := one_view "SocketAddr" SSocketAddr.
Definition strings_view : View (list (list Z)) := vec_view "String" SStr.

Definition max_clients_view : View MaxClients := opaque_view "MaxClients" OpaqueMaxClients
  (fun o => match o with OpaqueMaxClients m => Some m | _ => None end).
Definition channel_type_view : View ChannelType := opaque_view "ChannelType" OpaqueChannelType
  (fun o => match o with OpaqueChannelType t => Some t | _ => None end).
Definition talk_request_view : View TalkPowerRequest := opaque_view "TalkPowerRequest"
  (fun t => OpaqueTalkPowerRequest (tpr_time t) (tpr_message t))
  (fun o => match o with OpaqueTalkPowerRequest time message => Some {| tpr_time := time; tpr_message := message |} | _ => None end).
Definition key_view : View EccKeyPubP256 := opaque_view "EccKeyPubP256" OpaqueKey
  (fun o => match o with OpaqueKey k => Some k | _ => None end).

Ltac view_type_known := split; [intros type_s s'; vm_compute; congruence|by intros []].

#[export] Instance client_id_is_view : IsView client_id_view.
Proof. refine (one_is_view "ClientId" (SId 16) _). view_type_known. Qed.
#[export] Instance channel_id_is_view : IsView channel_id_view.
Proof. refine (one_is_view "ChannelId" (SId 64) _). view_type_known. Qed.
#[export] Instance channel_group_is_view : IsView channel_group_view.
Proof. refine (one_is_view "ChannelGroupId" (SId 64) _). view_type_known. Qed.
#[export] Instance server_group_is_view : IsView server_group_view.
Proof. refine (one_is_view "ServerGroupId" (SId 64) _). view_type_known. Qed.
#[export] Instance string_is_view : IsView string_view.
Proof. refine (one_is_view "String" SStr _). view_type_known. Qed.
#[export] Instance uid_is_view : IsView uid_view.
Proof. refine (one_is_view "UidBuf" SUid _). view_type_known. Qed.
#[export] Instance bool_is_view : IsView bool_view.
Proof. refine (one_is_view "bool" SBool _). view_type_known. Qed.
#[export] Instance i32_is_view : IsView i32_view.
Proof. refine (one_is_view "i32" (SInt 32) _). view_type_known. Qed.
#[export] Instance u16_is_view : IsView u16_view.
Proof. refine (one_is_view "u16" (SUint 16) _). view_type_known. Qed.
#[export] Instance u64_is_view : IsView u64_view.
Proof. refine (one_is_view "u64" (SUint 64) _). view_type_known. Qed.
#[export] Instance client_type_is_view : IsView client_type_view.
Proof. refine (one_is_view "ClientType" SClientType _). view_type_known. Qed.
#[export] Instance time_is_view : IsView time_view.
Proof. refine (one_is_view "OffsetDateTime" SDateTime _). view_type_known. Qed.
#[export] Instance codec_is_view : IsView codec_view.
Proof. refine (one_is_view "Codec" (SEnum (byte_str "Codec")) _). view_type_known. Qed.
#[export] Instance reason_is_view : IsView reason_view.
Proof. refine (one_is_view "Reason" (SEnum (byte_str "Reason")) _). view_type_known. Qed.
#[export] Instance license_is_view : IsView license_view.
Proof. refine (one_is_view "LicenseType" (SEnum (byte_str "LicenseType")) _). view_type_known. Qed.
#[export] Instance socket_addr_is_view : IsView socket_addr_view.
Proof. refine (one_is_view "SocketAddr" SSocketAddr _). view_type_known. Qed.
#[export] Instance strings_is_view : IsView strings_view.
Proof. refine (vec_is_view "String" SStr _). view_type_known. Qed.

#[export] Instance max_clients_is_view : IsView max_clients_view.
Proof. apply opaque_is_view; [done|]. intros [m| | |]; [by exists m|done..]. Qed.
#[export] Instance channel_type_is_view : IsView channel_type_view.
Proof. apply opaque_is_view; [done|]. intros [|t| |]; [done|by exists t|done..]. Qed.
#[export] Instance talk_request_is_view : IsView talk_request_view.
Proof. apply opaque_is_view; [done|]. intros [| |time message|]; [done..|by eexists|done]. Qed.
#[export] Instance key_is_view : IsView key_view.
Proof. apply opaque_is_view; [done|]. intros [| | |k]; [done..|by exists k]. Qed.

#[export] Instance connection_client_beside : IsView (beside_view (A := Obj) "ConnectionClientData").
Proof. apply beside_is_view; [done|by intros []]. Qed.
#[export] Instance optional_client_beside : IsView (beside_view (A := Obj) "OptionalClientData").
Proof. apply beside_is_view; [done|by intros []]. Qed.
#[export] Instance optional_channel_beside : IsView (beside_view (A := Obj) "OptionalChannelData").
Proof. apply beside_is_view; [done|by intros []]. Qed.
#[export] Instance optional_server_beside : IsView (beside_view (A := Obj) "OptionalServerData").
Proof. apply beside_is_view; [done|by intros []]. Qed.
#[export] Instance connection_server_beside : IsView (beside_view (A := Obj) "ConnectionServerData").
Proof. apply beside_is_view; [done|by intros []]. Qed.

(** * Structures and objects *)

(** A structure: the attributes that are fields of the record, and all attributes of the object
    that it was read from. *)
Class ObjectOf (X : Type) := {
  obj_fields : list (list Z * PType);
  obj_entries : X -> list (list Z * Value);
  obj_rest : X -> Obj;
  obj_of : Obj -> option X;
}.

Definition overlay (entries : list (list Z * Value)) (rest : Obj) : Obj :=
  foldr (fun x o => <[fst x := snd x]> o) rest entries.

Definition to_obj `{ObjectOf X} (x : X) : Obj := overlay (obj_entries x) (obj_rest x).

(** The object has the fields with their types. *)
Definition has_fields (o : Obj) (fields : list (list Z * PType)) : Prop :=
  Forall (fun f => exists v, o !! fst f = Some v /\ ptype_typed (snd f) v) fields.

Class ObjectOfLaws (X : Type) `{ObjectOf X} : Prop := {
  obj_fields_nodup : NoDup (fst <$> obj_fields (X := X));
  obj_entries_names x : fst <$> obj_entries x = fst <$> obj_fields (X := X);
  obj_reads o : has_fields o (obj_fields (X := X)) ->
    exists x, obj_of o = Some x /\ obj_rest x = o /\ Forall (fun e => o !! fst e = Some (snd e)) (obj_entries x);
}.

(** The structure is declared with the fields. *)
Definition fields_declared (b : BookDeclarations) (s : BookStruct) (fields : list (list Z * PType)) : bool :=
  forallb (fun f => existsb (fun i => bool_decide (PropId_get_attr_name i s = fst f) && bool_decide (propid_ptype b i = Some (snd f)))
    (get_all_properties s)) fields.

(** All other attributes have their types. *)
Definition rest_typed (b : BookDeclarations) (s : BookStruct) (names : list (list Z)) (o : Obj) : Prop :=
  forall i pt, i ∈ get_all_properties s -> PropId_get_attr_name i s ∉ names -> propid_ptype b i = Some pt ->
  exists v, o !! PropId_get_attr_name i s = Some v /\ ptype_typed pt v.

Definition object_ok {X} `{ObjectOf X} (b : BookDeclarations) (s : BookStruct) (x : X) : Prop :=
  Forall2 entry_typed (obj_entries x) (obj_fields (X := X)) /\ rest_typed b s (fst <$> obj_fields (X := X)) (obj_rest x).

Lemma overlay_other entries rest name : name ∉ fst <$> entries -> overlay entries rest !! name = rest !! name.
Proof.
  induction entries as [|[n v] entries IH]; intros Hn; [done|]. rewrite fmap_cons, not_elem_of_cons in Hn.
  destruct Hn as [Hn Hns]. cbn [overlay foldr fst snd]. rewrite obj_insert_ne by done. by apply IH.
Qed.

Lemma overlay_entry entries rest name v : NoDup (fst <$> entries) -> (name, v) ∈ entries ->
  overlay entries rest !! name = Some v.
Proof.
  induction entries as [|[n w] entries IH]; intros Hnd Hin; [by apply elem_of_nil in Hin|].
  rewrite fmap_cons, NoDup_cons in Hnd. destruct Hnd as [Hn Hnd]. cbn [overlay foldr fst snd].
  apply elem_of_cons in Hin as [[= -> ->]|Hin]; [apply obj_insert_eq|]. rewrite obj_insert_ne; [by apply IH|].
  intros ->. apply Hn. by apply (list_elem_of_fmap_2 fst _ (n, v)).
Qed.

Lemma overlay_same entries (o : Obj) : Forall (fun e => o !! fst e = Some (snd e)) entries -> overlay entries o = o.
Proof.
  induction 1 as [|[n v] entries He _ IH]; [done|]. cbn [overlay foldr fst snd]. fold (overlay entries o). rewrite IH.
  by apply (insert_id (M := gmap (list Z))).
Qed.

Lemma fields_declared_elem b s fields name pt : fields_declared b s fields = true -> (name, pt) ∈ fields ->
  exists i, i ∈ get_all_properties s /\ PropId_get_attr_name i s = name /\ propid_ptype b i = Some pt.
Proof.
  unfold fields_declared. rewrite forallb_forall. intros Hall Hin%list_elem_of_In. specialize (Hall _ Hin).
  apply existsb_exists in Hall as (i & Hi%list_elem_of_In & Hd). rewrite andb_true_iff, !bool_decide_eq_true in Hd.
  by exists i.
Qed.

(** A structure with typed fields is a typed object. *)
Lemma to_obj_typed {X} `{HX : ObjectOfLaws X} b s (x : X) : struct_ok s = true ->
  fields_declared b s (obj_fields (X := X)) = true -> object_ok b s x -> obj_typed b s (to_obj x).
Proof.
  intros Hs Hd [Hes Hrest] i pt Hi Hpt. unfold to_obj.
  destruct (decide (PropId_get_attr_name i s ∈ fst <$> obj_fields (X := X))) as [Hin|Hn].
  - apply list_elem_of_fmap in Hin as ([name pt'] & Hname & Hin). cbn in Hname.
    destruct (fields_declared_elem b s _ name pt' Hd Hin) as (i' & Hi' & Hname' & Hpt').
    assert (i = i') as <- by (eapply struct_ok_name; [exact Hs|done|done|congruence]).
    assert (pt = pt') as <- by congruence.
    apply list_elem_of_lookup in Hin as [n Hn]. destruct (Forall2_lookup_r _ _ _ _ _ Hes Hn) as ([name' v] & Hx & Hname'' & Hv).
    cbn in Hname'', Hv. subst name'. exists v. split; [|done]. rewrite Hname. apply overlay_entry.
    + rewrite obj_entries_names. apply obj_fields_nodup.
    + by eapply list_elem_of_lookup_2.
  - rewrite overlay_other by (by rewrite obj_entries_names). by apply Hrest.
Qed.

Lemma obj_typed_rest b s names o : obj_typed b s o -> rest_typed b s names o.
Proof. intros Ho i pt Hi _ Hpt. by apply Ho. Qed.

Lemma obj_typed_fields b s fields o : fields_declared b s fields = true -> obj_typed b s o -> has_fields o fields.
Proof.
  intros Hd Ho. apply Forall_forall. intros [name pt] Hin.
  destruct (fields_declared_elem b s fields name pt Hd Hin) as (i & Hi & <- & Hpt). by apply Ho.
Qed.

(** A typed object is the object of a structure. *)
Lemma obj_of_typed {X} `{HX : ObjectOfLaws X} b s o : fields_declared b s (obj_fields (X := X)) = true -> obj_typed b s o ->
  exists x : X, obj_of o = Some x /\ object_ok b s x /\ to_obj x = o /\
    Forall (fun e => o !! fst e = Some (snd e)) (obj_entries x).
Proof.
  intros Hd Ho. pose proof (obj_typed_fields b s _ o Hd Ho) as Hf.
  destruct (obj_reads o Hf) as (x & Hx & Hr & He). exists x. split_and!; [done| |unfold to_obj; rewrite Hr; by apply overlay_same|done].
  split; [|rewrite Hr; by apply obj_typed_rest]. clear - Hf He HX. pose proof (obj_entries_names x) as Hn. revert Hf He Hn.
  unfold has_fields. generalize (obj_entries x), (obj_fields (X := X)). intros es fs. revert fs.
  induction es as [|[n v] es IH]; intros [|[n' pt] fs]; try done. cbn. intros Hf He [= -> Hn].
  apply Forall_cons in Hf as [(v' & Hv' & Hty) Hf]. apply Forall_cons in He as [He Hes]. cbn in *.
  constructor; [|by apply IH]. split; [done|]. cbn. congruence.
Qed.

(** The optional structures and the groups are objects as they are. *)
#[export] Instance object_itself : ObjectOf Obj := {|
  obj_fields := []; obj_entries _ := []; obj_rest o := o; obj_of := Some |}.
#[export] Instance object_itself_laws : ObjectOfLaws Obj.
Proof. split; [constructor|done|]. intros o _. by exists o. Qed.

(** [Result::ok] *)
Definition ok {E A} (m : res E A) : option A := match m with Ok a => Some a | _ => None end.

(** An attribute of an object. *)
Definition attr {A} (o : Obj) (name : string) (V : View A) : res unit A := unwrap (o !! byte_str name ≫= of_value V).

#[export] Instance client_object : ObjectOf Client := {|
  obj_fields :=
    [(byte_str "id", view_type client_id_view);
     (byte_str "name", view_type string_view);
     (byte_str "channel", view_type channel_id_view);
     (byte_str "away_message", view_type (opt_view string_view));
     (byte_str "talk_power_request", view_type (opt_view talk_request_view));
     (byte_str "input_muted", view_type bool_view);
     (byte_str "output_muted", view_type bool_view);
     (byte_str "input_hardware_enabled", view_type bool_view);
     (byte_str "output_hardware_enabled", view_type bool_view);
     (byte_str "output_only_muted", view_type bool_view);
     (byte_str "talk_power", view_type i32_view);
     (byte_str "talk_power_granted", view_type bool_view);
     (byte_str "connection_data", view_type (beside_view (A := Obj) "ConnectionClientData"));
     (byte_str "optional_data", view_type (beside_view (A := Obj) "OptionalClientData"))];
  obj_entries c :=
    [(byte_str "id", to_value client_id_view (cl_id c));
     (byte_str "name", to_value string_view (cl_name c));
     (byte_str "channel", to_value channel_id_view (cl_channel c));
     (byte_str "away_message", to_value (opt_view string_view) (cl_away_message c));
     (byte_str "talk_power_request", to_value (opt_view talk_request_view) (cl_talk_power_request c));
     (byte_str "input_muted", to_value bool_view (input_muted (cl_mutes c)));
     (byte_str "output_muted", to_value bool_view (output_muted (cl_mutes c)));
     (byte_str "input_hardware_enabled", to_value bool_view (input_hardware_enabled (cl_mutes c)));
     (byte_str "output_hardware_enabled", to_value bool_view (output_hardware_enabled (cl_mutes c)));
     (byte_str "output_only_muted", to_value bool_view (output_only_muted (cl_mutes c)));
     (byte_str "talk_power", to_value i32_view (cl_talk_power c));
     (byte_str "talk_power_granted", to_value bool_view (cl_talk_power_granted c));
     (byte_str "connection_data", to_value (beside_view (A := Obj) "ConnectionClientData") (cl_connection_data c));
     (byte_str "optional_data", to_value (beside_view (A := Obj) "OptionalClientData") (cl_optional_data c))];
  obj_rest := cl_rest;
  obj_of o := ok (
    let? x_id := attr o "id" client_id_view in
    let? x_name := attr o "name" string_view in
    let? x_channel := attr o "channel" channel_id_view in
    let? x_away_message := attr o "away_message" (opt_view string_view) in
    let? x_talk_power_request := attr o "talk_power_request" (opt_view talk_request_view) in
    let? x_input_muted := attr o "input_muted" bool_view in
    let? x_output_muted := attr o "output_muted" bool_view in
    let? x_input_hardware_enabled := attr o "input_hardware_enabled" bool_view in
    let? x_output_hardware_enabled := attr o "output_hardware_enabled" bool_view in
    let? x_output_only_muted := attr o "output_only_muted" bool_view in
    let? x_talk_power := attr o "talk_power" i32_view in
    let? x_talk_power_granted := attr o "talk_power_granted" bool_view in
    let? x_connection_data := attr o "connection_data" (beside_view (A := ConnectionClientData) "ConnectionClientData") in
    let? x_optional_data := attr o "optional_data" (beside_view (A := OptionalClientData) "OptionalClientData") in
    Ok {| cl_id := x_id; cl_name := x_name; cl_channel := x_channel; cl_away_message := x_away_message;
         cl_talk_power_request := x_talk_power_request;
         cl_mutes := {| input_muted := x_input_muted; output_muted := x_output_muted;
                        input_hardware_enabled := x_input_hardware_enabled;
                        output_hardware_enabled := x_output_hardware_enabled; output_only_muted := x_output_only_muted |};
         cl_talk_power := x_talk_power; cl_talk_power_granted := x_talk_power_granted;
         cl_connection_data := x_connection_data; cl_optional_data := x_optional_data; cl_rest := o |});
|}.

#[export] Instance channel_object : ObjectOf Channel := {|
  obj_fields :=
    [(byte_str "id", view_type channel_id_view);
     (byte_str "parent", view_type channel_id_view);
     (byte_str "order", view_type channel_id_view);
     (byte_str "channel_type", view_type channel_type_view);
     (byte_str "max_clients", view_type (opt_view max_clients_view));
     (byte_str "max_family_clients", view_type (opt_view max_clients_view));
     (byte_str "subscribed", view_type bool_view);
     (byte_str "needed_talk_power", view_type (opt_view i32_view));
     (byte_str "is_unencrypted", view_type (opt_view bool_view));
     (byte_str "optional_data", view_type (beside_view (A := Obj) "OptionalChannelData"))];
  obj_entries c :=
    [(byte_str "id", to_value channel_id_view (ch_id c));
     (byte_str "parent", to_value channel_id_view (ch_parent c));
     (byte_str "order", to_value channel_id_view (ch_order c));
     (byte_str "channel_type", to_value channel_type_view (ch_channel_type c));
     (byte_str "max_clients", to_value (opt_view max_clients_view) (ch_max_clients c));
     (byte_str "max_family_clients", to_value (opt_view max_clients_view) (ch_max_family_clients c));
     (byte_str "subscribed", to_value bool_view (ch_subscribed c));
     (byte_str "needed_talk_power", to_value (opt_view i32_view) (ch_needed_talk_power c));
     (byte_str "is_unencrypted", to_value (opt_view bool_view) (ch_is_unencrypted c));
     (byte_str "optional_data", to_value (beside_view (A := Obj) "OptionalChannelData") (ch_optional_data c))];
  obj_rest := ch_rest;
  obj_of o := ok (
    let? x_id := attr o "id" channel_id_view in
    let? x_parent := attr o "parent" channel_id_view in
    let? x_order := attr o "order" channel_id_view in
    let? x_channel_type := attr o "channel_type" channel_type_view in
    let? x_max_clients := attr o "max_clients" (opt_view max_clients_view) in
    let? x_max_family_clients := attr o "max_family_clients" (opt_view max_clients_view) in
    let? x_subscribed := attr o "subscribed" bool_view in
    let? x_needed_talk_power := attr o "needed_talk_power" (opt_view i32_view) in
    let? x_is_unencrypted := attr o "is_unencrypted" (opt_view bool_view) in
    let? x_optional_data := attr o "optional_data" (beside_view (A := OptionalChannelData) "OptionalChannelData") in
    Ok {| ch_id := x_id; ch_parent := x_parent; ch_order := x_order; ch_channel_type := x_channel_type;
         ch_max_clients := x_max_clients; ch_max_family_clients := x_max_family_clients; ch_subscribed := x_subscribed;
         ch_needed_talk_power := x_needed_talk_power; ch_is_unencrypted := x_is_unencrypted;
         ch_optional_data := x_optional_data; ch_rest := o |});
|}.

#[export] Instance server_object : ObjectOf Server := {|
  obj_fields :=
    [(byte_str "id", view_type u64_view);
     (byte_str "public_key", view_type key_view);
     (byte_str "ips", view_type strings_view);
     (byte_str "license", view_type license_view);
     (byte_str "optional_data", view_type (beside_view (A := Obj) "OptionalServerData"));
     (byte_str "connection_data", view_type (beside_view (A := Obj) "ConnectionServerData"))];
  obj_entries c :=
    [(byte_str "id", to_value u64_view (sv_id c));
     (byte_str "public_key", to_value key_view (sv_public_key c));
     (byte_str "ips", to_value strings_view (sv_ips c));
     (byte_str "license", to_value license_view (sv_license c));
     (byte_str "optional_data", to_value (beside_view (A := Obj) "OptionalServerData") (sv_optional_data c));
     (byte_str "connection_data", to_value (beside_view (A := Obj) "ConnectionServerData") (sv_connection_data c))];
  obj_rest := sv_attrs;
  obj_of o := ok (
    let? x_id := attr o "id" u64_view in
    let? x_public_key := attr o "public_key" key_view in
    let? x_ips := attr o "ips" strings_view in
    let? x_license := attr (A := LicenseType) o "license" license_view in
    let? x_optional_data := attr o "optional_data" (beside_view (A := OptionalServerData) "OptionalServerData") in
    let? x_connection_data := attr o "connection_data" (beside_view (A := ConnectionServerData) "ConnectionServerData") in
    Ok {| sv_id := x_id; sv_public_key := x_public_key; sv_ips := x_ips; sv_license := x_license;
         sv_optional_data := x_optional_data; sv_connection_data := x_connection_data; sv_attrs := o |});
|}.

Lemma attr_ok {A} (o : Obj) name (V : View A) v a : o !! byte_str name = Some v -> of_value V v = Some a -> attr o name V = Ok a.
Proof. unfold attr. intros -> Ha. cbn [mbind option_bind]. by rewrite Ha. Qed.

(** One field after the other is read. *)
Ltac read_field Hf :=
  apply Forall_cons in Hf as [(?v & ?Hv & ?Hty) Hf]; cbn [fst snd] in *;
  match goal with Hty : ptype_typed (view_type ?V) ?v |- _ =>
    destruct (view_reads (V := V) v Hty) as (?a & ?Ha & ?Hto); clear Hty
  end.

Ltac read_object :=
  let o := fresh "o" in let Hf := fresh "Hf" in
  intros o Hf; repeat read_field Hf; clear Hf;
  eexists; split_and!;
  [cbn [obj_of client_object channel_object server_object];
   repeat (erewrite (attr_ok o) by eassumption; cbn [res_bind]); reflexivity
  |reflexivity
  |repeat (apply Forall_cons_2; [cbn [fst snd]; etrans; [eassumption|f_equal; symmetry; eassumption]|]); apply Forall_nil_2].

Ltac object_laws := split; [apply (bool_decide_unpack _); by vm_compute|done|read_object].

#[export] Instance client_object_laws : ObjectOfLaws Client.
Proof. object_laws. Qed.
#[export] Instance channel_object_laws : ObjectOfLaws Channel.
Proof. object_laws. Qed.
#[export] Instance server_object_laws : ObjectOfLaws Server.
Proof. object_laws. Qed.

(** What is kept beside an object is not in it. *)
Lemma attr_beside {A} (o : Obj) name ty x : attr (A := option A) o name (beside_view ty) = Ok x -> x = None.
Proof. unfold attr. destruct (o !! byte_str name) as [[]|]; try done. by intros [= <-]. Qed.

Ltac read_back o :=
  repeat match goal with |- context [attr o ?n ?V] => destruct (attr o n V) eqn:?; cbn [res_bind ok]; [|done..] end.

Lemma client_beside o (c : Client) : obj_of o = Some c -> cl_connection_data c = None /\ cl_optional_data c = None.
Proof. cbn [obj_of client_object]. read_back o. intros [= <-]. split; by eapply attr_beside. Qed.

Lemma channel_beside o (c : Channel) : obj_of o = Some c -> ch_optional_data c = None.
Proof. cbn [obj_of channel_object]. read_back o. intros [= <-]. by eapply attr_beside. Qed.
End objects.

#[export] Hint Extern 0 (PlainView _) => reflexivity : typeclass_instances.

(** The entry of a name in a table. *)
Definition table {A} (l : list (string * A)) (name : list Z) : option A :=
  snd ∘ snd <$> list_find (fun x => byte_str (fst x) = name) l.

(** * Structures *)

(** The structures for which there are functions. *)
Inductive Kind :=
  | KServer
  | KClient
  | KChannel
  | KChannelGroup
  | KServerGroup
  | KOptionalServerData
  | KConnectionServerData
  | KOptionalClientData
  | KConnectionClientData
  | KOptionalChannelData.

#[global] Instance Kind_eq_dec : EqDecision Kind.
Proof. solve_decision. Defined.

Definition kinds : list (string * Kind) :=
  [("server", KServer); ("client", KClient); ("channel", KChannel); ("channel_group", KChannelGroup);
   ("server_group", KServerGroup); ("optional_server_data", KOptionalServerData);
   ("connection_server_data", KConnectionServerData); ("optional_client_data", KOptionalClientData);
   ("connection_client_data", KConnectionClientData); ("optional_channel_data", KOptionalChannelData)]%string.

(** What a structure is found by. *)
Inductive Key := NoKey | ClientKey | ChannelKey | ChannelGroupKey | ServerGroupKey.

#[global] Instance Key_eq_dec : EqDecision Key.
Proof. solve_decision. Defined.

Definition kind_key (k : Kind) : Key :=
  match k with
  | KServer | KOptionalServerData | KConnectionServerData => NoKey
  | KClient | KOptionalClientData | KConnectionClientData => ClientKey
  | KChannel | KOptionalChannelData => ChannelKey
  | KChannelGroup => ChannelGroupKey
  | KServerGroup => ServerGroupKey
  end.

(** * Functions that rules name *)

(** For an update. *)
Inductive UpdateFun :=
  | VoidFun
  | MaxClientsCe
  | ChannelTypeCe
  | ChannelOrderCe
  | ChannelOrderCm
  | AwayCu
  | TalkPowerCu
  | ChannelSubscribe
  | ChannelUnsubscribe
  | SubscribeChannel.

Definition update_funs : list (string * UpdateFun) :=
  [("void_fun", VoidFun); ("max_clients_ce_fun", MaxClientsCe); ("channel_type_ce_fun", ChannelTypeCe);
   ("channel_order_ce_fun", ChannelOrderCe); ("channel_order_cm_fun", ChannelOrderCm); ("away_cu_fun", AwayCu);
   ("talk_power_cu_fun", TalkPowerCu); ("channel_subscribe_fun", ChannelSubscribe);
   ("channel_unsubscribe_fun", ChannelUnsubscribe); ("subscribe_channel_fun", SubscribeChannel)]%string.

(** For the attributes of a new object. *)
Inductive CreateFun :=
  | ReturnFalse
  | ReturnNone
  | ReturnSomeNone
  | MaxClientsCc
  | MaxClientsCl
  | ChannelTypeCc
  | ChannelTypeCl
  | ChannelCodecCc
  | ChannelOrderCc
  | AwayCev
  | ClientTypeCev
  | TalkPowerCev
  | AddressFun.

Definition create_funs : list (string * CreateFun) :=
  [("return_false", ReturnFalse); ("return_none", ReturnNone); ("return_some_none", ReturnSomeNone);
   ("max_clients_cc_fun", MaxClientsCc); ("max_clients_cl_fun", MaxClientsCl);
   ("channel_type_cc_fun", ChannelTypeCc); ("channel_type_cl_fun", ChannelTypeCl);
   ("channel_codec_cc_fun", ChannelCodecCc); ("channel_order_cc_fun", ChannelOrderCc);
   ("away_cev_fun", AwayCev); ("client_type_cev_fun", ClientTypeCev); ("talk_power_cev_fun", TalkPowerCev);
   ("address_fun", AddressFun)]%string.

Section stores.
Context `{Floats} `{Times} `{SocketAddrs} `{!ValueEq} `{DeclaredEnums} `{Base64Enc} `{Base64Dec} `{Heck} `{P256} `{!GeneratedItems}.
Context `{!HashSets} `{HashOrder}.

Definition kind_of (name : list Z) : option Kind := table kinds (to_snake_case name).

Definition id_view (k : Key) : View Z :=
  match k with
  | NoKey | ClientKey => client_id_view
  | ChannelKey => channel_id_view
  | ChannelGroupKey => channel_group_view
  | ServerGroupKey => server_group_view
  end.

Definition Failure : Type := HandlerError BookError.

(** The argument for the ids; a structure without a key has none. *)
Definition read_key (k : Key) (ids : list Value) : res Failure Z :=
  match k, ids with
  | NoKey, [] => Ok 0
  | NoKey, _ => Panic
  | k, [v] => unwrap (of_value (id_view k) v)
  | _, _ => Panic
  end.

(** * Events *)

Definition ginvoker (i : Invoker) : GInvoker :=
  {| gi_id := to_value client_id_view (inv_id i); gi_name := to_value string_view (inv_name i);
     gi_uid := to_value (opt_view uid_view) (inv_uid i) |}.

Definition of_client (name : string) (id : Z) : GPropertyId :=
  {| pid_name := byte_str name; pid_args := [to_value client_id_view id] |}.
Definition of_channel (name : string) (id : Z) : GPropertyId :=
  {| pid_name := byte_str name; pid_args := [to_value channel_id_view id] |}.

Definition gproperty (p : PropertyId) : GPropertyId :=
  match p with
  | PropServer => {| pid_name := byte_str "Server"; pid_args := [] |}
  | PropClient id => of_client "Client" id
  | PropClientName id => of_client "ClientName" id
  | PropClientAwayMessage id => of_client "ClientAwayMessage" id
  | PropClientTalkPowerRequest id => of_client "ClientTalkPowerRequest" id
  | PropClientInputMuted id => of_client "ClientInputMuted" id
  | PropClientOutputMuted id => of_client "ClientOutputMuted" id
  | PropClientInputHardwareEnabled id => of_client "ClientInputHardwareEnabled" id
  | PropClientOutputHardwareEnabled id => of_client "ClientOutputHardwareEnabled" id
  | PropClientOutputOnlyMuted id => of_client "ClientOutputOnlyMuted" id
  | PropChannelOrder id => of_channel "ChannelOrder" id
  | PropChannelMaxClients id => of_channel "ChannelMaxClients" id
  | PropChannelMaxFamilyClients id => of_channel "ChannelMaxFamilyClients" id
  | PropChannelChannelType id => of_channel "ChannelChannelType" id
  | PropChannelSubscribed id => of_channel "ChannelSubscribed" id
  | PropOther p => match p : Empty_set with end
  end.

Definition gvalue (v : PropertyValue) : OldValue :=
  match v with
  | ValString s => OldValue_ (to_value string_view s)
  | ValOptionString s => OldValue_ (to_value (opt_view string_view) s)
  | ValChannelId id => OldValue_ (to_value channel_id_view id)
  | ValOptionMaxClients m => OldValue_ (to_value (opt_view max_clients_view) m)
  | ValChannelType t => OldValue_ (to_value channel_type_view t)
  | ValOptionTalkPowerRequest t => OldValue_ (to_value (opt_view talk_request_view) t)
  | ValBool b => OldValue_ (to_value bool_view b)
  | ValClient c => OldObj (to_obj c)
  | ValOther v => match v : Empty_set with end
  end.

(** Messages are told by [handle_command], which comes after the handler. *)
Definition gevent (e : Book.Event) : list GEvent :=
  match e with
  | PropertyAdded id invoker reason => [GAdded (gproperty id) (ginvoker <$> invoker) (to_value (opt_view reason_view) reason)]
  | PropertyChanged id old invoker reason =>
      [GChanged (gproperty id) (gvalue old) (ginvoker <$> invoker) (to_value (opt_view reason_view) reason)]
  | PropertyRemoved id old invoker reason =>
      [GRemoved (gproperty id) (gvalue old) (ginvoker <$> invoker) (to_value (opt_view reason_view) reason)]
  | Book.Message _ _ _ => []
  end.

(** * Lookup and replacement *)

Definition St : Type := Book * list GEvent.

(** A function of the book. *)
Definition run {A} (m : bk A) (s : St) : res Failure A * St :=
  let '(r, (b, events)) := m (fst s, []) in
  (match r with Ok a => Ok a | Err e => Err (HandlerStore e) | Panic => Panic end, (b, snd s ++ flat_map gevent events)).

(** An argument of it. *)
Definition checked {A B} (a : res Failure A) (k : A -> St -> res Failure B * St) (s : St) : res Failure B * St :=
  match a with
  | Ok a => k a s
  | Err e => (Err e, s)
  | Panic => (Panic, s)
  end.

(** The old value of a structure. *)
Definition old_obj {X} `{!ObjectOf X} (m : bk (option X)) : bk (option Obj) := o ← m; mret (to_obj <$> o).

Definition get_mut_obj (name : list Z) (ids : list Value) (b : Book) : res Failure Obj :=
  match kind_of name with
  | Some KServer => let? _ := read_key NoKey ids in Ok (to_obj (server b))
  | Some KClient =>
      let? id := read_key ClientKey ids in
      let? c := fst (run (get_client id) (b, [])) in Ok (to_obj c)
  | Some KChannel =>
      let? id := read_key ChannelKey ids in
      let? c := fst (run (get_channel id) (b, [])) in Ok (to_obj c)
  | _ => Panic
  end.

(** The structures beside the object stay. *)
Definition put_obj (name : list Z) (ids : list Value) (r : Obj) (b : Book) : Book :=
  match kind_of name with
  | Some KServer =>
      match obj_of r with
      | Some s => set_server (with_server_data s (sv_optional_data (server b)) (sv_connection_data (server b))) b
      | None => b
      end
  | Some KClient =>
      match read_key ClientKey ids, obj_of r with
      | Ok id, Some c =>
          let old := clients b !! id in
          set_clients <[id := with_client_data c (old ≫= cl_connection_data) (old ≫= cl_optional_data)]> b
      | _, _ => b
      end
  | Some KChannel =>
      match read_key ChannelKey ids, obj_of r with
      | Ok id, Some c => set_channels <[id := with_channel_data c (channels b !! id ≫= ch_optional_data)]> b
      | _, _ => b
      end
  | _ => b
  end.

Definition add_obj (name : list Z) (ids : list Value) (r : Obj) : St -> res Failure (option Obj) * St :=
  match kind_of name with
  | Some KClient =>
      checked (read_key ClientKey ids) (fun id => checked (unwrap (obj_of r)) (fun c => run (old_obj (add_client id c))))
  | Some KChannel =>
      checked (read_key ChannelKey ids) (fun id => checked (unwrap (obj_of r)) (fun c => run (old_obj (add_channel id c))))
  | Some KChannelGroup => checked (read_key ChannelGroupKey ids) (fun id => run (add_channel_group id r))
  | Some KServerGroup => checked (read_key ServerGroupKey ids) (fun id => run (add_server_group id r))
  | _ => fun s => (Panic, s)
  end.

Definition remove_obj (name : list Z) (ids : list Value) : St -> res Failure (option Obj) * St :=
  match kind_of name with
  | Some KClient => checked (read_key ClientKey ids) (fun id => run (old_obj (remove_client id)))
  | Some KChannel => checked (read_key ChannelKey ids) (fun id => run (old_obj (remove_channel id)))
  | Some KOptionalServerData => checked (read_key NoKey ids) (fun _ => run remove_optional_server_data)
  | Some KOptionalChannelData => checked (read_key ChannelKey ids) (fun id => run (remove_optional_channel_data id))
  | _ => fun s => (Panic, s)
  end.

Definition replace_obj (name : list Z) (ids : list Value) (r : Obj) : St -> res Failure (option Obj) * St :=
  match kind_of name with
  | Some KOptionalServerData => checked (read_key NoKey ids) (fun _ => run (replace_optional_server_data r))
  | Some KConnectionServerData => checked (read_key NoKey ids) (fun _ => run (replace_connection_server_data r))
  | Some KConnectionClientData => checked (read_key ClientKey ids) (fun id => run (replace_connection_client_data id r))
  | Some KOptionalClientData => checked (read_key ClientKey ids) (fun id => run (replace_optional_client_data id r))
  | Some KOptionalChannelData => checked (read_key ChannelKey ids) (fun id => run (replace_optional_channel_data id r))
  | _ => fun s => (Panic, s)
  end.

(** * Parts of messages *)

(** A field by its name in Rust. *)
Definition read {A} (t : MessageType) (part : Part) (name : string) (V : View A) : res Failure A :=
  let? v := m_named t part name in unwrap (of_value V v).

(** [get_invoker] *)
Definition read_invoker (t : MessageType) (part : Part) : res Failure (option Invoker) :=
  let? i := part_invoker t part in
  match i with
  | None => Ok None
  | Some i =>
      let? id := unwrap (of_value client_id_view (gi_id i)) in
      let? name := unwrap (of_value string_view (gi_name i)) in
      let? uid := unwrap (of_value (opt_view uid_view) (gi_uid i)) in
      Ok (Some {| inv_name := name; inv_id := id; inv_uid := uid |})
  end.

Definition read_limits (t : MessageType) (part : Part) : res Failure ClientLimits :=
  let? a := read t part "max_clients" (opt_view i32_view) in
  let? b := read t part "is_max_clients_unlimited" (opt_view bool_view) in
  let? c := read t part "max_family_clients" (opt_view i32_view) in
  let? d := read t part "is_max_family_clients_unlimited" (opt_view bool_view) in
  let? e := read t part "inherits_max_family_clients" (opt_view bool_view) in
  Ok {| lim_max_clients := a; lim_is_max_clients_unlimited := b; lim_max_family_clients := c;
        lim_is_max_family_clients_unlimited := d; lim_inherits_max_family_clients := e |}.

Definition read_channel_created (t : MessageType) (part : Part) : res Failure InChannelCreatedPart :=
  let? id := read t part "channel_id" channel_id_view in
  let? parent := read t part "parent_id" channel_id_view in
  let? order := read t part "order" channel_id_view in
  let? limits := read_limits t part in
  let? permanent := read t part "is_permanent" (opt_view bool_view) in
  let? semi_permanent := read t part "is_semi_permanent" (opt_view bool_view) in
  let? codec := read t part "codec" (opt_view codec_view) in
  Ok {| icc_channel_id := id; icc_parent_id := parent; icc_order := order; icc_limits := limits;
        icc_is_permanent := permanent; icc_is_semi_permanent := semi_permanent; icc_codec := codec |}.

Definition read_channel_edited (t : MessageType) (part : Part) : res Failure InChannelEditedPart :=
  let? order := read t part "order" (opt_view channel_id_view) in
  let? parent := read t part "parent_id" (opt_view channel_id_view) in
  let? limits := read_limits t part in
  let? permanent := read t part "is_permanent" (opt_view bool_view) in
  let? semi_permanent := read t part "is_semi_permanent" (opt_view bool_view) in
  let? reason := read t part "reason" reason_view in
  let? invoker := read_invoker t part in
  Ok {| ice_order := order; ice_parent_id := parent; ice_limits := limits; ice_is_permanent := permanent;
        ice_is_semi_permanent := semi_permanent; ice_reason := reason; ice_invoker := invoker |}.

Definition read_channel_list (t : MessageType) (part : Part) : res Failure InChannelListPart :=
  let? a := read t part "max_clients" i32_view in
  let? b := read t part "is_max_clients_unlimited" bool_view in
  let? c := read t part "max_family_clients" i32_view in
  let? d := read t part "is_max_family_clients_unlimited" bool_view in
  let? e := read t part "inherits_max_family_clients" bool_view in
  let? permanent := read t part "is_permanent" bool_view in
  let? semi_permanent := read t part "is_semi_permanent" bool_view in
  Ok {| icl_max_clients := a; icl_is_max_clients_unlimited := b; icl_max_family_clients := c;
        icl_is_max_family_clients_unlimited := d; icl_inherits_max_family_clients := e;
        icl_is_permanent := permanent; icl_is_semi_permanent := semi_permanent |}.

Definition read_channel_moved (t : MessageType) (part : Part) : res Failure InChannelMovedPart :=
  let? order := read t part "order" channel_id_view in
  let? parent := read t part "parent_id" channel_id_view in
  Ok {| icm_order := order; icm_parent_id := parent |}.

Definition read_enter_view (t : MessageType) (part : Part) : res Failure InClientEnterViewPart :=
  let? uid := read t part "uid" uid_view in
  let? typ := read t part "client_type" client_type_view in
  let? is_away := read t part "is_away" bool_view in
  let? message := read t part "away_message" string_view in
  let? time := read t part "talk_power_request_time" time_view in
  let? request := read t part "talk_power_request_message" string_view in
  Ok {| cev_uid := uid; cev_client_type := typ; cev_is_away := is_away; cev_away_message := message;
        cev_talk_power_request_time := time; cev_talk_power_request_message := request |}.

(** The id and the name are read by the client, not by these functions. *)
Definition read_client_updated (id : Z) (t : MessageType) (part : Part) : res Failure InClientUpdatedPart :=
  let? is_away := read t part "is_away" (opt_view bool_view) in
  let? message := read t part "away_message" (opt_view string_view) in
  let? time := read t part "talk_power_request_time" (opt_view time_view) in
  let? request := read t part "talk_power_request_message" (opt_view string_view) in
  let? invoker := read_invoker t part in
  Ok {| cu_client_id := id; cu_name := None; cu_is_away := is_away; cu_away_message := message;
        cu_talk_power_request_time := time; cu_talk_power_request_message := request; cu_invoker := invoker |}.

Definition read_client_moved (id : Z) (t : MessageType) (part : Part) : res Failure InClientMovedPart :=
  let? target := read t part "target_channel_id" channel_id_view in
  Ok {| cm_client_id := id; cm_target_channel_id := target |}.

(** The connected time is read by the client. *)
Definition read_connection_info (t : MessageType) (part : Part) : res Failure InClientConnectionInfoPart :=
  let? id := read t part "client_id" client_id_view in
  let? ip := read t part "ip" (opt_view string_view) in
  let? port := read t part "port" (opt_view u16_view) in
  Ok {| cci_client_id := id; cci_connected_time := None; cci_ip := ip; cci_port := port |}.

(** * The functions *)

Definition run_update (f : UpdateFun) (t : MessageType) (ids : list Value) (part : Part) : St -> res Failure unit * St :=
  match f with
  | VoidFun => fun s => (Ok tt, s)
  | MaxClientsCe =>
      checked (read_key ChannelKey ids) (fun id => checked (read_channel_edited t part) (fun m => run (max_clients_ce_fun id m)))
  | ChannelTypeCe =>
      checked (read_key ChannelKey ids) (fun id => checked (read_channel_edited t part) (fun m => run (channel_type_ce_fun id m)))
  | ChannelOrderCe =>
      checked (read_key ChannelKey ids) (fun id => checked (read_channel_edited t part) (fun m => run (channel_order_ce_fun id m)))
  | ChannelOrderCm =>
      checked (read_key ChannelKey ids) (fun id => checked (read_channel_moved t part) (fun m => run (channel_order_cm_fun id m)))
  | AwayCu =>
      checked (read_key ClientKey ids) (fun id => checked (read_client_updated id t part) (fun m => run (away_cu_fun id m)))
  | TalkPowerCu =>
      checked (read_key ClientKey ids) (fun id => checked (read_client_updated id t part) (fun m => run (talk_power_cu_fun id m)))
  | ChannelSubscribe => checked (read_key ChannelKey ids) (fun id => run (channel_subscribe_fun id))
  | ChannelUnsubscribe => checked (read_key ChannelKey ids) (fun id => run (channel_unsubscribe_fun id))
  | SubscribeChannel =>
      checked (read_key ClientKey ids) (fun id => checked (read_client_moved id t part) (fun m => run (subscribe_channel_fun id m)))
  end.

(** The results of a function as values. *)
Definition result_of {A} (V : View A) (m : bk A) : St -> res Failure (list Value) * St :=
  run (a ← m; mret [to_value V a]).

Definition limits_of (m : bk (option MaxClients * option MaxClients)) : St -> res Failure (list Value) * St :=
  run (x ← m; mret [to_value (opt_view max_clients_view) (fst x); to_value (opt_view max_clients_view) (snd x)]).

(** [Some(None)] is an address that is not known. *)
Definition address_value (o : option (option (IpAddr * Z))) : Value :=
  match o with
  | Some o => VSome (to_value (opt_view socket_addr_view) ((fun x => socket_addr (fst x) (snd x)) <$> o))
  | None => VNone
  end.

Definition run_create (f : CreateFun) (t : MessageType) (part : Part) : St -> res Failure (list Value) * St :=
  match f with
  | ReturnFalse => fun s => (Ok [to_value bool_view false], s)
  | ReturnNone => fun s => (Ok [VNone], s)
  | ReturnSomeNone => fun s => (Ok [VSome VNone], s)
  | MaxClientsCc => checked (read_channel_created t part) (fun m => limits_of (max_clients_cc_fun m))
  | MaxClientsCl => checked (read_channel_list t part) (fun m => limits_of (max_clients_cl_fun m))
  | ChannelTypeCc => checked (read_channel_created t part) (fun m => result_of channel_type_view (channel_type_cc_fun m))
  | ChannelTypeCl => checked (read_channel_list t part) (fun m => result_of channel_type_view (channel_type_cl_fun m))
  | ChannelCodecCc => checked (read_channel_created t part) (fun m => result_of codec_view (channel_codec_cc_fun m))
  | ChannelOrderCc => checked (read_channel_created t part) (fun m => result_of channel_id_view (channel_order_cc_fun m))
  | AwayCev => checked (read_enter_view t part) (fun m => result_of (opt_view string_view) (away_cev_fun m))
  | ClientTypeCev => checked (read_enter_view t part) (fun m => result_of client_type_view (client_type_cev_fun m))
  | TalkPowerCev => checked (read_enter_view t part) (fun m => result_of (opt_view talk_request_view) (talk_power_cev_fun m))
  | AddressFun => checked (read_connection_info t part) (fun m => run (o ← address_fun m; mret [address_value o]))
  end.

#[export] Instance written_store : BookStore := {|
  GBook := Book;
  StoreErr := BookError;
  get_mut := get_mut_obj;
  put := put_obj;
  store_add := add_obj;
  store_remove := remove_obj;
  store_replace := replace_obj;
  update_fun t name ids part :=
    match table update_funs (to_snake_case name) with
    | Some f => run_update f t ids part
    | None => fun s => (Panic, s)
    end;
  create_fun t name part :=
    match table create_funs (to_snake_case name) with
    | Some f => run_create f t part
    | None => fun s => (Panic, s)
    end;
|}.
End stores.
