(* ===== verification/BookStoreSpec.v ===== *)
(** The written functions keep the types of the book and do not panic, for declarations that use
    them with the types they have.  So what the generated handler assumes of its store holds for them:
    for declarations that pass the checks, no command of a peer makes the handler panic, and the book
    keeps its types. *)
From stdpp Require Import strings gmap.
From S2P Require Import Prelude Text Packets Commands InitPackets CryptoLib Crypto Ip IpParse Book Strings Types Declarations Values ValuesSpec Messages MessagesSpec MessagesToBook BookHandler BookTypes BookHandlerSpec BookStores.
#[local] Open Scope Z_scope.

Section spec.
Context `{Floats} `{Times} `{SocketAddrs} `{!ValueEq} `{DeclaredEnums} `{Base64Laws} `{!ValueLaws} `{Heck} `{P256} `{!GeneratedItems}.
Context `{!HashSets} `{HashOrder}.

(** * The check of the declarations

    It refuses what the compiler refuses when the generated code calls the written functions: there
    must be a function, with the ids, the message and the results of its types. *)

Definition has_field (t : MessageType) (f : string * PType) : bool :=
  match list_find (fun a => Field_get_rust_name (at_field a) = byte_str (fst f)) (mt_attributes t) with
  | Some (_, a) => bool_decide (at_opt a = pt_opt (snd f)) && bool_decide (field_shape (at_field a) = Some (pt_shape (snd f)))
  | None => false
  end.

Definition has_all (t : MessageType) (l : list (string * PType)) : bool := forallb (has_field t) l.

Definition limits_fields : list (string * PType) :=
  [("max_clients", view_type (opt_view i32_view)); ("is_max_clients_unlimited", view_type (opt_view bool_view));
   ("max_family_clients", view_type (opt_view i32_view)); ("is_max_family_clients_unlimited", view_type (opt_view bool_view));
   ("inherits_max_family_clients", view_type (opt_view bool_view))]%string.

Definition channel_created_fields : list (string * PType) :=
  [("channel_id", view_type channel_id_view); ("parent_id", view_type channel_id_view); ("order", view_type channel_id_view);
   ("is_permanent", view_type (opt_view bool_view)); ("is_semi_permanent", view_type (opt_view bool_view));
   ("codec", view_type (opt_view codec_view))]%string.

Definition channel_edited_fields : list (string * PType) :=
  [("order", view_type (opt_view channel_id_view)); ("parent_id", view_type (opt_view channel_id_view));
   ("is_permanent", view_type (opt_view bool_view)); ("is_semi_permanent", view_type (opt_view bool_view));
   ("reason", view_type reason_view)]%string.

Definition channel_list_fields : list (string * PType) :=
  [("max_clients", view_type i32_view); ("is_max_clients_unlimited", view_type bool_view);
   ("max_family_clients", view_type i32_view); ("is_max_family_clients_unlimited", view_type bool_view);
   ("inherits_max_family_clients", view_type bool_view);
   ("is_permanent", view_type bool_view); ("is_semi_permanent", view_type bool_view)]%string.

Definition channel_moved_fields : list (string * PType) :=
  [("order", view_type channel_id_view); ("parent_id", view_type channel_id_view)]%string.

Definition enter_view_fields : list (string * PType) :=
  [("uid", view_type uid_view); ("client_type", view_type client_type_view); ("is_away", view_type bool_view);
   ("away_message", view_type string_view); ("talk_power_request_time", view_type time_view);
   ("talk_power_request_message", view_type string_view)]%string.

Definition client_updated_fields : list (string * PType) :=
  [("is_away", view_type (opt_view bool_view)); ("away_message", view_type (opt_view string_view));
   ("talk_power_request_time", view_type (opt_view time_view));
   ("talk_power_request_message", view_type (opt_view string_view))]%string.

Definition connection_info_fields : list (string * PType) :=
  [("client_id", view_type client_id_view); ("ip", view_type (opt_view string_view)); ("port", view_type (opt_view u16_view))]%string.

Definition invoker_fields (t : MessageType) : bool :=
  negb (has_invoker t)
  || has_all t [("invoker_id", {| pt_opt := invoker_optional t; pt_shape := pt_shape (view_type client_id_view) |});
                ("invoker_name", {| pt_opt := invoker_optional t; pt_shape := pt_shape (view_type string_view) |});
                ("invoker_uid", view_type (opt_view uid_view))]%string.

Definition is_message (t : MessageType) (name : string) : bool := bool_decide (m_name (mt_message t) = byte_str name).

Definition update_fits (t : MessageType) (k : Key) (f : UpdateFun) : bool :=
  match f with
  | VoidFun => negb (bool_decide (k = NoKey))
  | MaxClientsCe | ChannelTypeCe | ChannelOrderCe =>
      bool_decide (k = ChannelKey) && is_message t "ChannelEdited" && has_all t limits_fields
      && has_all t channel_edited_fields && invoker_fields t
  | ChannelOrderCm => bool_decide (k = ChannelKey) && is_message t "ChannelMoved" && has_all t channel_moved_fields
  | AwayCu | TalkPowerCu =>
      bool_decide (k = ClientKey) && is_message t "ClientUpdated" && has_all t client_updated_fields && invoker_fields t
  | ChannelSubscribe => bool_decide (k = ChannelKey) && is_message t "ChannelSubscribed"
  | ChannelUnsubscribe => bool_decide (k = ChannelKey) && is_message t "ChannelUnsubscribed"
  | SubscribeChannel =>
      bool_decide (k = ClientKey) && is_message t "ClientMoved" && has_field t ("target_channel_id"%string, view_type channel_id_view)
  end.

Definition create_fits (t : MessageType) (f : CreateFun) : bool :=
  match f with
  | ReturnFalse | ReturnNone | ReturnSomeNone => true
  | MaxClientsCc | ChannelTypeCc | ChannelCodecCc | ChannelOrderCc =>
      is_message t "ChannelCreated" && has_all t limits_fields && has_all t channel_created_fields
  | MaxClientsCl | ChannelTypeCl => is_message t "ChannelList" && has_all t channel_list_fields
  | AwayCev | ClientTypeCev | TalkPowerCev => is_message t "ClientEnterView" && has_all t enter_view_fields
  | AddressFun => is_message t "ClientConnectionInfo" && has_all t connection_info_fields
  end.

(** The type of a result: a value inside of so many options, or only [None] inside of options. *)
Inductive FunType :=
  | Gives (depth : nat) (s : Shape)
  | GivesNone (depth : nat).

Definition create_types (f : CreateFun) : list FunType :=
  match f with
  | ReturnFalse => [Gives 0 (ShOne (byte_str "bool"))]
  | ReturnNone => [GivesNone 0]
  | ReturnSomeNone => [GivesNone 1]
  | MaxClientsCc | MaxClientsCl => [Gives 1 (ShOne (byte_str "MaxClients")); Gives 1 (ShOne (byte_str "MaxClients"))]
  | ChannelTypeCc | ChannelTypeCl => [Gives 0 (ShOne (byte_str "ChannelType"))]
  | ChannelCodecCc => [Gives 0 (ShOne (byte_str "Codec"))]
  | ChannelOrderCc => [Gives 0 (ShOne (byte_str "ChannelId"))]
  | AwayCev => [Gives 1 (ShOne (byte_str "String"))]
  | ClientTypeCev => [Gives 0 (ShOne (byte_str "ClientType"))]
  | TalkPowerCev => [Gives 1 (ShOne (byte_str "TalkPowerRequest"))]
  | AddressFun => [Gives 2 (ShOne (byte_str "SocketAddr"))]
  end.

Definition result_fits (opt : bool) (p : Property) (ft : FunType) : bool :=
  match prop_ptype p with
  | Some pt =>
      let depth := (Nat.b2n opt + Nat.b2n (pt_opt pt))%nat in
      match ft with
      | Gives d s => bool_decide (d = depth) && bool_decide (s = pt_shape pt)
      | GivesNone d => (d <? depth)%nat
      end
  | None => false
  end.

Fixpoint results_fit (opt : bool) (to : list Property) (types : list FunType) : bool :=
  match to, types with
  | [], [] => true
  | p :: to, ft :: types => result_fits opt p ft && results_fit opt to types
  | _, _ => false
  end.

Definition update_rule_ok (t : MessageType) (k : Key) (r : RuleKind) : bool :=
  match r with
  | MapRule _ _ _ => true
  | FunctionRule name _ =>
      match table update_funs (to_snake_case name) with Some f => update_fits t k f | None => false end
  end.

Definition create_rule_ok (t : MessageType) (opt : bool) (r : RuleKind) : bool :=
  match r with
  | MapRule _ _ _ => true
  | FunctionRule name to =>
      match table create_funs (to_snake_case name) with
      | Some f => create_fits t f && results_fit opt to (create_types f)
      | None => false
      end
  end.

(** The ids of an event are those of the functions for the structure. *)
Definition key_ok (t : MessageType) (k : Key) (ids : list Field) : bool :=
  match k, ids with
  | NoKey, [] => true
  | NoKey, _ => false
  | k, [f] =>
      match attribute_for t f with
      | Some a => negb (at_opt a) && bool_decide (field_shape f = Some (pt_shape (view_type (id_view k))))
      | None => false
      end
  | _, _ => false
  end.

(** The fields that the structures of [Book] have. *)
Definition kind_fields (k : Kind) : list (list Z * PType) :=
  match k with
  | KServer => obj_fields (X := Server)
  | KClient => obj_fields (X := Client)
  | KChannel => obj_fields (X := Channel)
  | _ => []
  end.

Definition struct_kind (s : BookStruct) : option Kind := kind_of (st_name s).

Definition struct_for (decls : list Event) (k : Kind) : option BookStruct :=
  ev_book_struct ∘ snd <$> list_find (fun e => struct_kind (ev_book_struct e) = Some k) decls.

Definition can_add (k : Kind) : bool :=
  match k with KClient | KChannel | KChannelGroup | KServerGroup => true | _ => false end.
Definition can_remove (k : Kind) : bool :=
  match k with KClient | KChannel | KOptionalServerData | KOptionalChannelData => true | _ => false end.
Definition can_replace (k : Kind) : bool :=
  match k with
  | KOptionalServerData | KConnectionServerData | KOptionalClientData | KConnectionClientData | KOptionalChannelData => true
  | _ => false
  end.
Definition can_change (k : Kind) : bool := match k with KServer | KClient | KChannel => true | _ => false end.

(** The id of a client is its place in the book. *)
Definition id_declared (s : BookStruct) : bool :=
  match st_id s with
  | [i] => bool_decide (PropId_get_attr_name (PropId_Id i) s = byte_str "id")
  | _ => false
  end.

Definition event_written (b : BookDeclarations) (decls : list Event) (t : MessageType) (e : Event) : bool :=
  let s := ev_book_struct e in
  match struct_kind s with
  | Some k =>
      bool_decide (struct_for decls k = Some s) && struct_ok s && fields_declared b s (kind_fields k)
      && key_ok t (kind_key k) (ev_id e)
      && match ev_op e with
         | Add => can_add k && forallb (create_rule_ok t false) (ev_rules e) && (negb (bool_decide (k = KClient)) || id_declared s)
         | Remove => can_remove k
         | Update =>
             if st_opt s then can_replace k && forallb (create_rule_ok t true) (ev_rules e)
             else (forallb is_function (ev_rules e) || can_change k) && forallb (update_rule_ok t (kind_key k)) (ev_rules e)
                  && bool_decide (byte_str "id" ∉ attr_name <$> targets (ev_rules e))
         end
  | None => false
  end.

Definition written_ok (b : BookDeclarations) (types : list MessageType) (decls : list Event) : bool :=
  forallb (fun t => forallb (event_written b decls t) (message_group decls t)) types.

(** * The invariant of the book *)

Section invariant.
Context (b : BookDeclarations) (decls : list Event).

Definition typed_as (k : Kind) (o : Obj) : Prop := forall s, struct_for decls k = Some s -> obj_typed b s o.

(** The fields have their types, and so have the other attributes. *)
Definition object_as {X} `{!ObjectOf X} (k : Kind) (x : X) : Prop :=
  Forall2 entry_typed (obj_entries x) (obj_fields (X := X)) /\
  forall s, struct_for decls k = Some s -> rest_typed b s (fst <$> obj_fields (X := X)) (obj_rest x).

Definition some_as (k : Kind) (o : option Obj) : Prop := forall d, o = Some d -> typed_as k d.

Definition client_ok (id : Z) (c : Client) : Prop :=
  cl_id c = id /\ object_as KClient c /\ some_as KConnectionClientData (cl_connection_data c) /\
  some_as KOptionalClientData (cl_optional_data c).

Definition channel_ok (c : Channel) : Prop := object_as KChannel c /\ some_as KOptionalChannelData (ch_optional_data c).

Definition server_ok (s : Server) : Prop :=
  object_as KServer s /\ some_as KOptionalServerData (sv_optional_data s) /\ some_as KConnectionServerData (sv_connection_data s).

(** Every structure has its types, and every client is found by its id. *)
Definition book_typed (k : Book) : Prop :=
  server_ok (server k) /\
  map_Forall client_ok (clients k) /\
  map_Forall (fun _ => channel_ok) (channels k) /\
  map_Forall (fun _ => typed_as KChannelGroup) (channel_groups k) /\
  map_Forall (fun _ => typed_as KServerGroup) (server_groups k).

(** * Computations on the book *)

(** A function keeps the types of the book, whether it fails or not, and does not panic. *)
Definition bkeeps {A} (P : A -> Prop) (m : bk A) : Prop :=
  forall s, book_typed (fst s) -> let '(r, s') := m s in book_typed (fst s') /\ safe P r.

Lemma bkeeps_ret {A} (P : A -> Prop) a : P a -> bkeeps P (mret a).
Proof. intros Ha s Hs. by split. Qed.

Lemma bkeeps_fail {A} (P : A -> Prop) err : bkeeps P (fail err).
Proof. intros s Hs. by split. Qed.

Lemma bkeeps_push e : bkeeps (fun _ => True) (push e).
Proof. intros s Hs. by split. Qed.

Lemma bkeeps_bind {A B} (P : A -> Prop) (Q : B -> Prop) (m : bk A) (k : A -> bk B) :
  bkeeps P m -> (forall a, P a -> bkeeps Q (k a)) -> bkeeps Q (m ≫= k).
Proof.
  intros Hm Hk s Hs. unfold mbind, bk_bind. specialize (Hm s Hs). destruct (m s) as [[a|err|] s'].
  - destruct Hm as [Hs' Ha]. apply (Hk a Ha s' Hs').
  - destruct Hm as [Hs' _]. by split.
  - by destruct Hm.
Qed.

Lemma bkeeps_weaken {A} (P Q : A -> Prop) m : bkeeps P m -> (forall a, P a -> Q a) -> bkeeps Q m.
Proof.
  intros Hm HPQ s Hs. specialize (Hm s Hs). destruct (m s) as [r s']. destruct Hm as [Hs' Hr]. split; [done|].
  by eapply safe_weaken.
Qed.

Lemma bkeeps_get : bkeeps book_typed get_book.
Proof. intros s Hs. by split. Qed.

Lemma bkeeps_modify f : (forall k, book_typed k -> book_typed (f k)) -> bkeeps (fun _ => True) (modify f).
Proof. intros Hf s Hs. split; [by apply Hf|done]. Qed.

(** A structure is looked up, or the function fails. *)
Lemma bkeeps_lookup {A} (f : Book -> option A) err (P : A -> Prop) : (forall k a, book_typed k -> f k = Some a -> P a) ->
  bkeeps P (b ← get_book; from_option_or (f b) err).
Proof.
  intros Hf. eapply bkeeps_bind; [apply bkeeps_get|]. intros k Hk. unfold from_option_or.
  destruct (f k) as [a|] eqn:Ha; [apply bkeeps_ret; by eapply Hf|apply bkeeps_fail].
Qed.

Lemma set_clients_typed f k : (map_Forall client_ok (clients k) -> map_Forall client_ok (f (clients k))) ->
  book_typed k -> book_typed (set_clients f k).
Proof. intros Hf (Hs & Hc & Hrest). split; [done|]. split; [by apply Hf|done]. Qed.

Lemma set_channels_typed f k :
  (map_Forall (fun _ => channel_ok) (channels k) -> map_Forall (fun _ => channel_ok) (f (channels k))) ->
  book_typed k -> book_typed (set_channels f k).
Proof. intros Hf (Hs & Hc & Hch & Hrest). split_and!; try done; [by apply Hf|..]; apply Hrest. Qed.

Lemma put_client_keeps id c : client_ok id c -> bkeeps (fun _ => True) (put_client id c).
Proof. intros Hc. apply bkeeps_modify. intros k. apply set_clients_typed. by apply map_Forall_insert_2. Qed.

Lemma put_channel_keeps id c : channel_ok c -> bkeeps (fun _ => True) (put_channel id c).
Proof. intros Hc. apply bkeeps_modify. intros k. apply set_channels_typed. by apply map_Forall_insert_2. Qed.

Lemma get_client_keeps id : bkeeps (client_ok id) (get_client id).
Proof. apply bkeeps_lookup. intros k c (_ & Hc & _) Hl. exact (Hc id c Hl). Qed.

Lemma get_channel_keeps id : bkeeps channel_ok (get_channel id).
Proof. apply bkeeps_lookup. intros k c (_ & _ & Hc & _) Hl. exact (Hc id c Hl). Qed.

(** ** Fields *)

(** A value that a view writes has its type. *)
Definition fits {A} (V : View A) (a : A) : Prop := ptype_typed (view_type V) (to_value V a).

(** The attributes that a function changes have their types, and the others stay. *)
Ltac fields_typed :=
  let Hc := fresh "Hc" in let Hr := fresh "Hr" in
  intros [Hc Hr]; split; [|exact Hr];
  cbn [obj_entries obj_fields client_object channel_object server_object] in *;
  repeat (let H1 := fresh in apply Forall2_cons in Hc as [H1 Hc]; apply Forall2_cons; split; [first [exact H1|split; [reflexivity|assumption]]|]);
  constructor.

Lemma with_order_as k c o : fits channel_id_view o -> object_as k c -> object_as k (with_order c o).
Proof. intros Ho. fields_typed. Qed.

Lemma with_type_as k c t : object_as k c -> object_as k (with_type c t).
Proof. fields_typed. Qed.

Lemma with_limits_as k c m f : fits (opt_view max_clients_view) m -> fits (opt_view max_clients_view) f ->
  object_as k c -> object_as k (with_limits c m f).
Proof. intros Hm Hf. fields_typed. Qed.

Lemma with_subscribed_as k c s : object_as k c -> object_as k (with_subscribed c s).
Proof. fields_typed. Qed.

Lemma with_channel_data_as k c d : object_as k c -> object_as k (with_channel_data c d).
Proof. fields_typed. Qed.

Lemma with_away_as k c away : fits (opt_view string_view) away -> object_as k c -> object_as k (with_away c away).
Proof. intros Ha. fields_typed. Qed.

Lemma with_talk_request_as k c t : fits (opt_view talk_request_view) t -> object_as k c -> object_as k (with_talk_request c t).
Proof. intros Ht. fields_typed. Qed.

Lemma with_client_data_as k c d o : object_as k c -> object_as k (with_client_data c d o).
Proof. fields_typed. Qed.

Lemma with_server_data_as k s d o : object_as k s -> object_as k (with_server_data s d o).
Proof. fields_typed. Qed.

Lemma fits_limits m : fits (opt_view max_clients_view) m.
Proof. by destruct m. Qed.
Lemma fits_channel_type t : fits channel_type_view t.
Proof. done. Qed.
Lemma fits_talk_request t : fits (opt_view talk_request_view) t.
Proof. by destruct t. Qed.
Lemma fits_bool x : fits bool_view x.
Proof. by repeat (exists [] || split). Qed.

Lemma fits_some {A} (V : View A) {HV : PlainView V} a : fits V a -> fits (opt_view V) (Some a).
Proof. unfold fits, ptype_typed. by rewrite (plain_view (V := V)). Qed.

Lemma fits_opt {A} (V : View A) {HV : PlainView V} a : fits (opt_view V) (Some a) -> fits V a.
Proof. unfold fits, ptype_typed. by rewrite (plain_view (V := V)). Qed.

Lemma fits_none {A} (V : View A) : fits (opt_view V) None.
Proof. done. Qed.

(** The order of a channel. *)
Lemma channel_order_fits c : channel_ok c -> fits channel_id_view (ch_id c) /\ fits channel_id_view (ch_parent c) /\ fits channel_id_view (ch_order c).
Proof.
  intros [[Hc _] _]. cbn [obj_entries obj_fields channel_object] in Hc.
  apply Forall2_cons in Hc as [[_ Hid] Hc]. apply Forall2_cons in Hc as [[_ Hp] Hc]. by apply Forall2_cons in Hc as [[_ Ho] _].
Qed.

(** * The functions *)

Lemma some_none k : some_as k None.
Proof. done. Qed.

Lemma reorder_first_keeps p order : HashOrderLaws -> fits channel_id_view order ->
  bkeeps (fun _ => True) (reorder_first p order).
Proof.
  intros Hlaws Ho. eapply bkeeps_bind; [apply bkeeps_get|]. intros k Hk.
  destruct (list_find _ _) as [[i [id c]]|] eqn:Hf; [|by apply bkeeps_ret].
  eapply bkeeps_bind; [apply bkeeps_push|]. intros _ _. apply put_channel_keeps.
  apply list_find_Some in Hf as (Hl & _ & _). apply list_elem_of_lookup_2 in Hl.
  rewrite (iter_entries Channel (channels k)), elem_of_map_to_list in Hl.
  destruct Hk as (_ & _ & Hch & _). destruct (Hch id c Hl) as [Hc Hd]. split; [by apply with_order_as|exact Hd].
Qed.

Lemma channel_order_remove_keeps id order : HashOrderLaws -> fits channel_id_view order ->
  bkeeps (fun _ => True) (channel_order_remove id order).
Proof. intros Hl Ho. by apply reorder_first_keeps. Qed.

Lemma channel_order_insert_keeps id order parent : HashOrderLaws -> fits channel_id_view id ->
  bkeeps (fun _ => True) (channel_order_insert id order parent).
Proof. intros Hl Ho. by apply reorder_first_keeps. Qed.

Lemma channel_order_move_keeps id order parent : HashOrderLaws -> fits channel_id_view id ->
  fits (opt_view channel_id_view) order -> bkeeps (fun _ => True) (channel_order_move_fun id order parent).
Proof.
  intros Hl Hid Ho. unfold channel_order_move_fun. destruct (_ || _); [|by apply bkeeps_ret].
  eapply bkeeps_bind; [apply get_channel_keeps|]. intros c Hc. destruct (channel_order_fits c Hc) as (_ & _ & Hco).
  eapply (bkeeps_bind (fun _ => True)).
  { destruct order as [o|]; [|by apply bkeeps_ret]. eapply bkeeps_bind; [apply bkeeps_push|]. intros _ _.
    apply put_channel_keeps. destruct Hc as [Hc Hd]. split; [|exact Hd]. apply with_order_as; [by apply fits_opt in Ho|done]. }
  intros _ _. eapply bkeeps_bind; [by apply channel_order_remove_keeps|]. intros _ _. by apply channel_order_insert_keeps.
Qed.

Lemma set_subscribed_keeps id c s : channel_ok c -> bkeeps (fun _ => True) (set_subscribed id c s).
Proof.
  intros [Hc Hd]. eapply bkeeps_bind; [apply bkeeps_push|]. intros _ _. apply put_channel_keeps.
  split; [by apply with_subscribed_as|exact Hd].
Qed.

Lemma max_clients_ce_keeps id m : bkeeps (fun _ => True) (max_clients_ce_fun id m).
Proof.
  eapply bkeeps_bind; [apply get_channel_keeps|]. intros c Hc. eapply (bkeeps_bind channel_ok).
  - destruct (max_clients _) as [l|]; [|by apply bkeeps_ret]. eapply bkeeps_bind; [apply bkeeps_push|]. intros _ _.
    assert (channel_ok (with_limits c (Some l) (ch_max_family_clients c))) as Hc'
      by (destruct Hc as [Hc Hd]; split; [apply with_limits_as; auto using fits_limits|exact Hd]).
    eapply bkeeps_bind; [by apply put_channel_keeps|]. intros _ _. by apply bkeeps_ret.
  - intros c' [Hc' Hd]. destruct (max_family_clients _) as [l|]; [|by apply bkeeps_ret].
    eapply bkeeps_bind; [apply bkeeps_push|]. intros _ _. apply put_channel_keeps.
    split; [apply with_limits_as; auto using fits_limits|exact Hd].
Qed.

Lemma channel_type_ce_keeps id m : bkeeps (fun _ => True) (channel_type_ce_fun id m).
Proof.
  eapply bkeeps_bind; [apply get_channel_keeps|]. intros c [Hc Hd]. destruct (_ && _); [by apply bkeeps_ret|].
  eapply bkeeps_bind; [apply bkeeps_push|]. intros _ _. apply put_channel_keeps. split; [by apply with_type_as|exact Hd].
Qed.

Lemma set_away_keeps id c i away : client_ok id c -> fits (opt_view string_view) away ->
  bkeeps (fun _ => True) (set_away id c i away).
Proof.
  intros (Hid & Hc & Hd) Ha. eapply bkeeps_bind; [apply bkeeps_push|]. intros _ _. apply put_client_keeps.
  split; [exact Hid|]. split; [by apply with_away_as|exact Hd].
Qed.

Lemma fits_empty : fits string_view [].
Proof. by repeat (exists [] || split). Qed.

Lemma fits_default o : fits (opt_view string_view) o -> fits string_view (default [] o).
Proof. destruct o; [apply (fits_opt string_view)|intros _; apply fits_empty]. Qed.

Lemma away_cu_keeps id m : fits (opt_view string_view) (cu_away_message m) -> bkeeps (fun _ => True) (away_cu_fun id m).
Proof.
  intros Hm. eapply bkeeps_bind; [apply get_client_keeps|]. intros c Hc. destruct (cu_is_away m) as [[]|].
  - destruct (negb _); [|by apply bkeeps_ret]. apply set_away_keeps; [done|]. by apply fits_some, fits_default.
  - destruct (negb _); [|by apply bkeeps_ret]. by apply set_away_keeps.
  - destruct (cu_away_message m) as [a|]; [|by apply bkeeps_ret]. destruct (cl_away_message c); [|by apply bkeeps_ret].
    destruct (bool_decide _); [by apply bkeeps_ret|by apply set_away_keeps].
Qed.

Lemma talk_power_cu_keeps id m : bkeeps (fun _ => True) (talk_power_cu_fun id m).
Proof.
  unfold talk_power_cu_fun. destruct (cu_talk_power_request_time m); [|by apply bkeeps_ret].
  eapply bkeeps_bind; [apply get_client_keeps|]. intros c (Hid & Hc & Hd).
  eapply bkeeps_bind; [apply bkeeps_push|]. intros _ _. apply put_client_keeps.
  split; [exact Hid|]. split; [apply with_talk_request_as; [apply fits_talk_request|done]|exact Hd].
Qed.

Lemma channel_subscribe_keeps id : bkeeps (fun _ => True) (channel_subscribe_fun id).
Proof. eapply bkeeps_bind; [apply get_channel_keeps|]. intros c Hc. by apply set_subscribed_keeps. Qed.

Lemma subscribe_channel_keeps id m : bkeeps (fun _ => True) (subscribe_channel_fun id m).
Proof.
  eapply bkeeps_bind; [apply bkeeps_get|]. intros k _. destruct (_ && _); [|by apply bkeeps_ret].
  eapply bkeeps_bind; [apply get_channel_keeps|]. intros c Hc. by apply set_subscribed_keeps.
Qed.

(** The clients to remove are in the book, each of them once. *)
Lemma remove_clients_keeps ids : forall s, book_typed (fst s) -> NoDup ids ->
  Forall (fun id => is_Some (clients (fst s) !! id)) ids ->
  let '(r, s') := remove_clients ids s in book_typed (fst s') /\ safe (fun _ => True) r.
Proof.
  induction ids as [|id ids IH]; intros [k evs] Hk Hnd Hall; [by split|]. apply NoDup_cons in Hnd as [Hid Hnd].
  apply Forall_cons in Hall as [[c Hc] Hall]. cbn [fst] in *.
  change (remove_clients (id :: ids) (k, evs)) with
    ((match clients k !! id with
      | Some c => push (PropertyRemoved (PropClient id) (ValClient c) None None);; remove_clients ids
      | None => bk_panic
      end) (set_clients (delete id) k, evs)). rewrite Hc.
  unfold mbind, bk_bind, push. cbn [fst snd]. apply IH; [|done|].
  - apply set_clients_typed; [apply map_Forall_delete|done].
  - rewrite Forall_forall in Hall |- *. intros id' Hin. cbn. rewrite lookup_delete_ne; [by apply Hall|].
    by intros ->.
Qed.

Lemma client_ids_nodup k : HashOrderLaws -> map_Forall client_ok (clients k) -> 
  cl_id <$> (iter Client (clients k)).*2 = (iter Client (clients k)).*1 /\ NoDup (iter Client (clients k)).*1.
Proof.
  intros Hl Hc. split.
  - rewrite <- list_fmap_compose. apply list_fmap_ext. intros i [id c] Hin. apply list_elem_of_lookup_2 in Hin.
    rewrite (iter_entries Client (clients k)), elem_of_map_to_list in Hin. by destruct (Hc id c Hin).
  - rewrite (iter_entries Client (clients k)). apply NoDup_fst_map_to_list.
Qed.

Lemma channel_unsubscribe_keeps id : HashOrderLaws -> bkeeps (fun _ => True) (channel_unsubscribe_fun id).
Proof.
  intros Hl. eapply bkeeps_bind; [apply get_channel_keeps|]. intros c Hc.
  eapply bkeeps_bind; [by apply set_subscribed_keeps|]. intros _ _ [k evs] Hk. cbn [fst] in Hk.
  pose proof Hk as (_ & Hcl & _). destruct (client_ids_nodup k Hl Hcl) as [Hids Hnd].
  apply remove_clients_keeps; [done| |].
  - assert (sublist (cl_id <$> filter (fun c => cl_channel c = id) (iter Client (clients k)).*2) (iter Client (clients k)).*1) as Hsub
      by (rewrite <- Hids; apply fmap_sublist, sublist_filter).
    by eapply sublist_NoDup.
  - apply Forall_fmap, Forall_forall. intros c' [_ Hin]%list_elem_of_filter. cbn [compose].
    apply list_elem_of_fmap in Hin as ([id' c''] & -> & Hin). cbn in *.
    rewrite (iter_entries Client (clients k)), elem_of_map_to_list in Hin. destruct (Hcl id' c'' Hin) as [-> _]. by exists c''.
Qed.

(** ** Lookup and replacement *)

Lemma add_client_keeps id c : client_ok id c -> bkeeps (fun _ => True) (add_client id c).
Proof.
  intros Hc. eapply bkeeps_bind; [apply bkeeps_get|]. intros k _.
  eapply bkeeps_bind; [by apply put_client_keeps|]. intros _ _. by apply bkeeps_ret.
Qed.

Lemma remove_client_keeps id : bkeeps (fun _ => True) (remove_client id).
Proof.
  eapply bkeeps_bind; [apply bkeeps_get|]. intros k _. eapply bkeeps_bind; [|intros _ _; by apply bkeeps_ret].
  apply bkeeps_modify. intros k'. apply set_clients_typed. apply map_Forall_delete.
Qed.

Lemma add_channel_keeps id c : HashOrderLaws -> channel_ok c -> bkeeps (fun _ => True) (add_channel id c).
Proof.
  intros Hl Hc. destruct (channel_order_fits c Hc) as (Hid & _ & _).
  eapply bkeeps_bind; [by apply channel_order_insert_keeps|]. intros _ _.
  eapply bkeeps_bind; [apply bkeeps_get|]. intros k _.
  eapply bkeeps_bind; [by apply put_channel_keeps|]. intros _ _. by apply bkeeps_ret.
Qed.

Lemma remove_channel_keeps id : HashOrderLaws -> bkeeps (fun _ => True) (remove_channel id).
Proof.
  intros Hl. eapply bkeeps_bind; [apply bkeeps_get|]. intros k Hk. eapply (bkeeps_bind (fun _ => True)).
  { apply bkeeps_modify. intros k'. apply set_channels_typed. apply map_Forall_delete. }
  intros _ _. destruct (channels k !! id) as [c|] eqn:Hc; [|by apply bkeeps_ret].
  destruct Hk as (_ & _ & Hch & _). destruct (channel_order_fits c (Hch id c Hc)) as (_ & _ & Ho).
  eapply bkeeps_bind; [by apply channel_order_remove_keeps|]. intros _ _. by apply bkeeps_ret.
Qed.

Lemma add_channel_group_keeps id r : typed_as KChannelGroup r -> bkeeps (fun _ => True) (add_channel_group id r).
Proof.
  intros Hr. eapply bkeeps_bind; [apply bkeeps_get|]. intros k _. eapply bkeeps_bind; [|intros _ _; by apply bkeeps_ret].
  apply bkeeps_modify. intros k' (Hs & Hc & Hch & Hg & Hsg). split_and!; try done. by apply map_Forall_insert_2.
Qed.

Lemma add_server_group_keeps id r : typed_as KServerGroup r -> bkeeps (fun _ => True) (add_server_group id r).
Proof.
  intros Hr. eapply bkeeps_bind; [apply bkeeps_get|]. intros k _. eapply bkeeps_bind; [|intros _ _; by apply bkeeps_ret].
  apply bkeeps_modify. intros k' (Hs & Hc & Hch & Hg & Hsg). split_and!; try done. by apply map_Forall_insert_2.
Qed.

(** The server gets other structures. *)
Lemma set_server_keeps (f : Book -> option Obj * option Obj) :
  (forall k, book_typed k -> some_as KOptionalServerData (fst (f k)) /\ some_as KConnectionServerData (snd (f k))) ->
  bkeeps (fun _ => True)
    (b ← get_book; modify (set_server (with_server_data (server b) (fst (f b)) (snd (f b))));; mret (sv_optional_data (server b))) /\
  bkeeps (fun _ => True)
    (b ← get_book; modify (set_server (with_server_data (server b) (fst (f b)) (snd (f b))));; mret (sv_connection_data (server b))).
Proof.
  intros Hf. split; (eapply bkeeps_bind; [apply bkeeps_get|]; intros k Hk; eapply bkeeps_bind; [|intros _ _; by apply bkeeps_ret];
    apply bkeeps_modify; intros k' Hk'; destruct (Hf k Hk) as [Ho Hc]; destruct Hk as ((Hs & _) & _), Hk' as (_ & Hrest);
    split; [|exact Hrest]; split; [by apply with_server_data_as|by split]).
Qed.

Lemma replace_optional_server_keeps r : typed_as KOptionalServerData r -> bkeeps (fun _ => True) (replace_optional_server_data r).
Proof.
  intros Hr. apply (set_server_keeps (fun b => (Some r, sv_connection_data (server b)))).
  intros k ((_ & _ & Hc) & _). split; [by intros d [= <-]|exact Hc].
Qed.

Lemma remove_optional_server_keeps : bkeeps (fun _ => True) remove_optional_server_data.
Proof.
  apply (set_server_keeps (fun b => (None, sv_connection_data (server b)))). intros k ((_ & _ & Hc) & _). by split.
Qed.

Lemma replace_connection_server_keeps r : typed_as KConnectionServerData r -> bkeeps (fun _ => True) (replace_connection_server_data r).
Proof.
  intros Hr. apply (set_server_keeps (fun b => (sv_optional_data (server b), Some r))).
  intros k ((_ & Ho & _) & _). split; [exact Ho|by intros d [= <-]].
Qed.

Lemma replace_connection_client_keeps id r : typed_as KConnectionClientData r ->
  bkeeps (fun _ => True) (replace_connection_client_data id r).
Proof.
  intros Hr. eapply bkeeps_bind; [apply get_client_keeps|]. intros c (Hid & Hc & Hd & Ho).
  eapply bkeeps_bind; [|intros _ _; by apply bkeeps_ret]. apply put_client_keeps.
  split; [exact Hid|]. split; [by apply with_client_data_as|]. split; [by intros d [= <-]|exact Ho].
Qed.

Lemma replace_optional_client_keeps id r : typed_as KOptionalClientData r ->
  bkeeps (fun _ => True) (replace_optional_client_data id r).
Proof.
  intros Hr. eapply bkeeps_bind; [apply get_client_keeps|]. intros c (Hid & Hc & Hd & Ho).
  eapply bkeeps_bind; [|intros _ _; by apply bkeeps_ret]. apply put_client_keeps.
  split; [exact Hid|]. split; [by apply with_client_data_as|]. split; [exact Hd|by intros d [= <-]].
Qed.

Lemma set_channel_data_keeps id d : some_as KOptionalChannelData d ->
  bkeeps (fun _ => True) (c ← get_channel id; put_channel id (with_channel_data c d);; mret (ch_optional_data c)).
Proof.
  intros Hd. eapply bkeeps_bind; [apply get_channel_keeps|]. intros c [Hc _].
  eapply bkeeps_bind; [|intros _ _; by apply bkeeps_ret]. apply put_channel_keeps.
  split; [by apply with_channel_data_as|exact Hd].
Qed.

(** * The store *)

Definition skeeps {A} (P : A -> Prop) (m : St -> res Failure A * St) : Prop :=
  forall s, book_typed (fst s) -> let '(r, s') := m s in book_typed (fst s') /\ safe P r.

Lemma run_keeps {A} (P : A -> Prop) (m : bk A) : bkeeps P m -> skeeps P (run m).
Proof.
  intros Hm [k evs] Hk. unfold run. cbn [fst snd]. specialize (Hm (k, []) Hk). destruct (m (k, [])) as [r [k' new]].
  destruct Hm as [Hk' Hr]. split; [exact Hk'|]. by destruct r.
Qed.

Lemma run_old_keeps {X} `{!ObjectOf X} (m : bk (option X)) : bkeeps (fun _ => True) m -> skeeps (fun _ => True) (run (old_obj m)).
Proof.
  intros Hm. apply run_keeps. eapply bkeeps_bind; [exact Hm|]. intros o _. by apply bkeeps_ret.
Qed.

Lemma checked_keeps {A B} (P : A -> Prop) (Q : B -> Prop) a (k : A -> St -> res Failure B * St) :
  safe P a -> (forall x, P x -> skeeps Q (k x)) -> skeeps Q (checked a k).
Proof. intros Ha Hk s Hs. unfold checked. destruct a as [a|e|]; [by apply Hk|by split|done]. Qed.

End invariant.

(** * Parts of messages *)

Section parts.
Context (t : MessageType) (part : Part) (Hknown : known t) (Hpart : part_typed t part).

Lemma has_field_typed {E} name pt : has_field t (name, pt) = true ->
  safe (E := E) (ptype_typed pt) (m_named t part name).
Proof using Hknown Hpart.
  unfold has_field. cbn [fst snd]. destruct (list_find _ (mt_attributes t)) as [[i a]|] eqn:Hf; [|done].
  rewrite andb_true_iff, !bool_decide_eq_true. intros [Hopt Hs].
  destruct (m_attribute_typed (E := E) _ t part i a Hknown Hpart Hf) as (s & Hs' & Hm).
  eapply safe_weaken; [exact Hm|]. destruct pt as [o s'']. cbn in *. intros v Hv.
  assert (s = s'') as -> by congruence. by rewrite <- Hopt.
Qed.

Lemma of_value_safe {A} (V : View A) {HV : IsView V} v : ptype_typed (view_type V) v ->
  safe (E := Failure) (fits V) (unwrap (of_value V v)).
Proof. intros Hv. destruct (view_reads v Hv) as (a & -> & <-). exact Hv. Qed.

Lemma read_safe {A} name (V : View A) {HV : IsView V} : has_field t (name, view_type V) = true ->
  safe (fits V) (read t part name V).
Proof using Hknown Hpart.
  intros Hf. eapply safe_bind; [by apply has_field_typed|]. intros v Hv. by apply of_value_safe.
Qed.

(** Field after field. *)
Ltac has_all Hf := unfold has_all in Hf; cbn [forallb] in Hf; rewrite ?andb_true_iff in Hf.
Ltac read_next := eapply safe_bind; [apply read_safe; [apply _|tauto]|intros ? ?].

Lemma read_limits_safe : has_all t limits_fields = true -> safe (fun _ => True) (read_limits t part).
Proof using Hknown Hpart. intros Hf. unfold limits_fields in Hf. has_all Hf. unfold read_limits. repeat read_next. done. Qed.

Lemma read_invoker_safe : invoker_fields t = true -> safe (fun _ => True) (read_invoker t part).
Proof using Hknown Hpart.
  unfold invoker_fields, read_invoker, part_invoker. destruct (has_invoker t); [|done]. cbn [negb orb].
  intros Hf. has_all Hf. destruct Hf as (Hid & Hname & Huid & _).
  eapply (safe_bind (fun i => match i with
    | Some i => ptype_typed (view_type client_id_view) (gi_id i) /\ ptype_typed (view_type string_view) (gi_name i) /\
                ptype_typed (view_type (opt_view uid_view)) (gi_uid i)
    | None => True
    end)).
  - eapply safe_bind; [by apply has_field_typed|]. intros id Hvid. eapply safe_bind; [by apply has_field_typed|]. intros name Hvname.
    eapply safe_bind; [by apply has_field_typed|]. intros uid Hvuid. unfold ptype_typed in *.
    destruct (invoker_optional t); cbn [pt_opt pt_shape view_type opt_view] in *.
    + by destruct uid, id, name.
    + assert (is_option uid = true) as -> by (by destruct uid). cbn [negb].
      assert (is_option id = false /\ is_option name = false) as [-> ->] by (split; [by destruct id|by destruct name]). done.
  - intros [i|]; [|done]. intros (Hi & Hn & Hu).
    eapply safe_bind; [by apply (of_value_safe client_id_view)|]. intros ? _.
    eapply safe_bind; [by apply (of_value_safe string_view)|]. intros ? _.
    eapply safe_bind; [by apply (of_value_safe (opt_view uid_view))|]. done.
Qed.

Lemma read_channel_created_safe : has_all t limits_fields = true -> has_all t channel_created_fields = true ->
  safe (fun m => fits channel_id_view (icc_channel_id m) /\ fits channel_id_view (icc_order m) /\
    fits (opt_view codec_view) (icc_codec m)) (read_channel_created t part).
Proof using Hknown Hpart.
  intros Hl Hf. unfold channel_created_fields in Hf. has_all Hf. unfold read_channel_created. do 3 read_next.
  eapply safe_bind; [by apply read_limits_safe|]. intros ? _. do 3 read_next. by split_and!.
Qed.

Lemma read_channel_edited_safe : has_all t limits_fields = true -> has_all t channel_edited_fields = true ->
  invoker_fields t = true -> safe (fun m => fits (opt_view channel_id_view) (ice_order m)) (read_channel_edited t part).
Proof using Hknown Hpart.
  intros Hl Hf Hi. unfold channel_edited_fields in Hf. has_all Hf. unfold read_channel_edited. do 2 read_next.
  eapply safe_bind; [by apply read_limits_safe|]. intros ? _. do 3 read_next.
  eapply safe_bind; [by apply read_invoker_safe|]. done.
Qed.

Lemma read_channel_list_safe : has_all t channel_list_fields = true -> safe (fun _ => True) (read_channel_list t part).
Proof using Hknown Hpart.
  intros Hf. unfold channel_list_fields in Hf. has_all Hf. unfold read_channel_list. repeat read_next. done.
Qed.

Lemma read_channel_moved_safe : has_all t channel_moved_fields = true ->
  safe (fun m => fits channel_id_view (icm_order m)) (read_channel_moved t part).
Proof using Hknown Hpart.
  intros Hf. unfold channel_moved_fields in Hf. has_all Hf. unfold read_channel_moved. repeat read_next. done.
Qed.

Lemma read_enter_view_safe : has_all t enter_view_fields = true ->
  safe (fun m => fits string_view (cev_away_message m)) (read_enter_view t part).
Proof using Hknown Hpart.
  intros Hf. unfold enter_view_fields in Hf. has_all Hf. unfold read_enter_view. repeat read_next. done.
Qed.

Lemma read_client_updated_safe id : has_all t client_updated_fields = true -> invoker_fields t = true ->
  safe (fun m => fits (opt_view string_view) (cu_away_message m)) (read_client_updated id t part).
Proof using Hknown Hpart.
  intros Hf Hi. unfold client_updated_fields in Hf. has_all Hf. unfold read_client_updated. do 4 read_next.
  eapply safe_bind; [by apply read_invoker_safe|]. done.
Qed.

Lemma read_client_moved_safe id : has_field t ("target_channel_id"%string, view_type channel_id_view) = true ->
  safe (fun _ => True) (read_client_moved id t part).
Proof using Hknown Hpart. intros Hf. unfold read_client_moved. by read_next. Qed.

Lemma read_connection_info_safe : has_all t connection_info_fields = true -> safe (fun _ => True) (read_connection_info t part).
Proof using Hknown Hpart.
  intros Hf. unfold connection_info_fields in Hf. has_all Hf. unfold read_connection_info. repeat read_next. done.
Qed.

(** The ids of an event are an id of their type. *)
Lemma read_key_safe e ids k : key_ok t k (ev_id e) = true -> event_ids t e part = Ok ids ->
  safe (fun z => k <> NoKey -> fits (id_view k) z /\ ids = [to_value (id_view k) z]) (read_key k ids).
Proof using Hknown Hpart.
  unfold key_ok, event_ids. intros Hk Hids. destruct (decide (k = NoKey)) as [->|Hn].
  - destruct (ev_id e); [|done]. by injection Hids as <-.
  - assert (exists f, ev_id e = [f]) as [f Hf] by (destruct k, (ev_id e) as [|f []]; try done; by exists f).
    rewrite Hf in Hk, Hids. assert (exists a, attribute_for t f = Some a /\ at_opt a = false /\
      field_shape f = Some (pt_shape (view_type (id_view k)))) as (a & Ha & Ho & Hs).
    { destruct k; [done|..]; (destruct (attribute_for t f) as [a|]; [|done]); rewrite andb_true_iff, negb_true_iff, bool_decide_eq_true in Hk;
        destruct Hk; by exists a. }
    destruct (m_field_typed (E := HandlerError StoreErr) t part f a Hknown Hpart Ha) as (s & Hs' & Hm). cbn [res_mapM] in Hids.
    destruct (m_field t part f) as [v| |]; [|done..]. injection Hids as <-. cbn [safe] in Hm.
    assert (s = pt_shape (view_type (id_view k))) as -> by congruence. rewrite Ho in Hm.
    assert (ptype_typed (view_type (id_view k)) v) as Hv by (by destruct k).
    assert (IsView (id_view k)) as HV by (destruct k; apply _).
    destruct (view_reads v Hv) as (z & Hz & <-).
    assert (read_key k [to_value (id_view k) z] = unwrap (of_value (id_view k) (to_value (id_view k) z))) as -> by (by destruct k).
    rewrite Hz. cbn. intros _. by split.
Qed.

End parts.
(** * The functions that rules name *)

Section functions.
Context (b : BookDeclarations) (decls : list Event).
Context (t : MessageType) (e : Event) (part : Part) (Hknown : known t) (Hpart : part_typed t part).
Context {Horder : HashOrderLaws} {Hitems : GeneratedItemsLaws}.

Lemma run_update_keeps f k ids : key_ok t k (ev_id e) = true -> event_ids t e part = Ok ids -> update_fits t k f = true ->
  skeeps b decls (fun _ => True) (run_update f t ids part).
Proof using Hknown Hpart Horder.
  intros Hk Hids Hf. pose proof (read_key_safe t part Hknown Hpart e ids k Hk Hids) as Hkey.
  destruct f; cbn [update_fits run_update] in *; [by intros s Hs|..]; rewrite ?andb_true_iff, bool_decide_eq_true in Hf;
    destruct_and?; subst k; (eapply checked_keeps; [exact Hkey|]); intros id Hid; destruct (Hid ltac:(done)) as [Hfit _].
  - eapply checked_keeps; [by apply read_channel_edited_safe|]. intros m Hm. by apply run_keeps, max_clients_ce_keeps.
  - eapply checked_keeps; [by apply read_channel_edited_safe|]. intros m Hm. by apply run_keeps, channel_type_ce_keeps.
  - eapply checked_keeps; [by apply read_channel_edited_safe|]. intros m Hm. by apply run_keeps, channel_order_move_keeps.
  - eapply checked_keeps; [by apply read_channel_moved_safe|]. intros m Hm. apply run_keeps, channel_order_move_keeps; [done|done|].
    by apply (fits_some channel_id_view).
  - eapply checked_keeps; [by apply read_client_updated_safe|]. intros m Hm. by apply run_keeps, away_cu_keeps.
  - eapply checked_keeps; [by apply read_client_updated_safe|]. intros m Hm. by apply run_keeps, talk_power_cu_keeps.
  - by apply run_keeps, channel_subscribe_keeps.
  - by apply run_keeps, channel_unsubscribe_keeps.
  - eapply checked_keeps; [by apply read_client_moved_safe|]. intros m Hm. by apply run_keeps, subscribe_channel_keeps.
Qed.

(** A value inside of options. *)
Fixpoint depth_typed (depth : nat) (s : Shape) (v : Value) : Prop :=
  match depth with
  | O => shape_typed s v
  | S depth => v = VNone \/ exists w, v = VSome w /\ depth_typed depth s w
  end.

Definition gives (ft : FunType) (v : Value) : Prop :=
  match ft with
  | Gives depth s => depth_typed depth s v
  | GivesNone depth => v = Nat.iter depth VSome VNone
  end.

Lemma gives_typed opt p ft v : result_fits opt p ft = true -> gives ft v -> result_typed opt p v.
Proof.
  unfold result_fits, result_typed. intros Hf Hv pt Hpt. rewrite Hpt in Hf. unfold ptype_typed. destruct ft as [d s|d]; cbn in Hv.
  - rewrite andb_true_iff, !bool_decide_eq_true in Hf. destruct Hf as [-> ->].
    destruct opt, (pt_opt pt); cbn in Hv |- *; try exact Hv.
    + destruct Hv as [->|(w & -> & Hw)]; [by left|right; exists w; split; [done|]].
      by destruct Hw as [->|(w' & -> & Hw')].
    + by destruct Hv as [->|(w & -> & Hw)].
  - apply Nat.ltb_lt in Hf. subst v. destruct opt, (pt_opt pt), d as [|[|d]]; cbn in *; try lia; try done; [by left| |by left].
    right. by exists VNone.
Qed.

Lemma results_typed opt to types values : results_fit opt to types = true -> Forall2 gives types values ->
  Forall2 (result_typed opt) to values.
Proof.
  intros Hf Hv. revert to Hf. induction Hv as [|ft v types values Hv _ IH]; intros [|p to] Hf; try done. cbn in Hf.
  apply andb_true_iff in Hf as [Hp Hf]. constructor; [by eapply gives_typed|by apply IH].
Qed.

Lemma result_of_keeps {A} (V : View A) (m : bk A) ft : bkeeps b decls (fun a => gives ft (to_value V a)) m ->
  skeeps b decls (Forall2 gives [ft]) (result_of V m).
Proof. intros Hm. apply run_keeps. eapply bkeeps_bind; [exact Hm|]. intros a Ha. apply bkeeps_ret. by repeat constructor. Qed.

Lemma gives_opt {A} (V : View A) s o : view_type V = {| pt_opt := false; pt_shape := s |} -> (forall a, o = Some a -> fits V a) ->
  gives (Gives 1 s) (to_value (opt_view V) o).
Proof.
  intros Hty Ho. destruct o as [a|]; [|by left]. right. exists (to_value V a). split; [done|].
  specialize (Ho a eq_refl). unfold fits, ptype_typed in Ho. by rewrite Hty in Ho.
Qed.

Lemma limits_of_keeps m : bkeeps b decls (fun _ => True) m ->
  skeeps b decls (Forall2 gives (create_types MaxClientsCc)) (limits_of m).
Proof.
  intros Hm. apply run_keeps. eapply bkeeps_bind; [exact Hm|]. intros [l f] _. apply bkeeps_ret.
  constructor; [by apply (gives_opt max_clients_view)|constructor; [by apply (gives_opt max_clients_view)|constructor]].
Qed.

Lemma run_create_keeps f : create_fits t f = true -> skeeps b decls (Forall2 gives (create_types f)) (run_create f t part).
Proof using Hknown Hpart Horder Hitems.
  intros Hf. destruct f; cbn [create_fits run_create create_types] in *; rewrite ?andb_true_iff in Hf; destruct_and?.
  - intros s Hs. split; [done|]. repeat constructor. apply fits_bool.
  - intros s Hs. split; [done|]. by repeat constructor.
  - intros s Hs. split; [done|]. by repeat constructor.
  - eapply checked_keeps; [by apply read_channel_created_safe|]. intros m _. apply limits_of_keeps. by apply bkeeps_ret.
  - eapply checked_keeps; [by apply read_channel_list_safe|]. intros m _. apply limits_of_keeps. by apply bkeeps_ret.
  - eapply checked_keeps; [by apply read_channel_created_safe|]. intros m _. apply result_of_keeps, bkeeps_ret. by split.
  - eapply checked_keeps; [by apply read_channel_list_safe|]. intros m _. apply result_of_keeps, bkeeps_ret. by split.
  - eapply checked_keeps; [by apply read_channel_created_safe|]. intros m (_ & _ & Hc). apply result_of_keeps, bkeeps_ret.
    destruct (icc_codec m) as [c|]; [exact (fits_opt codec_view c Hc)|]. split; [by exists []|exact opus_voice_declared].
  - eapply checked_keeps; [by apply read_channel_created_safe|]. intros m (Hid & Ho & _). apply result_of_keeps.
    eapply bkeeps_bind; [by apply channel_order_insert_keeps|]. intros _ _. apply bkeeps_ret. exact Ho.
  - eapply checked_keeps; [by apply read_enter_view_safe|]. intros m Hm. apply result_of_keeps, bkeeps_ret.
    apply (gives_opt string_view); [done|]. destruct (cev_is_away m); [|done]. by intros a [= <-].
  - eapply checked_keeps; [by apply read_enter_view_safe|]. intros m _. apply result_of_keeps, bkeeps_ret.
    by split; [exists []|].
  - eapply checked_keeps; [by apply read_enter_view_safe|]. intros m _. apply result_of_keeps, bkeeps_ret.
    by apply (gives_opt talk_request_view).
  - eapply checked_keeps; [by apply read_connection_info_safe|]. intros m _. apply run_keeps.
    eapply (bkeeps_bind _ _ (fun _ => True)).
    { unfold address_fun. destruct (cci_ip m); [|by apply bkeeps_ret]. destruct (cci_port m); [|by apply bkeeps_ret].
      destruct (bool_decide _); [by apply bkeeps_ret|]. eapply (bkeeps_bind _ _ (fun _ => True)); [|intros ? _; by apply bkeeps_ret].
      unfold from_option_or. destruct (parse_ip_addr _); [by apply bkeeps_ret|apply bkeeps_fail]. }
    intros o _. apply bkeeps_ret. constructor; [|constructor]. destruct o as [o|]; [|by left]. right. eexists. split; [reflexivity|].
    apply (gives_opt socket_addr_view); [done|]. intros a _. by split; [exists []|].
Qed.

End functions.
End spec.

Section spec.
Context `{Floats} `{Times} `{SocketAddrs} `{!ValueEq} `{DeclaredEnums} `{Base64Laws} `{!ValueLaws} `{Heck} `{P256} `{!GeneratedItems}.
Context `{!HashSets} `{HashOrder}.

(** * The structures of the declarations *)

Section laws.
Context (b : BookDeclarations) (types : list MessageType) (decls : list Event).
Context (Hok : written_ok b types decls = true).

Record written (t : MessageType) (e : Event) (k : Kind) : Prop := {
  written_kind : kind_of (st_name (ev_book_struct e)) = Some k;
  written_struct : struct_for decls k = Some (ev_book_struct e);
  written_names : struct_ok (ev_book_struct e) = true;
  written_fields : fields_declared b (ev_book_struct e) (kind_fields k) = true;
  written_key : key_ok t (kind_key k) (ev_id e) = true;
}.

Lemma heard_written t e part ids : heard types decls t e part ids ->
  event_written b decls t e = true /\ exists k, written t e k.
Proof using Hok.
  intros [Ht He Hn _ _ _]. unfold written_ok in Hok. rewrite forallb_forall in Hok.
  specialize (Hok t (proj1 (list_elem_of_In _ _) Ht)). rewrite forallb_forall in Hok.
  assert (e ∈ message_group decls t) as Hg by (by apply list_elem_of_filter).
  pose proof (Hok e (proj1 (list_elem_of_In _ _) Hg)) as Hw. split; [done|]. unfold event_written, struct_kind in Hw.
  destruct (kind_of _) as [k|] eqn:Hk; [|done]. exists k. rewrite !andb_true_iff, bool_decide_eq_true in Hw.
  destruct Hw as [[[[Hs Hsok] Hf] Hkey] _]. by constructor.
Qed.

(** A typed object of the event is a structure of the book, and the other way round. *)
Lemma structure_typed {X} `{HX : !ObjectOf X} {HL : ObjectOfLaws X} t e k (x : X) : written t e k ->
  kind_fields k = obj_fields (X := X) -> object_as b decls k x -> obj_typed b (ev_book_struct e) (to_obj x).
Proof.
  intros Hw Hf [He Hr]. apply to_obj_typed; [apply Hw|rewrite <- Hf; apply Hw|]. split; [done|]. apply Hr, Hw.
Qed.

Lemma structure_of {X} `{HX : !ObjectOf X} {HL : ObjectOfLaws X} t e k o : written t e k ->
  kind_fields k = obj_fields (X := X) -> obj_typed b (ev_book_struct e) o ->
  exists x : X, obj_of o = Some x /\ object_as b decls k x /\ Forall (fun en => o !! fst en = Some (snd en)) (obj_entries x).
Proof.
  intros Hw Hf Ho. destruct (obj_of_typed (X := X) b (ev_book_struct e) o) as (x & Hx & [He Hr] & _ & Hen);
    [rewrite <- Hf; apply Hw|done|]. exists x. split; [done|]. split; [|done]. split; [done|].
  intros s Hs. rewrite (written_struct _ _ _ Hw) in Hs. by injection Hs as <-.
Qed.

Lemma typed_here t e k o : written t e k -> obj_typed b (ev_book_struct e) o -> typed_as b decls k o.
Proof. intros Hw Ho s Hs. rewrite (written_struct _ _ _ Hw) in Hs. by injection Hs as <-. Qed.

Lemma client_id_read z : of_value client_id_view (to_value client_id_view z) = Some z.
Proof. done. Qed.

Lemma client_id_inj z z' : to_value client_id_view z = to_value client_id_view z' -> z = z'.
Proof. intros Hz. apply (f_equal (of_value client_id_view)) in Hz. rewrite !client_id_read in Hz. by injection Hz. Qed.

(** The object of a client has its id. *)
Lemma client_entry_id (o : Obj) (c : Client) : Forall (fun en => o !! fst en = Some (snd en)) (obj_entries c) ->
  o !! byte_str "id" = Some (to_value client_id_view (cl_id c)).
Proof. intros He. apply Forall_cons in He as [He _]. exact He. Qed.

Lemma to_obj_id (c : Client) : to_obj c !! byte_str "id" = Some (to_value client_id_view (cl_id c)).
Proof. apply obj_insert_eq. Qed.

Lemma heard_key t e part ids k : heard types decls t e part ids -> written t e k ->
  safe (fun z => kind_key k <> NoKey -> fits (id_view (kind_key k)) z /\ ids = [to_value (id_view (kind_key k)) z])
    (read_key (kind_key k) ids).
Proof. intros Hh Hw. eapply read_key_safe; [apply Hh|apply Hh|apply Hw|apply Hh]. Qed.

Lemma get_mut_obj_typed t e part ids k : heard types decls t e part ids -> updates e = true ->
  forallb is_function (ev_rules e) = false -> book_typed b decls k ->
  safe (obj_typed b (ev_book_struct e)) (get_mut_obj (st_name (ev_book_struct e)) ids k).
Proof using Hok.
  intros Hh Hup Hfun (Hs & Hc & Hch & _). destruct (heard_written t e part ids Hh) as [Hev (kd & Hw)].
  pose proof (heard_key t e part ids kd Hh Hw) as Hkey.
  unfold event_written, struct_kind, updates in *. rewrite (written_kind _ _ _ Hw) in Hev. apply andb_true_iff in Hev as [_ Hev].
  rewrite andb_true_iff, bool_decide_eq_true, negb_true_iff in Hup. destruct Hup as [Hop Hopt]. rewrite Hop, Hopt, Hfun in Hev.
  rewrite !andb_true_iff in Hev. destruct Hev as [[Hcan _] _]. unfold get_mut_obj. rewrite (written_kind _ _ _ Hw).
  destruct kd; try done; (eapply safe_bind; [exact Hkey|]); intros z _.
  - eapply (structure_typed (X := Server)); [exact Hw|done|apply Hs].
  - unfold run, get_client, mbind, bk_bind, get_book, from_option_or. cbn [fst snd].
    destruct (clients k !! z) as [c|] eqn:Hz; cbn [fst res_bind]; [|done].
    eapply (structure_typed (X := Client)); [exact Hw|done|apply (Hc z c Hz)].
  - unfold run, get_channel, mbind, bk_bind, get_book, from_option_or. cbn [fst snd].
    destruct (channels k !! z) as [c|] eqn:Hz; cbn [fst res_bind]; [|done].
    eapply (structure_typed (X := Channel)); [exact Hw|done|apply (Hch z c Hz)].
Qed.

(** What the check says of an event by its operation. *)
Lemma written_update t e part ids k : heard types decls t e part ids -> written t e k -> updates e = true ->
  (forallb is_function (ev_rules e) = false -> can_change k = true) /\
  forallb (update_rule_ok t (kind_key k)) (ev_rules e) = true /\ byte_str "id" ∉ attr_name <$> targets (ev_rules e).
Proof using Hok.
  intros Hh Hw Hup. destruct (heard_written t e part ids Hh) as [Hev _]. unfold event_written, struct_kind, updates in *.
  rewrite (written_kind _ _ _ Hw), !andb_true_iff in Hev. destruct Hev as [_ Hev].
  rewrite andb_true_iff, bool_decide_eq_true, negb_true_iff in Hup. destruct Hup as [Hop Hopt]. rewrite Hop, Hopt in Hev.
  rewrite !andb_true_iff, bool_decide_eq_true in Hev. destruct Hev as [[Hcan Hrules] Hid].
  split_and!; [|done|done]. intros Hf. by rewrite Hf in Hcan.
Qed.

Lemma written_add t e part ids k : heard types decls t e part ids -> written t e k -> ev_op e = Add ->
  can_add k = true /\ forallb (create_rule_ok t false) (ev_rules e) = true /\ (k = KClient -> id_declared (ev_book_struct e) = true).
Proof using Hok.
  intros Hh Hw Hop. destruct (heard_written t e part ids Hh) as [Hev _]. unfold event_written, struct_kind in *.
  rewrite (written_kind _ _ _ Hw), !andb_true_iff, Hop in Hev. destruct Hev as [_ Hev].
  rewrite !andb_true_iff in Hev. destruct Hev as [[Hcan Hrules] Hid]. split_and!; [done|done|]. intros ->.
  by rewrite bool_decide_true in Hid.
Qed.

Lemma written_remove t e part ids k : heard types decls t e part ids -> written t e k -> ev_op e = Remove -> can_remove k = true.
Proof using Hok.
  intros Hh Hw Hop. destruct (heard_written t e part ids Hh) as [Hev _]. unfold event_written, struct_kind in *.
  rewrite (written_kind _ _ _ Hw), !andb_true_iff, Hop in Hev. by destruct Hev.
Qed.

Lemma written_replace t e part ids k : heard types decls t e part ids -> written t e k -> replaces e = true ->
  can_replace k = true /\ forallb (create_rule_ok t true) (ev_rules e) = true.
Proof using Hok.
  intros Hh Hw Hup. destruct (heard_written t e part ids Hh) as [Hev _]. unfold event_written, struct_kind, replaces in *.
  rewrite (written_kind _ _ _ Hw), !andb_true_iff in Hev. destruct Hev as [_ Hev].
  rewrite andb_true_iff, bool_decide_eq_true in Hup. destruct Hup as [Hop Hopt]. rewrite Hop, Hopt in Hev.
  by rewrite andb_true_iff in Hev.
Qed.

Lemma get_client_ok id k c : fst (run (get_client id) (k, [])) = Ok c -> clients k !! id = Some c.
Proof.
  unfold run, get_client, mbind, bk_bind, get_book, from_option_or. cbn [fst snd].
  destruct (clients k !! id); [|done]. by intros [= ->].
Qed.

Lemma get_channel_ok id k c : fst (run (get_channel id) (k, [])) = Ok c -> channels k !! id = Some c.
Proof.
  unfold run, get_channel, mbind, bk_bind, get_book, from_option_or. cbn [fst snd].
  destruct (channels k !! id); [|done]. by intros [= ->].
Qed.

Lemma put_obj_typed t e part ids k r r' : heard types decls t e part ids -> updates e = true ->
  forallb is_function (ev_rules e) = false -> book_typed b decls k ->
  get_mut_obj (st_name (ev_book_struct e)) ids k = Ok r -> obj_typed b (ev_book_struct e) r' ->
  (forall name, name ∉ attr_name <$> targets (ev_rules e) -> r' !! name = r !! name) ->
  book_typed b decls (put_obj (st_name (ev_book_struct e)) ids r' k).
Proof using Hok.
  intros Hh Hup Hfun Hk Hget Hr Hsame. destruct (heard_written t e part ids Hh) as [_ (kd & Hw)].
  destruct (written_update t e part ids kd Hh Hw Hup) as (Hcan & _ & Hid). specialize (Hcan Hfun).
  unfold get_mut_obj, put_obj in *. rewrite (written_kind _ _ _ Hw) in Hget |- *.
  pose proof Hk as ((Hs & Hso & Hsc) & Hc & Hch & Hrest). destruct kd; try done.
  - destruct (structure_of (X := Server) t e KServer r' Hw eq_refl Hr) as (s & -> & Has & _).
    split; [|done]. split; [by apply with_server_data_as|done].
  - destruct (read_key ClientKey ids) as [z| |]; [|done..]. cbn [res_bind] in Hget.
    destruct (fst (run (get_client z) (k, []))) as [c| |] eqn:Hg; [|done..]. cbn [res_bind] in Hget. injection Hget as <-.
    apply get_client_ok in Hg. destruct (Hc z c Hg) as (Hcid & _ & Hcd & Hco).
    destruct (structure_of (X := Client) t e KClient r' Hw eq_refl Hr) as (c' & -> & Has & Hen).
    rewrite Hg. apply set_clients_typed; [|done]. apply map_Forall_insert_2. split.
    + apply client_entry_id in Hen. rewrite (Hsame _ Hid), to_obj_id in Hen. apply (inj Some), client_id_inj in Hen. cbn. congruence.
    + split; [by apply with_client_data_as|by split].
  - destruct (read_key ChannelKey ids) as [z| |]; [|done..]. cbn [res_bind] in Hget.
    destruct (fst (run (get_channel z) (k, []))) as [c| |] eqn:Hg; [|done..].
    apply get_channel_ok in Hg. destruct (Hch z c Hg) as [_ Hcd].
    destruct (structure_of (X := Channel) t e KChannel r' Hw eq_refl Hr) as (c' & -> & Has & Hen).
    rewrite Hg. apply set_channels_typed; [|done]. apply map_Forall_insert_2. by split; [apply with_channel_data_as|].
Qed.

Lemma add_obj_keeps t e part ids r : HashOrderLaws -> heard types decls t e part ids -> ev_op e = Add ->
  obj_typed b (ev_book_struct e) r -> has_ids e ids r ->
  skeeps b decls (fun _ => True) (add_obj (st_name (ev_book_struct e)) ids r).
Proof using Hok.
  intros Hl Hh Hop Hr Hhas. destruct (heard_written t e part ids Hh) as [_ (kd & Hw)].
  destruct (written_add t e part ids kd Hh Hw Hop) as (Hcan & _ & Hid).
  pose proof (heard_key t e part ids kd Hh Hw) as Hkey. unfold add_obj. rewrite (written_kind _ _ _ Hw).
  destruct kd; try done; (eapply checked_keeps; [exact Hkey|]); intros z Hz; destruct (Hz ltac:(done)) as [_ ->].
  - destruct (structure_of (X := Client) t e KClient r Hw eq_refl Hr) as (c & Hc & Has & Hen). rewrite Hc.
    eapply (checked_keeps _ _ (fun c' => c' = c)); [done|]. intros ? ->. apply run_old_keeps, add_client_keeps.
    destruct (client_beside r c Hc) as [Hcd Hco]. split; [|split; [done|by rewrite Hcd, Hco]].
    specialize (Hid eq_refl). unfold id_declared, has_ids in *. destruct (st_id (ev_book_struct e)) as [|i []]; [done| |done].
    apply bool_decide_eq_true in Hid. cbn [combine] in Hhas. apply Forall_cons in Hhas as [Hhas _]. cbn [fst snd] in Hhas.
    rewrite Hid, (client_entry_id r c Hen) in Hhas. by apply (inj Some), client_id_inj in Hhas.
  - destruct (structure_of (X := Channel) t e KChannel r Hw eq_refl Hr) as (c & Hc & Has & _). rewrite Hc.
    eapply (checked_keeps _ _ (fun c' => c' = c)); [done|]. intros ? ->. apply run_old_keeps, add_channel_keeps; [done|].
    split; [done|]. by rewrite (channel_beside r c Hc).
  - apply run_keeps, add_channel_group_keeps. by eapply typed_here.
  - apply run_keeps, add_server_group_keeps. by eapply typed_here.
Qed.

Lemma remove_obj_keeps t e part ids : HashOrderLaws -> heard types decls t e part ids -> ev_op e = Remove ->
  skeeps b decls (fun _ => True) (remove_obj (st_name (ev_book_struct e)) ids).
Proof using Hok.
  intros Hl Hh Hop. destruct (heard_written t e part ids Hh) as [_ (kd & Hw)].
  pose proof (written_remove t e part ids kd Hh Hw Hop) as Hcan. pose proof (heard_key t e part ids kd Hh Hw) as Hkey.
  unfold remove_obj. rewrite (written_kind _ _ _ Hw).
  destruct kd; try done; (eapply checked_keeps; [exact Hkey|]); intros z _.
  - apply run_old_keeps, remove_client_keeps.
  - by apply run_old_keeps, remove_channel_keeps.
  - apply run_keeps, remove_optional_server_keeps.
  - by apply run_keeps, set_channel_data_keeps.
Qed.

Lemma replace_obj_keeps t e part ids r : heard types decls t e part ids -> replaces e = true ->
  obj_typed b (ev_book_struct e) r -> skeeps b decls (fun _ => True) (replace_obj (st_name (ev_book_struct e)) ids r).
Proof using Hok.
  intros Hh Hop Hr. destruct (heard_written t e part ids Hh) as [_ (kd & Hw)].
  destruct (written_replace t e part ids kd Hh Hw Hop) as [Hcan _]. pose proof (heard_key t e part ids kd Hh Hw) as Hkey.
  pose proof (typed_here t e kd r Hw Hr) as Has. unfold replace_obj. rewrite (written_kind _ _ _ Hw).
  destruct kd; try done; (eapply checked_keeps; [exact Hkey|]); intros z _; apply run_keeps.
  - by apply replace_optional_server_keeps.
  - by apply replace_connection_server_keeps.
  - by apply replace_optional_client_keeps.
  - by apply replace_connection_client_keeps.
  - apply set_channel_data_keeps. by intros d [= <-].
Qed.

(** The functions that the rules of an event name exist, with its types. *)
Lemma update_rule_fun t e part ids name to k : heard types decls t e part ids -> written t e k -> updates e = true ->
  FunctionRule name to ∈ ev_rules e ->
  exists f, table update_funs (to_snake_case name) = Some f /\ update_fits t (kind_key k) f = true.
Proof using Hok.
  intros Hh Hw Hup Hin. destruct (written_update t e part ids k Hh Hw Hup) as (_ & Hrules & _).
  rewrite forallb_forall in Hrules. specialize (Hrules _ (proj1 (list_elem_of_In _ _) Hin)). cbn [update_rule_ok] in Hrules.
  destruct (table _ _) as [f|]; [by exists f|done].
Qed.

Lemma create_rule_fun t e part ids name to : heard types decls t e part ids -> makes e = true ->
  FunctionRule name to ∈ ev_rules e ->
  exists f, table create_funs (to_snake_case name) = Some f /\ create_fits t f = true /\
    results_fit (replaces e) to (create_types f) = true.
Proof using Hok.
  intros Hh Hmk Hin. destruct (heard_written t e part ids Hh) as [_ (k & Hw)].
  assert (forallb (create_rule_ok t (replaces e)) (ev_rules e) = true) as Hrules.
  { unfold makes in Hmk. destruct (replaces e) eqn:Hr.
    - by destruct (written_replace t e part ids k Hh Hw Hr).
    - rewrite orb_false_r, bool_decide_eq_true in Hmk. by destruct (written_add t e part ids k Hh Hw Hmk) as (_ & Hrules & _). }
  rewrite forallb_forall in Hrules. specialize (Hrules _ (proj1 (list_elem_of_In _ _) Hin)). cbn [create_rule_ok] in Hrules.
  destruct (table _ _) as [f|]; [|done]. apply andb_true_iff in Hrules. by exists f.
Qed.

(** What the handler assumes of its store. *)
Definition written_store_laws {Hl : HashOrderLaws} {Hi : GeneratedItemsLaws} : BookStoreLaws b types decls.
Proof using Hok.
  refine {| store_ok := (book_typed b decls : GBook -> Prop) |}.
  - intros t e part ids k. apply get_mut_obj_typed.
  - intros t e part ids k r r'. apply put_obj_typed.
  - intros t e part ids r Hh Hop Hr Hids. by eapply add_obj_keeps.
  - intros t e part ids r. apply replace_obj_keeps.
  - intros t e part ids Hh Hop. by eapply remove_obj_keeps.
  - intros t e part ids name to Hh Hup Hin. destruct (heard_written t e part ids Hh) as [_ (k & Hw)].
    destruct (update_rule_fun t e part ids name to k Hh Hw Hup Hin) as (f & Hf & Hfits). cbn [update_fun written_store]. rewrite Hf.
    exact (run_update_keeps b decls t e part (heard_known _ _ _ _ _ _ Hh) (heard_part _ _ _ _ _ _ Hh) f (kind_key k) ids
      (written_key _ _ _ Hw) (heard_ids _ _ _ _ _ _ Hh) Hfits).
  - intros t e part ids name to Hh Hmk Hin.
    destruct (create_rule_fun t e part ids name to Hh Hmk Hin) as (f & Hf & Hfits & Hres). cbn [create_fun written_store]. rewrite Hf.
    intros s Hs. pose proof (run_create_keeps b decls t part (heard_known _ _ _ _ _ _ Hh) (heard_part _ _ _ _ _ _ Hh) f Hfits s Hs) as Hk.
    destruct (run_create f t part s) as [r s']. destruct Hk as [Hs' Hr]. split; [exact Hs'|].
    eapply safe_weaken; [exact Hr|]. intros vs Hvs. by eapply results_typed.
Defined.

End laws.

(** C8: A command that a peer sends is parsed and handed to the generated handler, which calls the
    written functions of the book.  Whatever its bytes are: if the declarations pass the two checks of
    their types - those of the attributes and fields that the rules copy ([declarations_ok]), and the
    calls of the written functions, whose ids, messages, fields and results must have the types of
    [data.rs] ([written_ok], which also asks that no rule changes the attribute [id]) - neither the
    parser nor the handler nor a written function panics, and the book keeps the types of all its
    attributes and every client its place under its id, whether the message is handled, refused or
    fails in between. *)
Theorem handler_typed (d : MessageDeclarations) (b : BookDeclarations) (types : list MessageType) (decls : list Event)
    {Hsets : HashSetsLaws} {Horder : HashOrderLaws} {Hitems : GeneratedItemsLaws}
    (header : InHeader) (cmd : list Z) (book : Book) :
  message_types d = Ok types -> declarations_ok b types decls = true -> written_ok b types decls = true ->
  bytes cmd -> no_panic (InHeader_packet_type header) = true -> book_typed b decls book ->
  match InMessage_new types header cmd with
  | Ok (t, m) => let '(r, book') := generated_handler decls t m (book : GBook) in no_panic r = true /\ book_typed b decls book'
  | Err _ => True
  | Panic => False
  end.
Proof.
  intros Ht Hok Hw Hb Hh Hbook. pose proof (message_types_known d types Ht) as Hknown.
  pose proof (InMessage_new_outcome d types header cmd Ht Hb Hh) as Hout.
  destruct (InMessage_new types header cmd) as [[t m]| |]; [|done..]. destruct Hout as [Hin Hm].
  exact (generated_handler_typed b types decls t m book (Hl := written_store_laws b types decls Hw) Hok Hin
    (proj1 (Forall_forall _ _) Hknown t Hin) Hm Hbook).
Qed.

End spec.
