(* ===== verification/BookHandlerRun.v ===== *)
(** The generated handler on declarations of messages of clients and channels, with the written
    functions of the book. *)
From stdpp Require Import strings gmap.
From S2P Require Import Prelude Text Packets Commands InitPackets CryptoLib Crypto Ip Book Strings Types Declarations Values ValuesSpec Messages MessagesSpec MessagesToBook BookHandler BookTypes BookHandlerSpec BookEvents BookStores BookStoreSpec.
#[local] Open Scope Z_scope.

(** * An instance of the parameters *)

(** A word starts at every capital letter. *)
Fixpoint snake (first : bool) (s : list Z) : list Z :=
  match s with
  | [] => []
  | c :: s =>
      if (0x41 <=? c) && (c <=? 0x5a) then (if first then [] else [0x5f]) ++ c + 0x20 :: snake false s
      else c :: snake false s
  end.

#[global] Instance plain_names : Heck := {| to_snake_case := snake true; to_upper_camel_case s := s |}.

#[global] Instance sample_value_eq : ValueEq.
Proof. split; cbn; apply _. Defined.

#[global] Instance list_sets : HashSets := {| collect_set := remove_dups |}.

#[global] Instance list_sets_laws : HashSetsLaws.
Proof. split; [intros i l; exact (elem_of_remove_dups l i)|intros l; exact (NoDup_remove_dups l)]. Qed.

(** A map in the order of its keys. *)
#[global] Instance order_of_keys : HashOrder := {| iter := fun A m => map_to_list m |}.

#[global] Instance order_of_keys_laws : HashOrderLaws.
Proof. by split. Qed.

Definition port_of (ip : IpAddr) (port : Z) : SockAddr := Z.to_N port.

(** The sample enumerations have the variants 0, 1 and 2. *)
#[global] Instance sample_items : GeneratedItems := {|
  opus_voice := 2; no_license := 0; serverstop := 1; server_shutdown := 2; error_ok := 0; error_identity := 1;
  encryption_mode _ := EncryptPerChannel; connected_time o _ := o; socket_addr := port_of |}.

#[global] Instance sample_items_laws : GeneratedItemsLaws.
Proof. by split. Qed.

(** * Declarations *)

Definition sample_property (name ty : string) (modifier : option string) : Property :=
  {| p_name := byte_str name; p_type_s := byte_str ty; p_doc := None; p_opt := false;
     p_modifier := byte_str <$> modifier; p_key := None |}.

Definition optional_property (name ty : string) : Property :=
  {| p_name := byte_str name; p_type_s := byte_str ty; p_doc := None; p_opt := true; p_modifier := None; p_key := None |}.

Definition client_struct : BookStruct :=
  {| st_name := byte_str "Client"; st_opt := false;
     st_id := [{| id_struct_name := byte_str "Client"; id_prop := byte_str "Id" |}]; st_doc := [];
     st_properties := [sample_property "Id" "ClientId" None;
                       sample_property "Name" "str" None;
                       sample_property "Links" "ChannelId" (Some "array"%string);
                       sample_property "ServerGroups" "ServerGroupId" (Some "set"%string);
                       sample_property "Channel" "ChannelId" None;
                       optional_property "AwayMessage" "str";
                       optional_property "TalkPowerRequest" "TalkPowerRequest";
                       sample_property "InputMuted" "bool" None;
                       sample_property "OutputMuted" "bool" None;
                       sample_property "InputHardwareEnabled" "bool" None;
                       sample_property "OutputHardwareEnabled" "bool" None;
                       sample_property "OutputOnlyMuted" "bool" None;
                       sample_property "TalkPower" "i32" None;
                       sample_property "TalkPowerGranted" "bool" None;
                       optional_property "ConnectionData" "ConnectionClientData";
                       optional_property "OptionalData" "OptionalClientData"] |}.

Definition channel_struct : BookStruct :=
  {| st_name := byte_str "Channel"; st_opt := false;
     st_id := [{| id_struct_name := byte_str "Channel"; id_prop := byte_str "Id" |}]; st_doc := [];
     st_properties := [sample_property "Id" "ChannelId" None;
                       sample_property "Parent" "ChannelId" None;
                       sample_property "Order" "ChannelId" None;
                       sample_property "ChannelType" "ChannelType" None;
                       optional_property "MaxClients" "MaxClients";
                       optional_property "MaxFamilyClients" "MaxClients";
                       sample_property "Subscribed" "bool" None;
                       optional_property "NeededTalkPower" "i32";
                       optional_property "IsUnencrypted" "bool";
                       optional_property "OptionalData" "OptionalChannelData";
                       sample_property "Name" "str" None;
                       sample_property "Codec" "Codec" None] |}.

(** The address of a client. *)
Definition connection_struct : BookStruct :=
  {| st_name := byte_str "ConnectionClientData"; st_opt := true;
     st_id := [{| id_struct_name := byte_str "Client"; id_prop := byte_str "Id" |}]; st_doc := [];
     st_properties := [optional_property "ClientAddress" "SocketAddr"] |}.

Definition book_structs : BookDeclarations := {| structs := [client_struct; channel_struct; connection_struct] |}.

Definition sample_message (name notify : string) (attributes : list string) : Message :=
  {| m_name := byte_str name; m_notify := Some (byte_str notify); m_attributes := byte_str <$> attributes |}.

Definition plain_field (map ts pretty ty : string) : Field := sample_field map ts pretty ty None.

Definition client_fields : list Field :=
  [plain_field "clid" "clid" "ClientId" "ClientId";
   plain_field "name" "client_nickname" "Name" "str";
   sample_field "links" "links" "Links" "ChannelId" (Some "array"%string);
   sample_field "groups" "client_servergroups" "ServerGroups" "ServerGroupId" (Some "array"%string);
   plain_field "sgid" "sgid" "Group" "ServerGroupId";
   plain_field "ctid" "ctid" "TargetChannelId" "ChannelId";
   plain_field "uid" "client_unique_identifier" "Uid" "Uid";
   plain_field "type" "client_type" "ClientType" "ClientType";
   plain_field "away" "client_away" "IsAway" "bool";
   plain_field "awaymsg" "client_away_message" "AwayMessage" "str";
   plain_field "tprtime" "client_talk_request" "TalkPowerRequestTime" "DateTime";
   plain_field "tprmsg" "client_talk_request_msg" "TalkPowerRequestMessage" "str";
   plain_field "imuted" "client_input_muted" "InputMuted" "bool";
   plain_field "omuted" "client_output_muted" "OutputMuted" "bool";
   plain_field "ihard" "client_input_hardware" "InputHardwareEnabled" "bool";
   plain_field "ohard" "client_output_hardware" "OutputHardwareEnabled" "bool";
   plain_field "oomuted" "client_outputonly_muted" "OutputOnlyMuted" "bool";
   plain_field "tp" "client_talk_power" "TalkPower" "i32";
   plain_field "talker" "client_is_talker" "TalkPowerGranted" "bool";
   plain_field "ip" "connection_client_ip" "Ip" "str";
   plain_field "port" "connection_client_port" "Port" "u16";
   plain_field "invokerid" "invokerid" "InvokerId" "ClientId";
   plain_field "invokername" "invokername" "InvokerName" "str";
   plain_field "invokeruid" "invokeruid" "InvokerUid" "Uid";
   plain_field "reasonid" "reasonid" "Reason" "Reason"]%string.

Definition channel_fields : list Field :=
  [plain_field "cid" "cid" "ChannelId" "ChannelId";
   plain_field "cpid" "cpid" "ParentId" "ChannelId";
   plain_field "order" "channel_order" "Order" "ChannelId";
   plain_field "cname" "channel_name" "Name" "str";
   plain_field "codec" "channel_codec" "Codec" "Codec";
   plain_field "max" "channel_maxclients" "MaxClients" "i32";
   plain_field "unlimited" "channel_flag_maxclients_unlimited" "IsMaxClientsUnlimited" "bool";
   plain_field "maxfamily" "channel_maxfamilyclients" "MaxFamilyClients" "i32";
   plain_field "unlimitedfamily" "channel_flag_maxfamilyclients_unlimited" "IsMaxFamilyClientsUnlimited" "bool";
   plain_field "inherits" "channel_flag_maxfamilyclients_inherited" "InheritsMaxFamilyClients" "bool";
   plain_field "permanent" "channel_flag_permanent" "IsPermanent" "bool";
   plain_field "semi" "channel_flag_semi_permanent" "IsSemiPermanent" "bool";
   plain_field "needed" "channel_needed_talk_power" "NeededTalkPower" "i32";
   plain_field "unencrypted" "channel_codec_is_unencrypted" "IsUnencrypted" "bool"]%string.

Definition client_messages : MessageDeclarations := {|
  fields := client_fields ++ channel_fields;
  msg_group := [{|
    g_default := {| s2c := true; c2s := false; response := false; low := false; np := true |};
    g_msg := [sample_message "ClientEnterView" "notifycliententerview"
                ["clid"; "name"; "links"; "groups"; "ctid"; "uid"; "type"; "away"; "awaymsg"; "tprtime"; "tprmsg";
                 "imuted"; "omuted"; "ihard"; "ohard"; "oomuted"; "tp"; "talker"; "reasonid"];
              sample_message "ClientUpdated" "notifyclientupdated"
                ["clid"; "name?"; "links?"; "away?"; "awaymsg?"; "tprtime?"; "tprmsg?"];
              sample_message "ServerGroupClientAdded" "notifyservergroupclientadded"
                ["clid"; "sgid"; "invokerid"; "invokername"; "invokeruid?"];
              sample_message "ClientLeftView" "notifyclientleftview"
                ["clid"; "reasonid?"; "invokerid?"; "invokername?"; "invokeruid?"];
              sample_message "ClientConnectionInfo" "notifyconnectioninfo" ["clid"; "ip?"; "port?"];
              sample_message "ChannelCreated" "notifychannelcreated"
                ["cid"; "cpid"; "order"; "cname"; "codec?"; "max?"; "unlimited?"; "maxfamily?"; "unlimitedfamily?"; "inherits?";
                 "permanent?"; "semi?"; "needed?"; "unencrypted?"; "invokerid"; "invokername"; "invokeruid?"];
              sample_message "ChannelMoved" "notifychannelmoved" ["cid"; "cpid"; "order"];
              sample_message "ChannelUnsubscribed" "notifychannelunsubscribed" ["cid"];
              sample_message "ChannelDeleted" "notifychanneldeleted" ["cid"]]%string |}];
|}.

Definition map_property (from to op : string) : RuleProperty :=
  {| rp_from := Some (byte_str from); rp_to := Some (byte_str to); rp_operation := Some (byte_str op);
     rp_function := None; rp_tolist := None |}.

Definition function_property (name : string) (to : list string) : RuleProperty :=
  {| rp_from := None; rp_to := None; rp_operation := None; rp_function := Some (byte_str name);
     rp_tolist := Some (byte_str <$> to) |}.

Definition sample_rule (id struct from op : string) (properties : list RuleProperty) : Rule :=
  {| r_id := [byte_str id]; r_from := byte_str from; r_to := byte_str struct; r_operation := byte_str op;
     r_properties := properties |}.
Definition client_rule : string -> string -> list RuleProperty -> Rule := sample_rule "ClientId" "Client".
Definition channel_rule : string -> string -> list RuleProperty -> Rule := sample_rule "ChannelId" "Channel".

(** The rules for fields with the names of properties are not written. *)
Definition client_rules : list Rule :=
  [client_rule "ClientEnterView" "add"
     [map_property "TargetChannelId" "Channel" "update";
      function_property "away_cev_fun" ["AwayMessage"];
      function_property "talk_power_cev_fun" ["TalkPowerRequest"];
      function_property "return_none" ["ConnectionData"];
      function_property "return_none" ["OptionalData"]];
   client_rule "ClientUpdated" "update"
     [function_property "away_cu_fun" ["AwayMessage"]; function_property "talk_power_cu_fun" ["TalkPowerRequest"]];
   client_rule "ServerGroupClientAdded" "update" [map_property "Group" "ServerGroups" "add"];
   client_rule "ClientLeftView" "remove" [];
   sample_rule "ClientId" "ConnectionClientData" "ClientConnectionInfo" "update" [function_property "address_fun" ["ClientAddress"]];
   channel_rule "ChannelCreated" "add"
     [map_property "ParentId" "Parent" "update";
      function_property "channel_order_cc_fun" ["Order"];
      function_property "channel_type_cc_fun" ["ChannelType"];
      function_property "max_clients_cc_fun" ["MaxClients"; "MaxFamilyClients"];
      function_property "channel_codec_cc_fun" ["Codec"];
      function_property "return_false" ["Subscribed"];
      function_property "return_none" ["OptionalData"]];
   channel_rule "ChannelMoved" "update"
     [function_property "channel_order_cm_fun" ["Order"]; map_property "ParentId" "Parent" "update"];
   channel_rule "ChannelUnsubscribed" "update" [function_property "channel_unsubscribe_fun" ["Subscribed"]];
   channel_rule "ChannelDeleted" "remove" []]%string.

Definition client_events : list Event := Eval vm_compute in
  match declarations book_structs client_messages client_rules with Ok l => l | _ => [] end.

Definition client_types : list MessageType := Eval vm_compute in
  match message_types client_messages with Ok l => l | _ => [] end.

Lemma client_events_declared : declarations book_structs client_messages client_rules = Ok client_events.
Proof. vm_compute. reflexivity. Qed.

Lemma client_types_declared : message_types client_messages = Ok client_types.
Proof. vm_compute. reflexivity. Qed.

(** * Messages *)

Definition client_header : InHeader := {| ih_direction := S2C; ih_data := replicate 10 0 ++ [2] |}.

(** The messages that a book gets, one after the other. *)
Fixpoint run_messages (cmds : list string) (k : Book) : res (HandlerError BookError) (list GEvent) * Book :=
  match cmds with
  | [] => (Ok [], k)
  | cmd :: cmds =>
      match InMessage_new client_types client_header (byte_str cmd) with
      | Ok (t, m) =>
          match generated_handler client_events t m k with
          | (Ok (_, events), k) =>
              let '(r, k) := run_messages cmds k in ((let? rest := r in Ok (events ++ rest)), k)
          | (Err e, k) => (Err e, k)
          | (Panic, k) => (Panic, k)
          end
      | _ => (Panic, k)
      end
  end.

Definition no_clients : Book := {|
  own_client := 1;
  server := {| sv_id := 1; sv_public_key := true; sv_ips := []; sv_license := 0; sv_optional_data := None;
               sv_connection_data := None; sv_attrs := ∅ |};
  clients := ∅; channels := ∅; channel_groups := ∅; server_groups := ∅ |}.

(** The fields of a client that enters the view in channel 3. *)
Definition enter_view (fields : string) : string :=
  "notifycliententerview " ++ fields ++ " ctid=3 client_unique_identifier=Uw== client_type=0 client_away=1"
  ++ " client_away_message=tea client_talk_request=0 client_talk_request_msg client_input_muted=0 client_output_muted=0"
  ++ " client_input_hardware=1 client_output_hardware=1 client_outputonly_muted=0 client_talk_power=50"
  ++ " client_is_talker=0 reasonid=0".

Definition bob_enters : string := enter_view "clid=5 client_nickname=Bob links=1,2 client_servergroups=7,8,7".
Definition eve_enters : string := enter_view "clid=6 client_nickname=Eve links=1 client_servergroups=7".

Definition channel_created : string :=
  "notifychannelcreated cid=3 cpid=0 channel_order=0 channel_name=Lobby channel_maxclients=20 channel_flag_permanent=1 invokerid=5 invokername=Bob".

(** What an event tells: that something is added, changed or removed, the property and its ids as
    numbers. *)
Inductive Told := ToldAdded | ToldChanged | ToldRemoved.

Definition id_number (v : Value) : Z :=
  match v with
  | VOne (existT (SId _) z) => z
  | _ => -1
  end.

Definition told_of (e : GEvent) : Told * list Z * list Z :=
  match e with
  | GAdded id _ _ => (ToldAdded, pid_name id, id_number <$> pid_args id)
  | GChanged id _ _ _ => (ToldChanged, pid_name id, id_number <$> pid_args id)
  | GRemoved id _ _ _ => (ToldRemoved, pid_name id, id_number <$> pid_args id)
  end.

(** The events, or the name of the structure that is not found, and the clients. *)
Definition told (x : res (HandlerError BookError) (list GEvent) * Book)
    : res (list Z) (list (Told * list Z * list Z)) * list Z :=
  (match fst x with
   | Ok events => Ok (told_of <$> events)
   | Err (HandlerRemoveNotFound name) => Err name
   | Err (HandlerStore (NotFound what _)) => Err (byte_str what)
   | Err (HandlerStore _) => Err []
   | Panic => Panic
   end, (cl_id ∘ snd) <$> map_to_list (clients (snd x))).

(** A client comes, gets another name and another link, is not away any more, gets a group, and
    leaves. *)
Example client_story :
  told (run_messages [bob_enters; "notifyclientupdated clid=5 links=3,2 client_nickname=Bo client_away=0"%string;
      "notifyservergroupclientadded clid=5 sgid=9 invokerid=0 invokername=Z invokeruid=Y"%string;
      "notifyclientleftview clid=5 invokerid=0"%string] no_clients) =
    (Ok [(ToldAdded, byte_str "Client", [5]);
         (ToldChanged, byte_str "ClientAwayMessage", [5]);
         (ToldChanged, byte_str "ClientName", [5]);
         (ToldAdded, byte_str "ClientLink", [5; 3]);
         (ToldRemoved, byte_str "ClientLink", [5; 1]);
         (ToldAdded, byte_str "ClientServerGroup", [5; 9]);
         (ToldRemoved, byte_str "Client", [5])], []).
Proof. vm_compute. reflexivity. Qed.

(** A client that is not in the book is an error. *)
Example unknown_client : told (run_messages ["notifyclientleftview clid=5"%string] no_clients) = (Err (byte_str "Client"), []).
Proof. vm_compute. reflexivity. Qed.

(** The group 7, which the client has already, is told to be added. *)
Example group_added_again :
  told (run_messages [bob_enters;
    "notifyservergroupclientadded clid=5 sgid=7 invokerid=0 invokername=Z invokeruid=Y"%string] no_clients) =
    (Ok [(ToldAdded, byte_str "Client", [5]); (ToldAdded, byte_str "ClientServerGroup", [5; 7])], [5]).
Proof. vm_compute. reflexivity. Qed.

(** A new channel is put above another one; when the own client stops to listen to it, its clients
    are gone. *)
Example channel_story :
  told (run_messages [channel_created; "notifychannelcreated cid=4 cpid=0 channel_order=0 channel_name=Top invokerid=5 invokername=Bob"%string;
      bob_enters; eve_enters; "notifychannelmoved cid=4 cpid=0 channel_order=3"%string; "notifychannelunsubscribed cid=3"%string] no_clients) =
    (Ok [(ToldAdded, byte_str "Channel", [3]);
         (ToldChanged, byte_str "ChannelOrder", [3]);
         (ToldAdded, byte_str "Channel", [4]);
         (ToldAdded, byte_str "Client", [5]);
         (ToldAdded, byte_str "Client", [6]);
         (ToldChanged, byte_str "ChannelOrder", [4]);
         (ToldChanged, byte_str "ChannelOrder", [3]);
         (ToldChanged, byte_str "ChannelParent", [4]);
         (ToldChanged, byte_str "ChannelSubscribed", [3]);
         (ToldRemoved, byte_str "Client", [5]);
         (ToldRemoved, byte_str "Client", [6])], []).
Proof. vm_compute. reflexivity. Qed.

(** ** The book keeps its types *)

Lemma no_clients_typed : book_typed book_structs client_events no_clients.
Proof.
  split; [|split_and!; apply map_Forall_empty]. split; [|done]. split.
  - repeat constructor; cbn; try done; try (by exists []); by repeat constructor.
  - intros s Hs. by vm_compute in Hs.
Qed.

(** A client comes, and its channel is closed. *)
Lemma handler_typed_witness :
  match InMessage_new client_types client_header (byte_str bob_enters) with
  | Ok (t, m) => let '(r, k) := generated_handler client_events t m (no_clients : GBook) in no_panic r = true /\ book_typed book_structs client_events k
  | Err _ => True
  | Panic => False
  end.
Proof.
  assert (declarations_ok book_structs client_types client_events = true) as Hok by (vm_compute; reflexivity).
  assert (written_ok book_structs client_types client_events = true) as Hw by (vm_compute; reflexivity).
  assert (bytes (byte_str bob_enters)) as Hb by (by apply (bool_decide_unpack _)).
  assert (no_panic (InHeader_packet_type client_header) = true) as Hh by reflexivity.
  pose proof (handler_typed client_messages book_structs client_types client_events client_header (byte_str bob_enters) no_clients
    client_types_declared Hok Hw Hb Hh no_clients_typed) as Htyped.
  exact Htyped.
Defined.

(** * An update *)

Definition update_event : Event := Eval vm_compute in nth 1 client_events
  {| ev_op := Update; ev_id := []; ev_msg := sample_message "" "" []; ev_book_struct := client_struct; ev_rules := [] |}.
Definition update_type : MessageType := Eval vm_compute in nth 1 client_types sample_type.

Definition bob : Obj :=
  list_to_map [(byte_str "id", VOne (existT (SId 16) 5));
               (byte_str "name", VOne (existT SStr (byte_str "Bob")));
               (byte_str "links", VVec [existT (SId 64) 1; existT (SId 64) 2]);
               (byte_str "server_groups", VSet [existT (SId 64) 7])].

Definition update_part : Part := [Some (One (SId 16) 5); Some (One SStr (byte_str "Bo")); Some (Many (SId 64) [3; 2]);
  None; None; None; None].

Definition update_result : res (HandlerError BookError) (Obj * list GEvent) :=
  apply_rules update_type update_event update_part None VNone (ev_rules update_event) bob [].

(** The events undo the links 3 and 2 to 1 and 2. *)
Lemma update_told_witness :
  match update_result with
  | Ok (r, events) =>
      (forall name, name ∉ attr_name <$> targets (ev_rules update_event) -> r !! name = bob !! name) /\
      (forall to, to ∈ targets (ev_rules update_event) ->
        exists old new, bob !! attr_name to = Some old /\ r !! attr_name to = Some new /\
          same_value old (undo (full_name update_event to) events new))
  | _ => False
  end.
Proof.
  assert (is_ok update_result = true) as Hok by (vm_compute; reflexivity).
  destruct update_result as [[r events]| |] eqn:Hr; [|done..]. clear Hok.
  apply (update_told update_type update_event update_part None VNone bob r events).
  - apply (bool_decide_unpack _). vm_compute. done.
  - apply (bool_decide_unpack _). vm_compute. done.
  - apply (bool_decide_unpack _). vm_compute. done.
  - repeat constructor.
  - exact Hr.
Defined.
