(* ===== verification/BookRequests.v ===== *)
(** The messages that change the book, as the template [ts-bookkeeping/build/BookToMessages.tt]
    generates the functions that make them, for any declarations: the part of a message is filled
    from an object, from the arguments and from written functions, and its optional fields are set
    afterwards.  Code that the compiler would refuse for its types is a panic; that a value cannot
    be moved out of a reference is not part of the model. *)
From stdpp Require Import strings gmap.
From S2P Require Import Prelude Text Packets Commands InitPackets CryptoLib Ip Book Strings Types Declarations Values Messages BookToMessages BookHandler.
#[local] Open Scope Z_scope.

Section values.
Context `{Floats} `{Times} `{SocketAddrs} `{!ValueEq} `{OpaqueValues} `{DeclaredEnums} `{Base64Enc} `{Base64Dec} `{Heck}.

(** * Conversions

    [into] to the type of a field: the same type, or a wider integer.  A duration has one type,
    whatever its unit on the wire is. *)
Definition into_scalar (s s' : scalar) : rust_value s -> option (rust_value s') :=
  match s, s' return rust_value s -> option (rust_value s') with
  | SInt w, SInt w' => fun z => if w <=? w' then Some z else None
  | SUint w, SUint w' => fun z => if w <=? w' then Some z else None
  | SUint w, SInt w' => fun z => if w <? w' then Some z else None
  | SFloat w, SFloat w' => fun f =>
      match Z.eq_dec w w' with left same => Some (eq_rect w Float f w' same) | right _ => None end
  | SBool, SBool => Some
  | SUid, SUid => Some
  | SStr, SStr => Some
  | SIconId, SIconId => Some
  | SId w, SId w' => fun z => if w =? w' then Some z else None
  | SIpAddr, SIpAddr => Some
  | SSocketAddr, SSocketAddr => Some
  | SClientType, SClientType => Some
  | SEnum name, SEnum name' => fun z => if bool_decide (name = name') then Some z else None
  | SFlags name, SFlags name' => fun z => if bool_decide (name = name') then Some z else None
  | SDurationSeconds, SDurationSeconds | SDurationSeconds, SDurationMilliseconds
  | SDurationSeconds, SDurationMillisecondsFloat | SDurationMilliseconds, SDurationSeconds
  | SDurationMilliseconds, SDurationMilliseconds | SDurationMilliseconds, SDurationMillisecondsFloat
  | SDurationMillisecondsFloat, SDurationSeconds | SDurationMillisecondsFloat, SDurationMilliseconds
  | SDurationMillisecondsFloat, SDurationMillisecondsFloat => fun d : Duration => Some d
  | SDateTime, SDateTime => Some
  | _, _ => fun _ => None
  end.

Definition into_item (s : scalar) (i : Item) : option (rust_value s) := into_scalar (projT1 i) s (projT2 i).

(** The elements of a list are not converted. *)
Definition is_duration (s : scalar) : bool :=
  match s with SDurationSeconds | SDurationMilliseconds | SDurationMillisecondsFloat => true | _ => false end.

Definition same_item (s : scalar) (i : Item) : option (rust_value s) :=
  if bool_decide (projT1 i = s) || is_duration s then into_item s i else None.

Definition into (t : field_type) (v : Value) : option field_value :=
  match t, v with
  | TOne s, VOne i => One s <$> into_item s i
  | TMany s, VVec l => Many s <$> mapM (same_item s) l
  | _, _ => None
  end.

(** * Written functions *)

(** The functions that rules name: of an object ([self.name(..)]) or of a structure
    ([Struct::name(..)]), with an argument or without, give a value for every field of the rule. *)
Class BookFunctions := {
  self_fun : list Z -> Obj -> option Value -> list Value;
  struct_fun : list Z -> list Z -> option Value -> list Value;
}.

Context `{BookFunctions}.

(** The variables of a generated function: its arguments and what [let] binds. *)
Definition Vars : Type := gmap (list Z) Value.

(** [let (a, b) = values;] *)
Fixpoint bind_fields (to : list Field) (values : list Value) (vars : Vars) : res ParseError Vars :=
  match to, values with
  | [], [] => Ok vars
  | f :: to, v :: values => bind_fields to values (<[Field_get_rust_name f := v]> vars)
  | _, _ => Panic
  end.

Definition call_with (f : list Z -> option Value -> list Value) (r : RuleKind) (vars : Vars) : res ParseError Vars :=
  match r with
  | FunctionRule _ name to => bind_fields to (f name None) vars
  | ArgumentFunction from _ name to =>
      let? arg := unwrap (vars !! to_snake_case from) in
      bind_fields to (f name (Some arg)) vars
  | MapRule _ _ | ArgumentMap _ _ => Ok vars
  end.

Definition call_func (obj : Obj) (r : RuleKind) (vars : Vars) : res ParseError Vars :=
  call_with (fun name arg => self_fun name obj arg) r vars.
Definition call_func2 (struct : list Z) (r : RuleKind) (vars : Vars) : res ParseError Vars :=
  call_with (fun name arg => struct_fun struct name arg) r vars.

Fixpoint call_funcs (obj : Obj) (rules : list RuleKind) (vars : Vars) : res ParseError Vars :=
  match rules with
  | [] => Ok vars
  | r :: rules => let? vars := call_func obj r vars in call_funcs obj rules vars
  end.

(** * The part of a message *)

Section event.
Context (e : Event) (t : MessageType).

(** The expression that a field is filled from: an attribute of [self] or a variable. *)
Definition from_value (obj : Obj) (vars : Vars) (from_rule : bool) (r : RuleKind) (f : Field) : option Value :=
  match r with
  | MapRule from _ => if from_rule then vars !! to_snake_case (p_name from) else obj !! to_snake_case (p_name from)
  | ArgumentMap from _ => vars !! to_snake_case from
  | FunctionRule _ _ _ | ArgumentFunction _ _ _ _ => vars !! Field_get_rust_name f
  end.

(** A field is an option exactly if its attribute is; the compiler refuses the rest. *)
Definition create_field (rule : option RuleKind) (obj : Obj) (vars : Vars) (a : Attribute)
    : res ParseError (option field_value) :=
  let field := at_field a in
  let '(from_rule, found) := find_rule e rule field in
  match found with
  | Some r =>
      let? v := unwrap (from_value obj vars from_rule r field) in
      let? v := unwrap (into (at_type a) v) in
      if bool_decide (Field_is_opt field (ev_msg e) = at_opt a) then Ok (Some v) else Panic
  | None => if at_opt a then Ok None else Panic
  end.

Definition create_message (rule : option RuleKind) (obj : Obj) (args : Vars) : res ParseError Part :=
  let? vars := call_funcs obj (ev_ids e ++ option_list rule) args in
  res_mapM (create_field rule obj vars) (mt_attributes t).

(** The function of an update gives the part; [set_x] sets optional fields of it. *)
Definition change_object (obj : Obj) (args : Vars) : res ParseError Part := create_message None obj args.

(** [self.field = Some(v.into());] *)
Definition assign (f : Field) (v : Value) (part : Part) : res ParseError Part :=
  match list_find (fun a => at_field a = f) (mt_attributes t) with
  | Some (i, a) =>
      let? v := unwrap (into (at_type a) v) in
      if at_opt a then Ok (<[i := Some v]> part) else Panic
  | None => Panic
  end.

Fixpoint assign_fields (to : list Field) (vars : Vars) (part : Part) : res ParseError Part :=
  match to with
  | [] => Ok part
  | f :: to =>
      let? v := unwrap (vars !! Field_get_rust_name f) in
      let? part := assign f v part in
      assign_fields to vars part
  end.

(** [set_x]: its argument has the name of the rule. *)
Definition set_field (r : RuleKind) (arg : Value) (part : Part) : res ParseError Part :=
  let? name := match from_name r with Ok name => Ok name | _ => Panic end in
  let? vars := call_func2 (st_name (ev_book_struct e)) r {[to_snake_case name := arg]} in
  match r with
  | MapRule _ to | ArgumentMap _ to => let? v := unwrap (vars !! to_snake_case name) in assign to v part
  | FunctionRule _ _ to | ArgumentFunction _ _ _ to => assign_fields to vars part
  end.

Fixpoint set_fields (sets : list (RuleKind * Value)) (part : Part) : res ParseError Part :=
  match sets with
  | [] => Ok part
  | (r, v) :: sets => let? part := set_field r v part in set_fields sets part
  end.

(** [to_packet] of a part, and the functions that add to an object and remove it, which give the
    command at once. *)
Definition part_to_packet (part : Part) : res ParseError OutPacket := OutMsg_new t [part] None.

Definition change_command (obj : Obj) (args : Vars) (rule : option RuleKind) : res ParseError OutPacket :=
  let? part := create_message rule obj args in
  part_to_packet part.

End event.
End values.
