(* ===== verification/BookRequestsSpec.v ===== *)
(** What a user sets is what the server reads: the messages that change the book, over the wire. *)
From stdpp Require Import strings gmap.
From S2P Require Import Prelude Text Packets Commands InitPackets CryptoLib Ip Book Strings Types Declarations Values ValuesSpec Messages MessagesSpec BookHandler BookStores BookHandlerRun BookToMessages BookRequests.
#[local] Open Scope Z_scope.

Section spec.
Context `{Floats} `{Times} `{SocketAddrs} `{!ValueEq} `{OpaqueValues} `{DeclaredEnums} `{Base64Laws} `{!ValueLaws} `{Heck} `{!BookFunctions}.

(** * Values for fields *)

(** The value can be written for the attribute. *)
Definition fits (a : Attribute) (v : Value) : Prop :=
  exists fv, into (at_type a) v = Some fv /\ field_in_range fv.

Lemma into_type t v fv : into t v = Some fv -> has_type t fv.
Proof.
  destruct t as [s|s], v as [i|l| | | |]; try done; cbn; [by destruct (into_item s i); intros [= <-]|].
  by destruct (mapM _ l); intros [= <-].
Qed.

(** Every attribute is filled from a rule with a value that fits, or may be left out. *)
Definition given (e : Event) (obj : Obj) (vars : Vars) (a : Attribute) : Prop :=
  match find_rule e None (at_field a) with
  | (_, Some r) => Field_is_opt (at_field a) (ev_msg e) = at_opt a /\
      exists v, from_value obj vars false r (at_field a) = Some v /\ fits a v
  | (_, None) => at_opt a = true
  end.

(** What a call of a setter assigns: its argument to the field of the rule, or the results of the
    written function to the fields of the rule. *)
Definition assigned (e : Event) (x : RuleKind * Value) : list (Field * Value) :=
  let call := struct_fun (st_name (ev_book_struct e)) in
  match fst x with
  | MapRule _ to | ArgumentMap _ to => [(to, snd x)]
  | FunctionRule _ name to => zip to (call name None)
  | ArgumentFunction _ _ name to => zip to (call name (Some (snd x)))
  end.

(** An attribute that may be left out gets a value that fits. *)
Definition assignable (t : MessageType) (fv : Field * Value) : Prop :=
  exists i a, list_find (fun a => at_field a = fst fv) (mt_attributes t) = Some (i, a) /\ at_opt a = true /\ fits a (snd fv).

(** The setter exists, and its values fit: a written function has one result for every field of its
    rule, and the fields have different names. *)
Definition settable (e : Event) (t : MessageType) (x : RuleKind * Value) : Prop :=
  Forall (assignable t) (assigned e x) /\
  let call := struct_fun (st_name (ev_book_struct e)) in
  match fst x with
  | MapRule _ _ | ArgumentMap _ _ => True
  | FunctionRule from name to =>
      is_Some from /\ length (call name None) = length to /\ NoDup (Field_get_rust_name <$> to)
  | ArgumentFunction _ _ name to =>
      length (call name (Some (snd x))) = length to /\ NoDup (Field_get_rust_name <$> to)
  end.

(** The value that a request has for an attribute: what was set last, what the ids give, or
    nothing. *)
Definition base_value (e : Event) (obj : Obj) (vars : Vars) (a : Attribute) : option field_value :=
  r ← snd (find_rule e None (at_field a));
  v ← from_value obj vars false r (at_field a);
  into (at_type a) v.

Definition set_value (a : Attribute) (base : option field_value) (fv : Field * Value) : option field_value :=
  if bool_decide (fst fv = at_field a) then into (at_type a) (snd fv) else base.

Definition requested (e : Event) (obj : Obj) (vars : Vars) (sets : list (RuleKind * Value)) (a : Attribute) : option field_value :=
  foldl (set_value a) (base_value e obj vars a) (mjoin (assigned e <$> sets)).

(** * Making the part *)

Lemma one_var name (v : Value) : ({[name := v]} : Vars) !! name = Some v.
Proof. exact (lookup_singleton_eq (M := gmap (list Z)) name v). Qed.

Lemma created e t obj args vars :
  call_funcs obj (ev_ids e) args = Ok vars -> Forall (given e obj vars) (mt_attributes t) ->
  change_object e t obj args = Ok (base_value e obj vars <$> mt_attributes t) /\
  part_ok t (base_value e obj vars <$> mt_attributes t).
Proof.
  intros Hvars Hg. unfold change_object, create_message. cbn [option_list]. rewrite app_nil_r, Hvars. cbn [res_bind].
  unfold part_ok. induction Hg as [|a attributes Ha _ [IH IHok]]; [done|]. cbn [res_mapM fmap list_fmap].
  assert (create_field e None obj vars a = Ok (base_value e obj vars a) /\ value_ok a (base_value e obj vars a)) as [-> Hok].
  { unfold given in Ha. unfold create_field, base_value. destruct (find_rule e None (at_field a)) as [b [r|]] eqn:Hf.
    - destruct Ha as (Ho & v & Hv & fv & Hfv & Hr). assert (b = false) as -> by (cbn in Hf; congruence).
      rewrite Hv. cbn. rewrite Hv. cbn. rewrite Hfv. cbn [unwrap res_bind]. rewrite Ho, bool_decide_true by done.
      split; [done|]. split; [by eapply into_type|done].
    - rewrite Ha. by split. }
  cbn [res_bind]. rewrite IH. cbn [res_bind]. split; [done|by constructor].
Qed.

(** The attributes have different fields. *)
Context (e : Event) (t : MessageType) (Hfields : NoDup (at_field <$> mt_attributes t)).

Lemma find_field_attribute f i a : list_find (fun a => at_field a = f) (mt_attributes t) = Some (i, a) ->
  forall j a', mt_attributes t !! j = Some a' -> at_field a' = f -> i = j.
Proof.
  intros (Ha & Hf & _)%list_find_Some j a' Ha' Hf'. apply (NoDup_lookup _ i j f Hfields); rewrite list_lookup_fmap.
  - rewrite Ha. cbn. by rewrite Hf.
  - rewrite Ha'. cbn. by rewrite Hf'.
Qed.

Lemma assign_one f v (g : Attribute -> option field_value) : assignable t (f, v) -> part_ok t (g <$> mt_attributes t) ->
  let part := (fun a => set_value a (g a) (f, v)) <$> mt_attributes t in
  assign t f v (g <$> mt_attributes t) = Ok part /\ part_ok t part.
Proof.
  intros (i & a & Hfind & Hopt & fv & Hfv & Hr) Hok part. cbn [fst snd] in *.
  pose proof Hfind as (Ha & Hat & _)%list_find_Some.
  assert (<[i := Some fv]> (g <$> mt_attributes t) = part) as <-.
  { apply list_eq. intros j. unfold Part, part. rewrite list_lookup_fmap. destruct (decide (i = j)) as [<-|Hne].
    + rewrite list_lookup_insert_eq by (rewrite length_fmap; by eapply lookup_lt_Some). rewrite Ha. cbn. f_equal.
      unfold set_value. cbn [fst snd]. by rewrite bool_decide_true, Hfv by done.
    + rewrite list_lookup_insert_ne, list_lookup_fmap by done. destruct (mt_attributes t !! j) as [a'|] eqn:Ha'; [|done].
      cbn. f_equal. unfold set_value. cbn [fst snd]. rewrite bool_decide_false; [done|]. intros Heq.
      by apply Hne, (find_field_attribute f i a Hfind j a'). }
  unfold assign. rewrite Hfind, Hfv. cbn [unwrap res_bind]. rewrite Hopt. split; [reflexivity|].
  unfold part_ok. rewrite <- (list_insert_id (mt_attributes t) i a Ha) at 1. apply Forall2_insert; [exact Hok|].
  split; [by eapply into_type|done].
Qed.

(** The results of a written function are bound to the names of their fields. *)
Lemma bind_fields_spec to : forall values vars, length values = length to -> NoDup (Field_get_rust_name <$> to) ->
  exists vars', bind_fields to values vars = Ok vars' /\
    (forall f v, (f, v) ∈ zip to values -> vars' !! Field_get_rust_name f = Some v) /\
    (forall name, name ∉ Field_get_rust_name <$> to -> vars' !! name = vars !! name).
Proof.
  induction to as [|f to IH]; intros [|v values] vars Hlen Hnd; try done.
  { exists vars. split_and!; [done| |done]. intros f v Hin. by apply not_elem_of_nil in Hin. }
  rewrite fmap_cons in Hnd. apply NoDup_cons in Hnd as [Hf Hnd]. cbn [bind_fields].
  destruct (IH values (<[Field_get_rust_name f := v]> vars) ltac:(by injection Hlen) Hnd) as (vars' & Hbind & Hin & Hout).
  exists vars'. split; [done|]. split.
  - intros f' v' [[= -> ->]|Hz]%elem_of_cons; [|by apply Hin]. rewrite Hout by done.
    exact (lookup_insert_eq (M := gmap (list Z)) vars (Field_get_rust_name f) v).
  - intros name [Hne Hn]%not_elem_of_cons. rewrite Hout by done.
    exact (lookup_insert_ne (M := gmap (list Z)) vars (Field_get_rust_name f) name v (not_eq_sym Hne)).
Qed.

Lemma assign_fields_spec to : forall values vars (g : Attribute -> option field_value), length values = length to ->
  (forall f v, (f, v) ∈ zip to values -> vars !! Field_get_rust_name f = Some v) ->
  Forall (assignable t) (zip to values) -> part_ok t (g <$> mt_attributes t) ->
  let part := (fun a => foldl (set_value a) (g a) (zip to values)) <$> mt_attributes t in
  assign_fields t to vars (g <$> mt_attributes t) = Ok part /\ part_ok t part.
Proof.
  induction to as [|f to IH]; intros [|v values] vars g Hlen Hvars Hall Hok; try done.
  cbn [zip zip_with] in *. apply Forall_cons in Hall as [Hfv Hall]. cbn [assign_fields].
  rewrite (Hvars f v ltac:(by left)). cbn [unwrap res_bind].
  destruct (assign_one f v g Hfv Hok) as [-> Hok']. cbn [res_bind].
  apply (IH values vars (fun a => set_value a (g a) (f, v))); [by injection Hlen| |done|done].
  intros f' v' Hin. apply Hvars. by right.
Qed.

(** One call of a setter. *)
Lemma set_one x (g : Attribute -> option field_value) : settable e t x -> part_ok t (g <$> mt_attributes t) ->
  let part := (fun a => foldl (set_value a) (g a) (assigned e x)) <$> mt_attributes t in
  set_field e t (fst x) (snd x) (g <$> mt_attributes t) = Ok part /\ part_ok t part.
Proof.
  destruct x as [r v]. intros [Hall Hs] Hok part. subst part. unfold set_field. cbn [fst snd] in *.
  destruct r as [from to|from to|from name to|from ty name to]; cbn [assigned fst snd] in *.
  - cbn [from_name res_bind call_func2 call_with]. unfold call_func2. cbn [call_with res_bind]. rewrite one_var.
    cbn [unwrap res_bind]. apply Forall_inv in Hall. by apply (assign_one to v g).
  - cbn [from_name res_bind call_func2 call_with]. unfold call_func2. cbn [call_with res_bind]. rewrite one_var.
    cbn [unwrap res_bind]. apply Forall_inv in Hall. by apply (assign_one to v g).
  - destruct Hs as ([from' ->] & Hlen & Hnd). cbn [from_name unwrap res_bind]. unfold call_func2. cbn [call_with].
    destruct (bind_fields_spec to _ {[to_snake_case (p_name from') := v]} Hlen Hnd) as (vars & -> & Hin & _).
    cbn [res_bind]. by apply assign_fields_spec.
  - destruct Hs as (Hlen & Hnd). cbn [from_name res_bind]. unfold call_func2. cbn [call_with]. rewrite one_var.
    cbn [unwrap res_bind].
    destruct (bind_fields_spec to _ {[to_snake_case from := v]} Hlen Hnd) as (vars & -> & Hin & _).
    cbn [res_bind]. by apply assign_fields_spec.
Qed.

Lemma set_all sets : forall (g : Attribute -> option field_value), Forall (settable e t) sets -> part_ok t (g <$> mt_attributes t) ->
  let part := (fun a => foldl (set_value a) (g a) (mjoin (assigned e <$> sets))) <$> mt_attributes t in
  set_fields e t sets (g <$> mt_attributes t) = Ok part /\ part_ok t part.
Proof.
  induction sets as [|x sets IH]; intros g Hs Hg; [by split|]. apply Forall_cons in Hs as [Hx Hs].
  destruct (set_one x g Hx Hg) as [Hset Hpart]. cbn [set_fields]. destruct x as [r v]. cbn [fst snd] in *.
  rewrite Hset. cbn [res_bind].
  assert (((fun a => foldl (set_value a) (g a) (mjoin (assigned e <$> (r, v) :: sets))) <$> mt_attributes t)
    = ((fun a => foldl (set_value a) (foldl (set_value a) (g a) (assigned e (r, v))) (mjoin (assigned e <$> sets)))
         <$> mt_attributes t)) as ->.
  { apply list_fmap_ext. intros i a _. rewrite fmap_cons. cbn [mjoin list_join]. by rewrite foldl_app. }
  exact (IH (fun a => foldl (set_value a) (g a) (assigned e (r, v))) Hs Hpart).
Qed.

(** A single part is read as it was written. *)
Lemma one_part_begins part : begins t [part] None = true.
Proof.
  unfold begins, message_items, code_items. destruct (response (mt_default t)); cbn [app parts_items].
  all: assert (forall attributes part, match part_items attributes part with NextPart :: _ => false | _ => true end = true) as Hb
    by (intros attributes; induction attributes as [|a attributes IH]; intros [|[v|] part']; try done; apply IH).
  all: apply Hb.
Qed.

(** C3: A request to change an object, with any sequence of calls of the generated setters, does not
    panic, and the server that gets its packet reads one part: every attribute has the value that
    was assigned last, else what the ids of the event give (attributes of the object, arguments of the
    function or results of written functions), else no value.  A setter assigns its argument, or the
    results of the written function of its rule, to optional attributes.  The values have the types
    and the ranges of their attributes; the declaration is that of a request with an alphanumeric
    name of its own.  Read is what the text of a value says ([part_written]: times cut to their unit,
    the rest as it was). *)
Theorem request_read_back (types : list MessageType) (name : list Z) (header : InHeader)
    (obj : Obj) (args vars : Vars) (sets : list (RuleKind * Value)) :
  type_ok t -> m_notify (mt_message t) = Some name -> notify_group types name = [t] ->
  name <> [] -> forallb is_ascii_alphanumeric name = true -> header_ok t header ->
  call_funcs obj (ev_ids e) args = Ok vars -> Forall (given e obj vars) (mt_attributes t) -> Forall (settable e t) sets ->
  exists base part q content,
    change_object e t obj args = Ok base /\ set_fields e t sets base = Ok part /\ part_to_packet t part = Ok q /\
    OutPacket_content q = Ok content /\
    InMessage_new types header content = Ok (t, {| im_return_code := None; im_list := [part_written part] |}) /\
    part = requested e obj vars sets <$> mt_attributes t.
Proof using All.
  intros Hok Hnot Hgroup Hne Hname Hh Hvars Hgiven Hsets.
  destruct (created e t obj args vars Hvars Hgiven) as [Hbase Hbok].
  destruct (set_all sets (base_value e obj vars) Hsets Hbok) as [Hset Hpok].
  destruct (message_wire types t name header [requested e obj vars sets <$> mt_attributes t] None) as (q & content & Hq & Hc & Hm);
    try done; [by repeat constructor|by apply one_part_begins|].
  eexists _, _, q, content. split_and!; [exact Hbase|exact Hset|exact Hq|exact Hc| |done].
  rewrite Hm. by destruct (response (mt_default t)).
Qed.

End spec.

(** * A request to change a client of the book, up to the text on the wire *)

(** One written function: it gives an id for a name, and the name. *)
#[global] Instance one_function : BookFunctions := {|
  self_fun _ _ _ := [];
  struct_fun _ name arg :=
    match arg with
    | Some v => if bool_decide (name = byte_str "invoker") then [VOne (existT (SId 16) 9); v] else []
    | None => []
    end;
|}.

Definition request_messages : MessageDeclarations := {|
  fields := fields client_messages;
  msg_group := [{|
    g_default := {| s2c := false; c2s := true; response := true; low := false; np := true |};
    g_msg := [sample_message "ClientEdit" "clientedit" ["clid"; "name?"; "links?"; "invokerid?"; "invokername?"]%string] |}];
|}.

Definition edit_rule : Rule :=
  {| r_from := byte_str "Client"; r_to := byte_str "ClientEdit"; r_operation := byte_str "update";
     r_ids := [{| rp_from := Some (byte_str "Id"); rp_to := Some (byte_str "ClientId"); rp_type_s := None;
                  rp_function := None; rp_tolist := None |}];
     r_properties := [{| rp_from := Some (byte_str "Who"); rp_to := None; rp_type_s := Some (byte_str "&str");
                         rp_function := Some (byte_str "invoker");
                         rp_tolist := Some [byte_str "InvokerId"; byte_str "InvokerName"] |}] |}.

Definition edit_event : Event := Eval vm_compute in
  match event_of book_structs request_messages edit_rule with
  | Ok e => e
  | _ => {| ev_op := Update; ev_msg := sample_message "" "" []; ev_book_struct := client_struct; ev_ids := []; ev_rules := [] |}
  end.

Definition edit_type : MessageType := Eval vm_compute in
  match message_types request_messages with Ok [t] => t | _ => sample_type end.

Lemma edit_event_declared : event_of book_structs request_messages edit_rule = Ok edit_event.
Proof. vm_compute. reflexivity. Qed.

Definition who_rule : RuleKind := Eval vm_compute in nth 0 (ev_rules edit_event) (ArgumentMap [] (sample_field "" "" "" "" None)).
Definition name_rule : RuleKind := Eval vm_compute in nth 1 (ev_rules edit_event) (ArgumentMap [] (sample_field "" "" "" "" None)).
Definition links_rule : RuleKind := Eval vm_compute in nth 2 (ev_rules edit_event) (ArgumentMap [] (sample_field "" "" "" "" None)).

Definition edits : list (RuleKind * Value) :=
  [(name_rule, VOne (existT SStr (byte_str "Eve")));
   (links_rule, VVec [existT (SId 64) 4]);
   (who_rule, VOne (existT SStr (byte_str "Tim")));
   (name_rule, VOne (existT SStr (byte_str "Ann B")))].

Definition edit_header : InHeader := {| ih_direction := C2S; ih_data := replicate 12 0 ++ [2] |}.

Lemma edit_type_ok : type_ok edit_type.
Proof.
  split.
  - done.
  - by apply (bool_decide_unpack _).
  - by apply (bool_decide_unpack _).
  - repeat constructor; done.
  - repeat constructor.
Qed.

(** The bytes of the request. *)
Example edit_text :
  match (let? base := change_object edit_event edit_type bob ∅ in
         let? part := set_fields edit_event edit_type edits base in
         part_to_packet edit_type part) with
  | Ok q => match OutPacket_content q with
            | Ok content => bool_decide (content = byte_str "clientedit clid=5 client_nickname=Ann\sB links=4 invokerid=9 invokername=Tim")
            | _ => false
            end
  | _ => false
  end = true.
Proof. vm_compute. reflexivity. Qed.

Lemma request_read_back_witness : exists base part q content,
  change_object edit_event edit_type bob ∅ = Ok base /\ set_fields edit_event edit_type edits base = Ok part /\
  part_to_packet edit_type part = Ok q /\ OutPacket_content q = Ok content /\
  InMessage_new [edit_type] edit_header content =
    Ok (edit_type, {| im_return_code := None; im_list := [part_written part] |}) /\
  part = requested edit_event bob ∅ edits <$> mt_attributes edit_type.
Proof.
  apply (request_read_back edit_event edit_type) with (name := byte_str "clientedit") (vars := ∅).
  - by apply (bool_decide_unpack _).
  - exact edit_type_ok.
  - reflexivity.
  - reflexivity.
  - done.
  - reflexivity.
  - by split.
  - reflexivity.
  - apply Forall_cons. split; [|by repeat constructor].
    split; [reflexivity|]. eexists. split; [reflexivity|]. eexists. split; [reflexivity|]. done.
  - assert (forall r v f, assigned edit_event (r, v) = [(f, v)] -> assignable edit_type (f, v) ->
      match r with MapRule _ _ => True | _ => False end -> settable edit_event edit_type (r, v)) as Hmap.
    { intros r v f Ha Hf Hr. split; [rewrite Ha; by constructor|]. by destruct r. }
    apply Forall_cons_2; [|apply Forall_cons_2; [|apply Forall_cons_2; [|apply Forall_cons_2; [|constructor]]]].
    + eapply Hmap; [reflexivity| |done].
      eexists _, _. split; [reflexivity|]. split; [reflexivity|]. eexists. by split; [reflexivity|].
    + eapply Hmap; [reflexivity| |done].
      eexists _, _. split; [reflexivity|]. split; [reflexivity|]. eexists. split; [reflexivity|].
      split; [done|]. by repeat constructor.
    + split; [|split; [reflexivity|by apply (bool_decide_unpack _)]].
      apply Forall_cons_2; [|apply Forall_cons_2; [|constructor]];
        (eexists _, _; split; [reflexivity|]; split; [reflexivity|]; eexists; by split; [reflexivity|]).
    + eapply Hmap; [reflexivity| |done].
      eexists _, _. split; [reflexivity|]. split; [reflexivity|]. eexists. by split; [reflexivity|].
Defined.
